(* ===== verification/_CoqProject ===== *)
-Q . S2P
Prelude.v
Doubles.v
Rounding.v
Text.v
ClockTypes.v
CivilTime.v
IpPrefix.v
MinuteRing.v
ClientTally.v
RateLimiter.v
TimeContinuity.v
TimeFrameVoter.v
Intersection.v
SourceTypes.v
Selector.v
NtpServer.v
OffsetEstimator.v
NtpClient.v
TimeCode.v
Signals.v
EnvelopeRing.v
Msf.v
MsfSignal.v
Dcf77.v
Dcf77Pm.v
Dcf77Signal.v
Wwv.v
WwvLabels.v
WwvTick.v
WwvSignal.v
Wwvb.v
WwvbSignal.v
Allouis.v
AllouisSignal.v
SampleClock.v
CaptureClock.v
Propagation.v
Source.v
SourceSteps.v
Nmea.v
Pps.v
NmeaTcp.v
Events.v
