(* ===== verification/Prelude.v ===== *)
(** * ubersdr-ntp: a verification development

    ubersdr-ntp is a time server: it takes UTC from radio time signals (WWV/WWVH,
    WWVB, DCF77, MSF, Allouis) received through remote UberSDR receivers, and from
    other NTP servers, and serves it by NTP. This library models its C++ sources
    under src/src/ as executable definitions and proves what makes them right.

    ** How the program fits together

    Audio comes from a receiver over a WebSocket (Source.cpp). A decoder
    (clock/*Decoder.cpp) finds second edges and classifies seconds, frames the
    minute and reads its time code; the frame voter (clock/TimeFrameVoter.cpp)
    combines minutes and says when a time may be believed. The source times
    samples (SampleClock.cpp), checks each decoded time against its own history
    (TimeContinuity.cpp), forms an offset per second and filters them
    (OffsetEstimator.cpp). An NTP peer (NtpClient.cpp) forms offsets from replies
    instead. The selector (Selector.cpp) judges all sources against each other
    and combines the largest set that agrees; the server (NtpServer.cpp) answers
    clients from its answer, within a rate limit (RateLimiter.cpp), and tallies
    who asked (ClientTally.cpp). The same answer is marked as a pulse a second on a
    serial port (Pps.cpp) and named in NMEA sentences there and over TCP
    (NmeaServer.cpp), and each pass of the main loop is compared with the one
    before for the history of events (Events.cpp).

    ** The files

    - Prelude: machine integers with their wrap-around, list lemmas, the hint
      database [ubersdr], the tactics [zbool], [dlia].
    - Doubles, Rounding: binary64 as Rocq's primitive floats, the conversions to
      integers, an order key, the monotonicity of rounding the proofs use, and
      distances from whole numbers.
    - Text: decimal and hexadecimal text, [%.nf].
    - ClockTypes, CivilTime: the types decoders exchange; CivilTime.h.
    - IpPrefix, MinuteRing, ClientTally, RateLimiter: IpPrefix.h, the ring of
      minutes the tally and the server share, ClientTally.cpp, RateLimiter.cpp.
      The class [Inet] stands for inet_pton and inet_ntop.
    - TimeContinuity, TimeFrameVoter, OffsetEstimator: the files of those names.
      The class [Pow] stands for powf and pow.
    - SourceTypes: the configuration and the snapshot the selector reads.
    - Intersection, Selector: the interval agreement, and Selector.cpp's
      combine() as [combine], a state transformer over its members.
    - NtpServer: one datagram, from receipt to reply bytes, as [serveOne].
    - NtpClient: a peer, its poll as [pollOnce] and run() as a step function.
    - TimeCode: what decoders share: the WWVB-shaped frame they make for the
      voter out of a decoded minute, and windows of such frames.
    - Signals: what signal chains share: rings of samples, the carrier's comb, the
      mixing oscillator, an edge tracker. The class [Libm] stands for the C++
      library's cos, sin, exp, log10, hypot and atan2.
    - EnvelopeRing: the envelope of a keyed carrier, its percentiles and its falls.
    - A decoder is two files. The first (Msf, Dcf77, Wwvb, Allouis, Wwv) is what it
      does with a classified second: [processSecond], [handleSecond], [input] or
      [recordSecond]; the second (MsfSignal, Dcf77Signal, WwvbSignal, AllouisSignal,
      WwvSignal) is what comes before, from the samples on: [feed], [process],
      [perform]. WwvLabels keeps, beside a run of Wwv, the seconds and frames since
      they last began again. Dcf77Pm is the part of DCF77's that reads the chips on the
      carrier's phase: the correlation, the searches, the tracking of a burst.
      WwvTick is the timer of WWV's seconds tick, whose class [CMul] stands for what
      the compiler's library makes of a complex product that comes out NaN.
    - SampleClock, CaptureClock: SampleClock.cpp, with its guard on host slew.
    - Propagation: Propagation.cpp and Uncertainty.cpp. The class [Trig] stands
      for the trigonometric functions of the C++ library.
    - Source, SourceSteps: Source.cpp. A decoder is there what it answers to each
      block of samples ([Output]); one call under the lock is one step ([Op]).
    - Nmea: the sentences, the names of the seconds ([next]) and their instants
      ([secondAfter]), shared by Pps (the thread of Pps.cpp, a turn as [second]) and
      NmeaTcp (that of NmeaServer.cpp, a turn as [turn]). What is done to the port
      or the sockets is a list of actions.
    - Events: Events.cpp, the log as [add], a pass of the monitor as [observe].

    ** What is proved

    - The answer served: made of believable sources only, from a largest agreeing
      set; the serving class changes only after its hold-down; coasting goes on
      from the last time served, is bounded and says so; two sources never convict each other (Selector). Replies are
      well formed and honest about leap, stratum and dispersion; the server answers
      clients only; its counters account for every datagram (NtpServer).
    - Upstream: only the server's answer to this request counts; this client
      understands this server; the filter neither repeats nor starves (NtpClient).
    - Decoding: the vote never assembles a phantom and reads clean windows right;
      a lock needs its evidence (TimeFrameVoter). The MSF code decodes to the
      minute sent, parity refuses errors, clean minutes are told right (Msf); DCF77
      reads what it predicts, with summer time by the European rule (Dcf77);
      Allouis gives the minute sent or none, whatever one bit was not read
      (Allouis); a label needs a locked vote in each of them. A WWV label is the locked vote on the frames of the seconds heard
      since they last began again, and on nothing else (WwvLabels). WWVB's labels over
      clean minutes are true, leap seconds included (Wwvb). WWV, started cold
      anywhere in a minute, anchors when it can and not before, and its labels are
      true, leap seconds included; its station tag changes on evidence (Wwv).
    - Signal chains: whatever the samples, and whatever the library's transcendental
      functions answer, rings are read only where they hold what is wanted, every
      sample is counted, and the decoder of seconds runs on seconds and its own
      events alone (WwvbSignal, whose ring holds the means of the samples' magnitudes,
      block by block; AllouisSignal; WwvSignal). MsfSignal stops exactly at two
      reads, which are characterised; Dcf77Signal at one at most, and carries the
      labels' guarantee through from samples. DCF77's correlation, regrouped
      by changes of chip, is the correlation chip by chip (Dcf77Pm).
    - A source: every verdict on a decoded time is the one the log of earlier readings
      and filtered offsets calls for, a held step adopted, an announced leap taken at once
      (TimeContinuity); holds are bounded, the level withstands a disturbed
      minority (OffsetEstimator); the sample clock fits the newest of the
      fastest packets, a point for each closed bucket (SampleClock); capture
      times are trusted only after the host clock held its rate; a tight
      uncertainty is earned; the state stays well formed; an offset is formed only
      where it may be; a leap warning needs three frames; a gap is filled exactly
      (SourceSteps).
    - What is told outside: the labels go through a leap second as UTC does; a ZDA is
      read back as the second it was written for and a changed one is not read
      (Nmea); the line goes up only in sync and in time, and is at rest after every
      second, whatever the port does (Pps); each client is sent whole seconds or is
      closed, and no socket is lost (NmeaTcp); the history of events tells how the
      clock, the classes and each source stand (Events).
    - Housekeeping: rate limit verdicts, kiss spacing, bounds, the hour's tallies,
      calendar conversions, prefixes and labels.

    ** Conventions

    Integers are [Z]; where the code's width matters the wrap is written out
    ([u32], [i32], ...). Doubles are binary64 ([double]); theorems about them hold
    for every value, NaN included, unless a bound is stated. C++ [float]s are their
    values in binary64 with the rounding written out where the code rounds. Clocks,
    random numbers, name resolution and packets are arguments. Locks are not
    modelled: an operation is what runs under one. A read outside what a ring
    holds is [None], which the theorems exclude; only DCF77's prefix sums are read
    masked, as the code reads them, behind its check that the burst is in the ring.
    A hypothesis that the spans of a sample rate nest ([geometryOk], [shapeOk]) is a check that is evaluated.

    Loops are structural or have fuel that is enough: [NtpClient.kEras] covers 256
    eras of 136 years, [WwvbSignal.secondsLoop] consumes 88 envelope values a turn,
    [Wwv.feed] has a measure that falls with every frame, [Signals.growCap] doubles
    forty times, the comb's 1000 steps are 161 in fact, AllouisSignal's edge walks
    64, the 200 slopes of [Dcf77Pm.slopes] are 100 at most, and the loops of
    SourceSteps and Text count what they consume. The seconds that a sample makes
    due in MsfSignal, Dcf77Signal and AllouisSignal are steps of their own
    ([reach]); that they end is not claimed.

    ** Not modelled

    WWV's read-only diagnostics and the display fields of the callbacks; sockets,
    threads, sessions and reconnection; the serial port's line settings; JSON,
    HTTP, MQTT, metrics, the status text and the words of events; start-up and logging; vendored code (third_party/), tools
    and web pages.
    A C++ library or kernel function that is used is a parameter: [Inet], [Libm],
    [Pow], [Trig], [CMul], and the arguments named where they occur. *)

From Stdlib Require Import ZArith Lia List Bool.
From stdpp Require Import base list gmap strings.

#[global] Open Scope Z_scope.

(** ** Machine integers
    The source's fixed-width integers are [Z] with the wrap-around written out
    where the code relies on it or where a conversion truncates. *)

Definition u8 (z : Z) : Z := z mod 256.
Definition u32 (z : Z) : Z := z mod 4294967296.
Definition u64 (z : Z) : Z := z mod 18446744073709551616.

Definition i8 (z : Z) : Z := (z + 128) mod 256 - 128.
Definition i32 (z : Z) : Z := (z + 2147483648) mod 4294967296 - 2147483648.

(** C++'s [/] and [%] on signed integers truncate toward zero. *)
Definition cdiv (a b : Z) : Z := Z.quot a b.
Definition cmod (a b : Z) : Z := Z.rem a b.

(** [std::clamp] on integers. *)
Definition zclamp (v lo hi : Z) : Z := if v <? lo then lo else if hi <? v then hi else v.

(** ** Automation *)

(** Turns the boolean comparisons of [Z] in the goal and the context into
    propositions. *)
Ltac zbool :=
  repeat match goal with
  | H : (_ <? _) = true |- _ => apply Z.ltb_lt in H
  | H : (_ <? _) = false |- _ => apply Z.ltb_ge in H
  | H : (_ <=? _) = true |- _ => apply Z.leb_le in H
  | H : (_ <=? _) = false |- _ => apply Z.leb_gt in H
  | H : (_ =? _) = true |- _ => apply Z.eqb_eq in H
  | H : (_ =? _) = false |- _ => apply Z.eqb_neq in H
  | H : (_ && _)%bool = true |- _ => apply andb_true_iff in H; destruct H
  | H : (_ || _)%bool = false |- _ => apply orb_false_iff in H; destruct H
  | H : negb _ = true |- _ => apply negb_true_iff in H
  | H : negb _ = false |- _ => apply negb_false_iff in H
  end.

(** Case analysis on the conditions of the [if]s of the goal. *)
Ltac zif :=
  repeat match goal with
  | |- context [if ?b then _ else _] =>
      lazymatch b with
      | context [if _ then _ else _] => fail
      | _ => let E := fresh "E" in destruct b eqn:E
      end
  end.

Ltac zcases := zif; zbool; try lia.

(** [lia] with division and modulus by constants. *)
Ltac dlia := Z.to_euclidean_division_equations; lia.

Create HintDb ubersdr.

(** ** Lists *)

Lemma Forall_snoc {A} (P : A -> Prop) l x : Forall P l -> P x -> Forall P (l ++ [x]).
Proof. intros ? ?. apply Forall_app; auto. Qed.

(** The last [n] elements: what a bounded queue keeps of a list that grew at
    its back. *)
Definition keep_last {A} (n : nat) (l : list A) : list A := drop (length l - n) l.

Lemma keep_last_length {A} n (l : list A) : length (keep_last n l) = Nat.min n (length l).
Proof. unfold keep_last. rewrite length_drop. lia. Qed.

Lemma keep_last_short {A} n (l : list A) : (length l <= n)%nat -> keep_last n l = l.
Proof. intros H. unfold keep_last. by replace (length l - n)%nat with 0%nat by lia. Qed.

Lemma keep_last_Forall {A} (P : A -> Prop) n l : Forall P l -> Forall P (keep_last n l).
Proof. apply Forall_drop. Qed.

#[export] Hint Resolve Forall_snoc keep_last_Forall : ubersdr.

(** ** Bounds of the truncations *)

Lemma u8_range z : 0 <= u8 z < 256.
Proof. unfold u8. apply Z.mod_pos_bound. lia. Qed.

Lemma u32_range z : 0 <= u32 z < 4294967296.
Proof. unfold u32. apply Z.mod_pos_bound. lia. Qed.

Lemma u8_small z : 0 <= z < 256 -> u8 z = z.
Proof. apply Z.mod_small. Qed.

Lemma u32_small z : 0 <= z < 4294967296 -> u32 z = z.
Proof. apply Z.mod_small. Qed.

Lemma i32_range z : -2147483648 <= i32 z < 2147483648.
Proof. unfold i32. pose proof (Z.mod_pos_bound (z + 2147483648) 4294967296). lia. Qed.
Lemma i32_small z : -2147483648 <= z < 2147483648 -> i32 z = z.
Proof. intros H. unfold i32. rewrite Z.mod_small; lia. Qed.

Lemma i8_range z : -128 <= i8 z < 128.
Proof. unfold i8. pose proof (Z.mod_pos_bound (z + 128) 256). lia. Qed.

Lemma zclamp_range v lo hi : lo <= hi -> lo <= zclamp v lo hi <= hi.
Proof. intros. unfold zclamp. zcases. Qed.

#[export] Hint Resolve u8_range u32_range i8_range zclamp_range : ubersdr.

(** ** Sums and folds *)

Definition sumZ (l : list Z) : Z := foldr Z.add 0 l.

Lemma sumZ_app l l' : sumZ (l ++ l') = sumZ l + sumZ l'.
Proof. unfold sumZ. induction l; cbn; lia. Qed.

Lemma fold_left_ext_in {A B} (f g : B -> A -> B) (l : list A) acc :
  (forall b x, In x l -> f b x = g b x) -> fold_left f l acc = fold_left g l acc.
Proof.
  revert acc. induction l as [|x l IH]; intros acc E; [done|]. cbn. rewrite E by (by left).
  apply IH. intros. apply E. by right.
Qed.
