(* ===== verification/Doubles.v ===== *)
(** * IEEE 754 binary64, as the source's [double]
    The source computes in [double] throughout. A [double] here is the kernel's
    primitive [float], which is binary64 with round-to-nearest-even, so the
    definitions compute exactly what the C++ computes (x86-64 and arm64 both
    evaluate [double] in binary64). This file adds the parts of <cmath> and of
    the conversions that the source uses, and the order theory the proofs need:
    every finite double is a whole multiple of 2^-1074, so [dkey] maps the
    doubles that are not NaN into [Z] and comparisons become [Z] comparisons. *)

From Stdlib Require Import ZArith Lia List Bool Floats.
From stdpp Require Import base option sorting.
From S2P Require Import Prelude.

Declare Scope double_scope.
Delimit Scope double_scope with D.

Abbreviation double := PrimFloat.float.
(** Decimal literals are rounded to the nearest double, as the compiler's are. *)
#[export] Set Warnings "-inexact-float".
Number Notation PrimFloat.float PrimFloat.parser PrimFloat.printer : double_scope.
Bind Scope double_scope with PrimFloat.float.
Infix "+" := PrimFloat.add : double_scope.
Infix "-" := PrimFloat.sub : double_scope.
Infix "*" := PrimFloat.mul : double_scope.
Infix "/" := PrimFloat.div : double_scope.
Infix "<?" := PrimFloat.ltb : double_scope.
Infix "<=?" := PrimFloat.leb : double_scope.
Infix "=?" := PrimFloat.eqb : double_scope.
Notation "- x" := (PrimFloat.opp x) : double_scope.
Notation "a >? b" := (PrimFloat.ltb b a) (only parsing) : double_scope.
Notation "a >=? b" := (PrimFloat.leb b a) (only parsing) : double_scope.

(** ** The operations of <cmath> and <algorithm> on doubles *)

Definition dabs : double -> double := PrimFloat.abs.

(** [std::max(a, b)] is [(a < b) ? b : a]; [std::min(a, b)] is
    [(b < a) ? b : a]: with a NaN the first argument is returned. *)
Definition dmax (a b : double) : double := if (a <? b)%D then b else a.
Definition dmin (a b : double) : double := if (b <? a)%D then b else a.
Definition dclamp (v lo hi : double) : double :=
  if (v <? lo)%D then lo else if (hi <? v)%D then hi else v.

Definition disfinite (x : double) : bool :=
  match Prim2SF x with S754_zero _ | S754_finite _ _ _ => true | _ => false end.

(** The integer nearest below, above, toward zero, and nearest with halves
    away from zero, of a finite double: exact. *)
Definition sf_floor (s : bool) (m : positive) (e : Z) : Z :=
  let v := if s then - Zpos m else Zpos m in
  if 0 <=? e then v * 2 ^ e else v / 2 ^ (- e).
Definition dfloorZ (x : double) : option Z :=
  match Prim2SF x with
  | S754_zero _ => Some 0
  | S754_finite s m e => Some (sf_floor s m e)
  | _ => None
  end.
Definition dceilZ (x : double) : option Z := z ← dfloorZ (- x)%D; Some (- z).
Definition dtruncZ (x : double) : option Z :=
  if (x <? 0)%D then dceilZ x else dfloorZ x.
(** Halves of the value away from zero: [floor (|x| + 1/2)], computed on the
    mantissa so that nothing is rounded on the way. *)
Definition sf_round (m : positive) (e : Z) : Z :=
  if 0 <=? e then Zpos m * 2 ^ e else (2 * Zpos m + 2 ^ (- e)) / 2 ^ (1 - e).
Definition droundZ (x : double) : option Z :=
  match Prim2SF x with
  | S754_zero _ => Some 0
  | S754_finite s m e => Some (if s then - sf_round m e else sf_round m e)
  | _ => None
  end.

(** An integer as a double, rounded to nearest even: [static_cast<double>]. *)
Definition d_of_Z (z : Z) : double := SF2Prim (binary_normalize prec emax z 0 false).

(** [std::floor] and [std::ceil] themselves. The result of a floor is a whole
    number below 2^53 in magnitude or the argument itself, so [d_of_Z] is exact
    on it; the sign of a zero result follows C. *)
Definition dfloor (x : double) : double :=
  match dfloorZ x with
  | Some z => if z =? 0 then (if (x =? 0)%D then x else 0%D) else d_of_Z z
  | None => x
  end.
Definition dceil (x : double) : double := (- dfloor (- x))%D.

(** [static_cast] of a double to [long long] truncates toward zero. Out of the
    type's range the cast is undefined in C++; the model answers the value the
    x86-64 instruction does, and no theorem relies on it. *)
Definition d2ll (x : double) : Z :=
  match dtruncZ x with
  | Some z => if (-9223372036854775808 <=? z) && (z <? 9223372036854775808) then z
              else -9223372036854775808
  | None => -9223372036854775808
  end.

(** [std::llround]. *)
Definition dllround (x : double) : Z :=
  match droundZ x with
  | Some z => if (-9223372036854775808 <=? z) && (z <? 9223372036854775808) then z
              else -9223372036854775808
  | None => -9223372036854775808
  end.

(** ** The order of the doubles *)

(** The value as a multiple of 2^-1074; infinities beyond every finite value. *)
Definition sfkey (f : spec_float) : option Z :=
  match f with
  | S754_nan => None
  | S754_zero _ => Some 0
  | S754_infinity s => Some (if s then - 2 ^ 2200 else 2 ^ 2200)
  | S754_finite s m e => Some (let v := Zpos m * 2 ^ (e + 1074) in if s then - v else v)
  end.
Definition dkey (x : double) : option Z := sfkey (Prim2SF x).
Definition dnan (x : double) : bool := match dkey x with None => true | Some _ => false end.

Lemma digits2_pos_bounds m :
  2 ^ (Zpos (digits2_pos m) - 1) <= Zpos m < 2 ^ Zpos (digits2_pos m).
Proof.
  induction m as [m IH|m IH|]; cbn [digits2_pos];
    [| |cbn; lia];
    rewrite Pos2Z.inj_succ;
    replace (Z.succ (Zpos (digits2_pos m)) - 1) with (Z.succ (Zpos (digits2_pos m) - 1)) by lia;
    rewrite !Z.pow_succ_r by lia; lia.
Qed.

(** What canonical means of a finite binary64. *)
Lemma bounded_facts m e :
  bounded prec emax m e = true ->
  -1074 <= e <= 971 /\ Zpos m < 2 ^ 53 /\ (-1074 < e -> 2 ^ 52 <= Zpos m).
Proof.
  unfold bounded, canonical_mantissa, fexp, SpecFloat.emin, prec, emax.
  intros H. apply andb_true_iff in H as [H1 H2].
  apply Z.eqb_eq in H1. apply Z.leb_le in H2.
  pose proof (digits2_pos_bounds m) as [Hlo Hhi].
  set (d := Zpos (digits2_pos m)) in *.
  assert (Hd : d <= 53) by lia.
  split; [lia|]. split.
  - eapply Z.lt_le_trans; [apply Hhi|]. apply Z.pow_le_mono_r; lia.
  - intros He. replace 52 with (d - 1) by lia. exact Hlo.
Qed.

Lemma shiftkey_lt m1 e1 m2 e2 :
  bounded prec emax m1 e1 = true -> bounded prec emax m2 e2 = true -> e1 < e2 ->
  Zpos m1 * 2 ^ (e1 + 1074) < Zpos m2 * 2 ^ (e2 + 1074).
Proof.
  intros B1 B2 H. apply bounded_facts in B1 as (?&?&?). apply bounded_facts in B2 as (?&?&L2).
  specialize (L2 ltac:(lia)).
  replace (e2 + 1074) with (Z.succ (e2 - e1 - 1) + (e1 + 1074)) by lia.
  rewrite (Z.pow_add_r 2 (Z.succ _)), Z.mul_assoc by lia.
  apply Z.mul_lt_mono_pos_r; [apply Z.pow_pos_nonneg; lia|].
  rewrite Z.pow_succ_r by lia.
  pose proof (Z.pow_pos_nonneg 2 (e2 - e1 - 1)) as P.
  set (k := 2 ^ (e2 - e1 - 1)) in *. change (2 ^ 53) with (2 * 2 ^ 52) in *.
  set (h := 2 ^ 52) in *. specialize (P ltac:(lia) ltac:(lia)). nia.
Qed.

Lemma finkey_range m e :
  bounded prec emax m e = true -> 0 < Zpos m * 2 ^ (e + 1074) < 2 ^ 2200.
Proof.
  intros B. apply bounded_facts in B as (He&Hm&_).
  assert (0 < 2 ^ (e + 1074)) by (apply Z.pow_pos_nonneg; lia).
  assert (2 ^ (e + 1074) <= 2 ^ 2045) by (apply Z.pow_le_mono_r; lia).
  split; [nia|].
  apply Z.lt_le_trans with (2 ^ 53 * 2 ^ 2045).
  - nia.
  - rewrite <- Z.pow_add_r by lia. apply Z.pow_le_mono_r; lia.
Qed.

Lemma Pos_compare_cont_mul (m1 m2 : positive) k :
  0 < k -> (Zpos m1 * k ?= Zpos m2 * k) = Pos.compare m1 m2.
Proof. intros. rewrite <- Zmult_compare_compat_r by lia. reflexivity. Qed.

Lemma sfcompare_key x y :
  valid_binary x = true -> valid_binary y = true ->
  SFcompare x y =
  match sfkey x, sfkey y with Some a, Some b => Some (a ?= b) | _, _ => None end.
Proof.
  assert (C : forall a b : Z, (a < b -> (a ?= b) = Lt) /\ (b < a -> (a ?= b) = Gt)).
  { intros a b. split; [apply Z.compare_lt_iff|apply Z.compare_gt_iff]. }
  destruct x as [sx|sx| |sx mx ex], y as [sy|sy| |sy my ey];
    cbn [valid_binary sfkey SFcompare]; intros Bx By; try reflexivity;
    try (destruct sx; reflexivity); try (destruct sy; reflexivity);
    try (destruct sx, sy; reflexivity);
    try (pose proof (finkey_range _ _ Bx)); try (pose proof (finkey_range _ _ By));
    try (destruct sx, sy; f_equal; symmetry; apply C; lia).
  destruct sx, sy; f_equal; cbn zeta.
  - destruct (Z.compare_spec ex ey) as [->|L|L]; symmetry.
    + rewrite Z.compare_opp, Z.compare_antisym. f_equal.
      apply Pos_compare_cont_mul. apply bounded_facts in Bx as (?&_). apply Z.pow_pos_nonneg; lia.
    + apply C. pose proof (shiftkey_lt _ _ _ _ Bx By L). lia.
    + apply C. pose proof (shiftkey_lt _ _ _ _ By Bx L). lia.
  - symmetry. apply C. lia.
  - symmetry. apply C. lia.
  - destruct (Z.compare_spec ex ey) as [->|L|L]; symmetry.
    + apply Pos_compare_cont_mul. apply bounded_facts in Bx as (?&_). apply Z.pow_pos_nonneg; lia.
    + apply C. exact (shiftkey_lt _ _ _ _ Bx By L).
    + apply C. exact (shiftkey_lt _ _ _ _ By Bx L).
Qed.

(** Comparisons of doubles are comparisons of their keys. *)
Lemma dltb_key x y :
  (x <? y)%D = match dkey x, dkey y with Some a, Some b => a <? b | _, _ => false end.
Proof.
  rewrite FloatAxioms.ltb_spec. unfold SFltb.
  rewrite sfcompare_key by apply Prim2SF_valid.
  unfold dkey. destruct (sfkey (Prim2SF x)), (sfkey (Prim2SF y)); auto.
Qed.

Lemma dleb_key x y :
  (x <=? y)%D = match dkey x, dkey y with Some a, Some b => a <=? b | _, _ => false end.
Proof.
  rewrite FloatAxioms.leb_spec. unfold SFleb.
  rewrite sfcompare_key by apply Prim2SF_valid.
  unfold dkey. destruct (sfkey (Prim2SF x)), (sfkey (Prim2SF y)); auto.
Qed.

Lemma deqb_key x y :
  (x =? y)%D = match dkey x, dkey y with Some a, Some b => a =? b | _, _ => false end.
Proof.
  rewrite FloatAxioms.eqb_spec. unfold SFeqb.
  rewrite sfcompare_key by apply Prim2SF_valid.
  unfold dkey. destruct (sfkey (Prim2SF x)), (sfkey (Prim2SF y)); auto.
  by rewrite Z.eqb_compare.
Qed.

(** [dkeys] turns double comparisons into comparisons of keys, splits on which
    operands are NaN, and leaves [Z] facts for [lia]. *)
Ltac dkeys :=
  rewrite ?dltb_key, ?dleb_key, ?deqb_key in *;
  repeat match goal with
  | H : context [dkey ?x] |- _ => let k := fresh "k" in destruct (dkey x) as [k|] in *
  | |- context [dkey ?x] => let k := fresh "k" in destruct (dkey x) as [k|] in *
  end; try discriminate; simplify_eq.
Ltac dorder := intros; dkeys; zcases; try congruence.

Lemma dltb_irrefl x : (x <? x)%D = false.
Proof. dorder. Qed.

Lemma dltb_trans x y z : (x <? y)%D = true -> (y <? z)%D = true -> (x <? z)%D = true.
Proof. dorder. Qed.

Lemma dleb_trans x y z : (x <=? y)%D = true -> (y <=? z)%D = true -> (x <=? z)%D = true.
Proof. dorder. Qed.

(** A finite double minus itself is +0. *)
Lemma dsub_self x : disfinite x = true -> (x - x)%D = 0%D.
Proof.
  intros F. apply FloatAxioms.Prim2SF_inj. rewrite FloatAxioms.sub_spec. unfold disfinite in F.
  destruct (Prim2SF x) as [s|s| |s m e]; try discriminate; cbn -[Z.sub].
  - by destruct s.
  - rewrite Z.sub_diag. reflexivity.
Qed.

(** +0 over a positive finite double is +0. *)
Lemma dzero_div x : disfinite x = true -> (0 <? x)%D = true -> (0 / x)%D = 0%D.
Proof.
  intros F P. apply FloatAxioms.Prim2SF_inj. rewrite FloatAxioms.div_spec.
  rewrite FloatAxioms.ltb_spec in P. unfold disfinite in F.
  change (Prim2SF 0%D) with (S754_zero false) in *.
  destruct (Prim2SF x) as [s|s| |s m e]; try discriminate. by destruct s.
Qed.

Lemma disfinite_nan x : disfinite x = true -> dnan x = false.
Proof. unfold dnan, dkey, disfinite. by destruct (Prim2SF x). Qed.

(** ** Sorting
    [operator<] as [std::sort] and [std::nth_element] use it, and the element
    [nth_element] puts at [k]: equal doubles are the same. *)

Definition dsortLe (x y : double) : Prop := (y <? x)%D = false.
#[export] Instance dsortLe_dec : RelDecision dsortLe.
Proof. intros x y. unfold dsortLe. apply _. Defined.
#[export] Instance dsortLe_total : Total dsortLe.
Proof. intros x y. unfold dsortLe. dkeys; zcases; auto. Qed.
Definition nthSmallest (k : nat) (l : list double) : double := nth k (merge_sort dsortLe l) 0%D.
