(* ===== verification/Rounding.v ===== *)
(** * Rounding of doubles
    What the proofs need of rounding to nearest: a result is never below a
    double that the exact result is not below. From it, the sums and quotients
    of doubles the source forms have the order and sign one expects, without an
    error analysis. Mantissas and exponents are those of the kernel's
    specification of binary64 ([SpecFloat]). *)

From Stdlib Require Import ZArith Lia List Bool Floats.
From stdpp Require Import base option list.
From S2P Require Import Prelude Doubles.

#[local] Open Scope Z_scope.

(** The value [m * 2^e] scaled to an integer, for exponents from -2200 up. *)
Definition scaled (m e : Z) : Z := m * 2 ^ (e + 2200).

Lemma scaled_shift m e n : 0 <= n -> -2200 <= e -> scaled (m * 2 ^ n) e = scaled m (e + n).
Proof.
  intros. unfold scaled. replace (e + n + 2200) with (n + (e + 2200)) by lia.
  rewrite (Z.pow_add_r 2 n) by lia. ring.
Qed.

Lemma scaled_le m m' e : m <= m' -> scaled m e <= scaled m' e.
Proof. intros. unfold scaled. apply Z.mul_le_mono_nonneg_r; [apply Z.pow_nonneg; lia|done]. Qed.

Lemma scaled_le_inv m m' e : -2200 <= e -> scaled m e <= scaled m' e -> m <= m'.
Proof.
  intros He H. unfold scaled in H. assert (0 < 2 ^ (e + 2200)) by (apply Z.pow_pos_nonneg; lia).
  nia.
Qed.

(** Shifting right: the mantissa is divided by a power of two, rounding down. *)
Lemma shr_1_m r : 0 <= shr_m r -> shr_m (shr_1 r) = shr_m r / 2 /\ 0 <= shr_m (shr_1 r).
Proof.
  intros H. destruct r as [[|p|p] rr ss]; cbn [shr_m] in *; [done| |lia].
  destruct p as [p|p|]; cbn [shr_1 shr_m]; [| |done]; split; try lia; dlia.
Qed.

Lemma iter_shr_m p : forall r, 0 <= shr_m r ->
  shr_m (SpecFloat.iter_pos shr_1 p r) = shr_m r / 2 ^ Zpos p /\ 0 <= shr_m (SpecFloat.iter_pos shr_1 p r).
Proof.
  assert (P : forall p : positive, 0 < 2 ^ Zpos p) by (intros; apply Z.pow_pos_nonneg; lia).
  induction p as [p IH|p IH|]; intros r H; cbn [SpecFloat.iter_pos].
  - destruct (shr_1_m r H) as [E1 N1]. destruct (IH _ N1) as [E2 N2]. destruct (IH _ N2) as [E3 N3].
    split; [|done]. rewrite E3, E2, E1. rewrite !Z.div_div by (try apply P; lia). f_equal.
    replace (Zpos p~1) with (1 + (Zpos p + Zpos p)) by lia. rewrite !Z.pow_add_r by lia. ring.
  - destruct (IH _ H) as [E2 N2]. destruct (IH _ N2) as [E3 N3]. split; [|done].
    rewrite E3, E2, Z.div_div by (try apply P; apply Z.neq_sym, Z.lt_neq, P). f_equal.
    replace (Zpos p~0) with (Zpos p + Zpos p) by lia. by rewrite Z.pow_add_r by lia.
  - destruct (shr_1_m r H) as [E1 N1]. by split.
Qed.

Lemma shr_record_of_loc_m m l : shr_m (shr_record_of_loc m l) = m.
Proof. by destruct l as [|[]]. Qed.

Section Format.
(** A binary format: [p] digits of precision, smallest exponent [3 - em - p]. *)
Context (p em : Z) (Hp : 1 < p <= 53) (Hem : -1074 <= 3 - em - p).

Definition shiftBy (m e : Z) : Z := Z.max 0 (fexp p em (Zdigits2 m + e) - e).

Lemma shr_fexp_m m e l r e' :
  0 <= m -> shr_fexp p em m e l = (r, e') ->
  e' = e + shiftBy m e /\ shr_m r = m / 2 ^ shiftBy m e /\ 0 <= shr_m r.
Proof.
  intros Hm. unfold shr_fexp, shr, shiftBy.
  destruct (fexp p em (Zdigits2 m + e) - e) as [|q|q] eqn:E; intros [= <- <-].
  - rewrite shr_record_of_loc_m. cbn. rewrite Z.div_1_r. lia.
  - rewrite Z.max_r by lia.
    destruct (iter_shr_m q (shr_record_of_loc m l)) as [E1 N1]; rewrite shr_record_of_loc_m in *; [done|].
    done.
  - rewrite shr_record_of_loc_m, Z.max_l by lia. cbn. rewrite Z.div_1_r. lia.
Qed.

Lemma digits_bounds m : 0 < m -> 2 ^ (Zdigits2 m - 1) <= m < 2 ^ Zdigits2 m /\ 0 < Zdigits2 m.
Proof. destruct m as [|q|q]; try lia. intros _. cbn [Zdigits2]. split; [apply digits2_pos_bounds|lia]. Qed.

Lemma fexp_eq d : fexp p em d = Z.max (d - p) (3 - em - p).
Proof. reflexivity. Qed.

Lemma bounded_range m e :
  bounded p em m e = true -> 3 - em - p <= e /\ Zpos m < 2 ^ p.
Proof.
  unfold bounded, canonical_mantissa. intros [H _]%andb_true_iff. apply Z.eqb_eq in H.
  rewrite fexp_eq in H. destruct (digits2_pos_bounds m) as [_ D]. split; [lia|].
  eapply Z.lt_le_trans; [apply D|]. apply Z.pow_le_mono_r; lia.
Qed.

(** Cutting a mantissa to the precision does not go below a double it was not
    below. *)
Lemma cut_ge mx ex m e :
  bounded p em mx ex = true -> 0 < m -> -2200 <= e ->
  scaled (Zpos mx) ex <= scaled m e ->
  scaled (Zpos mx) ex <= scaled (m / 2 ^ shiftBy m e) (e + shiftBy m e).
Proof.
  intros B Hm He L. apply bounded_range in B as (Bx & Bm).
  set (n := shiftBy m e). assert (Hn : 0 <= n) by (unfold n, shiftBy; lia).
  assert (Pn : 0 < 2 ^ n) by (apply Z.pow_pos_nonneg; lia).
  destruct (digits_bounds m Hm) as [[D1 D2] D0].
  assert (Ed : exists d, d = Zdigits2 m) by eauto. destruct Ed as [d Ed].
  destruct (Z.le_gt_cases (e + n) ex) as [G|G].
  - replace ex with ((e + n) + (ex - (e + n))) by lia. rewrite <- scaled_shift by lia.
    apply scaled_le. apply Z.div_le_lower_bound; [done|].
    assert (E : scaled (Zpos mx) ex = scaled (2 ^ n * (Zpos mx * 2 ^ (ex - (e + n)))) e).
    { replace (2 ^ n * (Zpos mx * 2 ^ (ex - (e + n)))) with (Zpos mx * 2 ^ (n + (ex - (e + n))))
        by (rewrite Z.pow_add_r by lia; ring).
      rewrite scaled_shift by lia. f_equal. lia. }
    rewrite E in L. by apply scaled_le_inv in L.
  - destruct (Z.eq_dec n 0) as [N0|N0]; [by rewrite N0, Z.pow_0_r, Z.div_1_r, Z.add_0_r|].
    assert (En : n = d - p) by (unfold n, shiftBy in *; rewrite fexp_eq in *; lia).
    assert (Q : 2 ^ (p - 1) <= m / 2 ^ n).
    { apply Z.div_le_lower_bound; [done|]. rewrite <- Z.pow_add_r by lia. replace (n + (p - 1)) with (Zdigits2 m - 1) by lia. done. }
    transitivity (scaled (2 ^ (p - 1)) (e + n)); [|by apply scaled_le].
    transitivity (scaled (2 ^ p) ex); [apply scaled_le; lia|].
    replace (2 ^ p) with (2 ^ (p - 1) * 2 ^ 1) by (rewrite <- Z.pow_add_r by lia; f_equal; lia). rewrite scaled_shift by lia.
    unfold scaled. apply Z.mul_le_mono_nonneg_l; [apply Z.pow_nonneg; lia|]. apply Z.pow_le_mono_r; lia.
Qed.

(** ... nor does rounding the mantissa that was cut. *)
Lemma round_nearest_even_ge m l : m <= round_nearest_even m l <= m + 1.
Proof. destruct l as [|[]]; cbn; [lia| |lia|lia]. destruct (Z.even m); lia. Qed.

(** Rounding a positive value does not go below a double that is not above it. *)
Lemma round_aux_ge mx ex m e l :
  bounded p em mx ex = true -> 0 < m -> -2200 <= e ->
  scaled (Zpos mx) ex <= scaled m e ->
  match binary_round_aux p em false m e l with
  | S754_finite false m' e' => scaled (Zpos mx) ex <= scaled (Zpos m') e' /\ 3 - em - p <= e'
  | S754_infinity false => True
  | _ => False
  end.
Proof.
  intros B Hm He L. unfold binary_round_aux.
  assert (P : 0 < scaled (Zpos mx) ex).
  { unfold scaled. pose proof (bounded_range _ _ B). assert (0 < 2 ^ (ex + 2200)) by (apply Z.pow_pos_nonneg; lia). lia. }
  assert (Pos : forall m e, scaled (Zpos mx) ex <= scaled m e -> 0 < m).
  { intros m0 e0 L0. unfold scaled in *. pose proof (Z.pow_nonneg 2 (e0 + 2200)). nia. }
  destruct (shr_fexp p em m e l) as [r e'] eqn:E1.
  destruct (shr_fexp_m m e l r e' ltac:(lia) E1) as (Ee & Em & En).
  pose proof (cut_ge mx ex m e B Hm He L) as L1. rewrite <- Em, <- Ee in L1.
  set (m2 := round_nearest_even (shr_m r) (loc_of_shr_record r)).
  assert (L2 : scaled (Zpos mx) ex <= scaled m2 e').
  { etransitivity; [exact L1|]. apply scaled_le. unfold m2.
    pose proof (round_nearest_even_ge (shr_m r) (loc_of_shr_record r)). lia. }
  pose proof (Pos _ _ L2) as Hm2.
  destruct (shr_fexp p em m2 e' loc_Exact) as [r2 e2] eqn:E2.
  destruct (shr_fexp_m m2 e' loc_Exact r2 e2 ltac:(lia) E2) as (Ee2 & Em2 & En2).
  assert (He' : -2200 <= e') by (unfold shiftBy in Ee; lia).
  pose proof (cut_ge mx ex m2 e' B Hm2 He' L2) as L3. rewrite <- Em2, <- Ee2 in L3.
  pose proof (Pos _ _ L3) as Hm3. destruct (shr_m r2) as [|q|q]; try lia.
  destruct (e2 <=? em - p); [|done]. split; [done|].
  rewrite Ee2. unfold shiftBy. rewrite fexp_eq. lia.
Qed.

End Format.

Lemma fexp64_eq d : fexp prec emax d = Z.max (d - 53) (-1074).
Proof. reflexivity. Qed.

(** The two formats the source uses. *)
Lemma round64_ge mx ex m e l :
  bounded prec emax mx ex = true -> 0 < m -> -2200 <= e ->
  scaled (Zpos mx) ex <= scaled m e ->
  match binary_round_aux prec emax false m e l with
  | S754_finite false m' e' => scaled (Zpos mx) ex <= scaled (Zpos m') e' /\ -1074 <= e'
  | S754_infinity false => True
  | _ => False
  end.
Proof. exact (round_aux_ge 53 1024 ltac:(lia) ltac:(lia) mx ex m e l). Qed.

Lemma round32_ge mx ex m e l :
  bounded 24 128 mx ex = true -> 0 < m -> -2200 <= e ->
  scaled (Zpos mx) ex <= scaled m e ->
  match binary_round_aux 24 128 false m e l with
  | S754_finite false m' e' => scaled (Zpos mx) ex <= scaled (Zpos m') e' /\ -149 <= e'
  | S754_infinity false => True
  | _ => False
  end.
Proof. exact (round_aux_ge 24 128 ltac:(lia) ltac:(lia) mx ex m e l). Qed.

Lemma shl_align_value m e e' :
  -2200 <= e' -> let '(m', e2) := shl_align m e e' in
  e2 = Z.min e e' /\ scaled (Zpos m') e2 = scaled (Zpos m) e.
Proof.
  intros He. unfold shl_align. destruct (e' - e) as [|d|d] eqn:E.
  - split; [lia|done].
  - split; [lia|done].
  - assert (I : Zpos (Pos.iter xO m d) = Zpos m * 2 ^ Zpos d).
    { clear. induction d as [|d IH] using Pos.peano_ind; [by rewrite Z.mul_comm|].
      rewrite Pos.iter_succ, Pos2Z.inj_succ, Z.pow_succ_r by lia. lia. }
    split; [lia|]. rewrite I. rewrite scaled_shift by lia. f_equal. lia.
Qed.

(** Values of keys. *)
Lemma sfkey_scaled m e : -1074 <= e -> scaled (Zpos m) e = Zpos m * 2 ^ (e + 1074) * 2 ^ 1126.
Proof. intros. unfold scaled. rewrite <- Z.mul_assoc, <- Z.pow_add_r by lia. do 2 f_equal. lia. Qed.

(** ** Sums *)

(** A sum of nonnegative doubles is not below either. *)
Lemma dadd_ge_l x y :
  (0 <=? x)%D = true -> (0 <=? y)%D = true -> (x <=? x + y)%D = true.
Proof.
  rewrite !dleb_key. change (dkey 0%D) with (Some 0). unfold dkey. rewrite FloatAxioms.add_spec.
  unfold SF64add.
  pose proof (Prim2SF_valid x) as Vx. pose proof (Prim2SF_valid y) as Vy.
  destruct (Prim2SF x) as [sx|sx| |sx mx ex], (Prim2SF y) as [sy|sy| |sy my ey]; cbn [sfkey SFadd];
    try discriminate; try (destruct sx; cbn; done); try (destruct sx, sy; cbn; done).
  all: try (intros; assumption).
  all: try (intros; apply Z.leb_refl).
  - cbn in Vx. pose proof (finkey_range _ _ Vx). intros _ Hy. destruct sy; [done|].
    cbn -[Z.pow]. apply Z.leb_le. destruct sx; lia.
  - cbn in Vx, Vy. pose proof (finkey_range _ _ Vx) as Kx. pose proof (finkey_range _ _ Vy) as Ky.
    destruct sx; [intros H; exfalso; lia|]. destruct sy; [intros _ H; exfalso; lia|]. intros _ _.
    pose proof (bounded_facts _ _ Vx) as (Bx & _). pose proof (bounded_facts _ _ Vy) as (By & _).
    pose proof (shl_align_value mx ex (Z.min ex ey) ltac:(lia)) as Ax.
    pose proof (shl_align_value my ey (Z.min ex ey) ltac:(lia)) as Ay.
    destruct (shl_align mx ex (Z.min ex ey)) as [px qx], (shl_align my ey (Z.min ex ey)) as [py qy].
    destruct Ax as [-> Ax], Ay as [-> Ay]. cbn [fst cond_Zopp].
    replace (Z.min ex (Z.min ex ey)) with (Z.min ex ey) in Ax by lia.
    set (p := (px + py)%positive). set (e0 := Z.min ex ey).
    change (Zpos px + Zpos py) with (Zpos p). unfold binary_normalize, binary_round.
    pose proof (shl_align_value p e0 (fexp prec emax (Zpos (digits2_pos p) + e0))
      ltac:(rewrite fexp64_eq; lia)) as Ap.
    destruct (shl_align p e0 _) as [pz ez]. destruct Ap as [Ez Ap].
    assert (L : scaled (Zpos mx) ex <= scaled (Zpos pz) ez).
    { rewrite Ap, <- Ax. fold e0. apply scaled_le. unfold p. lia. }
    pose proof (round64_ge mx ex (Zpos pz) ez loc_Exact Vx ltac:(lia)
      ltac:(rewrite Ez, fexp64_eq; unfold e0; lia) L) as R.
    destruct (binary_round_aux prec emax false (Zpos pz) ez loc_Exact) as [?|[]| |[] m' e'];
      try done; cbn [sfkey].
    + lia.
    + destruct R as [R He']. rewrite !sfkey_scaled in R by lia.
      apply Z.mul_le_mono_pos_r in R; [|lia]. lia.
Qed.

Lemma dadd_comm x y : dkey (x + y)%D = dkey (y + x)%D.
Proof.
  unfold dkey. rewrite !FloatAxioms.add_spec. unfold SF64add.
  destruct (Prim2SF x) as [sx|sx| |sx mx ex], (Prim2SF y) as [sy|sy| |sy my ey]; cbn [SFadd]; try done;
    try (by destruct sx); try (by destruct sx, sy).
  by rewrite Z.min_comm, Z.add_comm.
Qed.

Lemma dadd_ge_r x y :
  (0 <=? x)%D = true -> (0 <=? y)%D = true -> (y <=? x + y)%D = true.
Proof. intros. rewrite dleb_key, dadd_comm, <- dleb_key. by apply dadd_ge_l. Qed.

Lemma dadd_nonneg x y : (0 <=? x)%D = true -> (0 <=? y)%D = true -> (0 <=? x + y)%D = true.
Proof. intros Hx Hy. eapply dleb_trans; [exact Hx|]. by apply dadd_ge_l. Qed.

Lemma dadd_pos_l x y : (0 <? x)%D = true -> (0 <=? y)%D = true -> (0 <? x + y)%D = true.
Proof.
  intros Hx Hy. assert (Hx' : (0 <=? x)%D = true) by (revert Hx; clear; dorder).
  pose proof (dadd_ge_l x y Hx' Hy) as L. revert Hx L. clear. generalize (x + y)%D. dorder.
Qed.

Lemma dadd_pos_r x y : (0 <=? x)%D = true -> (0 <? y)%D = true -> (0 <? x + y)%D = true.
Proof.
  intros Hx Hy. assert (Hy' : (0 <=? y)%D = true) by (revert Hy; clear; dorder).
  pose proof (dadd_ge_r x y Hx Hy') as L. revert Hy L. clear. generalize (x + y)%D. dorder.
Qed.

(** ** Single precision
    The source's [float] values are doubles here, rounded to binary32 after
    each operation: a double holds the exact product of two floats, and enough
    of their sum for the second rounding to give the correctly rounded result. *)
Definition fround (x : double) : double :=
  match Prim2SF x with
  | S754_finite s m e =>
      match binary_round 24 128 s m e with
      | S754_finite s' m' e' => SF2Prim (binary_round prec emax s' m' e')
      | z => SF2Prim z
      end
  | _ => x
  end.
Definition fadd (x y : double) : double := fround (x + y)%D.
Definition fsub (x y : double) : double := fround (x - y)%D.
Definition fmul (x y : double) : double := fround (x * y)%D.
Definition fdiv (x y : double) : double := fround (x / y)%D.

(** ** Lower bounds by powers of two *)

Definition sfAtLeast (k : Z) (f : spec_float) : Prop :=
  match f with
  | S754_finite false m e => 2 ^ (k + 2200) <= scaled (Zpos m) e
  | S754_infinity false => True
  | _ => False
  end.
Definition atLeast (k : Z) (x : double) : Prop := sfAtLeast k (Prim2SF x).

Lemma pow2_bounded p em k :
  1 < p <= 53 -> 3 - em <= k -> k < em ->
  bounded p em (2 ^ Z.to_pos (p - 1))%positive (k - (p - 1)) = true.
Proof.
  intros Hp H1 H2. unfold bounded, canonical_mantissa.
  assert (D : forall n : positive, Zpos (digits2_pos (2 ^ n)) = Zpos n + 1).
  { induction n as [|n IH] using Pos.peano_ind; [done|]. rewrite Pos.pow_succ_r.
    change (2 * 2 ^ n)%positive with ((2 ^ n)~0)%positive. cbn [digits2_pos]. lia. }
  rewrite D, fexp_eq, Z2Pos.id by lia. apply andb_true_iff. lia.
Qed.

Lemma pow2_scaled p k :
  1 < p -> -2200 <= k - (p - 1) -> scaled (Zpos (2 ^ Z.to_pos (p - 1))) (k - (p - 1)) = 2 ^ (k + 2200).
Proof.
  intros. rewrite Pos2Z.inj_pow, Z2Pos.id by lia. unfold scaled. rewrite <- Z.pow_add_r by lia. f_equal. lia.
Qed.

Lemma round_aux_atLeast k m e l :
  -1021 <= k < 1024 -> 0 < m -> -2200 <= e -> 2 ^ (k + 2200) <= scaled m e ->
  sfAtLeast k (binary_round_aux prec emax false m e l).
Proof.
  intros Hk Hm He L.
  pose proof (round64_ge (2 ^ Z.to_pos (53 - 1)) (k - (53 - 1)) m e l
    (pow2_bounded 53 1024 k ltac:(lia) ltac:(lia) ltac:(lia)) Hm He) as R.
  rewrite pow2_scaled in R by lia. specialize (R L).
  destruct (binary_round_aux _ _ _ _ _ _) as [?|[]| |[] ? ?]; try done. apply R.
Qed.

Lemma round_atLeast k m e :
  -1021 <= k < 1024 -> -1074 <= e -> 2 ^ (k + 2200) <= scaled (Zpos m) e ->
  sfAtLeast k (binary_round prec emax false m e).
Proof.
  intros Hk He L. unfold binary_round.
  pose proof (shl_align_value m e (fexp prec emax (Zpos (digits2_pos m) + e)) ltac:(rewrite fexp64_eq; lia)) as A.
  destruct (shl_align _ _ _) as [mz ez]. destruct A as [Ez A].
  apply round_aux_atLeast; [done|lia|rewrite Ez, fexp64_eq; lia|by rewrite A].
Qed.

Lemma round32_atLeast k m e :
  -125 <= k < 128 -> -1074 <= e -> 2 ^ (k + 2200) <= scaled (Zpos m) e ->
  match binary_round 24 128 false m e with
  | S754_finite false m' e' => 2 ^ (k + 2200) <= scaled (Zpos m') e' /\ -1074 <= e'
  | S754_infinity false => True
  | _ => False
  end.
Proof.
  intros Hk He L. unfold binary_round.
  pose proof (shl_align_value m e (fexp 24 128 (Zpos (digits2_pos m) + e)) ltac:(rewrite fexp_eq; lia)) as A.
  destruct (shl_align _ _ _) as [mz ez]. destruct A as [Ez A].
  pose proof (round32_ge (2 ^ Z.to_pos (24 - 1)) (k - (24 - 1)) (Zpos mz) ez loc_Exact
    (pow2_bounded 24 128 k ltac:(lia) ltac:(lia) ltac:(lia)) ltac:(lia) ltac:(rewrite Ez, fexp_eq; lia)) as R.
  rewrite pow2_scaled, A in R by lia. specialize (R L).
  destruct (binary_round_aux _ _ _ _ _ _) as [?|[]| |[] ? ?]; try done. lia.
Qed.


(** ** Every rounding gives a valid double *)

Lemma digits_unique m k : 2 ^ (k - 1) <= m < 2 ^ k -> 0 < k -> Zdigits2 m = k.
Proof.
  intros H Hk. assert (0 < m) by (pose proof (Z.pow_pos_nonneg 2 (k - 1)); lia).
  destruct (digits_bounds m ltac:(lia)) as [D D0].
  destruct (Z.lt_trichotomy (Zdigits2 m) k) as [L|[E|L]]; [|done|].
  - assert (2 ^ Zdigits2 m <= 2 ^ (k - 1)) by (apply Z.pow_le_mono_r; lia). lia.
  - assert (2 ^ k <= 2 ^ (Zdigits2 m - 1)) by (apply Z.pow_le_mono_r; lia). lia.
Qed.

Lemma digits_mono m m' : 0 < m -> m <= m' -> Zdigits2 m <= Zdigits2 m'.
Proof.
  intros Hm L. destruct (digits_bounds m Hm) as [D D0]. destruct (digits_bounds m' ltac:(lia)) as [D' D0'].
  destruct (Z.le_gt_cases (Zdigits2 m) (Zdigits2 m')) as [|G]; [done|].
  assert (2 ^ Zdigits2 m' <= 2 ^ (Zdigits2 m - 1)) by (apply Z.pow_le_mono_r; lia). lia.
Qed.

(** A mantissa with digits enough, cut to the precision, is canonical. *)
Lemma cut_canonical m e q :
  0 < m -> e <= fexp prec emax (Zdigits2 m + e) ->
  m / 2 ^ shiftBy prec emax m e = Zpos q ->
  canonical_mantissa prec emax q (e + shiftBy prec emax m e) = true.
Proof.
  intros Hm He E. unfold canonical_mantissa. apply Z.eqb_eq.
  assert (S : shiftBy prec emax m e = fexp prec emax (Zdigits2 m + e) - e) by (unfold shiftBy; lia).
  set (n := shiftBy prec emax m e) in *. assert (Hn : 0 <= n) by lia.
  assert (Pn : 0 < 2 ^ n) by (apply Z.pow_pos_nonneg; lia).
  destruct (digits_bounds m Hm) as [D D0].
  assert (Hnd : n < Zdigits2 m).
  { destruct (Z.lt_ge_cases n (Zdigits2 m)) as [|G]; [done|exfalso].
    assert (2 ^ Zdigits2 m <= 2 ^ n) by (apply Z.pow_le_mono_r; lia).
    rewrite Z.div_small in E by lia. lia. }
  assert (Q : Zdigits2 (Zpos q) = Zdigits2 m - n).
  { apply digits_unique; [|lia]. rewrite <- E. split.
    - apply Z.div_le_lower_bound; [done|]. rewrite <- Z.pow_add_r by lia.
      replace (n + (Zdigits2 m - n - 1)) with (Zdigits2 m - 1) by lia. apply D.
    - apply Z.div_lt_upper_bound; [done|]. rewrite <- Z.pow_add_r by lia.
      replace (n + (Zdigits2 m - n)) with (Zdigits2 m) by lia. apply D. }
  cbn [Zdigits2] in Q. rewrite Q. replace (Zdigits2 m - n + (e + n)) with (Zdigits2 m + e) by lia. lia.
Qed.

Lemma round_aux_valid s m e l :
  0 < m -> e <= fexp prec emax (Zdigits2 m + e) ->
  valid_binary (binary_round_aux prec emax s m e l) = true.
Proof.
  intros Hm He. unfold binary_round_aux.
  destruct (shr_fexp prec emax m e l) as [r e'] eqn:E1.
  destruct (shr_fexp_m prec emax m e l r e' ltac:(lia) E1) as (Ee & Em & En).
  set (m2 := round_nearest_even (shr_m r) (loc_of_shr_record r)).
  pose proof (round_nearest_even_ge (shr_m r) (loc_of_shr_record r)) as Hr. fold m2 in Hr.
  destruct (shr_fexp prec emax m2 e' loc_Exact) as [r2 e2] eqn:E2.
  destruct (shr_fexp_m prec emax m2 e' loc_Exact r2 e2 ltac:(lia) E2) as (Ee2 & Em2 & En2).
  destruct (shr_m r2) as [|q|q] eqn:Eq; [done| |lia].
  destruct (e2 <=? emax - prec) eqn:Ele; [|done]. cbn [valid_binary]. unfold bounded. rewrite Ele, andb_true_r.
  rewrite Ee2. assert (Hm2 : 0 < m2).
  { destruct (Z.le_gt_cases m2 0) as [G|G]; [|done]. exfalso.
    assert (m2 = 0) as Z0 by lia. rewrite Z0, Zdiv_0_l in Em2. lia. }
  apply cut_canonical; [done| |done].
  (* the exponent of the first cut is still small enough for the second *)
  assert (Ef : e' = fexp prec emax (Zdigits2 m + e)) by (rewrite Ee; unfold shiftBy; lia).
  destruct (shr_m r) as [|p|p] eqn:Er; [|pose proof (cut_canonical m e p Hm He (eq_sym Em)) as C|lia].
  - (* nothing left: the exponent is the smallest *)
    destruct (digits_bounds m Hm) as [D D0].
    assert (e' = -1074) as ->; [|rewrite fexp64_eq; lia].
    rewrite Ef, fexp64_eq. destruct (Z.le_gt_cases (Zdigits2 m + e - 53) (-1074)); [lia|exfalso].
    assert (Sn : shiftBy prec emax m e = Zdigits2 m - 53) by (unfold shiftBy; rewrite fexp64_eq in *; lia).
    symmetry in Em. apply Z.div_small_iff in Em; [|apply Z.pow_nonzero; unfold shiftBy; lia].
    destruct Em as [Em|Em]; [|lia]. destruct Em as [_ Em]. rewrite Sn in Em.
    assert (2 ^ (Zdigits2 m - 53) <= 2 ^ (Zdigits2 m - 1)).
    { apply Z.pow_le_mono_r; lia. } lia.
  - apply Z.eqb_eq in C. rewrite <- Ee in C.
    assert (Zdigits2 (Zpos p) <= Zdigits2 m2) by (apply digits_mono; lia).
    cbn [Zdigits2] in *. rewrite fexp64_eq in *. lia.
Qed.

Lemma binary_round_valid s m e : valid_binary (binary_round prec emax s m e) = true.
Proof.
  unfold binary_round. set (f := fexp prec emax (Zpos (digits2_pos m) + e)).
  assert (V : let '(m', e2) := shl_align m e f in
    e2 = Z.min e f /\ Zdigits2 (Zpos m') + e2 = Zpos (digits2_pos m) + e).
  { unfold shl_align. destruct (f - e) as [|d|d] eqn:E; [split; cbn; lia|split; cbn; lia|].
    split; [lia|]. assert (I : Zpos (digits2_pos (Pos.iter xO m d)) = Zpos (digits2_pos m) + Zpos d).
    { clear. induction d as [|d IH] using Pos.peano_ind; [cbn; lia|]. rewrite Pos.iter_succ. cbn [digits2_pos]. lia. }
    cbn [Zdigits2]. lia. }
  destruct (shl_align m e f) as [m' e2]. destruct V as [-> V].
  apply round_aux_valid; [lia|]. rewrite V. fold f. lia.
Qed.

Lemma Prim2SF_round s m e :
  Prim2SF (SF2Prim (binary_round prec emax s m e)) = binary_round prec emax s m e.
Proof. apply FloatAxioms.Prim2SF_SF2Prim, binary_round_valid. Qed.

(** ** Bounds of results *)

Lemma atLeast_key k x : -1074 <= k <= 1100 -> atLeast k x <->
  match dkey x with Some a => 2 ^ (k + 1074) <= a | None => False end.
Proof.
  intros Hk. unfold atLeast, sfAtLeast, dkey. pose proof (Prim2SF_valid x) as V.
  assert (P : 0 < 2 ^ (k + 1074)) by (apply Z.pow_pos_nonneg; lia).
  destruct (Prim2SF x) as [s|s| |s m e]; cbn [sfkey].
  - lia.
  - assert (2 ^ (k + 1074) <= 2 ^ 2200) by (apply Z.pow_le_mono_r; lia). destruct s; lia.
  - done.
  - cbn in V. pose proof (finkey_range _ _ V). destruct s; [lia|].
    apply bounded_facts in V as (Be & _). rewrite sfkey_scaled by lia.
    replace (k + 2200) with (k + 1074 + 1126) by lia. rewrite Z.pow_add_r by lia.
    symmetry. apply Z.mul_le_mono_pos_r. by apply Z.pow_pos_nonneg.
Qed.

Lemma atLeast_pos k x : -1074 <= k <= 1100 -> atLeast k x -> (0 <? x)%D = true.
Proof.
  intros Hk. rewrite atLeast_key by done. intros L. rewrite dltb_key. change (dkey 0%D) with (Some 0).
  destruct (dkey x); [|done]. pose proof (Z.pow_pos_nonneg 2 (k + 1074)). lia.
Qed.

(** A bound carries over to anything larger. *)
Lemma atLeast_le k x y : -1074 <= k <= 1100 -> atLeast k x -> (x <=? y)%D = true -> atLeast k y.
Proof.
  intros Hk. rewrite !atLeast_key by done. rewrite dleb_key. destruct (dkey x), (dkey y); try done. lia.
Qed.

Lemma dmul_atLeast i j x y :
  -500 <= i <= 500 -> -500 <= j <= 500 -> atLeast i x -> atLeast j y -> atLeast (i + j) (x * y)%D.
Proof.
  intros Hi Hj. unfold atLeast. rewrite FloatAxioms.mul_spec. unfold SF64mul.
  pose proof (Prim2SF_valid x) as Vx. pose proof (Prim2SF_valid y) as Vy.
  destruct (Prim2SF x) as [[]|[]| |[] mx ex], (Prim2SF y) as [[]|[]| |[] my ey]; cbn [sfAtLeast SFmul xorb];
    try done.
  cbn in Vx, Vy. apply bounded_facts in Vx as (Bx & _). apply bounded_facts in Vy as (By & _).
  rewrite !sfkey_scaled by lia. intros Lx Ly.
  replace (i + 2200) with (i + 1074 + 1126) in Lx by lia. rewrite Z.pow_add_r in Lx by lia.
  replace (j + 2200) with (j + 1074 + 1126) in Ly by lia. rewrite Z.pow_add_r in Ly by lia.
  apply Z.mul_le_mono_pos_r in Lx; [|lia]. apply Z.mul_le_mono_pos_r in Ly; [|lia].
  apply round_aux_atLeast; [lia|lia|lia|]. rewrite Pos2Z.inj_mul. unfold scaled.
  apply Z.le_trans with (2 ^ (i + 1074) * 2 ^ (j + 1074) * 2 ^ 52).
  { rewrite <- !Z.pow_add_r by lia. apply Z.pow_le_mono_r; lia. }
  replace (ex + ey + 2200) with (ex + 1074 + (ey + 1074) + 52) by lia. rewrite (Z.pow_add_r 2 (ex + 1074 + (ey + 1074)) 52), (Z.pow_add_r 2 (ex + 1074)) by lia.
  replace (Zpos mx * Zpos my * (2 ^ (ex + 1074) * 2 ^ (ey + 1074) * 2 ^ 52))
    with (Zpos mx * 2 ^ (ex + 1074) * (Zpos my * 2 ^ (ey + 1074)) * 2 ^ 52) by ring.
  apply Z.mul_le_mono_nonneg_r; [lia|]. apply Z.mul_le_mono_nonneg; try done; apply Z.pow_nonneg; lia.
Qed.

Lemma fround_atLeast k x : -125 <= k < 128 -> atLeast k x -> atLeast k (fround x).
Proof.
  intros Hk L. unfold fround. pose proof (Prim2SF_valid x) as V. unfold atLeast in *.
  destruct (Prim2SF x) as [s|s| |s m e] eqn:E; cbn [sfAtLeast] in L; try done; [by rewrite E|].
  destruct s; [done|]. cbn in V. apply bounded_facts in V as (Be & _).
  pose proof (round32_atLeast k m e Hk ltac:(lia) L) as R.
  destruct (binary_round 24 128 false m e) as [?|[]| |[] m' e'] eqn:E2; try done.
  rewrite Prim2SF_round. apply round_atLeast; lia.
Qed.

Lemma fmul_atLeast i j x y :
  -60 <= i <= 60 -> -60 <= j <= 60 -> atLeast i x -> atLeast j y -> atLeast (i + j) (fmul x y).
Proof. intros. apply fround_atLeast; [lia|]. apply dmul_atLeast; lia || done. Qed.

(** Sums that start from zero: nonnegative, and positive once a term is. *)
Lemma fold_add_nonneg (l : list double) : forall a,
  (0 <=? a)%D = true -> Forall (fun x => (0 <=? x)%D = true) l ->
  (0 <=? fold_left (fun a x => a + x)%D l a)%D = true.
Proof.
  induction l as [|x l IH]; intros a Ha F; [done|]. apply Forall_cons in F as [Fx F]. cbn.
  apply IH; [by apply dadd_nonneg|done].
Qed.

Lemma dpos_nonneg x : (0 <? x)%D = true -> (0 <=? x)%D = true.
Proof. dorder. Qed.

Lemma fold_add_pos (l : list double) : forall a,
  (0 <=? a)%D = true -> Forall (fun x => (0 <? x)%D = true) l -> l <> [] ->
  (0 <? fold_left (fun a x => a + x)%D l a)%D = true.
Proof.
  induction l as [|x l IH]; intros a Ha F N; [done|]. apply Forall_cons in F as [Fx F]. cbn.
  assert (P : (0 <? a + x)%D = true) by (by apply dadd_pos_r).
  destruct l as [|y l]; [done|]. apply IH; [by apply dpos_nonneg|done|done].
Qed.

(** ** Differences from a whole number *)

(** The exact value of a finite double, as [scaled] has it. *)
Definition sval (f : spec_float) : Z :=
  match f with S754_finite s m e => if s then - scaled (Zpos m) e else scaled (Zpos m) e | _ => 0 end.
Definition sfFinite (f : spec_float) : bool :=
  match f with S754_zero _ | S754_finite _ _ _ => true | _ => false end.

Lemma round_aux_sign m e l :
  binary_round_aux prec emax true m e l = SFopp (binary_round_aux prec emax false m e l).
Proof.
  unfold binary_round_aux. destruct (shr_fexp prec emax m e l) as [r e'].
  destruct (shr_fexp prec emax _ e' loc_Exact) as [r2 e2]. destruct (shr_m r2); try done. by destruct (_ <=? _).
Qed.
Lemma round_sign m e : binary_round prec emax true m e = SFopp (binary_round prec emax false m e).
Proof. unfold binary_round. destruct (shl_align _ _ _). apply round_aux_sign. Qed.

(** A representable value below an exact one is below its rounding. *)
Lemma binary_round_ge mx ex m e :
  bounded prec emax mx ex = true -> -2200 <= e -> scaled (Zpos mx) ex <= scaled (Zpos m) e ->
  match sfkey (binary_round prec emax false m e) with
  | Some k => Zpos mx * 2 ^ (ex + 1074) <= k
  | None => False
  end.
Proof.
  intros V He Le. unfold binary_round.
  set (t := fexp prec emax (Zpos (digits2_pos m) + e)). assert (Ht : -2200 <= t) by (unfold t; rewrite fexp64_eq; lia).
  clearbody t. pose proof (shl_align_value m e t Ht) as A.
  destruct (shl_align m e t) as [mz ez]. destruct A as [-> A]. rewrite <- A in Le.
  pose proof (round64_ge mx ex (Zpos mz) (Z.min e t) loc_Exact V ltac:(lia) ltac:(lia) Le) as R.
  pose proof (finkey_range _ _ V) as Kx. pose proof (bounded_facts _ _ V) as (Bx & _).
  destruct (binary_round_aux prec emax false (Zpos mz) _ loc_Exact) as [?|[]| |[] m' e']; try done; cbn [sfkey].
  - lia.
  - destruct R as [R He']. rewrite !sfkey_scaled in R by lia. apply Z.mul_le_mono_pos_r in R; [|lia]. lia.
Qed.

(** A sum whose exact size is at least a representable value keeps at least it. *)
Lemma sfadd_size mx ex f g :
  bounded prec emax mx ex = true -> valid_binary f = true -> valid_binary g = true ->
  sfFinite f = true -> sfFinite g = true -> scaled (Zpos mx) ex <= Z.abs (sval f + sval g) ->
  match sfkey (SFabs (SFadd prec emax f g)) with
  | Some k => Zpos mx * 2 ^ (ex + 1074) <= k
  | None => False
  end.
Proof.
  intros V Vf Vg Ff Fg Le. pose proof (bounded_facts _ _ V) as (Bx & _).
  assert (Pos : 0 < scaled (Zpos mx) ex) by (unfold scaled; apply Z.mul_pos_pos; [lia|apply Z.pow_pos_nonneg; lia]).
  assert (One : forall s m e, valid_binary (S754_finite s m e) = true -> scaled (Zpos mx) ex <= scaled (Zpos m) e ->
    match sfkey (SFabs (S754_finite s m e)) with Some k => Zpos mx * 2 ^ (ex + 1074) <= k | None => False end).
  { intros s m e Vm Lm. cbn in Vm. apply bounded_facts in Vm as (Bm & _). cbn [SFabs sfkey]. rewrite !sfkey_scaled in Lm by lia.
    apply Z.mul_le_mono_pos_r in Lm; [|lia]. lia. }
  assert (Ab : forall s m e, Z.abs (if s : bool then - scaled (Zpos m) e else scaled (Zpos m) e) = Z.abs (scaled (Zpos m) e))
    by (intros []; intros; lia).
  assert (Nn : forall m e, Z.abs (scaled (Zpos m) e) = scaled (Zpos m) e).
  { intros m e. apply Z.abs_eq. unfold scaled. apply Z.mul_nonneg_nonneg; [lia|]. by apply Z.pow_nonneg. }
  destruct f as [sf|sf| |sf mf ef], g as [sg|sg| |sg mg eg]; try done.
  - cbn in Le. lia.
  - cbn [sval] in Le. rewrite Z.add_0_l, Ab, Nn in Le. by apply One.
  - cbn [sval] in Le. rewrite Z.add_0_r, Ab, Nn in Le. by apply One.
  - cbn in Vf, Vg. apply bounded_facts in Vf as (Bf & _). apply bounded_facts in Vg as (Bg & _). cbn [SFadd]. cbv zeta.
    pose proof (shl_align_value mf ef (Z.min ef eg) ltac:(lia)) as Af.
    pose proof (shl_align_value mg eg (Z.min ef eg) ltac:(lia)) as Ag.
    destruct (shl_align mf ef (Z.min ef eg)) as [pf qf], (shl_align mg eg (Z.min ef eg)) as [pg qg].
    destruct Af as [-> Af], Ag as [-> Ag]. cbn [fst].
    replace (Z.min ef (Z.min ef eg)) with (Z.min ef eg) in Af by lia.
    replace (Z.min eg (Z.min ef eg)) with (Z.min ef eg) in Ag by lia.
    set (e0 := Z.min ef eg) in *. set (z := cond_Zopp sf (Zpos pf) + cond_Zopp sg (Zpos pg)).
    assert (Ez : sval (S754_finite sf mf ef) + sval (S754_finite sg mg eg) = scaled z e0).
    { cbn [sval]. rewrite <- Af, <- Ag. unfold z, scaled. destruct sf, sg; cbn [cond_Zopp]; ring. }
    rewrite Ez in Le. clearbody z. destruct z as [|m|m]; cbn [binary_normalize].
    + change (scaled 0 e0) with 0 in Le. cbn [Z.abs] in Le. lia.
    + rewrite Nn in Le. pose proof (binary_round_ge mx ex m e0 V ltac:(lia) Le) as R.
      destruct (binary_round prec emax false m e0) as [s|s| |s m' e'] eqn:E; try done; cbn [SFabs sfkey] in *.
      * destruct s; lia.
      * destruct s; [|done]. cbn -[Z.pow] in R. assert (0 < 2 ^ (e' + 1074) \/ 2 ^ (e' + 1074) = 0) as [|] by
          (pose proof (Z.pow_nonneg 2 (e' + 1074)); lia); nia.
    + change (Zneg m) with (- Zpos m) in Le. unfold scaled in Le. rewrite Z.mul_opp_l, Z.abs_opp in Le.
      fold (scaled (Zpos m) e0) in Le. fold (scaled (Zpos mx) ex) in Le. rewrite Nn in Le.
      rewrite round_sign. pose proof (binary_round_ge mx ex m e0 V ltac:(lia) Le) as R.
      destruct (binary_round prec emax false m e0) as [s|s| |s m' e'] eqn:E; try done; cbn [SFopp SFabs sfkey] in *.
      * destruct s; lia.
      * destruct s; [|done]. cbn -[Z.pow] in R. assert (0 < 2 ^ (e' + 1074) \/ 2 ^ (e' + 1074) = 0) as [|] by
          (pose proof (Z.pow_nonneg 2 (e' + 1074)); lia); nia.
Qed.

(** Whole numbers are exact. *)
Lemma d_of_Z_exact z : Z.abs z < 2 ^ 53 -> sfFinite (Prim2SF (d_of_Z z)) = true /\ sval (Prim2SF (d_of_Z z)) = z * 2 ^ 2200.
Proof.
  intros B. unfold d_of_Z.
  assert (Pz : forall m s, Zpos m < 2 ^ 53 -> exists m' e', binary_round prec emax s m 0 = S754_finite s m' e' /\ scaled (Zpos m') e' = Zpos m * 2 ^ 2200).
  { intros m s Bm. unfold binary_round. set (d := Zpos (digits2_pos m)).
    pose proof (digits_bounds (Zpos m) ltac:(lia)) as [[D1 D2] D3]. cbn [Zdigits2] in D1, D2, D3. fold d in D1, D2, D3.
    assert (Hd : d <= 53). { destruct (Z.le_gt_cases d 53); [done|]. assert (2 ^ 53 <= 2 ^ (d - 1)) by (apply Z.pow_le_mono_r; lia). lia. }
    rewrite Z.add_0_r. rewrite fexp64_eq. rewrite Z.max_l by lia. set (t := d - 53).
    pose proof (shl_align_value m 0 t ltac:(unfold t; lia)) as A. destruct (shl_align m 0 t) as [mz ez]. destruct A as [-> A].
    rewrite Z.min_r in * by (unfold t; lia).
    assert (Ev : Zpos mz = Zpos m * 2 ^ (53 - d)).
    { unfold scaled in A. apply (Z.mul_reg_r _ _ (2 ^ (t + 2200))); [apply Z.pow_nonzero; unfold t; lia|].
      rewrite A, <- Z.mul_assoc, <- Z.pow_add_r by (unfold t; lia). do 2 f_equal. unfold t. lia. }
    assert (Dz : Zdigits2 (Zpos mz) = 53).
    { apply digits_unique; [|lia]. rewrite Ev. split.
      - replace (53 - 1) with ((d - 1) + (53 - d)) by lia. rewrite Z.pow_add_r by lia. apply Z.mul_le_mono_nonneg_r; [apply Z.pow_nonneg; lia|lia].
      - replace 53 with (d + (53 - d)) at 2 by lia. rewrite Z.pow_add_r by lia. apply Z.mul_lt_mono_pos_r; [apply Z.pow_pos_nonneg; lia|lia]. }
    assert (F : forall l, shr_fexp prec emax (Zpos mz) t l = (shr_record_of_loc (Zpos mz) l, t)).
    { intros l. unfold shr_fexp. rewrite Dz, fexp64_eq. rewrite Z.max_l by (unfold t; lia).
      replace (53 + t - 53 - t) with 0 by lia. done. }
    unfold binary_round_aux. rewrite F. cbn [shr_record_of_loc shr_m loc_of_shr_record round_nearest_even].
    rewrite F. cbn [shr_record_of_loc shr_m]. destruct (Z.leb_spec t (emax - prec)) as [|X]; [|change (emax - prec) with 971 in X; unfold t in X; lia].
    exists mz, t. split; [done|]. unfold scaled in A. exact A. }
  destruct z as [|m|m]; cbn [binary_normalize].
  - split; reflexivity.
  - rewrite Prim2SF_round. destruct (Pz m false ltac:(lia)) as (m' & e' & -> & E). split; [done|]. cbn [sval]. lia.
  - rewrite Prim2SF_round. destruct (Pz m true ltac:(lia)) as (m' & e' & -> & E). split; [done|]. cbn [sval]. lia.
Qed.

(** The distance of a double from a whole number is at least the number of whole
    numbers between. *)
Lemma dist_ge p a q :
  sfFinite (Prim2SF p) = true -> Z.abs a < 2 ^ 53 -> 0 < q < 2 ^ 53 ->
  q * 2 ^ 2200 <= Z.abs (sval (Prim2SF p) - a * 2 ^ 2200) ->
  (d_of_Z q <=? dabs (p - d_of_Z a))%D = true.
Proof.
  intros Fp A Q Le. destruct (d_of_Z_exact a A) as [Fa Ea]. destruct (d_of_Z_exact q ltac:(lia)) as [Fq Eq].
  rewrite dleb_key. unfold dkey at 1 2. unfold dabs. rewrite FloatAxioms.abs_spec, FloatAxioms.sub_spec.
  pose proof (Prim2SF_valid (d_of_Z q)) as Vq. destruct (Prim2SF (d_of_Z q)) as [?|?| |s mx ex]; try done; [cbn in Eq; lia|].
  assert (Ps : forall m e, 0 <= scaled (Zpos m) e).
  { intros m e. unfold scaled. apply Z.mul_nonneg_nonneg; [lia|]. by apply Z.pow_nonneg. }
  cbn [sval] in Eq. destruct s; [pose proof (Ps mx ex); lia|]. cbn in Vq.
  assert (Sub : forall f g, SF64sub f g = SFadd prec emax f (SFopp g) \/ sfFinite f = false \/ sfFinite g = false).
  { intros f g. destruct f as [sf|sf| |sf mf ef], g as [sg|sg| |sg mg eg]; auto; left; try (by destruct sf, sg). }
  destruct (Sub (Prim2SF p) (Prim2SF (d_of_Z a))) as [E|[E|E]]; [|congruence..]. rewrite E.
  pose proof (sfadd_size mx ex (Prim2SF p) (SFopp (Prim2SF (d_of_Z a))) Vq (Prim2SF_valid p)) as S.
  assert (V : valid_binary (SFopp (Prim2SF (d_of_Z a))) = true) by (pose proof (Prim2SF_valid (d_of_Z a)); by destruct (Prim2SF (d_of_Z a))).
  assert (F : sfFinite (SFopp (Prim2SF (d_of_Z a))) = true) by (by destruct (Prim2SF (d_of_Z a))).
  assert (O : sval (SFopp (Prim2SF (d_of_Z a))) = - (a * 2 ^ 2200)).
  { rewrite <- Ea. destruct (Prim2SF (d_of_Z a)) as [?|?| |[] m e]; cbn [SFopp sval negb]; lia. }
  specialize (S V Fp F). rewrite O, Eq in S. specialize (S Le). cbn [sfkey].
  destruct (sfkey _); [|done]. by apply Z.leb_le.
Qed.

Lemma dkey_whole z : Z.abs z < 2 ^ 53 -> dkey (d_of_Z z) = Some (z * 2 ^ 1074).
Proof.
  intros B. destruct (d_of_Z_exact z B) as [F E]. unfold dkey. pose proof (Prim2SF_valid (d_of_Z z)) as V.
  replace (2 ^ 2200) with (2 ^ 1074 * 2 ^ 1126) in E by (rewrite <- Z.pow_add_r by lia; done).
  assert (P : 0 < 2 ^ 1126) by (apply Z.pow_pos_nonneg; lia).
  destruct (Prim2SF (d_of_Z z)) as [s|s| |s m e]; try done; cbn [sfkey sval] in *.
  - f_equal. assert (0 < 2 ^ 1074) by (apply Z.pow_pos_nonneg; lia). symmetry. nia.
  - cbn in V. apply bounded_facts in V as (Be & _). rewrite sfkey_scaled in E by lia. f_equal. destruct s; nia.
Qed.
Lemma whole_lt a b : Z.abs a < 2 ^ 53 -> Z.abs b < 2 ^ 53 -> (d_of_Z a <? d_of_Z b)%D = (a <? b).
Proof.
  intros A B. rewrite dltb_key, !dkey_whole by done. assert (0 < 2 ^ 1074) by (apply Z.pow_pos_nonneg; lia).
  destruct (Z.ltb_spec a b); [apply Z.ltb_lt|apply Z.ltb_ge]; nia.
Qed.

Lemma sf_round_below m e : -1074 <= e -> (sf_round m e - 1) * 2 ^ 2200 <= scaled (Zpos m) e.
Proof.
  intros E. unfold sf_round, scaled. assert (P : 0 < 2 ^ 2200) by (apply Z.pow_pos_nonneg; lia). destruct (Z.leb_spec 0 e).
  - rewrite Z.pow_add_r by lia. nia.
  - replace (1 - e) with (1 + - e) by lia. rewrite Z.pow_add_r by lia. change (2 ^ 1) with 2.
    set (k := 2 ^ (- e)). assert (K : 0 < k) by (apply Z.pow_pos_nonneg; lia).
    assert (S : 2 ^ 2200 = 2 ^ (e + 2200) * k) by (unfold k; rewrite <- Z.pow_add_r by lia; f_equal; lia).
    rewrite S. set (j := 2 ^ (e + 2200)). assert (J : 0 < j) by (apply Z.pow_pos_nonneg; lia).
    pose proof (Z.mul_div_le (2 * Zpos m + k) (2 * k) ltac:(lia)) as D. set (n := (2 * Zpos m + k) / (2 * k)) in *.
    assert ((n - 1) * k <= Zpos m) by nia. nia.
Qed.
Lemma sf_round_nonneg m e : 0 <= sf_round m e.
Proof.
  unfold sf_round. destruct (Z.leb_spec 0 e).
  - apply Z.mul_nonneg_nonneg; [lia|]. by apply Z.pow_nonneg.
  - apply Z.div_pos; [pose proof (Z.pow_nonneg 2 (- e)); lia|]. apply Z.pow_pos_nonneg; lia.
Qed.

(** A double whose distance from a whole number is not more than another, rounds to
    within one more; a NaN to 0. *)
Lemma lround_near p a q :
  Z.abs a < 2 ^ 29 -> 0 < q < 2 ^ 29 -> (d_of_Z q <? dabs (p - d_of_Z a))%D = false ->
  Z.abs (i32 (dllround p)) <= Z.abs a + q + 1.
Proof.
  intros A Q N. unfold dllround, droundZ. destruct (Prim2SF p) as [s|s| |s m e] eqn:E.
  - match goal with |- Z.abs ?x <= _ => replace x with 0 by (vm_compute; reflexivity) end. lia.
  - exfalso. rewrite dltb_key, dkey_whole in N by lia. unfold dkey, dabs in N.
    rewrite FloatAxioms.abs_spec, FloatAxioms.sub_spec, E in N.
    destruct (d_of_Z_exact a ltac:(lia)) as [Fa _]. destruct (Prim2SF (d_of_Z a)); try done; cbn [SF64sub SFsub SFabs sfkey] in N;
      apply Z.ltb_ge in N; assert (q * 2 ^ 1074 < 2 ^ 2200); try lia;
      replace (2 ^ 2200) with (2 ^ 1126 * 2 ^ 1074) by (rewrite <- Z.pow_add_r by lia; done);
      (apply Z.mul_lt_mono_pos_r; [by apply Z.pow_pos_nonneg|]);
      (assert (2 ^ 29 < 2 ^ 1126) by (apply Z.pow_lt_mono_r; lia)); lia.
  - match goal with |- Z.abs ?x <= _ => replace x with 0 by (vm_compute; reflexivity) end. lia.
  - pose proof (Prim2SF_valid p) as V. rewrite E in V. cbn in V. apply bounded_facts in V as (Be & _).
    pose proof (sf_round_below m e ltac:(lia)) as Lo. pose proof (sf_round_nonneg m e) as Hi.
    assert (Bd : sf_round m e <= Z.abs a + q + 1).
    { destruct (Z.le_gt_cases (sf_round m e) (Z.abs a + q + 1)) as [|X]; [done|]. exfalso.
      assert (D : (d_of_Z (q + 1) <=? dabs (p - d_of_Z a))%D = true).
      { apply dist_ge; [by rewrite E|lia|lia|]. rewrite E. cbn [sval].
        assert (P : 0 < 2 ^ 2200) by (apply Z.pow_pos_nonneg; lia).
        assert (Y : (Z.abs a + q + 1) * 2 ^ 2200 <= scaled (Zpos m) e) by (etransitivity; [|exact Lo]; nia).
        assert (a * 2 ^ 2200 <= Z.abs a * 2 ^ 2200 /\ - (Z.abs a * 2 ^ 2200) <= a * 2 ^ 2200) by nia.
        set (b := 2 ^ 2200) in *. clearbody b. destruct s; nia. }
      pose proof (whole_lt q (q + 1) ltac:(lia) ltac:(lia)) as L. rewrite (proj2 (Z.ltb_lt q (q + 1)) ltac:(lia)) in L.
      revert N D L. clear. generalize (dabs (p - d_of_Z a)), (d_of_Z q), (d_of_Z (q + 1)). intros x y z. dorder. }
    set (n := sf_round m e) in *. clearbody n.
    destruct s; (destruct (_ && _) eqn:R; [rewrite i32_small by lia; lia|]); exfalso; apply andb_false_iff in R; destruct R; zbool; lia.
Qed.

(** A double from 0 to a whole number rounds to no more than the next; a NaN to 0. *)
Lemma lround_within p h :
  0 <= h < 2 ^ 29 -> (p <? 0)%D = false -> (d_of_Z h <? p)%D = false -> 0 <= i32 (dllround p) <= h + 1.
Proof.
  intros Hh P N. rewrite dltb_key in P. rewrite dltb_key, dkey_whole in N by lia. change (dkey 0%D) with (Some 0) in P.
  unfold dkey in P, N. unfold dllround, droundZ. destruct (Prim2SF p) as [s|s| |s m e] eqn:E; cbn [sfkey] in P, N.
  1, 3: match goal with |- 0 <= ?x <= _ => replace x with 0 by (vm_compute; reflexivity) end; lia.
  - exfalso. apply Z.ltb_ge in P, N. assert (T : h * 2 ^ 1074 < 2 ^ 2200).
    { replace (2 ^ 2200) with (2 ^ 1126 * 2 ^ 1074) by (rewrite <- Z.pow_add_r by lia; done).
      apply Z.mul_lt_mono_pos_r; [by apply Z.pow_pos_nonneg|]. assert (2 ^ 29 < 2 ^ 1126) by (apply Z.pow_lt_mono_r; lia). lia. }
    assert (0 < 2 ^ 2200) by (apply Z.pow_pos_nonneg; lia). destruct s; lia.
  - pose proof (Prim2SF_valid p) as V. rewrite E in V. cbn in V. apply bounded_facts in V as (Be & _).
    pose proof (sf_round_below m e ltac:(lia)) as Lo. pose proof (sf_round_nonneg m e) as Hi.
    rewrite sfkey_scaled in Lo by lia. replace (2 ^ 2200) with (2 ^ 1074 * 2 ^ 1126) in Lo by (rewrite <- Z.pow_add_r by lia; done).
    assert (Y : 0 < 2 ^ 1126) by (apply Z.pow_pos_nonneg; lia). assert (X : 0 < 2 ^ 1074) by (apply Z.pow_pos_nonneg; lia).
    assert (K : 0 < Zpos m * 2 ^ (e + 1074)) by (apply Z.mul_pos_pos; [lia|]; apply Z.pow_pos_nonneg; lia).
    set (k := Zpos m * 2 ^ (e + 1074)) in *. clearbody k. apply Z.ltb_ge in P, N. destruct s; [lia|].
    assert (B : sf_round m e <= h + 1) by nia. set (n := sf_round m e) in *. clearbody n.
    destruct (_ && _) eqn:R; [rewrite i32_small by lia; lia|]. exfalso. apply andb_false_iff in R. destruct R; zbool; lia.
Qed.
