(* ===== verification/Text.v ===== *)
(** * Text: the printf conversions the source formats with
    [%d], [%0nd], [%u], [%02X] on integers, [%.nf] on doubles, and the decimal
    reader [atoi] on digit strings. Strings are Stdlib's [string]. *)

From Stdlib Require Import ZArith Lia List Bool Ascii String Floats.
From stdpp Require Import base list strings.
From S2P Require Import Prelude Doubles.

#[local] Open Scope string_scope.
#[local] Open Scope Z_scope.

Definition digit (z : Z) : ascii := ascii_of_nat (48 + Z.to_nat z).

(** The decimal digits of [z >= 0], most significant first, before [acc]. *)
Fixpoint dec_aux (fuel : nat) (z : Z) (acc : string) : string :=
  let acc' := String (digit (z mod 10)) acc in
  match fuel with
  | O => acc'
  | S f => if z <? 10 then acc' else dec_aux f (z / 10) acc'
  end.

(** A number has at most [log2 z + 1] digits, so the fuel is enough. *)
Definition udec (z : Z) : string := dec_aux (Z.to_nat (Z.log2 z)) z "".

(** [%d] and [std::to_string]. *)
Definition dec (z : Z) : string := if z <? 0 then "-" +:+ udec (- z) else udec z.

Fixpoint zeros (n : nat) : string := match n with O => "" | S k => String "0" (zeros k) end.

(** [%0nd]: the sign counts toward the width. *)
Definition dec0 (w : nat) (z : Z) : string :=
  let s := udec (Z.abs z) in
  let sign := if z <? 0 then "-" else "" in
  sign +:+ zeros (w - String.length s - String.length sign) +:+ s.

(** One upper-case hexadecimal digit, and [%02X] of a byte. *)
Definition hexdigit (z : Z) : ascii :=
  if z <? 10 then digit z else ascii_of_nat (55 + Z.to_nat z).
Definition hex2 (z : Z) : string := String (hexdigit (z / 16)) (String (hexdigit (z mod 16)) "").

(** [z] as exactly [n] decimal digits: what [%0nd] prints of [0 <= z < 10^n]. *)
Fixpoint ndigits (n : nat) (z : Z) (acc : string) : string :=
  match n with
  | O => acc
  | S k => ndigits k (z / 10) (String (digit (z mod 10)) acc)
  end.

(** Round [num / 10^0 * 2^e] scaled by [10^n] to an integer, ties to even: what
    printf does with the exact value of a double. *)
Definition round_even (num den : Z) : Z :=
  let q := num / den in
  let r := num mod den in
  if 2 * r <? den then q
  else if den <? 2 * r then q + 1
  else if Z.even q then q else q + 1.

(** [%.nf] of a finite double. *)
Definition fixed (n : nat) (x : double) : string :=
  match Prim2SF x with
  | S754_nan => "nan"
  | S754_infinity s => if s then "-inf" else "inf"
  | S754_zero s | S754_finite s _ _ =>
      let scaled :=
        match Prim2SF x with
        | S754_finite _ m e =>
            if 0 <=? e then Zpos m * 2 ^ e * 10 ^ Z.of_nat n
            else round_even (Zpos m * 10 ^ Z.of_nat n) (2 ^ (- e))
        | _ => 0
        end in
      let int := scaled / 10 ^ Z.of_nat n in
      let frac := scaled mod 10 ^ Z.of_nat n in
      (if s then "-" else "") +:+ udec int ++
      (match n with O => "" | _ => "." +:+ ndigits n frac "" end)
  end.

Definition isdigit (c : ascii) : bool := (48 <=? nat_of_ascii c)%nat && (nat_of_ascii c <=? 57)%nat.
Definition digit_val (c : ascii) : Z := Z.of_nat (nat_of_ascii c) - 48.

(** [std::atoi] on a string of digits, left to right. *)
Fixpoint read_dec (s : string) (acc : Z) : Z :=
  match s with
  | EmptyString => acc
  | String c r => read_dec r (acc * 10 + digit_val c)
  end.
Fixpoint all_digits (s : string) : bool :=
  match s with EmptyString => true | String c r => isdigit c && all_digits r end.

(** ** Lemmas *)

Lemma digit_val_digit d : 0 <= d < 10 -> digit_val (digit d) = d.
Proof.
  intros H. unfold digit_val, digit. rewrite nat_ascii_embedding by lia. lia.
Qed.

Lemma isdigit_digit d : 0 <= d < 10 -> isdigit (digit d) = true.
Proof.
  intros H. unfold isdigit, digit. rewrite nat_ascii_embedding by lia.
  apply andb_true_iff; split; apply Nat.leb_le; lia.
Qed.

Lemma app_str_cons x (a b : string) : String x a +:+ b = String x (a +:+ b).
Proof. reflexivity. Qed.

Lemma app_str_nil (b : string) : "" +:+ b = b.
Proof. reflexivity. Qed.

Lemma app_str_assoc (a b c : string) : (a +:+ b) +:+ c = a +:+ b +:+ c.
Proof. induction a; rewrite ?app_str_nil, ?app_str_cons; congruence. Qed.

Lemma app_str_length (a b : string) : String.length (a +:+ b) = (String.length a + String.length b)%nat.
Proof. induction a; rewrite ?app_str_nil, ?app_str_cons; simpl; congruence. Qed.

Lemma read_dec_app a b acc : read_dec (a +:+ b) acc = read_dec b (read_dec a acc).
Proof. revert acc; induction a; intros; rewrite ?app_str_nil, ?app_str_cons; simpl; auto. Qed.

(** Where the digits of [dec_aux] end up: reading them back multiplies what was
    read before by a power of ten and adds [z]. *)
Lemma read_dec_dec_aux fuel z acc :
  0 <= z < 10 ^ (Z.of_nat fuel + 1) ->
  read_dec (dec_aux fuel z acc) 0 = read_dec acc z.
Proof.
  revert z acc. induction fuel as [|f IH]; intros z acc H; cbn [dec_aux].
  - cbn [read_dec]. change (10 ^ (Z.of_nat 0 + 1)) with 10 in H.
    rewrite digit_val_digit by (apply Z.mod_pos_bound; lia).
    rewrite Z.mod_small by lia. done.
  - destruct (z <? 10) eqn:E; zbool.
    + cbn [read_dec]. rewrite Z.mod_small, digit_val_digit by lia. done.
    + rewrite IH.
      * cbn [read_dec]. rewrite digit_val_digit by (apply Z.mod_pos_bound; lia).
        f_equal. dlia.
      * rewrite Nat2Z.inj_succ, Z.add_succ_l, Z.pow_succ_r in H by lia.
        split; [dlia|]. apply Z.div_lt_upper_bound; lia.
Qed.

Lemma log2_digits z : 0 <= z -> z < 10 ^ (Z.of_nat (Z.to_nat (Z.log2 z)) + 1).
Proof.
  intros H. pose proof (Z.log2_nonneg z). rewrite Z2Nat.id by lia.
  destruct (Z.eq_dec z 0) as [->|]; [apply Z.pow_pos_nonneg; lia|].
  pose proof (Z.log2_spec z ltac:(lia)) as [_ L].
  eapply Z.lt_le_trans; [apply L|]. unfold Z.succ. apply Z.pow_le_mono_l. lia.
Qed.

Lemma read_dec_udec z : 0 <= z -> read_dec (udec z) 0 = z.
Proof. intros. unfold udec. rewrite read_dec_dec_aux; [done|]. split; auto using log2_digits. Qed.

Lemma read_dec_ndigits n z acc a :
  0 <= z < 10 ^ Z.of_nat n ->
  read_dec (ndigits n z acc) a = read_dec acc (a * 10 ^ Z.of_nat n + z).
Proof.
  revert z acc a. induction n as [|n IH]; intros z acc a H; cbn [ndigits].
  - change (10 ^ Z.of_nat 0) with 1 in *. f_equal; lia.
  - rewrite Nat2Z.inj_succ, Z.pow_succ_r in * by lia. rewrite IH.
    + cbn [read_dec]. rewrite digit_val_digit by (apply Z.mod_pos_bound; lia).
      f_equal. set (p := 10 ^ Z.of_nat n) in *. clearbody p. dlia.
    + split; [dlia|]. apply Z.div_lt_upper_bound; lia.
Qed.

Lemma ndigits_length n z acc : String.length (ndigits n z acc) = (n + String.length acc)%nat.
Proof. revert z acc; induction n; intros; cbn [ndigits]; [done|]. rewrite IHn. simpl. lia. Qed.
