(* ===== verification/ClockTypes.v ===== *)
(** * The time-code data types of src/clock/TimeFrameVoter.h
    The per-second symbols, the lock-refusal tags and the decoded timestamp
    every decoder, the voter and the calendar code exchange. *)

From Stdlib Require Import ZArith Lia List Bool.
From stdpp Require Import base decidable list.
From S2P Require Import Prelude.

Inductive ClockSymbol := SymUnknown | SymZero | SymOne | SymMarker.

Inductive ClockLockState := LockNoSignal | LockAcquiring | LockLocked.

Inductive ClockStation :=
  StUnknown | StWwv | StWwvh | StWwvb | StDcf77 | StMsf | StAllouis.

Inductive ClockLockRefusal :=
  RefNone | RefQualityFloor | RefPlausibility | RefStaleness | RefContested.

(** One BCD map entry: which second of the frame carries which weight. *)
Record ClockBitWeight := BW { bw_second : Z; bw_weight : Z }.
Abbreviation ClockFieldMap := (list ClockBitWeight).

(** A complete broadcast timestamp: minute and hour 0-based, day of year
    1-based, year in the 20xx century; all -1 when there is none. *)
Record TimeFields := TF { tf_minute : Z; tf_hour : Z; tf_doy : Z; tf_year2 : Z }.
Definition TimeFields_none : TimeFields := TF (-1) (-1) (-1) (-1).

#[export] Instance ClockSymbol_eq_dec : EqDecision ClockSymbol.
Proof. solve_decision. Defined.
#[export] Instance ClockLockState_eq_dec : EqDecision ClockLockState.
Proof. solve_decision. Defined.
#[export] Instance ClockStation_eq_dec : EqDecision ClockStation.
Proof. solve_decision. Defined.
#[export] Instance ClockLockRefusal_eq_dec : EqDecision ClockLockRefusal.
Proof. solve_decision. Defined.
#[export] Instance ClockBitWeight_eq_dec : EqDecision ClockBitWeight.
Proof. solve_decision. Defined.
#[export] Instance TimeFields_eq_dec : EqDecision TimeFields.
Proof. solve_decision. Defined.

Definition symb_eqb (a b : ClockSymbol) : bool := bool_decide (a = b).

(** The year names a Gregorian leap year, under the 20xx assumption. *)
Definition isLeapYear2 (year2 : Z) : bool :=
  let y := 2000 + year2 in
  (cmod y 4 =? 0) && (negb (cmod y 100 =? 0) || (cmod y 400 =? 0)).

Definition yearLen (year2 : Z) : Z := if isLeapYear2 year2 then 366 else 365.

(** A timestamp inside the broadcast ranges: the voter's whole-frame gate. *)
Definition rangeValid (t : TimeFields) : bool :=
  (0 <=? tf_minute t) && (tf_minute t <=? 59) &&
  (0 <=? tf_hour t) && (tf_hour t <=? 23) &&
  (1 <=? tf_doy t) && (tf_doy t <=? 366) &&
  (0 <=? tf_year2 t) && (tf_year2 t <=? 99) &&
  negb ((tf_doy t =? 366) && negb (isLeapYear2 (tf_year2 t))).

Lemma isLeapYear2_20xx y : 0 <= y <= 99 -> isLeapYear2 y = (y mod 4 =? 0).
Proof.
  intros H. unfold isLeapYear2, cmod. rewrite !Z.rem_mod_nonneg by lia.
  destruct (y mod 4 =? 0) eqn:E; zbool.
  - destruct (Z.eqb_spec ((2000 + y) mod 4) 0); [|dlia]. cbn [andb].
    destruct (Z.eqb_spec ((2000 + y) mod 100) 0); [|done]. cbn [negb orb].
    apply Z.eqb_eq. dlia.
  - destruct (Z.eqb_spec ((2000 + y) mod 4) 0); [dlia|done].
Qed.

Lemma yearLen_range y : 365 <= yearLen y <= 366.
Proof. unfold yearLen. destruct (isLeapYear2 y); lia. Qed.

Lemma rangeValid_spec t :
  rangeValid t = true <->
  0 <= tf_minute t <= 59 /\ 0 <= tf_hour t <= 23 /\
  1 <= tf_doy t <= yearLen (tf_year2 t) /\ 0 <= tf_year2 t <= 99.
Proof.
  unfold rangeValid, yearLen. rewrite !andb_true_iff, !Z.leb_le, negb_true_iff.
  destruct (isLeapYear2 (tf_year2 t)).
  - rewrite andb_false_r. intuition lia.
  - rewrite andb_true_r, Z.eqb_neq. intuition lia.
Qed.
