(* ===== verification/CivilTime.v ===== *)
(** * Calendar arithmetic (src/CivilTime.h)
    Days to civil dates and back, the floor divisions, the timestamps built from
    decoded fields, ISO 8601 text, and the last-day-of-the-month test that
    narrows a broadcast leap warning. [int], [unsigned] and [long long] are [Z]
    with the [unsigned] wrap-around written out where the source computes in
    [unsigned]. *)

From Stdlib Require Import ZArith Lia List Bool Ascii String.
From stdpp Require Import base list strings.
From S2P Require Import Prelude Doubles Text ClockTypes.

#[local] Open Scope string_scope.
#[local] Open Scope Z_scope.

Definition daysFromCivil (y m d : Z) : Z :=
  let y := y - Z.b2z (m <=? 2) in
  let era := cdiv (if 0 <=? y then y else y - 399) 400 in
  let yoe := u32 (y - era * 400) in
  let doy := u32 (u32 (153 * u32 (m + (if 2 <? m then u32 (-3) else 9)) + 2) / 5 + d - 1) in
  let doe := u32 (yoe * 365 + yoe / 4 - yoe / 100 + doy) in
  era * 146097 + doe - 719468.

(** The [int&, unsigned&, unsigned&] results as a triple. *)
Definition civilFromDays (z : Z) : Z * Z * Z :=
  let z := z + 719468 in
  let era := cdiv (if 0 <=? z then z else z - 146096) 146097 in
  let doe := u32 (z - era * 146097) in
  let yoe := u32 (doe - doe / 1460 + doe / 36524 - doe / 146096) / 365 in
  let yy := yoe + era * 400 in
  let doy := u32 (doe - (365 * yoe + yoe / 4 - yoe / 100)) in
  let mp := u32 (5 * doy + 2) / 153 in
  let d := u32 (doy - u32 (153 * mp + 2) / 5 + 1) in
  let m := u32 (mp + (if mp <? 10 then 3 else u32 (-9))) in
  (i32 (yy + Z.b2z (m <=? 2)), m, d).

Definition floorDiv (a b : Z) : Z :=
  let q := cdiv a b in
  if negb (cmod a b =? 0) && negb (Bool.eqb (a <? 0) (b <? 0)) then q - 1 else q.
Definition floorMod (a b : Z) : Z := a - floorDiv a b * b.

Definition utcMsFromFields (year2 doy hour minute : Z) : Z :=
  let days := daysFromCivil (2000 + year2) 1 1 + (doy - 1) in
  (days * 86400 + hour * 3600 + minute * 60) * 1000.

Definition iso8601 (ms : Z) : string :=
  let secs := floorDiv ms 1000 in
  let days := floorDiv secs 86400 in
  let rem := floorMod secs 86400 in
  let '(y, mo, d) := civilFromDays days in
  let hh := cdiv rem 3600 in
  let rem := cmod rem 3600 in
  let mi := cdiv rem 60 in
  let ss := cmod rem 60 in
  dec0 4 y +:+ "-" +:+ dec0 2 mo +:+ "-" +:+ dec0 2 d +:+ "T" +:+
  dec0 2 hh +:+ ":" +:+ dec0 2 mi +:+ ":" +:+ dec0 2 ss +:+ "Z".

(** The [Z] that ends the whole-second text becomes [.mmmZ]. *)
Definition rfc3339_of_ms (ms : Z) : string :=
  let s := iso8601 ms in
  String.substring 0 (String.length s - 1) s +:+ "." +:+ dec0 3 (floorMod ms 1000) +:+ "Z".
Definition rfc3339Ms (unixSec : double) : string :=
  rfc3339_of_ms (dllround (unixSec * 1000)%D).

Definition hostNowFields (hostMs : Z) : TimeFields :=
  let secs := floorDiv hostMs 1000 in
  let days := floorDiv secs 86400 in
  let rem := floorMod secs 86400 in
  let '(y, mo, d) := civilFromDays days in
  {| tf_minute := cmod (cdiv rem 60) 60;
     tf_hour := cdiv rem 3600;
     tf_doy := i32 (days - daysFromCivil y 1 1) + 1;
     tf_year2 := cmod y 100 |}.

Definition isLastDayOfMonth (ms : Z) : bool :=
  let days := floorDiv (floorDiv ms 1000) 86400 in
  let '(_, m1, _) := civilFromDays days in
  let '(_, m2, _) := civilFromDays (days + 1) in
  negb (m1 =? m2).

(** ** The calendar the algorithms are checked against *)

Definition leapYear (y : Z) : bool :=
  (y mod 4 =? 0) && (negb (y mod 100 =? 0) || (y mod 400 =? 0)).

Definition daysInMonth (y m : Z) : Z :=
  if m =? 2 then (if leapYear y then 29 else 28)
  else if (m =? 4) || (m =? 6) || (m =? 9) || (m =? 11) then 30 else 31.

Definition validDate (y m d : Z) : Prop := 1 <= m <= 12 /\ 1 <= d <= daysInMonth y m.

(** The day after a date. *)
Definition nextDate (p : Z * Z * Z) : Z * Z * Z :=
  let '(y, m, d) := p in
  if d <? daysInMonth y m then (y, m, d + 1)
  else if m <? 12 then (y, m + 1, 1) else (y + 1, 1, 1).

(** The dates the [int] year can hold with room for the algorithm's own sums. *)
Definition yearRange (y : Z) : Prop := -1900000000 <= y <= 1900000000.
Definition dayRange (z : Z) : Prop := -700000000000 <= z <= 700000000000.

(** ** Lemmas *)

Lemma floorDiv_div a b : b <> 0 -> floorDiv a b = a / b.
Proof.
  intros Hb. unfold floorDiv, cdiv, cmod.
  assert (Q := Z.quot_rem' a b).
  destruct (Z.eqb_spec (Z.rem a b) 0) as [E|E]; cbn [negb andb].
  - apply Z.div_unique_exact; lia.
  - destruct (Z.ltb_spec a 0), (Z.ltb_spec b 0); cbn [Bool.eqb negb].
    + pose proof (Z.rem_bound_neg_neg a b). apply Z.div_unique_neg with (Z.rem a b); lia.
    + pose proof (Z.rem_bound_pos_neg a b). apply Z.div_unique_pos with (Z.rem a b + b); lia.
    + pose proof (Z.rem_bound_neg_pos a b). apply Z.div_unique_neg with (Z.rem a b + b); lia.
    + pose proof (Z.rem_bound_pos_pos a b). apply Z.div_unique_pos with (Z.rem a b); lia.
Qed.

Lemma floorMod_mod a b : b <> 0 -> floorMod a b = a mod b.
Proof. intros. unfold floorMod. rewrite floorDiv_div, Z.mod_eq by lia. lia. Qed.

(** The year-and-month part of [daysFromCivil], with no truncation left: the
    era is a floor, and the day of the era is a plain sum. *)
Lemma era_floor y k : 0 < k -> cdiv (if 0 <=? y then y else y - (k - 1)) k = y / k.
Proof.
  intros Hk. unfold cdiv. destruct (Z.leb_spec 0 y).
  - apply Z.quot_div_nonneg; lia.
  - rewrite <- (Z.opp_involutive (y - (k - 1))), Z.quot_opp_l, Z.quot_div_nonneg by lia.
    Z.to_euclidean_division_equations. nia.
Qed.

Definition monthDays (m : Z) : Z := (153 * (m + (if 2 <? m then -3 else 9)) + 2) / 5.
Definition dayOfEra (yoe m d : Z) : Z :=
  yoe * 365 + yoe / 4 - yoe / 100 + (monthDays m + d - 1).

Lemma daysFromCivil_plain y m d :
  1 <= m <= 12 -> 1 <= d <= 31 ->
  daysFromCivil y m d =
  let y' := y - Z.b2z (m <=? 2) in
  y' / 400 * 146097 + dayOfEra (y' mod 400) m d - 719468.
Proof.
  intros Hm Hd. unfold daysFromCivil. cbn zeta.
  set (y' := y - Z.b2z (m <=? 2)).
  change (y' - 399) with (y' - (400 - 1)). rewrite era_floor by lia.
  replace (y' - y' / 400 * 400) with (y' mod 400) by (rewrite Z.mod_eq; lia).
  pose proof (Z.mod_pos_bound y' 400 ltac:(lia)) as Hy.
  rewrite (u32_small (y' mod 400)) by lia.
  assert (Hmm : u32 (m + (if 2 <? m then u32 (-3) else 9)) = m + (if 2 <? m then -3 else 9)).
  { destruct (Z.ltb_spec 2 m).
    - unfold u32. rewrite Zplus_mod_idemp_r. apply Z.mod_small. lia.
    - apply u32_small. lia. }
  rewrite Hmm. unfold dayOfEra, monthDays.
  set (mm := m + (if 2 <? m then -3 else 9)) in *.
  assert (0 <= mm <= 11) by (unfold mm; destruct (Z.ltb_spec 2 m); lia).
  rewrite (u32_small (153 * mm + 2)) by lia.
  rewrite (u32_small ((153 * mm + 2) / 5 + d - 1)) by dlia.
  rewrite u32_small by dlia. reflexivity.
Qed.

(** Where year [yoe] of the era starts, counting from 1 March, and how long it
    is: 366 days when the 29th of February that ends it exists. *)
Definition yearStart (yoe : Z) : Z := yoe * 365 + yoe / 4 - yoe / 100.
Definition marchYearLen (yoe : Z) : Z :=
  yearStart (yoe + 1) - yearStart yoe + (if yoe =? 399 then 1 else 0).

Definition yoeOfDoe (doe : Z) : Z := (doe - doe / 1460 + doe / 36524 - doe / 146096) / 365.

Lemma yoeOfDoe_lower doe :
  0 <= doe < 146097 -> 0 <= yoeOfDoe doe <= 399 /\ yearStart (yoeOfDoe doe) <= doe.
Proof. intros H. unfold yearStart, yoeOfDoe. dlia. Qed.

Lemma yoeOfDoe_upper doe :
  0 <= doe < 146097 ->
  doe < yearStart (yoeOfDoe doe) + marchYearLen (yoeOfDoe doe).
Proof.
  intros H. unfold marchYearLen, yearStart.
  destruct (Z.eqb_spec (yoeOfDoe doe) 399); unfold yoeOfDoe in *; dlia.
Qed.

(** The year of the era is determined by lying in it. *)
Lemma yoe_unique a b doe :
  0 <= a < 400 -> 0 <= b < 400 ->
  yearStart a <= doe < yearStart a + marchYearLen a ->
  yearStart b <= doe < yearStart b + marchYearLen b -> a = b.
Proof.
  unfold marchYearLen, yearStart. intros.
  destruct (Z.eqb_spec a 399), (Z.eqb_spec b 399); dlia.
Qed.

Lemma marchYearLen_range yoe : 0 <= yoe < 400 -> 365 <= marchYearLen yoe <= 366.
Proof. unfold marchYearLen, yearStart. intros. destruct (Z.eqb_spec yoe 399); dlia. Qed.

(** The length of the March-based year is decided by the February that ends it. *)
Lemma marchYearLen_leap y : marchYearLen (y mod 400) = 365 + Z.b2z (leapYear (y + 1)).
Proof.
  unfold leapYear, marchYearLen, yearStart.
  destruct (Z.eqb_spec (y mod 400) 399), (Z.eqb_spec ((y + 1) mod 4) 0),
    (Z.eqb_spec ((y + 1) mod 100) 0), (Z.eqb_spec ((y + 1) mod 400) 0);
    cbn [andb orb negb Z.b2z]; dlia.
Qed.

(** Month and day from the day of the March-based year. *)
Definition monthOfDoy (doy : Z) : Z :=
  let mp := (5 * doy + 2) / 153 in mp + (if mp <? 10 then 3 else -9).
Definition dayOfDoy (doy : Z) : Z := doy - (153 * ((5 * doy + 2) / 153) + 2) / 5 + 1.

Lemma monthOfDoy_range doy : 0 <= doy <= 365 -> 1 <= monthOfDoy doy <= 12.
Proof. intros H. unfold monthOfDoy. cbn zeta. zif; zbool; dlia. Qed.

Lemma civilFromDays_plain z :
  dayRange z ->
  let z' := z + 719468 in
  let yoe := yoeOfDoe (z' mod 146097) in
  let doy := z' mod 146097 - yearStart yoe in
  civilFromDays z =
  (z' / 146097 * 400 + yoe + Z.b2z (monthOfDoy doy <=? 2), monthOfDoy doy, dayOfDoy doy)
  /\ 0 <= yoe < 400 /\ 0 <= doy < marchYearLen yoe.
Proof.
  intros Hz z' yoe doy.
  pose proof (Z.mod_pos_bound z' 146097 ltac:(lia)) as Hd.
  pose proof (yoeOfDoe_lower _ Hd) as [Hy Hl]. pose proof (yoeOfDoe_upper _ Hd) as Hu.
  fold yoe in Hy, Hl, Hu.
  pose proof (marchYearLen_range yoe ltac:(lia)) as Hlen.
  assert (Hdoy : 0 <= doy <= 365) by (unfold doy; lia).
  split; [|unfold doy; lia]. unfold civilFromDays. fold z'. cbn zeta.
  change (z' - 146096) with (z' - (146097 - 1)). rewrite era_floor by lia.
  replace (z' - z' / 146097 * 146097) with (z' mod 146097) by (rewrite Z.mod_eq; lia).
  set (doe := z' mod 146097) in *. rewrite (u32_small doe) by lia.
  rewrite (u32_small (doe - doe / 1460 + _ - _)) by dlia. fold (yoeOfDoe doe). fold yoe.
  replace (doe - (365 * yoe + yoe / 4 - yoe / 100)) with doy by (unfold doy, yearStart; lia).
  rewrite (u32_small doy), (u32_small (5 * doy + 2)) by lia.
  assert (Hmp : 0 <= (5 * doy + 2) / 153 <= 11) by dlia.
  rewrite (u32_small (153 * _ + 2)) by lia.
  fold (dayOfDoy doy). rewrite (u32_small (dayOfDoy doy)) by (unfold dayOfDoy; dlia).
  assert (Hm : u32 ((5 * doy + 2) / 153 + (if (5 * doy + 2) / 153 <? 10 then 3 else u32 (-9)))
               = monthOfDoy doy).
  { unfold monthOfDoy. cbn zeta. destruct (Z.ltb_spec ((5 * doy + 2) / 153) 10).
    - apply u32_small. lia.
    - unfold u32. rewrite Zplus_mod_idemp_r. apply Z.mod_small. lia. }
  rewrite Hm, i32_small; [f_equal; f_equal; lia|].
  unfold dayRange in Hz. destruct (monthOfDoy doy <=? 2); cbn [Z.b2z]; dlia.
Qed.

(** [monthOfDoy] and [dayOfDoy] invert [monthDays m + d - 1]. *)
Lemma doy_of_monthday doy :
  0 <= doy <= 365 -> monthDays (monthOfDoy doy) + dayOfDoy doy - 1 = doy.
Proof.
  intros H. unfold monthDays, dayOfDoy, monthOfDoy. cbn zeta.
  destruct (Z.ltb_spec ((5 * doy + 2) / 153) 10).
  - replace (2 <? (5 * doy + 2) / 153 + 3) with true by (symmetry; apply Z.ltb_lt; dlia). dlia.
  - replace (2 <? (5 * doy + 2) / 153 + -9) with false by (symmetry; apply Z.ltb_ge; dlia). dlia.
Qed.

Lemma monthday_of_doy y m d :
  validDate y m d ->
  monthOfDoy (monthDays m + d - 1) = m /\ dayOfDoy (monthDays m + d - 1) = d.
Proof.
  intros [Hm Hd]. unfold daysInMonth in Hd.
  assert (C : m = 1 \/ m = 2 \/ m = 3 \/ m = 4 \/ m = 5 \/ m = 6 \/ m = 7 \/ m = 8 \/ m = 9
              \/ m = 10 \/ m = 11 \/ m = 12) by lia.
  unfold monthOfDoy, dayOfDoy, monthDays. cbn zeta.
  destruct C as [->|[->|[->|[->|[->|[->|[->|[->|[->|[->|[->| ->]]]]]]]]]]];
    cbn [Z.eqb Pos.eqb orb] in Hd; try (destruct (leapYear y)); cbn [Z.ltb Z.compare Pos.compare Pos.compare_cont];
    split; zif; zbool; dlia.
Qed.

(** The day of the March-based year of a valid date lies inside that year. *)
Lemma doy_in_year y m d :
  validDate y m d ->
  0 <= monthDays m + d - 1 < marchYearLen ((y - Z.b2z (m <=? 2)) mod 400).
Proof.
  intros [Hm Hd]. rewrite marchYearLen_leap. unfold daysInMonth in Hd.
  assert (C : m = 1 \/ m = 2 \/ m = 3 \/ m = 4 \/ m = 5 \/ m = 6 \/ m = 7 \/ m = 8 \/ m = 9
              \/ m = 10 \/ m = 11 \/ m = 12) by lia.
  unfold monthDays.
  destruct C as [->|[->|[->|[->|[->|[->|[->|[->|[->|[->|[->| ->]]]]]]]]]]];
    cbn [Z.eqb Pos.eqb orb Z.leb Z.compare Pos.compare Pos.compare_cont Z.b2z Z.ltb] in *;
    try (replace (y - 1 + 1) with y by lia); destruct (leapYear _); cbn [Z.b2z] in *; dlia.
Qed.

Lemma dayOfEra_bounds y m d :
  validDate y m d ->
  0 <= dayOfEra ((y - Z.b2z (m <=? 2)) mod 400) m d < 146097.
Proof.
  intros V. pose proof (doy_in_year _ _ _ V) as D.
  set (yoe := (y - Z.b2z (m <=? 2)) mod 400) in *.
  assert (0 <= yoe < 400) by (apply Z.mod_pos_bound; lia).
  unfold dayOfEra. unfold marchYearLen, yearStart in D.
  destruct (Z.eqb_spec yoe 399); dlia.
Qed.

Lemma daysInMonth_range y m : 28 <= daysInMonth y m <= 31.
Proof. unfold daysInMonth. zif; lia. Qed.

Lemma validDate_day y m d : validDate y m d -> 1 <= m <= 12 /\ 1 <= d <= 31.
Proof. intros [Hm Hd]. pose proof (daysInMonth_range y m). lia. Qed.

Lemma days_dayRange y m d : yearRange y -> validDate y m d -> dayRange (daysFromCivil y m d).
Proof.
  intros Hy V. pose proof (validDate_day _ _ _ V) as [Hm Hd]. unfold yearRange, dayRange in *.
  rewrite daysFromCivil_plain by lia. cbn zeta.
  pose proof (dayOfEra_bounds _ _ _ V).
  destruct (m <=? 2); cbn [Z.b2z] in *; dlia.
Qed.

(** [civilFromDays] undoes [daysFromCivil] on every real date. *)
Lemma civil_of_days y m d :
  yearRange y -> validDate y m d -> civilFromDays (daysFromCivil y m d) = (y, m, d).
Proof.
  intros Hy V. pose proof (days_dayRange _ _ _ Hy V) as R.
  pose proof (validDate_day _ _ _ V) as [Hm Hd].
  destruct (civilFromDays_plain _ R) as (-> & Hyoe & Hdoy).
  rewrite daysFromCivil_plain in * by lia. cbn zeta in *.
  set (Y := y - Z.b2z (m <=? 2)) in *.
  pose proof (dayOfEra_bounds _ _ _ V) as DE. fold Y in DE.
  pose proof (doy_in_year _ _ _ V) as DY. fold Y in DY.
  pose proof (Z.mod_pos_bound Y 400 ltac:(lia)) as HY.
  rewrite Z.sub_add in *.
  set (doe := dayOfEra (Y mod 400) m d) in *.
  assert (EM : (Y / 400 * 146097 + doe) mod 146097 = doe) by dlia.
  assert (ED : (Y / 400 * 146097 + doe) / 146097 = Y / 400) by dlia.
  rewrite EM, ED in *.
  assert (E : yoeOfDoe doe = Y mod 400).
  { apply (yoe_unique _ _ doe); try lia.
    unfold doe, dayOfEra. unfold yearStart. lia. }
  rewrite E. replace (doe - yearStart (Y mod 400)) with (monthDays m + d - 1)
    by (unfold doe, dayOfEra, yearStart; lia).
  destruct (monthday_of_doy _ _ _ V) as [-> ->].
  f_equal; f_equal. unfold Y. pose proof (Z.div_mod (y - Z.b2z (m <=? 2)) 400). lia.
Qed.

(** Month and day of a day of the March-based year [y] are a real date. *)
Lemma dayOfDoy_valid y doy :
  0 <= doy < 365 + Z.b2z (leapYear (y + 1)) ->
  validDate (y + Z.b2z (monthOfDoy doy <=? 2)) (monthOfDoy doy) (dayOfDoy doy).
Proof.
  intros H. assert (H' : 0 <= doy <= 365) by (destruct (leapYear (y + 1)); cbn in H; lia).
  split; [by apply monthOfDoy_range|].
  assert (Hm := monthOfDoy_range doy H').
  assert (Hd : monthOfDoy doy = 2 -> dayOfDoy doy <= 28 + Z.b2z (leapYear (y + 1))).
  { intros Hm2. unfold monthOfDoy, dayOfDoy in *. cbn zeta in *.
    destruct (Z.ltb_spec ((5 * doy + 2) / 153) 10); dlia. }
  assert (H30 : monthOfDoy doy = 4 \/ monthOfDoy doy = 6 \/ monthOfDoy doy = 9 \/ monthOfDoy doy = 11
                -> dayOfDoy doy <= 30).
  { intros Hm2. unfold monthOfDoy, dayOfDoy in *. cbn zeta in *.
    destruct (Z.ltb_spec ((5 * doy + 2) / 153) 10); dlia. }
  assert (H31 : 1 <= dayOfDoy doy <= 31) by (unfold dayOfDoy; dlia).
  unfold daysInMonth. destruct (Z.eqb_spec (monthOfDoy doy) 2) as [E|E].
  - rewrite E in *. change (2 <=? 2) with true. cbn [Z.b2z].
    specialize (Hd eq_refl). destruct (leapYear (y + 1)); cbn [Z.b2z] in Hd; lia.
  - destruct (_ || _)%bool eqn:E0; [|lia]. rewrite !orb_true_iff, !Z.eqb_eq in E0. lia.
Qed.

(** Every day number names a real date, and [daysFromCivil] undoes it. *)
Lemma days_of_civil z :
  dayRange z ->
  let '(y, m, d) := civilFromDays z in validDate y m d /\ daysFromCivil y m d = z.
Proof.
  intros R. destruct (civilFromDays_plain _ R) as (-> & Hyoe & Hdoy).
  set (z' := z + 719468) in *. set (yoe := yoeOfDoe (z' mod 146097)) in *.
  set (doy := z' mod 146097 - yearStart yoe) in *.
  pose proof (marchYearLen_range yoe Hyoe) as ML.
  pose proof (monthOfDoy_range doy ltac:(lia)) as HM.
  set (m := monthOfDoy doy) in *. set (Y := z' / 146097 * 400 + yoe) in *.
  assert (HY : Y mod 400 = yoe) by (unfold Y; rewrite Z.add_comm, Z_mod_plus_full; apply Z.mod_small; lia).
  assert (HYd : Y / 400 = z' / 146097) by (unfold Y; rewrite Z.add_comm, Z.div_add, Z.div_small by lia; lia).
  assert (ML' := marchYearLen_leap Y). rewrite HY in ML'.
  assert (Hd31 : 1 <= dayOfDoy doy <= 31) by (unfold dayOfDoy; dlia).
  split.
  - apply dayOfDoy_valid. lia.
  - rewrite daysFromCivil_plain by lia. cbn zeta.
    replace (Y + Z.b2z (m <=? 2) - Z.b2z (m <=? 2)) with Y by lia.
    rewrite HY, HYd. unfold dayOfEra. pose proof (doy_of_monthday doy ltac:(lia)) as DM.
    fold m in DM. assert (ED : doy = z' mod 146097 - yearStart yoe) by reflexivity.
    unfold yearStart in ED. pose proof (Z.div_mod z' 146097 ltac:(lia)).
    assert (EZ : z' = z + 719468) by reflexivity. lia.
Qed.

Lemma nextDate_valid y m d : validDate y m d -> let '(y', m', d') := nextDate (y, m, d) in validDate y' m' d'.
Proof.
  intros [Hm Hd]. unfold nextDate, validDate.
  destruct (Z.ltb_spec d (daysInMonth y m)); [split; lia|].
  destruct (Z.ltb_spec m 12); (split; [lia|]); pose proof (daysInMonth_range y (m + 1)); pose proof (daysInMonth_range (y + 1) 1); lia.
Qed.

(** Months follow each other inside the March-based year. *)
Lemma monthDays_next y m :
  1 <= m <= 11 -> m <> 2 -> monthDays (m + 1) = monthDays m + daysInMonth y m.
Proof.
  intros Hm H2. unfold daysInMonth. rewrite (proj2 (Z.eqb_neq m 2) H2).
  assert (C : m = 1 \/ m = 3 \/ m = 4 \/ m = 5 \/ m = 6 \/ m = 7 \/ m = 8 \/ m = 9
              \/ m = 10 \/ m = 11) by lia.
  destruct C as [->|[->|[->|[->|[->|[->|[->|[->|[->| ->]]]]]]]]]; reflexivity.
Qed.

(** The day number of the next date is the next day number. *)
Lemma days_nextDate y m d :
  validDate y m d ->
  let '(y', m', d') := nextDate (y, m, d) in daysFromCivil y' m' d' = daysFromCivil y m d + 1.
Proof.
  intros V. pose proof (validDate_day _ _ _ V) as [Hm Hd].
  pose proof (nextDate_valid _ _ _ V) as V'. pose proof V as [_ Hdm]. unfold nextDate in *.
  destruct (Z.ltb_spec d (daysInMonth y m)) as [E|E].
  - apply validDate_day in V'. rewrite !daysFromCivil_plain by lia.
    cbn zeta. unfold dayOfEra. lia.
  - assert (Ed : d = daysInMonth y m) by lia. destruct (Z.ltb_spec m 12) as [Lt|Ge].
    + rewrite !daysFromCivil_plain by lia. cbn zeta.
      destruct (Z.eq_dec m 2) as [->|N].
      * assert (L := marchYearLen_leap (y - 1)). replace (y - 1 + 1) with y in L by lia.
        unfold marchYearLen, yearStart in L. rewrite Ed.
        unfold dayOfEra. change (monthDays (2 + 1)) with 0. change (monthDays 2) with 337.
        change (2 + 1 <=? 2) with false. change (2 <=? 2) with true.
        change (daysInMonth y 2) with (if leapYear y then 29 else 28).
        destruct (leapYear y), (Z.eqb_spec ((y - 1) mod 400) 399); cbn [Z.b2z] in *; dlia.
      * pose proof (monthDays_next y m ltac:(lia) N) as MN.
        replace (m + 1 <=? 2) with (m <=? 2) by (destruct (Z.leb_spec m 2), (Z.leb_spec (m + 1) 2); lia).
        unfold dayOfEra. lia.
    + assert (m = 12) as -> by lia. rewrite !daysFromCivil_plain by lia. cbn zeta.
      change (12 <=? 2) with false. change (1 <=? 2) with true. cbn [Z.b2z].
      replace (y + 1 - 1) with (y - 0) by lia. unfold dayOfEra.
      change (monthDays 1) with 306. change (monthDays 12) with 275.
      change (daysInMonth y 12) with 31 in Ed. lia.
Qed.

(** [daysFromCivil] is injective on dates and [civilFromDays] steps to the next
    date with the day number. *)
Lemma civil_next z :
  dayRange z -> dayRange (z + 1) ->
  let '(y, _, _) := civilFromDays z in yearRange y -> yearRange (y + 1) ->
  civilFromDays (z + 1) = nextDate (civilFromDays z).
Proof.
  intros R R'. pose proof (days_of_civil z R) as D.
  destruct (civilFromDays z) as [[y m] d] eqn:E. destruct D as [V Dz].
  pose proof (days_nextDate y m d V) as N. pose proof (nextDate_valid y m d V) as V'.
  intros Y Y'. destruct (nextDate (y, m, d)) as [[y' m'] d'] eqn:EN.
  rewrite <- Dz, <- N. apply civil_of_days; [|done].
  unfold nextDate in EN. repeat case_match; simplify_eq; done.
Qed.

(** The day on which an instant falls. *)
Lemma day_of_ms ms : floorDiv (floorDiv ms 1000) 86400 = ms / 86400000.
Proof. rewrite !floorDiv_div by lia. rewrite Z.div_div by lia. done. Qed.

Lemma civil_year_2000 y : 0 <= y <= 99 -> daysFromCivil (2000 + y) 1 1 + yearLen y = daysFromCivil (2000 + y + 1) 1 1.
Proof.
  intros H. rewrite !daysFromCivil_plain by lia. cbn zeta.
  change (1 <=? 2) with true. cbn [Z.b2z]. unfold dayOfEra. change (monthDays 1) with 306.
  unfold yearLen. rewrite isLeapYear2_20xx by lia. destruct (Z.eqb_spec (y mod 4) 0); dlia.
Qed.

(** Day [doy] of 20[y], as a date: the year is right and January 1st is [doy - 1]
    days before it. *)
Lemma civil_of_doy y doy :
  0 <= y <= 99 -> 1 <= doy <= yearLen y ->
  exists m d, civilFromDays (daysFromCivil (2000 + y) 1 1 + (doy - 1)) = (2000 + y, m, d).
Proof.
  intros Hy Hd. set (z := daysFromCivil (2000 + y) 1 1 + (doy - 1)).
  assert (B : daysFromCivil (2000 + y) 1 1 <= z < daysFromCivil (2000 + y + 1) 1 1).
  { rewrite <- civil_year_2000 by lia. unfold z. lia. }
  assert (R : dayRange z).
  { rewrite !daysFromCivil_plain in B by lia. cbn zeta in B. change (1 <=? 2) with true in B.
    cbn [Z.b2z] in B. unfold dayOfEra in B. change (monthDays 1) with 306 in B.
    unfold dayRange. dlia. }
  pose proof (days_of_civil z R) as D. destruct (civilFromDays z) as [[y' m] d].
  destruct D as [V E]. exists m, d. f_equal; f_equal.
  pose proof (validDate_day _ _ _ V) as [Hm Hd'].
  pose proof (doy_in_year _ _ _ V) as DY. rewrite marchYearLen_leap in DY.
  assert (MD : (m <= 2 -> 306 <= monthDays m) /\ (2 < m -> monthDays m + d - 1 < 306)).
  { destruct V as [_ Vd]. unfold daysInMonth in Vd.
    assert (C : m = 1 \/ m = 2 \/ m = 3 \/ m = 4 \/ m = 5 \/ m = 6 \/ m = 7 \/ m = 8 \/ m = 9
              \/ m = 10 \/ m = 11 \/ m = 12) by lia.
    destruct C as [->|[->|[->|[->|[->|[->|[->|[->|[->|[->|[->| ->]]]]]]]]]]]; cbn in Vd;
      (split; intros ?; [try lia; vm_compute; discriminate
                        |try lia; unfold monthDays; cbn; dlia]). }
  rewrite <- E, !daysFromCivil_plain in B by lia. cbn zeta in B. change (1 <=? 2) with true in B.
  cbn [Z.b2z] in B. unfold dayOfEra in B. change (monthDays 1) with 306 in B.
  set (md := monthDays m) in *. clearbody md. clear - B MD DY Hy Hm Hd'.
  destruct (Z.leb_spec m 2); cbn [Z.b2z] in *; destruct (leapYear _); cbn [Z.b2z] in *; dlia.
Qed.

Lemma hostNow_utcMs (t : TimeFields) (within : Z) :
  rangeValid t = true -> 0 <= within < 60000 ->
  hostNowFields (utcMsFromFields (tf_year2 t) (tf_doy t) (tf_hour t) (tf_minute t) + within) = t.
Proof.
  intros V Hw. apply rangeValid_spec in V as (Hm & Hh & Hd & Hy).
  destruct t as [mi hh doy y]. cbn [tf_minute tf_hour tf_doy tf_year2] in *.
  unfold utcMsFromFields, hostNowFields. set (days := daysFromCivil (2000 + y) 1 1 + (doy - 1)).
  set (ms := (days * 86400 + hh * 3600 + mi * 60) * 1000 + within).
  rewrite day_of_ms, floorMod_mod, floorDiv_div by lia.
  assert (E1 : ms / 86400000 = days) by (unfold ms; dlia).
  assert (E2 : (ms / 1000) mod 86400 = hh * 3600 + mi * 60 + within / 1000) by (unfold ms; dlia).
  rewrite E1, E2. destruct (civil_of_doy y doy Hy Hd) as (mo & d & EC). fold days in EC.
  rewrite EC. unfold cdiv, cmod.
  rewrite !Z.quot_div_nonneg, !Z.rem_mod_nonneg by dlia.
  assert (ED : days - daysFromCivil (2000 + y) 1 1 = doy - 1) by (unfold days; lia).
  rewrite ED. pose proof (yearLen_range y). rewrite i32_small by lia.
  f_equal; dlia.
Qed.

(** ** Properties *)

(** The two calendar conversions are inverse: every real date comes back
    from its day number, and every day number names a real date that goes back
    to it, over a span of 1.9 billion years each side of the epoch. *)
Lemma civil_days_bijection (z y m d : Z) :
  dayRange z -> yearRange y -> validDate y m d ->
  civilFromDays (daysFromCivil y m d) = (y, m, d) /\
  let '(y', m', d') := civilFromDays z in validDate y' m' d' /\ daysFromCivil y' m' d' = z.
Proof. intros. split; [by apply civil_of_days | by apply days_of_civil]. Qed.

Lemma civil_days_bijection_witness :
  civilFromDays (daysFromCivil 2024 2 29) = (2024, 2, 29) /\
  let '(y', m', d') := civilFromDays (-1) in validDate y' m' d' /\ daysFromCivil y' m' d' = -1.
Proof.
  apply (civil_days_bijection (-1) 2024 2 29);
    [unfold dayRange; lia | unfold yearRange; lia | vm_compute; repeat split; discriminate].
Defined.

(** The day numbers count days: 1970-01-01 is day 0 and the date of the
    next day number is the next date of the proleptic Gregorian calendar, leap
    years and century rule included. *)
Theorem civil_counts_days (z : Z) :
  -600000000000 <= z <= 600000000000 ->
  civilFromDays 0 = (1970, 1, 1) /\ civilFromDays (z + 1) = nextDate (civilFromDays z).
Proof.
  intros H. split; [reflexivity|].
  pose proof (civil_next z) as N. pose proof (days_of_civil z) as D.
  unfold dayRange in *. specialize (D ltac:(lia)). specialize (N ltac:(lia) ltac:(lia)).
  destruct (civilFromDays z) as [[y m] d]. destruct D as [V <-].
  pose proof (validDate_day _ _ _ V) as [Hm Hd]. pose proof (dayOfEra_bounds _ _ _ V) as DE.
  rewrite daysFromCivil_plain in H by lia. cbn zeta in H.
  apply N; unfold yearRange; destruct (m <=? 2); cbn [Z.b2z] in *; dlia.
Qed.

(** The leap-second window: [isLastDayOfMonth] holds exactly on the instants
    whose UTC date is the last of its month. *)
Theorem isLastDayOfMonth_spec (ms : Z) :
  -51840000000000000000 <= ms <= 51840000000000000000 ->
  let '(y, m, d) := civilFromDays (ms / 86400000) in
  isLastDayOfMonth ms = (d =? daysInMonth y m).
Proof.
  intros H. unfold isLastDayOfMonth. rewrite day_of_ms.
  assert (Hz : -600000000000 <= ms / 86400000 <= 600000000000) by dlia.
  set (z := ms / 86400000) in *. clearbody z. clear H ms.
  pose proof (days_of_civil z) as D. pose proof (days_of_civil (z + 1)) as D'.
  pose proof (civil_next z) as N. unfold dayRange in *.
  specialize (D ltac:(lia)). specialize (N ltac:(lia) ltac:(lia)).
  destruct (civilFromDays z) as [[y m] d]. destruct D as [V E].
  pose proof (validDate_day _ _ _ V) as [Hm Hd]. pose proof (dayOfEra_bounds _ _ _ V) as DE.
  rewrite daysFromCivil_plain in E by lia. cbn zeta in E.
  rewrite N by (unfold yearRange; destruct (m <=? 2); cbn [Z.b2z] in *; dlia).
  unfold nextDate. destruct V as [_ Vd].
  destruct (Z.ltb_spec d (daysInMonth y m)), (Z.eqb_spec d (daysInMonth y m));
    rewrite ?Z.eqb_refl; try done; try lia.
  - destruct (Z.ltb_spec m 12); apply negb_true_iff, Z.eqb_neq; lia.
Qed.

