(* ===== verification/IpPrefix.v ===== *)
(** * Addresses and prefixes (src/IpPrefix.h)
    An address is sixteen bytes and a family, a prefix an address cut to a
    length. [inet_pton] and [inet_ntop] are the C library's: they are the
    operations of the class [Inet], whose laws [InetLaws] state what POSIX says
    of them and the reading of the literals the source parses. *)

From Stdlib Require Import ZArith Lia List Bool Ascii String.
From stdpp Require Import base list strings.
From S2P Require Import Prelude Doubles Text.

#[local] Open Scope string_scope.
#[local] Open Scope Z_scope.

(** [AF_INET], [AF_INET6], and the 0 of anything else. *)
Inductive Family := FamNone | FamInet | FamInet6.
#[export] Instance Family_eq_dec : EqDecision Family.
Proof. solve_decision. Defined.
Definition fam_eqb (a b : Family) : bool := bool_decide (a = b).

Record IpAddr := MkAddr { family : Family; bytes : list Z }.
#[export] Instance IpAddr_eq_dec : EqDecision IpAddr.
Proof. solve_decision. Defined.

Definition noAddr : IpAddr := MkAddr FamNone (repeat 0 16).
Definition bits (a : IpAddr) : Z := match family a with FamInet => 32 | _ => 128 end.

(** What a [sockaddr_storage] holds: an IPv4 address, an IPv6 one, or some other
    family. *)
Inductive SockAddr := SaInet (b : list Z) | SaInet6 (b : list Z) | SaOther.

(** [std::memcpy] of a short address into the zeroed sixteen bytes. *)
Definition pad16 (b : list Z) : list Z := take 16 (b ++ repeat 0 16).

(** [IN6_IS_ADDR_V4MAPPED]: ::ffff:a.b.c.d *)
Definition v4mapped (b : list Z) : bool :=
  bool_decide (take 12 b = [0;0;0;0;0;0;0;0;0;0;255;255]).

Definition ipAddrOf (sa : SockAddr) : IpAddr :=
  match sa with
  | SaInet b => MkAddr FamInet (pad16 (take 4 b))
  | SaInet6 b =>
      if v4mapped b then MkAddr FamInet (pad16 (take 4 (drop 12 b)))
      else MkAddr FamInet6 (take 16 b)
  | SaOther => noAddr
  end.

(** The mask of byte [i] under a prefix of [len] bits. *)
Definition maskByte (len i : Z) : Z :=
  let keep := len - 8 * i in
  if 8 <=? keep then 255
  else if keep <=? 0 then 0
  else u8 (Z.shiftl 255 (8 - keep)).

Definition masked (a : IpAddr) (len : Z) : IpAddr :=
  MkAddr (family a)
    (imap (fun i b => if 8 <=? len - 8 * Z.of_nat i then b else Z.land b (maskByte len (Z.of_nat i)))
          (bytes a)).

Record IpPrefix := MkPrefix { net : IpAddr; plen : Z }.

Definition contains (p : IpPrefix) (a : IpAddr) : bool :=
  fam_eqb (family a) (family (net p)) && bool_decide (bytes (masked a (plen p)) = bytes (net p)).

(** The C library's text conversions. *)
Class Inet := {
  inet_pton4 : string -> option (list Z);
  inet_pton6 : string -> option (list Z);
  inet_ntop4 : list Z -> string;
  inet_ntop6 : list Z -> string;
}.

Definition isBytes (n : nat) (b : list Z) : Prop :=
  length b = n /\ Forall (fun x => 0 <= x < 256) b.

Class InetLaws `{Inet} := {
  pton4_bytes : forall s b, inet_pton4 s = Some b -> isBytes 4 b;
  pton6_bytes : forall s b, inet_pton6 s = Some b -> isBytes 16 b;
  pton4_10 : inet_pton4 "10.0.0.0" = Some [10;0;0;0];
  pton4_172 : inet_pton4 "172.16.0.0" = Some [172;16;0;0];
  pton4_192 : inet_pton4 "192.168.0.0" = Some [192;168;0;0];
  pton4_127 : inet_pton4 "127.0.0.0" = Some [127;0;0;0];
  pton4_169 : inet_pton4 "169.254.0.0" = Some [169;254;0;0];
  (** None of the IPv6 literals is a dotted quad. *)
  pton4_v6 : inet_pton4 "::1" = None /\ inet_pton4 "fc00::" = None /\ inet_pton4 "fe80::" = None;
  pton6_1 : inet_pton6 "::1" = Some [0;0;0;0;0;0;0;0;0;0;0;0;0;0;0;1];
  pton6_fc00 : inet_pton6 "fc00::" = Some [252;0;0;0;0;0;0;0;0;0;0;0;0;0;0;0];
  pton6_fe80 : inet_pton6 "fe80::" = Some [254;128;0;0;0;0;0;0;0;0;0;0;0;0;0;0];
}.

(** [text.find('/')]: the text before the first slash, and the text after it. *)
Fixpoint splitSlash (s : string) : string * option string :=
  match s with
  | EmptyString => ("", None)
  | String c r =>
      if Ascii.eqb c "/" then ("", Some r)
      else let '(h, t) := splitSlash r in (String c h, t)
  end.

Section Parse.
Context `{Inet}.

(** [None] is the source's [false] with [out] unchanged. *)
Definition parse (text : string) : option IpPrefix :=
  let '(host, rest) := splitSlash text in
  net ← match inet_pton4 host with
        | Some b => Some (MkAddr FamInet (pad16 b))
        | None =>
            match inet_pton6 host with
            | Some b => Some (MkAddr FamInet6 (take 16 b))
            | None => None
            end
        end;
  len ← match rest with
        | None => Some (bits net)
        | Some n =>
            if (String.length n =? 0)%nat || (3 <? String.length n)%nat || negb (all_digits n)
            then None
            else let len := read_dec n 0 in
                 if bits net <? len then None else Some len
        end;
  Some (MkPrefix (masked net len) len).

Definition privateTexts : list string :=
  ["10.0.0.0/8"; "172.16.0.0/12"; "192.168.0.0/16"; "127.0.0.0/8"; "169.254.0.0/16";
   "::1"; "fc00::/7"; "fe80::/10"].

(** A parse that failed leaves the default prefix, whose family matches nothing
    but an address of no family. *)
Definition kPrivate : list IpPrefix :=
  map (fun t => default (MkPrefix noAddr 0) (parse t)) privateTexts.

Definition isPrivate (a : IpAddr) : bool := existsb (fun p => contains p a) kPrivate.

Definition byteAt (a : IpAddr) (i : nat) : Z := nth i (bytes a) 0.

Definition publicLabel (a : IpAddr) : string :=
  match family a with
  | FamInet =>
      if isPrivate a then inet_ntop4 (bytes a)
      else dec (byteAt a 0) +:+ "." +:+ dec (byteAt a 1) +:+ "." +:+ dec (byteAt a 2) +:+ ".x"
  | FamInet6 =>
      if isPrivate a then inet_ntop6 (bytes a)
      else inet_ntop6 (bytes (masked a 64)) +:+ "/64"
  | FamNone => "?"
  end.
End Parse.

(** ** Lemmas *)

(** Bit [j] of an address, the most significant bit of the first byte first. *)
Definition addrBit (b : list Z) (j : Z) : bool :=
  Z.testbit (nth (Z.to_nat (j / 8)) b 0) (7 - j mod 8).

Lemma maskByte_testbit len i k :
  0 <= k < 8 -> Z.testbit (maskByte len i) k = (8 * i + (7 - k) <? len).
Proof.
  intros Hk. unfold maskByte. cbn zeta.
  assert (H255 : Z.testbit 255 k = true).
  { change 255 with (Z.ones 8). apply Z.ones_spec_low. lia. }
  destruct (Z.leb_spec 8 (len - 8 * i)).
  { rewrite H255. symmetry. apply Z.ltb_lt. lia. }
  destruct (Z.leb_spec (len - 8 * i) 0).
  { rewrite Z.bits_0. symmetry. apply Z.ltb_ge. lia. }
  unfold u8. change 256 with (2 ^ 8). rewrite Z.mod_pow2_bits_low, Z.shiftl_spec by lia.
  destruct (Z.ltb_spec (8 * i + (7 - k)) len).
  - change 255 with (Z.ones 8). apply Z.ones_spec_low. lia.
  - apply Z.testbit_neg_r. lia.
Qed.

Lemma masked_bytes_length a len : length (bytes (masked a len)) = length (bytes a).
Proof. unfold masked. cbn [bytes]. by rewrite length_imap. Qed.

Lemma masked_nth a len i :
  (i < length (bytes a))%nat ->
  nth i (bytes (masked a len)) 0 =
  (if 8 <=? len - 8 * Z.of_nat i then nth i (bytes a) 0
   else Z.land (nth i (bytes a) 0) (maskByte len (Z.of_nat i))).
Proof.
  intros H. unfold masked. cbn [bytes].
  apply nth_lookup_Some. rewrite list_lookup_imap.
  destruct (bytes a !! i) eqn:E; [|apply lookup_ge_None in E; lia].
  cbn [fmap option_fmap option_map]. f_equal.
  by rewrite (nth_lookup_Some _ _ 0 _ E).
Qed.

(** The bits of a masked address: the first [len] of the original, then zeros. *)
Lemma masked_addrBit a len j :
  length (bytes a) = 16%nat -> 0 <= j < 128 ->
  addrBit (bytes (masked a len)) j = (j <? len) && addrBit (bytes a) j.
Proof.
  intros L Hj. unfold addrBit.
  assert (Hi : (Z.to_nat (j / 8) < length (bytes a))%nat) by dlia.
  rewrite masked_nth by done. rewrite Z2Nat.id by dlia.
  assert (Hk : 0 <= 7 - j mod 8 < 8) by dlia.
  destruct (Z.leb_spec 8 (len - 8 * (j / 8))).
  - replace (j <? len) with true; [done|]. symmetry. apply Z.ltb_lt. dlia.
  - rewrite Z.land_spec, maskByte_testbit by lia. rewrite andb_comm. f_equal.
    f_equal. dlia.
Qed.

(** Addresses of bytes are determined by their bits. *)
Lemma addrBit_ext b b' :
  isBytes 16 b -> isBytes 16 b' ->
  (forall j, 0 <= j < 128 -> addrBit b j = addrBit b' j) -> b = b'.
Proof.
  intros [L F] [L' F'] E. apply (nth_ext b b' 0 0); [lia|]. intros n Hn.
  apply Z.bits_inj'. intros k Hk.
  assert (R : forall l, length l = 16%nat -> Forall (fun x => 0 <= x < 256) l -> 8 <= k ->
              Z.testbit (nth n l 0) k = false).
  { intros l Ll Fl H8. rewrite List.Forall_forall in Fl.
    assert (0 <= nth n l 0 < 256) by (apply Fl, nth_In; lia).
    apply Z.bits_above_log2; [lia|].
    destruct (Z.eq_dec (nth n l 0) 0) as [->|]; [cbn; lia|].
    apply Z.log2_lt_pow2; [lia|]. apply Z.lt_le_trans with (2 ^ 8); [cbn; lia|].
    apply Z.pow_le_mono_r; lia. }
  destruct (Z_lt_ge_dec k 8).
  - specialize (E (8 * Z.of_nat n + (7 - k)) ltac:(lia)). unfold addrBit in E.
    replace ((8 * Z.of_nat n + (7 - k)) / 8) with (Z.of_nat n) in E by dlia.
    replace (7 - (8 * Z.of_nat n + (7 - k)) mod 8) with k in E by dlia.
    by rewrite Nat2Z.id in E.
  - rewrite !R by (done || lia). done.
Qed.

Lemma land_byte x y : 0 <= x < 256 -> 0 <= Z.land x y < 256.
Proof.
  intros H. split; [apply Z.land_nonneg; lia|].
  change 256 with (2 ^ 8). destruct (Z.eq_dec (Z.land x y) 0) as [->|N]; [lia|].
  assert (0 <= Z.land x y) by (apply Z.land_nonneg; lia).
  apply Z.log2_lt_pow2; [lia|]. rewrite <- (Z.mod_small x (2 ^ 8)) by (cbn; lia).
  rewrite <- Z.land_ones, <- Z.land_assoc, (Z.land_comm (Z.ones 8)), Z.land_assoc, Z.land_ones by lia.
  pose proof (Z.mod_pos_bound (Z.land x y) (2 ^ 8) ltac:(lia)).
  destruct (Z.eq_dec (Z.land x y mod 2 ^ 8) 0) as [->|]; [cbn; lia|].
  apply Z.log2_lt_pow2; lia.
Qed.

Lemma masked_isBytes a len : isBytes 16 (bytes a) -> isBytes 16 (bytes (masked a len)).
Proof.
  intros [L F]. split; [by rewrite masked_bytes_length|].
  rewrite List.Forall_forall in *. intros x Hx.
  apply (In_nth _ _ 0) in Hx as (n & Hn & <-). rewrite masked_bytes_length in Hn.
  rewrite masked_nth by done.
  assert (0 <= nth n (bytes a) 0 < 256) by (apply F, nth_In; lia).
  destruct (_ <=? _); [done|]. by apply land_byte.
Qed.

Lemma pad16_isBytes b : isBytes 4 b -> isBytes 16 (pad16 b).
Proof.
  intros [L F]. destruct b as [|x0 [|x1 [|x2 [|x3 [|]]]]]; try discriminate L.
  split; [done|]. change (pad16 [x0; x1; x2; x3]) with ([x0; x1; x2; x3] ++ repeat 0 12)%list.
  apply Forall_app. split; [done|]. cbn. repeat constructor; lia.
Qed.

Lemma splitSlash_spec s :
  let '(h, t) := splitSlash s in
  s = match t with Some r => h +:+ String "/" r | None => h end.
Proof.
  induction s as [|c s IH]; [done|]. cbn [splitSlash].
  destruct (Ascii.eqb_spec c "/") as [->|]; [done|].
  destruct (splitSlash s) as [h [r|]]; rewrite ?app_str_cons; congruence.
Qed.

Lemma read_dec_bound s acc :
  all_digits s = true -> 0 <= acc ->
  acc * 10 ^ Z.of_nat (String.length s) <= read_dec s acc
    < (acc + 1) * 10 ^ Z.of_nat (String.length s).
Proof.
  revert acc. induction s as [|c s IH]; intros acc H Ha; cbn [read_dec String.length all_digits] in *.
  - change (10 ^ Z.of_nat 0) with 1. lia.
  - apply andb_true_iff in H as [Hc Hs].
    assert (D : 0 <= digit_val c <= 9).
    { unfold isdigit in Hc. apply andb_true_iff in Hc as [H1 H2].
      apply Nat.leb_le in H1, H2. unfold digit_val. lia. }
    specialize (IH (acc * 10 + digit_val c) Hs ltac:(lia)).
    rewrite Nat2Z.inj_succ, Z.pow_succ_r by lia.
    assert (0 < 10 ^ Z.of_nat (String.length s)) by (apply Z.pow_pos_nonneg; lia). nia.
Qed.

(** Well-formed prefixes: the length fits the family and the network is masked. *)
Definition prefixOk (p : IpPrefix) : Prop :=
  family (net p) <> FamNone /\ 0 <= plen p <= bits (net p) /\ isBytes 16 (bytes (net p)) /\ masked (net p) (plen p) = net p.

Lemma masked_idem a l1 l2 :
  isBytes 16 (bytes a) -> masked (masked a l1) l2 = masked a (Z.min l1 l2).
Proof.
  intros B. assert (B1 := masked_isBytes a l1 B). assert (B2 := masked_isBytes _ l2 B1).
  assert (E : bytes (masked (masked a l1) l2) = bytes (masked a (Z.min l1 l2))).
  { apply addrBit_ext; [done|by apply masked_isBytes|]. intros j Hj.
    rewrite !masked_addrBit by (done || apply B || apply B1).
    rewrite andb_assoc. f_equal.
    destruct (Z.ltb_spec j l1), (Z.ltb_spec j l2), (Z.ltb_spec j (Z.min l1 l2)); cbn; lia || done. }
  unfold masked in *. cbn [bytes family] in *. by rewrite E.
Qed.

Lemma contains_bits p a :
  prefixOk p -> isBytes 16 (bytes a) ->
  contains p a = true <->
  family a = family (net p) /\
  forall j, 0 <= j < plen p -> addrBit (bytes a) j = addrBit (bytes (net p)) j.
Proof.
  intros (_ & Hl & Bn & M) Ba. unfold contains, fam_eqb.
  rewrite andb_true_iff, !bool_decide_eq_true. apply and_iff_compat_l.
  assert (H128 : plen p <= 128) by (unfold bits in Hl; destruct (family (net p)); lia).
  split.
  - intros E j Hj. rewrite <- E, masked_addrBit by (apply Ba || lia).
    by rewrite (proj2 (Z.ltb_lt j (plen p)) ltac:(lia)).
  - intros E. apply addrBit_ext; [by apply masked_isBytes|done|]. intros j Hj.
    rewrite masked_addrBit by (apply Ba || lia).
    destruct (Z.ltb_spec j (plen p)); cbn [andb]; [apply E; lia|].
    rewrite <- M, masked_addrBit by (apply Bn || lia).
    by rewrite (proj2 (Z.ltb_ge j (plen p)) ltac:(lia)).
Qed.

Section Laws.
Context `{InetLaws}.

Lemma prefixOk_masked n len :
  family n <> FamNone -> isBytes 16 (bytes n) -> 0 <= len <= bits n ->
  prefixOk (MkPrefix (masked n len) len).
Proof.
  intros F B HL. unfold prefixOk. cbn [net plen]. split; [done|]. split; [done|].
  split; [by apply masked_isBytes|]. rewrite masked_idem by done. by rewrite Z.min_id.
Qed.

Lemma parse_prefixOk text p : parse text = Some p -> prefixOk p.
Proof.
  unfold parse. destruct (splitSlash text) as [host rest]. intros E.
  apply bind_Some in E as (n & EN & E). apply bind_Some in E as (len & EL & E). simplify_eq.
  assert (F : family n <> FamNone /\ isBytes 16 (bytes n)).
  { destruct (inet_pton4 host) as [b|] eqn:E4.
    - simplify_eq. cbn. split; [done|]. eapply pad16_isBytes, pton4_bytes; eauto.
    - destruct (inet_pton6 host) as [b|] eqn:E6; simplify_eq. cbn. split; [done|].
      pose proof (pton6_bytes _ _ E6) as [L ?]. by rewrite take_ge by lia. }
  apply prefixOk_masked; [apply F|apply F|]. destruct rest as [s|].
  - destruct (_ || _ || _)%bool eqn:EC; [done|]. destruct (bits n <? read_dec s 0) eqn:EB; [done|].
    simplify_eq. apply orb_false_iff in EC as [_ D%negb_false_iff].
    pose proof (read_dec_bound s 0 D ltac:(lia)). zbool. lia.
  - simplify_eq. unfold bits. destruct (family n); lia.
Qed.

(** The private prefixes as they are once parsed. *)
Lemma kPrivate_eq :
  kPrivate =
  [MkPrefix (MkAddr FamInet (pad16 [10;0;0;0])) 8;
   MkPrefix (MkAddr FamInet (pad16 [172;16;0;0])) 12;
   MkPrefix (MkAddr FamInet (pad16 [192;168;0;0])) 16;
   MkPrefix (MkAddr FamInet (pad16 [127;0;0;0])) 8;
   MkPrefix (MkAddr FamInet (pad16 [169;254;0;0])) 16;
   MkPrefix (MkAddr FamInet6 [0;0;0;0;0;0;0;0;0;0;0;0;0;0;0;1]) 128;
   MkPrefix (MkAddr FamInet6 [252;0;0;0;0;0;0;0;0;0;0;0;0;0;0;0]) 7;
   MkPrefix (MkAddr FamInet6 [254;128;0;0;0;0;0;0;0;0;0;0;0;0;0;0]) 10].
Proof.
  destruct pton4_v6 as (N1 & N2 & N3).
  unfold kPrivate, privateTexts, parse. cbn [map splitSlash Ascii.eqb Bool.eqb].
  rewrite pton4_10, pton4_172, pton4_192, pton4_127, pton4_169, N1, N2, N3,
    pton6_1, pton6_fc00, pton6_fe80. reflexivity.
Qed.
End Laws.

(** A small stand-in for the C library, for concrete runs: it knows the literals
    the source parses and prints IPv4 as a dotted quad. *)
Definition litTable4 : list (string * list Z) :=
  [("10.0.0.0", [10;0;0;0]); ("172.16.0.0", [172;16;0;0]); ("192.168.0.0", [192;168;0;0]);
   ("127.0.0.0", [127;0;0;0]); ("169.254.0.0", [169;254;0;0]); ("203.0.113.7", [203;0;113;7])].
Definition litTable6 : list (string * list Z) :=
  [("::1", [0;0;0;0;0;0;0;0;0;0;0;0;0;0;0;1]); ("fc00::", [252;0;0;0;0;0;0;0;0;0;0;0;0;0;0;0]);
   ("fe80::", [254;128;0;0;0;0;0;0;0;0;0;0;0;0;0;0])].
Definition litLookup (t : list (string * list Z)) (s : string) : option (list Z) :=
  option_map snd (find (fun kv => String.eqb (fst kv) s) t).

Definition demoInet : Inet := {|
  inet_pton4 := litLookup litTable4;
  inet_pton6 := litLookup litTable6;
  inet_ntop4 b := dec (nth 0 b 0) +:+ "." +:+ dec (nth 1 b 0) +:+ "." +:+ dec (nth 2 b 0)
                  +:+ "." +:+ dec (nth 3 b 0);
  inet_ntop6 b := fold_right (fun x s => dec x +:+ ":" +:+ s) "" b;
|}.

Lemma litLookup_bytes t n s b :
  Forall (fun kv => isBytes n (snd kv)) t -> litLookup t s = Some b -> isBytes n b.
Proof.
  intros F E. unfold litLookup in E. destruct (find _ t) as [[k v]|] eqn:EF; [|done].
  apply find_some in EF as [HIn _]. rewrite List.Forall_forall in F.
  specialize (F _ HIn). cbn in *. by simplify_eq.
Qed.

Lemma demoInet_laws : @InetLaws demoInet.
Proof.
  split; try reflexivity; try (by repeat split).
  - intros s b E. eapply (litLookup_bytes litTable4); [|exact E].
    repeat constructor; cbn; lia.
  - intros s b E. eapply (litLookup_bytes litTable6); [|exact E].
    repeat constructor; cbn; lia.
Qed.

Lemma byte_cases (P : Z -> bool) :
  forallb P (map Z.of_nat (seq 0 256)) = true -> forall b, 0 <= b < 256 -> P b = true.
Proof.
  intros F b Hb. rewrite forallb_forall in F. apply F. apply in_map_iff.
  exists (Z.to_nat b). split; [lia|]. apply in_seq. lia.
Qed.

Lemma land_240_16 b : 0 <= b < 256 -> (Z.land b 240 =? 16) = (16 <=? b) && (b <=? 31).
Proof.
  intros Hb. apply eqb_true_iff.
  by apply (byte_cases (fun b => Bool.eqb (Z.land b 240 =? 16) ((16 <=? b) && (b <=? 31)))).
Qed.

(** The private IPv4 networks, octet by octet. *)
Definition privateV4 (b0 b1 : Z) : bool :=
  (b0 =? 10) || ((b0 =? 172) && ((16 <=? b1) && (b1 <=? 31))) || ((b0 =? 192) && (b1 =? 168))
  || (b0 =? 127) || ((b0 =? 169) && (b1 =? 254)).

(** A prefix inside the first two octets, tested on an IPv4 address. *)
Lemma contains_v4 n0 n1 len b0 b1 b2 b3 :
  0 <= len <= 16 ->
  contains (MkPrefix (MkAddr FamInet (pad16 [n0; n1; 0; 0])) len)
           (MkAddr FamInet (pad16 [b0; b1; b2; b3])) =
  ((if 8 <=? len then b0 else Z.land b0 (maskByte len 0)) =? n0) &&
  ((if 16 <=? len then b1 else Z.land b1 (maskByte len 1)) =? n1).
Proof.
  intros Hl. unfold contains, fam_eqb, masked. cbn [family net plen bytes].
  rewrite bool_decide_eq_true_2 by done. cbn [andb].
  change (pad16 [b0; b1; b2; b3]) with ([b0; b1; b2; b3] ++ repeat 0 12)%list.
  change (pad16 [n0; n1; 0; 0]) with ([n0; n1; 0; 0] ++ repeat 0 12)%list.
  cbn [app repeat imap compose]. cbn.
  assert (M : forall i, 2 <= i -> maskByte len i = 0).
  { intros i Hi. unfold maskByte. cbn zeta. destruct (Z.leb_spec 8 (len - 8 * i)); [lia|].
    destruct (Z.leb_spec (len - 8 * i) 0); lia. }
  repeat match goal with |- context [maskByte len (Z.of_nat ?k)] =>
    rewrite (M (Z.of_nat k)) by lia end.
  change (Z.of_nat 0) with 0. change (Z.of_nat 1) with 1. rewrite Z.mul_0_r, Z.sub_0_r.
  rewrite !Z.land_0_r.
  replace (8 <=? len - 8 * 1) with (16 <=? len)
    by (destruct (Z.leb_spec 16 len), (Z.leb_spec 8 (len - 8 * 1)); lia).
  repeat match goal with |- context [8 <=? len - 8 * Z.of_nat ?k] =>
    rewrite (proj2 (Z.leb_gt 8 (len - 8 * Z.of_nat k))) by lia end.
  set (x := if 8 <=? len then b0 else _). set (y := if 16 <=? len then b1 else _).
  destruct (Z.eqb_spec x n0) as [->|], (Z.eqb_spec y n1) as [->|]; cbn [andb];
    [by apply bool_decide_eq_true_2|apply bool_decide_eq_false_2; congruence..].
Qed.

Section Labels.
Context `{InetLaws}.

Lemma isPrivate_v4 b0 b1 b2 b3 :
  0 <= b1 < 256 ->
  isPrivate (MkAddr FamInet (pad16 [b0; b1; b2; b3])) = privateV4 b0 b1.
Proof.
  intros H1. unfold isPrivate. rewrite kPrivate_eq. cbn [existsb].
  rewrite !contains_v4 by lia. unfold contains, fam_eqb. cbn [family net].
  rewrite !(bool_decide_eq_false_2 (FamInet = FamInet6)) by done.
  change (maskByte 8 1) with 0. change (maskByte 12 1) with 240. rewrite !Z.land_0_r.
  cbn. rewrite land_240_16 by done. unfold privateV4.
  rewrite !orb_false_r, !andb_true_r. by rewrite !orb_assoc.
Qed.

(** A configured prefix that parses is well formed, and holds exactly the
    addresses of its family that share its first [plen] bits. *)
Lemma parse_contains (text : string) (p : IpPrefix) (a : IpAddr) :
  parse text = Some p -> isBytes 16 (bytes a) ->
  prefixOk p /\
  (contains p a = true <->
   family a = family (net p) /\
   forall j, 0 <= j < plen p -> addrBit (bytes a) j = addrBit (bytes (net p)) j).
Proof.
  intros E B. apply parse_prefixOk in E. split; [done|]. by apply contains_bits.
Qed.

(** On the status page a public client is only its network: the label of a
    public IPv4 address is the same whatever its last octet and that of a public
    IPv6 address whatever its last 64 bits, while exactly the RFC 1918, loopback
    and link-local IPv4 networks are shown whole. *)
Lemma publicLabel_hides (a a' : IpAddr) (b0 b1 b2 b3 : Z) :
  family a = family a' -> isBytes 16 (bytes a) -> isBytes 16 (bytes a') ->
  isPrivate a = false -> isPrivate a' = false ->
  take (if fam_eqb (family a) FamInet then 3 else 8) (bytes a) =
  take (if fam_eqb (family a) FamInet then 3 else 8) (bytes a') ->
  0 <= b1 < 256 ->
  publicLabel a = publicLabel a' /\
  isPrivate (MkAddr FamInet (pad16 [b0; b1; b2; b3])) = privateV4 b0 b1.
Proof.
  intros F B B' P P' T H1. split; [|by apply isPrivate_v4].
  unfold publicLabel. rewrite P, P', <- F. destruct a as [f b], a' as [f' b'].
  cbn [family bytes] in *. subst f'. destruct f; [done| |].
  - cbn in T. destruct B as [L _], B' as [L' _].
    destruct b as [|x0 [|x1 [|x2 ?]]], b' as [|y0 [|y1 [|y2 ?]]]; try discriminate.
    unfold byteAt. cbn in *. by simplify_eq.
  - cbn [fam_eqb] in T. change (if fam_eqb FamInet6 FamInet then 3 else 8)%nat with 8%nat in T.
    do 2 f_equal. apply addrBit_ext; [by apply masked_isBytes..|]. intros j Hj.
    rewrite !masked_addrBit by (apply B || apply B' || lia). cbn [bytes].
    destruct (Z.ltb_spec j 64); [|done]. cbn [andb]. unfold addrBit.
    assert (N : forall l, nth (Z.to_nat (j / 8)) l 0 = nth (Z.to_nat (j / 8)) (take 8 l) 0).
    { intros l. rewrite !nth_lookup, lookup_take_lt by dlia. done. }
    rewrite (N b), (N b'). by rewrite T.
Qed.
End Labels.

Lemma parse_contains_witness :
  prefixOk (MkPrefix (MkAddr FamInet (pad16 [172;16;0;0])) 12) /\
  (contains (MkPrefix (MkAddr FamInet (pad16 [172;16;0;0])) 12)
            (MkAddr FamInet (pad16 [172;31;9;9])) = true <->
   FamInet = FamInet /\
   forall j, 0 <= j < 12 ->
     addrBit (pad16 [172;31;9;9]) j = addrBit (pad16 [172;16;0;0]) j).
Proof.
  apply (@parse_contains demoInet demoInet_laws "172.16.0.0/12"
           (MkPrefix (MkAddr FamInet (pad16 [172;16;0;0])) 12) (MkAddr FamInet (pad16 [172;31;9;9]))).
  - reflexivity.
  - split; [reflexivity|]. cbn. repeat constructor; lia.
Defined.

Lemma publicLabel_hides_witness :
  @publicLabel demoInet (MkAddr FamInet (pad16 [203;0;113;7])) =
  @publicLabel demoInet (MkAddr FamInet (pad16 [203;0;113;99])) /\
  @isPrivate demoInet (MkAddr FamInet (pad16 [172;20;1;1])) = privateV4 172 20.
Proof.
  apply (@publicLabel_hides demoInet demoInet_laws (MkAddr FamInet (pad16 [203;0;113;7]))
           (MkAddr FamInet (pad16 [203;0;113;99])) 172 20 1 1);
    try reflexivity; try (split; [reflexivity | cbn; repeat constructor; lia]); lia.
Defined.
