(* ===== verification/MinuteRing.v ===== *)
(** * Sixty buckets, one a minute
    [ClientTally] and [NtpServer] both keep the past hour as sixty buckets where
    bucket [k % 60] holds minute [k], cleared as the minute moves on. This is
    the ring and what it represents: a count for every minute of the window. *)

From Stdlib Require Import ZArith Lia List Bool.
From stdpp Require Import base list.
From S2P Require Import Prelude.

Definition kMinutes : Z := 60.

Section Ring.
Context {A : Type} (zero : A).

(** Bucket of minute [k], floored whatever the sign of [k]. *)
Definition slot (k : Z) : nat := Z.to_nat (cmod (cmod k kMinutes + kMinutes) kMinutes).

(** The clearing loop: minutes [last + 1 .. last + gap]. *)
Fixpoint clearFrom (last : Z) (gap : nat) (r : list A) : list A :=
  match gap with
  | O => r
  | S g => clearFrom (last + 1) g (<[slot (last + 1) := zero]> r)
  end.

Definition ringAdvance (r : list A) (last minute : Z) : list A * Z :=
  if minute <=? last then (r, last)
  else (clearFrom last (Z.to_nat (Z.min (minute - last) kMinutes)) r, minute).

(** The ring represents the count [cnt] of every minute of the hour ending at
    [last], and nothing has been counted after [last]. *)
Record ringRep (cnt : Z -> A) (r : list A) (last : Z) : Prop := {
  ring_length : length r = 60%nat;
  ring_window : forall j, last - 60 < j <= last -> r !! slot j = Some (cnt j);
  ring_future : forall j, last < j -> cnt j = zero;
}.

Lemma slot_mod k : slot k = Z.to_nat (k mod 60).
Proof.
  unfold slot, cmod, kMinutes. f_equal.
  assert (Q := Z.quot_rem' k 60). pose proof (Z.rem_bound_abs k 60 ltac:(lia)).
  rewrite Z.rem_mod_nonneg by lia.
  rewrite <- (Z_mod_plus_full (Z.rem k 60 + 60) (Z.quot k 60 - 1) 60). f_equal. lia.
Qed.

Lemma slot_lt k : (slot k < 60)%nat.
Proof. rewrite slot_mod. dlia. Qed.

Lemma slot_inj j k : j - 60 < k < j + 60 -> slot j = slot k -> j = k.
Proof. rewrite !slot_mod. intros. dlia. Qed.

Lemma clearFrom_length last gap r : length (clearFrom last gap r) = length r.
Proof. revert last r. induction gap; intros; cbn; [done|]. by rewrite IHgap, length_insert. Qed.

Lemma clearFrom_lookup last gap r j :
  length r = 60%nat -> (gap <= 60)%nat -> last + Z.of_nat gap - 60 < j <= last + Z.of_nat gap ->
  clearFrom last gap r !! slot j = (if last <? j then Some zero else r !! slot j).
Proof.
  revert last r. induction gap as [|g IH]; intros last r L G Hj; cbn [clearFrom].
  - destruct (Z.ltb_spec last j); [lia|done].
  - rewrite IH by (rewrite ?length_insert; lia).
    destruct (Z.ltb_spec last j) as [H1|H1], (Z.ltb_spec (last + 1) j) as [H2|H2]; try lia; [done| |].
    + replace j with (last + 1) by lia. apply list_lookup_insert_eq. rewrite L. apply slot_lt.
    + apply list_lookup_insert_ne. intros E. apply slot_inj in E; lia.
Qed.

Lemma ringAdvance_rep cnt r last minute :
  ringRep cnt r last -> last <= minute ->
  ringRep cnt (fst (ringAdvance r last minute)) minute /\ snd (ringAdvance r last minute) = minute.
Proof.
  intros [L W F] H. unfold ringAdvance. destruct (Z.leb_spec minute last).
  - assert (minute = last) as -> by lia. done.
  - split; [|done]. cbn [fst]. unfold kMinutes.
    destruct (Z.le_gt_cases (minute - last) 60) as [G|G].
    + rewrite Z.min_l by lia. split; [by rewrite clearFrom_length| |intros; apply F; lia].
      intros j Hj. rewrite clearFrom_lookup by lia.
      destruct (Z.ltb_spec last j); [by rewrite F by lia|]. apply W. lia.
    + rewrite Z.min_r by lia. split; [by rewrite clearFrom_length| |intros; apply F; lia].
      (* every bucket has been cleared: seen from minute [last + 60] *)
      intros j Hj. set (j' := last + 1 + (j - (last + 1)) mod 60).
      assert (slot j = slot j') as -> by (rewrite !slot_mod; f_equal; unfold j'; dlia).
      rewrite clearFrom_lookup by (unfold j'; dlia).
      rewrite (proj2 (Z.ltb_lt last j')) by (unfold j'; dlia). by rewrite F by lia.
Qed.

Lemma ring_bump cnt r minute (f : A -> A) :
  ringRep cnt r minute ->
  ringRep (fun j => if j =? minute then f (cnt j) else cnt j) (alter f (slot minute) r) minute.
Proof.
  intros [L W F]. split; [by rewrite length_alter| |].
  - intros j Hj. destruct (Z.eqb_spec j minute) as [->|N].
    + rewrite list_lookup_alter_eq, W by lia. done.
    + rewrite list_lookup_alter_ne by (intros E; apply slot_inj in E; lia). by apply W.
  - intros j Hj. destruct (Z.eqb_spec j minute); [lia|]. by apply F.
Qed.

Lemma ring_empty minute : ringRep (fun _ => zero) (replicate 60 zero) minute.
Proof.
  split; [by rewrite length_replicate| |done].
  intros j _. apply lookup_replicate. split; [done|]. apply slot_lt.
Qed.
End Ring.

#[export] Hint Resolve slot_lt ring_empty ring_bump : ubersdr.

(** The sum over a run of minutes, [lo .. lo + n - 1], as the loops that add
    buckets up compute it. *)
Definition sumRange (n : nat) (lo : Z) (f : Z -> Z) : Z :=
  fold_left (fun acc i => acc + f (lo + Z.of_nat i)) (seq 0 n) 0.

Lemma sumRange_S n lo f : sumRange (S n) lo f = sumRange n lo f + f (lo + Z.of_nat n).
Proof. unfold sumRange. rewrite seq_S, fold_left_app. cbn. lia. Qed.

Lemma sumRange_ext n lo f g :
  (forall j, lo <= j < lo + Z.of_nat n -> f j = g j) -> sumRange n lo f = sumRange n lo g.
Proof.
  induction n as [|n IH]; intros E; [done|]. rewrite !sumRange_S, IH by (intros; apply E; lia).
  rewrite E by lia. done.
Qed.

Lemma sumRange_zero_tail n m lo f :
  (forall j, lo + Z.of_nat n <= j -> f j = 0) -> (n <= m)%nat -> sumRange m lo f = sumRange n lo f.
Proof.
  intros F H. induction m as [|m IH]; [by replace n with 0%nat by lia|].
  destruct (Nat.eq_dec n (S m)) as [->|N]; [done|].
  rewrite sumRange_S, IH, F by lia. lia.
Qed.

Lemma sumRange_nonneg n lo f : (forall j, 0 <= f j) -> 0 <= sumRange n lo f.
Proof. intros H. induction n; [done|]. rewrite sumRange_S. specialize (H (lo + Z.of_nat n)). lia. Qed.

Lemma ringRep_ext {A} (zero : A) cnt cnt' r last :
  (forall j, cnt j = cnt' j) -> ringRep zero cnt r last -> ringRep zero cnt' r last.
Proof. intros E [L W F]. split; [done| |]; intros; rewrite <- E; auto. Qed.

Lemma sumRange_plus n lo f g : sumRange n lo (fun j => f j + g j) = sumRange n lo f + sumRange n lo g.
Proof. induction n; [done|]. rewrite !sumRange_S, IHn. lia. Qed.

(** One minute's indicator, summed over a run of minutes. *)
Lemma sumRange_indicator n lo m (b : bool) :
  sumRange n lo (fun j => if (j =? m) && b then 1 else 0) =
  if (lo <=? m) && (m <? lo + Z.of_nat n) && b then 1 else 0.
Proof.
  induction n as [|n IH].
  - change (sumRange 0 lo _) with 0. rewrite Z.add_0_r.
    destruct (Z.leb_spec lo m), (Z.ltb_spec m lo), b; cbn; lia.
  - rewrite sumRange_S, IH. destruct b; rewrite ?andb_false_r, ?andb_true_r; [|done].
    destruct (Z.leb_spec lo m), (Z.ltb_spec m (lo + Z.of_nat n)),
      (Z.ltb_spec m (lo + Z.of_nat (S n))), (Z.eqb_spec (lo + Z.of_nat n) m); cbn; lia.
Qed.
