(* ===== verification/ClientTally.v ===== *)
(** * Who asks the time (src/ClientTally.cpp)
    Requests per client over the past hour. A client is its public label; each
    has two rings of sixty minute buckets. The map of clients is an
    [unordered_map], here a [gmap]: nothing depends on its iteration order,
    because the list that leaves it is sorted by a total order. *)

From Stdlib Require Import ZArith Lia List Bool Ascii String Sorting.Permutation.
From stdpp Require Import base list strings gmap sorting.
From S2P Require Import Prelude Doubles Text IpPrefix MinuteRing.

#[local] Open Scope string_scope.
#[local] Open Scope Z_scope.

Definition kMaxClients : nat := 4096.
Definition UINT32_MAX : Z := 4294967295.

Record Entry := MkEntry { e_requests : list Z; e_limited : list Z; e_lastMinute : Z }.
Definition newEntry (minute : Z) : Entry := MkEntry (replicate 60 0) (replicate 60 0) minute.

Record Tally := MkTally { t_clients : gmap string Entry; t_lastSweep : double }.
Definition newTally : Tally := MkTally ∅ (-1e18)%D.

Definition advance (e : Entry) (minute : Z) : Entry :=
  let '(r, m) := ringAdvance 0 (e_requests e) (e_lastMinute e) minute in
  let '(l, _) := ringAdvance 0 (e_limited e) (e_lastMinute e) minute in
  MkEntry r l m.

(** The past hour as seen at [minute]: (requests, limited). *)
Definition sum (e : Entry) (minute : Z) : Z * Z :=
  let lo := Z.max (minute - kMinutes + 1) (e_lastMinute e - kMinutes + 1) in
  let hi := Z.min minute (e_lastMinute e) in
  let n := Z.to_nat (hi - lo + 1) in
  (sumRange n lo (fun k => nth (slot k) (e_requests e) 0),
   sumRange n lo (fun k => nth (slot k) (e_limited e) 0)).

(** [if (x < UINT32_MAX) ++x]. *)
Definition bump (x : Z) : Z := if x <? UINT32_MAX then x + 1 else x.

(** The entry's own part of a record: move to the minute and count. *)
Definition countIn (e : Entry) (minute : Z) (limited : bool) : Entry :=
  let e := advance e minute in
  let i := slot minute in
  MkEntry (alter bump i (e_requests e))
          (if limited then alter bump i (e_limited e) else e_limited e)
          (e_lastMinute e).

Definition minuteOf (now : double) : Z := d2ll (dfloor (now / 60)%D).

(** The part of [record] under the lock. *)
Definition recordKey (t : Tally) (key : string) (minute : Z) (now : double) (limited : bool) : Tally :=
  match t_clients t !! key with
  | Some e => MkTally (<[key := countIn e minute limited]> (t_clients t)) (t_lastSweep t)
  | None =>
      let add (t : Tally) :=
        MkTally (<[key := countIn (newEntry minute) minute limited]> (t_clients t)) (t_lastSweep t) in
      if (kMaxClients <=? size (t_clients t))%nat then
        if (now - t_lastSweep t <? 1)%D then t
        else
          let kept := filter (fun kv : string * Entry => 1 < fst (sum (snd kv) minute)) (t_clients t) in
          let t' := MkTally kept now in
          if (kMaxClients <=? size kept)%nat then t' else add t'
      else add t
  end.

Section Record.
Context `{Inet}.

Definition record (t : Tally) (from : SockAddr) (now : double) (limited : bool) : Tally :=
  let a := ipAddrOf from in
  match family a with
  | FamNone => t
  | _ => recordKey t (publicLabel a) (minuteOf now) now limited
  end.
End Record.

Record TopClient := MkTop { tc_client : string; tc_requests : Z; tc_limited : Z }.

(** The comparator of [top]: busiest first, ties by name. *)
Definition topBefore (x y : TopClient) : bool :=
  if negb (tc_requests x =? tc_requests y) then tc_requests y <? tc_requests x
  else String.ltb (tc_client x) (tc_client y).
Definition topLe (x y : TopClient) : Prop := topBefore y x = false.
#[export] Instance topLe_dec : RelDecision topLe.
Proof. intros x y. unfold topLe. apply _. Defined.

Definition topOf (minute : Z) (kv : string * Entry) : TopClient :=
  let '(r, l) := sum (snd kv) minute in MkTop (fst kv) r l.

(** [std::partial_sort] to the first [k] and [resize(k)] leave the first [k] of
    the sorted list: the order is total, so that list is the only one. *)
Definition top (t : Tally) (n : nat) (now : double) : list TopClient :=
  let minute := minuteOf now in
  let all := filter (fun c => 0 < tc_requests c) (map (topOf minute) (map_to_list (t_clients t))) in
  let k := Nat.min n (length all) in
  take k (merge_sort topLe all).

(** ** Lemmas *)

Lemma string_ltb_le a b : String.ltb b a = false <-> String.le a b.
Proof.
  unfold String.le, String.leb, String.ltb. rewrite (String.compare_antisym a b).
  destruct (String.compare b a); cbn; split; done.
Qed.

Lemma topLe_spec x y :
  topLe x y <->
  tc_requests y < tc_requests x \/
  (tc_requests x = tc_requests y /\ String.le (tc_client x) (tc_client y)).
Proof.
  unfold topLe, topBefore. destruct (Z.eqb_spec (tc_requests y) (tc_requests x)); cbn [negb].
  - rewrite string_ltb_le. intuition lia.
  - rewrite Z.ltb_ge. intuition lia.
Qed.

#[export] Instance topLe_total : Total topLe.
Proof.
  intros x y. rewrite !topLe_spec. pose proof (total String.le (tc_client x) (tc_client y)).
  destruct (Z.lt_trichotomy (tc_requests x) (tc_requests y)) as [?|[?|?]]; intuition lia.
Qed.

#[export] Instance topLe_trans : Transitive topLe.
Proof.
  intros x y z. rewrite !topLe_spec. intros [?|[? L1]] [?|[? L2]]; try (left; lia).
  right. split; [lia|]. by transitivity (tc_client y).
Qed.

(** *** What the tally stands for
    A history of requests: the client, the minute, and whether it was over the
    rate limit. [countAt] is how many of a client's requests fell in a minute,
    [countIn60] how many fell in the sixty minutes ending at one. *)
Record Req := MkReq { rq_key : string; rq_minute : Z; rq_limited : bool }.

Definition counted (key : string) (lim : bool) (q : Req) : bool :=
  bool_decide (rq_key q = key) && (negb lim || rq_limited q).

Fixpoint countAt (h : list Req) (key : string) (lim : bool) (j : Z) : Z :=
  match h with
  | [] => 0
  | q :: h => (if (j =? rq_minute q) && counted key lim q then 1 else 0) + countAt h key lim j
  end.

Fixpoint countIn60 (h : list Req) (key : string) (lim : bool) (minute : Z) : Z :=
  match h with
  | [] => 0
  | q :: h =>
      (if (minute - 60 <? rq_minute q) && (rq_minute q <=? minute) && counted key lim q then 1 else 0)
      + countIn60 h key lim minute
  end.

Definition entryRep (h : list Req) (key : string) (e : Entry) : Prop :=
  ringRep 0 (countAt h key false) (e_requests e) (e_lastMinute e) /\
  ringRep 0 (countAt h key true) (e_limited e) (e_lastMinute e).

(** Newest request first. *)
Definition tallyRep (h : list Req) (t : Tally) (minute : Z) : Prop :=
  forall key,
    match t_clients t !! key with
    | Some e => e_lastMinute e <= minute /\ entryRep h key e
    | None => forall q, In q h -> rq_key q <> key
    end.

Lemma countAt_range h key lim j : 0 <= countAt h key lim j <= Z.of_nat (length h).
Proof. induction h as [|q h IH]; cbn -[Z.of_nat]; [lia|]. destruct (_ && _); lia. Qed.

Lemma countAt_other h key lim j : (forall q, In q h -> rq_key q <> key) -> countAt h key lim j = 0.
Proof.
  induction h as [|q h IH]; intros N; cbn; [done|].
  unfold counted. rewrite bool_decide_eq_false_2 by (apply N; by left).
  rewrite andb_false_r, IH; [done|]. intros; apply N; by right.
Qed.

Lemma countIn60_sum h key lim minute :
  sumRange 60 (minute - 59) (countAt h key lim) = countIn60 h key lim minute.
Proof.
  induction h as [|q h IH]; cbn [countAt countIn60]; [reflexivity|].
  rewrite sumRange_plus, IH. f_equal. rewrite sumRange_indicator.
  replace (minute - 59 <=? rq_minute q) with (minute - 60 <? rq_minute q)
    by (destruct (Z.ltb_spec (minute - 60) (rq_minute q)), (Z.leb_spec (minute - 59) (rq_minute q)); lia).
  replace (rq_minute q <? minute - 59 + Z.of_nat 60) with (rq_minute q <=? minute)
    by (destruct (Z.ltb_spec (rq_minute q) (minute - 59 + Z.of_nat 60)), (Z.leb_spec (rq_minute q) minute); lia).
  done.
Qed.

Lemma ring_sum cnt r last minute :
  ringRep 0 cnt r last -> last <= minute ->
  sumRange (Z.to_nat (Z.min minute last - Z.max (minute - kMinutes + 1) (last - kMinutes + 1) + 1))
           (Z.max (minute - kMinutes + 1) (last - kMinutes + 1))
           (fun k => nth (slot k) r 0) = sumRange 60 (minute - 59) cnt.
Proof.
  intros [L W F] H. unfold kMinutes. rewrite Z.min_r, Z.max_l by lia.
  replace (minute - 60 + 1) with (minute - 59) by lia.
  set (n := Z.to_nat (last - (minute - 59) + 1)).
  destruct (Z.le_gt_cases (minute - 59) last) as [G|G].
  - rewrite (sumRange_zero_tail n 60 (minute - 59) cnt).
    + apply sumRange_ext. intros j Hj. apply nth_lookup_Some. apply W. lia.
    + intros j Hj. apply F. lia.
    + lia.
  - replace n with 0%nat by lia. rewrite (sumRange_zero_tail 0 60); [done| |lia].
    intros j Hj. apply F. lia.
Qed.

Lemma sum_countIn60 h key e minute :
  entryRep h key e -> e_lastMinute e <= minute ->
  sum e minute = (countIn60 h key false minute, countIn60 h key true minute).
Proof.
  intros [R1 R2] H. unfold sum. cbn zeta. rewrite (ring_sum _ _ _ _ R1 H), (ring_sum _ _ _ _ R2 H).
  by rewrite !countIn60_sum.
Qed.

Lemma advance_rep h key e minute :
  entryRep h key e -> e_lastMinute e <= minute ->
  entryRep h key (advance e minute) /\ e_lastMinute (advance e minute) = minute.
Proof.
  intros [R1 R2] H. unfold advance.
  destruct (ringAdvance_rep 0 _ _ _ minute R1 H) as [A1 M1].
  destruct (ringAdvance_rep 0 _ _ _ minute R2 H) as [A2 _].
  destruct (ringAdvance 0 (e_requests e) _ minute) as [r m].
  destruct (ringAdvance 0 (e_limited e) _ minute) as [l m']. cbn in *. subst. done.
Qed.

(** Counting a request moves the entry on to the history with that request. *)
Lemma countIn_rep h key e minute lim :
  Z.of_nat (length h) < UINT32_MAX ->
  entryRep h key e -> e_lastMinute e <= minute ->
  entryRep (MkReq key minute lim :: h) key (countIn e minute lim) /\
  e_lastMinute (countIn e minute lim) = minute.
Proof.
  intros HL R H. destruct (advance_rep _ _ _ _ R H) as [[R1 R2] M]. unfold countIn.
  split; [|done]. rewrite M in *.
  assert (B : forall l j, bump (countAt h key l j) = countAt h key l j + 1).
  { intros l j. unfold bump. pose proof (countAt_range h key l j). zcases. }
  assert (C : forall l, counted key l (MkReq key minute lim) = negb l || lim).
  { intros l. unfold counted. cbn. by rewrite bool_decide_eq_true_2. }
  split; cbn [e_requests e_limited e_lastMinute].
  - eapply ringRep_ext; [|apply (ring_bump 0 _ _ _ bump R1)]. intros j. cbn. rewrite C, B.
    destruct (j =? minute); cbn; lia.
  - destruct lim.
    + eapply ringRep_ext; [|apply (ring_bump 0 _ _ _ bump R2)]. intros j. cbn. rewrite C, B.
      destruct (j =? minute); cbn; lia.
    + eapply ringRep_ext; [|exact R2]. intros j. cbn. rewrite C. cbn. by rewrite andb_false_r.
Qed.

Lemma entryRep_other h key e q : rq_key q <> key -> entryRep h key e -> entryRep (q :: h) key e.
Proof.
  intros N [R1 R2].
  assert (C : forall l, counted key l q = false).
  { intros l. unfold counted. by rewrite bool_decide_eq_false_2. }
  split; (eapply ringRep_ext; [|eassumption]); intros j; cbn; by rewrite C, andb_false_r.
Qed.

Lemma newEntry_rep h key minute : (forall q, In q h -> rq_key q <> key) -> entryRep h key (newEntry minute).
Proof.
  intros N. split; (eapply ringRep_ext; [|apply ring_empty]);
    intros j; cbn; by rewrite countAt_other.
Qed.

(** The tally of a history takes one more request, at no earlier minute. *)
Lemma recordKey_rep h t m key minute now lim :
  tallyRep h t m -> m <= minute -> Z.of_nat (length h) < UINT32_MAX ->
  (size (t_clients t) < kMaxClients)%nat \/ is_Some (t_clients t !! key) ->
  tallyRep (MkReq key minute lim :: h) (recordKey t key minute now lim) minute.
Proof.
  intros R Hm HL Room key'. unfold recordKey.
  assert (Other : key <> key' ->
    match t_clients t !! key' with
    | Some e => e_lastMinute e <= minute /\ entryRep (MkReq key minute lim :: h) key' e
    | None => forall q, In q (MkReq key minute lim :: h) -> rq_key q <> key'
    end).
  { intros N. specialize (R key'). destruct (t_clients t !! key') as [e|].
    - destruct R. split; [lia|]. by apply entryRep_other.
    - intros q [<-|Hq]; [done|]. by apply R. }
  pose proof (R key) as Rk. destruct (t_clients t !! key) as [e|] eqn:E; cbn [t_clients].
  - destruct (decide (key = key')) as [<-|N].
    + rewrite lookup_insert_eq. destruct Rk as [Le Re].
      destruct (countIn_rep h key e minute lim HL Re ltac:(lia)) as [? ->]. split; [lia|done].
    + rewrite lookup_insert_ne by done. by apply Other.
  - destruct Room as [Room|[? ?]]; [|done].
    rewrite (proj2 (Nat.leb_gt _ _) Room). cbn [t_clients].
    destruct (decide (key = key')) as [<-|N].
    + rewrite lookup_insert_eq.
      destruct (countIn_rep h key (newEntry minute) minute lim HL
                  (newEntry_rep h key minute Rk) ltac:(cbn; lia)) as [? ->]. split; [lia|done].
    + rewrite lookup_insert_ne by done. by apply Other.
Qed.

Lemma recordKey_size t key minute now lim :
  (size (t_clients t) <= kMaxClients)%nat ->
  (size (t_clients (recordKey t key minute now lim)) <= kMaxClients)%nat.
Proof.
  intros H. unfold recordKey. destruct (t_clients t !! key) as [e|] eqn:E; cbn [t_clients].
  { rewrite map_size_insert_Some by eauto. done. }
  repeat case_match; cbn [t_clients];
    try (match goal with H : (_ <=? _)%nat = false |- _ => apply Nat.leb_gt in H end);
    try (rewrite map_size_insert_None; [lia|]); try done.
  all: try (apply map_lookup_filter_None_2; by left).
  all: etransitivity; [|exact H]; apply map_subseteq_size, map_filter_subseteq.
Qed.

(** *** Runs *)

(** The requests of a run, newest first. *)
Abbreviation Call := (SockAddr * double * bool)%type.

Definition keysOf (h : list Req) : gset string := list_to_set (map rq_key h).

Lemma recordKey_dom t key minute now lim :
  dom (t_clients (recordKey t key minute now lim)) ⊆ {[key]} ∪ dom (t_clients t).
Proof.
  unfold recordKey. destruct (t_clients t !! key) as [e|]; [cbn; set_solver|].
  assert (F : forall P (d : forall x, Decision (P x)),
    dom (filter P (t_clients t)) ⊆ dom (t_clients t)) by (intros; apply subseteq_dom, map_filter_subseteq).
  repeat case_match; cbn [t_clients]; rewrite ?dom_insert_L; set_solver.
Qed.

Section Properties.
Context `{Inet}.

Definition runTally (calls : list Call) (t : Tally) : Tally :=
  fold_left (fun t '(from, now, lim) => record t from now lim) calls t.
Definition reqOf (c : Call) : Req :=
  let '(from, now, lim) := c in MkReq (publicLabel (ipAddrOf from)) (minuteOf now) lim.
Definition answered (c : Call) : bool :=
  match family (ipAddrOf (fst (fst c))) with FamNone => false | _ => true end.

(** What a run adds to a history. *)
Fixpoint history (calls : list Call) (h : list Req) : list Req :=
  match calls with
  | [] => h
  | c :: calls => history calls (if answered c then reqOf c :: h else h)
  end.

(** The calls come in minute order, from [m] on, and end at [m']. *)
Fixpoint minutesTo (m : Z) (calls : list Call) (m' : Z) : Prop :=
  match calls with
  | [] => m <= m'
  | (_, now, _) :: calls => m <= minuteOf now /\ minutesTo (minuteOf now) calls m'
  end.

Lemma record_answered t c :
  record t (fst (fst c)) (snd (fst c)) (snd c) =
  if answered c
  then recordKey t (rq_key (reqOf c)) (rq_minute (reqOf c)) (snd (fst c)) (rq_limited (reqOf c)) else t.
Proof. destruct c as [[from now] lim]. unfold answered, record. cbn. by destruct (family _). Qed.

Lemma history_keys calls h : keysOf h ⊆ keysOf (history calls h).
Proof.
  revert h. induction calls as [|c calls IH]; intros h; cbn; [done|].
  destruct (answered c); [|apply IH]. etransitivity; [|apply IH]. unfold keysOf. set_solver.
Qed.

Lemma history_length calls h : (length h <= length (history calls h))%nat.
Proof.
  revert h. induction calls as [|c calls IH]; intros h; cbn; [done|].
  destruct (answered c); [|apply IH]. specialize (IH (reqOf c :: h)). cbn in IH. lia.
Qed.

Lemma tallyRep_later h t m m' : tallyRep h t m -> m <= m' -> tallyRep h t m'.
Proof.
  intros R L key. specialize (R key). destruct (t_clients t !! key); [|done].
  destruct R. split; [lia|done].
Qed.

Lemma runTally_rep calls : forall h t m m',
  tallyRep h t m -> dom (t_clients t) ⊆ keysOf h -> minutesTo m calls m' ->
  Z.of_nat (length (history calls h)) <= UINT32_MAX ->
  (size (keysOf (history calls h)) <= kMaxClients)%nat ->
  tallyRep (history calls h) (runTally calls t) m'.
Proof.
  induction calls as [|c calls IH]; intros h t m m' R D M L S; [exact (tallyRep_later _ _ _ _ R M)|].
  destruct c as [[from now] lim]. destruct M as [M1 M2]. cbn [runTally fold_left history] in *.
  pose proof (record_answered t (from, now, lim)) as Er. cbn [fst snd] in Er. rewrite Er. clear Er.
  destruct (answered (from, now, lim)) eqn:A.
  2:{ eapply IH; [eapply tallyRep_later; eassumption|..]; try done. }
  set (q := reqOf (from, now, lim)) in *.
  assert (Lq : Z.of_nat (length (q :: h)) <= UINT32_MAX)
    by (pose proof (history_length calls (q :: h)); lia).
  assert (Sq : (size (keysOf (q :: h)) <= kMaxClients)%nat)
    by (etransitivity; [apply subseteq_size, (history_keys calls)|exact S]).
  eapply IH; [|..]; try eassumption.
  - change (tallyRep (q :: h) (recordKey t (rq_key q) (rq_minute q) now (rq_limited q)) (rq_minute q)).
    apply (recordKey_rep h t m); [done|done|cbn in Lq; lia|].
    destruct (t_clients t !! rq_key q) as [e|] eqn:E; [right; by eexists|left].
    specialize (R (rq_key q)). rewrite E in R.
    assert (N : rq_key q ∉ keysOf h).
    { unfold keysOf. rewrite elem_of_list_to_set, list_elem_of_In, in_map_iff.
      intros (q' & Eq & In'). by apply (R q'). }
    unfold keysOf in Sq. cbn in Sq. rewrite size_union, size_singleton in Sq by set_solver.
    rewrite <- size_dom. assert (size (dom (t_clients t)) <= size (keysOf h))%nat
      by (by apply subseteq_size). unfold keysOf in *. lia.
  - etransitivity; [apply recordKey_dom|]. unfold keysOf in *. cbn. set_solver.
Qed.

Lemma empty_rep m : tallyRep [] newTally m.
Proof. intros key. cbn. by rewrite lookup_empty. Qed.

Lemma runTally_size calls t :
  (size (t_clients t) <= kMaxClients)%nat -> (size (t_clients (runTally calls t)) <= kMaxClients)%nat.
Proof.
  revert t. induction calls as [|[[from now] lim] calls IH]; intros t S; [done|]. cbn. apply IH.
  pose proof (record_answered t (from, now, lim)) as Er. cbn [fst snd] in Er. rewrite Er. clear Er.
  destruct (answered _); [|done]. by apply recordKey_size.
Qed.
End Properties.

(** ** Properties *)

(** C35: the tally refines counting over a log of requests. Whatever the calls
    (in minute order, from at most [kMaxClients] different labels, and fewer
    than a uint32 of them), what an entry's rings sum to at any minute from the
    last call's on is exactly how many of that label's requests came in the
    sixty minutes ending there, and how many of those were over the rate limit;
    a label with no entry made no request at all. *)
Theorem tally_counts_past_hour `{Inet} (calls : list Call) (m m' : Z) (key : string) :
  minutesTo m calls m' ->
  Z.of_nat (length (history calls [])) <= UINT32_MAX ->
  (size (keysOf (history calls [])) <= kMaxClients)%nat ->
  let h := history calls [] in
  match t_clients (runTally calls newTally) !! key with
  | Some e => sum e m' = (countIn60 h key false m', countIn60 h key true m')
  | None => Forall (fun q => rq_key q <> key) h
  end.
Proof.
  intros M L S h. pose proof (runTally_rep calls [] newTally m m' (empty_rep m) ltac:(set_solver) M L S key) as R.
  destruct (t_clients _ !! key) as [e|].
  - destruct R as [? ?]. by apply sum_countIn60.
  - by apply List.Forall_forall.
Qed.

(** Whatever is asked of it, the tally never holds more than [kMaxClients]
    clients. *)
Theorem tally_bounded `{Inet} (calls : list Call) :
  (size (t_clients (runTally calls newTally)) <= kMaxClients)%nat.
Proof. apply runTally_size. cbn. rewrite map_size_empty. unfold kMaxClients. lia. Qed.

(** [top] lists at most [n] clients, each with requests in the past hour,
    busiest first with ties by name, and a client that did ask in the past hour
    is left out only when [n] are listed and every one of them comes before it. *)
Lemma top_is_busiest (t : Tally) (n : nat) (now : double) :
  let l := top t n now in
  let minute := minuteOf now in
  (length l <= n)%nat /\ StronglySorted topLe l /\
  (forall c, c ∈ l -> 0 < tc_requests c /\ exists e, t_clients t !! tc_client c = Some e /\
                      c = topOf minute (tc_client c, e)) /\
  (forall key e, t_clients t !! key = Some e -> 0 < fst (sum e minute) ->
     topOf minute (key, e) ∈ l \/
     (length l = n /\ forall c, c ∈ l -> topLe c (topOf minute (key, e)))).
Proof.
  cbn zeta. unfold top.
  set (minute := minuteOf now). set (all := filter _ _). set (s := merge_sort topLe all).
  assert (P : s ≡ₚ all) by apply merge_sort_Permutation.
  assert (Ls : length s = length all) by (by rewrite P).
  assert (SS : StronglySorted topLe s) by (apply StronglySorted_merge_sort; apply _).
  assert (Cut : (take (Nat.min n (length all)) s ++ drop (Nat.min n (length all)) s)%list = s) by apply take_drop.
  rewrite <- Cut in SS. apply StronglySorted_app in SS. destruct SS as (Cross & S1 & S2).
  assert (In1 : forall c, c ∈ take (Nat.min n (length all)) s -> c ∈ all).
  { intros c Hc. rewrite <- P, <- Cut. apply elem_of_app. by left. }
  split; [rewrite length_take; lia|]. split; [done|]. split.
  - intros c Hc%In1. unfold all in Hc. apply list_elem_of_filter in Hc as [Hp Hc].
    split; [done|]. apply list_elem_of_In, in_map_iff in Hc as ([k e] & Ec & Hk).
    apply list_elem_of_In, elem_of_map_to_list in Hk. exists e.
    assert (tc_client c = k) as -> by (subst c; unfold topOf; by destruct (sum _ _)). done.
  - intros key e Hk Hpos. assert (Ha : topOf minute (key, e) ∈ all).
    { unfold all. apply list_elem_of_filter. split.
      - unfold topOf. cbn [snd] in *. by destruct (sum e minute).
      - apply list_elem_of_In, in_map, list_elem_of_In. by apply elem_of_map_to_list. }
    rewrite <- P, <- Cut in Ha. apply elem_of_app in Ha as [Ha|Ha]; [by left|right]. split.
    + rewrite length_take. destruct (Nat.le_gt_cases (length all) n) as [G|G]; [|lia].
      rewrite Nat.min_r in Ha by done. rewrite <- Ls, drop_all in Ha. by apply not_elem_of_nil in Ha.
    + intros c Hc. by apply Cross.
Qed.

(** Two clients over three minutes, one of them leaving the hour. *)
Definition demoCalls : list Call :=
  [(SaInet [10;0;0;1], 30%D, false); (SaInet [8;8;8;8], 61%D, true);
   (SaInet [8;8;8;8], 62%D, false); (SaOther, 63%D, false); (SaInet [8;8;4;4], 3600%D, true)].

Lemma tally_counts_past_hour_witness :
  match t_clients (@runTally demoInet demoCalls newTally) !! "8.8.8.x" with
  | Some e => sum e 60 = (2, 1)
  | None => False
  end.
Proof.
  pose proof (@tally_counts_past_hour demoInet demoCalls 0 60 "8.8.8.x"
    ltac:(vm_compute; repeat split; discriminate) ltac:(vm_compute; discriminate)
    ltac:(apply Nat.leb_le; vm_compute; reflexivity)) as W.
  vm_compute in W. vm_compute. exact W.
Defined.
