(* ===== verification/RateLimiter.v ===== *)
(** * Who is answered how often (src/RateLimiter.cpp)
    A token bucket per client prefix. The buckets are an [unordered_map], here
    a [gmap]: the only traversals erase by a test on each entry, so their order
    does not matter. The random draw of the leak is an argument. *)

From Stdlib Require Import ZArith Lia List Bool String Floats Sorted.
From stdpp Require Import base list strings gmap sorting.
From S2P Require Import Prelude Doubles IpPrefix.

#[local] Open Scope Z_scope.

Record RateLimitConfig := MkRateLimitConfig {
  intervalSec : double;
  burst : Z;
  kod : bool;
  leak : double;
  ipv4Prefix : Z;
  ipv6Prefix : Z;
  exempt : list string
}.
Definition defaultRateLimit : RateLimitConfig := MkRateLimitConfig 2%D 8 true 0%D 32 64 [].

Inductive RateVerdict := VAnswer | VLeak | VKod | VDrop.
#[export] Instance RateVerdict_eq_dec : EqDecision RateVerdict.
Proof. solve_decision. Defined.

Definition kMaxBuckets : Z := 100000.

Record Bucket := MkBucket { tokens : double; at_ : double; kodAt : double }.
(** Family and masked address: the seventeen bytes of the source's key. *)
Abbreviation BucketKey := (list Z).
Definition tracked (m : gmap BucketKey Bucket) : Z := Z.of_nat (size m).
Record Limiter := MkLimiter { buckets : gmap BucketKey Bucket; lastSweep : double }.
Definition newLimiter : Limiter := MkLimiter ∅ 0%D.

Definition keyOf (cfg : RateLimitConfig) (addr : IpAddr) : BucketKey :=
  let v4 := fam_eqb (family addr) FamInet in
  let client := masked addr (if v4 then ipv4Prefix cfg else ipv6Prefix cfg) in
  (if v4 then 4 else 6) :: bytes client.

(** Erase what has been idle for longer than [idle]. *)
Definition sweep (now idle : double) (m : gmap BucketKey Bucket) : gmap BucketKey Bucket :=
  filter (fun kv : BucketKey * Bucket => negb (idle <? now - at_ (snd kv))%D = true) m.

Definition full (cfg : RateLimitConfig) : double := (d_of_Z (burst cfg) * intervalSec cfg)%D.

(** The minute sweep at the head of [check]. *)
Definition minuteSweep (cfg : RateLimitConfig) (st : Limiter) (now : double) : Limiter :=
  if (60 <? now - lastSweep st)%D
  then MkLimiter (sweep now (dmax 60 (full cfg)) (buckets st)) now
  else st.

(** A client with no bucket is answered; whether it gets one depends on the
    room there is. *)
Definition admit_new (cfg : RateLimitConfig) (st : Limiter) (key : BucketKey) (now : double) : Limiter :=
  let add (st : Limiter) :=
    MkLimiter (<[key := MkBucket (d_of_Z (burst cfg) - 1) now (- infinity)]> (buckets st))%D
              (lastSweep st) in
  if kMaxBuckets <=? tracked (buckets st) then
    if (now - lastSweep st <? 1)%D then st
    else
      let st := MkLimiter (sweep now (full cfg) (buckets st)) now in
      if kMaxBuckets <=? tracked (buckets st) then st else add st
  else add st.

(** A client with a bucket. *)
Definition spend (cfg : RateLimitConfig) (b : Bucket) (now draw : double) : RateVerdict * Bucket :=
  let t := dmin (d_of_Z (burst cfg)) (tokens b + (now - at_ b) / intervalSec cfg)%D in
  if (1 <=? t)%D then (VAnswer, MkBucket (t - 1)%D now (kodAt b))
  else if (0 <? leak cfg)%D && (draw <? leak cfg)%D then (VLeak, MkBucket t now (kodAt b))
  else if kod cfg && (now - kodAt b >=? dmax 1 (intervalSec cfg))%D then (VKod, MkBucket t now now)
  else (VDrop, MkBucket t now (kodAt b)).

(** The part of [check] under the lock. *)
Definition checkKey (cfg : RateLimitConfig) (st : Limiter) (key : BucketKey) (now draw : double)
  : RateVerdict * Limiter :=
  let st := minuteSweep cfg st now in
  match buckets st !! key with
  | None => (VAnswer, admit_new cfg st key now)
  | Some b =>
      let '(v, b') := spend cfg b now draw in
      (v, MkLimiter (<[key := b']> (buckets st)) (lastSweep st))
  end.

Section Check.
Context `{Inet}.

(** What [Config::finalise] lets through. *)
Definition rateLimitValid (rl : RateLimitConfig) : bool :=
  disfinite (intervalSec rl) &&
  negb (negb (intervalSec rl =? 0)%D && ((intervalSec rl <? 0.01)%D || (4096 <? intervalSec rl)%D)) &&
  negb ((burst rl <? 1) || (255 <? burst rl)) &&
  (disfinite (leak rl) && negb ((leak rl <? 0)%D || (1 <? leak rl)%D)) &&
  negb ((ipv4Prefix rl <? 1) || (32 <? ipv4Prefix rl)) &&
  negb ((ipv6Prefix rl <? 1) || (128 <? ipv6Prefix rl)) &&
  forallb (fun e => match parse e with Some _ => true | None => false end) (exempt rl).

(** The constructor: the exempt entries that parse. *)
Definition exemptOf (cfg : RateLimitConfig) : list IpPrefix := omap parse (exempt cfg).

Definition check (cfg : RateLimitConfig) (st : Limiter) (from : SockAddr) (now draw : double)
  : RateVerdict * Limiter :=
  if (intervalSec cfg <=? 0)%D then (VAnswer, st)
  else
    let addr := ipAddrOf from in
    match family addr with
    | FamNone => (VAnswer, st)
    | _ =>
        if existsb (fun p => contains p addr) (exemptOf cfg) then (VAnswer, st)
        else checkKey cfg st (keyOf cfg addr) now draw
    end.

(** A run of requests: its verdicts, and the state it leaves. *)
Fixpoint checks (cfg : RateLimitConfig) (st : Limiter) (calls : list (SockAddr * double * double))
  : list RateVerdict * Limiter :=
  match calls with
  | [] => ([], st)
  | (from, now, draw) :: calls =>
      let '(v, st) := check cfg st from now draw in
      let '(vs, st) := checks cfg st calls in
      (v :: vs, st)
  end.
End Check.

(** ** Lemmas *)

Lemma sweep_lookup now idle m key b :
  sweep now idle m !! key = Some b <-> m !! key = Some b /\ (idle <? now - at_ b)%D = false.
Proof. unfold sweep. rewrite map_lookup_filter_Some, negb_true_iff. done. Qed.

Lemma sweep_size now idle m : tracked (sweep now idle m) <= tracked m.
Proof. unfold tracked. apply inj_le, map_subseteq_size, map_filter_subseteq. Qed.

Lemma admit_new_size cfg st key now :
  tracked (buckets st) <= kMaxBuckets -> tracked (buckets (admit_new cfg st key now)) <= kMaxBuckets.
Proof.
  assert (A : forall m : gmap BucketKey Bucket, forall b, (kMaxBuckets <=? tracked m) = false ->
    tracked (<[key := b]> m) <= kMaxBuckets).
  { intros m b L%Z.leb_gt. unfold tracked in *. rewrite map_size_insert.
    destruct (m !! key); unfold id; cbn -[kMaxBuckets]; unfold kMaxBuckets in *; lia. }
  intros S. unfold admit_new. cbn zeta. repeat case_match; cbn [buckets]; auto.
  all: etransitivity; [apply sweep_size|done].
Qed.

Lemma checkKey_size cfg st key now draw :
  tracked (buckets st) <= kMaxBuckets ->
  tracked (buckets (snd (checkKey cfg st key now draw))) <= kMaxBuckets.
Proof.
  intros S. unfold checkKey.
  assert (S' : tracked (buckets (minuteSweep cfg st now)) <= kMaxBuckets).
  { unfold minuteSweep. case_match; [|done]. cbn. etransitivity; [apply sweep_size|done]. }
  destruct (buckets (minuteSweep cfg st now) !! key) eqn:E.
  - destruct (spend _ _ _ _) as [v b']. cbn. unfold tracked in *. by rewrite map_size_insert_Some by eauto.
  - by apply admit_new_size.
Qed.

Section Runs.
Context `{Inet}.

Lemma check_size cfg st from now draw :
  tracked (buckets st) <= kMaxBuckets ->
  tracked (buckets (snd (check cfg st from now draw))) <= kMaxBuckets.
Proof.
  intros S. unfold check. repeat case_match; try done; by apply checkKey_size.
Qed.

Lemma checks_size cfg calls : forall st,
  tracked (buckets st) <= kMaxBuckets ->
  tracked (buckets (snd (checks cfg st calls))) <= kMaxBuckets.
Proof.
  induction calls as [|[[from now] draw] calls IH]; intros st S; cbn [checks]; [done|].
  pose proof (check_size cfg st from now draw S) as S'.
  destruct (check cfg st from now draw) as [v st']. specialize (IH st' S').
  by destruct (checks cfg st' calls).
Qed.
End Runs.

(** *** A burst at one instant *)

#[export] Instance spec_float_eq_dec : EqDecision spec_float.
Proof. solve_decision. Defined.
Definition dsame (x y : double) : bool := bool_decide (Prim2SF x = Prim2SF y).
Lemma dsame_eq x y : dsame x y = true -> x = y.
Proof. intros E%bool_decide_eq_true. by apply FloatAxioms.Prim2SF_inj. Qed.

(** The bursts the configuration allows are whole doubles, on which adding 0,
    taking 1 and comparing are exact: checked over all of them. *)
Definition burstExact (n : Z) : bool :=
  dsame (d_of_Z n + 0)%D (d_of_Z n) && dsame (d_of_Z n - 1)%D (d_of_Z (n - 1)) &&
  Bool.eqb (1 <=? d_of_Z n)%D (1 <=? n).
Definition burstMin (b n : Z) : bool := dsame (dmin (d_of_Z b) (d_of_Z n)) (d_of_Z (Z.min b n)).
Definition upTo255 : list Z := map Z.of_nat (seq 0 256).

Lemma burst_table :
  forallb burstExact upTo255 && forallb (fun b => forallb (burstMin b) upTo255) upTo255 = true.
Proof. vm_compute. reflexivity. Qed.

Lemma upTo255_In n : 0 <= n <= 255 -> In n upTo255.
Proof. intros H. apply in_map_iff. exists (Z.to_nat n). split; [lia|]. apply in_seq. lia. Qed.

Lemma burst_facts b n :
  0 <= n <= b -> b <= 255 ->
  (d_of_Z n + 0)%D = d_of_Z n /\ (d_of_Z n - 1)%D = d_of_Z (n - 1) /\
  (1 <=? d_of_Z n)%D = (1 <=? n) /\ dmin (d_of_Z b) (d_of_Z n) = d_of_Z n.
Proof.
  intros Hn Hb. pose proof burst_table as T. apply andb_true_iff in T as [T1 T2].
  rewrite forallb_forall in T1, T2.
  pose proof (T1 n (upTo255_In n ltac:(lia))) as E1.
  pose proof (T2 b (upTo255_In b ltac:(lia))) as E2.
  rewrite forallb_forall in E2. specialize (E2 n (upTo255_In n ltac:(lia))).
  unfold burstExact in E1. apply andb_true_iff in E1 as [E1 E4]. apply andb_true_iff in E1 as [E1 E3].
  unfold burstMin in E2. rewrite Z.min_r in E2 by lia.
  repeat split; first [by apply dsame_eq | by apply Bool.eqb_prop].
Qed.

Lemma dle_infinity x : dnan x = false -> (x <=? infinity)%D = true.
Proof.
  unfold dnan. intros N. rewrite dleb_key. change (dkey infinity) with (Some (2 ^ 2200)).
  unfold dkey in *. destruct (Prim2SF x) as [s|s| |s m e] eqn:E; cbn in *; try done.
  - by destruct s.
  - pose proof (Prim2SF_valid x) as V. rewrite E in V. pose proof (finkey_range m e V).
    apply Z.leb_le. destruct s; lia.
Qed.

Lemma dsub_neg_infinity x : disfinite x = true -> (x - - infinity)%D = infinity.
Proof.
  intros F. apply FloatAxioms.Prim2SF_inj. rewrite FloatAxioms.sub_spec. unfold disfinite in F.
  change (Prim2SF (- infinity)%D) with (S754_infinity true).
  by destruct (Prim2SF x).
Qed.

(** The verdict on request [i] of a burst against [b] tokens: answered while
    there is one, then one kiss-o'-death if those are on, then silence. *)
Definition burstVerdict (kod : bool) (b i : nat) : RateVerdict :=
  if (i <? b)%nat then VAnswer else if kod && (i =? b)%nat then VKod else VDrop.

Section Burst.
Context (cfg : RateLimitConfig) (now : double).
Context (Hn : disfinite now = true) (Hi : disfinite (intervalSec cfg) = true)
        (Hpos : (0 <? intervalSec cfg)%D = true) (Hb : 1 <= burst cfg <= 255)
        (Hleak : leak cfg = 0%D).

Lemma now_since_now : ((now - now) / intervalSec cfg)%D = 0%D.
Proof. by rewrite dsub_self, dzero_div. Qed.

Lemma spend_now k ka draw :
  0 <= k <= burst cfg ->
  spend cfg (MkBucket (d_of_Z k) now ka) now draw =
  if 1 <=? k then (VAnswer, MkBucket (d_of_Z (k - 1)) now ka)
  else if kod cfg && (now - ka >=? dmax 1 (intervalSec cfg))%D then (VKod, MkBucket (d_of_Z k) now now)
  else (VDrop, MkBucket (d_of_Z k) now ka).
Proof.
  intros Hk. unfold spend. cbn [tokens at_ kodAt]. rewrite now_since_now.
  destruct (burst_facts (burst cfg) k ltac:(lia) ltac:(lia)) as (E1 & E2 & E3 & E4).
  by rewrite E1, E4, E3, E2, Hleak.
Qed.

(** A bucket touched at this instant is not swept at it. *)
Lemma minuteSweep_now st key b :
  buckets st !! key = Some b -> at_ b = now -> buckets (minuteSweep cfg st now) !! key = Some b.
Proof.
  intros L A. unfold minuteSweep. case_match; [|done]. cbn [buckets].
  apply sweep_lookup. split; [done|]. rewrite A, dsub_self by done.
  unfold dmax. case_match; [|done].
  assert (K : (0 <? 60)%D = true) by reflexivity. revert K. dorder.
Qed.

Lemma checkKey_now st key k ka draw :
  buckets st !! key = Some (MkBucket (d_of_Z k) now ka) ->
  fst (checkKey cfg st key now draw) = fst (spend cfg (MkBucket (d_of_Z k) now ka) now draw) /\
  buckets (snd (checkKey cfg st key now draw)) !! key =
    Some (snd (spend cfg (MkBucket (d_of_Z k) now ka) now draw)).
Proof.
  intros L. unfold checkKey. rewrite (minuteSweep_now _ _ _ L eq_refl).
  destruct (spend _ _ _ _) as [v b']. cbn. by rewrite lookup_insert_eq.
Qed.

Lemma kod_gap_now : (now - now >=? dmax 1 (intervalSec cfg))%D = false.
Proof.
  rewrite dsub_self by done. unfold dmax.
  assert (K : (0 <? 1)%D = true) by reflexivity. revert K. case_match; dorder.
Qed.

Lemma kod_gap_first : (now - - infinity >=? dmax 1 (intervalSec cfg))%D = true.
Proof.
  rewrite dsub_neg_infinity by done. apply dle_infinity. unfold dmax. case_match; [|reflexivity].
  by apply disfinite_nan.
Qed.

Fixpoint keyRun (st : Limiter) (key : BucketKey) (draws : list double) : list RateVerdict :=
  match draws with
  | [] => []
  | d :: draws => fst (checkKey cfg st key now d) :: keyRun (snd (checkKey cfg st key now d)) key draws
  end.

Lemma keyRun_silent draws : forall st key ka,
  buckets st !! key = Some (MkBucket (d_of_Z 0) now ka) ->
  kod cfg && (now - ka >=? dmax 1 (intervalSec cfg))%D = false ->
  keyRun st key draws = map (fun _ => VDrop) draws.
Proof.
  induction draws as [|d draws IH]; intros st key ka L K; cbn [keyRun map]; [done|].
  destruct (checkKey_now st key 0 ka d L) as [-> L2].
  rewrite spend_now, K in L2 by lia. rewrite spend_now, K by lia. cbn in *. f_equal. by apply (IH _ _ ka).
Qed.

Lemma keyRun_burst draws : forall st key k,
  Z.of_nat k <= burst cfg ->
  buckets st !! key = Some (MkBucket (d_of_Z (Z.of_nat k)) now (- infinity)%D) ->
  keyRun st key draws = map (burstVerdict (kod cfg) k) (seq 0 (length draws)).
Proof.
  induction draws as [|d draws IH]; intros st key k Hk L; cbn [keyRun map length seq]; [done|].
  destruct (checkKey_now st key _ _ d L) as [-> L2]. rewrite spend_now in * by lia.
  rewrite kod_gap_first, andb_true_r in *. destruct k as [|k].
  - cbn [Z.of_nat] in *. change (1 <=? 0) with false in *. cbn match in *.
    assert (S : map (burstVerdict (kod cfg) 0) (seq 1 (length draws)) = map (fun _ => VDrop) draws).
    { rewrite <- seq_shift, map_map. unfold burstVerdict. cbn. rewrite andb_false_r.
      clear. generalize 0%nat. induction draws; intros n; cbn; f_equal; auto. }
    rewrite S. unfold burstVerdict. cbn. rewrite andb_true_r. destruct (kod cfg) eqn:Ek; cbn [fst snd] in *.
    + f_equal. eapply keyRun_silent; [exact L2|]. rewrite Ek. cbn. apply kod_gap_now.
    + f_equal. eapply keyRun_silent; [exact L2|]. by rewrite Ek.
  - replace (1 <=? Z.of_nat (S k)) with true in * by (symmetry; apply Z.leb_le; lia).
    cbn match in *. cbn [fst snd] in *. f_equal.
    replace (Z.of_nat (S k) - 1) with (Z.of_nat k) in L2 by lia.
    rewrite (IH _ key k) by (done || lia). rewrite <- seq_shift, map_map.
    apply map_ext. intros i. unfold burstVerdict. reflexivity.
Qed.

Lemma admit_new_lookup st key :
  tracked (buckets st) < kMaxBuckets ->
  buckets (admit_new cfg st key now) !! key = Some (MkBucket (d_of_Z (burst cfg) - 1)%D now (- infinity)%D).
Proof.
  intros T. unfold admit_new. rewrite (proj2 (Z.leb_gt _ _) T). cbn. by rewrite lookup_insert_eq.
Qed.

(** A client not seen before, with room for it. *)
Lemma keyRun_first st key draws :
  buckets st !! key = None -> tracked (buckets st) < kMaxBuckets ->
  keyRun st key draws = map (burstVerdict (kod cfg) (Z.to_nat (burst cfg))) (seq 0 (length draws)).
Proof.
  intros N T. destruct draws as [|d draws]; [done|]. cbn [keyRun length seq map].
  assert (N' : buckets (minuteSweep cfg st now) !! key = None).
  { unfold minuteSweep. case_match; [|done]. cbn [buckets].
    destruct (sweep _ _ _ !! key) eqn:E; [|done]. apply sweep_lookup in E as [E _]. congruence. }
  assert (T' : tracked (buckets (minuteSweep cfg st now)) < kMaxBuckets).
  { unfold minuteSweep. case_match; [|done]. cbn. eapply Z.le_lt_trans; [apply sweep_size|done]. }
  unfold checkKey at 1 2. rewrite N'. cbn [fst snd].
  destruct (burst_facts (burst cfg) (burst cfg) ltac:(lia) ltac:(lia)) as (_ & E & _ & _).
  assert (P : Z.of_nat (Z.to_nat (burst cfg - 1)) = burst cfg - 1) by lia.
  rewrite (keyRun_burst draws _ key (Z.to_nat (burst cfg - 1))).
  - replace (Z.to_nat (burst cfg)) with (S (Z.to_nat (burst cfg - 1))) by lia.
    rewrite <- seq_shift, map_map. reflexivity.
  - lia.
  - rewrite admit_new_lookup by done. by rewrite P, E.
Qed.
End Burst.

(** *** The spacing of the kisses *)

(** The clock never runs backwards over the calls. *)
Fixpoint timesFrom (m : double) (calls : list (SockAddr * double * double)) : Prop :=
  match calls with
  | [] => True
  | (_, now, _) :: calls => (m <=? now)%D = true /\ timesFrom now calls
  end.

(** The kisses a run sent: to whom and when. *)
Definition kodsOf (cfg : RateLimitConfig) (calls : list (SockAddr * double * double))
    (vs : list RateVerdict) : list (BucketKey * double) :=
  omap (fun '((from, now, _), v) =>
          if bool_decide (v = VKod) then Some (keyOf cfg (ipAddrOf from), now) else None)
       (zip calls vs).

(** Between [t] and [m] the clock was seen to advance by the kiss interval. *)
Definition kodSpaced (cfg : RateLimitConfig) (t m : double) : Prop :=
  exists s e, (t <=? s)%D = true /\ (e <=? m)%D = true /\
              (dmax 1 (intervalSec cfg) <=? e - s)%D = true.

Section Kods.
Context (cfg : RateLimitConfig).
Context (Hfull : (dmax 1 (intervalSec cfg) <=? full cfg)%D = true).

(** Every kiss so far is either remembered by its client's bucket, or long
    enough ago. *)
Definition kodInv (st : Limiter) (seen : list (BucketKey * double)) (m : double) : Prop :=
  (forall key b, buckets st !! key = Some b -> (at_ b <=? m)%D = true) /\
  Forall (fun kt : BucketKey * double =>
    (exists b, buckets st !! fst kt = Some b /\ (snd kt <=? kodAt b)%D = true /\
               (kodAt b <=? at_ b)%D = true) \/
    kodSpaced cfg (snd kt) m) seen.

Lemma kodSpaced_later t m m' : kodSpaced cfg t m -> (m <=? m')%D = true -> kodSpaced cfg t m'.
Proof. intros (s & e & ? & ? & ?) ?. exists s, e. repeat split; try done. by eapply dleb_trans. Qed.

Lemma kodInv_later st seen m m' : kodInv st seen m -> (m <=? m')%D = true -> kodInv st seen m'.
Proof.
  intros [A S] L. split.
  - intros key b Hb. eapply dleb_trans; [by eapply A|done].
  - eapply Forall_impl; [exact S|]. intros kt [?|?]; [by left|right]. by eapply kodSpaced_later.
Qed.

Lemma kodInv_sweep st seen now idle t :
  kodInv st seen now -> (now <=? now)%D = true -> (dmax 1 (intervalSec cfg) <=? idle)%D = true ->
  kodInv (MkLimiter (sweep now idle (buckets st)) t) seen now.
Proof.
  intros [A S] Hn L. split; cbn [buckets].
  - intros key b [Hb _]%sweep_lookup. by eapply A.
  - eapply Forall_impl; [exact S|]. intros [k u] [(b & Hb & L1 & L2)|?]; [|by right]. cbn [fst snd] in *.
    destruct (idle <? now - at_ b)%D eqn:E.
    + right. exists (at_ b), now. repeat split; [by eapply dleb_trans|done|].
      revert L E. clear. generalize (now - at_ b)%D (dmax 1 (intervalSec cfg)). dorder.
    + left. exists b. repeat split; try done. by apply sweep_lookup.
Qed.

Lemma full_idle : (dmax 1 (intervalSec cfg) <=? dmax 60 (full cfg))%D = true.
Proof.
  eapply dleb_trans; [exact Hfull|]. revert Hfull. generalize (full cfg) as f. intros f L.
  unfold dmax. assert (N : (60 <=? 60)%D = true) by reflexivity. revert L N. clear.
  generalize 60%D as c, (dmax 1 (intervalSec cfg)) as d. intros. destruct (c <? f)%D eqn:E; revert L N E; dorder.
Qed.

Lemma kodInv_minuteSweep st seen now :
  kodInv st seen now -> (now <=? now)%D = true -> kodInv (minuteSweep cfg st now) seen now.
Proof.
  intros I Hn. unfold minuteSweep. case_match; [|done]. apply kodInv_sweep; [done..|apply full_idle].
Qed.

(** A bucket for a client that had none: its earlier kisses were spaced. *)
Lemma kodInv_add st seen now key b :
  kodInv st seen now -> buckets st !! key = None -> (at_ b <=? now)%D = true ->
  kodInv (MkLimiter (<[key := b]> (buckets st)) (lastSweep st)) seen now.
Proof.
  intros [A S] N L. split; cbn [buckets].
  - intros k b'. rewrite lookup_insert. case_decide; [by intros [= <-]|]. by apply A.
  - eapply Forall_impl; [exact S|]. intros [k u] [(b' & Hb & H12)|?]; [left|by right].
    exists b'. split; [|done]. cbn [fst] in *. rewrite lookup_insert_ne; [done|congruence].
Qed.

Lemma kodInv_admit st seen now key :
  kodInv st seen now -> buckets st !! key = None -> (now <=? now)%D = true ->
  kodInv (admit_new cfg st key now) seen now.
Proof.
  intros I N Hn. unfold admit_new.
  assert (N' : buckets (MkLimiter (sweep now (full cfg) (buckets st)) now) !! key = None).
  { cbn [buckets]. destruct (sweep _ _ _ !! key) eqn:E; [|done]. apply sweep_lookup in E as [E _]. congruence. }
  repeat case_match; try done; try (by apply kodInv_add);
    try (apply (kodInv_add (MkLimiter _ _))); try apply kodInv_sweep; done.
Qed.

(** A client with a bucket: a kiss it is sent is spaced from its earlier ones. *)
Lemma kodInv_spend st seen now key b draw :
  kodInv st seen now -> buckets st !! key = Some b -> (now <=? now)%D = true ->
  let '(v, b') := spend cfg b now draw in
  let st' := MkLimiter (<[key := b']> (buckets st)) (lastSweep st) in
  (v <> VKod -> kodInv st' seen now) /\
  (v = VKod -> Forall (fun kt => fst kt = key -> kodSpaced cfg (snd kt) now) seen /\
               kodInv st' ((key, now) :: seen) now).
Proof.
  intros [A S] Hb Hn. pose proof (A key b Hb) as Ab.
  assert (Keep : forall b', at_ b' = now -> kodAt b' = kodAt b ->
    kodInv (MkLimiter (<[key := b']> (buckets st)) (lastSweep st)) seen now).
  { intros b' Ha Hk. split; cbn [buckets].
    - intros k x. rewrite lookup_insert. case_decide; [|by apply A]. intros [= <-]. by rewrite Ha.
    - eapply Forall_impl; [exact S|]. intros [k u] [(x & Hx & L1 & L2)|?]; [left|by right]. cbn [fst snd] in *.
      destruct (decide (key = k)) as [<-|Nk].
      + exists b'. rewrite lookup_insert_eq, Ha, Hk. assert (x = b) as -> by congruence.
        repeat split; try done. by eapply dleb_trans.
      + exists x. by rewrite lookup_insert_ne. }
  unfold spend. cbn zeta.
  set (t := dmin _ _). destruct (1 <=? t)%D; [by split; [intros _; apply Keep|]|].
  destruct (_ && _); [by split; [intros _; apply Keep|]|].
  destruct (kod cfg && _) eqn:K; [|by split; [intros _; apply Keep|]].
  split; [done|]. intros _. apply andb_true_iff in K as [_ K]. split.
  - eapply Forall_impl; [exact S|]. intros [k u] [(x & Hx & L1 & L2)|Sp]; cbn [fst snd] in *; [|done].
    intros ->. assert (x = b) as -> by congruence. exists (kodAt b), now. done.
  - split; cbn [buckets].
    + intros k x. rewrite lookup_insert. case_decide; [|by apply A]. by intros [= <-].
    + constructor.
      * left. eexists. cbn [fst snd]. rewrite lookup_insert_eq. done.
      * eapply Forall_impl; [exact S|]. intros [k u] [(x & Hx & L1 & L2)|?]; [|by right]. cbn [fst snd] in *.
        destruct (decide (key = k)) as [<-|Nk].
        -- right. assert (x = b) as -> by congruence. exists (kodAt b), now. done.
        -- left. exists x. by rewrite lookup_insert_ne.
Qed.
End Kods.

Section KodRuns.
Context `{Inet} (cfg : RateLimitConfig).
Context (Hfull : (dmax 1 (intervalSec cfg) <=? full cfg)%D = true).

Abbreviation keyFrom from := (keyOf cfg (ipAddrOf from)).

Lemma kodInv_check st seen m from now draw :
  kodInv cfg st seen m -> (m <=? now)%D = true ->
  let '(v, st') := check cfg st from now draw in
  (v <> VKod -> kodInv cfg st' seen now) /\
  (v = VKod -> Forall (fun kt => fst kt = keyFrom from -> kodSpaced cfg (snd kt) now) seen /\
               kodInv cfg st' ((keyFrom from, now) :: seen) now).
Proof.
  intros I L. pose proof (kodInv_later cfg st seen m now I L) as I'.
  assert (Hn : (now <=? now)%D = true) by (revert L; clear; dorder).
  unfold check. destruct (intervalSec cfg <=? 0)%D; [done|].
  assert (K : let '(v, st') := checkKey cfg st (keyFrom from) now draw in
    (v <> VKod -> kodInv cfg st' seen now) /\
    (v = VKod -> Forall (fun kt => fst kt = keyFrom from -> kodSpaced cfg (snd kt) now) seen /\
               kodInv cfg st' ((keyFrom from, now) :: seen) now)).
  { unfold checkKey. pose proof (kodInv_minuteSweep cfg Hfull st seen now I' Hn) as I2.
    destruct (buckets (minuteSweep cfg st now) !! keyFrom from) as [b|] eqn:E.
    - pose proof (kodInv_spend cfg (minuteSweep cfg st now) seen now _ b draw I2 E Hn) as R.
      by destruct (spend cfg b now draw).
    - split; [|done]. intros _. by apply kodInv_admit. }
  destruct (family (ipAddrOf from)); [done|..]; destruct (existsb _ _); done.
Qed.

Lemma kodInv_checks calls : forall st seen m,
  kodInv cfg st seen m -> timesFrom m calls ->
  StronglySorted (fun a b => fst a = fst b -> kodSpaced cfg (snd a) (snd b))
    (kodsOf cfg calls (fst (checks cfg st calls))) /\
  Forall (fun kt => Forall (fun b : BucketKey * double => fst kt = fst b -> kodSpaced cfg (snd kt) (snd b))
    (kodsOf cfg calls (fst (checks cfg st calls)))) seen.
Proof.
  induction calls as [|[[from now] draw] calls IH]; intros st seen m I T.
  { split; [constructor|]. apply List.Forall_forall. constructor. }
  destruct T as [L T]. cbn [checks].
  pose proof (kodInv_check st seen m from now draw I L) as R.
  destruct (check cfg st from now draw) as [v st']. destruct R as [R1 R2].
  unfold kodsOf. destruct (checks cfg st' calls) as [vs st''] eqn:E. cbn [fst zip_with omap list_omap].
  destruct (decide (v = VKod)) as [->|N].
  - rewrite bool_decide_eq_true_2 by done. destruct (R2 eq_refl) as [Sp I'].
    destruct (IH st' _ now I' T) as [Hs Hf]. rewrite E in Hs, Hf. cbn [fst] in *.
    apply Forall_cons in Hf as [Hh Hf]. split; [by constructor|].
    rewrite List.Forall_forall in Sp, Hf |- *. intros kt Hkt. constructor; [by apply Sp|by apply Hf].
  - rewrite bool_decide_eq_false_2 by done.
    destruct (IH st' _ now (R1 N) T) as [Hs Hf]. rewrite E in Hs, Hf. done.
Qed.

Lemma checks_keyRun st from now draws :
  (intervalSec cfg <=? 0)%D = false -> family (ipAddrOf from) <> FamNone ->
  existsb (fun p => contains p (ipAddrOf from)) (exemptOf cfg) = false ->
  fst (checks cfg st (map (fun d => (from, now, d)) draws)) = keyRun cfg now st (keyFrom from) draws.
Proof.
  intros Hi Hf He. revert st. induction draws as [|d draws IH]; intros st; cbn [map checks keyRun]; [done|].
  assert (C : check cfg st from now d = checkKey cfg st (keyFrom from) now d).
  { unfold check. rewrite Hi, He. by destruct (family (ipAddrOf from)). }
  rewrite C. destruct (checkKey cfg st (keyFrom from) now d) as [v st'] eqn:E. cbn [fst snd].
  specialize (IH st'). destruct (checks cfg st' _) as [vs st'']. cbn in *. by rewrite IH.
Qed.
End KodRuns.

(** ** Properties *)

(** Whatever requests come, from however many addresses, the limiter never
    tracks more than [kMaxBuckets] clients. *)
Theorem limiter_bounded `{Inet} (cfg : RateLimitConfig) (calls : list (SockAddr * double * double)) :
  tracked (buckets (snd (checks cfg newLimiter calls))) <= kMaxBuckets.
Proof. apply checks_size. cbn. unfold tracked. by rewrite map_size_empty. Qed.

(** Whether the limit applies to a client: it is on, the client's address is an
    IPv4 or IPv6 one, and no exempt prefix holds it. *)
Definition limited `{Inet} (cfg : RateLimitConfig) (from : SockAddr) : bool :=
  negb (intervalSec cfg =? 0)%D && negb (bool_decide (family (ipAddrOf from) = FamNone)) &&
  negb (existsb (fun p => contains p (ipAddrOf from)) (exemptOf cfg)).
Lemma checks_unlimited `{Inet} cfg from now draws : limited cfg from = false -> forall st,
  fst (checks cfg st (map (fun d => (from, now, d)) draws)) = repeat VAnswer (length draws).
Proof.
  intros L. assert (C : forall st d, check cfg st from now d = (VAnswer, st)).
  { intros st d. unfold check. destruct (intervalSec cfg <=? 0)%D eqn:E; [done|]. unfold limited in L.
    assert (Nz : (intervalSec cfg =? 0)%D = false) by (revert E; clear; dorder). rewrite Nz in L. cbn [negb andb] in L.
    case_bool_decide as F; [by rewrite F|]. cbn [negb andb] in L. apply negb_false_iff in L. rewrite L. by destruct (family (ipAddrOf from)). }
  induction draws as [|d draws IH]; intros st; [done|]. cbn [map checks]. rewrite C. specialize (IH st).
  destruct (checks cfg st (map _ draws)) as [vs st']. cbn in *. by rewrite IH.
Qed.

(** C34: a client the limiter has not seen, with room for it and any valid
    configuration without a leak, sends any number of requests at one finite instant. If
    the limit is off, or the client is exempt or of no known address family, all
    are answered; otherwise exactly the first [burst] of them are, the next gets
    the one kiss-o'-death, if those are on, and the rest get silence. The double
    arithmetic of the bucket is exact throughout. *)
Theorem burst_verdicts `{Inet} (cfg : RateLimitConfig) (st : Limiter) (from : SockAddr)
    (now : double) (draws : list double) :
  rateLimitValid cfg = true -> leak cfg = 0%D -> disfinite now = true ->
  buckets st !! keyOf cfg (ipAddrOf from) = None -> tracked (buckets st) < kMaxBuckets ->
  fst (checks cfg st (map (fun d => (from, now, d)) draws)) =
  if limited cfg from then map (burstVerdict (kod cfg) (Z.to_nat (burst cfg))) (seq 0 (length draws))
  else repeat VAnswer (length draws).
Proof.
  intros V Lk Hn Hb Hr. destruct (limited cfg from) eqn:L; [|by apply checks_unlimited].
  unfold limited in L. rewrite !andb_true_iff, !negb_true_iff, bool_decide_eq_false in L. destruct L as [[Nz Hf] He].
  unfold rateLimitValid in V.
  repeat match goal with V : _ && _ = true |- _ => apply andb_true_iff in V as [V ?] end.
  assert (Hpos : (0 <? intervalSec cfg)%D = true).
  { match goal with E : negb (negb _ && _) = true |- _ => rewrite Nz in E; cbn in E;
      apply negb_true_iff, orb_false_iff in E as [E _]; revert E end.
    assert (K : (0 <? 0.01)%D = true) by reflexivity. pose proof (disfinite_nan _ V) as N. revert K N.
    unfold dnan. generalize 0.01%D as c. dorder. }
  assert (Hbr : 1 <= burst cfg <= 255).
  { repeat match goal with E : negb (_ || _) = true |- _ =>
      apply negb_true_iff, orb_false_iff in E as [? ?] end. lia. }
  rewrite checks_keyRun; [|revert Hpos; clear; dorder|done..]. by apply keyRun_first.
Qed.

(** no client is sent two kisses-o'-death closer together than the kiss
    interval (the average interval, and at least a second) by the clock the
    calls carry, even across the sweeps that forget its bucket: as long as a
    full bucket takes that long to fill, which the configuration
    [max(1, interval) <= burst * interval] says. *)
Theorem kod_spacing `{Inet} (cfg : RateLimitConfig) (calls : list (SockAddr * double * double)) (m : double) :
  (dmax 1 (intervalSec cfg) <=? full cfg)%D = true ->
  timesFrom m calls ->
  StronglySorted (fun a b => fst a = fst b -> kodSpaced cfg (snd a) (snd b))
    (kodsOf cfg calls (fst (checks cfg newLimiter calls))).
Proof.
  intros Hfull T. eapply kodInv_checks; [done| |done].
  split; [|constructor]. intros key b Hb. cbn in Hb. by rewrite lookup_empty in Hb.
Qed.

(** *** Witnesses *)

Lemma burst_verdicts_witness :
  fst (@checks demoInet defaultRateLimit newLimiter
         (map (fun d => (SaInet [192;0;2;7], 5%D, d)) (repeat 0%D 10))) =
  [VAnswer; VAnswer; VAnswer; VAnswer; VAnswer; VAnswer; VAnswer; VAnswer; VKod; VDrop].
Proof.
  exact (@burst_verdicts demoInet defaultRateLimit newLimiter (SaInet [192;0;2;7]) 5%D (repeat 0%D 10)
    eq_refl eq_refl eq_refl ltac:(vm_compute; reflexivity) ltac:(vm_compute; reflexivity)).
Defined.

(** Two kisses to one client, the burst forgotten and spent again in between. *)
Definition demoFlood : list (SockAddr * double * double) :=
  map (fun t => (SaInet [192;0;2;7], t, 0%D)) (repeat 5%D 9 ++ repeat 100%D 9).

Lemma kod_spacing_witness :
  length (kodsOf defaultRateLimit demoFlood (fst (@checks demoInet defaultRateLimit newLimiter demoFlood))) = 2%nat /\
  StronglySorted (fun a b => fst a = fst b -> kodSpaced defaultRateLimit (snd a) (snd b))
    (kodsOf defaultRateLimit demoFlood (fst (@checks demoInet defaultRateLimit newLimiter demoFlood))).
Proof.
  split; [vm_compute; reflexivity|].
  apply (@kod_spacing demoInet defaultRateLimit demoFlood 0%D); [reflexivity|].
  cbn. repeat split; reflexivity.
Defined.
