(* ===== verification/TimeContinuity.v ===== *)
(** * A source checking itself (src/TimeContinuity.cpp)
    A decoded time is judged against the source's own history: accepted when it
    continues it, refused when it jumps, and a jump adopted only once it has
    held. The state is the members of the class. *)

From Stdlib Require Import ZArith Lia List Bool Floats.
From stdpp Require Import base list.
From S2P Require Import Prelude Doubles.

#[local] Open Scope Z_scope.

Definition kJumpLimitSec : double := 0.5%D.
Definition kDriftPpm : double := 50%D.
Definition kAgreeSec : double := 0.25%D.
Definition kFirstReadings : Z := 3.
Definition kFirstSpanSec : double := 115%D.
Definition kAdoptReadings : Z := 6.
Definition kAdoptSpanSec : double := 600%D.

Inductive Outcome := Accepted | FirstConfirmed | Confirming | Refused | Adopted | LeapSecond.
#[export] Instance Outcome_eq_dec : EqDecision Outcome.
Proof. solve_decision. Defined.

Record Verdict := MkVerdict { outcome : Outcome; jumpSec : double; readings : Z; spanSec : double }.

Definition discardFiltered (v : Verdict) : bool :=
  match outcome v with Adopted | LeapSecond => true | _ => false end.
Definition admittedO (o : Outcome) : bool :=
  match o with Confirming | Refused => false | _ => true end.
Definition admitted (v : Verdict) : bool := admittedO (outcome v).

Record Continuity := MkContinuity {
  m_have : bool; m_offset : double; m_rate : double; m_at : double;
  m_pending : bool; m_pendingOffset : double; m_pendingFirstAt : double;
  m_pendingLastAt : double; m_pendingReadings : Z
}.
Definition newContinuity : Continuity :=
  MkContinuity false 0 0 0 false 0 0 0 0.

(** Two readings of one new time: the earlier, then the later. *)
Definition agrees (off0 at0 off at1 : double) : bool :=
  (dabs (off - off0) <=? kAgreeSec + dabs (at1 - at0) * kDriftPpm * 1e-6)%D.

Definition notePending (c : Continuity) (offsetSec atSec : double) : Continuity :=
  let ok := m_pending c && agrees (m_pendingOffset c) (m_pendingLastAt c) offsetSec atSec in
  let first := if ok then m_pendingFirstAt c else atSec in
  let n := if ok then m_pendingReadings c else 0 in
  MkContinuity (m_have c) (m_offset c) (m_rate c) (m_at c) true offsetSec first atSec (n + 1).

Definition startHistory (c : Continuity) (offsetSec atSec : double) : Continuity :=
  MkContinuity true offsetSec (m_rate c) atSec
    false (m_pendingOffset c) (m_pendingFirstAt c) (m_pendingLastAt c) 0.

(** How far a reading lands from where the history puts it, and how far it may. *)
Definition jumpOf (c : Continuity) (offsetSec atSec : double) : double :=
  (offsetSec - (m_offset c + m_rate c * (atSec - m_at c)))%D.
Definition jumpLimit (c : Continuity) (atSec : double) : double :=
  (kJumpLimitSec + dabs (atSec - m_at c) * kDriftPpm * 1e-6)%D.

Definition judge (c : Continuity) (off at1 : double) (leapWindow : bool) : Verdict * Continuity :=
  if negb (m_have c) then
    let c := notePending c off at1 in
    let n := m_pendingReadings c in
    let span := (m_pendingLastAt c - m_pendingFirstAt c)%D in
    if (kFirstReadings <=? n) && (kFirstSpanSec <=? span)%D
    then (MkVerdict FirstConfirmed 0 n span, startHistory c off at1)
    else (MkVerdict Confirming 0 n span, c)
  else
    let jump := jumpOf c off at1 in
    if (dabs jump <=? jumpLimit c at1)%D then
      (MkVerdict Accepted jump 0 0,
       MkContinuity (m_have c) (m_offset c) (m_rate c) (m_at c)
         false (m_pendingOffset c) (m_pendingFirstAt c) (m_pendingLastAt c) 0)
    else if leapWindow && (dabs (dabs jump - 1) <=? kAgreeSec)%D then
      (MkVerdict LeapSecond jump 0 0, startHistory c off at1)
    else
      let c := notePending c off at1 in
      let n := m_pendingReadings c in
      let span := (m_pendingLastAt c - m_pendingFirstAt c)%D in
      if (kAdoptReadings <=? n) && (kAdoptSpanSec <=? span)%D
      then (MkVerdict Adopted jump n span, startHistory c off at1)
      else (MkVerdict Refused jump n span, c).

Definition noteFiltered (c : Continuity) (offsetSec rate atSec : double) : Continuity :=
  MkContinuity true offsetSec rate atSec
    (m_pending c) (m_pendingOffset c) (m_pendingFirstAt c) (m_pendingLastAt c) (m_pendingReadings c).

(** ** Runs: what the owner does with the class *)

Inductive Event :=
| Judge (off at1 : double) (leapWindow : bool)
| Filtered (off rate at1 : double).

(** A run keeps a log of what was judged, and how, and of what was filtered, newest
    first. *)
Record Judged := MkJudged { j_off : double; j_at : double; j_outcome : Outcome }.
Inductive LogItem := Reading (r : Judged) | History (off rate at1 : double).

Definition stepEvent (cl : Continuity * list LogItem) (e : Event) : Continuity * list LogItem :=
  let '(c, log) := cl in
  match e with
  | Judge off at1 lw => let '(v, c') := judge c off at1 lw in (c', Reading (MkJudged off at1 (outcome v)) :: log)
  | Filtered off rate at1 => (noteFiltered c off rate at1, History off rate at1 :: log)
  end.
Definition runEvents (es : list Event) : Continuity * list LogItem := fold_left stepEvent es (newContinuity, []).

(** ** The verdict by the log *)

Definition startsHistory (o : Outcome) : bool :=
  match o with FirstConfirmed | Adopted | LeapSecond => true | _ => false end.
(** The rate last filtered. *)
Fixpoint rateOf (log : list LogItem) : double :=
  match log with [] => 0%D | History _ rate _ :: _ => rate | Reading _ :: log => rateOf log end.
(** The history: the last offset filtered, or the last reading that replaced it. *)
Fixpoint historyOf (log : list LogItem) : option (double * double * double) :=
  match log with
  | [] => None
  | History off rate at1 :: _ => Some (off, rate, at1)
  | Reading r :: log => if startsHistory (j_outcome r) then Some (j_off r, rateOf log, j_at r) else historyOf log
  end.
Definition readingsOf (log : list LogItem) : list Judged := omap (fun e => match e with Reading r => Some r | _ => None end) log.
(** The readings a time has held for: back from [at1], none admitted, each agreeing
    with the one after it. What was filtered in between does not break them off. *)
Fixpoint heldBefore (off at1 : double) (rs : list Judged) : list Judged :=
  match rs with
  | [] => []
  | r :: rs =>
      if negb (admittedO (j_outcome r)) && agrees (j_off r) (j_at r) off at1 then r :: heldBefore (j_off r) (j_at r) rs else []
  end.
(** Whether a time has held for so many readings, this one included, and so long. *)
Definition hasHeld (n : Z) (span off at1 : double) (rs : list Judged) : bool :=
  let run := heldBefore off at1 rs in
  (n <=? Z.of_nat (length run) + 1) && (span <=? at1 - match last run with Some r => j_at r | None => at1 end)%D.

Definition saidOf (log : list LogItem) (off at1 : double) (leapWindow : bool) : Outcome :=
  match historyOf log with
  | None => if hasHeld 3 115%D off at1 (readingsOf log) then FirstConfirmed else Confirming
  | Some (o, rate, t) =>
      let jump := (off - (o + rate * (at1 - t)))%D in
      if (dabs jump <=? 0.5 + dabs (at1 - t) * 50 * 1e-6)%D then Accepted
      else if leapWindow && (dabs (dabs jump - 1) <=? 0.25)%D then LeapSecond
      else if hasHeld 6 600%D off at1 (readingsOf log) then Adopted
      else Refused
  end.

(** ** Lemmas *)

(** The pending fields stand for a run of readings, newest first. *)
Definition pendRep (c : Continuity) (run : list Judged) : Prop :=
  m_pendingReadings c = Z.of_nat (length run) /\
  match run with
  | [] => m_pending c = false
  | r :: _ =>
      m_pending c = true /\ m_pendingOffset c = j_off r /\ m_pendingLastAt c = j_at r /\
      Some (m_pendingFirstAt c) = option_map j_at (last run)
  end.
(** The run pending after these readings. *)
Definition pendingRun (rs : list Judged) : list Judged :=
  match rs with
  | [] => []
  | r :: rs => if admittedO (j_outcome r) then [] else r :: heldBefore (j_off r) (j_at r) rs
  end.
Lemma heldBefore_pending off at1 rs : heldBefore off at1 rs =
  match pendingRun rs with r :: run => if agrees (j_off r) (j_at r) off at1 then r :: run else [] | [] => [] end.
Proof. destruct rs as [|r rs]; [done|]. cbn. by destruct (admittedO (j_outcome r)). Qed.

(** A reading noted extends the run it agrees with, or begins one. *)
Lemma notePending_rep c rs r :
  pendRep c (pendingRun rs) -> pendRep (notePending c (j_off r) (j_at r)) (r :: heldBefore (j_off r) (j_at r) rs).
Proof.
  intros [N R]. rewrite heldBefore_pending. unfold notePending. cbv zeta. destruct (pendingRun rs) as [|r0 run].
  - rewrite R. done.
  - destruct R as (P & O & L & F). rewrite P, O, L, N. cbn [andb]. destruct (agrees _ _ _ _); [|done].
    split; cbn [m_pendingReadings m_pending m_pendingOffset m_pendingLastAt m_pendingFirstAt]; [cbn [length]; lia|].
    rewrite F. done.
Qed.
Lemma notePending_hist c off at1 :
  let c' := notePending c off at1 in m_have c' = m_have c /\ m_offset c' = m_offset c /\ m_rate c' = m_rate c /\ m_at c' = m_at c.
Proof. done. Qed.

(** The fields, and the log they stand for. *)
Definition logged (cl : Continuity * list LogItem) : Prop :=
  let '(c, log) := cl in
  pendRep c (pendingRun (readingsOf log)) /\ m_rate c = rateOf log /\
  match historyOf log with
  | None => m_have c = false
  | Some (o, rate, t) => m_have c = true /\ m_offset c = o /\ m_rate c = rate /\ m_at c = t
  end.
Lemma held_pending c rs r n span :
  pendRep c (r :: heldBefore (j_off r) (j_at r) rs) ->
  (n <=? m_pendingReadings c) && (span <=? m_pendingLastAt c - m_pendingFirstAt c)%D = hasHeld n span (j_off r) (j_at r) rs.
Proof.
  intros (N & _ & _ & L & F). unfold hasHeld. rewrite N, L. cbn [length]. f_equal; [f_equal; lia|].
  rewrite last_cons in F. destruct (last (heldBefore _ _ rs)); by injection F as ->.
Qed.
Lemma judge_logged c log off at1 lw : logged (c, log) ->
  let '(v, c') := judge c off at1 lw in
  outcome v = saidOf log off at1 lw /\ logged (c', Reading (MkJudged off at1 (outcome v)) :: log).
Proof.
  intros (P & Rt & H). pose proof (notePending_rep c (readingsOf log) (MkJudged off at1 Refused) P) as Pr.
  pose proof (held_pending _ _ _ kFirstReadings kFirstSpanSec Pr) as H1. pose proof (held_pending _ _ _ kAdoptReadings kAdoptSpanSec Pr) as H2.
  cbn [j_off j_at] in *. unfold judge, saidOf. destruct (historyOf log) as [[[o rate] t]|] eqn:Hi.
  - destruct H as (Hh & <- & <- & <-). rewrite Hh. cbn [negb]. fold (jumpOf c off at1). fold (jumpLimit c at1).
    unfold kJumpLimitSec, kDriftPpm, kAgreeSec, jumpLimit in *.
    destruct (dabs (jumpOf c off at1) <=? _)%D; [split; [done|]; split; [done|]; split; [done|]; cbn [historyOf startsHistory j_outcome outcome]; by rewrite Hi|].
    destruct (lw && _); [by repeat split|]. rewrite H2.
    change (hasHeld kAdoptReadings kAdoptSpanSec) with (hasHeld 6 600%D). destruct (hasHeld 6 600%D off at1 (readingsOf log)); cbn [outcome].
    + by repeat split.
    + split; [done|]. split; [exact Pr|]. split; [done|]. cbn [historyOf startsHistory j_outcome]. by rewrite Hi.
  - rewrite H. cbn [negb]. rewrite H1. change (hasHeld kFirstReadings kFirstSpanSec) with (hasHeld 3 115%D).
    destruct (hasHeld 3 115%D off at1 (readingsOf log)); cbn [outcome].
    + by repeat split.
    + split; [done|]. split; [exact (notePending_rep c (readingsOf log) (MkJudged off at1 Confirming) P)|]. split; [done|]. cbn [historyOf startsHistory j_outcome]. by rewrite Hi.
Qed.
Lemma runEvents_logged es : logged (runEvents es).
Proof.
  induction es as [|e es IH] using rev_ind; [done|]. unfold runEvents in *. rewrite fold_left_app. cbn [fold_left].
  destruct (fold_left stepEvent es (newContinuity, [])) as [c log]. destruct e as [off at1 lw|off rate at1]; cbn [stepEvent].
  - pose proof (judge_logged c log off at1 lw IH) as J. destruct (judge c off at1 lw). apply J.
  - destruct IH as (P & Rt & _). split; [exact P|]. by repeat split.
Qed.

(** ** Properties *)

(** C31: a verdict is what the log says, whatever was filtered between the readings
    and whenever leap seconds were let through. In any run: with no history yet a
    time is confirmed when it has held for three readings over 115 seconds, and
    waits until then; with one, a reading within half a second and 50 ppm of where
    the history's rate carries it is accepted, one that is a second off in a leap
    window starts the history anew, and any other is refused until it has held for
    six readings over 600 seconds, when it is adopted. A time has held for the
    readings before this one, back to the first that was admitted or disagreed; the
    history is what was last filtered or, if later, the reading that replaced it. *)
Theorem verdict_by_log (es : list Event) (off at1 : double) (leapWindow : bool) :
  let '(c, log) := runEvents es in
  outcome (fst (judge c off at1 leapWindow)) = saidOf log off at1 leapWindow.
Proof.
  pose proof (runEvents_logged es) as L. destruct (runEvents es) as [c log].
  pose proof (judge_logged c log off at1 leapWindow L) as J. destruct (judge c off at1 leapWindow). apply J.
Qed.

(** A source whose readings move by a second for ten minutes, its filter running on
    the old ones, and then by a leap second. *)
Example a_step_and_a_leap :
  let steps := concat (map (fun t => [Filtered 10 0 t; Judge 11 t false]) [60; 120; 240; 360; 480; 600; 720]%D) in
  map (fun e => match e with Reading r => Some (j_outcome r) | _ => None end)
    (rev (snd (runEvents ([Filtered 10 0 0] ++ steps ++ [Judge 11 780 false; Judge 10 840 true])))) =
  None :: concat (map (fun o => [None; Some o]) [Refused; Refused; Refused; Refused; Refused; Refused; Adopted]) ++ [Some Accepted; Some LeapSecond].
Proof. vm_compute. reflexivity. Qed.
