(* ===== verification/TimeFrameVoter.v ===== *)
(** * The cross-frame vote (src/clock/TimeFrameVoter.cpp)
    The last frames of a time code are brought to the newest one's epoch and
    voted on bit by bit; a lock needs the window to agree with itself. Confidences
    are single precision ([Rounding.fround]); [std::pow] is the class [Pow]. *)

From Stdlib Require Import ZArith Lia List Bool Floats.
From stdpp Require Import base list sorting.
From S2P Require Import Prelude Doubles Rounding ClockTypes.

#[local] Open Scope Z_scope.

(** ** Calendar *)

(** Days of the years before [n], of [2000 + n]. *)
Fixpoint daysBefore (n : nat) : Z :=
  match n with O => 0 | S n => daysBefore n + yearLen (Z.of_nat n) end.

Definition minutesSince2000 (t : TimeFields) : Z :=
  let days := daysBefore (Z.to_nat (tf_year2 t)) + (tf_doy t - 1) in
  (days * 24 + tf_hour t) * 60 + tf_minute t.

(** The day-of-year loop of [advanceMinutes]: a year's days are taken off while
    there are more. Each turn takes at least 365, so as many turns as days are
    enough. *)
Fixpoint wrapDoy (fuel : nat) (doy year2 : Z) : Z * Z :=
  match fuel with
  | O => (doy, year2)
  | S fuel =>
      if yearLen year2 <? doy then wrapDoy fuel (doy - yearLen year2) (cmod (year2 + 1) 100)
      else (doy, year2)
  end.

Definition advanceMinutes (t : TimeFields) (minutes : Z) : TimeFields :=
  let minute := tf_minute t + minutes in
  let hour := tf_hour t + cdiv minute 60 in
  let minute := cmod minute 60 in
  let carryDays := cdiv hour 24 in
  let hour := cmod hour 24 in
  let doy := tf_doy t + carryDays in
  let '(doy, year2) := wrapDoy (Z.to_nat doy) doy (tf_year2 t) in
  TF minute hour doy year2.

(** ** Configuration and state *)

Inductive FieldIndex := FieldMinutes | FieldHours | FieldDoy | FieldYear.
#[export] Instance FieldIndex_eq_dec : EqDecision FieldIndex.
Proof. solve_decision. Defined.
Definition allFields : list FieldIndex := [FieldMinutes; FieldHours; FieldDoy; FieldYear].

Definition fieldOf (t : TimeFields) (f : FieldIndex) : Z :=
  match f with
  | FieldMinutes => tf_minute t | FieldHours => tf_hour t
  | FieldDoy => tf_doy t | FieldYear => tf_year2 t
  end.

(** [referenceNow] is what the configured function answers, if there is one. *)
Record Config := MkConfig {
  fields : FieldIndex -> ClockFieldMap;
  window : nat;
  minFramesForLock : Z;
  agingFactor : double;
  minBitConfidence : double;
  minLockQuality : double;
  plausibilityBoundMinutes : Z;
  referenceNow : option TimeFields;
  maxNewestValidAge : Z
}.

(** *** The stations' field maps and voters *)

(** WWV and WWVH, least weight first. *)
Definition wwvFields (fld : FieldIndex) : ClockFieldMap :=
  match fld with
  | FieldMinutes => [BW 10 1; BW 11 2; BW 12 4; BW 13 8; BW 15 10; BW 16 20; BW 17 40]
  | FieldHours => [BW 20 1; BW 21 2; BW 22 4; BW 23 8; BW 25 10; BW 26 20]
  | FieldDoy => [BW 30 1; BW 31 2; BW 32 4; BW 33 8; BW 35 10;
                 BW 36 20; BW 37 40; BW 38 80; BW 40 100; BW 41 200]
  | FieldYear => [BW 4 1; BW 5 2; BW 6 4; BW 7 8; BW 51 10; BW 52 20; BW 53 40; BW 54 80]
  end.

(** WWVB; also the layout of the frames the MSF, DCF77 and Allouis decoders make
    of what they decode. *)
Definition wwvbFields (fld : FieldIndex) : ClockFieldMap :=
  match fld with
  | FieldMinutes => [BW 1 40; BW 2 20; BW 3 10; BW 5 8; BW 6 4; BW 7 2; BW 8 1]
  | FieldHours => [BW 12 20; BW 13 10; BW 15 8; BW 16 4; BW 17 2; BW 18 1]
  | FieldDoy => [BW 22 200; BW 23 100; BW 25 80; BW 26 40; BW 27 20;
                 BW 28 10; BW 30 8; BW 31 4; BW 32 2; BW 33 1]
  | FieldYear => [BW 45 80; BW 46 40; BW 47 20; BW 48 10; BW 50 8; BW 51 4; BW 52 2; BW 53 1]
  end.

(** [makeVoterConfig] of WWV, and [buildVoterConfig] of the others: the
    defaults of [Config] with the two honesty floors. *)
Definition voterConfig (m : FieldIndex -> ClockFieldMap) : Config :=
  MkConfig m 8 2 (fround 0.9) (fround 0.05) (fround 0.05) 0 None 3.
Definition wwvVoter : Config := voterConfig wwvFields.
Definition wwvbVoter : Config := voterConfig wwvbFields.

Record Frame := MkFrame { f_symbols : list ClockSymbol; f_confidence : list double }.

(** The voter's only state: its frames, newest last. *)
Definition addFrame (cfg : Config) (fs : list Frame) (f : Frame) : list Frame :=
  keep_last (window cfg) (fs ++ [f]).
Definition reset (fs : list Frame) : list Frame := [].
Definition setPlausibility (cfg : Config) (ref : option TimeFields) (bound : Z) : Config :=
  MkConfig (fields cfg) (window cfg) (minFramesForLock cfg) (agingFactor cfg) (minBitConfidence cfg)
           (minLockQuality cfg) bound ref (maxNewestValidAge cfg).

Definition inFrame (sec : Z) : bool := (0 <=? sec) && (sec <? 60).
Definition symAt (f : Frame) (sec : Z) : ClockSymbol := nth (Z.to_nat sec) (f_symbols f) SymUnknown.
Definition confAt (f : Frame) (sec : Z) : double := nth (Z.to_nat sec) (f_confidence f) 0%D.

Definition decodeMap (m : ClockFieldMap) (f : Frame) : Z :=
  fold_left (fun v bw => if inFrame (bw_second bw) && symb_eqb (symAt f (bw_second bw)) SymOne
                         then v + bw_weight bw else v) m 0.
Definition decodeField (cfg : Config) (f : Frame) (fld : FieldIndex) : Z := decodeMap (fields cfg fld) f.
Definition decodeMinutes (cfg : Config) (f : Frame) : Z := decodeField cfg f FieldMinutes.

Definition rawFields (cfg : Config) (f : Frame) : TimeFields :=
  TF (decodeField cfg f FieldMinutes) (decodeField cfg f FieldHours)
     (decodeField cfg f FieldDoy) (decodeField cfg f FieldYear).

(** ** Normalised frames *)

Definition f001 : double := fround 0.01.

Class Pow := { powf : double -> double -> double; pow : double -> double -> double }.

Record Bit := MkBit { b_symbol : ClockSymbol; b_conf : double }.
Record NormalizedFrame := MkNF {
  nf_age : Z; nf_valid : bool; nf_mean : double; nf_ext : TimeFields;
  nf_bits : FieldIndex -> list Bit
}.

(** The weakest of some confidences, -1 when there are none. *)
Definition minConf (l : list double) : double :=
  fold_left (fun lo c => if (lo <? 0)%D then c else dmin lo c) l (-1)%D.
Definition floor0 (lo : double) : double := if (lo <? 0)%D then 0%D else lo.

Definition fieldMinConf (f : Frame) (m : ClockFieldMap) : double :=
  dmax (floor0 (minConf (map (confAt f) (filter inFrame (map bw_second m))))) f001.

(** [encodeField]: the weights that fit, largest first. Weights within a map
    are distinct, so the order [std::sort] leaves is the only sorted one. *)
Definition byWeight (m : ClockFieldMap) (a b : nat) : Prop :=
  bw_weight (nth b m (BW 0 0)) <= bw_weight (nth a m (BW 0 0)).
#[export] Instance byWeight_dec m : RelDecision (byWeight m).
Proof. intros a b. unfold byWeight. apply _. Defined.

Definition encodeField (m : ClockFieldMap) (value : Z) : list ClockSymbol :=
  let order := merge_sort (byWeight m) (seq 0 (length m)) in
  fst (fold_left
    (fun '(bits, rem) k =>
       let w := bw_weight (nth k m (BW 0 0)) in
       if (0 <? w) && (w <=? rem) then (<[k := SymOne]> bits, rem - w) else (bits, rem))
    order (replicate (length m) SymZero, value)).

Definition meanConfidence (cfg : Config) (f : Frame) : double :=
  let cs := map (confAt f) (filter inFrame (map bw_second (concat (map (fields cfg) allFields)))) in
  if (length cs =? 0)%nat then 0%D
  else (fold_left (fun a x => a + x) cs 0 / d_of_Z (Z.of_nat (length cs)))%D.

(** The frame's own bits of a field, or those of the carried value. *)
Definition ownBits (f : Frame) (m : ClockFieldMap) : list Bit :=
  map (fun bw => let sec := bw_second bw in
                 if inFrame sec then MkBit (symAt f sec) (confAt f sec) else MkBit SymUnknown 0) m.
Definition carriedBits (f : Frame) (m : ClockFieldMap) (value : Z) : list Bit :=
  map (fun s => MkBit s (fieldMinConf f m)) (encodeField m value).

Definition normalizeFrame (cfg : Config) (f : Frame) (age : Z) : NormalizedFrame :=
  let raw := rawFields cfg f in
  if negb (rangeValid raw) then
    MkNF age false 0 TimeFields_none
      (fun fld => map (fun bw => let sec := bw_second bw in
                                 MkBit SymUnknown (if inFrame sec then confAt f sec else 0%D)) (fields cfg fld))
  else
    let ext := advanceMinutes raw age in
    MkNF age true (meanConfidence cfg f) ext
      (fun fld => if fieldOf ext fld =? fieldOf raw fld then ownBits f (fields cfg fld)
                  else carriedBits f (fields cfg fld) (fieldOf ext fld)).

Definition buildNormalizedFrames (cfg : Config) (fs : list Frame) : list NormalizedFrame :=
  imap (fun i f => normalizeFrame cfg f (Z.of_nat (length fs) - 1 - Z.of_nat i)) fs.

(** ** The vote *)

Record BitStat := MkStat {
  w0 : double; w1 : double; c0 : double; c1 : double;
  pAct : double; pPot : double; best0 : double; best1 : double
}.
Definition noStat : BitStat := MkStat 0 0 0 0 0 0 0 0.

Definition bitCoherent (b : BitStat) : bool :=
  let wOne := (w0 b <? w1 b)%D in
  let cOne := (c0 b <? c1 b)%D in
  (c0 b =? c1 b)%D || Bool.eqb wOne cOne.

Definition kEpsilon : double := 1e-6%D.

Definition bitMargin (b : BitStat) : double :=
  let total := (w0 b + w1 b)%D in
  if (0 <? total)%D then ((dmax (w0 b) (w1 b) - dmin (w0 b) (w1 b)) / (total + kEpsilon))%D else 0%D.

Definition bitAt (nf : NormalizedFrame) (fld : FieldIndex) (k : nat) : Bit :=
  nth k (nf_bits nf fld) (MkBit SymUnknown 0).

Section Vote.
Context `{Pow} (cfg : Config).

Definition agedWeight (confidence : double) (age : Z) : double :=
  fmul (dmax confidence f001) (powf (agingFactor cfg) (d_of_Z age)).

Definition addVote (fld : FieldIndex) (k : nat) (s : BitStat) (nf : NormalizedFrame) : BitStat :=
  let b := bitAt nf fld k in
  let aged := pow (agingFactor cfg) (d_of_Z (nf_age nf)) in
  let confW := (dmax (b_conf b) f001 * aged)%D in
  let pot := (pPot s + confW)%D in
  match b_symbol b with
  | SymOne => MkStat (w0 s) (w1 s + confW) (c0 s) (c1 s + aged) (pAct s + confW) pot
                     (best0 s) (dmax (best1 s) (b_conf b))
  | SymZero => MkStat (w0 s + confW) (w1 s) (c0 s + aged) (c1 s) (pAct s + confW) pot
                      (dmax (best0 s) (b_conf b)) (best1 s)
  | _ => MkStat (w0 s) (w1 s) (c0 s) (c1 s) (pAct s) pot (best0 s) (best1 s)
  end%D.

Definition bitStat (frames : list NormalizedFrame) (fld : FieldIndex) (k : nat) : BitStat :=
  fold_left (addVote fld k) frames noStat.

Definition trust (s : BitStat) : double :=
  let participation := if (0 <? pPot s)%D then (pAct s / pPot s)%D else 0%D in
  let winnerBest := if (w0 s <? w1 s)%D then best1 s else best0 s in
  let certified := (minBitConfidence cfg <=? 0)%D || (winnerBest >=? minBitConfidence cfg)%D in
  if certified then (bitMargin s * participation)%D else 0%D.

Fixpoint addHeld (held : list (Z * double)) (value : Z) (weight : double) : list (Z * double) :=
  match held with
  | [] => [(value, weight)]
  | (v, w) :: held => if v =? value then (v, w + weight)%D :: held else (v, w) :: addHeld held value weight
  end.

Definition heldWeight (nf : NormalizedFrame) (fld : FieldIndex) : double :=
  agedWeight (floor0 (minConf (map b_conf (nf_bits nf fld)))) (nf_age nf).

Definition heldValues (frames : list NormalizedFrame) (fld : FieldIndex) : list (Z * double) :=
  fold_left (fun held nf => addHeld held (fieldOf (nf_ext nf) fld) (heldWeight nf fld))
            (filter (fun nf => nf_valid nf = true) frames) [].

(** The value the bits compose, whether all cohere, and the least trust of
    those that do. *)
Definition composeField (frames : list NormalizedFrame) (fld : FieldIndex) : Z * bool * double :=
  fold_left (fun '(value, coherent, minTrust) k =>
      let s := bitStat frames fld k in
      let value := if (w0 s <? w1 s)%D then value + bw_weight (nth k (fields cfg fld) (BW 0 0)) else value in
      if bitCoherent s then (value, coherent, dmin minTrust (trust s)) else (value, false, minTrust))
    (seq 0 (length (fields cfg fld))) (0, true, 1%D).

(** The heaviest held value, its weight, the runner-up's, and the total. *)
Definition topHeld (held : list (Z * double)) : Z * double * double * double :=
  fold_left (fun '(topValue, topW, runnerW, total) '(v, w) =>
      let total := (total + w)%D in
      if (topW <? w)%D then (v, w, topW, total)
      else if (runnerW <? w)%D then (topValue, topW, w, total)
      else (topValue, topW, runnerW, total))
    held (0, 0%D, 0%D, 0%D).

Definition voteField (frames : list NormalizedFrame) (fld : FieldIndex) : Z * double :=
  let held := heldValues frames fld in
  let '(composeValue, allCoherent, minCoherentTrust) := composeField frames fld in
  let '(topValue, topW, runnerW, totalHeld) := topHeld held in
  let valueMargin := ((topW - runnerW) / (totalHeld + kEpsilon))%D in
  let composeHeld := existsb (fun hv => fst hv =? composeValue) held in
  if allCoherent && composeHeld then (composeValue, minCoherentTrust)
  else (topValue, dmin valueMargin minCoherentTrust).

(** The heaviest valid frame's own time. *)
Definition bestFrame (frames : list NormalizedFrame) : TimeFields :=
  let '(best, _) := fold_left (fun '(best, bw) nf =>
      let w := agedWeight (fround (nf_mean nf)) (nf_age nf) in
      if (bw <? w)%D then (Some nf, w) else (best, bw))
    (filter (fun nf => nf_valid nf = true) frames) (None, (-1)%D) in
  match best with Some nf => nf_ext nf | None => TimeFields_none end.

(** The ranges of [computeResolution]'s final guard: no leap-year test here. *)
Definition fieldsInRange (t : TimeFields) : bool :=
  (0 <=? tf_minute t) && (tf_minute t <=? 59) && (0 <=? tf_hour t) && (tf_hour t <=? 23) &&
  (1 <=? tf_doy t) && (tf_doy t <=? 366) && (0 <=? tf_year2 t) && (tf_year2 t <=? 99).

Record Resolution := MkResolution { r_value : TimeFields; r_quality : double }.

Definition computeResolution (fs : list Frame) : Resolution :=
  let frames := buildNormalizedFrames cfg fs in
  match frames with
  | [] => MkResolution TimeFields_none 0
  | _ =>
      let '(m, qm) := voteField frames FieldMinutes in
      let '(h, qh) := voteField frames FieldHours in
      let '(d, qd) := voteField frames FieldDoy in
      let '(y, qy) := voteField frames FieldYear in
      let voted := TF m h d y in
      if fieldsInRange voted then MkResolution voted (dmin (dmin (dmin qm qh) qd) qy)
      else MkResolution (bestFrame frames) 0
  end.

Definition votedTimestamp (fs : list Frame) : TimeFields := r_value (computeResolution fs).

Definition votedField (fs : list Frame) (fld : FieldIndex) : Z :=
  match fs with [] => -1 | _ => fieldOf (votedTimestamp fs) fld end.

Definition lastFrameMinute (fs : list Frame) : Z :=
  match last fs with None => -1 | Some f => decodeMinutes cfg f end.

(** ** The lock *)

Fixpoint increments (fs : list Frame) : Z :=
  match fs with
  | f :: ((g :: _) as fs') =>
      (if cmod (decodeMinutes cfg f + 1) 60 =? decodeMinutes cfg g then 1 else 0) + increments fs'
  | _ => 0
  end.

Definition freshWindow (frames : list NormalizedFrame) : bool :=
  (maxNewestValidAge cfg <? 0) ||
  existsb (fun nf => nf_valid nf && (nf_age nf <=? maxNewestValidAge cfg)) frames.

(** Two decoded minutes name different times. *)
Definition contested (frames : list NormalizedFrame) : bool :=
  match filter (fun nf => nf_valid nf = true) frames with
  | [] => false
  | first :: rest =>
      existsb (fun nf => negb (minutesSince2000 (nf_ext nf) =? minutesSince2000 (nf_ext first))) rest
  end.

(** The winning margin of a field's bits, in single precision. *)
Definition fieldMargin (frames : list NormalizedFrame) (fld : FieldIndex) : double :=
  fold_left (fun margin k =>
      let '(a0, a1) := fold_left (fun '(a0, a1) nf =>
          let b := bitAt nf fld k in
          let w := agedWeight (b_conf b) (nf_age nf) in
          match b_symbol b with
          | SymOne => (a0, fadd a1 w)
          | SymZero => (fadd a0 w, a1)
          | _ => (a0, a1)
          end) frames (0%D, 0%D) in
      (margin + fsub (dmax a0 a1) (dmin a0 a1))%D)
    (seq 0 (length (fields cfg fld))) 0%D.

Record LockVerdict := MkLock { l_locked : bool; l_reason : ClockLockRefusal }.

(** The quality and plausibility gates. *)
Definition honestyGates (fs : list Frame) : LockVerdict :=
  let plaus := match referenceNow cfg with
               | Some ref => if 0 <? plausibilityBoundMinutes cfg then Some ref else None
               | None => None
               end in
  if (0 <? minLockQuality cfg)%D || match plaus with Some _ => true | None => false end then
    let res := computeResolution fs in
    if (0 <? minLockQuality cfg)%D && (r_quality res <? minLockQuality cfg)%D then MkLock false RefQualityFloor
    else
      match plaus with
      | Some ref =>
          if fieldsInRange ref then
            let diff := minutesSince2000 (r_value res) - minutesSince2000 ref in
            let bound := plausibilityBoundMinutes cfg in
            if (bound <? diff) || (diff <? - bound) then MkLock false RefPlausibility else MkLock true RefNone
          else MkLock true RefNone
      | None => MkLock true RefNone
      end
  else MkLock true RefNone.

Definition lockVerdict (fs : list Frame) : LockVerdict :=
  if Z.of_nat (length fs) <? minFramesForLock cfg then MkLock false RefNone
  else
    let frames := buildNormalizedFrames cfg fs in
    let fresh := freshWindow frames in
    if increments fs <? minFramesForLock cfg - 1 then
      if negb fresh then MkLock false RefStaleness
      else if contested frames then MkLock false RefContested
      else MkLock false RefNone
    else if (length frames =? 0)%nat || negb fresh then MkLock false RefStaleness
    else if existsb (fun fld => negb (0 <? fieldMargin frames fld)%D) [FieldHours; FieldDoy; FieldYear]
    then MkLock false RefContested
    else honestyGates fs.

Definition lockConfidence (fs : list Frame) : double :=
  let n := Z.of_nat (length fs) in
  if n <? minFramesForLock cfg then 0%D
  else if (length (buildNormalizedFrames cfg fs) =? 0)%nat then 0%D
  else
    let saturation := dmin 1 (d_of_Z n / (2 * d_of_Z (minFramesForLock cfg)))%D in
    fround (dclamp (r_quality (computeResolution fs) * saturation)%D 0 1).
End Vote.

(** ** Lemmas: calendar *)

Lemma yearLen_20xx y : 0 <= y <= 99 -> yearLen y = if y mod 4 =? 0 then 366 else 365.
Proof. intros. unfold yearLen. by rewrite isLeapYear2_20xx. Qed.

Lemma daysBefore_closed n : (n <= 100)%nat -> daysBefore n = 365 * Z.of_nat n + (Z.of_nat n + 3) / 4.
Proof.
  induction n as [|n IH]; [done|]. intros H. cbn [daysBefore]. rewrite IH, yearLen_20xx by lia.
  destruct (Z.eqb_spec (Z.of_nat n mod 4) 0); dlia.
Qed.

(** Days in the century, which is where the two-digit year wraps. *)
Definition kCenturyDays : Z := 36525.

(** The day of the century, from 1. *)
Definition dayNumber (doy year2 : Z) : Z := daysBefore (Z.to_nat year2) + doy.

Lemma dayNumber_closed doy y : 0 <= y <= 100 -> dayNumber doy y = 365 * y + (y + 3) / 4 + doy.
Proof. intros. unfold dayNumber. rewrite daysBefore_closed by lia. rewrite Z2Nat.id by lia. done. Qed.

Lemma wrapDoy_spec fuel : forall doy y,
  (Z.to_nat doy <= fuel)%nat -> 1 <= doy -> 0 <= y <= 99 ->
  let '(doy', y') := wrapDoy fuel doy y in
  1 <= doy' <= yearLen y' /\ 0 <= y' <= 99 /\
  exists c, 0 <= c /\ dayNumber doy y = dayNumber doy' y' + c * kCenturyDays.
Proof.
  induction fuel as [|fuel IH]; intros doy y F Hd Hy; [lia|]. cbn [wrapDoy].
  pose proof (yearLen_range y). destruct (Z.ltb_spec (yearLen y) doy) as [L|L].
  - assert (Hc : cmod (y + 1) 100 = if y =? 99 then 0 else y + 1).
    { unfold cmod. rewrite Z.rem_mod_nonneg by lia. destruct (Z.eqb_spec y 99); dlia. }
    specialize (IH (doy - yearLen y) (cmod (y + 1) 100) ltac:(lia) ltac:(lia)
      ltac:(rewrite Hc; destruct (Z.eqb_spec y 99); lia)).
    destruct (wrapDoy fuel _ _) as [doy' y']. destruct IH as (R1 & R2 & c & Hc0 & E). split; [done|]. split; [done|].
    rewrite Hc in E. rewrite !dayNumber_closed in * by (destruct (Z.eqb_spec y 99); lia).
    rewrite yearLen_20xx in * by lia.
    exists (c + if y =? 99 then 1 else 0). unfold kCenturyDays in *.
    destruct (Z.eqb_spec y 99) as [->|]; [change (99 mod 4 =? 0) with false in *; cbn match in *; dlia|].
    destruct (Z.eqb_spec (y mod 4) 0); dlia.
  - split; [lia|]. split; [lia|]. exists 0. lia.
Qed.

(** The wrap leaves no year overrun: the fuel is enough. *)
Lemma minutesSince2000_eq t :
  minutesSince2000 t = (dayNumber (tf_doy t) (tf_year2 t) - 1) * 1440 + tf_hour t * 60 + tf_minute t.
Proof. unfold minutesSince2000, dayNumber. lia. Qed.

Lemma dayNumber_range doy y :
  0 <= y <= 99 -> 1 <= doy <= yearLen y -> 1 <= dayNumber doy y <= kCenturyDays.
Proof.
  intros Hy Hd. rewrite dayNumber_closed by lia. rewrite yearLen_20xx in Hd by lia. unfold kCenturyDays.
  destruct (Z.eqb_spec (y mod 4) 0); dlia.
Qed.

Lemma dayNumber_inj doy y doy' y' :
  0 <= y <= 99 -> 1 <= doy <= yearLen y -> 0 <= y' <= 99 -> 1 <= doy' <= yearLen y' ->
  dayNumber doy y = dayNumber doy' y' -> doy = doy' /\ y = y'.
Proof.
  intros Hy Hd Hy' Hd'. rewrite !dayNumber_closed, !yearLen_20xx in * by lia.
  destruct (Z.eqb_spec (y mod 4) 0), (Z.eqb_spec (y' mod 4) 0); intros; split; dlia.
Qed.

Lemma minutesSince2000_inj t t' :
  rangeValid t = true -> rangeValid t' = true -> minutesSince2000 t = minutesSince2000 t' -> t = t'.
Proof.
  rewrite !rangeValid_spec, !minutesSince2000_eq. intros (Hm & Hh & Hd & Hy) (Hm' & Hh' & Hd' & Hy') E.
  assert (dayNumber (tf_doy t) (tf_year2 t) = dayNumber (tf_doy t') (tf_year2 t')) by lia.
  destruct (dayNumber_inj _ _ _ _ Hy Hd Hy' Hd') as [D Y]; [done|].
  destruct t, t'; cbn in *. f_equal; lia.
Qed.

Lemma minutesSince2000_range t :
  rangeValid t = true -> 0 <= minutesSince2000 t < kCenturyDays * 1440.
Proof.
  rewrite rangeValid_spec, minutesSince2000_eq. intros (Hm & Hh & Hd & Hy).
  pose proof (dayNumber_range _ _ Hy Hd). lia.
Qed.

(** Advancing is adding minutes to the minute of the century. *)
Lemma advanceMinutes_minutes t m :
  rangeValid t = true -> 0 <= m ->
  rangeValid (advanceMinutes t m) = true /\
  minutesSince2000 (advanceMinutes t m) = (minutesSince2000 t + m) mod (kCenturyDays * 1440).
Proof.
  intros V Hm. pose proof V as (H1 & H2 & H3 & H4)%rangeValid_spec.
  unfold advanceMinutes, cdiv, cmod.
  rewrite !Z.quot_div_nonneg, !Z.rem_mod_nonneg by dlia.
  set (h := tf_hour t + (tf_minute t + m) / 60). set (d := tf_doy t + h / 24).
  assert (Hd : 1 <= d) by (unfold d, h; dlia).
  pose proof (wrapDoy_spec (Z.to_nat d) d (tf_year2 t) ltac:(lia) Hd H4) as W.
  destruct (wrapDoy (Z.to_nat d) d (tf_year2 t)) as [doy' y']. destruct W as (R1 & R2 & c & Hc & E).
  assert (V' : rangeValid (TF ((tf_minute t + m) mod 60) (h mod 24) doy' y') = true).
  { apply rangeValid_spec. cbn. repeat split; try lia; dlia. }
  split; [done|]. pose proof (minutesSince2000_range _ V') as R.
  rewrite !minutesSince2000_eq in *. cbn [tf_minute tf_hour tf_doy tf_year2] in *.
  apply Z.mod_unique_pos with c; [done|].
  assert (D : dayNumber d (tf_year2 t) = dayNumber (tf_doy t) (tf_year2 t) + h / 24)
    by (unfold dayNumber, d; lia).
  rewrite D in E. unfold h in *. unfold kCenturyDays in *. dlia.
Qed.

Lemma advanceMinutes_valid t m : rangeValid t = true -> 0 <= m -> rangeValid (advanceMinutes t m) = true.
Proof. intros. by apply advanceMinutes_minutes. Qed.

Lemma advanceMinutes_add t a b :
  rangeValid t = true -> 0 <= a -> 0 <= b ->
  advanceMinutes (advanceMinutes t a) b = advanceMinutes t (a + b).
Proof.
  intros V Ha Hb. destruct (advanceMinutes_minutes t a V Ha) as [V1 E1].
  destruct (advanceMinutes_minutes _ b V1 Hb) as [V2 E2].
  destruct (advanceMinutes_minutes t (a + b) V ltac:(lia)) as [V3 E3].
  apply minutesSince2000_inj; [done|done|]. rewrite E2, E1, E3, Z.add_mod_idemp_l by done. f_equal. lia.
Qed.

Lemma advanceMinutes_0 t : rangeValid t = true -> advanceMinutes t 0 = t.
Proof.
  intros V. destruct (advanceMinutes_minutes t 0 V ltac:(lia)) as [V1 E1].
  apply minutesSince2000_inj; [done|done|]. rewrite E1, Z.add_0_r. apply Z.mod_small.
  by apply minutesSince2000_range.
Qed.

(** ** Lemmas: weights *)

(** Confidences are numbers, and the aging factor's powers have not vanished. *)
Definition frameOk (f : Frame) : Prop := Forall (fun c => dnan c = false) (f_confidence f).
Definition powOk `{Pow} (cfg : Config) (n : Z) : Prop :=
  forall age, 0 <= age < n ->
    atLeast (-50) (powf (agingFactor cfg) (d_of_Z age)) /\ atLeast (-50) (pow (agingFactor cfg) (d_of_Z age)).

Lemma dnan_dmax x y : dnan x = false -> dnan y = false -> dnan (dmax x y) = false.
Proof. unfold dmax. by destruct (x <? y)%D. Qed.
Lemma dnan_dmin x y : dnan x = false -> dnan y = false -> dnan (dmin x y) = false.
Proof. unfold dmin. by destruct (y <? x)%D. Qed.

Lemma minConf_nan l : Forall (fun c => dnan c = false) l -> dnan (minConf l) = false.
Proof.
  intros F. unfold minConf. assert (N : dnan (-1)%D = false) by reflexivity. revert N.
  generalize (-1)%D. induction F as [|c l Hc F IH]; intros a Ha; [done|]. cbn. apply IH.
  destruct (a <? 0)%D; [done|]. by apply dnan_dmin.
Qed.

Lemma floor0_nan x : dnan x = false -> dnan (floor0 x) = false.
Proof. intros. unfold floor0. by destruct (x <? 0)%D. Qed.

Lemma f001_atLeast : atLeast (-7) f001.
Proof. apply atLeast_key; [lia|]. vm_compute. discriminate. Qed.

Lemma dmax_f001_atLeast c : dnan c = false -> atLeast (-7) (dmax c f001).
Proof.
  intros N. eapply atLeast_le; [lia|apply f001_atLeast|]. unfold dmax.
  assert (M : dnan f001 = false) by (vm_compute; reflexivity). revert N M. generalize f001. clear.
  unfold dnan. intros f N M. destruct (c <? f)%D eqn:E; revert N M E; dorder.
Qed.

Lemma confAt_nan f sec : frameOk f -> dnan (confAt f sec) = false.
Proof.
  intros F. unfold confAt. destruct (Nat.lt_ge_cases (Z.to_nat sec) (length (f_confidence f))) as [L|L].
  - unfold frameOk in F. rewrite List.Forall_forall in F. apply F, nth_In, L.
  - by rewrite nth_overflow.
Qed.

Section Weights.
Context `{Pow} (cfg : Config).

Lemma agedWeight_pos n c age :
  powOk cfg n -> 0 <= age < n -> dnan c = false -> (0 <? agedWeight cfg c age)%D = true.
Proof.
  intros P A N. apply (atLeast_pos (-57)); [lia|]. unfold agedWeight.
  apply (fmul_atLeast (-7) (-50)); [lia|lia|by apply dmax_f001_atLeast|by apply P].
Qed.

Lemma confW_pos n c age :
  powOk cfg n -> 0 <= age < n -> dnan c = false ->
  (0 <? dmax c f001 * pow (agingFactor cfg) (d_of_Z age))%D = true.
Proof.
  intros P A N. apply (atLeast_pos (-57)); [lia|].
  apply (dmul_atLeast (-7) (-50)); [lia|lia|by apply dmax_f001_atLeast|by apply P].
Qed.

Lemma aged_pos n age : powOk cfg n -> 0 <= age < n -> (0 <? pow (agingFactor cfg) (d_of_Z age))%D = true.
Proof. intros P A. apply (atLeast_pos (-50)); [lia|by apply P]. Qed.

(** A normalised frame is well formed within a window of [n]. *)
Definition nfOk (n : Z) (nf : NormalizedFrame) : Prop :=
  0 <= nf_age nf < n /\
  (nf_valid nf = true -> rangeValid (nf_ext nf) = true) /\
  forall fld, Forall (fun b => dnan (b_conf b) = false) (nf_bits nf fld).

Lemma fieldMinConf_nan f m : frameOk f -> dnan (fieldMinConf f m) = false.
Proof.
  intros F. unfold fieldMinConf. apply dnan_dmax; [|vm_compute; reflexivity]. apply floor0_nan, minConf_nan.
  apply List.Forall_forall. intros c (s & <- & _)%in_map_iff. by apply confAt_nan.
Qed.

Lemma normalizeFrame_ok n f age : frameOk f -> 0 <= age < n -> nfOk n (normalizeFrame cfg f age).
Proof.
  intros F A. unfold normalizeFrame. destruct (rangeValid (rawFields cfg f)) eqn:V; cbn [negb].
  - split; [done|]. split; [intros _; apply advanceMinutes_valid; [done|lia]|]. intros fld. cbn [nf_bits].
    destruct (_ =? _); apply List.Forall_forall.
    + intros b (bw & <- & _)%in_map_iff. cbn zeta; destruct (inFrame (bw_second bw)); [by apply confAt_nan|done].
    + intros b (s & <- & _)%in_map_iff. by apply fieldMinConf_nan.
  - split; [done|]. split; [done|]. intros fld. cbn [nf_bits]. apply List.Forall_forall.
    intros b (bw & <- & _)%in_map_iff. cbn [b_conf]. cbn zeta. destruct (inFrame (bw_second bw)); [by apply confAt_nan|done].
Qed.

Lemma buildNormalized_ok fs :
  Forall frameOk fs -> Forall (nfOk (Z.of_nat (length fs))) (buildNormalizedFrames cfg fs).
Proof.
  intros F. unfold buildNormalizedFrames. apply Forall_lookup. intros i nf Hi.
  rewrite list_lookup_imap in Hi. destruct (fs !! i) as [f|] eqn:E; [|done]. cbn in Hi. injection Hi as <-.
  apply normalizeFrame_ok; [by eapply Forall_lookup_1|]. apply lookup_lt_Some in E. lia.
Qed.

(** *** Held values *)

Definition heldBy (frames : list NormalizedFrame) (fld : FieldIndex) (v : Z) : Prop :=
  exists nf, nf ∈ frames /\ nf_valid nf = true /\ fieldOf (nf_ext nf) fld = v.

Lemma addHeld_spec held v w P :
  Forall (fun hv => P (fst hv) /\ (0 <? snd hv)%D = true) held -> P v -> (0 <? w)%D = true ->
  Forall (fun hv => P (fst hv) /\ (0 <? snd hv)%D = true) (addHeld held v w).
Proof.
  intros F Pv Hw. induction F as [|[v' w'] held [Pv' Hw'] F IH]; cbn; [by constructor|].
  cbn in *. destruct (Z.eqb_spec v' v).
  - constructor; [|done]. split; [done|]. cbn. apply dadd_pos_l; [done|by apply dpos_nonneg].
  - by constructor.
Qed.

Lemma addHeld_In held v w x : In x (map fst (addHeld held v w)) <-> x = v \/ In x (map fst held).
Proof.
  induction held as [|[v' w'] held IH]; cbn; [intuition|].
  destruct (Z.eqb_spec v' v); cbn; [subst; intuition|]. rewrite IH. intuition.
Qed.

Lemma heldValues_spec n frames fld :
  powOk cfg n -> Forall (nfOk n) frames ->
  Forall (fun hv => heldBy frames fld (fst hv) /\ (0 <? snd hv)%D = true) (heldValues cfg frames fld).
Proof.
  intros P F. unfold heldValues.
  set (l := filter (fun nf => nf_valid nf = true) frames).
  assert (L : Forall (fun nf => nfOk n nf /\ heldBy frames fld (fieldOf (nf_ext nf) fld)) l).
  { apply Forall_forall. intros nf [Hv Hin]%list_elem_of_filter. rewrite Forall_forall in F.
    split; [by apply F|]. by exists nf. }
  clearbody l. assert (H0 : Forall (fun hv : Z * double =>
    heldBy frames fld (fst hv) /\ (0 <? snd hv)%D = true) []) by constructor.
  revert H0. generalize (@nil (Z * double)).
  induction L as [|nf l [Hok Hh] L IH]; intros held H0; [done|]. cbn. apply IH.
  apply addHeld_spec; [done|done|]. destruct Hok as (A & _ & C).
  apply (agedWeight_pos n); [done|done|]. apply floor0_nan, minConf_nan.
  apply List.Forall_forall. intros c (b & <- & Hb)%in_map_iff. specialize (C fld).
  rewrite List.Forall_forall in C. by apply C.
Qed.

Lemma heldValues_In frames fld v :
  heldBy frames fld v -> In v (map fst (heldValues cfg frames fld)).
Proof.
  intros (nf & Hin & Hv & <-). unfold heldValues.
  assert (Hin' : nf ∈ filter (fun nf => nf_valid nf = true) frames) by (by apply list_elem_of_filter).
  revert Hin'. generalize (filter (fun nf => nf_valid nf = true) frames) (@nil (Z * double)). clear.
  assert (Keep : forall (l : list NormalizedFrame) held v, In v (map fst held) ->
    In v (map fst (fold_left (fun held nf => addHeld held (fieldOf (nf_ext nf) fld) (heldWeight cfg nf fld)) l held))).
  { induction l as [|x l IH]; intros held v Hv; [done|]. cbn. apply IH, addHeld_In. by right. }
  induction l as [|x l IH]; intros held Hin; [by apply not_elem_of_nil in Hin|].
  cbn. apply elem_of_cons in Hin as [->|Hin]; [|by apply IH]. apply Keep, addHeld_In. by left.
Qed.

(** The heaviest of some positive weights is one of them. *)
Lemma topHeld_In held :
  Forall (fun hv => (0 <? snd hv)%D = true) held -> held <> [] ->
  In (fst (fst (fst (topHeld held)))) (map fst held).
Proof.
  unfold topHeld. intros F N.
  assert (G : forall l tv tw rw tot (S : list Z),
    Forall (fun hv : Z * double => (0 <? snd hv)%D = true) l ->
    (In tv S \/ (tw = 0%D /\ l <> [])) ->
    In (fst (fst (fst (fold_left (fun '(topValue, topW, runnerW, total) '(v, w) =>
      let total := (total + w)%D in
      if (topW <? w)%D then (v, w, topW, total)
      else if (runnerW <? w)%D then (topValue, topW, w, total)
      else (topValue, topW, runnerW, total)) l (tv, tw, rw, tot))))) (S ++ map fst l)).
  { induction l as [|[v w] l IH]; intros tv tw rw tot S Fl Hs.
    - cbn. rewrite app_nil_r. by destruct Hs as [|[_ ?]].
    - apply Forall_cons in Fl as [Fw Fl]. cbn [snd] in Fw. cbn [fold_left map fst].
      assert (Perm : forall x, In x ((S ++ [v]) ++ map fst l) -> In x (S ++ v :: map fst l))
        by (intros x; by rewrite <- app_assoc).
      apply Perm. destruct (tw <? w)%D eqn:E.
      + apply IH; [done|]. left. apply in_app_iff. right. by left.
      + assert (In tv S) by (destruct Hs as [|[-> _]]; [done|congruence]).
        destruct (rw <? w)%D; (apply IH; [done|]; left; apply in_app_iff; by left). }
  specialize (G held 0 0%D 0%D 0%D [] F). apply G. by right.
Qed.

Lemma voteField_held n frames fld :
  powOk cfg n -> Forall (nfOk n) frames ->
  heldBy frames fld (fst (voteField cfg frames fld)) \/
  (filter (fun nf => nf_valid nf = true) frames = [] /\ fst (voteField cfg frames fld) = 0).
Proof.
  intros P F. pose proof (heldValues_spec n frames fld P F) as Hs. unfold voteField.
  destruct (composeField cfg frames fld) as [[cv coh] mt].
  destruct (heldValues cfg frames fld) as [|hv held] eqn:E.
  - right. split.
    + destruct (filter (fun nf => nf_valid nf = true) frames) as [|nf l] eqn:Ef; [done|exfalso].
      assert (Hin : nf ∈ filter (fun nf => nf_valid nf = true) frames) by (rewrite Ef; by left).
      apply list_elem_of_filter in Hin as [Hv Hin].
      pose proof (heldValues_In frames fld (fieldOf (nf_ext nf) fld)) as I. rewrite E in I.
      apply I. by exists nf.
    + cbn. by rewrite andb_false_r.
  - left. rewrite <- E in *.
    destruct (topHeld (heldValues cfg frames fld)) as [[[tv tw] rw] tot] eqn:Et.
    assert (Top : heldBy frames fld tv).
    { pose proof (topHeld_In (heldValues cfg frames fld)) as I. rewrite Et in I. cbn [fst] in I.
      assert (I' : In tv (map fst (heldValues cfg frames fld))).
      { apply I; [|by rewrite E]. eapply Forall_impl; [exact Hs|]. by intros ? []. }
      apply in_map_iff in I' as (x & <- & Hx). rewrite List.Forall_forall in Hs. by apply Hs. }
    destruct (coh && _) eqn:C; [|done]. cbn [fst]. apply andb_true_iff in C as [_ C].
    apply existsb_exists in C as (x & Hx & Ex). apply Z.eqb_eq in Ex. subst cv.
    rewrite List.Forall_forall in Hs. by apply Hs.
Qed.

Lemma bestFrame_cases frames :
  bestFrame cfg frames = TimeFields_none \/
  exists nf, nf ∈ frames /\ nf_valid nf = true /\ bestFrame cfg frames = nf_ext nf.
Proof.
  unfold bestFrame.
  assert (G : forall l best bw,
    (forall nf, nf ∈ l -> nf ∈ frames /\ nf_valid nf = true) ->
    (best = None \/ exists nf, best = Some nf /\ nf ∈ frames /\ nf_valid nf = true) ->
    let '(b, _) := fold_left (fun '(best, bw) nf =>
      let w := agedWeight cfg (fround (nf_mean nf)) (nf_age nf) in
      if (bw <? w)%D then (Some nf, w) else (best, bw)) l (best, bw) in
    b = None \/ exists nf, b = Some nf /\ nf ∈ frames /\ nf_valid nf = true).
  { induction l as [|nf l IH]; intros best bw Hl Hb; [done|]. cbn [fold_left].
    destruct (bw <? _)%D; apply IH; try (intros; apply Hl; by right); [|done].
    right. exists nf. split; [done|]. apply Hl. by left. }
  specialize (G (filter (fun nf => nf_valid nf = true) frames) None (-1)%D).
  destruct (fold_left _ _ _) as [b bw].
  destruct G as [->|(nf & -> & ? & ?)].
  - intros nf [? ?]%list_elem_of_filter. done.
  - by left.
  - by left.
  - right. by exists nf.
Qed.
End Weights.

(** ** Lemmas: a clean window *)

Lemma fold_seq_nth {A B} (f : B -> A -> B) (d : A) (l : list A) : forall acc pre,
  fold_left (fun b k => f b (nth k (pre ++ l) d)) (seq (length pre) (length l)) acc = fold_left f l acc.
Proof.
  induction l as [|x l IH]; intros acc pre; [done|]. cbn [length seq fold_left].
  assert (E : nth (length pre) (pre ++ x :: l) d = x) by (rewrite app_nth2, Nat.sub_diag by lia; done).
  rewrite E. specialize (IH (f acc x) (pre ++ [x])). rewrite <- app_assoc in IH. cbn in IH.
  rewrite length_app, Nat.add_comm in IH. apply IH.
Qed.

(** What the ones of a field's bits weigh. *)
Definition weigh (m : ClockFieldMap) (bits : list ClockSymbol) : Z :=
  fold_left (fun v k => if symb_eqb (nth k bits SymUnknown) SymOne
                        then v + bw_weight (nth k m (BW 0 0)) else v) (seq 0 (length m)) 0.

Lemma decodeMap_weigh m f :
  forallb (fun bw => inFrame (bw_second bw)) m = true ->
  decodeMap m f = weigh m (map (fun bw => symAt f (bw_second bw)) m).
Proof.
  intros I. rewrite forallb_forall in I. unfold decodeMap, weigh.
  rewrite <- (fold_seq_nth _ (BW 0 0) m 0 []). cbn [app length]. apply fold_left_ext_in.
  intros v k [_ Hk]%in_seq. rewrite (I (nth k m (BW 0 0))) by (apply nth_In; lia). cbn [andb].
  set (g := fun bw => symAt f (bw_second bw)).
  rewrite (nth_indep (map g m) SymUnknown (g (BW 0 0))) by (rewrite length_map; lia).
  by rewrite (map_nth g).
Qed.

(** The symbols a field of a time is sent as, by the voter's own encoding. *)
Definition transmits (cfg : Config) (f : Frame) (t : TimeFields) : Prop :=
  forall fld, map (fun bw => symAt f (bw_second bw)) (fields cfg fld) =
              encodeField (fields cfg fld) (fieldOf t fld).

(** Checkable of a map: the encoding of every value up to [hi] weighs it. *)
Definition mapOk (m : ClockFieldMap) (hi : nat) : bool :=
  forallb (fun bw => inFrame (bw_second bw)) m &&
  forallb (fun v => weigh m (encodeField m (Z.of_nat v)) =? Z.of_nat v) (seq 0 (S hi)).

Definition fieldMax (fld : FieldIndex) : nat :=
  match fld with FieldMinutes => 59 | FieldHours => 23 | FieldDoy => 366 | FieldYear => 99 end.
Definition mapsOk (cfg : Config) : bool :=
  forallb (fun fld => mapOk (fields cfg fld) (fieldMax fld)) allFields.

Lemma mapsOk_fld cfg fld : mapsOk cfg = true -> mapOk (fields cfg fld) (fieldMax fld) = true.
Proof.
  unfold mapsOk, allFields. rewrite forallb_forall. intros F. apply F. destruct fld; cbn; tauto.
Qed.

Lemma rangeValid_field t fld : rangeValid t = true -> 0 <= fieldOf t fld <= Z.of_nat (fieldMax fld).
Proof.
  rewrite rangeValid_spec. intros (H1 & H2 & H3 & H4). pose proof (yearLen_range (tf_year2 t)).
  destruct fld; cbn [fieldOf fieldMax]; lia.
Qed.

Lemma mapOk_weigh m hi v : mapOk m hi = true -> 0 <= v <= Z.of_nat hi -> weigh m (encodeField m v) = v.
Proof.
  unfold mapOk. rewrite andb_true_iff, !forallb_forall. intros [_ F] Hv.
  specialize (F (Z.to_nat v) ltac:(apply in_seq; lia)). rewrite Z2Nat.id in F by lia. lia.
Qed.

(** The encoding has a zero or a one for every bit of the map. *)
Lemma encodeField_bits m v :
  length (encodeField m v) = length m /\
  Forall (fun s => s = SymZero \/ s = SymOne) (encodeField m v).
Proof.
  unfold encodeField. cbn zeta.
  assert (G : forall (order : list nat) (bits : list ClockSymbol) rem,
    length bits = length m -> Forall (fun s => s = SymZero \/ s = SymOne) bits ->
    let r := fst (fold_left (fun '(bits, rem) k =>
       let w := bw_weight (nth k m (BW 0 0)) in
       if (0 <? w) && (w <=? rem) then (<[k := SymOne]> bits, rem - w) else (bits, rem)) order (bits, rem)) in
    length r = length m /\ Forall (fun s => s = SymZero \/ s = SymOne) r).
  { induction order as [|k order IH]; intros bits rem L F; [done|]. cbn [fold_left].
    destruct (_ && _); [|by apply IH]. apply IH; [by rewrite length_insert|].
    apply Forall_insert; [done|by right]. }
  apply G; [apply length_replicate|]. apply Forall_replicate. by left.
Qed.

Lemma transmits_raw cfg f t :
  mapsOk cfg = true -> rangeValid t = true -> transmits cfg f t -> rawFields cfg f = t.
Proof.
  intros M V T. assert (D : forall fld, decodeField cfg f fld = fieldOf t fld).
  { intros fld. pose proof (mapsOk_fld cfg fld M) as Mf. unfold decodeField.
    pose proof Mf as Mf'. unfold mapOk in Mf'. apply andb_true_iff in Mf' as [I _].
    rewrite decodeMap_weigh, T by done. eapply mapOk_weigh; [exact Mf|by apply rangeValid_field]. }
  unfold rawFields. rewrite !D. by destruct t.
Qed.

(** The frame that transmits [t], normalised at age [a]: it votes the encoding
    of the time it is carried to. *)
Lemma transmits_normalized cfg f t a :
  mapsOk cfg = true -> rangeValid t = true -> transmits cfg f t -> 0 <= a ->
  nf_valid (normalizeFrame cfg f a) = true /\
  nf_ext (normalizeFrame cfg f a) = advanceMinutes t a /\
  forall fld, map b_symbol (nf_bits (normalizeFrame cfg f a) fld) =
              encodeField (fields cfg fld) (fieldOf (advanceMinutes t a) fld).
Proof.
  intros M V T Ha. pose proof (transmits_raw cfg f t M V T) as R. unfold normalizeFrame. rewrite R, V.
  cbn [negb nf_valid nf_ext nf_bits]. split; [done|]. split; [done|]. intros fld.
  destruct (Z.eqb_spec (fieldOf (advanceMinutes t a) fld) (fieldOf t fld)) as [->|_].
  - rewrite <- (T fld). unfold ownBits. rewrite map_map. apply map_ext_in. intros bw Hb.
    pose proof (mapsOk_fld cfg fld M) as Mf. unfold mapOk in Mf. apply andb_true_iff in Mf as [I _].
    rewrite forallb_forall in I. by rewrite (I bw Hb).
  - unfold carriedBits. rewrite map_map. cbn. by rewrite map_id.
Qed.

Section Clean.
Context `{Pow} (cfg : Config).

(** The frames all vote the encoding of one time. *)
Definition unanimous (frames : list NormalizedFrame) (t : TimeFields) : Prop :=
  Forall (fun nf => nf_valid nf = true /\ nf_ext nf = t /\
    forall fld, map b_symbol (nf_bits nf fld) = encodeField (fields cfg fld) (fieldOf t fld)) frames.

Lemma unanimous_bit frames t nf fld k :
  unanimous frames t -> nf ∈ frames ->
  b_symbol (bitAt nf fld k) = nth k (encodeField (fields cfg fld) (fieldOf t fld)) SymUnknown.
Proof.
  intros U Hin. unfold unanimous in U. rewrite Forall_forall in U. destruct (U nf Hin) as (_ & _ & B).
  rewrite <- (B fld). unfold bitAt.
  change SymUnknown with (b_symbol (MkBit SymUnknown 0%D)) at 2. by rewrite map_nth.
Qed.

(** One side of a bit's tally: what its votes leave when all are alike. *)
Definition onlyOne (s : BitStat) : Prop :=
  w0 s = 0%D /\ c0 s = 0%D /\ (0 <? w1 s)%D = true /\ (0 <? c1 s)%D = true.
Definition onlyZero (s : BitStat) : Prop :=
  w1 s = 0%D /\ c1 s = 0%D /\ (0 <? w0 s)%D = true /\ (0 <? c0 s)%D = true.
Definition sidesNonneg (s : BitStat) : Prop :=
  (0 <=? w0 s)%D = true /\ (0 <=? c0 s)%D = true /\ (0 <=? w1 s)%D = true /\ (0 <=? c1 s)%D = true.

Lemma addVote_one n fld k s nf :
  powOk cfg n -> nfOk n nf -> b_symbol (bitAt nf fld k) = SymOne ->
  w0 s = 0%D -> c0 s = 0%D -> (0 <=? w1 s)%D = true -> (0 <=? c1 s)%D = true ->
  onlyOne (addVote cfg fld k s nf).
Proof.
  intros P (A & _ & C) Hb E0 F0 N1 M1. unfold addVote. rewrite Hb. unfold onlyOne. cbn [w0 w1 c0 c1].
  assert (Nc : dnan (b_conf (bitAt nf fld k)) = false).
  { unfold bitAt. specialize (C fld). rewrite List.Forall_forall in C.
    destruct (nth_in_or_default k (nf_bits nf fld) (MkBit SymUnknown 0)) as [I| -> ]; [by apply C|done]. }
  split; [done|]. split; [done|]. split; apply dadd_pos_r; try done.
  - by apply (confW_pos cfg n).
  - by apply (aged_pos cfg n).
Qed.

Lemma addVote_zero n fld k s nf :
  powOk cfg n -> nfOk n nf -> b_symbol (bitAt nf fld k) = SymZero ->
  w1 s = 0%D -> c1 s = 0%D -> (0 <=? w0 s)%D = true -> (0 <=? c0 s)%D = true ->
  onlyZero (addVote cfg fld k s nf).
Proof.
  intros P (A & _ & C) Hb E0 F0 N1 M1. unfold addVote. rewrite Hb. unfold onlyZero. cbn [w0 w1 c0 c1].
  assert (Nc : dnan (b_conf (bitAt nf fld k)) = false).
  { unfold bitAt. specialize (C fld). rewrite List.Forall_forall in C.
    destruct (nth_in_or_default k (nf_bits nf fld) (MkBit SymUnknown 0)) as [I| -> ]; [by apply C|done]. }
  split; [done|]. split; [done|]. split; apply dadd_pos_r; try done.
  - by apply (confW_pos cfg n).
  - by apply (aged_pos cfg n).
Qed.

Lemma bitStat_unanimous n frames fld k (one : bool) :
  powOk cfg n -> Forall (nfOk n) frames -> frames <> [] ->
  Forall (fun nf => b_symbol (bitAt nf fld k) = if one then SymOne else SymZero) frames ->
  if one then onlyOne (bitStat cfg frames fld k) else onlyZero (bitStat cfg frames fld k).
Proof.
  intros P F N B. unfold bitStat.
  destruct frames as [|nf frames]; [done|]. apply Forall_cons in F as [Fn F]. apply Forall_cons in B as [Bn B].
  cbn [fold_left].
  assert (Start : if one then onlyOne (addVote cfg fld k noStat nf) else onlyZero (addVote cfg fld k noStat nf)).
  { destruct one; [apply (addVote_one n)|apply (addVote_zero n)]; done. }
  clear N Fn Bn. revert Start. generalize (addVote cfg fld k noStat nf). clear nf.
  induction frames as [|nf frames IH]; intros s Hs; [done|].
  apply Forall_cons in F as [Fn F]. apply Forall_cons in B as [Bn B]. cbn [fold_left]. apply IH; [done|done|].
  destruct one; destruct Hs as (E1 & E2 & E3 & E4);
    [apply (addVote_one n)|apply (addVote_zero n)]; try done; by apply dpos_nonneg.
Qed.

Lemma stat_one s : onlyOne s -> (w0 s <? w1 s)%D = true /\ bitCoherent s = true.
Proof.
  intros (E1 & E & W & C). unfold bitCoherent. rewrite E1, E, W, C. by rewrite orb_true_r.
Qed.

Lemma stat_zero s : onlyZero s -> (w0 s <? w1 s)%D = false /\ bitCoherent s = true.
Proof.
  intros (E1 & E2 & W & C). rewrite E1.
  assert (A : (w0 s <? 0)%D = false) by (revert W; clear; dorder).
  split; [done|]. unfold bitCoherent. rewrite E1, E2, A.
  assert (B : (c0 s <? 0)%D = false) by (revert C; clear; dorder). rewrite B. by rewrite orb_true_r.
Qed.

Lemma voteField_unanimous n frames t fld :
  powOk cfg n -> Forall (nfOk n) frames -> frames <> [] -> unanimous frames t ->
  mapsOk cfg = true -> rangeValid t = true ->
  fst (voteField cfg frames fld) = fieldOf t fld.
Proof.
  intros P F N U M V. set (m := fields cfg fld). set (bits := encodeField m (fieldOf t fld)).
  assert (W : weigh m bits = fieldOf t fld).
  { eapply mapOk_weigh; [by apply (mapsOk_fld cfg fld)|by apply rangeValid_field]. }
  destruct (encodeField_bits m (fieldOf t fld)) as [Lb Fb]. fold bits in Lb, Fb.
  assert (C : fst (composeField cfg frames fld) = (fieldOf t fld, true)).
  { rewrite <- W. unfold composeField, weigh.
    assert (G : forall ks v mt, (forall k, In k ks -> (k < length m)%nat) ->
      fst (fold_left (fun '(value, coherent, minTrust) k =>
        let s := bitStat cfg frames fld k in
        let value := if (w0 s <? w1 s)%D then value + bw_weight (nth k (fields cfg fld) (BW 0 0)) else value in
        if bitCoherent s then (value, coherent, dmin minTrust (trust cfg s)) else (value, false, minTrust))
        ks (v, true, mt)) =
      (fold_left (fun v k => if symb_eqb (nth k bits SymUnknown) SymOne
                             then v + bw_weight (nth k m (BW 0 0)) else v) ks v, true)).
    { induction ks as [|k ks IH]; intros v mt Hk; [done|]. cbn [fold_left]. fold m.
      assert (Hb : nth k bits SymUnknown = SymZero \/ nth k bits SymUnknown = SymOne).
      { rewrite List.Forall_forall in Fb. apply Fb, nth_In. rewrite Lb. apply Hk. by left. }
      set (one := symb_eqb (nth k bits SymUnknown) SymOne).
      assert (Hone : nth k bits SymUnknown = if one then SymOne else SymZero).
      { unfold one. destruct Hb as [-> | ->]; done. }
      pose proof (bitStat_unanimous n frames fld k one P F N) as S.
      assert (Bs : Forall (fun nf => b_symbol (bitAt nf fld k) = if one then SymOne else SymZero) frames).
      { apply Forall_forall. intros nf Hin. rewrite (unanimous_bit frames t nf fld k U Hin). exact Hone. }
      specialize (S Bs).
      assert (S2 : (w0 (bitStat cfg frames fld k) <? w1 (bitStat cfg frames fld k))%D = one /\
                   bitCoherent (bitStat cfg frames fld k) = true).
      { destruct one; [by apply stat_one|by apply stat_zero]. }
      destruct S2 as [-> ->]. rewrite IH by (intros; apply Hk; by right). by destruct one. }
    apply G. intros k [_ Hk]%in_seq. exact Hk. }
  assert (Hh : In (fieldOf t fld) (map fst (heldValues cfg frames fld))).
  { apply heldValues_In. destruct frames as [|nf frames]; [done|]. exists nf.
    unfold unanimous in U. apply Forall_cons in U as [(U1 & U2 & _) _]. split; [by left|]. by rewrite U2. }
  unfold voteField. destruct (composeField cfg frames fld) as [[cv coh] mt]. cbn [fst] in C. injection C as -> ->.
  destruct (topHeld _) as [[[tv tw] rw] tot]. apply in_map_iff in Hh as ([v w] & Ev & Hin). cbn in Ev. subst v.
  assert (E : existsb (fun hv => fst hv =? fieldOf t fld) (heldValues cfg frames fld) = true).
  { apply existsb_exists. exists (fieldOf t fld, w). split; [done|]. apply Z.eqb_refl. }
  by rewrite E.
Qed.
End Clean.

Lemma rangeValid_inRange t : rangeValid t = true -> fieldsInRange t = true.
Proof.
  rewrite rangeValid_spec. intros (H1 & H2 & H3 & H4). pose proof (yearLen_range (tf_year2 t)).
  unfold fieldsInRange. rewrite !andb_true_iff, !Z.leb_le. lia.
Qed.

Lemma buildNormalized_unanimous cfg fs t :
  mapsOk cfg = true -> rangeValid t = true ->
  (forall i f, fs !! i = Some f -> transmits cfg f (advanceMinutes t (Z.of_nat i))) ->
  unanimous cfg (buildNormalizedFrames cfg fs) (advanceMinutes t (Z.of_nat (length fs) - 1)).
Proof.
  intros M V T. apply Forall_lookup. intros i nf Hi. unfold buildNormalizedFrames in Hi.
  rewrite list_lookup_imap in Hi. destruct (fs !! i) as [f|] eqn:E; [|done]. cbn in Hi. injection Hi as <-.
  apply lookup_lt_Some in E as L. specialize (T i f E).
  destruct (transmits_normalized cfg f (advanceMinutes t (Z.of_nat i)) (Z.of_nat (length fs) - 1 - Z.of_nat i)
    M ltac:(apply advanceMinutes_valid; [done|lia]) T ltac:(lia)) as (N1 & N2 & N3).
  rewrite advanceMinutes_add in N2, N3 by (done || lia).
  replace (Z.of_nat i + (Z.of_nat (length fs) - 1 - Z.of_nat i)) with (Z.of_nat (length fs) - 1) in * by lia.
  done.
Qed.

Lemma clean_window `{Pow} (cfg : Config) (fs : list Frame) (t : TimeFields) :
  fs <> [] -> Forall frameOk fs -> powOk cfg (Z.of_nat (length fs)) ->
  mapsOk cfg = true -> rangeValid t = true ->
  (forall i f, fs !! i = Some f -> transmits cfg f (advanceMinutes t (Z.of_nat i))) ->
  votedTimestamp cfg fs = advanceMinutes t (Z.of_nat (length fs) - 1).
Proof.
  intros N F P M V T. set (T1 := advanceMinutes t (Z.of_nat (length fs) - 1)).
  assert (L : 0 < Z.of_nat (length fs)) by (destruct fs; [done|cbn; lia]).
  assert (V1 : rangeValid T1 = true) by (apply advanceMinutes_valid; [done|lia]).
  pose proof (buildNormalized_ok cfg fs F) as Ok. pose proof (buildNormalized_unanimous cfg fs t M V T) as U.
  assert (Ne : buildNormalizedFrames cfg fs <> []) by (by destruct fs).
  pose proof (fun fld => voteField_unanimous cfg _ _ T1 fld P Ok Ne U M V1) as W.
  unfold votedTimestamp, computeResolution. destruct (buildNormalizedFrames cfg fs) as [|nf0 fr] eqn:E; [done|].
  pose proof (W FieldMinutes) as W1. pose proof (W FieldHours) as W2.
  pose proof (W FieldDoy) as W3. pose proof (W FieldYear) as W4.
  destruct (voteField cfg _ FieldMinutes) as [m qm]. destruct (voteField cfg _ FieldHours) as [h qh].
  destruct (voteField cfg _ FieldDoy) as [d qd]. destruct (voteField cfg _ FieldYear) as [y qy].
  cbn [fst] in *. subst. assert (Et : TF (fieldOf T1 FieldMinutes) (fieldOf T1 FieldHours)
    (fieldOf T1 FieldDoy) (fieldOf T1 FieldYear) = T1) by (by destruct T1).
  rewrite Et, rangeValid_inRange by done. done.
Qed.

(** ** Properties *)

(** Advancing a valid timestamp by minutes is addition in the calendar.
    The result is valid, it is the timestamp [m] minutes later counted from 2000
    (the two-digit year wrapping after a century), and the day-of-year loop
    always runs to its end. *)
Lemma advanceMinutes_spec (t : TimeFields) (m : Z) :
  rangeValid t = true -> 0 <= m ->
  rangeValid (advanceMinutes t m) = true /\
  minutesSince2000 (advanceMinutes t m) = (minutesSince2000 t + m) mod (36525 * 1440).
Proof. intros V Hm. by apply advanceMinutes_minutes. Qed.

(** C10: the vote never assembles a phantom. Whatever the window holds, the
    voted timestamp is either none at all, or each of its fields is the field
    of some frame of the window that decoded within the broadcast ranges,
    brought to the newest frame's minute. *)
Theorem voted_no_phantom `{Pow} (cfg : Config) (fs : list Frame) :
  Forall frameOk fs -> powOk cfg (Z.of_nat (length fs)) ->
  let t := votedTimestamp cfg fs in
  t = TimeFields_none \/
  fieldsInRange t = true /\
  forall fld, exists i f, fs !! i = Some f /\ rangeValid (rawFields cfg f) = true /\
    fieldOf t fld = fieldOf (advanceMinutes (rawFields cfg f) (Z.of_nat (length fs) - 1 - Z.of_nat i)) fld.
Proof.
  intros F P. pose proof (buildNormalized_ok cfg fs F) as Ok.
  assert (Src : forall nf, nf ∈ buildNormalizedFrames cfg fs -> nf_valid nf = true ->
    exists i f, fs !! i = Some f /\ rangeValid (rawFields cfg f) = true /\
      nf_ext nf = advanceMinutes (rawFields cfg f) (Z.of_nat (length fs) - 1 - Z.of_nat i)).
  { intros nf Hin Hv. apply list_elem_of_lookup in Hin as [i Hi]. unfold buildNormalizedFrames in Hi.
    rewrite list_lookup_imap in Hi. destruct (fs !! i) as [f|] eqn:E; [|done]. cbn in Hi. injection Hi as <-.
    exists i, f. split; [done|]. unfold normalizeFrame in *.
    by destruct (rangeValid (rawFields cfg f)). }
  assert (Fld : forall fld, (exists i f, fs !! i = Some f /\ rangeValid (rawFields cfg f) = true /\
      fst (voteField cfg (buildNormalizedFrames cfg fs) fld) =
      fieldOf (advanceMinutes (rawFields cfg f) (Z.of_nat (length fs) - 1 - Z.of_nat i)) fld) \/
      (filter (fun nf => nf_valid nf = true) (buildNormalizedFrames cfg fs) = [] /\
       fst (voteField cfg (buildNormalizedFrames cfg fs) fld) = 0)).
  { intros fld. destruct (voteField_held cfg _ _ fld P Ok) as [(nf & Hin & Hv & E)|]; [left|by right].
    destruct (Src nf Hin Hv) as (i & f & Hf & R & Ex). exists i, f. by rewrite <- E, Ex. }
  unfold votedTimestamp, computeResolution. cbn zeta.
  destruct (buildNormalizedFrames cfg fs) as [|nf0 frames0] eqn:Eb; [by left|]. rewrite <- Eb in *.
  pose proof (Fld FieldMinutes) as F1. pose proof (Fld FieldHours) as F2.
  pose proof (Fld FieldDoy) as F3. pose proof (Fld FieldYear) as F4.
  destruct (voteField cfg _ FieldMinutes) as [m qm]. destruct (voteField cfg _ FieldHours) as [h qh].
  destruct (voteField cfg _ FieldDoy) as [d qd]. destruct (voteField cfg _ FieldYear) as [y qy].
  cbn [fst] in *. destruct (fieldsInRange (TF m h d y)) eqn:R; cbn [r_value].
  - right. split; [done|].
    destruct F3 as [F3|[Nv F3]]; [|rewrite F3 in R; unfold fieldsInRange in R; cbn [tf_doy] in R;
      rewrite andb_false_r in R; by rewrite ?andb_false_l in R].
    destruct F3 as (i3 & f3 & H3 & V3 & E3).
    assert (Ne : filter (fun nf => nf_valid nf = true) (buildNormalizedFrames cfg fs) <> []).
    { intros N. assert (I : normalizeFrame cfg f3 (Z.of_nat (length fs) - 1 - Z.of_nat i3) ∈
        filter (fun nf => nf_valid nf = true) (buildNormalizedFrames cfg fs)).
      { apply list_elem_of_filter. split; [unfold normalizeFrame; by rewrite V3|].
        apply list_elem_of_lookup. exists i3. unfold buildNormalizedFrames.
        by rewrite list_lookup_imap, H3. }
      rewrite N in I. by apply not_elem_of_nil in I. }
    intros [| | |]; cbn [fieldOf tf_minute tf_hour tf_doy tf_year2].
    + by destruct F1 as [?|[? _]].
    + by destruct F2 as [?|[? _]].
    + by exists i3, f3.
    + by destruct F4 as [?|[? _]].
  - destruct (bestFrame_cases cfg (buildNormalizedFrames cfg fs)) as [->|(nf & Hin & Hv & ->)]; [by left|right].
    destruct (Src nf Hin Hv) as (i & f & Hf & V & Ex).
    rewrite Forall_forall in Ok. destruct (Ok nf Hin) as (_ & Rv & _).
    split; [by apply rangeValid_inRange, Rv|]. intros fld. exists i, f. by rewrite Ex.
Qed.

(** C11: a clean window is read right. When successive frames transmit
    successive minutes of the broadcast in the voter's own encoding, whatever
    the strength of each second and whatever carries the window crosses, the
    voted timestamp is the newest frame's minute. *)
Theorem clean_window_voted `{Pow} (cfg : Config) (fs : list Frame) (t : TimeFields) :
  fs <> [] -> Forall frameOk fs -> powOk cfg (Z.of_nat (length fs)) ->
  mapsOk cfg = true -> rangeValid t = true ->
  (forall i f, fs !! i = Some f -> transmits cfg f (advanceMinutes t (Z.of_nat i))) ->
  votedTimestamp cfg fs = advanceMinutes t (Z.of_nat (length fs) - 1).
Proof. apply clean_window. Qed.

(** C12: a lock is never granted without its evidence. When the verdict is
    locked, the window holds at least the frames required, all but at most one
    fewer of which follow their predecessor by a minute; one of its newest is
    valid; the vote's quality is at the floor; and the voted timestamp is within
    the plausibility bound of the reference, if there is one in range. *)
Theorem locked_has_evidence `{Pow} (cfg : Config) (fs : list Frame) :
  l_locked (lockVerdict cfg fs) = true ->
  minFramesForLock cfg <= Z.of_nat (length fs) /\
  minFramesForLock cfg - 1 <= increments cfg fs /\
  freshWindow cfg (buildNormalizedFrames cfg fs) = true /\ fs <> [] /\
  ((0 <? minLockQuality cfg)%D = true ->
   (r_quality (computeResolution cfg fs) <? minLockQuality cfg)%D = false) /\
  (forall ref, referenceNow cfg = Some ref -> fieldsInRange ref = true -> 0 < plausibilityBoundMinutes cfg ->
   Z.abs (minutesSince2000 (votedTimestamp cfg fs) - minutesSince2000 ref) <= plausibilityBoundMinutes cfg).
Proof.
  unfold lockVerdict. destruct (Z.ltb_spec (Z.of_nat (length fs)) (minFramesForLock cfg)); [done|].
  destruct (Z.ltb_spec (increments cfg fs) (minFramesForLock cfg - 1)).
  { destruct (negb _); [done|]. by destruct (contested _). }
  destruct (_ || negb _) eqn:E; [done|]. apply orb_false_iff in E as [E1 E2].
  apply negb_false_iff in E2. destruct (existsb _ _); [done|].
  unfold honestyGates. intros L. repeat split; try lia; try done.
  - intros ->. done.
  - intros Hq. rewrite Hq in L. cbn [orb andb] in L. by destruct (r_quality _ <? _)%D.
  - intros ref Hr Hi Hb. rewrite Hr in L.
    replace (0 <? plausibilityBoundMinutes cfg) with true in L by lia. rewrite orb_true_r, Hi in L.
    destruct (_ && _); [done|]. unfold votedTimestamp.
    destruct ((plausibilityBoundMinutes cfg <? _) || _) eqn:B; [done|].
    apply orb_false_iff in B as [B1 B2]. lia.
Qed.

(** *** Witnesses *)

Lemma advanceMinutes_spec_witness :
  advanceMinutes (TF 59 23 366 24) 1 = TF 0 0 1 25 /\
  minutesSince2000 (advanceMinutes (TF 59 23 366 24) 1) = minutesSince2000 (TF 59 23 366 24) + 1.
Proof.
  split; [reflexivity|].
  destruct (advanceMinutes_spec (TF 59 23 366 24) 1 eq_refl ltac:(lia)) as [_ ->]. reflexivity.
Defined.

(** Powers of the aging factor by repeated multiplication: a concrete [pow]. *)
Definition demoPow : Pow :=
  let p (mul : double -> double -> double) (x y : double) :=
    Nat.iter (Z.to_nat (d2ll y)) (fun a => mul a x) 1%D in
  {| powf := p fmul; pow := p PrimFloat.mul |}.

(** The frame that sends [t] by a station's maps, every second at strength [c]. *)
Definition sendFrame (cfg : Config) (t : TimeFields) (c : double) : Frame :=
  MkFrame
    (fold_left (fun syms fld =>
       fold_left (fun syms '(bw, s) => <[Z.to_nat (bw_second bw) := s]> syms)
                 (zip (fields cfg fld) (encodeField (fields cfg fld) (fieldOf t fld))) syms)
     allFields (replicate 60 SymMarker))
    (replicate 60 c).

(** WWV over the end of the leap year 2024. *)
Definition demoWindow : list Frame :=
  map (fun i => sendFrame wwvVoter (advanceMinutes (TF 58 23 366 24) i) 0.5%D) [0; 1; 2; 3].

Lemma demo_powOk : @powOk demoPow wwvVoter 4.
Proof.
  intros age Ha. assert (In age [0; 1; 2; 3]) as Hin by (cbn; lia).
  repeat (destruct Hin as [<-|Hin]; [split; (refine (proj2 (atLeast_key _ _ _) _); [lia|vm_compute; discriminate])|]). done.
Defined.

Lemma demo_frameOk : Forall frameOk demoWindow.
Proof. repeat constructor. Defined.

(** Checkable form of what [clean_window_voted] asks of a window. *)
Definition windowTransmits (cfg : Config) (fs : list Frame) (t : TimeFields) : bool :=
  forallb (fun '(i, f) => forallb (fun fld => bool_decide
      (map (fun bw => symAt f (bw_second bw)) (fields cfg fld) =
       encodeField (fields cfg fld) (fieldOf (advanceMinutes t (Z.of_nat i)) fld))) allFields)
    (imap pair fs).

Lemma windowTransmits_ok cfg fs t :
  windowTransmits cfg fs t = true ->
  forall i f, fs !! i = Some f -> transmits cfg f (advanceMinutes t (Z.of_nat i)).
Proof.
  unfold windowTransmits. rewrite forallb_forall. intros W i f Hf fld.
  assert (Hin : In (i, f) (imap pair fs)).
  { apply list_elem_of_In, list_elem_of_lookup. exists i. by rewrite list_lookup_imap, Hf. }
  specialize (W _ Hin). cbn beta iota in W. rewrite forallb_forall in W.
  specialize (W fld ltac:(destruct fld; cbn; tauto)). by apply bool_decide_eq_true in W.
Defined.

Lemma voted_no_phantom_witness :
  @votedTimestamp demoPow wwvVoter demoWindow = TF 1 0 1 25 /\
  exists i f, demoWindow !! i = Some f /\ rangeValid (rawFields wwvVoter f) = true /\
    1 = fieldOf (advanceMinutes (rawFields wwvVoter f) (4 - 1 - Z.of_nat i)) FieldDoy.
Proof.
  assert (E : @votedTimestamp demoPow wwvVoter demoWindow = TF 1 0 1 25) by (vm_compute; reflexivity).
  split; [exact E|].
  destruct (@voted_no_phantom demoPow wwvVoter demoWindow demo_frameOk demo_powOk) as [N|[_ F]].
  - exfalso. rewrite E in N. discriminate.
  - specialize (F FieldDoy). rewrite E in F. exact F.
Defined.

Lemma clean_window_voted_witness : @votedTimestamp demoPow wwvVoter demoWindow = TF 1 0 1 25.
Proof.
  rewrite (@clean_window_voted demoPow wwvVoter demoWindow (TF 58 23 366 24)).
  - vm_compute. reflexivity.
  - discriminate.
  - exact demo_frameOk.
  - exact demo_powOk.
  - vm_compute. reflexivity.
  - vm_compute. reflexivity.
  - apply windowTransmits_ok. vm_compute. reflexivity.
Defined.

Definition demoReferenced : Config := setPlausibility wwvVoter (Some (TF 0 0 1 25)) 5.

Lemma locked_has_evidence_witness :
  l_locked (@lockVerdict demoPow demoReferenced demoWindow) = true /\
  Z.abs (minutesSince2000 (@votedTimestamp demoPow demoReferenced demoWindow) -
         minutesSince2000 (TF 0 0 1 25)) <= 5.
Proof.
  assert (L : l_locked (@lockVerdict demoPow demoReferenced demoWindow) = true) by (vm_compute; reflexivity).
  split; [exact L|].
  destruct (@locked_has_evidence demoPow demoReferenced demoWindow L) as (_ & _ & _ & _ & _ & B).
  apply (B (TF 0 0 1 25)); reflexivity.
Defined.
