(* ===== verification/Intersection.v ===== *)
(** * The intersection of intervals (src/Selector.cpp, Marzullo / Mills)
    Sources assert intervals; the sweep over their endpoints finds the stretches
    where most of them overlap, and the sources that hold the one picked
    survive. *)

From Stdlib Require Import ZArith Lia List Bool Floats Sorted Permutation.
From stdpp Require Import base list sorting.
From S2P Require Import Prelude Doubles.

#[local] Open Scope Z_scope.

(** An interval: its ends as the source computes them. *)
Record Interval := MkInterval { lo : double; hi : double }.

Record Edge := MkEdge { e_at : double; e_delta : Z }.

Definition edgesOf (l : list Interval) : list Edge :=
  concat (map (fun i => [MkEdge (lo i) 1; MkEdge (hi i) (-1)]) l).

(** The comparator: closing edges before opening ones at one coordinate. *)
Definition edgeBefore (a b : Edge) : bool :=
  if negb (e_at a =? e_at b)%D then (e_at a <? e_at b)%D else e_delta a <? e_delta b.
Definition edgeLe (a b : Edge) : Prop := edgeBefore b a = false.
#[export] Instance edgeLe_dec : RelDecision edgeLe.
Proof. intros a b. unfold edgeLe. apply _. Defined.

Definition sortedEdges (l : list Interval) : list Edge := merge_sort edgeLe (edgesOf l).

(** The first pass: the greatest number open just after an opening edge. *)
Fixpoint sweepBest (open best : Z) (es : list Edge) : Z :=
  match es with
  | [] => best
  | e :: es =>
      let open := open + e_delta e in
      sweepBest open (if 0 <? e_delta e then Z.max best open else best) es
  end.

Record Region := MkRegion { r_lo : double; r_hi : double }.

(** The second pass: every stretch that many are open over. *)
Fixpoint sweepRegions (best open : Z) (es : list Edge) : list Region :=
  match es with
  | [] => []
  | e :: es =>
      let open := open + e_delta e in
      if (0 <? e_delta e) && (open =? best)
      then MkRegion (e_at e) (match es with [] => e_at e | e' :: _ => e_at e' end)
             :: sweepRegions best open es
      else sweepRegions best open es
  end.

Definition bestOverlap (l : list Interval) : Z := sweepBest 0 0 (sortedEdges l).
Definition regionsOf (l : list Interval) : list Region := sweepRegions (bestOverlap l) 0 (sortedEdges l).

Definition inRegion (i : Interval) (r : Region) : bool := (r_lo r >=? lo i)%D && (r_lo r <=? hi i)%D.

(** ** Lemmas *)

#[export] Instance edgeLe_total : Total edgeLe.
Proof.
  intros a b. unfold edgeLe, edgeBefore. rewrite !deqb_key, !dltb_key.
  destruct (dkey (e_at a)) as [x|], (dkey (e_at b)) as [y|]; cbn [negb]; auto.
  destruct (Z.eqb_spec x y), (Z.eqb_spec y x); cbn [negb]; try lia; rewrite !Z.ltb_ge; lia.
Qed.

Lemma Sorted_StronglySorted_on {A} (R : A -> A -> Prop) (P : A -> Prop) l :
  Forall P l -> (forall x y z, P x -> P y -> P z -> R x y -> R y z -> R x z) ->
  Sorted R l -> StronglySorted R l.
Proof.
  intros F T S. induction S as [|x l S IH Hd]; [constructor|].
  apply Forall_cons in F as [Px F]. constructor; [by apply IH|]. specialize (IH F).
  destruct Hd as [|y l Rxy]; [constructor|]. constructor; [done|].
  apply Forall_cons in F as [Py F]. inversion IH as [|? ? _ Hy]; subst.
  rewrite List.Forall_forall in Hy, F |- *. intros z Hz. apply (T x y z); auto.
Qed.

(** An edge that is a number, up or down by one. *)
Definition edgeOk (e : Edge) : Prop :=
  dnan (e_at e) = false /\ (e_delta e = 1 \/ e_delta e = -1).

Lemma edgeLe_key a b ka kb :
  dkey (e_at a) = Some ka -> dkey (e_at b) = Some kb ->
  (edgeLe a b <-> ka < kb \/ (ka = kb /\ e_delta a <= e_delta b)).
Proof.
  intros Ea Eb. unfold edgeLe, edgeBefore. rewrite deqb_key, dltb_key, Ea, Eb.
  destruct (Z.eqb_spec kb ka); cbn [negb]; rewrite Z.ltb_ge; lia.
Qed.

Lemma dnan_key x : dnan x = false -> exists k, dkey x = Some k.
Proof. unfold dnan. destruct (dkey x); [by eexists|done]. Qed.

Lemma edgeLe_trans_on x y z :
  edgeOk x -> edgeOk y -> edgeOk z -> edgeLe x y -> edgeLe y z -> edgeLe x z.
Proof.
  intros [Nx _] [Ny _] [Nz _].
  destruct (dnan_key _ Nx) as [kx Ex]. destruct (dnan_key _ Ny) as [ky Ey]. destruct (dnan_key _ Nz) as [kz Ez].
  rewrite (edgeLe_key x y kx ky), (edgeLe_key y z ky kz), (edgeLe_key x z kx kz) by done. lia.
Qed.

(** The intervals are proper: their ends are numbers, in order. *)
Definition proper (i : Interval) : Prop := (lo i <=? hi i)%D = true.

Lemma proper_keys i : proper i -> exists a b, dkey (lo i) = Some a /\ dkey (hi i) = Some b /\ a <= b.
Proof.
  unfold proper. rewrite dleb_key. destruct (dkey (lo i)) as [a|], (dkey (hi i)) as [b|]; try done.
  intros H%Z.leb_le. by exists a, b.
Qed.

Lemma edgesOf_ok l : Forall proper l -> Forall edgeOk (edgesOf l).
Proof.
  intros F. induction F as [|i l Hi F IH]; [constructor|].
  destruct (proper_keys i Hi) as (a & b & Ea & Eb & _). unfold edgesOf. cbn [map concat app].
  constructor; [|constructor; [|exact IH]]; (split; [unfold dnan; cbn; by rewrite ?Ea, ?Eb|cbn; auto]).
Qed.

Lemma sortedEdges_perm l : sortedEdges l ≡ₚ edgesOf l.
Proof. apply merge_sort_Permutation. Qed.

Lemma sortedEdges_ok l : Forall proper l -> Forall edgeOk (sortedEdges l).
Proof. intros F. rewrite sortedEdges_perm. by apply edgesOf_ok. Qed.

Lemma sortedEdges_sorted l : Forall proper l -> StronglySorted edgeLe (sortedEdges l).
Proof.
  intros F. apply (Sorted_StronglySorted_on _ edgeOk); [by apply sortedEdges_ok|apply edgeLe_trans_on|].
  apply Sorted_merge_sort. apply _.
Qed.

(** *** Counting *)

Fixpoint sumDelta (es : list Edge) : Z :=
  match es with [] => 0 | e :: es => e_delta e + sumDelta es end.

(** Opening edges less closing ones, up to a coordinate. *)
Fixpoint netAt (x : double) (es : list Edge) : Z :=
  match es with [] => 0 | e :: es => (if (e_at e <=? x)%D then e_delta e else 0) + netAt x es end.

(** How many intervals hold a coordinate, their upper end excluded. *)
Definition holds (x : double) (i : Interval) : bool := (lo i <=? x)%D && (x <? hi i)%D.
Fixpoint depth (x : double) (l : list Interval) : Z :=
  match l with [] => 0 | i :: l => (if holds x i then 1 else 0) + depth x l end.

Lemma sumDelta_app a b : sumDelta (a ++ b) = sumDelta a + sumDelta b.
Proof. induction a as [|e a IH]; cbn; lia. Qed.
Lemma netAt_app x a b : netAt x (a ++ b) = netAt x a + netAt x b.
Proof. induction a as [|e a IH]; cbn; lia. Qed.

Lemma netAt_perm x a b : a ≡ₚ b -> netAt x a = netAt x b.
Proof. induction 1; cbn; lia. Qed.

Lemma netAt_depth x l : dnan x = false -> Forall proper l -> netAt x (edgesOf l) = depth x l.
Proof.
  intros Nx F. destruct (dnan_key _ Nx) as [k Ek].
  induction F as [|i l Hi F IH]; [done|]. unfold edgesOf. cbn [map concat app netAt depth e_at e_delta].
  fold (edgesOf l). rewrite IH. unfold holds.
  destruct (proper_keys i Hi) as (a & b & Ea & Eb & Hab). rewrite !dleb_key, dltb_key, Ea, Eb, Ek.
  destruct (Z.leb_spec a k), (Z.leb_spec b k), (Z.ltb_spec k b); cbn [andb]; lia.
Qed.

(** At an opening edge of the sorted sweep no more are open than its coordinate
    nets, and as many at the last one there. *)
Lemma open_le_net pre e post :
  Forall edgeOk (pre ++ e :: post) -> StronglySorted edgeLe (pre ++ e :: post) -> e_delta e = 1 ->
  sumDelta pre + 1 <= netAt (e_at e) (pre ++ e :: post) /\
  (Forall (fun e' => (e_at e' <=? e_at e)%D = false) post ->
   sumDelta pre + 1 = netAt (e_at e) (pre ++ e :: post)).
Proof.
  intros F S D. apply Forall_app in F as [Fp F]. apply Forall_cons in F as [Fe Fq].
  apply StronglySorted_app in S as (Cross & _ & S). inversion S as [|? ? _ After]; subst.
  destruct Fe as [Ne De]. destruct (dnan_key _ Ne) as [k Ek].
  assert (P : netAt (e_at e) pre = sumDelta pre).
  { assert (B : Forall (fun e' => edgeLe e' e) pre).
    { apply Forall_forall. intros e' He'. apply Cross; [done|by left]. }
    clear Cross S After. revert Fp B. induction pre as [|e' pre IH]; intros Fp B; [done|].
    apply Forall_cons in Fp as [[N' D'] Fp]. apply Forall_cons in B as [Hb B]. cbn. rewrite IH by done.
    destruct (dnan_key _ N') as [k' Ek']. apply (edgeLe_key e' e k' k Ek' Ek) in Hb.
    rewrite dleb_key, Ek', Ek. destruct (Z.leb_spec k' k); lia. }
  rewrite netAt_app, P. cbn [netAt]. rewrite dleb_key, Ek, Z.leb_refl, D.
  assert (Q : 0 <= netAt (e_at e) post /\
    (Forall (fun e' => (e_at e' <=? e_at e)%D = false) post -> netAt (e_at e) post = 0)).
  { clear P Cross S Fp. revert Fq After. induction post as [|e' post IH]; intros Fq After; [done|].
    apply Forall_cons in Fq as [[N' D'] Fq]. apply Forall_cons in After as [Ha After].
    destruct (IH Fq After) as [IH1 IH2]. cbn [netAt].
    destruct (dnan_key _ N') as [k' Ek']. apply (edgeLe_key e e' k k' Ek Ek') in Ha.
    rewrite dleb_key, Ek', Ek. destruct (Z.leb_spec k' k).
    - split; [lia|]. intros Z0. apply Forall_cons in Z0 as [Z0 _].
      rewrite dleb_key, Ek', Ek in Z0. lia.
    - split; [lia|]. intros Z0. apply Forall_cons in Z0 as [_ Z0]. rewrite IH2 by done. lia. }
  destruct Q as [Q1 Q2]. split; [lia|]. intros Z0. rewrite Q2 by done. lia.
Qed.

Lemma sweepBest_spec es : forall open best,
  best <= sweepBest open best es /\
  (forall pre e post, es = pre ++ e :: post -> 0 < e_delta e ->
     open + sumDelta pre + e_delta e <= sweepBest open best es) /\
  (sweepBest open best es = best \/
   exists pre e post, es = pre ++ e :: post /\ 0 < e_delta e /\
     sweepBest open best es = open + sumDelta pre + e_delta e).
Proof.
  induction es as [|e es IH]; intros open best; cbn [sweepBest].
  - split; [lia|]. split; [|by left]. by intros [|] ? ?.
  - set (b := if 0 <? e_delta e then Z.max best (open + e_delta e) else best).
    destruct (IH (open + e_delta e) b) as (H1 & H2 & H3).
    assert (Hb : best <= b) by (unfold b; destruct (0 <? e_delta e); lia).
    split; [lia|]. split.
    + intros [|e0 pre] e' post [= <- E] Hd; cbn [sumDelta].
      * assert (open + e_delta e <= b) by (unfold b; destruct (Z.ltb_spec 0 (e_delta e)); lia). lia.
      * specialize (H2 pre e' post E Hd). lia.
    + destruct H3 as [H3|(pre & e' & post & -> & Hd & H3)].
      * rewrite H3. unfold b. destruct (Z.ltb_spec 0 (e_delta e)) as [G|G]; [|by left].
        destruct (Z.max_spec best (open + e_delta e)) as [[? ->]|[? ->]]; [right|by left].
        exists [], e, es. cbn. split; [done|]. lia.
      * right. exists (e :: pre), e', post. cbn. split; [done|]. split; [done|]. lia.
Qed.

Lemma sweepRegions_spec best es : forall open r,
  r ∈ sweepRegions best open es <->
  exists pre e post, es = pre ++ e :: post /\ 0 < e_delta e /\ open + sumDelta pre + e_delta e = best /\
    r = MkRegion (e_at e) (match post with [] => e_at e | e' :: _ => e_at e' end).
Proof.
  induction es as [|e es IH]; intros open r; cbn [sweepRegions].
  - split; [intros H; by apply not_elem_of_nil in H|]. by intros ([|] & ? & ? & ? & _).
  - assert (Tail : (exists pre e' post, es = pre ++ e' :: post /\ 0 < e_delta e' /\
        open + e_delta e + sumDelta pre + e_delta e' = best /\
        r = MkRegion (e_at e') (match post with [] => e_at e' | e'' :: _ => e_at e'' end)) <->
      exists pre e' post, e :: es = pre ++ e' :: post /\ pre <> [] /\ 0 < e_delta e' /\
        open + sumDelta pre + e_delta e' = best /\
        r = MkRegion (e_at e') (match post with [] => e_at e' | e'' :: _ => e_at e'' end)).
    { split.
      - intros (pre & e' & post & -> & Hd & Hs & Hr). exists (e :: pre), e', post. cbn.
        split; [done|]. split; [done|]. split; [done|]. split; [lia|done].
      - intros ([|e0 pre] & e' & post & E & Hp & Hd & Hs & Hr); [done|]. injection E as <- ->.
        exists pre, e', post. cbn in Hs. split; [done|]. split; [done|]. split; [lia|done]. }
    destruct ((0 <? e_delta e) && (open + e_delta e =? best)) eqn:C.
    + apply andb_true_iff in C as [C1 C2]. rewrite elem_of_cons, IH, Tail. split.
      * intros [->|(pre & e' & post & ? & ? & ? & ? & ?)].
        -- exists [], e, es. cbn. split; [done|]. split; [lia|]. split; [lia|done].
        -- by exists pre, e', post.
      * intros ([|e0 pre] & e' & post & E & Hd & Hs & Hr); [left|right].
        -- by injection E as <- <-.
        -- by exists (e0 :: pre), e', post.
    + rewrite IH, Tail. split.
      * intros (pre & e' & post & ? & ? & ? & ? & ?). by exists pre, e', post.
      * intros ([|e0 pre] & e' & post & E & Hd & Hs & Hr).
        -- injection E as <- <-. cbn in Hs. apply andb_false_iff in C as [C|C]; lia.
        -- by exists (e0 :: pre), e', post.
Qed.

(** The last edge of its kind in a list. *)
Lemma last_such (P : Edge -> Prop) `{forall e, Decision (P e)} es :
  Exists P es -> exists pre e post, es = pre ++ e :: post /\ P e /\ Forall (fun e' => ~ P e') post.
Proof.
  induction es as [|e es IH]; intros E; [by apply Exists_nil in E|].
  destruct (decide (Exists P es)) as [E'|N].
  - destruct (IH E') as (pre & e' & post & -> & Pe & F). by exists (e :: pre), e', post.
  - exists [], e, es. apply Exists_cons in E as [Pe|?]; [|done]. split; [done|]. split; [done|].
    by apply Forall_Exists_neg.
Qed.

(** What the sweep finds: at every end of an interval no more are open than the
    best, and a best region's lower end is held by that many. *)
Lemma bestOverlap_upper l i :
  Forall proper l -> i ∈ l -> depth (lo i) l <= bestOverlap l.
Proof.
  intros F Hi. pose proof (sortedEdges_ok l F) as Ok. pose proof (sortedEdges_sorted l F) as S.
  pose proof F as F0. rewrite Forall_forall in F0. destruct (proper_keys i (F0 i Hi)) as (k & b & Ek & Eb & _).
  assert (Nx : dnan (lo i) = false) by (unfold dnan; by rewrite Ek).
  rewrite <- (netAt_depth (lo i) l Nx F), <- (netAt_perm (lo i) _ _ (sortedEdges_perm l)).
  assert (Ex : Exists (fun e => e_delta e = 1 /\ (e_at e =? lo i)%D = true) (sortedEdges l)).
  { rewrite sortedEdges_perm. apply Exists_exists. exists (MkEdge (lo i) 1). split.
    - unfold edgesOf. apply list_elem_of_In, in_concat.
      exists [MkEdge (lo i) 1; MkEdge (hi i) (-1)]. split; [|by left].
      apply in_map_iff. exists i. split; [done|]. by apply list_elem_of_In.
    - cbn. split; [done|]. rewrite deqb_key, Ek. apply Z.eqb_refl. }
  destruct (last_such _ _ Ex) as (pre & e & post & El & [De Ee] & Nl).
  unfold bestOverlap. destruct (sweepBest_spec (sortedEdges l) 0 0) as (_ & Up & _).
  specialize (Up pre e post El ltac:(lia)).
  rewrite El in Ok, S |- *. destruct (open_le_net pre e post Ok S De) as [_ Eq].
  assert (Ek' : dkey (e_at e) = Some k).
  { rewrite deqb_key, Ek in Ee. destruct (dkey (e_at e)); [|done]. apply Z.eqb_eq in Ee. congruence. }
  assert (Same : netAt (lo i) (pre ++ e :: post) = netAt (e_at e) (pre ++ e :: post)).
  { generalize (pre ++ e :: post) as es. intros es. induction es as [|e' es IH]; [done|]. cbn. rewrite IH.
    by rewrite !dleb_key, Ek, Ek'. }
  rewrite Same, <- Eq; [rewrite El in Up; lia|].
  apply Forall_app in Ok as [_ Ok]. apply Forall_cons in Ok as [_ Ok].
  apply StronglySorted_app in S as (_ & _ & S). inversion S as [|? ? _ After]; subst.
  apply Forall_forall. intros e' He'. rewrite Forall_forall in Ok, After, Nl.
  destruct (Ok e' He') as [N' D']. destruct (dnan_key _ N') as [k' Ek2].
  specialize (After e' He'). apply (edgeLe_key e e' k k' Ek' Ek2) in After.
  rewrite dleb_key, Ek2, Ek'. apply Z.leb_gt. destruct (Z.eq_dec k' k) as [->|]; [|lia]. exfalso.
  apply (Nl e' He'). rewrite deqb_key, Ek2, Ek, Z.eqb_refl. lia.
Qed.

(** The coordinates between which the depth is greatest are lower ends. *)
Lemma depth_at_lower x l :
  dnan x = false -> Forall proper l -> 0 < depth x l ->
  exists i, i ∈ l /\ depth x l <= depth (lo i) l.
Proof.
  intros Nx F Pos. destruct (dnan_key _ Nx) as [k Ek].
  (* the greatest lower end not above x *)
  assert (G : forall l0, Forall proper l0 -> (exists i, i ∈ l0 /\ (lo i <=? x)%D = true) ->
    exists i, i ∈ l0 /\ (lo i <=? x)%D = true /\
      Forall (fun j => (lo j <=? x)%D = true -> (lo j <=? lo i)%D = true) l0).
  { induction l0 as [|j l0 IH]; intros Fp (i & Hi & Li); [by apply not_elem_of_nil in Hi|].
    apply Forall_cons in Fp as [Pj Fp]. destruct (proper_keys j Pj) as (kj & ? & Ej & _ & _).
    destruct (decide (Exists (fun i => (lo i <=? x)%D = true) l0)) as [Ex|Nex];
      rewrite Exists_exists in *.
    - destruct (IH Fp Ex) as (m & Hm & Lm & Fm).
      assert (Pm : proper m) by (rewrite Forall_forall in Fp; by apply Fp).
      destruct (proper_keys m Pm) as (km & ? & Em & _ & _).
      destruct (decide ((lo j <=? x)%D = true /\ (lo m <=? lo j)%D = true)) as [[L1 L2]|N].
      + exists j. split; [by left|]. split; [done|]. constructor.
        * intros _. rewrite dleb_key, Ej. apply Z.leb_refl.
        * eapply Forall_impl; [exact Fm|]. intros q Hq Lq. eapply dleb_trans; [by apply Hq|done].
      + exists m. split; [by right|]. split; [done|]. constructor; [|done]. intros L1.
        rewrite dleb_key, Ej, Em. destruct (Z.leb_spec kj km); [done|]. exfalso. apply N. split; [done|].
        rewrite dleb_key, Ej, Em. apply Z.leb_le. lia.
    - assert (i = j) as ->.
      { apply elem_of_cons in Hi as [|Hi]; [done|]. exfalso. apply Nex. by exists i. }
      exists j. split; [by left|]. split; [done|]. constructor.
      + intros _. rewrite dleb_key, Ej. apply Z.leb_refl.
      + apply Forall_forall. intros q Hq Lq. exfalso. apply Nex. by exists q. }
  assert (Ex : exists i, i ∈ l /\ (lo i <=? x)%D = true).
  { clear -Pos. induction l as [|i l IH]; [cbn in Pos; lia|]. cbn in Pos. unfold holds in Pos.
    destruct (lo i <=? x)%D eqn:E; [exists i; split; [by left|done]|]. cbn in Pos.
    destruct IH as (j & Hj & Lj); [lia|]. exists j. split; [by right|done]. }
  destruct (G l F Ex) as (i & Hi & Li & Fi). exists i. split; [done|].
  assert (Pi : proper i) by (rewrite Forall_forall in F; by apply F).
  destruct (proper_keys i Pi) as (a & ? & Ea & _ & _).
  rewrite dleb_key, Ea, Ek in Li. apply Z.leb_le in Li. clear G Ex Pos Hi Pi.
  induction l as [|j l IH]; [done|]. apply Forall_cons in F as [Pj F]. apply Forall_cons in Fi as [Fj Fi].
  specialize (IH F Fi). cbn [depth]. destruct (proper_keys j Pj) as (kj & hj & Ej & Eh & Hj).
  assert (holds x j = true -> holds (lo i) j = true).
  { unfold holds. intros [H1 H2]%andb_true_iff. rewrite (Fj H1). rewrite dltb_key, Ek, Eh in H2.
    rewrite dltb_key, Ea, Eh. apply Z.ltb_lt in H2. cbn. apply Z.ltb_lt. lia. }
  destruct (holds x j), (holds (lo i) j); try lia.
Qed.

Lemma bestOverlap_nonneg l : 0 <= bestOverlap l.
Proof. destruct (sweepBest_spec (sortedEdges l) 0 0) as (H & _). exact H. Qed.

(** No coordinate is held by more intervals than the best. *)
Lemma depth_le_best x l : dnan x = false -> Forall proper l -> depth x l <= bestOverlap l.
Proof.
  intros Nx F. destruct (Z.le_gt_cases (depth x l) 0) as [G|G]; [pose proof (bestOverlap_nonneg l); lia|].
  destruct (depth_at_lower x l Nx F G) as (i & Hi & L). pose proof (bestOverlap_upper l i F Hi). lia.
Qed.

Lemma region_depth l r :
  Forall proper l -> r ∈ regionsOf l ->
  depth (r_lo r) l = bestOverlap l /\ dnan (r_lo r) = false.
Proof.
  intros F Hr. apply sweepRegions_spec in Hr as (pre & e & post & El & Hd & Hs & ->). cbn [r_lo].
  pose proof (sortedEdges_ok l F) as Ok. pose proof (sortedEdges_sorted l F) as S.
  rewrite El in Ok, S. assert (Oe : edgeOk e) by (rewrite Forall_app, Forall_cons in Ok; tauto).
  destruct Oe as [Ne De]. split; [|done].
  destruct (open_le_net pre e post Ok S ltac:(lia)) as [Le _].
  rewrite <- El, (netAt_perm _ _ _ (sortedEdges_perm l)), netAt_depth in Le by done.
  pose proof (depth_le_best (e_at e) l Ne F). lia.
Qed.

(** There is always a region to pick. *)
Lemma regionsOf_nonempty l : l <> [] -> Forall proper l -> regionsOf l <> [].
Proof.
  intros N F E.
  assert (A : exists r, r ∈ regionsOf l); [|rewrite E in A; destruct A as [r A]; by apply not_elem_of_nil in A].
  unfold regionsOf. setoid_rewrite sweepRegions_spec.
  assert (W : exists pre e post, sortedEdges l = pre ++ e :: post /\ 0 < e_delta e /\
            0 + sumDelta pre + e_delta e = bestOverlap l).
  { unfold bestOverlap. destruct (sweepBest_spec (sortedEdges l) 0 0) as (_ & Up & [B|(pre & e & post & El & Hd & B)]).
    - destruct l as [|i l]; [done|]. pose proof (bestOverlap_upper (i :: l) i F ltac:(by left)) as Hi.
      pose proof (Forall_inv F) as Pi. destruct (proper_keys i Pi) as (a & b & Ea & Eb & _).
      (* the last opening edge at this end nets at least nothing *)
      pose proof (sortedEdges_ok _ F) as Ok. pose proof (sortedEdges_sorted _ F) as S.
      assert (Ex : Exists (fun e => e_delta e = 1) (sortedEdges (i :: l))).
      { rewrite sortedEdges_perm. left. done. }
      destruct (last_such _ _ Ex) as (pre & e & post & El & De & Nl).
      exists pre, e, post. split; [done|]. split; [lia|]. rewrite B.
      specialize (Up pre e post El ltac:(lia)). rewrite B in Up.
      assert (Tot : sumDelta (sortedEdges (i :: l)) = 0).
      { assert (P : forall x y : list Edge, x ≡ₚ y -> sumDelta x = sumDelta y) by (induction 1; cbn; lia).
        rewrite (P _ _ (sortedEdges_perm (i :: l))). generalize (i :: l). clear.
        intros l. induction l as [|j l IH]; [done|]. unfold edgesOf in *. cbn [map concat app sumDelta e_delta]. lia. }
      rewrite El, sumDelta_app in Tot. cbn [sumDelta] in Tot.
      assert (Post : sumDelta post <= 0).
      { rewrite El in Ok. apply Forall_app in Ok as [_ Ok]. apply Forall_cons in Ok as [_ Ok].
        clear -Ok Nl. induction post as [|e' post IH]; [done|]. apply Forall_cons in Ok as [[_ D] Ok].
        apply Forall_cons in Nl as [N Nl]. specialize (IH Ok Nl). cbn. lia. }
      lia.
    - exists pre, e, post. split; [done|]. split; [done|]. lia. }
  destruct W as (pre & e & post & El & Hd & Hs). eexists. by exists pre, e, post.
Qed.

(** What survives at a coordinate is at least what is held there. *)
Lemma depth_le_survivors r l :
  depth (r_lo r) l <= Z.of_nat (length (filter (fun i => inRegion i r = true) l)).
Proof.
  induction l as [|i l IH]; [done|]. cbn [depth]. rewrite filter_cons.
  assert (holds (r_lo r) i = true -> inRegion i r = true).
  { unfold holds, inRegion. intros [H1 H2]%andb_true_iff. rewrite H1. cbn. revert H2. clear. dorder. }
  destruct (holds (r_lo r) i); [rewrite decide_True by auto; cbn [length]; lia|].
  case_decide; cbn [length]; lia.
Qed.
