(* ===== verification/SourceTypes.v ===== *)
(** * Sources and their configuration (src/Config.h, src/Config.cpp,
    src/SourceSnapshot.h)
    The enumerations the configuration names, the parts of the configuration
    the selector uses, and the part of a source's snapshot that it reads. *)

From Stdlib Require Import ZArith Lia List Bool Ascii String.
From stdpp Require Import base list strings.
From S2P Require Import Prelude Doubles.

#[local] Open Scope string_scope.
#[local] Open Scope Z_scope.

Inductive SourceKind := Radio | Ntp.
#[export] Instance SourceKind_eq_dec : EqDecision SourceKind.
Proof. solve_decision. Defined.

Definition sourceKindName (k : SourceKind) : string :=
  match k with Radio => "radio" | Ntp => "ntp" end.

Definition oneOf (s : string) (l : list string) : bool := existsb (String.eqb s) l.

Definition parseSourceKind (s : string) : option SourceKind :=
  if oneOf s ["radio"; "wwv"; "hf"] then Some Radio
  else if oneOf s ["ntp"; "network"] then Some Ntp else None.

Inductive SecondaryMode := Always | Standby | Cold.
#[export] Instance SecondaryMode_eq_dec : EqDecision SecondaryMode.
Proof. solve_decision. Defined.

Definition secondaryModeName (m : SecondaryMode) : string :=
  match m with Always => "always" | Standby => "standby" | Cold => "cold" end.

Definition parseSecondaryMode (s : string) : option SecondaryMode :=
  if oneOf s ["always"; "combine"] then Some Always
  else if oneOf s ["standby"; "warm"; "fallback"] then Some Standby
  else if oneOf s ["cold"; "on_demand"; "on-demand"; "off"] then Some Cold else None.

Record ClockConfig := MkClockConfig {
  primary : SourceKind;
  secondary : SecondaryMode;
  failoverAfterSec : double;
  failbackAfterSec : double;
  minSecondarySources : Z
}.
Definition defaultClock : ClockConfig := MkClockConfig Radio Standby 60 300 1.

(** Which broadcast a frequency is, by its carrier and the dial. *)
Definition kDcf77CarrierHz : Z := 77500.
Definition kAllouisCarrierHz : Z := 162000.
Definition kLf60CarrierHz : Z := 60000.
Definition kWwvbCeilingHz : Z := 1000000.
Definition kDcf77MaxDialOffsetHz : Z := 5000.
Definition kWwvMaxDialOffsetHz : Z := 4000.

Inductive Broadcast := BWwv | BWwvb | BDcf77 | BAllouis | BLf60.
Definition broadcastFor (carrierHz dialHz : Z) : Broadcast :=
  if carrierHz =? kDcf77CarrierHz then BDcf77
  else if carrierHz =? kAllouisCarrierHz then BAllouis
  else if (carrierHz =? kLf60CarrierHz) && (dialHz =? carrierHz) then BLf60
  else if dialHz <? kWwvbCeilingHz then BWwvb else BWwv.
Definition isIqBroadcast (b : Broadcast) : bool := match b with BWwvb => false | _ => true end.
Definition wwvOnlyCarrier (carrierHz : Z) : bool := (carrierHz =? 20000000) || (carrierHz =? 25000000).

(** An upstream's own figures, as the selector uses them. *)
Record NtpPeerInfo := MkPeerInfo {
  p_stratum : Z;
  p_rootDelaySec : double;
  p_delaySec : double;
  p_server : string;
  p_addressHost : string;
  p_addressRefid : Z
}.
Definition noPeer : NtpPeerInfo := MkPeerInfo 0 0 0 "" "" 0.

Record SourceSnapshot := MkSnapshot {
  s_name : string;
  s_kind : SourceKind;
  s_primaryClass : bool;
  s_ready : bool;
  s_notReadyReason : string;
  s_station : string;
  s_leapPending : bool;
  s_haveOffset : bool;
  s_offsetSec : double;
  s_offsetAtSec : double;
  s_offsetRate : double;
  s_offsetRateUncertainty : double;
  s_offsetRateMeasured : bool;
  s_dispersionSec : double;
  s_weightDispersionSec : double;
  s_offsetAgeSec : double;
  s_maxOffsetAgeSec : double;
  s_offsetSamples : Z;
  s_ntp : NtpPeerInfo;
  s_weight : double
}.
