(* ===== verification/Selector.v ===== *)
(** * Which time is served (src/Selector.cpp)
    Every source's offset is judged against its own class, the class that
    serves is chosen, the largest agreeing set of its sources is combined, and
    with none the clock coasts. One call of [combine] is one step of the state.
    The texts that explain a decision are values of [WhyNot] and [Note] here;
    [std::exp] and [std::pow] are the class [Libm], and the reading of the two
    clocks, [daemonMinusRealtime], is an argument. *)

From Stdlib Require Import ZArith Lia List Bool Ascii String Floats.
From stdpp Require Import base list strings gmap sorting.
From S2P Require Import Prelude Doubles Rounding SourceTypes Intersection.

#[local] Open Scope string_scope.
#[local] Open Scope Z_scope.

Definition kCandidateMaxAgeSec : double := 180%D.
Definition kResidualTauSec : double := 300%D.
Definition kResidualSettleSec : double := 120%D.
Definition kReacquireAfterSec : double := 300%D.
Definition kReacquireMaxSec : double := 3600%D.
Definition kMaxStratum : Z := 15.
Definition kMinPeersToJudge : Z := 2.
Definition kMaxDisagreementSec : double := 0.030%D.

Class Libm := { std_exp : double -> double; std_pow : double -> double -> double }.

Definition refidFor (station : string) : string :=
  if String.eqb station "wwvh" then "WWVH"
  else if String.eqb station "wwvb" then "WWVB"
  else if String.eqb station "dcf77" then "DCF"
  else if String.eqb station "msf" then "MSF"
  else if String.eqb station "allouis" then "TDF"
  else "WWV".

(** Why a source is not in the answer. *)
Inductive WhyNot :=
| NotReady (why : string)
| TooOld (age limit : double)
| StillFiltering (samples : Z)
| NoDispersion
| RefusedBy (averaged : double) (again : option double)
| StandingBy
| TakingBackIn (sec : double)
| Recovering
| OutsideMajority (k_offset k_dist : double) (best : Z) (tied : bool)
| TooFewAgree (agree minimum : Z).

Inductive ServingClass := ServeNone | ServePrimary | ServeSecondary | ServeBoth | ServeCoasting.
#[export] Instance ServingClass_eq_dec : EqDecision ServingClass.
Proof. solve_decision. Defined.
Definition servingClassName (c : ServingClass) : string :=
  match c with
  | ServeNone => "none" | ServePrimary => "primary" | ServeSecondary => "secondary"
  | ServeBoth => "both" | ServeCoasting => "coasting"
  end.

(** Notes beside the answer: [servingNote] and [note]. *)
Inductive Note :=
| NoNote
| SecondaryNotReady
| FailedOver
| CoastingNoLock (takeOverIn : option double)
| CoastingNoAgreement (takeOverIn : option double)
| Unsynchronised
| NeverHadTime
| NeverAgreed.

Record Candidate := MkCandidate {
  k_s : SourceSnapshot; k_offset : double; k_dist : double; k_quality : double;
  k_weight : double; k_primary : bool
}.

Record SourceResidual := MkResidual {
  sr_name : string; sr_kind : SourceKind; sr_instantSec : double; sr_averagedSec : double;
  sr_haveAverage : bool; sr_peers : Z; sr_refused : bool; sr_judged : bool; sr_settledForSec : double
}.

Record ResidualState := MkResidualState {
  ra_averagedSec : double; ra_lastAtSec : double; ra_firstAtSec : double;
  ra_refusalLogged : bool; ra_seeded : bool
}.
Definition newResidual : ResidualState := MkResidualState 0 0 0 false false.
Record ReacquireState := MkReacquire { rq_refusedSinceSec : double; rq_count : Z }.
Definition newReacquire : ReacquireState := MkReacquire 0 0.

Record ClassDelta := MkClassDelta {
  cd_valid : bool; cd_instantSec : double; cd_averagedSec : double; cd_haveAverage : bool;
  cd_settledForSec : double; cd_primarySources : Z; cd_secondarySources : Z
}.
Definition noDelta : ClassDelta := MkClassDelta false 0 0 false 0 0 0.
Record ClassDeltaState := MkDeltaState {
  ds_seeded : bool; ds_averagedSec : double; ds_lastAtSec : double; ds_firstAtSec : double
}.
Definition newDelta : ClassDeltaState := MkDeltaState false 0 0 0.

Record Combined := MkCombined {
  c_valid : bool; c_synchronised : bool;
  c_offsetSec : double; c_atSec : double; c_rate : double; c_rateUncertainty : double; c_rateMeasured : bool;
  c_hostOffsetSec : double; c_dispersionSec : double; c_rootDispersionSec : double; c_ageSec : double;
  c_used : Z; c_candidates : Z; c_stratum : Z; c_rootDelaySec : double;
  c_refid : string; c_refidIsAddress : bool; c_refidAddress : Z;
  c_serving : ServingClass; c_leapPending : bool;
  c_usedNames : list string; c_note : Note; c_servingNote : Note
}.
Definition noCombined : Combined :=
  MkCombined false false 0 0 0 0 false 0 0 0 0 0 0 1 0 "WWV" false 0 ServeNone false [] NoNote NoNote.

(** What a step reports beside [Combined]: who was not used and why, whom to
    send back, the residuals, the class delta and the two countdowns. *)
Record Report := MkReport {
  rp_rejected : list string; rp_why : gmap string WhyNot; rp_reacquire : list string;
  rp_residuals : list SourceResidual; rp_delta : ClassDelta;
  rp_primaryCandidates : Z; rp_secondaryCandidates : Z;
  rp_failoverInSec : double; rp_failbackInSec : double
}.

Record Serving := MkServing {
  onSecondary : bool; primaryLostSince : double; primaryHealthySince : double; secondaryActive : bool
}.

Record Selector := MkSelector {
  residualAvg : gmap string ResidualState;
  reacquire : gmap string ReacquireState;
  classDelta : ClassDeltaState;
  serving : Serving;
  haveLast : bool;
  lastGoodOffset : double; lastGoodRate : double; lastGoodRateUncertainty : double;
  lastGoodRateMeasured : bool; lastGoodDispersion : double; lastGoodRootDispersion : double;
  lastGoodAt : double; lastGoodMeasuredAt : double;
  lastCombined : Combined
}.

(** The constructor's arguments. *)
Record SelConfig := MkSelConfig {
  coastSeconds : double; coastDriftPpm : double; minSources : Z; clock : ClockConfig
}.
Definition newSelector (cfg : SelConfig) : Selector :=
  MkSelector ∅ ∅ newDelta
    (MkServing false 0 0 (negb (bool_decide (secondary (clock cfg) = Cold))))
    false 0 0 0 false 0 0 0 0 noCombined.

Definition utcAt (c : Combined) (daemonSec : double) : double :=
  (daemonSec + c_offsetSec c + c_rate c * (daemonSec - c_atSec c))%D.

(** ** Candidates *)

Definition ageLimit (s : SourceSnapshot) : double :=
  if (0 <? s_maxOffsetAgeSec s)%D then s_maxOffsetAgeSec s else kCandidateMaxAgeSec.

(** Why a source is no candidate, most specific first. *)
Definition notCandidate (s : SourceSnapshot) : option WhyNot :=
  if negb (s_ready s) then
    Some (NotReady (if String.eqb (s_notReadyReason s) "" then "not ready" else s_notReadyReason s))
  else if (ageLimit s <? s_offsetAgeSec s)%D then Some (TooOld (s_offsetAgeSec s) (ageLimit s))
  else if negb (s_haveOffset s) then Some (StillFiltering (s_offsetSamples s))
  else if (s_dispersionSec s <=? 0)%D then Some NoDispersion
  else None.

Definition candidateOf (cfg : SelConfig) (s : SourceSnapshot) (now : double) : Candidate :=
  let offsetNow := (s_offsetSec s + s_offsetRate s * (now - s_offsetAtSec s))%D in
  let staleness := (s_offsetAgeSec s * (coastDriftPpm cfg * 1e-6 + s_offsetRateUncertainty s))%D in
  let quality := ((if (0 <? s_weightDispersionSec s) then s_weightDispersionSec s
                   else s_dispersionSec s) + staleness)%D in
  MkCandidate s offsetNow (s_dispersionSec s + staleness)%D quality
    (if (0 <? s_weight s)%D then s_weight s else 1%D) (s_primaryClass s).

Definition isCandidate (s : SourceSnapshot) : bool := match notCandidate s with None => true | _ => false end.
Definition candidatesOf (cfg : SelConfig) (primary : bool) (snaps : list SourceSnapshot) (now : double)
  : list Candidate :=
  map (fun s => candidateOf cfg s now)
      (filter (fun s => isCandidate s && Bool.eqb (s_primaryClass s) primary = true) snaps).

(** ** Agreement within a class *)

Definition dleR (x y : double) : Prop := (y <? x)%D = false.
#[export] Instance dleR_dec : RelDecision dleR.
Proof. intros x y. unfold dleR. apply _. Defined.

Definition medianOffset (v : list Candidate) : double :=
  match v with
  | [] => 0%D
  | _ =>
      let all := merge_sort dleR (map k_offset v) in
      let mid := (length all / 2)%nat in
      if Nat.odd (length all) then nth mid all 0%D
      else (0.5 * (nth (mid - 1) all 0 + nth mid all 0))%D
  end.

(** What [judgeClass] carries from candidate to candidate. *)
Record Judging := MkJudging {
  j_avg : gmap string ResidualState; j_reacq : gmap string ReacquireState;
  j_refused : gset string; j_why : gmap string WhyNot;
  j_residuals : list SourceResidual; j_again : list string
}.

Section Judge.
Context `{Libm}.

(** A reading blended into a running average. *)
Definition blend (averaged instant dt : double) : double :=
  if (0 <? dt)%D then (averaged + (1 - std_exp (- dt / kResidualTauSec)) * (instant - averaged))%D
  else averaged.

Definition noteResidual (ra : ResidualState) (instant now : double) (peers : Z) : ResidualState :=
  let ra' :=
    if kMinPeersToJudge <=? peers then
      if negb (ra_seeded ra) then MkResidualState instant (ra_lastAtSec ra) now (ra_refusalLogged ra) true
      else MkResidualState (blend (ra_averagedSec ra) instant (now - ra_lastAtSec ra)%D)
             (ra_lastAtSec ra) (ra_firstAtSec ra) (ra_refusalLogged ra) true
    else ra in
  MkResidualState (ra_averagedSec ra') now (ra_firstAtSec ra') (ra_refusalLogged ra') (ra_seeded ra').

Definition residualOf (k : Candidate) (ra : ResidualState) (instant now : double) (peers : Z) : SourceResidual :=
  let averaged := if ra_seeded ra then ra_averagedSec ra else instant in
  let settled := if ra_seeded ra then (now - ra_firstAtSec ra)%D else 0%D in
  let judged := (kMinPeersToJudge <=? peers) && (settled >=? kResidualSettleSec)%D in
  let refused := judged && (kMaxDisagreementSec <? dabs averaged)%D in
  MkResidual (s_name (k_s k)) (s_kind (k_s k)) instant averaged true peers refused judged settled.

Definition reacquireWait (count : Z) : double :=
  dmin (kReacquireAfterSec * std_pow 2 (d_of_Z count))%D kReacquireMaxSec.

(** A refused source's timer: the new timer, why, and whether to start over. *)
Definition refuse (rq : ReacquireState) (averaged now : double) : ReacquireState * WhyNot * bool :=
  let since := if (rq_refusedSinceSec rq <=? 0)%D then now else rq_refusedSinceSec rq in
  let wait := reacquireWait (rq_count rq) in
  let refusedFor := (now - since)%D in
  if (refusedFor >=? wait)%D then (MkReacquire 0 (rq_count rq + 1), RefusedBy averaged None, true)
  else (MkReacquire since (rq_count rq), RefusedBy averaged (Some (dceil ((wait - refusedFor) / 60))), false).

Definition judgeOne (consensus now : double) (peers : Z) (j : Judging) (k : Candidate) : Judging :=
  let name := s_name (k_s k) in
  let instant := (k_offset k - consensus)%D in
  let ra := noteResidual (default newResidual (j_avg j !! name)) instant now peers in
  let r := residualOf k ra instant now peers in
  let rq := default newReacquire (j_reacq j !! name) in
  let ra := if sr_refused r || sr_judged r
            then MkResidualState (ra_averagedSec ra) (ra_lastAtSec ra) (ra_firstAtSec ra) (sr_refused r) (ra_seeded ra)
            else ra in
  let avg := <[name := ra]> (j_avg j) in
  if sr_refused r then
    let '(rq, why, again) := refuse rq (sr_averagedSec r) now in
    MkJudging avg (<[name := rq]> (j_reacq j)) ({[name]} ∪ j_refused j) (<[name := why]> (j_why j))
      (j_residuals j ++ [r])%list (if again then j_again j ++ [name] else j_again j)%list
  else
    let rq := if sr_judged r then newReacquire else rq in
    MkJudging avg (<[name := rq]> (j_reacq j)) (j_refused j) (j_why j)
      (j_residuals j ++ [r])%list (j_again j).

Definition judgeClass (cand : list Candidate) (now : double) (j : Judging) : Judging :=
  let consensus := medianOffset cand in
  fold_left (judgeOne consensus now (Z.of_nat (length cand) - 1)) cand j.

(** A source sent back is judged afresh. *)
Definition forget (names : list string) (avg : gmap string ResidualState) : gmap string ResidualState :=
  fold_left (fun m n => base.delete n m) names avg.

Definition keepUnrefused (refused : gset string) (cand : list Candidate) : list Candidate :=
  filter (fun k => s_name (k_s k) ∉ refused) cand.
Definition refusedNames (refused : gset string) (cand : list Candidate) : list string :=
  map (fun k => s_name (k_s k)) (filter (fun k => s_name (k_s k) ∈ refused) cand).

(** What the classes say of each other. *)
Definition measureDelta (ds : ClassDeltaState) (p s : list Candidate) (now : double) : ClassDeltaState * ClassDelta :=
  match p, s with
  | _ :: _, _ :: _ =>
      let instant := (medianOffset p - medianOffset s)%D in
      let ds :=
        if negb (ds_seeded ds) then MkDeltaState true instant now now
        else MkDeltaState true (blend (ds_averagedSec ds) instant (now - ds_lastAtSec ds)%D) now (ds_firstAtSec ds) in
      (ds, MkClassDelta true instant (ds_averagedSec ds) true (now - ds_firstAtSec ds)%D
             (Z.of_nat (length p)) (Z.of_nat (length s)))
  | _, _ => (newDelta, noDelta)
  end.
End Judge.

(** ** Which class serves *)

Definition primaryUsable (cfg : SelConfig) (p : list Candidate) : bool :=
  (minSources cfg <=? Z.of_nat (length p)) && negb (length p =? 0)%nat.
Definition secondaryUsable (cfg : SelConfig) (s : list Candidate) : bool :=
  (minSecondarySources (clock cfg) <=? Z.of_nat (length s)) && negb (length s =? 0)%nat.

(** Since when the primary class has been usable, or not. *)
Definition noteHealth (sv : Serving) (pu : bool) (now : double) : Serving :=
  if pu then
    MkServing (onSecondary sv) 0 (if (primaryHealthySince sv <=? 0)%D then now else primaryHealthySince sv)
      (secondaryActive sv)
  else
    MkServing (onSecondary sv) (if (primaryLostSince sv <=? 0)%D then now else primaryLostSince sv) 0
      (secondaryActive sv).

Record ServeStep := MkServeStep {
  ss_serving : Serving; ss_failoverIn : double; ss_failbackIn : double; ss_note : Note
}.

(** Failing over, failing back, and whether a cold standby is up. *)
Definition serveStep (ck : ClockConfig) (sv : Serving) (pu su configured : bool) (now : double) : ServeStep :=
  match secondary ck with
  | Always => MkServeStep (MkServing false (primaryLostSince sv) (primaryHealthySince sv) true) 0 0 NoNote
  | mode =>
      let lostFor := (if (0 <? primaryLostSince sv) then now - primaryLostSince sv else 0)%D in
      let healthyFor := (if (0 <? primaryHealthySince sv) then now - primaryHealthySince sv else 0)%D in
      let '(on, failoverIn, failbackIn, note) :=
        if negb (onSecondary sv) then
          if negb pu && su && (lostFor >=? failoverAfterSec ck)%D then (true, 0%D, 0%D, NoNote)
          else if negb pu && configured && (lostFor >=? failoverAfterSec ck)%D
               then (false, 0%D, 0%D, SecondaryNotReady)
          else if negb pu && configured
               then (false, dmax 0 (failoverAfterSec ck - lostFor)%D, 0%D, NoNote)
          else (false, 0%D, 0%D, NoNote)
        else
          if pu && (healthyFor >=? failbackAfterSec ck)%D then (false, 0%D, 0%D, NoNote)
          else if pu then (true, 0%D, dmax 0 (failbackAfterSec ck - healthyFor)%D, NoNote)
          else (true, 0%D, 0%D, NoNote) in
      let want :=
        match mode with
        | Cold => on || negb pu ||
                  (secondaryActive sv && (0 <? primaryHealthySince sv)%D && (healthyFor <? failbackAfterSec ck)%D)
        | _ => true
        end in
      MkServeStep (MkServing on (primaryLostSince sv) (primaryHealthySince sv) want) failoverIn failbackIn note
  end.

(** The pool the answer is drawn from. *)
Definition pool (ck : ClockConfig) (sv : Serving) (p s : list Candidate) : list Candidate :=
  match secondary ck with
  | Always => (p ++ s)%list
  | _ => if onSecondary sv then s else p
  end.

(** What the held-out class is told. *)
Definition heldOut (ck : ClockConfig) (sv : Serving) (failbackIn : double) (p s : list Candidate)
    (why : gmap string WhyNot) : gmap string WhyNot :=
  match secondary ck with
  | Always => why
  | _ =>
      let tell w := fold_left (fun m k => <[s_name (k_s k) := w]> m) in
      if negb (onSecondary sv) then tell StandingBy s why
      else tell (if (0 <? failbackIn)%D then TakingBackIn failbackIn else Recovering) p why
  end.

Definition minToServe (cfg : SelConfig) (cand : list Candidate) : Z :=
  if existsb k_primary cand then minSources cfg else minSecondarySources (clock cfg).

(** ** The largest agreeing set *)

Definition intervalOf (k : Candidate) : Interval :=
  MkInterval (k_offset k - k_dist k)%D (k_offset k + k_dist k)%D.
Definition weightOf (k : Candidate) : double := (k_weight k / (k_quality k * k_quality k))%D.

(** How far a reference lies outside a region. *)
Definition away (ref : double) (r : Region) : double :=
  if (ref <? r_lo r)%D then (r_lo r - ref)%D else if (r_hi r <? ref)%D then (ref - r_hi r)%D else 0%D.
Definition score (cand : list Candidate) (r : Region) : double :=
  fold_left (fun w k => if inRegion (intervalOf k) r then (w + weightOf k)%D else w) cand 0%D.

(** The first region no later one improves on. *)
Definition pickBy (better : Region -> Region -> bool) (rs : list Region) : option Region :=
  match rs with
  | [] => None
  | r :: rs => Some (fold_left (fun best r => if better r best then r else best) rs r)
  end.

Definition pickRegion (st : Selector) (cand : list Candidate) (now : double) (rs : list Region) : option Region :=
  if haveLast st then
    let ref := (lastGoodOffset st + lastGoodRate st * (now - lastGoodAt st))%D in
    pickBy (fun r best => (away ref r <? away ref best)%D) rs
  else pickBy (fun r best => (score cand best <? score cand r)%D) rs.

(** The survivors; with more than one candidate, those that hold the region
    picked. There always is one: a [None] is never reached. *)
Definition survivorsOf (st : Selector) (cand : list Candidate) (now : double) : list Candidate :=
  match cand with
  | [] => []
  | [k] => [k]
  | _ =>
      match pickRegion st cand now (regionsOf (map intervalOf cand)) with
      | Some r => filter (fun k => inRegion (intervalOf k) r = true) cand
      | None => []
      end
  end.

Definition outsidersOf (st : Selector) (cand : list Candidate) (now : double) : list (Candidate * WhyNot) :=
  match cand with
  | [] | [_] => []
  | _ =>
      let rs := regionsOf (map intervalOf cand) in
      match pickRegion st cand now rs with
      | Some r =>
          map (fun k => (k, OutsideMajority (k_offset k) (k_dist k) (bestOverlap (map intervalOf cand))
                              (existsb (fun r' => inRegion (intervalOf k) r') rs)))
              (filter (fun k => inRegion (intervalOf k) r = false) cand)
      | None => []
      end
  end.

(** ** The weighted combine *)

Definition pathHalf (k : Candidate) : double :=
  match s_kind (k_s k) with
  | Ntp => ((p_rootDelaySec (s_ntp (k_s k)) + p_delaySec (s_ntp (k_s k))) / 2)%D
  | Radio => 0%D
  end.

Definition sumBy (f : Candidate -> double) (ks : list Candidate) : double :=
  fold_left (fun a k => a + f k)%D ks 0%D.

Definition combineOffset (k0 : Candidate) (ks : list Candidate) : double :=
  let sw := sumBy weightOf ks in
  if (0 <? sw)%D then (sumBy (fun k => weightOf k * k_offset k)%D ks / sw)%D else k_offset k0.

Definition spreadOf (offset : double) (ks : list Candidate) : double :=
  fold_left (fun a k => dmax a (dabs (k_offset k - offset)%D)) ks 0%D.

Definition combineDispersion (k0 : Candidate) (ks : list Candidate) (offset : double) : double :=
  let sw := sumBy weightOf ks in
  ((if (0 <? sw) then sumBy (fun k => weightOf k * k_dist k) ks / sw else k_dist k0)
   + spreadOf offset ks)%D.

Definition combineOffPath (k0 : Candidate) (ks : list Candidate) (dispersion : double) : double :=
  let sw := sumBy weightOf ks in
  (dispersion - (if (0 <? sw) then sumBy (fun k => weightOf k * dmin (pathHalf k) (k_dist k)) ks / sw
                 else dmin (pathHalf k0) (k_dist k0)))%D.

(** The rates of those that measured one, by how well each knows it. *)
Definition rateU (k : Candidate) : double := dmax (s_offsetRateUncertainty (k_s k)) 1e-9.
Definition measuredRates (ks : list Candidate) : list Candidate :=
  filter (fun k => s_offsetRateMeasured (k_s k) = true) ks.
Definition rateWeight (ks : list Candidate) : double :=
  sumBy (fun k => 1 / (rateU k * rateU k))%D (measuredRates ks).
Definition combineRate (ks : list Candidate) : double :=
  if (0 <? rateWeight ks)%D
  then (sumBy (fun k => s_offsetRate (k_s k) / (rateU k * rateU k)) (measuredRates ks) / rateWeight ks)%D
  else 0%D.
Definition combineRateUncertainty (ks : list Candidate) : double :=
  let rateBound := fold_left (fun a k => dmax a (s_offsetRateUncertainty (k_s k))) ks 0%D in
  let rateSpread := fold_left (fun a k => dmax a (dabs (s_offsetRate (k_s k) - combineRate ks)%D))
                              (measuredRates ks) 0%D in
  if (0 <? rateWeight ks)%D then dmax (1 / PrimFloat.sqrt (rateWeight ks))%D rateSpread else rateBound.

Definition isRadio (k : Candidate) : bool := bool_decide (s_kind (k_s k) = Radio).

(** One more than the lowest stratum among the survivors; a radio counts 0. *)
Definition combineStratum (ks : list Candidate) : Z :=
  let lowest := fold_left (fun l k => if isRadio k then 0 else Z.min l (p_stratum (s_ntp (k_s k)))) ks 16 in
  zclamp (lowest + 1) 1 kMaxStratum.

(** The first of least quality figure. *)
Definition tightestOf (k0 : Candidate) (ks : list Candidate) : Candidate :=
  fold_left (fun t k => if (k_quality k <? k_quality t)%D then k else t) ks k0.

(** The station named: the greatest summed weight, a tie keeping the tightest's.
    [std::map] is read in the order of its keys. *)
Definition stationWeights (ks : list Candidate) : gmap string double :=
  fold_left (fun m k => <[s_station (k_s k) := (default 0 (m !! s_station (k_s k)) + weightOf k)%D]> m) ks ∅.
Definition byKey (a b : string * double) : Prop := String.le (fst a) (fst b).
#[export] Instance byKey_dec : RelDecision byKey.
Proof. intros a b. unfold byKey. apply _. Defined.

Definition stationOf (radios : list Candidate) : string :=
  match radios with
  | [] => ""
  | k0 :: ks =>
      let w := stationWeights radios in
      let station := s_station (k_s (tightestOf k0 ks)) in
      fst (fold_left (fun '(best, bw) '(name, x) => if (bw <? x)%D then (name, x) else (best, bw))
             (merge_sort byKey (map_to_list w)) (station, default 0%D (w !! station)))
  end.

Definition servingOf (ks : list Candidate) : ServingClass :=
  match existsb k_primary ks, existsb (fun k => negb (k_primary k)) ks with
  | true, true => ServeBoth
  | true, false => ServePrimary
  | false, _ => ServeSecondary
  end.

Definition combineSurvivors (cfg : SelConfig) (k0 : Candidate) (ks : list Candidate)
    (candidates : Z) (note : Note) (now dmr : double) : Combined :=
  let offset := combineOffset k0 ks in
  let dispersion := combineDispersion k0 ks offset in
  let radios := filter (fun k => isRadio k = true) ks in
  let tightest := tightestOf k0 ks in
  let ntp := s_ntp (k_s tightest) in
  let anyRadio := existsb isRadio ks in
  let rootDelay := if anyRadio then 0%D else (p_rootDelaySec ntp + p_delaySec ntp)%D in
  let serving := servingOf ks in
  MkCombined true true offset now (combineRate ks) (combineRateUncertainty ks) (0 <? rateWeight ks)%D
    (offset + dmr)%D dispersion
    (if anyRadio then dispersion
     else dmax (dispersion - rootDelay / 2)%D (combineOffPath k0 ks dispersion))
    (fold_left (fun a k => dmin a (s_offsetAgeSec (k_s k))) ks 1e9%D)
    (Z.of_nat (length ks)) candidates (combineStratum ks) rootDelay
    (if anyRadio then refidFor (stationOf radios)
     else if String.eqb (p_addressHost ntp) "" then p_server ntp else p_addressHost ntp)
    (negb anyRadio) (if anyRadio then 0 else p_addressRefid ntp)
    serving (forallb (fun k => s_leapPending (k_s k)) ks)
    (map (fun k => s_name (k_s k)) ks) NoNote
    (if bool_decide (serving = ServeSecondary) && negb (bool_decide (secondary (clock cfg) = Always))
     then FailedOver else note).

(** ** Coasting *)

Definition coast (cfg : SelConfig) (st : Selector) (cand : list Candidate) (failoverIn : double) (note : Note)
    (now dmr : double) : Combined :=
  if haveLast st then
    let age := (now - lastGoodAt st)%D in
    let offset := (lastGoodOffset st + lastGoodRate st * age)%D in
    let growth := (age * (coastDriftPpm cfg * 1e-6 + lastGoodRateUncertainty st))%D in
    let last := lastCombined st in
    let takeOver := if (0 <? failoverIn)%D then Some failoverIn else None in
    let within := (age <=? coastSeconds cfg)%D in
    MkCombined true within offset now (lastGoodRate st) (lastGoodRateUncertainty st) (lastGoodRateMeasured st)
      (offset + dmr)%D (lastGoodDispersion st + growth)%D (lastGoodRootDispersion st + growth)%D
      (now - lastGoodMeasuredAt st)%D 0 (Z.of_nat (length cand)) (c_stratum last) (c_rootDelaySec last)
      (c_refid last) (c_refidIsAddress last) (c_refidAddress last) ServeCoasting false []
      (if within then (if (length cand =? 0)%nat then CoastingNoLock takeOver else CoastingNoAgreement takeOver)
       else Unsynchronised) note
  else
    MkCombined false false (- dmr)%D now 0 0 false 0 0 0 0 0 (Z.of_nat (length cand)) 16 0
      "WWV" false 0 ServeNone false []
      (if (length cand =? 0)%nat then NeverHadTime else NeverAgreed) note.

(** ** One step *)

Section Combine.
Context `{Libm}.

Definition tellAll (l : list (string * WhyNot)) (why : gmap string WhyNot) : gmap string WhyNot :=
  fold_left (fun m '(n, w) => <[n := w]> m) l why.

(** The first half of [combine]: candidates, agreement, class delta, and the
    class that serves. *)
Record Judgement := MkJudgement {
  jd_state : Selector; jd_primary : list Candidate; jd_secondary : list Candidate;
  jd_cand : list Candidate; jd_note : Note; jd_report : Report
}.

Definition judgeAll (cfg : SelConfig) (st : Selector) (snaps : list SourceSnapshot) (now : double) : Judgement :=
  let secondaryConfigured := existsb (fun s => negb (s_primaryClass s)) snaps in
  let notReady := omap (fun s => w ← notCandidate s; Some (s_name s, w)) snaps in
  let p0 := candidatesOf cfg true snaps now in
  let s0 := candidatesOf cfg false snaps now in
  let j := judgeClass s0 now
             (judgeClass p0 now (MkJudging (residualAvg st) (reacquire st) ∅ ∅ [] [])) in
  let p := keepUnrefused (j_refused j) p0 in
  let s := keepUnrefused (j_refused j) s0 in
  let names := (refusedNames (j_refused j) p0 ++ refusedNames (j_refused j) s0)%list in
  let '(ds, delta) := measureDelta (classDelta st) p s now in
  let pu := primaryUsable cfg p in
  let step := serveStep (clock cfg) (noteHealth (serving st) pu now) pu (secondaryUsable cfg s)
                secondaryConfigured now in
  let why := heldOut (clock cfg) (ss_serving step) (ss_failbackIn step) p s
               (tellAll (map (fun n => (n, default NoDispersion (j_why j !! n))) names)
                  (tellAll notReady ∅)) in
  MkJudgement
    (MkSelector (forget (j_again j) (j_avg j)) (j_reacq j) ds (ss_serving step) (haveLast st)
       (lastGoodOffset st) (lastGoodRate st) (lastGoodRateUncertainty st) (lastGoodRateMeasured st)
       (lastGoodDispersion st) (lastGoodRootDispersion st) (lastGoodAt st) (lastGoodMeasuredAt st)
       (lastCombined st))
    p s (pool (clock cfg) (ss_serving step) p s) (ss_note step)
    (MkReport (map fst notReady ++ names)%list why (j_again j) (j_residuals j) delta
       (Z.of_nat (length p)) (Z.of_nat (length s)) (ss_failoverIn step) (ss_failbackIn step)).

Definition serves (cfg : SelConfig) (cand survivors : list Candidate) : bool :=
  (minToServe cfg cand <=? Z.of_nat (length survivors)) && negb (length survivors =? 0)%nat.

Definition remember (st : Selector) (c : Combined) (now : double) : Selector :=
  MkSelector (residualAvg st) (reacquire st) (classDelta st) (serving st) true
    (c_offsetSec c) (c_rate c) (c_rateUncertainty c) (c_rateMeasured c) (c_dispersionSec c)
    (c_rootDispersionSec c) now (now - c_ageSec c)%D c.
Definition withLast (st : Selector) (c : Combined) : Selector :=
  MkSelector (residualAvg st) (reacquire st) (classDelta st) (serving st) (haveLast st)
    (lastGoodOffset st) (lastGoodRate st) (lastGoodRateUncertainty st) (lastGoodRateMeasured st)
    (lastGoodDispersion st) (lastGoodRootDispersion st) (lastGoodAt st) (lastGoodMeasuredAt st) c.

Definition addWhy (rp : Report) (rejected : list string) (l : list (string * WhyNot)) : Report :=
  MkReport (rp_rejected rp ++ rejected)%list (tellAll l (rp_why rp)) (rp_reacquire rp) (rp_residuals rp)
    (rp_delta rp) (rp_primaryCandidates rp) (rp_secondaryCandidates rp) (rp_failoverInSec rp)
    (rp_failbackInSec rp).

Definition combine (cfg : SelConfig) (st : Selector) (snaps : list SourceSnapshot) (now dmr : double)
  : Combined * Report * Selector :=
  let j := judgeAll cfg st snaps now in
  let st := jd_state j in
  let cand := jd_cand j in
  let survivors := survivorsOf st cand now in
  let outsiders := map (fun kw : Candidate * WhyNot => (s_name (k_s (fst kw)), snd kw)) (outsidersOf st cand now) in
  let rp := addWhy (jd_report j) (map fst outsiders) outsiders in
  if serves cfg cand survivors then
    match survivors with
    | k0 :: _ =>
        let c := combineSurvivors cfg k0 survivors (Z.of_nat (length cand)) (jd_note j) now dmr in
        (c, rp, remember st c now)
    | [] => (noCombined, rp, st)
    end
  else
    let few := TooFewAgree (Z.of_nat (length survivors)) (minToServe cfg cand) in
    let c := coast cfg st cand (rp_failoverInSec rp) (jd_note j) now dmr in
    (c, addWhy rp [] (map (fun k => (s_name (k_s k), few)) survivors), withLast st c).
End Combine.

(** ** Lemmas *)

Lemma candidatesOf_spec cfg primary snaps now k :
  k ∈ candidatesOf cfg primary snaps now ->
  k_s k ∈ snaps /\ notCandidate (k_s k) = None /\ s_primaryClass (k_s k) = primary /\ k_primary k = primary.
Proof.
  unfold candidatesOf. intros (s & -> & Hs)%list_elem_of_fmap.
  apply list_elem_of_filter in Hs as [Hc Hs]. apply andb_true_iff in Hc as [Hc Hp].
  unfold isCandidate in Hc. destruct (notCandidate s) eqn:E; [done|]. apply Bool.eqb_prop in Hp.
  cbn. done.
Qed.

Lemma notCandidate_None s :
  notCandidate s = None ->
  s_ready s = true /\ (ageLimit s <? s_offsetAgeSec s)%D = false /\ s_haveOffset s = true /\
  (s_dispersionSec s <=? 0)%D = false.
Proof.
  unfold notCandidate. destruct (s_ready s); [|done]. cbn [negb]. destruct (_ <? _)%D; [done|].
  destruct (s_haveOffset s); [|done]. cbn [negb]. by destruct (_ <=? _)%D.
Qed.

Lemma survivorsOf_sub st cand now k : k ∈ survivorsOf st cand now -> k ∈ cand.
Proof.
  unfold survivorsOf. destruct cand as [|k1 [|k2 cand]]; [done|done|].
  destruct (pickRegion _ _ _ _); [|intros H0; by apply not_elem_of_nil in H0].
  intros [_ Hk]%list_elem_of_filter. done.
Qed.

Lemma pool_sub ck sv p s k : k ∈ pool ck sv p s -> k ∈ p \/ k ∈ s.
Proof.
  unfold pool. destruct (secondary ck).
  - by rewrite elem_of_app.
  - destruct (onSecondary sv); auto.
  - destruct (onSecondary sv); auto.
Qed.

Lemma pickBy_In better rs r : pickBy better rs = Some r -> r ∈ rs.
Proof.
  destruct rs as [|r0 rs]; [done|]. cbn. intros [= <-].
  assert (G : forall rs best, fold_left (fun best r => if better r best then r else best) rs best = best \/
    fold_left (fun best r => if better r best then r else best) rs best ∈ rs).
  { clear. induction rs as [|r rs IH]; intros best; [by left|]. cbn.
    destruct (IH (if better r best then r else best)) as [->|E]; [|right; by right].
    destruct (better r best); [right; by left|by left]. }
  destruct (G rs r0) as [->|E]; [by left|by right].
Qed.

Lemma pickBy_Some better rs : rs <> [] -> exists r, pickBy better rs = Some r.
Proof. destruct rs as [|r rs]; [done|]. by eexists. Qed.

Lemma pickRegion_spec st cand now rs :
  rs <> [] -> exists r, pickRegion st cand now rs = Some r /\ r ∈ rs.
Proof.
  intros N. unfold pickRegion. destruct (haveLast st);
    match goal with |- context [pickBy ?b rs] => destruct (pickBy_Some b rs N) as [r E];
      exists r; split; [done|by eapply pickBy_In] end.
Qed.

Lemma zclamp_stratum n : 1 <= zclamp n 1 kMaxStratum <= 15.
Proof. unfold kMaxStratum. pose proof (zclamp_range n 1 15). lia. Qed.

Lemma lowest_radio ks : forall l, l >= 0 ->
  Forall (fun k => 0 <= p_stratum (s_ntp (k_s k))) ks -> existsb isRadio ks = true ->
  fold_left (fun l k => if isRadio k then 0 else Z.min l (p_stratum (s_ntp (k_s k)))) ks l = 0.
Proof.
  assert (Zero : forall ks, Forall (fun k => 0 <= p_stratum (s_ntp (k_s k))) ks ->
    fold_left (fun l k => if isRadio k then 0 else Z.min l (p_stratum (s_ntp (k_s k)))) ks 0 = 0).
  { clear. induction ks as [|k ks IH]; intros F; [done|]. apply Forall_cons in F as [Fk F]. cbn.
    destruct (isRadio k); [by apply IH|]. rewrite Z.min_l by done. by apply IH. }
  induction ks as [|k ks IH]; intros l Hl F E; [done|]. apply Forall_cons in F as [Fk F]. cbn in *.
  destruct (isRadio k); [by apply Zero|]. apply IH; [lia|done|done].
Qed.

Lemma keepUnrefused_sub refused cand k : k ∈ keepUnrefused refused cand -> k ∈ cand /\ s_name (k_s k) ∉ refused.
Proof. unfold keepUnrefused. intros [? ?]%list_elem_of_filter. done. Qed.

Section Facts.
Context `{Libm}.

(** The candidates the answer is drawn from. *)
Lemma jd_cand_spec cfg st snaps now k :
  k ∈ jd_cand (judgeAll cfg st snaps now) ->
  k_s k ∈ snaps /\ notCandidate (k_s k) = None /\ k_primary k = s_primaryClass (k_s k).
Proof.
  unfold judgeAll. cbn zeta. destruct (measureDelta _ _ _ _) as [ds delta]. cbn [jd_cand].
  intros [[Hk _]%keepUnrefused_sub|[Hk _]%keepUnrefused_sub]%pool_sub;
    apply candidatesOf_spec in Hk as (H1 & H2 & H3 & H4); (split; [done|]; split; [done|congruence]).
Qed.

(** Both outcomes of a step. *)
Lemma combine_cases cfg st snaps now dmr c rp st' :
  combine cfg st snaps now dmr = (c, rp, st') ->
  let j := judgeAll cfg st snaps now in
  let survivors := survivorsOf (jd_state j) (jd_cand j) now in
  (exists k0 rest, survivors = k0 :: rest /\ serves cfg (jd_cand j) survivors = true /\
     c = combineSurvivors cfg k0 survivors (Z.of_nat (length (jd_cand j))) (jd_note j) now dmr /\
     st' = remember (jd_state j) c now) \/
  (serves cfg (jd_cand j) survivors = false /\
   c = coast cfg (jd_state j) (jd_cand j) (rp_failoverInSec (jd_report j)) (jd_note j) now dmr /\
   st' = withLast (jd_state j) c).
Proof.
  unfold combine. cbn zeta. set (j := judgeAll cfg st snaps now).
  set (survivors := survivorsOf (jd_state j) (jd_cand j) now).
  destruct (serves cfg (jd_cand j) survivors) eqn:E.
  - destruct survivors as [|k0 rest] eqn:Es.
    + unfold serves in E. cbn in E. by rewrite andb_false_r in E.
    + intros [= <- <- <-]. left. by exists k0, rest.
  - intros [= <- <- <-]. right. done.
Qed.

Lemma combine_residuals cfg st snaps now dmr :
  rp_residuals (snd (fst (combine cfg st snaps now dmr))) = rp_residuals (jd_report (judgeAll cfg st snaps now)).
Proof. unfold combine. cbn zeta. destruct (serves _ _ _); [|done]. by destruct (survivorsOf _ _ _). Qed.

Lemma jd_state_last cfg st snaps now :
  let s := jd_state (judgeAll cfg st snaps now) in
  haveLast s = haveLast st /\ lastCombined s = lastCombined st /\ lastGoodAt s = lastGoodAt st /\
  lastGoodOffset s = lastGoodOffset st /\ lastGoodRate s = lastGoodRate st.
Proof. unfold judgeAll. cbn zeta. by destruct (measureDelta _ _ _ _). Qed.
Lemma jd_state_grows cfg st snaps now :
  let s := jd_state (judgeAll cfg st snaps now) in
  lastGoodDispersion s = lastGoodDispersion st /\ lastGoodRateUncertainty s = lastGoodRateUncertainty st.
Proof. unfold judgeAll. cbn zeta. by destruct (measureDelta _ _ _ _). Qed.

Lemma jd_state_serving cfg st snaps now :
  let j := judgeAll cfg st snaps now in
  exists su configured,
    serving (jd_state j) =
    ss_serving (serveStep (clock cfg) (noteHealth (serving st) (primaryUsable cfg (jd_primary j)) now)
                  (primaryUsable cfg (jd_primary j)) su configured now).
Proof.
  unfold judgeAll. cbn zeta. destruct (measureDelta _ _ _ _). cbn [jd_state jd_primary serving]. by eexists _, _.
Qed.

(** *** Runs *)

(** The states a run reaches, with whether the primary class was usable at each
    step and when, newest first. *)
Inductive reach (cfg : SelConfig) : Selector -> list (bool * double) -> Prop :=
| reach_init : reach cfg (newSelector cfg) []
| reach_step st tr snaps now dmr :
    reach cfg st tr ->
    reach cfg (snd (combine cfg st snaps now dmr))
      ((primaryUsable cfg (jd_primary (judgeAll cfg st snaps now)), now) :: tr).

Lemma combine_serving cfg st snaps now dmr :
  serving (snd (combine cfg st snaps now dmr)) = serving (jd_state (judgeAll cfg st snaps now)).
Proof.
  destruct (combine cfg st snaps now dmr) as [[c rp] st'] eqn:E.
  apply combine_cases in E as [(k0 & rest & _ & _ & _ & ->)|(_ & _ & ->)]; done.
Qed.

(** A timer that is set began with a run of steps that were all [b], up to now. *)
Definition sinceRun (b : bool) (since : double) (tr : list (bool * double)) : Prop :=
  (0 <? since)%D = true ->
  exists run rest, tr = (run ++ (b, since) :: rest)%list /\ Forall (fun x => fst x = b) run.

Lemma noteHealth_rep sv pu now tr :
  sinceRun false (primaryLostSince sv) tr -> sinceRun true (primaryHealthySince sv) tr ->
  sinceRun false (primaryLostSince (noteHealth sv pu now)) ((pu, now) :: tr) /\
  sinceRun true (primaryHealthySince (noteHealth sv pu now)) ((pu, now) :: tr).
Proof.
  assert (Keep : forall b since, sinceRun b since tr -> sinceRun b since ((b, now) :: tr)).
  { intros b since R P. destruct (R P) as (run & rest & -> & F). exists ((b, now) :: run), rest.
    split; [done|]. by constructor. }
  assert (New : forall b, sinceRun b now ((b, now) :: tr)).
  { intros b _. exists [], tr. split; [done|constructor]. }
  intros L R. unfold noteHealth. destruct pu; cbn [primaryLostSince primaryHealthySince]; split;
    try (intros P; by vm_compute in P); destruct (_ <=? 0)%D; auto.
Qed.

Lemma serveStep_timers ck sv pu su cf now :
  primaryLostSince (ss_serving (serveStep ck sv pu su cf now)) = primaryLostSince sv /\
  primaryHealthySince (ss_serving (serveStep ck sv pu su cf now)) = primaryHealthySince sv.
Proof.
  unfold serveStep. destruct (secondary ck); [done| |];
    repeat case_match; simplify_eq; done.
Qed.

(** How long a timer has run. *)
Definition timerFor (since now : double) : double := (if (0 <? since) then now - since else 0)%D.

Lemma serveStep_on ck sv pu su cf now :
  secondary ck <> Always ->
  onSecondary (ss_serving (serveStep ck sv pu su cf now)) =
  if onSecondary sv
  then negb (pu && (timerFor (primaryHealthySince sv) now >=? failbackAfterSec ck)%D)
  else negb pu && su && (timerFor (primaryLostSince sv) now >=? failoverAfterSec ck)%D.
Proof.
  intros Na. unfold serveStep, timerFor. destruct (secondary ck); [done| |];
    destruct (onSecondary sv), pu, su, cf; cbn [negb andb];
    repeat match goal with |- context [if ?b then (_, _, _, _) else _] => destruct b end; done.
Qed.

Lemma reach_timers cfg st tr :
  reach cfg st tr ->
  sinceRun false (primaryLostSince (serving st)) tr /\ sinceRun true (primaryHealthySince (serving st)) tr.
Proof.
  induction 1 as [|st tr snaps now dmr R [L U]].
  - split; intros P; by vm_compute in P.
  - rewrite combine_serving. destruct (jd_state_serving cfg st snaps now) as (su & cf & ->).
    destruct (serveStep_timers (clock cfg) (noteHealth (serving st) (primaryUsable cfg (jd_primary (judgeAll cfg st snaps now))) now)
      (primaryUsable cfg (jd_primary (judgeAll cfg st snaps now))) su cf now) as [-> ->].
    by apply noteHealth_rep.
Qed.

(** The same runs with what each step answered and when, newest first. *)
Inductive answered (cfg : SelConfig) : Selector -> list (Combined * double) -> Prop :=
| answered_init : answered cfg (newSelector cfg) []
| answered_step st h snaps now dmr c rp st' :
    answered cfg st h -> combine cfg st snaps now dmr = (c, rp, st') -> answered cfg st' ((c, now) :: h).

(** An answer made of sources. *)
Definition liveAnswer (c : Combined) : Prop := c_serving c <> ServeNone /\ c_serving c <> ServeCoasting.
(** The last of the answers made of sources is [c0], at [t0], and since then all coasted. *)
Definition lastLive (h : list (Combined * double)) (c0 : Combined) (t0 : double) : Prop :=
  exists later earlier, h = (later ++ (c0, t0) :: earlier)%list /\ liveAnswer c0 /\
    Forall (fun x => c_serving (fst x) = ServeCoasting) later.
(** What is remembered is the last answer made of sources, or there was none. *)
Definition remembers (st : Selector) (h : list (Combined * double)) : Prop :=
  if haveLast st then
    exists c0 t0, lastLive h c0 t0 /\ 1 <= c_stratum c0 <= 15 /\
      lastGoodOffset st = c_offsetSec c0 /\ lastGoodRate st = c_rate c0 /\ lastGoodAt st = t0 /\
      lastGoodDispersion st = c_dispersionSec c0 /\ lastGoodRateUncertainty st = c_rateUncertainty c0 /\
      c_stratum (lastCombined st) = c_stratum c0 /\ c_refid (lastCombined st) = c_refid c0 /\
      c_rootDelaySec (lastCombined st) = c_rootDelaySec c0
  else Forall (fun x => c_serving (fst x) = ServeNone) h.
Lemma survivors_live cfg k0 ks n note now dmr : liveAnswer (combineSurvivors cfg k0 ks n note now dmr).
Proof. unfold liveAnswer. cbn [combineSurvivors c_serving]. unfold servingOf. split; by repeat case_match. Qed.
Lemma answered_remembers cfg st h : answered cfg st h -> remembers st h.
Proof.
  induction 1 as [|st h snaps now dmr c rp st' _ IH E]; [by unfold remembers; constructor|].
  destruct (jd_state_last cfg st snaps now) as (Hh & Hl & Ha & Ho & Hr). destruct (jd_state_grows cfg st snaps now) as (Hd & Hu).
  unfold remembers in *. apply combine_cases in E as [(k0 & rest & _ & _ & -> & ->)|(_ & -> & ->)].
  - cbn [remember haveLast lastGoodOffset lastGoodRate lastGoodAt lastGoodDispersion lastGoodRateUncertainty lastCombined].
    match goal with |- context [combineSurvivors ?a ?b ?c ?d ?e ?f ?g] => exists (combineSurvivors a b c d e f g), now end. split; [|split; [cbn [combineSurvivors c_stratum]; apply zclamp_stratum|by repeat split]].
    exists [], h. split; [done|]. split; [apply survivors_live|constructor].
  - cbn [withLast haveLast]. rewrite Hh. destruct (haveLast st) eqn:El.
    + destruct IH as (c0 & t0 & (later & earlier & -> & Lv & F) & S & I). exists c0, t0. split; [|split; [done|]].
      * eexists (_ :: later), earlier. split; [done|]. split; [done|]. constructor; [|done]. cbn [fst]. unfold coast. by rewrite Hh.
      * cbn [withLast lastGoodOffset lastGoodRate lastGoodAt lastGoodDispersion lastGoodRateUncertainty lastCombined].
        rewrite Ho, Hr, Ha, Hd, Hu. unfold coast. rewrite Hh. cbn [c_stratum c_refid c_rootDelaySec]. by rewrite Hl.
    + constructor; [|done]. cbn [fst]. unfold coast. by rewrite Hh.
Qed.
End Facts.

(** *** The agreeing set *)

Lemma filter_map_intervals (P : Interval -> bool) ks :
  length (filter (fun i => P i = true) (map intervalOf ks)) =
  length (filter (fun k => P (intervalOf k) = true) ks).
Proof.
  induction ks as [|k ks IH]; [done|]. cbn [map]. rewrite !filter_cons.
  destruct (decide (P (intervalOf k) = true)); cbn [length]; by rewrite IH.
Qed.

(** *** Refusal *)

(** With fewer than two peers to judge by nothing is refused. *)
Lemma judgeOne_few `{Libm} consensus now peers j k :
  peers < kMinPeersToJudge ->
  j_refused (judgeOne consensus now peers j k) = j_refused j /\ j_again (judgeOne consensus now peers j k) = j_again j /\
  j_why (judgeOne consensus now peers j k) = j_why j.
Proof.
  intros Hp. unfold judgeOne. cbn zeta.
  assert (R : forall k ra i, sr_refused (residualOf k ra i now peers) = false).
  { intros k' ra i. unfold residualOf. cbn [sr_refused].
    rewrite (proj2 (Z.leb_gt _ _) Hp). done. }
  by rewrite !R.
Qed.

Lemma judgeClass_few `{Libm} cand now j :
  (length cand <= 2)%nat ->
  j_refused (judgeClass cand now j) = j_refused j /\ j_again (judgeClass cand now j) = j_again j.
Proof.
  intros L. unfold judgeClass.
  assert (P : Z.of_nat (length cand) - 1 < kMinPeersToJudge) by (unfold kMinPeersToJudge; lia).
  revert P. generalize (Z.of_nat (length cand) - 1) (medianOffset cand). clear L.
  intros peers consensus P. revert j. induction cand as [|k cand IH]; intros j; [done|]. cbn.
  destruct (IH (judgeOne consensus now peers j k)) as [-> ->].
  by destruct (judgeOne_few consensus now peers j k P) as (-> & -> & _).
Qed.

(** Who is refused: exactly those with a residual that says so. *)
Definition refusalsTold (j : Judging) : Prop :=
  Forall (fun r => (sr_refused r = true -> sr_name r ∈ j_refused j) /\
                   sr_refused r = (sr_judged r && (kMaxDisagreementSec <? dabs (sr_averagedSec r))%D)) (j_residuals j).
Lemma judgeOne_residual `{Libm} consensus now peers j k :
  exists r, j_residuals (judgeOne consensus now peers j k) = (j_residuals j ++ [r])%list /\
    sr_name r = s_name (k_s k) /\ sr_instantSec r = (k_offset k - consensus)%D /\
    (refusalsTold j -> refusalsTold (judgeOne consensus now peers j k)).
Proof.
  unfold judgeOne. cbn zeta. set (ra := noteResidual _ _ _ _). set (r := residualOf k ra _ now peers). exists r.
  assert (Rd : sr_refused r = (sr_judged r && (kMaxDisagreementSec <? dabs (sr_averagedSec r))%D)) by done.
  assert (Nm : sr_name r = s_name (k_s k)) by done.
  destruct (sr_refused r) eqn:E; [destruct (refuse _ _ _) as [[rq why] again]|]; cbn [j_residuals].
  - split; [done|]. split; [done|]. split; [done|]. intros T. unfold refusalsTold in *. cbn [j_residuals j_refused].
    apply Forall_app. split; [|constructor; [split; [intros _; rewrite Nm; set_solver|by rewrite E]|constructor]].
    eapply Forall_impl; [exact T|]. intros x [A B]. split; [|done]. intros X. specialize (A X). set_solver.
  - split; [done|]. split; [done|]. split; [done|]. intros T. unfold refusalsTold in *. cbn [j_residuals j_refused].
    apply Forall_app. split; [done|]. constructor; [split; [by rewrite E|by rewrite E]|constructor].
Qed.
Lemma judgeClass_residuals `{Libm} cand now j :
  (refusalsTold j -> refusalsTold (judgeClass cand now j)) /\
  (forall r, r ∈ j_residuals j -> r ∈ j_residuals (judgeClass cand now j)) /\
  forall k, k ∈ cand -> exists r, r ∈ j_residuals (judgeClass cand now j) /\ sr_name r = s_name (k_s k) /\
    sr_instantSec r = (k_offset k - medianOffset cand)%D.
Proof.
  unfold judgeClass. generalize (medianOffset cand), (Z.of_nat (length cand) - 1). intros consensus peers. revert j.
  induction cand as [|x cand IH]; intros j; [split; [done|]; split; [done|]; by intros k Hk%not_elem_of_nil|]. cbn [fold_left].
  destruct (judgeOne_residual consensus now peers j x) as (r & E & N & I & T). destruct (IH (judgeOne consensus now peers j x)) as (A & B & C).
  split; [auto|]. split; [intros r' Hr; apply B; rewrite E; set_solver|].
  intros k [->|Hk]%elem_of_cons; [|by apply C]. exists r. split; [apply B; rewrite E; set_solver|done].
Qed.
(** What the two classes are judged to be in a step. *)
Lemma judgeAll_refusals `{Libm} cfg st snaps now k :
  let j := judgeAll cfg st snaps now in
  k ∈ jd_cand j ->
  (forall r, r ∈ rp_residuals (jd_report j) -> sr_refused r = (sr_judged r && (kMaxDisagreementSec <? dabs (sr_averagedSec r))%D)) /\
  (forall r, r ∈ rp_residuals (jd_report j) -> sr_refused r = true -> sr_name r <> s_name (k_s k)) /\
  exists r, r ∈ rp_residuals (jd_report j) /\ sr_name r = s_name (k_s k) /\ sr_refused r = false /\
    sr_instantSec r = (k_offset k - medianOffset (candidatesOf cfg (k_primary k) snaps now))%D.
Proof.
  unfold judgeAll. cbn zeta. set (p0 := candidatesOf cfg true snaps now). set (s0 := candidatesOf cfg false snaps now).
  set (j0 := MkJudging _ _ ∅ ∅ [] []). destruct (judgeClass_residuals p0 now j0) as (T1 & _ & C1).
  destruct (judgeClass_residuals s0 now (judgeClass p0 now j0)) as (T2 & B2 & C2).
  set (j := judgeClass s0 now (judgeClass p0 now j0)) in *. destruct (measureDelta _ _ _ _) as [ds delta].
  cbn [jd_cand jd_report rp_residuals]. intros Hk.
  assert (T : refusalsTold j) by (apply T2, T1; constructor). unfold refusalsTold in T. rewrite Forall_forall in T.
  assert (Kept : s_name (k_s k) ∉ j_refused j /\ exists r, r ∈ j_residuals j /\ sr_name r = s_name (k_s k) /\
    sr_instantSec r = (k_offset k - medianOffset (candidatesOf cfg (k_primary k) snaps now))%D).
  { apply pool_sub in Hk as [[Hk N]%keepUnrefused_sub|[Hk N]%keepUnrefused_sub]; (split; [done|]);
      pose proof Hk as (_ & _ & _ & ->)%candidatesOf_spec.
    - destruct (C1 k Hk) as (r & R & Q). exists r. split; [by apply B2|done].
    - by apply C2. }
  destruct Kept as (N & r & R & Nm & I). split; [intros x X; by apply T|]. split.
  - intros x X Rx Eq. apply N. rewrite <- Eq. by apply T.
  - exists r. split; [done|]. split; [done|]. split; [|done]. destruct (sr_refused r) eqn:Er; [|done]. exfalso. apply N. rewrite <- Nm. by apply T.
Qed.

(** ** Properties *)

(** C1: the answer is made only of sources that may be believed. When a step
    serves a combined time (it does not coast) from sources whose strata are not
    negative, every source used was among those given, was ready with a fresh offset and a dispersion, and was not refused
    by its class: it has a residual against its class's median that does not refuse
    it, and none with its name does, where a residual refuses when there were peers
    to judge by for long enough and its average is beyond [kMaxDisagreementSec]. At
    least as many were used as the class asks for; the stratum is between 1 and 15; a leap is announced only if every source used
    announces it; and with a radio among them the stratum is 1 with no root
    delay. *)
Theorem combine_uses_believable `{Libm} (cfg : SelConfig) (st : Selector) (snaps : list SourceSnapshot)
    (now dmr : double) (c : Combined) (rp : Report) (st' : Selector) :
  combine cfg st snaps now dmr = (c, rp, st') ->
  c_synchronised c = true -> c_serving c <> ServeCoasting ->
  Forall (fun s => 0 <= p_stratum (s_ntp s)) snaps ->
  exists survivors,
    c_usedNames c = map (fun k => s_name (k_s k)) survivors /\ c_used c = Z.of_nat (length survivors) /\
    minToServe cfg (jd_cand (judgeAll cfg st snaps now)) <= c_used c /\ 1 <= c_used c /\
    Forall (fun k => k_s k ∈ snaps /\ s_ready (k_s k) = true /\ s_haveOffset (k_s k) = true /\
                     (ageLimit (k_s k) <? s_offsetAgeSec (k_s k))%D = false /\
                     (s_dispersionSec (k_s k) <=? 0)%D = false) survivors /\
    Forall (fun k => (exists r, r ∈ rp_residuals rp /\ sr_name r = s_name (k_s k) /\ sr_refused r = false /\
                       sr_instantSec r = (k_offset k - medianOffset (candidatesOf cfg (k_primary k) snaps now))%D) /\
                     forall r, r ∈ rp_residuals rp -> sr_refused r = true -> sr_name r <> s_name (k_s k)) survivors /\
    (forall r, r ∈ rp_residuals rp -> sr_refused r = (sr_judged r && (kMaxDisagreementSec <? dabs (sr_averagedSec r))%D)) /\
    1 <= c_stratum c <= 15 /\
    (c_leapPending c = true -> Forall (fun k => s_leapPending (k_s k) = true) survivors) /\
    (existsb isRadio survivors = true -> c_stratum c = 1 /\ c_rootDelaySec c = 0%D).
Proof.
  intros E Sy Ns Str. pose proof (combine_residuals cfg st snaps now dmr) as Rp. rewrite E in Rp. cbn [fst snd] in Rp. rewrite Rp.
  apply combine_cases in E as [(k0 & rest & Es & Sv & -> & _)|(_ & -> & _)].
  2:{ exfalso. unfold coast in Sy, Ns. by destruct (haveLast _). }
  set (ks := survivorsOf _ _ now) in *. exists ks.
  assert (Sub : forall k, k ∈ ks -> k_s k ∈ snaps /\ notCandidate (k_s k) = None).
  { intros k Hk. apply survivorsOf_sub in Hk. apply jd_cand_spec in Hk as (? & ? & _). done. }
  unfold serves in Sv. apply andb_true_iff in Sv as [Sv1 Sv2]. cbn [combineSurvivors c_usedNames c_used c_stratum
    c_leapPending c_rootDelaySec].
  split; [done|]. split; [done|]. split; [lia|]. split; [rewrite Es; cbn; lia|]. split; [|split; [|split; [|split; [|split]]]].
  - apply Forall_forall. intros k Hk. destruct (Sub k Hk) as [Hs Hn]. apply notCandidate_None in Hn. tauto.
  - apply Forall_forall. intros k Hk. apply survivorsOf_sub, judgeAll_refusals in Hk as (_ & A & B). done.
  - assert (K0 : k0 ∈ ks) by (rewrite Es; left). apply survivorsOf_sub, judgeAll_refusals in K0 as (A & _). exact A.
  - apply zclamp_stratum.
  - intros L. rewrite forallb_forall in L. apply List.Forall_forall. exact L.
  - intros R. rewrite R. split; [|done]. unfold combineStratum.
    rewrite lowest_radio; [done|lia| |done]. apply Forall_forall. intros k Hk.
    rewrite Forall_forall in Str. apply Str. by apply Sub.
Qed.

(** C2: the sources combined are a largest set that agrees. For any candidates
    whose intervals are proper there is a time all the survivors' intervals
    hold, and no time is held by the intervals of more candidates than there
    are survivors. In particular there always is a region to pick. *)
Theorem survivors_largest_agreement (st : Selector) (cand : list Candidate) (now : double) :
  (2 <= length cand)%nat -> Forall (fun k => proper (intervalOf k)) cand ->
  exists p, dnan p = false /\
    Forall (fun k => (lo (intervalOf k) <=? p)%D = true /\ (p <=? hi (intervalOf k))%D = true)
      (survivorsOf st cand now) /\
    (forall x, dnan x = false ->
       depth x (map intervalOf cand) <= Z.of_nat (length (survivorsOf st cand now))) /\
    survivorsOf st cand now <> [] /\ survivorsOf st cand now ⊆ cand.
Proof.
  intros L F.
  assert (Fi : Forall proper (map intervalOf cand)) by (by apply Forall_fmap).
  assert (Ne : map intervalOf cand <> []) by (destruct cand; [cbn in L; lia|done]).
  pose proof (regionsOf_nonempty _ Ne Fi) as Nr.
  destruct (pickRegion_spec st cand now _ Nr) as (r & Er & Hr).
  destruct (region_depth _ r Fi Hr) as [Dr Nn].
  assert (Es : survivorsOf st cand now = filter (fun k => inRegion (intervalOf k) r = true) cand).
  { unfold survivorsOf. destruct cand as [|k1 [|k2 cand]]; [cbn in L; lia|cbn in L; lia|]. by rewrite Er. }
  assert (Ln : forall x, dnan x = false ->
    depth x (map intervalOf cand) <= Z.of_nat (length (survivorsOf st cand now))).
  { intros x Nx. rewrite Es, <- (filter_map_intervals (fun i => inRegion i r)).
    etransitivity; [apply (depth_le_best x _ Nx Fi)|]. rewrite <- Dr. apply depth_le_survivors. }
  exists (r_lo r). split; [done|]. split; [|split; [done|split]].
  - rewrite Es. apply Forall_forall. intros k [Hk _]%list_elem_of_filter. unfold inRegion in Hk.
    by apply andb_true_iff in Hk.
  - intros E0. destruct cand as [|k1 cand']; [cbn in L; lia|].
    (* a survivor exists: the region opens at some candidate's own lower end *)
    unfold regionsOf in Hr. apply sweepRegions_spec in Hr as (pre & e & post & El & Hd & _ & Ereg).
    assert (He : e ∈ edgesOf (map intervalOf (k1 :: cand'))).
    { rewrite <- (sortedEdges_perm (map intervalOf (k1 :: cand'))), El. apply elem_of_app. right. by left. }
    unfold edgesOf in He. apply list_elem_of_In, in_concat in He as (two & Ht & He).
    apply in_map_iff in Ht as (i & <- & Hi). destruct He as [<-|[<-|[]]]; [|by cbn in Hd].
    apply in_map_iff in Hi as (k & <- & Hk).
    assert (Hin : k ∈ survivorsOf st (k1 :: cand') now).
    { rewrite Es. apply list_elem_of_filter. split; [|by apply list_elem_of_In].
      rewrite Forall_forall in F. pose proof (F k ltac:(by apply list_elem_of_In)) as P.
      rewrite Ereg. unfold inRegion. cbn [r_lo e_at]. unfold proper in P. rewrite P, andb_true_r.
      revert P. clear. dorder. }
    rewrite E0 in Hin. by apply not_elem_of_nil in Hin.
  - intros k Hk. by apply survivorsOf_sub in Hk.
Qed.

(** C3: the class that serves changes only after its hold-down. In any run, a
    step that fails over to the secondary class ends an unbroken run of steps
    without a usable primary, at least the failover time long; one that fails
    back ends an unbroken run of steps with one, at least the failback time
    long. *)
Theorem failover_hold_down `{Libm} (cfg : SelConfig) (st : Selector) (tr : list (bool * double))
    (snaps : list SourceSnapshot) (now dmr : double) :
  reach cfg st tr ->
  (0 <? failoverAfterSec (clock cfg))%D = true -> (0 <? failbackAfterSec (clock cfg))%D = true ->
  secondary (clock cfg) <> Always ->
  let st' := snd (combine cfg st snaps now dmr) in
  let up := primaryUsable cfg (jd_primary (judgeAll cfg st snaps now)) in
  let changed b after := exists run rest since,
    ((up, now) :: tr)%list = (run ++ (b, since) :: rest)%list /\ Forall (fun x => fst x = b) run /\
    (after <=? now - since)%D = true in
  (onSecondary (serving st) = false -> onSecondary (serving st') = true ->
   changed false (failoverAfterSec (clock cfg))) /\
  (onSecondary (serving st) = true -> onSecondary (serving st') = false ->
   changed true (failbackAfterSec (clock cfg))).
Proof.
  intros R Hf Hb Na. cbn zeta. rewrite combine_serving.
  destruct (jd_state_serving cfg st snaps now) as (su & cf & ->).
  set (up := primaryUsable cfg (jd_primary (judgeAll cfg st snaps now))).
  destruct (reach_timers cfg st tr R) as [L U].
  destruct (noteHealth_rep (serving st) up now tr L U) as [L' U'].
  set (sv := noteHealth (serving st) up now) in *.
  assert (On : onSecondary sv = onSecondary (serving st)) by (unfold sv, noteHealth; by destruct up).
  assert (Late : forall after since, (0 <? after)%D = true ->
    ((if (0 <? since) then now - since else 0) >=? after)%D = true ->
    (0 <? since)%D = true /\ (after <=? now - since)%D = true).
  { intros after since Ha. destruct (0 <? since)%D; [done|]. intros Hl. exfalso. revert Ha Hl. clear. dorder. }
  rewrite (serveStep_on _ _ _ _ _ _ Na), On. split; intros E1; rewrite E1.
  - intros E2. apply andb_true_iff in E2 as [E2 G]. apply andb_true_iff in E2 as [E2 _].
    apply negb_true_iff in E2. destruct (Late _ _ Hf G) as [Hp Hl].
    destruct (L' Hp) as (run & rest & Et & Fr). by exists run, rest, (primaryLostSince sv).
  - intros E2. apply negb_false_iff, andb_true_iff in E2 as [E2 G].
    destruct (Late _ _ Hb G) as [Hp Hl].
    destruct (U' Hp) as (run & rest & Et & Fr). by exists run, rest, (primaryHealthySince sv).
Qed.

(** C4: coasting is honest. In any run, a step that serves no sources coasts if
    some step before it served sources, and then carries the offset that the last
    of those answers gave, along the rate it gave, from when it was given, with its
    reference, stratum and root delay unchanged and its dispersion grown, and claims
    to be synchronised exactly while the coast limit has not passed since; or else
    no step before it did, and it claims neither validity nor synchronisation, at
    stratum 16. Whatever a step claims synchronised has a stratum between 1 and 15. *)
Theorem coasting_honest `{Libm} (cfg : SelConfig) (st : Selector) (h : list (Combined * double))
    (snaps : list SourceSnapshot) (now dmr : double) (c : Combined) (rp : Report) (st' : Selector) :
  answered cfg st h -> combine cfg st snaps now dmr = (c, rp, st') ->
  (c_synchronised c = true -> 1 <= c_stratum c <= 15) /\
  (c_serving c = ServeCoasting ->
     exists c0 t0, lastLive h c0 t0 /\ c_valid c = true /\ c_used c = 0 /\
     c_offsetSec c = (c_offsetSec c0 + c_rate c0 * (now - t0))%D /\ c_rate c = c_rate c0 /\
     c_dispersionSec c = (c_dispersionSec c0 + (now - t0) * (coastDriftPpm cfg * 1e-6 + c_rateUncertainty c0))%D /\
     c_stratum c = c_stratum c0 /\ c_refid c = c_refid c0 /\ c_rootDelaySec c = c_rootDelaySec c0 /\
     c_synchronised c = (now - t0 <=? coastSeconds cfg)%D) /\
  (c_serving c = ServeNone ->
     Forall (fun x => c_serving (fst x) = ServeNone) h /\
     c_valid c = false /\ c_synchronised c = false /\ c_stratum c = 16).
Proof.
  intros R E. pose proof (answered_remembers cfg st h R) as M. unfold remembers in M.
  destruct (jd_state_last cfg st snaps now) as (Hh & Hl & Ha & Ho & Hr). destruct (jd_state_grows cfg st snaps now) as (Hd & Hu).
  apply combine_cases in E as [(k0 & rest & _ & _ & -> & _)|(_ & -> & _)].
  - split; [intros _; apply zclamp_stratum|]. split; intros S; exfalso; [eapply (proj2 (survivors_live _ _ _ _ _ _ _))|eapply (proj1 (survivors_live _ _ _ _ _ _ _))]; exact S.
  - unfold coast. rewrite Hh, Hl, Ha, Ho, Hr, Hd, Hu. destruct (haveLast st) eqn:El; cbn.
    + destruct M as (c0 & t0 & L & S & -> & -> & -> & -> & -> & -> & -> & ->). split; [done|]. split; [|done]. intros _. by exists c0, t0.
    + done.
Qed.

(** C5: two sources never convict each other. When neither class has more
    than two candidates no source is refused and none is sent back to start
    over: what is carried into the choice of class is every candidate. *)
Theorem two_never_convict `{Libm} (cfg : SelConfig) (st : Selector) (snaps : list SourceSnapshot) (now : double) :
  (length (candidatesOf cfg true snaps now) <= 2)%nat ->
  (length (candidatesOf cfg false snaps now) <= 2)%nat ->
  jd_primary (judgeAll cfg st snaps now) = candidatesOf cfg true snaps now /\
  jd_secondary (judgeAll cfg st snaps now) = candidatesOf cfg false snaps now /\
  rp_reacquire (jd_report (judgeAll cfg st snaps now)) = [].
Proof.
  intros L1 L2. unfold judgeAll. cbn zeta.
  set (j0 := MkJudging (residualAvg st) (reacquire st) ∅ ∅ [] []).
  destruct (judgeClass_few _ now j0 L1) as [R1 A1].
  destruct (judgeClass_few _ now (judgeClass (candidatesOf cfg true snaps now) now j0) L2) as [R2 A2].
  rewrite R1 in R2. rewrite A1 in A2. rewrite R2. cbn [j_refused j0].
  assert (K : forall l, keepUnrefused ∅ l = l).
  { induction l as [|k l IH]; [done|]. unfold keepUnrefused in *. rewrite filter_cons, decide_True by set_solver.
    by rewrite IH. }
  rewrite !K. destruct (measureDelta _ _ _ _) as [ds delta]. cbn [jd_primary jd_secondary jd_report rp_reacquire].
  by rewrite A2.
Qed.

(** *** Witnesses *)

(** A concrete [exp] and [pow]. *)
Definition demoLibm : Libm :=
  {| std_exp x := fst (fold_left (fun '(s, t) n => let t := (t * x / d_of_Z n)%D in ((s + t)%D, t))
                         (map Z.of_nat (seq 1 24)) (1%D, 1%D));
     std_pow x y := let p := Nat.iter (Z.to_nat (Z.abs (d2ll y))) (fun a => a * x)%D 1%D in
       if (y <? 0)%D then (1 / p)%D else p |}.

Definition demoConfig : SelConfig := MkSelConfig 3600 15 2 defaultClock.

(** A radio source [off] seconds ahead, known to [disp]. *)
Definition demoRadio (name : string) (off disp : double) (leap : bool) : SourceSnapshot :=
  MkSnapshot name Radio true true "" "wwv" leap true off 0 0 1e-7 false disp disp 1 0 60 noPeer 1.
Definition demoPeer (name : string) (off : double) : SourceSnapshot :=
  MkSnapshot name Ntp false true "" "" false true off 0 0 1e-7 false 0.01 0.01 1 0 8
    (MkPeerInfo 2 0.02 0.01 "ntp.example" "192.0.2.1" 3221225985) 1.

(** Three receivers, one of them four hours out, and a peer standing by. *)
Definition demoSnaps : list SourceSnapshot :=
  [demoRadio "a" 0.010 0.004 true; demoRadio "b" 0.012 0.003 true; demoRadio "c" 14400 0.002 false;
   demoPeer "n" 0.011].

Lemma combine_uses_believable_witness :
  let '(c, _, _) := @combine demoLibm demoConfig (newSelector demoConfig) demoSnaps 1000 0 in
  c_usedNames c = ["a"; "b"] /\ c_stratum c = 1 /\ c_leapPending c = true /\ 1 <= c_used c.
Proof.
  destruct (@combine demoLibm demoConfig (newSelector demoConfig) demoSnaps 1000 0) as [[c rp] st'] eqn:E.
  assert (Fc : c = fst (fst (@combine demoLibm demoConfig (newSelector demoConfig) demoSnaps 1000 0)))
    by (by rewrite E).
  assert (P : c_synchronised c = true /\ c_serving c <> ServeCoasting /\ c_usedNames c = ["a"; "b"] /\
              c_leapPending c = true /\ c_stratum c = 1).
  { rewrite Fc. vm_compute. repeat split; discriminate. }
  destruct P as (P1 & P2 & P3 & P4 & P5).
  destruct (@combine_uses_believable demoLibm demoConfig (newSelector demoConfig) demoSnaps 1000 0 c rp st' E P1 P2)
    as (ks & _ & _ & _ & Hu & _); [repeat constructor; discriminate|].
  exact (conj P3 (conj P5 (conj P4 Hu))).
Defined.

Lemma survivors_largest_agreement_witness :
  let cand := candidatesOf demoConfig true demoSnaps 1000 in
  length cand = 3%nat /\ map (fun k => s_name (k_s k)) (survivorsOf (newSelector demoConfig) cand 1000) = ["a"; "b"] /\
  depth 0.011 (map intervalOf cand) <= Z.of_nat (length (survivorsOf (newSelector demoConfig) cand 1000)).
Proof.
  cbn zeta. split; [vm_compute; reflexivity|]. split; [vm_compute; reflexivity|].
  destruct (survivors_largest_agreement (newSelector demoConfig) (candidatesOf demoConfig true demoSnaps 1000) 1000)
    as (p & _ & _ & D & _).
  - apply Nat.leb_le. vm_compute. reflexivity.
  - repeat constructor; vm_compute; reflexivity.
  - apply D. vm_compute. reflexivity.
Defined.

(** The receivers go at 100; the peer takes over at 200, a minute later. *)
Definition demoLost : Selector :=
  snd (@combine demoLibm demoConfig
    (snd (@combine demoLibm demoConfig (newSelector demoConfig) demoSnaps 99 0)) [demoPeer "n" 0.011] 100 0).

Lemma demoLost_reach : exists tr, @reach demoLibm demoConfig demoLost tr /\ head tr = Some (false, 100%D).
Proof.
  eexists. split.
  - apply reach_step. apply (reach_step demoConfig (newSelector demoConfig) [] demoSnaps 99 0). apply reach_init.
  - vm_compute. reflexivity.
Defined.

Lemma failover_hold_down_witness :
  exists (run rest : list (bool * double)) since,
    Forall (fun x => fst x = false) run /\ (60 <=? 200 - since)%D = true /\
    onSecondary (serving (snd (@combine demoLibm demoConfig demoLost [demoPeer "n" 0.011] 200 0))) = true.
Proof.
  destruct demoLost_reach as (tr & R & _).
  destruct (@failover_hold_down demoLibm demoConfig demoLost tr [demoPeer "n" 0.011] 200 0 R) as [F _].
  - reflexivity.
  - reflexivity.
  - discriminate.
  - assert (O : onSecondary (serving (snd (@combine demoLibm demoConfig demoLost [demoPeer "n" 0.011] 200 0))) = true)
      by (vm_compute; reflexivity).
    destruct F as (run & rest & since & _ & Fr & Hl); [vm_compute; reflexivity|exact O|].
    exists run, rest, since. split; [exact Fr|]. split; [exact Hl|exact O].
Defined.

Lemma coasting_honest_witness :
  let served := fst (fst (@combine demoLibm demoConfig (newSelector demoConfig) demoSnaps 99 0)) in
  let '(c, _, _) := @combine demoLibm demoConfig demoLost [] 130 0 in
  c_serving c = ServeCoasting /\ c_synchronised c = true /\ 1 <= c_stratum c <= 15 /\
  exists h c0 t0, @answered demoLibm demoConfig demoLost h /\ length h = 2%nat /\ lastLive h c0 t0 /\
    c_offsetSec c = (c_offsetSec c0 + c_rate c0 * (130 - t0))%D /\ c_usedNames served = ["a"; "b"].
Proof.
  cbv zeta. destruct (@combine demoLibm demoConfig demoLost [] 130 0) as [[c rp] st'] eqn:E.
  destruct (@combine demoLibm demoConfig (newSelector demoConfig) demoSnaps 99 0) as [[c1 rp1] st1] eqn:E1.
  destruct (@combine demoLibm demoConfig st1 [demoPeer "n" 0.011] 100 0) as [[c2 rp2] st2] eqn:E2.
  assert (A : @answered demoLibm demoConfig demoLost [(c2, 100%D); (c1, 99%D)]).
  { unfold demoLost. rewrite E1. cbn [snd]. rewrite E2. cbn [snd]. eapply answered_step; [|exact E2]. eapply answered_step; [|exact E1]. constructor. }
  destruct (@coasting_honest demoLibm demoConfig demoLost _ [] 130 0 c rp st' A E) as (S & K & _).
  assert (Fc : c = fst (fst (@combine demoLibm demoConfig demoLost [] 130 0))) by (by rewrite E).
  assert (P : c_serving c = ServeCoasting /\ c_synchronised c = true) by (rewrite Fc; split; vm_compute; reflexivity).
  split; [apply P|]. split; [apply P|]. split; [apply S, P|]. destruct (K (proj1 P)) as (c0 & t0 & L & _ & _ & O & _).
  eexists _, c0, t0. split; [exact A|]. split; [done|]. split; [exact L|]. split; [exact O|].
  assert (F1 : c1 = fst (fst (@combine demoLibm demoConfig (newSelector demoConfig) demoSnaps 99 0))) by (by rewrite E1).
  cbn [fst]. rewrite F1. vm_compute. reflexivity.
Defined.

Lemma two_never_convict_witness :
  let snaps := [demoRadio "a" 0.010 0.004 true; demoRadio "c" 14400 0.002 false] in
  map (fun k => s_name (k_s k)) (jd_primary (@judgeAll demoLibm demoConfig (newSelector demoConfig) snaps 1000)) = ["a"; "c"].
Proof.
  cbn zeta.
  destruct (@two_never_convict demoLibm demoConfig (newSelector demoConfig)
    [demoRadio "a" 0.010 0.004 true; demoRadio "c" 14400 0.002 false] 1000) as (-> & _).
  - apply Nat.leb_le. vm_compute. reflexivity.
  - apply Nat.leb_le. vm_compute. reflexivity.
  - vm_compute. reflexivity.
Defined.
