(* ===== verification/NtpServer.v ===== *)
(** * The NTP service (src/NtpServer.cpp)
    One datagram received is one step, [serveOne]: the counters, the rate
    limiter and the client tally move, and a 48-byte reply may leave. What the
    world decides is in [Arrival]: the sender and the bytes, the readings of the
    clocks, the limiter's random draw and whether sending worked. The combined
    time is the selector's latest. Sockets and threads are not modelled: the
    body of the receive loop is, from the datagram to the reply. *)

From Stdlib Require Import ZArith Lia List Bool Ascii String Floats.
From stdpp Require Import base list strings gmap.
From S2P Require Import Prelude Doubles CivilTime IpPrefix MinuteRing ClientTally RateLimiter SourceTypes Selector.

#[local] Open Scope string_scope.
#[local] Open Scope Z_scope.

Definition kNtpUnixDelta : Z := 2208988800.
Definition kPacketSize : Z := 48.

(** ** The wire formats *)

Record NtpTime := MkNtpTime { nt_sec : Z; nt_frac : Z }.

Definition toNtpTime (unixSec : double) : NtpTime :=
  let ntp := (unixSec + d_of_Z kNtpUnixDelta)%D in
  let whole := dfloor ntp in
  let frac := (ntp - whole)%D in
  let frac := if (frac <? 0)%D then 0%D else frac in
  let frac := if (frac >=? 1)%D then 0.9999999999%D else frac in
  MkNtpTime (Z.land (d2ll whole) 4294967295) (u32 (d2ll (frac * 4294967296))).

Definition put32 (v : Z) : list Z := [u8 (Z.shiftr v 24); u8 (Z.shiftr v 16); u8 (Z.shiftr v 8); u8 v].

Definition toShortFormat (seconds : double) : Z :=
  let seconds := if (seconds <? 0)%D then 0%D else seconds in
  let seconds := if (65535 <? seconds)%D then 65535%D else seconds in
  u32 (d2ll (seconds * 65536)).

Definition putTime (t : NtpTime) : list Z := (put32 (nt_sec t) ++ put32 (nt_frac t))%list.

(** [std::string::resize(4, 0)], as bytes. *)
Definition byteOf (c : ascii) : Z := Z.of_nat (nat_of_ascii c).
Definition fourBytes (s : string) : list Z :=
  take 4 (map byteOf (list_ascii_of_string s) ++ repeat 0 4)%list.

(** The host's clock, as far as the precision field reports it. *)
Class DaemonClock := { daemonClockResolution : double; std_log2 : double -> double }.

Definition clockPrecision `{DaemonClock} : Z :=
  let sec := daemonClockResolution in
  let p := if (0 <? sec)%D then d2ll (dceil (std_log2 sec)) else -20 in
  zclamp p (-20) 0.

(** ** Counters *)

Record NtpCounts := MkCounts {
  requests : Z; answered : Z; ignored : Z; rateLimited : Z; kodSent : Z; unsynchronised : Z; sendErrors : Z
}.
Definition noCounts : NtpCounts := MkCounts 0 0 0 0 0 0 0.

(** [std::uint64_t NtpCounts::*field]. *)
Inductive Field := FRequests | FAnswered | FIgnored | FRateLimited | FKodSent | FUnsynchronised | FSendErrors.
#[export] Instance Field_eq_dec : EqDecision Field.
Proof. solve_decision. Defined.

Definition field (f : Field) (c : NtpCounts) : Z :=
  match f with
  | FRequests => requests c | FAnswered => answered c | FIgnored => ignored c
  | FRateLimited => rateLimited c | FKodSent => kodSent c | FUnsynchronised => unsynchronised c
  | FSendErrors => sendErrors c
  end.

Definition addTo (f : Field) (by_ : Z) (c : NtpCounts) : NtpCounts :=
  let d g := if bool_decide (f = g) then by_ else 0 in
  MkCounts (u64 (requests c + d FRequests)) (u64 (answered c + d FAnswered)) (u64 (ignored c + d FIgnored))
    (u64 (rateLimited c + d FRateLimited)) (u64 (kodSent c + d FKodSent))
    (u64 (unsynchronised c + d FUnsynchronised)) (u64 (sendErrors c + d FSendErrors)).
Definition increment (f : Field) (c : NtpCounts) : NtpCounts := addTo f 1 c.
Definition addCounts (a b : NtpCounts) : NtpCounts :=
  MkCounts (u64 (requests a + requests b)) (u64 (answered a + answered b)) (u64 (ignored a + ignored b))
    (u64 (rateLimited a + rateLimited b)) (u64 (kodSent a + kodSent b))
    (u64 (unsynchronised a + unsynchronised b)) (u64 (sendErrors a + sendErrors b)).

Record Server := MkServer {
  sv_limiter : Limiter; sv_tally : Tally;
  sv_stats : NtpCounts; sv_minutes : list NtpCounts; sv_minute : Z
}.
Definition newServer : Server :=
  MkServer newLimiter newTally noCounts (replicate 60 noCounts) 0.

(** Bucket of minute [k]; the minutes of a monotonic clock are not negative. *)
Definition bucket (k : Z) : nat := Z.to_nat (cmod k kMinutes).
Fixpoint clearMinutes (last : Z) (gap : nat) (r : list NtpCounts) : list NtpCounts :=
  match gap with
  | O => r
  | S g => clearMinutes (last + 1) g (<[bucket (last + 1) := noCounts]> r)
  end.
Definition advanceMinutes (st : Server) (minute : Z) : Server :=
  if minute <=? sv_minute st then st
  else
    MkServer (sv_limiter st) (sv_tally st) (sv_stats st)
      (clearMinutes (sv_minute st) (Z.to_nat (Z.min (minute - sv_minute st) kMinutes)) (sv_minutes st)) minute.

Definition minuteAt (monotonicNow : double) : Z := d2ll (monotonicNow / 60)%D.

Definition count (f : Field) (monotonicNow : double) (st : Server) : Server :=
  let st := advanceMinutes st (minuteAt monotonicNow) in
  MkServer (sv_limiter st) (sv_tally st) (increment f (sv_stats st))
    (alter (increment f) (bucket (sv_minute st)) (sv_minutes st)) (sv_minute st).

Definition pastHour (ms : list NtpCounts) : NtpCounts := fold_left addCounts ms noCounts.

(** [stats], and the state its reading leaves: the hour has been aged. *)
Definition stats (st : Server) (monotonicNow : double) : NtpCounts * NtpCounts * list TopClient * Server :=
  let st := advanceMinutes st (minuteAt monotonicNow) in
  (sv_stats st, pastHour (sv_minutes st), top (sv_tally st) 10 monotonicNow, st).

(** ** One datagram *)

Record NtpConfig := MkNtpConfig {
  rateLimit : RateLimitConfig; answerWhenUnsynchronised : bool; honourLeapWarning : bool
}.

Record Arrival := MkArrival {
  a_from : SockAddr;
  a_bytes : list Z;
  (** [daemonNow] after the receive; the kernel's stamps (seconds, nanoseconds)
      with [daemonMinusRealtime] as read at each. *)
  a_recvDaemon : double;
  a_stamps : list (Z * Z * double);
  (** [monotonicNow]: as the request is counted, for the limiter, as the outcome
      is counted, up to three times. *)
  a_t0 : double; a_now : double; a_t1 : double; a_t2 : double; a_t3 : double;
  a_draw : double;
  (** [daemonNow] for the transmit timestamp, and whether [sendmsg] worked. *)
  a_txDaemon : double;
  a_sendOk : bool
}.

(** The moment a packet arrived, from the kernel if it said: the clock as read,
    and each stamp moved onto it. *)
Definition stamped (stamps : list (Z * Z * double)) (readAt : double) : double :=
  fold_left (fun recv '(sec, nsec, dmr) =>
      let viaStamp := (d_of_Z sec + d_of_Z nsec * 1e-9 + dmr)%D in
      if (dabs (viaStamp - recv) <? 1)%D then viaStamp else recv)
    stamps readAt.
Definition recvTime (a : Arrival) : double := stamped (a_stamps a) (a_recvDaemon a).

Definition reqByte (a : Arrival) (i : nat) : Z := nth i (a_bytes a) 0.
Definition version (a : Arrival) : Z := Z.land (Z.shiftr (reqByte a 0) 3) 7.
Definition mode (a : Arrival) : Z := Z.land (reqByte a 0) 7.
Definition clientTransmit (a : Arrival) : list Z := map (reqByte a) (seq 40 8).
Definition clientPoll (a : Arrival) : Z := u8 (zclamp (i8 (reqByte a 2)) 4 17).

Definition firstByte (leap version : Z) : Z :=
  u8 (Z.lor (Z.lor (Z.shiftl leap 6) (Z.shiftl version 3)) 4).

Section Serve.
Context `{Inet} `{DaemonClock}.

Definition kodReply (a : Arrival) : list Z :=
  ([firstByte 3 (version a); 0; clientPoll a; u8 clockPrecision]
   ++ repeat 0 8 ++ fourBytes "RATE" ++ repeat 0 8
   ++ clientTransmit a ++ clientTransmit a ++ clientTransmit a)%list.

Definition leapOf (cfg : NtpConfig) (c : Combined) (recvDaemon : double) : Z :=
  if negb (c_synchronised c) then 3
  else if c_leapPending c && honourLeapWarning cfg
          && isLastDayOfMonth (d2ll (utcAt c recvDaemon * 1000)%D) then 1
  else 0.
Definition stratumOf (c : Combined) : Z :=
  if negb (c_synchronised c) then 0 else if 0 <? c_stratum c then c_stratum c else 1.
Definition refidOf (c : Combined) : list Z :=
  if negb (c_valid c) then fourBytes "INIT"
  else if c_refidIsAddress c then put32 (c_refidAddress c)
  else fourBytes (if String.eqb (c_refid c) "" then "WWV" else c_refid c).

Definition timeReply (cfg : NtpConfig) (c : Combined) (a : Arrival) : list Z :=
  let recvDaemon := recvTime a in
  let corrected := utcAt c recvDaemon in
  ([firstByte (leapOf cfg c recvDaemon) (version a); u8 (stratumOf c); clientPoll a; u8 clockPrecision]
   ++ put32 (toShortFormat (c_rootDelaySec c)) ++ put32 (toShortFormat (c_rootDispersionSec c))
   ++ refidOf c
   ++ (if c_valid c then putTime (toNtpTime (corrected - c_ageSec c)%D) else repeat 0 8)
   ++ clientTransmit a
   ++ putTime (toNtpTime corrected)
   ++ putTime (toNtpTime (utcAt c (a_txDaemon a))))%list.

(** [reply]: a failure to send is counted. *)
Definition send (a : Arrival) (st : Server) : Server :=
  if a_sendOk a then st else count FSendErrors (a_t1 a) st.

Definition withLimiter (st : Server) (l : Limiter) (t : Tally) : Server :=
  MkServer l t (sv_stats st) (sv_minutes st) (sv_minute st).

Definition serveOne (cfg : NtpConfig) (c : Combined) (a : Arrival) (st : Server) : option (list Z) * Server :=
  let st := count FRequests (a_t0 a) st in
  if Z.of_nat (length (a_bytes a)) <? kPacketSize then (None, count FIgnored (a_t1 a) st)
  else if negb (mode a =? 3) then (None, count FIgnored (a_t1 a) st)
  else if (version a <? 1) || (4 <? version a) then (None, count FIgnored (a_t1 a) st)
  else
    let '(verdict, limiter) := check (rateLimit cfg) (sv_limiter st) (a_from a) (a_now a) (a_draw a) in
    let limited := bool_decide (verdict = VDrop) || bool_decide (verdict = VKod) in
    let st := withLimiter st limiter (record (sv_tally st) (a_from a) (a_now a) limited) in
    match verdict with
    | VDrop => (None, count FRateLimited (a_t1 a) st)
    | VKod =>
        let st := count FRateLimited (a_t2 a) (send a st) in
        (Some (kodReply a), if a_sendOk a then count FKodSent (a_t3 a) st else st)
    | _ =>
        if negb (c_synchronised c) && negb (answerWhenUnsynchronised cfg)
        then (None, count FIgnored (a_t1 a) st)
        else
          let st := send a st in
          (Some (timeReply cfg c a),
           if a_sendOk a then
             let st := count FAnswered (a_t2 a) st in
             if negb (c_synchronised c) then count FUnsynchronised (a_t3 a) st else st
           else st)
    end.

(** A run of datagrams, each with the selector's answer at the time: the
    replies sent, and the state left. *)
Fixpoint serveAll (cfg : NtpConfig) (st : Server) (l : list (Combined * Arrival))
  : list (option (list Z)) * Server :=
  match l with
  | [] => ([], st)
  | (c, a) :: l =>
      let '(r, st) := serveOne cfg c a st in
      let '(rs, st) := serveAll cfg st l in
      (r :: rs, st)
  end.
End Serve.

(** ** Lemmas *)

Lemma map_nth_slice {A} (d : A) l n : forall k, (k + n <= length l)%nat ->
  map (fun i => nth i l d) (seq k n) = take n (drop k l).
Proof.
  induction n as [|n IH]; intros k L; [done|].
  destruct (lookup_lt_is_Some_2 l k ltac:(lia)) as [x Hx].
  rewrite (drop_S _ _ _ Hx). cbn. rewrite IH by lia. f_equal. by apply nth_lookup_Some.
Qed.

Lemma u64_small z : 0 <= z < 18446744073709551616 -> u64 z = z.
Proof. unfold u64. intros. by apply Z.mod_small. Qed.

Lemma put32_length v : length (put32 v) = 4%nat.
Proof. done. Qed.
Lemma putTime_length t : length (putTime t) = 8%nat.
Proof. done. Qed.
Lemma fourBytes_length s : length (fourBytes s) = 4%nat.
Proof. unfold fourBytes. rewrite length_take, length_app, repeat_length. lia. Qed.
Lemma refidOf_length c : length (refidOf c) = 4%nat.
Proof. unfold refidOf. repeat case_match; rewrite ?fourBytes_length; done. Qed.

Definition isByte (b : Z) : Prop := 0 <= b < 256.

Lemma put32_bytes v : Forall isByte (put32 v).
Proof. unfold put32, isByte. repeat constructor; apply u8_range. Qed.
Lemma putTime_bytes t : Forall isByte (putTime t).
Proof. apply Forall_app; split; apply put32_bytes. Qed.
Lemma zeros_bytes n : Forall isByte (repeat 0 n).
Proof. apply Forall_forall. intros x ->%list_elem_of_In%repeat_spec. done. Qed.
Lemma fourBytes_bytes s : Forall isByte (fourBytes s).
Proof.
  apply Forall_take, Forall_app. split; [|apply zeros_bytes].
  apply Forall_fmap, Forall_forall. intros c _. unfold isByte, byteOf. cbn.
  pose proof (nat_ascii_bounded c). lia.
Qed.
Lemma refidOf_bytes c : Forall isByte (refidOf c).
Proof. unfold refidOf. repeat case_match; auto using fourBytes_bytes, put32_bytes. Qed.

Lemma reqByte_bytes a i : Forall isByte (a_bytes a) -> isByte (reqByte a i).
Proof.
  intros F. unfold reqByte. destruct (nth_in_or_default i (a_bytes a) 0) as [E| ->]; [|done].
  rewrite Forall_forall in F. apply F. by apply list_elem_of_In.
Qed.
Lemma clientTransmit_bytes a : Forall isByte (a_bytes a) -> Forall isByte (clientTransmit a).
Proof. intros F. apply Forall_fmap, Forall_forall. intros i _. by apply reqByte_bytes. Qed.

Lemma clientPoll_range a : 4 <= clientPoll a <= 17.
Proof.
  unfold clientPoll. pose proof (zclamp_range (i8 (reqByte a 2)) 4 17 ltac:(lia)).
  rewrite u8_small; lia.
Qed.

(** The leap indicator, the version and the mode of a first byte. *)
Lemma firstByte_fields leap v :
  (leap = 0 \/ leap = 1 \/ leap = 3) -> 1 <= v <= 4 ->
  let b := firstByte leap v in
  isByte b /\ Z.shiftr b 6 = leap /\ Z.land (Z.shiftr b 3) 7 = v /\ Z.land b 7 = 4.
Proof.
  intros L V. assert (C : v = 1 \/ v = 2 \/ v = 3 \/ v = 4) by lia.
  destruct L as [->|[->| ->]]; destruct C as [->|[->|[->| ->]]]; by vm_compute.
Qed.

#[export] Hint Resolve put32_bytes putTime_bytes zeros_bytes fourBytes_bytes refidOf_bytes
  clientTransmit_bytes reqByte_bytes u8_range : ubersdr.

Section ReplyFacts.
Context `{Inet} `{DaemonClock}.

Lemma leapOf_cases cfg c t : leapOf cfg c t = 0 \/ leapOf cfg c t = 1 \/ leapOf cfg c t = 3.
Proof. unfold leapOf. repeat case_match; auto. Qed.

Lemma kodReply_length a : length (kodReply a) = 48%nat.
Proof. unfold kodReply. rewrite !length_app, fourBytes_length. done. Qed.

Lemma timeReply_length cfg c a : length (timeReply cfg c a) = 48%nat.
Proof.
  unfold timeReply. rewrite !length_app, refidOf_length, !putTime_length. cbn [length put32].
  destruct (c_valid c); done.
Qed.

Lemma kodReply_bytes a : Forall isByte (a_bytes a) -> 1 <= version a <= 4 -> Forall isByte (kodReply a).
Proof.
  intros F V. unfold kodReply. pose proof (clientPoll_range a).
  destruct (firstByte_fields 3 (version a)) as (B & _); [auto|done|].
  repeat (apply Forall_app; split); auto with ubersdr.
  repeat constructor; unfold isByte in *; try apply u8_range; lia.
Qed.

Lemma timeReply_bytes cfg c a :
  Forall isByte (a_bytes a) -> 1 <= version a <= 4 -> Forall isByte (timeReply cfg c a).
Proof.
  intros F V. unfold timeReply. pose proof (clientPoll_range a).
  destruct (firstByte_fields (leapOf cfg c (recvTime a)) (version a)) as (B & _); [apply leapOf_cases|done|].
  repeat (apply Forall_app; split); auto with ubersdr.
  - repeat constructor; unfold isByte in *; try apply u8_range; lia.
  - destruct (c_valid c); auto with ubersdr.
Qed.

(** The eight bytes from 24 on are the client's own. *)
Lemma kodReply_originate a : take 8 (drop 24 (kodReply a)) = clientTransmit a.
Proof. done. Qed.
Lemma timeReply_originate cfg c a : take 8 (drop 24 (timeReply cfg c a)) = clientTransmit a.
Proof.
  unfold timeReply. pose proof (refidOf_length c) as L.
  destruct (refidOf c) as [|r0 [|r1 [|r2 [|r3 [|]]]]]; try done. destruct (c_valid c); done.
Qed.
End ReplyFacts.

(** *** What a datagram counts *)

Abbreviation Counting := (Field * double)%type.
Definition counts (l : list Counting) (st : Server) : Server :=
  fold_left (fun st '(f, t) => count f t st) l st.

Inductive Outcome := OIgnored | ODropped | OKod | OTime.
#[export] Instance Outcome_eq_dec : EqDecision Outcome.
Proof. solve_decision. Defined.

Lemma advanceMinutes_withLimiter st l t m :
  advanceMinutes (withLimiter st l t) m = withLimiter (advanceMinutes st m) l t.
Proof. unfold advanceMinutes, withLimiter. cbn. by case_match. Qed.
Lemma count_withLimiter f t st l ta : count f t (withLimiter st l ta) = withLimiter (count f t st) l ta.
Proof. unfold count. rewrite advanceMinutes_withLimiter. done. Qed.
Lemma counts_withLimiter evs : forall st l ta, counts evs (withLimiter st l ta) = withLimiter (counts evs st) l ta.
Proof.
  induction evs as [|[f t] evs IH]; intros st l ta; [done|]. cbn. rewrite count_withLimiter. apply IH.
Qed.

Section Steps.
Context `{Inet} `{DaemonClock}.

Definition wellFormed (a : Arrival) : bool :=
  (kPacketSize <=? Z.of_nat (length (a_bytes a))) && (mode a =? 3) && (1 <=? version a) && (version a <=? 4).

Definition verdictOf (cfg : NtpConfig) (a : Arrival) (st : Server) : RateVerdict :=
  fst (check (rateLimit cfg) (sv_limiter st) (a_from a) (a_now a) (a_draw a)).

Definition outcomeOf (cfg : NtpConfig) (c : Combined) (a : Arrival) (st : Server) : Outcome :=
  if negb (wellFormed a) then OIgnored
  else match verdictOf cfg a st with
       | VDrop => ODropped
       | VKod => OKod
       | _ => if c_synchronised c || answerWhenUnsynchronised cfg then OTime else OIgnored
       end.

Definition replyOf (cfg : NtpConfig) (c : Combined) (a : Arrival) (o : Outcome) : option (list Z) :=
  match o with
  | OIgnored | ODropped => None
  | OKod => Some (kodReply a)
  | OTime => Some (timeReply cfg c a)
  end.

Definition countings (c : Combined) (a : Arrival) (o : Outcome) : list Counting :=
  (FRequests, a_t0 a) ::
  match o with
  | OIgnored => [(FIgnored, a_t1 a)]
  | ODropped => [(FRateLimited, a_t1 a)]
  | OKod => if a_sendOk a then [(FRateLimited, a_t2 a); (FKodSent, a_t3 a)]
            else [(FSendErrors, a_t1 a); (FRateLimited, a_t2 a)]
  | OTime => if negb (a_sendOk a) then [(FSendErrors, a_t1 a)]
             else if c_synchronised c then [(FAnswered, a_t2 a)]
             else [(FAnswered, a_t2 a); (FUnsynchronised, a_t3 a)]
  end.

(** A step is its outcome's reply and its outcome's countings. *)
Lemma serveOne_spec cfg c a st :
  let o := outcomeOf cfg c a st in
  exists l ta, serveOne cfg c a st = (replyOf cfg c a o, withLimiter (counts (countings c a o) st) l ta).
Proof.
  cbn zeta. unfold serveOne, outcomeOf, wellFormed, verdictOf.
  set (st1 := count FRequests (a_t0 a) st).
  assert (Keep : forall f t, count f t st1 = withLimiter (count f t st1) (sv_limiter st1) (sv_tally st1)).
  { intros f t. unfold count, advanceMinutes. by case_match. }
  assert (sv_limiter st1 = sv_limiter st) as Lim by (unfold st1, count, advanceMinutes; by case_match).
  destruct (Z.ltb_spec (Z.of_nat (length (a_bytes a))) kPacketSize).
  { rewrite (proj2 (Z.leb_gt _ _)) by done. cbn. rewrite Keep. by eexists _, _. }
  rewrite (proj2 (Z.leb_le kPacketSize _)) by done.
  destruct (mode a =? 3); [|cbn; rewrite Keep; by eexists _, _]. cbn [negb andb].
  destruct (Z.ltb_spec (version a) 1) as [V1|V1].
  { rewrite (proj2 (Z.leb_gt 1 _)) by done. cbn. rewrite Keep. by eexists _, _. }
  rewrite (proj2 (Z.leb_le 1 _)) by done.
  destruct (Z.ltb_spec 4 (version a)) as [V4|V4].
  { rewrite (proj2 (Z.leb_gt _ 4)) by done. cbn. rewrite Keep. by eexists _, _. }
  rewrite (proj2 (Z.leb_le _ 4)) by done. cbn [orb andb negb]. rewrite Lim.
  destruct (check _ _ _ _ _) as [v lim]. cbn [fst].
  set (t1 := record (sv_tally st1) (a_from a) (a_now a) (bool_decide (v = VDrop) || bool_decide (v = VKod))).
  eexists lim, t1. unfold send, replyOf, countings.
  destruct v; cbn [bool_decide orb]; destruct (c_synchronised c); destruct (answerWhenUnsynchronised cfg);
    destruct (a_sendOk a); cbn [negb orb andb counts fold_left]; rewrite ?count_withLimiter; done.
Qed.

Fixpoint runCountings (cfg : NtpConfig) (st : Server) (l : list (Combined * Arrival)) : list Counting :=
  match l with
  | [] => []
  | (c, a) :: l =>
      (countings c a (outcomeOf cfg c a st) ++ runCountings cfg (snd (serveOne cfg c a st)) l)%list
  end.

Lemma serveAll_counts cfg l : forall st,
  exists lm ta, snd (serveAll cfg st l) = withLimiter (counts (runCountings cfg st l) st) lm ta.
Proof.
  induction l as [|[c a] l IH]; intros st.
  { exists (sv_limiter st), (sv_tally st). by destruct st. }
  cbn [serveAll runCountings].
  destruct (serveOne_spec cfg c a st) as (l1 & t1 & E).
  destruct (serveOne cfg c a st) as [r st1] eqn:E1. cbn [snd]. injection E as -> Est.
  destruct (IH st1) as (lm & ta & E2). destruct (serveAll cfg st1 l) as [rs st2]. cbn [snd] in *.
  exists lm, ta. rewrite E2, Est, counts_withLimiter. unfold counts. rewrite fold_left_app. done.
Qed.
End Steps.

(** *** How often a field was counted *)

Definition fieldIndex (f : Field) : Z :=
  match f with
  | FRequests => 0 | FAnswered => 1 | FIgnored => 2 | FRateLimited => 3 | FKodSent => 4
  | FUnsynchronised => 5 | FSendErrors => 6
  end.
Definition isField (f : Field) (e : Counting) : bool := fieldIndex (fst e) =? fieldIndex f.
Lemma isField_decide f g t : isField f (g, t) = bool_decide (g = f).
Proof. by destruct f, g. Qed.
Fixpoint times (f : Field) (l : list Counting) : Z :=
  match l with
  | [] => 0
  | e :: l => (if isField f e then 1 else 0) + times f l
  end.

Lemma times_app f l l' : times f (l ++ l') = times f l + times f l'.
Proof. induction l as [|e l IH]; cbn; lia. Qed.
Lemma times_range f l : 0 <= times f l <= Z.of_nat (length l).
Proof. induction l as [|e l IH]; cbn -[Z.of_nat]; [lia|]. destruct (isField f e); lia. Qed.

Lemma field_addTo f g k c : field f (addTo g k c) = u64 (field f c + (if bool_decide (g = f) then k else 0)).
Proof. by destruct f. Qed.
Lemma field_addCounts f a b : field f (addCounts a b) = u64 (field f a + field f b).
Proof. by destruct f. Qed.
Lemma field_noCounts f : field f noCounts = 0.
Proof. by destruct f. Qed.
Lemma counts_ext a b : (forall f, field f a = field f b) -> a = b.
Proof.
  intros E. pose proof (E FRequests). pose proof (E FAnswered). pose proof (E FIgnored).
  pose proof (E FRateLimited). pose proof (E FKodSent). pose proof (E FUnsynchronised).
  pose proof (E FSendErrors). destruct a, b. cbn in *. congruence.
Qed.

Lemma counts_stats f l : forall st,
  0 <= field f (sv_stats st) ->
  field f (sv_stats st) + Z.of_nat (length l) < 18446744073709551616 ->
  field f (sv_stats (counts l st)) = field f (sv_stats st) + times f l.
Proof.
  induction l as [|[g t] l IH]; intros st P L; [cbn; lia|].
  cbn -[Z.of_nat] in *. rewrite isField_decide.
  assert (E : field f (sv_stats (count g t st)) = field f (sv_stats st) + (if bool_decide (g = f) then 1 else 0)).
  { unfold count. cbn [sv_stats]. unfold increment. rewrite field_addTo.
    assert (sv_stats (advanceMinutes st (minuteAt t)) = sv_stats st) as -> by (unfold advanceMinutes; by case_match).
    apply u64_small. case_bool_decide; lia. }
  rewrite IH; rewrite E; case_bool_decide; lia.
Qed.

(** *** The past hour *)

Lemma bucket_slot k : 0 <= k -> bucket k = slot k.
Proof. intros P. rewrite slot_mod. unfold bucket, cmod, kMinutes. by rewrite Z.rem_mod_nonneg by lia. Qed.

Lemma clearMinutes_clearFrom last gap r :
  0 <= last -> clearMinutes last gap r = clearFrom noCounts last gap r.
Proof.
  revert last r. induction gap as [|g IH]; intros last r P; [done|]. cbn.
  rewrite bucket_slot by lia. apply IH. lia.
Qed.

(** The field counted [n] times is the counter's value, the width aside. *)
Definition countsAt (l : list Counting) (j : Z) : NtpCounts :=
  let n f := u64 (times f (filter (fun e => minuteAt (snd e) = j) l)) in
  MkCounts (n FRequests) (n FAnswered) (n FIgnored) (n FRateLimited) (n FKodSent) (n FUnsynchronised)
    (n FSendErrors).

Lemma field_countsAt f l j :
  field f (countsAt l j) = u64 (times f (filter (fun e => minuteAt (snd e) = j) l)).
Proof. by destruct f. Qed.

Lemma countsAt_nil j : countsAt [] j = noCounts.
Proof. done. Qed.

Definition serverRep (l : list Counting) (st : Server) : Prop :=
  0 <= sv_minute st /\ ringRep noCounts (countsAt l) (sv_minutes st) (sv_minute st).

Lemma newServer_rep : serverRep [] newServer.
Proof. split; [done|]. cbn. eapply ringRep_ext; [|apply ring_empty]. done. Qed.

Lemma advanceMinutes_rep l st m :
  serverRep l st -> sv_minute st <= m -> serverRep l (advanceMinutes st m) /\ sv_minute (advanceMinutes st m) = m.
Proof.
  intros [P R] L. unfold advanceMinutes. destruct (Z.leb_spec m (sv_minute st)).
  - split; [done|lia].
  - destruct (ringAdvance_rep noCounts _ _ _ m R L) as [R' M]. unfold ringAdvance in R', M.
    rewrite (proj2 (Z.leb_gt _ _)) in R' by lia. unfold serverRep. cbn [sv_minute sv_minutes fst] in *.
    rewrite clearMinutes_clearFrom by done. split; [split; [lia|done]|done].
Qed.

Lemma count_rep l st f t :
  serverRep l st -> sv_minute st <= minuteAt t ->
  serverRep (l ++ [(f, t)])%list (count f t st) /\ sv_minute (count f t st) = minuteAt t.
Proof.
  intros R L. destruct (advanceMinutes_rep l st (minuteAt t) R L) as [[P R'] M].
  unfold count. split; [|exact M]. unfold serverRep. cbn [sv_minute sv_minutes]. split; [done|].
  rewrite M in *. rewrite bucket_slot by done.
  eapply ringRep_ext; [|exact (ring_bump noCounts _ _ _ (increment f) R')].
  intros j. apply counts_ext. intros g. rewrite field_countsAt, filter_app, times_app.
  destruct (Z.eqb_spec j (minuteAt t)) as [->|N].
  - unfold increment. rewrite field_addTo, field_countsAt. rewrite filter_cons_True by done. cbn.
    rewrite isField_decide. unfold u64. rewrite Zplus_mod_idemp_l. f_equal. lia.
  - rewrite field_countsAt, filter_cons_False by (cbn; congruence). cbn. by rewrite Z.add_0_r.
Qed.

(** The readings of the clock run on in minutes, from [m] to [m']. *)
Fixpoint clockFrom (m : Z) (l : list Counting) (m' : Z) : Prop :=
  match l with
  | [] => m <= m'
  | (_, t) :: l => m <= minuteAt t /\ clockFrom (minuteAt t) l m'
  end.

Lemma clockFrom_le m l m' : clockFrom m l m' -> m <= m'.
Proof. revert m. induction l as [|[f t] l IH]; intros m; [done|]. intros [? ?%IH]. lia. Qed.

Lemma counts_rep l : forall l0 st m',
  serverRep l0 st -> clockFrom (sv_minute st) l m' ->
  serverRep (l0 ++ l)%list (counts l st) /\ sv_minute (counts l st) <= m'.
Proof.
  induction l as [|[f t] l IH]; intros l0 st m' R C; [by rewrite app_nil_r|].
  destruct C as [C1 C2]. destruct (count_rep l0 st f t R C1) as [R' M]. cbn [counts fold_left].
  replace (l0 ++ (f, t) :: l)%list with ((l0 ++ [(f, t)]) ++ l)%list by by rewrite <- app_assoc.
  apply IH; [done|]. by rewrite M.
Qed.

(** Adding up the sixty buckets adds up the sixty minutes. *)

Lemma sumZ_Permutation l l' : l ≡ₚ l' -> sumZ l = sumZ l'.
Proof. unfold sumZ. induction 1; cbn; lia. Qed.

Lemma field_fold f ms : forall a,
  0 <= field f a < 18446744073709551616 ->
  field f (fold_left addCounts ms a) = u64 (field f a + sumZ (map (field f) ms)).
Proof.
  unfold sumZ. induction ms as [|m ms IH]; intros a R; cbn; [rewrite Z.add_0_r; by rewrite u64_small|].
  rewrite IH; rewrite field_addCounts; [|apply Z.mod_pos_bound; lia].
  unfold u64. rewrite Zplus_mod_idemp_l. f_equal. lia.
Qed.

Lemma slots_of_hour lo : map slot (map (fun i => lo + Z.of_nat i) (seq 0 60)) ≡ₚ seq 0 60.
Proof.
  apply NoDup_Permutation_bis.
  - apply List.NoDup_map_NoDup_ForallPairs; [|apply NoDup_map_NoDup_ForallPairs; [|apply seq_NoDup]].
    + intros x y Hx Hy E. apply in_map_iff in Hx as (i & <- & Hi), Hy as (j & <- & Hj).
      apply in_seq in Hi, Hj. apply slot_inj in E; lia.
    + intros x y Hx Hy E. lia.
  - by rewrite !length_map.
  - intros x Hx. apply in_map_iff in Hx as (j & <- & _). apply in_seq. pose proof (slot_lt j). lia.
Qed.

Lemma ring_total f cnt r last :
  ringRep noCounts cnt r last ->
  sumZ (map (field f) r) = sumZ (map (fun i => field f (cnt (last - 59 + Z.of_nat i))) (seq 0 60)).
Proof.
  intros [L W _].
  assert (Er : map (field f) r = map (fun i => field f (nth i r noCounts)) (seq 0 60)).
  { clear W. rewrite <- L, <- (map_map (fun i => nth i r noCounts) (field f)). f_equal.
    clear L. induction r as [|x r IH]; [done|]. cbn. f_equal. rewrite <- seq_shift, map_map. exact IH. }
  rewrite Er, <- (sumZ_Permutation _ _ (Permutation_map _ (slots_of_hour (last - 59)))), !map_map.
  f_equal. apply map_ext_in. intros i Hi%in_seq. f_equal.
  apply nth_lookup_Some, W. lia.
Qed.

(** Events of a minute of the hour, added up over its minutes. *)
Lemma times_hour f l lo n :
  sumZ (map (fun i => times f (filter (fun e => minuteAt (snd e) = lo + Z.of_nat i) l)) (seq 0 n)) =
  times f (filter (fun e => lo <= minuteAt (snd e) < lo + Z.of_nat n) l).
Proof.
  induction l as [|e l IH].
  - cbn. unfold sumZ. induction (seq 0 n) as [|x xs IHx]; [done|]. cbn in *. lia.
  - set (d := if isField f e then 1 else 0).
    assert (One : forall k P `{!forall x, Decision (P x)},
              k = (if decide (P e) then d else 0) + times f (filter P l) -> times f (filter P (e :: l)) = k).
    { intros k P ? ->. rewrite filter_cons. case_decide; cbn; fold d; lia. }
    symmetry. apply One. rewrite <- IH. clear IH.
    replace (map _ (seq 0 n)) with (map (fun i => (if decide (minuteAt (snd e) = lo + Z.of_nat i) then d else 0)
      + times f (filter (fun e => minuteAt (snd e) = lo + Z.of_nat i) l)) (seq 0 n)).
    2:{ apply map_ext. intros i. symmetry. by apply One. }
    clear One. induction n as [|n IHn]; [unfold sumZ; cbn [seq map foldr]; case_decide; lia|].
    rewrite seq_S, !map_app.
    assert (App : forall l l', sumZ (l ++ l') = sumZ l + sumZ l').
    { clear. intros l l'. unfold sumZ. induction l; cbn; lia. }
    rewrite !App. unfold sumZ at 2 4. cbn [map foldr]. rewrite Nat.add_0_l. repeat case_decide; lia.
Qed.

Section Account.
Context `{Inet} `{DaemonClock}.

Lemma countings_length c a o : (length (countings c a o) <= 3)%nat.
Proof. unfold countings. destruct o; repeat case_match; cbn; lia. Qed.

Lemma runCountings_length cfg l : forall st, (length (runCountings cfg st l) <= 3 * length l)%nat.
Proof.
  induction l as [|[c a] l IH]; intros st; cbn [runCountings length]; [lia|].
  rewrite length_app. pose proof (countings_length c a (outcomeOf cfg c a st)).
  specialize (IH (snd (serveOne cfg c a st))). lia.
Qed.

(** Replies that left, or that sending failed for. *)
Fixpoint repliesWith (ok : bool) (rs : list (option (list Z))) (l : list (Combined * Arrival)) : Z :=
  match rs, l with
  | r :: rs, (_, a) :: l =>
      (if bool_decide (is_Some r) && Bool.eqb (a_sendOk a) ok then 1 else 0) + repliesWith ok rs l
  | _, _ => 0
  end.

Lemma run_accounts cfg l : forall st,
  let rs := fst (serveAll cfg st l) in
  let n f := times f (runCountings cfg st l) in
  exists lost, 0 <= lost /\ n FRequests = Z.of_nat (length l) /\
    n FRequests = n FAnswered + n FIgnored + n FRateLimited + lost /\
    n FAnswered + n FKodSent = repliesWith true rs l /\ n FSendErrors = repliesWith false rs l /\
    lost <= n FSendErrors /\ n FKodSent + (n FSendErrors - lost) <= n FRateLimited /\
    n FUnsynchronised <= n FAnswered.
Proof.
  induction l as [|[c a] l IH]; intros st; cbn zeta; [exists 0; cbn; lia|].
  cbn [serveAll runCountings length]. destruct (serveOne_spec cfg c a st) as (lm & ta & E). cbn zeta in E.
  set (o := outcomeOf cfg c a st) in *. destruct (serveOne cfg c a st) as [r st1] eqn:E1. cbn [snd].
  injection E as -> _. destruct (IH st1) as (lost & P1 & P2 & P3 & P4 & P5 & P6 & P7 & P8).
  destruct (serveAll cfg st1 l) as [rs st2] eqn:E2. cbn [fst] in *. cbn [repliesWith].
  exists (lost + match o with OTime => if a_sendOk a then 0 else 1 | _ => 0 end).
  rewrite !times_app. unfold countings. destruct o; cbn [replyOf];
    destruct (a_sendOk a); try destruct (c_synchronised c);
    cbn -[Z.of_nat serveAll runCountings]; lia.
Qed.
End Account.

(** ** Properties *)

(** C7: the server answers clients and nothing else, and cannot amplify. A
    reply leaves only for a request of at least 48 bytes in client mode and of
    version 1 to 4; it is 48 bytes, so never longer than what was asked; it is
    in server mode, of the request's version, with a poll interval between 4
    and 17; and it carries the client's transmit timestamp back, byte for byte,
    as its originate timestamp. *)
Theorem answers_clients_only `{Inet} `{DaemonClock} (cfg : NtpConfig) (c : Combined) (a : Arrival)
    (st st' : Server) (out : list Z) :
  Forall isByte (a_bytes a) -> serveOne cfg c a st = (Some out, st') ->
  (length out <= length (a_bytes a))%nat /\ length out = 48%nat /\ Forall isByte out /\
  mode a = 3 /\ 1 <= version a <= 4 /\
  Z.land (nth 0 out 0) 7 = 4 /\ Z.land (Z.shiftr (nth 0 out 0) 3) 7 = version a /\
  4 <= nth 2 out 0 <= 17 /\ take 8 (drop 24 out) = take 8 (drop 40 (a_bytes a)).
Proof.
  intros F E. destruct (serveOne_spec cfg c a st) as (l & t & E'). cbn zeta in E'.
  rewrite E in E'. injection E' as Er _. unfold outcomeOf in Er.
  destruct (wellFormed a) eqn:W; [|done]. cbn [negb] in Er. unfold wellFormed in W. unfold kPacketSize in W.
  zbool. assert (V : 1 <= version a <= 4) by lia.
  assert (T : clientTransmit a = take 8 (drop 40 (a_bytes a))).
  { unfold clientTransmit, reqByte. apply map_nth_slice. lia. }
  rewrite <- T. pose proof (clientPoll_range a).
  assert (K : out = kodReply a \/ out = timeReply cfg c a).
  { destruct (verdictOf cfg a st); try (destruct (_ || _)); cbn in Er; by simplify_eq; auto. }
  clear E Er. destruct K as [->| ->].
  - rewrite kodReply_length, kodReply_originate. destruct (firstByte_fields 3 (version a)) as (? & ? & ? & ?); auto.
    change (nth 2 (kodReply a) 0) with (clientPoll a). repeat split; auto using kodReply_bytes; lia.
  - rewrite timeReply_length, timeReply_originate.
    destruct (firstByte_fields (leapOf cfg c (recvTime a)) (version a) (leapOf_cases _ _ _) V) as (? & ? & ? & ?).
    change (nth 2 (timeReply cfg c a) 0) with (clientPoll a). repeat split; auto using timeReply_bytes; lia.
Qed.

(** C6: a served time is honest about itself. Every reply is a kiss-o'-death or
    a time reply. A kiss says RATE at stratum 0 with the unsynchronised leap
    indicator, and is made of the request's bytes alone: all three of its
    timestamps are the client's own. A time reply for a combined time that is
    not synchronised says so, with leap indicator 3 and stratum 0, and is sent
    only if the configuration asks for it; one that never had a time says INIT
    with no reference timestamp; and for a synchronised one the stratum is the
    combined one and a leap is announced exactly when the sources announce one,
    the configuration honours it, and it is the last day of a month. *)
Theorem reply_honest `{Inet} `{DaemonClock} (cfg : NtpConfig) (c : Combined) (a : Arrival)
    (st st' : Server) (out : list Z) :
  serveOne cfg c a st = (Some out, st') -> (c_synchronised c = true -> 1 <= c_stratum c <= 15) ->
  let leap := Z.shiftr (nth 0 out 0) 6 in
  let stratum := nth 1 out 0 in
  (out = kodReply a /\ leap = 3 /\ stratum = 0 /\ take 4 (drop 12 out) = fourBytes "RATE" /\
   take 24 (drop 24 out) = (clientTransmit a ++ clientTransmit a ++ clientTransmit a)%list /\
   take 8 (drop 16 out) = repeat 0 8) \/
  (out = timeReply cfg c a /\
   (c_synchronised c = false -> leap = 3 /\ stratum = 0 /\ answerWhenUnsynchronised cfg = true) /\
   (c_synchronised c = true ->
      stratum = c_stratum c /\ leap <> 3 /\
      (leap = 1 <-> c_leapPending c = true /\ honourLeapWarning cfg = true /\
                    isLastDayOfMonth (d2ll (utcAt c (recvTime a) * 1000)%D) = true)) /\
   (c_valid c = false -> take 4 (drop 12 out) = fourBytes "INIT" /\ take 8 (drop 16 out) = repeat 0 8)).
Proof.
  intros E Str. destruct (serveOne_spec cfg c a st) as (l & t & E'). cbn zeta in E'.
  rewrite E in E'. injection E' as Er _. unfold outcomeOf in Er.
  destruct (wellFormed a) eqn:W; [|done]. cbn [negb] in Er. unfold wellFormed in W.
  zbool. assert (V : 1 <= version a <= 4) by lia.
  assert (K : out = kodReply a \/ (out = timeReply cfg c a /\ c_synchronised c || answerWhenUnsynchronised cfg = true)).
  { destruct (verdictOf cfg a st); try (destruct (_ || _) eqn:?); cbn in Er; by simplify_eq; auto. }
  clear E Er. destruct K as [->|[-> A]]; [left|right]; (split; [done|]).
  - destruct (firstByte_fields 3 (version a)) as (? & ? & ? & ?); auto.
  - destruct (firstByte_fields (leapOf cfg c (recvTime a)) (version a) (leapOf_cases _ _ _) V) as (? & L & _ & _).
    change (nth 0 (timeReply cfg c a) 0) with (firstByte (leapOf cfg c (recvTime a)) (version a)).
    change (nth 1 (timeReply cfg c a) 0) with (u8 (stratumOf c)). rewrite L.
    unfold leapOf, stratumOf. split; [|split].
    + intros Es. rewrite Es in *. cbn in *. done.
    + intros Es. rewrite Es in *. cbn [negb]. specialize (Str eq_refl).
      rewrite (proj2 (Z.ltb_lt 0 _)), u8_small by lia. split; [done|].
      destruct (c_leapPending c), (honourLeapWarning cfg), (isLastDayOfMonth _); cbn; intuition congruence.
    + intros Ev. unfold timeReply, refidOf. rewrite Ev. done.
Qed.

(** The counters account for every datagram. After any run (short of
    2^61 datagrams), each datagram is counted once as a request and once as
    answered, ignored or rate limited, but for the time replies that could not
    be sent; the replies sent are the answered ones and the kisses, the replies
    that failed are the send errors; kisses are among the rate limited, and
    unsynchronised answers among the answered. *)
Lemma counters_account `{Inet} `{DaemonClock} (cfg : NtpConfig) (l : list (Combined * Arrival)) :
  Z.of_nat (length l) < 2 ^ 61 ->
  let '(rs, st) := serveAll cfg newServer l in
  let s := sv_stats st in
  requests s = Z.of_nat (length l) /\
  exists lost, 0 <= lost <= sendErrors s /\
    requests s = answered s + ignored s + rateLimited s + lost /\
    answered s + kodSent s = repliesWith true rs l /\ sendErrors s = repliesWith false rs l /\
    kodSent s + (sendErrors s - lost) <= rateLimited s /\ unsynchronised s <= answered s.
Proof.
  intros L. pose proof (run_accounts cfg l newServer) as (lost & A). cbn zeta in A.
  pose proof (serveAll_counts cfg l newServer) as (lm & ta & E).
  pose proof (runCountings_length cfg l newServer) as Len.
  assert (S : forall f, field f (sv_stats (snd (serveAll cfg newServer l))) = times f (runCountings cfg newServer l)).
  { intros f. rewrite E. cbn [withLimiter sv_stats]. rewrite counts_stats; cbn [sv_stats newServer];
      rewrite field_noCounts; lia. }
  destruct (serveAll cfg newServer l) as [rs st]. cbn [fst snd] in *. cbn zeta.
  pose proof (S FRequests) as S1. pose proof (S FAnswered) as S2. pose proof (S FIgnored) as S3.
  pose proof (S FRateLimited) as S4. pose proof (S FKodSent) as S5. pose proof (S FUnsynchronised) as S6.
  pose proof (S FSendErrors) as S7. cbn [field] in *. rewrite S1, S2, S3, S4, S5, S6, S7.
  split; [lia|]. exists lost. lia.
Qed.

(** the past hour is the past hour. For any run of datagrams whose clock
    readings go on in minutes up to a moment, [stats] at that moment reports
    for every counter exactly how often it was counted since start, and exactly
    how often in the sixty minutes ending there. *)
Theorem past_hour_exact `{Inet} `{DaemonClock} (cfg : NtpConfig) (l : list (Combined * Arrival)) (now : double)
    (f : Field) :
  Z.of_nat (length l) < 2 ^ 61 ->
  let ev := runCountings cfg newServer l in
  clockFrom 0 ev (minuteAt now) ->
  let '(total, hour, _, _) := stats (snd (serveAll cfg newServer l)) now in
  field f total = times f ev /\
  field f hour = times f (filter (fun e => minuteAt now - 59 <= minuteAt (snd e) < minuteAt now + 1) ev).
Proof.
  intros L ev C. pose proof (serveAll_counts cfg l newServer) as (lm & ta & E). fold ev in E.
  pose proof (runCountings_length cfg l newServer) as Len. fold ev in Len.
  destruct (counts_rep ev [] newServer (minuteAt now) newServer_rep C) as [R M]. cbn [app] in R.
  unfold stats. rewrite E, advanceMinutes_withLimiter.
  destruct (advanceMinutes_rep ev _ (minuteAt now) R M) as [[P' R'] M'].
  cbn [withLimiter sv_stats sv_minutes].
  assert (Small : forall P `{!forall x : Counting, Decision (P x)}, 0 <= times f (filter P ev) < 18446744073709551616).
  { intros P ?. pose proof (times_range f (filter P ev)). pose proof (length_filter P ev). lia. }
  split.
  - assert (sv_stats (advanceMinutes (counts ev newServer) (minuteAt now)) = sv_stats (counts ev newServer)) as ->
      by (unfold advanceMinutes; by case_match).
    rewrite counts_stats; cbn [sv_stats newServer]; rewrite field_noCounts; lia.
  - unfold pastHour. rewrite field_fold by (rewrite field_noCounts; done).
    rewrite M' in R'. rewrite (ring_total f _ _ _ R'), field_noCounts, Z.add_0_l.
    rewrite (map_ext _ (fun i => times f (filter (fun e => minuteAt (snd e) = minuteAt now - 59 + Z.of_nat i) ev)))
      by (intros i; rewrite field_countsAt; by apply u64_small).
    rewrite times_hour. replace (minuteAt now - 59 + Z.of_nat 60) with (minuteAt now + 1) by lia.
    by apply u64_small.
Qed.

(** *** Witnesses: a version 4 client asking a synchronised server *)

Definition demoClock : DaemonClock := {| daemonClockResolution := 1e-9%D; std_log2 := fun _ => (-29.89)%D |}.
Definition demoServerConfig : NtpConfig := MkNtpConfig defaultRateLimit true true.
Definition demoTime : Combined :=
  MkCombined true true 1789000000 10 0 0 false 0 0.01 0.012 1 1 1 1 0 "MSF" false 0 ServePrimary false
    ["a"] NoNote NoNote.
Definition demoArrival (b0 : Z) (t : double) : Arrival :=
  MkArrival (SaInet [10;0;0;1]) ([b0; 0; 6; 0] ++ repeat 0 36 ++ [1;2;3;4;5;6;7;8])%list
    t [(1789000020, 0, (-1789000010)%D)] t t t t t 0.5 t true.
Definition demoRun : list (Combined * Arrival) :=
  [(demoTime, demoArrival 35 10%D); (demoTime, demoArrival 36 70%D); (noCombined, demoArrival 27 3630%D)].

Lemma answers_clients_only_witness :
  match @serveOne demoInet demoClock demoServerConfig demoTime (demoArrival 35 10%D) newServer with
  | (Some out, _) => length out = 48%nat /\ take 8 (drop 24 out) = [1;2;3;4;5;6;7;8]
  | _ => False
  end.
Proof.
  destruct (@serveOne demoInet demoClock demoServerConfig demoTime (demoArrival 35 10%D) newServer)
    as [[out|] st'] eqn:E; [|vm_compute in E; discriminate].
  assert (B : Forall isByte (a_bytes (demoArrival 35 10%D)))
    by (repeat constructor; unfold isByte; lia).
  destruct (@answers_clients_only demoInet demoClock _ _ _ _ _ _ B E) as (_ & L & _ & _ & _ & _ & _ & _ & T).
  split; [exact L|exact T].
Defined.

Lemma reply_honest_witness :
  match @serveOne demoInet demoClock demoServerConfig noCombined (demoArrival 35 10%D) newServer with
  | (Some out, _) => Z.shiftr (nth 0 out 0) 6 = 3 /\ nth 1 out 0 = 0
  | _ => False
  end.
Proof.
  destruct (@serveOne demoInet demoClock demoServerConfig noCombined (demoArrival 35 10%D) newServer)
    as [[out|] st'] eqn:E; [|vm_compute in E; discriminate].
  destruct (@reply_honest demoInet demoClock _ _ _ _ _ _ E) as [(_ & L & S & _)|(_ & U & _)].
  - intros H; exfalso; cbn in H; congruence.
  - split; [exact L|exact S].
  - destruct (U eq_refl) as (L & S & _). split; [exact L|exact S].
Defined.

Lemma counters_account_witness :
  requests (sv_stats (snd (@serveAll demoInet demoClock demoServerConfig newServer demoRun))) = 3.
Proof.
  pose proof (@counters_account demoInet demoClock demoServerConfig demoRun ltac:(cbn; lia)) as W.
  destruct (@serveAll demoInet demoClock demoServerConfig newServer demoRun) as [rs st]. exact (proj1 W).
Defined.

Lemma past_hour_exact_witness :
  let '(total, hour, _, _) :=
    stats (snd (@serveAll demoInet demoClock demoServerConfig newServer demoRun)) 3630%D in
  requests total = 3 /\ requests hour = 2 /\ ignored hour = 1 /\ unsynchronised hour = 1.
Proof.
  pose proof (fun f => @past_hour_exact demoInet demoClock demoServerConfig demoRun 3630%D f
    ltac:(cbn; lia) ltac:(vm_compute; repeat split; discriminate)) as W.
  destruct (stats _ _) as [[[total hour] tops] st].
  pose proof (proj1 (W FRequests)) as A. pose proof (proj2 (W FRequests)) as B.
  pose proof (proj2 (W FIgnored)) as C. pose proof (proj2 (W FUnsynchronised)) as D.
  vm_compute in A, B, C, D. split; [exact A|split; [exact B|split; [exact C|exact D]]].
Defined.
