(* ===== verification/OffsetEstimator.v ===== *)
(** * A source's offset and rate (src/OffsetEstimator.h, src/OffsetEstimator.cpp)
    The samples of a window, the line fitted through them, the level their
    median gives, and the hold that keeps the level through a jitter spike.
    [recompute] is one step of the estimator; the state of the hold is the
    record [Hold]. *)

From Stdlib Require Import ZArith Lia List Bool Floats Sorting.Sorted.
From stdpp Require Import base list sorting.
From S2P Require Import Prelude Doubles Rounding Intersection.

Record OffsetTuning := MkTuning {
  levelWindowSec : double; minLevelSamples : Z;
  rateWindowSec : double; minRateSpanSec : double; minRateSamples : Z;
  blockSec : double; minBlockSamples : Z; minBlocks : Z;
  holdJitterSpikes : bool
}.
Definition defaultTuning : OffsetTuning := MkTuning 120 5 1800 600 120 60 5 5 false.

Definition forPollInterval (pollSec : double) : OffsetTuning :=
  if negb (0 <? pollSec)%D then defaultTuning
  else MkTuning (dmax 120 (8 * pollSec)%D) 4 (dmax 1800 (120 * pollSec)%D) (dmax 600 (30 * pollSec)%D) 20
         (dmax 60 (5 * pollSec)%D) 3 5 false.

Record OffsetEstimate := MkEstimate {
  e_valid : bool; e_samples : Z; e_atSec : double; e_offsetSec : double; e_jitterSec : double;
  e_rateMeasured : bool; e_rateFromPrior : bool; e_rate : double; e_rateUncertainty : double;
  e_rateSpanSec : double; e_rateSamples : Z; e_rateTermSec : double; e_levelShifts : Z;
  e_liveOffsetSec : double; e_held : bool; e_heldForSec : double; e_rejoinGapSec : double;
  e_jitterBaselineSec : double; e_spikeThresholdSec : double; e_holds : Z; e_holdsTimedOut : Z
}.
Definition noEstimate : OffsetEstimate :=
  MkEstimate false 0 0 0 0 false false 0 0 0 0 0 0 0 false 0 0 0 0 0 0.
Definition offsetAt (e : OffsetEstimate) (daemonSec : double) : double :=
  (e_offsetSec e + e_rate e * (daemonSec - e_atSec e))%D.

Definition kUnmeasuredRatePpm : double := 50%D.
Definition kMaxMeasuredUncertaintyPpm : double := (kUnmeasuredRatePpm / 2)%D.
Definition kMaxRatePpm : double := 500%D.
Definition kStepFloorSec : double := 0.010%D.
Definition kMadToSigma : double := 1.4826%D.
Definition kSpikeFactor : double := 5%D.
Definition kSpikeFloorSec : double := 100e-6%D.
Definition kCalmFraction : double := 0.5%D.
Definition kBaselineEverySec : double := 10%D.
Definition kBaselineWindowSec : double := 1800%D.
Definition kBaselineMinRecords : nat := 60.
Definition kMaxCalmAgeSec : double := 300%D.
Definition kCalmToReleaseSec : double := 60%D.
Definition kMaxHoldSec : double := 600%D.
Definition kRejoinSec : double := 60%D.
Definition kRejoinMinSlewSecPerSec : double := 10e-6%D.

(** ** The median *)

(** The element [nth_element] puts in the middle is the sorted middle one, and
    the largest of those before it is the one before that. *)
Definition median (v : list double) : double :=
  let sorted := merge_sort dsortLe v in
  let mid := (length v / 2)%nat in
  if Nat.odd (length v) then nth mid sorted 0%D
  else (0.5 * (nth (mid - 1) sorted 0 + nth mid sorted 0))%D.

(** ** The line *)

Record Point := MkPoint { x_ : double; y_ : double }.

Record LineFit := MkFit {
  f_ok : bool; f_slope : double; f_intercept : double; f_slopeSe : double;
  f_sigma : double; f_span : double; f_xmin : double; f_kept : Z
}.
Definition noFit : LineFit := MkFit false 0 0 0 0 0 0 0.

Definition dsum (f : Point -> double) (p : list Point) : double := fold_left (fun a q => (a + f q)%D) p 0%D.

Definition residual (slope intercept : double) (q : Point) : double := (y_ q - (intercept + slope * x_ q))%D.

(** Least squares over the points kept. *)
Definition ols (p : list Point) : option LineFit :=
  let n := fold_left (fun a _ => (a + 1)%D) p 0%D in
  if (n <? 3)%D then None
  else
    let mx := (dsum x_ p / n)%D in
    let my := (dsum y_ p / n)%D in
    let xmin := fold_left (fun a q => dmin a (x_ q)) p 1e300%D in
    let xmax := fold_left (fun a q => dmax a (x_ q)) p (-1e300)%D in
    let sxx := dsum (fun q => (x_ q - mx) * (x_ q - mx))%D p in
    let sxy := dsum (fun q => (x_ q - mx) * (y_ q - my))%D p in
    if negb (0 <? sxx)%D then None
    else
      let slope := (sxy / sxx)%D in
      let intercept := (my - slope * mx)%D in
      let ss := dsum (fun q => residual slope intercept q * residual slope intercept q)%D p in
      Some (MkFit false slope intercept (PrimFloat.sqrt ((ss / (n - 2)) / sxx)%D)
              (PrimFloat.sqrt (ss / (n - 2))%D) (xmax - xmin)%D xmin (d2ll n)).

(** Within five sigma of the first line's residuals. *)
Definition keepNear (first : LineFit) (pts : list Point) : list Point :=
  let res := map (residual (f_slope first) (f_intercept first)) pts in
  let medRes := median res in
  let sigma := dmax (kMadToSigma * median (map (fun r => dabs (r - medRes)) res))%D 1e-4%D in
  filter (fun q => (dabs (residual (f_slope first) (f_intercept first) q - medRes) <=? 5 * sigma)%D = true) pts.

(** The sums of one block: of [x], of the residual, and how many. *)
Record Block := MkBlock { b_x : double; b_r : double; b_n : Z }.
Definition blockOf (f : LineFit) (t : OffsetTuning) (nBlocks : Z) (q : Point) : nat :=
  Z.to_nat (Z.min (nBlocks - 1) (d2ll ((x_ q - f_xmin f) / blockSec t)%D)).
Definition blocksOf (f : LineFit) (t : OffsetTuning) (kept : list Point) : list Point :=
  let nBlocks := d2ll (f_span f / blockSec t)%D + 1 in
  let bs := fold_left (fun bs q =>
      alter (fun b => MkBlock (b_x b + x_ q)%D (b_r b + residual (f_slope f) (f_intercept f) q)%D (b_n b + 1))
        (blockOf f t nBlocks q) bs)
    kept (replicate (Z.to_nat nBlocks) (MkBlock 0 0 0)) in
  map (fun b => MkPoint (b_x b / d_of_Z (b_n b))%D (b_r b / d_of_Z (b_n b))%D)
    (filter (fun b => minBlockSamples t <= b_n b) bs).

Definition fitLine (pts : list Point) (t : OffsetTuning) : LineFit :=
  if Z.of_nat (length pts) <? minRateSamples t then noFit
  else
    match ols pts with
    | None => noFit
    | Some first =>
        let kept := keepNear first pts in
        match ols kept with
        | None => noFit
        | Some f =>
            let blocks := blocksOf f t kept in
            let enough := minBlocks t <=? Z.of_nat (length blocks) in
            let slopeSe :=
              if enough && (0 <? f_span f)%D then
                let ss := dsum (fun p => y_ p * y_ p)%D blocks in
                let scatter := PrimFloat.sqrt (ss / d_of_Z (Z.of_nat (length blocks) - 2))%D in
                dmax (f_slopeSe f) (PrimFloat.sqrt 12 * scatter / f_span f)%D
              else f_slopeSe f in
            MkFit ((minRateSamples t <=? f_kept f) && (f_span f >=? minRateSpanSec t)%D && enough)
              (f_slope f) (f_intercept f) slopeSe (f_sigma f) (f_span f) (f_xmin f) (f_kept f)
        end
    end.

(** ** The estimator *)

Record Sample := MkSample { sm_at : double; sm_offset : double }.
Record JitterRecord := MkJitter { jr_at : double; jr_jitter : double }.

(** The state of the hold through jitter spikes. *)
Record Hold := MkHold {
  jitterHistory : list JitterRecord; nextJitterRecordAt : double;
  haveCalm : bool; calmAt : double; calmOffset : double;
  holding : bool; holdStart : double; calmSince : double; rearmOnCalm : bool;
  gap : double; gapSlew : double; lastHoldAt : double; holds : Z; holdsTimedOut : Z
}.
Definition newHold : Hold := MkHold [] 0 false 0 0 false 0 (-1) false 0 0 0 0 0.

(** The samples, oldest first. *)
Record Estimator := MkEstimator {
  samples : list Sample; newestAt : double; dirty : bool; levelShifts : Z;
  est : OffsetEstimate; hold : Hold;
  priorRate : double; priorUncertainty : double; priorKnown : bool
}.
Definition newEstimator : Estimator := MkEstimator [] 0 true 0 noEstimate newHold 0 0 false.

(** [while (!empty && front.at < cut) pop_front()]. *)
Fixpoint popOld (cut : double) (l : list Sample) : list Sample :=
  match l with
  | s :: l' => if (sm_at s <? cut)%D then popOld cut l' else l
  | [] => []
  end.
Fixpoint popOldJitter (cut : double) (l : list JitterRecord) : list JitterRecord :=
  match l with
  | r :: l' => if (jr_at r <? cut)%D then popOldJitter cut l' else l
  | [] => []
  end.

Definition add (t : OffsetTuning) (st : Estimator) (atSec offsetSec : double) : Estimator :=
  let l := (samples st ++ [MkSample atSec offsetSec])%list in
  let newest := if (length l =? 1)%nat then atSec else dmax (newestAt st) atSec in
  MkEstimator (popOld (newest - rateWindowSec t)%D l) newest true (levelShifts st) (est st) (hold st)
    (priorRate st) (priorUncertainty st) (priorKnown st).

Definition clear (st : Estimator) : Estimator :=
  let h := hold st in
  MkEstimator [] 0%D true (levelShifts st) (est st)
    (MkHold [] 0 false (calmAt h) (calmOffset h) false (holdStart h) (-1) false 0 0 0 (holds h) (holdsTimedOut h))
    (priorRate st) (priorUncertainty st) (priorKnown st).

Definition setRatePrior (st : Estimator) (rateSec uncertaintySec : double) (known : bool) : Estimator :=
  MkEstimator (samples st) (newestAt st) (dirty st) (levelShifts st) (est st) (hold st)
    rateSec uncertaintySec known.

(** *** The rate: fitted, and the history dropped behind a step *)

Definition inLevel (t : OffsetTuning) (ref : double) (s : Sample) : bool :=
  negb (sm_at s <? ref - levelWindowSec t)%D.
Definition points (ref : double) (l : list Sample) : list Point :=
  map (fun s => MkPoint (sm_at s - ref)%D (sm_offset s)) l.

(** Whether the short window sits off the long line by more than its noise. *)
Definition stepped (t : OffsetTuning) (fit : LineFit) (pts : list Point) : bool :=
  let plausible := (dabs (f_slope fit) <=? kMaxRatePpm * 1e-6)%D in
  let shortRes := map (residual (f_slope fit) (f_intercept fit))
                    (filter (fun p => (x_ p >=? - levelWindowSec t)%D = true) pts) in
  let limit := dmax kStepFloorSec
                 (4 * f_sigma fit / PrimFloat.sqrt (d_of_Z (Z.of_nat (length shortRes))))%D in
  negb (plausible && (dabs (median shortRes) <=? limit)%D).

Fixpoint refit (attempts : nat) (t : OffsetTuning) (ref : double) (l : list Sample) (shifts : Z)
  : LineFit * list Sample * Z :=
  match attempts with
  | O => (noFit, l, shifts)
  | S k =>
      let pts := points ref l in
      let older := existsb (fun s => negb (inLevel t ref s)) l in
      let fit := fitLine pts t in
      if negb (f_ok fit) || negb older then (fit, l, shifts)
      else if negb (stepped t fit pts) then (fit, l, shifts)
      else refit k t ref (filter (fun s => inLevel t ref s = true) l) (shifts + 1)
  end.

(** *** The hold *)

Definition dcopysign (x y : double) : double := if (y <? 0)%D then (- dabs x)%D else dabs x.

(** The median of the jitter history, once there is enough of it. *)
Definition baselineOf (js : list JitterRecord) : option double :=
  if (kBaselineMinRecords <=? length js)%nat then Some (median (map jr_jitter js)) else None.
Definition spikeThreshold (baseline : double) : double := dmax kSpikeFloorSec (kSpikeFactor * baseline)%D.

(** What is left of a gap after [dt]. *)
Definition slew (g slewRate dt : double) : double :=
  if negb (g =? 0)%D then
    let step := (slewRate * dt)%D in
    if (dabs g <=? step)%D then 0%D else (g - dcopysign step g)%D
  else g.

(** A reading of the jitter enters the history, every ten seconds and never
    while holding. *)
Definition noteJitter (h : Hold) (ref jitter : double) : Hold :=
  let record := negb (holding h) && (ref >=? nextJitterRecordAt h)%D in
  let js := if record then (jitterHistory h ++ [MkJitter ref jitter])%list else jitterHistory h in
  MkHold (popOldJitter (ref - kBaselineWindowSec)%D js)
    (if record then (ref + kBaselineEverySec)%D else nextJitterRecordAt h)
    (haveCalm h) (calmAt h) (calmOffset h) (holding h) (holdStart h) (calmSince h) (rearmOnCalm h)
    (gap h) (gapSlew h) (lastHoldAt h) (holds h) (holdsTimedOut h).

(** The hold starts, or a calm level is remembered. *)
Definition startHold (h : Hold) (armed : bool) (threshold calm ref jitter published : double) : Hold :=
  if holding h then h
  else if armed && negb (rearmOnCalm h) && (threshold <? jitter)%D && haveCalm h &&
          (ref - calmAt h <=? kMaxCalmAgeSec)%D
  then MkHold (jitterHistory h) (nextJitterRecordAt h) (haveCalm h) (calmAt h) (calmOffset h)
         true ref (-1) (rearmOnCalm h) (gap h) (gapSlew h) (lastHoldAt h) (holds h + 1) (holdsTimedOut h)
  else if negb armed || (jitter <=? calm)%D
  then MkHold (jitterHistory h) (nextJitterRecordAt h) true ref published
         (holding h) (holdStart h) (calmSince h) false (gap h) (gapSlew h) (lastHoldAt h) (holds h) (holdsTimedOut h)
  else h.

(** While holding: the level held, and whether the hold ends. *)
Definition runHold (h : Hold) (rate calm ref jitter live : double) : Hold * double :=
  let held := (calmOffset h + rate * (ref - calmAt h))%D in
  let since := if (jitter <=? calm)%D then (if (calmSince h <? 0)%D then ref else calmSince h) else (-1)%D in
  let settled := (since >=? 0)%D && (ref - since >=? kCalmToReleaseSec)%D in
  let expired := (ref - holdStart h >=? kMaxHoldSec)%D in
  if settled || expired then
    let g := (held - live)%D in
    (MkHold (jitterHistory h) (nextJitterRecordAt h) false (calmAt h) (calmOffset h)
       false (holdStart h) since (if settled then rearmOnCalm h else true)
       g (dmax kRejoinMinSlewSecPerSec (dabs g / kRejoinSec)%D) (lastHoldAt h) (holds h)
       (if settled then holdsTimedOut h else holdsTimedOut h + 1), held)
  else
    (MkHold (jitterHistory h) (nextJitterRecordAt h) (haveCalm h) (calmAt h) (calmOffset h)
       true (holdStart h) since (rearmOnCalm h) (gap h) (gapSlew h) (lastHoldAt h) (holds h) (holdsTimedOut h), held).

Definition holdThroughSpikes (h : Hold) (e : OffsetEstimate) : Hold * OffsetEstimate :=
  let ref := e_atSec e in
  let live := e_offsetSec e in
  let jitter := e_jitterSec e in
  let dt := if (0 <? lastHoldAt h)%D then dmax 0 (ref - lastHoldAt h)%D else 0%D in
  let h := noteJitter h ref jitter in
  let baseline := baselineOf (jitterHistory h) in
  let armed := match baseline with Some _ => true | None => false end in
  let threshold := match baseline with Some b => spikeThreshold b | None => 0%D end in
  let calm := match baseline with Some _ => (kCalmFraction * threshold)%D | None => 0%D end in
  let h := MkHold (jitterHistory h) (nextJitterRecordAt h) (haveCalm h) (calmAt h) (calmOffset h)
             (holding h) (holdStart h) (calmSince h) (rearmOnCalm h)
             (slew (gap h) (gapSlew h) dt) (gapSlew h) ref (holds h) (holdsTimedOut h) in
  let published := (live + gap h)%D in
  let h := startHold h armed threshold calm ref jitter published in
  let '(h, published, term, heldFor) :=
    if holding h then
      let '(h', held) := runHold h (e_rate e) calm ref jitter live in
      if holding h' then (h', held, (e_rateTermSec e + e_rateUncertainty e * (ref - calmAt h))%D,
                          (ref - holdStart h)%D)
      else (h', held, e_rateTermSec e, e_heldForSec e)
    else (h, published, e_rateTermSec e, e_heldForSec e) in
  (h, MkEstimate (e_valid e) (e_samples e) (e_atSec e) published (e_jitterSec e)
        (e_rateMeasured e) (e_rateFromPrior e) (e_rate e) (e_rateUncertainty e) (e_rateSpanSec e)
        (e_rateSamples e) term (e_levelShifts e) (e_liveOffsetSec e) (holding h) heldFor
        (if holding h then 0%D else gap h)
        (match baseline with Some b => b | None => e_jitterBaselineSec e end)
        (match baseline with Some b => spikeThreshold b | None => e_spikeThresholdSec e end)
        (holds h) (holdsTimedOut h)).

(** *** One recompute *)

(** The level window's samples, carried to [ref] along the rate. *)
Definition levelOf (t : OffsetTuning) (ref rate : double) (l : list Sample) : list double :=
  map (fun s => sm_offset s + rate * (ref - sm_at s))%D (filter (fun s => inLevel t ref s = true) l).

Definition recompute (t : OffsetTuning) (st : Estimator) : Estimator :=
  match samples st with
  | [] =>
      MkEstimator [] (newestAt st) (dirty st) (levelShifts st)
        (MkEstimate false 0 0 0 0 false false 0 0 0 0 0 (levelShifts st) 0 false 0 0 0 0 0 0)
        (hold st) (priorRate st) (priorUncertainty st) (priorKnown st)
  | _ =>
      let ref := newestAt st in
      let '(fit, l, shifts) := refit 2 t ref (samples st) (levelShifts st) in
      let measured := f_ok fit && (dabs (f_slope fit) <=? kMaxRatePpm * 1e-6)%D &&
                      (f_slopeSe fit <=? kMaxMeasuredUncertaintyPpm * 1e-6)%D in
      let fromPrior := negb measured && priorKnown st in
      let rate := if measured then f_slope fit else if fromPrior then priorRate st else 0%D in
      let uncertainty := if measured then f_slopeSe fit else if fromPrior then priorUncertainty st
                         else (kUnmeasuredRatePpm * 1e-6)%D in
      let level := levelOf t ref rate l in
      let carried := fold_left (fun a s => (a + (ref - sm_at s))%D)
                       (filter (fun s => inLevel t ref s = true) l) 0%D in
      let med := median level in
      let n := Z.of_nat (length level) in
      let e := MkEstimate (minLevelSamples t <=? n) n ref med
                 (kMadToSigma * median (map (fun x => dabs (x - med)) level))%D
                 measured fromPrior rate uncertainty
                 (if f_ok fit then f_span fit else 0%D) (if f_ok fit then f_kept fit else 0)
                 (uncertainty * (carried / d_of_Z n))%D shifts med false 0 0 0 0
                 (holds (hold st)) (holdsTimedOut (hold st)) in
      let '(h, e) := if holdJitterSpikes t && e_valid e then holdThroughSpikes (hold st) e else (hold st, e) in
      MkEstimator l ref (dirty st) shifts e h (priorRate st) (priorUncertainty st) (priorKnown st)
  end.

Definition estimate (t : OffsetTuning) (st : Estimator) : OffsetEstimate * Estimator :=
  let st := if dirty st then recompute t st else st in
  (est st, MkEstimator (samples st) (newestAt st) false (levelShifts st) (est st) (hold st)
             (priorRate st) (priorUncertainty st) (priorKnown st)).

(** ** Lemmas *)

Definition isNum (x : double) : Prop := dnan x = false.

Lemma isNum_key x : isNum x -> exists k, dkey x = Some k.
Proof. unfold isNum, dnan. destruct (dkey x); eauto; done. Qed.

Lemma dsortLe_trans_on x y z : isNum x -> isNum y -> isNum z -> dsortLe x y -> dsortLe y z -> dsortLe x z.
Proof.
  intros (? & Hx)%isNum_key (? & Hy)%isNum_key (? & Hz)%isNum_key. unfold dsortLe.
  rewrite !dltb_key, Hx, Hy, Hz. zcases.
Qed.

Lemma sorted_median v : Forall isNum v -> StronglySorted dsortLe (merge_sort dsortLe v).
Proof.
  intros F. apply (Sorted_StronglySorted_on _ isNum).
  - by rewrite merge_sort_Permutation.
  - apply dsortLe_trans_on.
  - apply Sorted_merge_sort. apply _.
Qed.

Definition between (a b x : double) : bool := (a <=? x)%D && (x <=? b)%D.
Definition within (a b : double) (l : list double) : nat := length (filter (fun x => between a b x = true) l).

Lemma within_app a b l l' : within a b (l ++ l') = (within a b l + within a b l')%nat.
Proof. unfold within. by rewrite filter_app, length_app. Qed.
Lemma within_none a b l : Forall (fun x => between a b x = false) l -> within a b l = 0%nat.
Proof.
  induction 1 as [|x l E F IH]; [done|]. unfold within in *.
  rewrite filter_cons_False; [done|by rewrite E].
Qed.
Lemma within_le a b l : (within a b l <= length l)%nat.
Proof. apply length_filter. Qed.

(** Of a sorted list with [c] elements between [a] and [b], an element with
    fewer than [c] after it is not below [a], and one with fewer than [c] before
    it not above [b]. *)
Lemma sorted_between a b l i :
  isNum a -> isNum b -> Forall isNum l -> StronglySorted dsortLe l -> (i < length l)%nat ->
  (length l < S i + within a b l)%nat -> (i < within a b l)%nat -> between a b (nth i l 0%D) = true.
Proof.
  intros Na Nb F S L C1 C2. destruct (lookup_lt_is_Some_2 l i L) as [x Hx].
  rewrite (nth_lookup_Some _ _ _ _ Hx).
  assert (Li : length (take i l) = i) by (rewrite length_take; lia).
  pose proof (take_drop_middle l i x Hx) as E. revert F S L C1 C2. rewrite <- E.
  clear E Hx. revert Li. generalize (take i l) (drop (S i) l). clear l. intros l1 l2 Li F S L C1 C2.
  apply StronglySorted_app in S as (Cross & _ & S2). apply Forall_app in F as [F1 F2].
  apply Forall_cons in F2 as [Nx F2]. inversion S2 as [|? ? _ Hge]; subst.
  rewrite within_app, length_app in *. change (x :: l2) with ([x] ++ l2)%list in *.
  rewrite within_app, length_app in *. cbn [length] in *.
  unfold between. apply andb_true_iff. split; apply not_false_is_true; intros E.
  - assert (Out : forall y, isNum y -> dsortLe y x -> between a b y = false).
    { intros y Ny Ly. unfold between. apply andb_false_iff. left.
      destruct (isNum_key _ Na) as [ka Ha], (isNum_key _ Nx) as [kx Ex], (isNum_key _ Ny) as [ky Ey].
      unfold dsortLe in Ly. rewrite dleb_key, ?dltb_key, ?Ha, ?Ex, ?Ey in *. zbool. zcases. }
    rewrite (within_none a b l1) in C1.
    2:{ apply Forall_forall. intros y Hy. apply Out; [by eapply Forall_forall in F1; eauto|].
        apply Cross; [done|]. by left. }
    rewrite (within_none a b [x]) in C1 by (constructor; [apply Out; [done|unfold dsortLe; apply dltb_irrefl]|done]).
    pose proof (within_le a b l2). lia.
  - assert (Out : forall y, isNum y -> dsortLe x y -> between a b y = false).
    { intros y Ny Ly. unfold between. apply andb_false_iff. right.
      destruct (isNum_key _ Nb) as [kb Hb], (isNum_key _ Nx) as [kx Ex], (isNum_key _ Ny) as [ky Ey].
      unfold dsortLe in Ly. rewrite dleb_key, ?dltb_key, ?Hb, ?Ex, ?Ey in *. zbool. zcases. }
    rewrite (within_none a b l2) in C2.
    2:{ apply Forall_forall. intros y Hy. apply Out; [by eapply Forall_forall in F2; eauto|].
        eapply Forall_forall in Hge; eauto. }
    rewrite (within_none a b [x]) in C2 by (constructor; [apply Out; [done|unfold dsortLe; apply dltb_irrefl]|done]).
    pose proof (within_le a b l1). lia.
Qed.

(** The median is one of, or the mean of two of, the elements a majority
    brackets. *)
Lemma median_majority v a b :
  isNum a -> isNum b -> Forall isNum v -> (length v < 2 * within a b v)%nat ->
  exists x y, between a b x = true /\ between a b y = true /\ (median v = x \/ median v = (0.5 * (x + y))%D).
Proof.
  intros Na Nb F C. set (s := merge_sort dsortLe v).
  assert (P : s ≡ₚ v) by apply merge_sort_Permutation.
  assert (W : within a b s = within a b v) by (unfold within; by rewrite P).
  assert (Ls : length s = length v) by by rewrite P.
  assert (Fs : Forall isNum s) by by rewrite P.
  pose proof (sorted_median v F) as Srt. fold s in Srt. pose proof (within_le a b v) as Wl.
  unfold median. fold s. set (mid := (length v / 2)%nat).
  assert (M : (length v = 2 * mid + if Nat.odd (length v) then 1 else 0)%nat).
  { pose proof (Nat.div2_odd (length v)) as D. rewrite Nat.div2_div in D. fold mid in D.
    rewrite D at 1. by destruct (Nat.odd (length v)). }
  assert (B : forall i, (i < length v)%nat -> (length v < S i + within a b v)%nat -> (i < within a b v)%nat ->
              between a b (nth i s 0%D) = true).
  { intros i ? ? ?. apply sorted_between; rewrite ?W, ?Ls; auto. }
  destruct (Nat.odd (length v)).
  - exists (nth mid s 0%D), (nth mid s 0%D). split; [apply B; lia|]. split; [apply B; lia|]. by left.
  - exists (nth (mid - 1) s 0%D), (nth mid s 0%D). split; [apply B; lia|]. split; [apply B; lia|]. by right.
Qed.

(** *** The hold *)

Lemma holdThroughSpikes_keeps h e :
  let e' := snd (holdThroughSpikes h e) in
  e_valid e' = e_valid e /\ e_samples e' = e_samples e /\ e_atSec e' = e_atSec e /\
  e_liveOffsetSec e' = e_liveOffsetSec e /\ e_rate e' = e_rate e /\ e_jitterSec e' = e_jitterSec e.
Proof.
  unfold holdThroughSpikes. cbn zeta. destruct (baselineOf _); destruct (holding _);
    try (destruct (runHold _ _ _ _ _ _) as [h' held]; destruct (holding h')); done.
Qed.

(** A remembered calm level is one that was published, unheld. *)
Record holdInv (h : Hold) (log : list OffsetEstimate) : Prop := {
  hi_calm : haveCalm h = true ->
    exists e0, e0 ∈ log /\ e_held e0 = false /\ e_atSec e0 = calmAt h /\ e_offsetSec e0 = calmOffset h;
  hi_holding : holding h = true -> haveCalm h = true;
  hi_counts : 0 <= holdsTimedOut h /\ holdsTimedOut h + Z.b2z (holding h) <= holds h
}.

(** What a published estimate says of the hold it left. *)
Definition heldOk (e : OffsetEstimate) (h : Hold) : Prop :=
  e_held e = true ->
  holding h = true /\ (e_heldForSec e >=? kMaxHoldSec)%D = false /\
  e_heldForSec e = (e_atSec e - holdStart h)%D /\
  e_offsetSec e = (calmOffset h + e_rate e * (e_atSec e - calmAt h))%D.

Lemma holdInv_more h log e : holdInv h log -> holdInv h (e :: log).
Proof.
  intros [C H N]. split; [|done|done]. intros Hc. destruct (C Hc) as (e0 & ? & ?).
  exists e0. split; [by right|done].
Qed.

(** The hold's fields a jitter reading and a slew leave alone. *)
Definition sameHold (h h' : Hold) : Prop :=
  haveCalm h' = haveCalm h /\ calmAt h' = calmAt h /\ calmOffset h' = calmOffset h /\
  holding h' = holding h /\ holds h' = holds h /\ holdsTimedOut h' = holdsTimedOut h /\
  rearmOnCalm h' = rearmOnCalm h.

Lemma holdInv_same h h' log : sameHold h h' -> holdInv h log -> holdInv h' log.
Proof. intros (E1 & E2 & E3 & E4 & E5 & E6 & _) [C H N]. split; rewrite ?E1, ?E2, ?E3, ?E4, ?E5, ?E6; done. Qed.

Lemma runHold_spec h rate calm ref jitter live :
  let '(h', held) := runHold h rate calm ref jitter live in
  held = (calmOffset h + rate * (ref - calmAt h))%D /\
  calmAt h' = calmAt h /\ calmOffset h' = calmOffset h /\
  ((holding h' = true /\ haveCalm h' = haveCalm h /\ holdStart h' = holdStart h /\
    (ref - holdStart h >=? kMaxHoldSec)%D = false /\ holds h' = holds h /\ holdsTimedOut h' = holdsTimedOut h) \/
   (holding h' = false /\ haveCalm h' = false /\ holds h' = holds h /\
    holdsTimedOut h <= holdsTimedOut h' <= holdsTimedOut h + 1)).
Proof.
  unfold runHold. cbn zeta. destruct (_ && _) eqn:Es; cbn [orb].
  { repeat split; auto. right. cbn. lia. }
  destruct (ref - holdStart h >=? kMaxHoldSec)%D eqn:Ex.
  - repeat split; auto. right. cbn. lia.
  - repeat split; auto. left. done.
Qed.

Lemma startHold_spec h armed threshold calm ref jitter published :
  let h' := startHold h armed threshold calm ref jitter published in
  (h' = h /\ True) \/
  (holding h = false /\ holding h' = true /\ haveCalm h = true /\ holdStart h' = ref /\ calmAt h' = calmAt h /\
   calmOffset h' = calmOffset h /\ haveCalm h' = true /\
   holds h' = holds h + 1 /\ holdsTimedOut h' = holdsTimedOut h /\
   armed = true /\ (threshold <? jitter)%D = true /\ (ref - calmAt h <=? kMaxCalmAgeSec)%D = true /\
   rearmOnCalm h = false) \/
  (holding h = false /\ holding h' = false /\ haveCalm h' = true /\ calmAt h' = ref /\ calmOffset h' = published /\
   holds h' = holds h /\ holdsTimedOut h' = holdsTimedOut h).
Proof.
  unfold startHold. destruct (holding h) eqn:Eh; [by left|]. cbn [negb]. destruct armed, (rearmOnCalm h) eqn:Er,
    (threshold <? jitter)%D eqn:Et, (haveCalm h) eqn:Ec, (ref - calmAt h <=? kMaxCalmAgeSec)%D eqn:Ea,
    (jitter <=? calm)%D; cbn [negb andb orb]; cbn; auto 20.
Qed.

Lemma holdThroughSpikes_inv h e log :
  e_held e = false -> holdInv h log ->
  let '(h', e') := holdThroughSpikes h e in holdInv h' (e' :: log) /\ heldOk e' h'.
Proof.
  intros N I. unfold holdThroughSpikes. cbn zeta. set (h1 := noteJitter h (e_atSec e) (e_jitterSec e)).
  set (baseline := baselineOf (jitterHistory h1)).
  set (h2 := MkHold (jitterHistory h1) _ _ _ _ _ _ _ _ _ _ _ _ _).
  assert (I2 : holdInv h2 log) by (apply (holdInv_same h); [done|done]).
  set (h3 := startHold h2 _ _ _ _ _ _).
  pose proof (startHold_spec h2 (match baseline with Some _ => true | None => false end)
    (match baseline with Some b => spikeThreshold b | None => 0%D end)
    (match baseline with Some _ => (kCalmFraction * match baseline with Some b => spikeThreshold b | None => 0 end)%D
     | None => 0%D end) (e_atSec e) (e_jitterSec e) (e_offsetSec e + gap h2)%D) as S.
  cbn zeta in S. fold h3 in S. clearbody h3 h2 baseline.
  destruct I2 as [C H [N1 N2]].
  destruct (holding h3) eqn:E3.
  - pose proof (runHold_spec h3 (e_rate e) (match baseline with Some _ =>
       (kCalmFraction * match baseline with Some b => spikeThreshold b | None => 0 end)%D | None => 0%D end)
       (e_atSec e) (e_jitterSec e) (e_offsetSec e)) as R.
    destruct (runHold _ _ _ _ _ _) as [h4 held]. destruct R as (-> & Ra & Ro & R).
    assert (P3 : haveCalm h3 = true /\ holds h2 <= holds h3 /\ holdsTimedOut h3 = holdsTimedOut h2 /\
                 holds h2 + (1 - Z.b2z (holding h2)) = holds h3 /\ calmAt h3 = calmAt h2 /\
                 calmOffset h3 = calmOffset h2 /\ haveCalm h2 = true).
    { destruct S as [[-> _]|[S|S]]; [|destruct S as (-> & _ & -> & _ & -> & -> & -> & -> & -> & _); cbn; repeat split; lia
        |destruct S as (_ & S & _); congruence].
      specialize (H E3). rewrite E3. cbn. repeat split; auto; lia. }
    destruct P3 as (P1 & P2 & P4 & P5 & P6 & P7 & P8). destruct (C P8) as (e0 & I0 & U0 & A0 & O0).
    destruct R as [(R1 & R2 & R3 & R4 & R5 & R6)|(R1 & R2 & R5 & R6)]; rewrite R1.
    + split; [split|].
      * intros _. exists e0. rewrite Ra, Ro, P6, P7. auto using list_elem_of_further.
      * intros _. congruence.
      * rewrite R1, R5, R6, P4. cbn. destruct (holding h2); cbn in *; lia.
      * intros _. cbn. rewrite R3, Ra, Ro. auto.
    + split; [split|].
      * intros; congruence.
      * intros; congruence.
      * rewrite R1, R5. cbn. destruct (holding h2); cbn in *; lia.
      * intros Hh; cbn in Hh; congruence.
  - destruct S as [[-> _]|[S|S]]; [|destruct S as (_ & S & _); congruence|].
    + split; [|intros Hh; cbn in Hh; congruence]. apply holdInv_more. split; auto.
    + destruct S as (S1 & _ & S3 & S4 & S5 & S6 & S7). split; [split|intros Hh; cbn in Hh; congruence].
      * intros _. eexists. split; [by left|]. cbn. rewrite S4, S5. auto.
      * intros; congruence.
      * rewrite S6, S7, E3. cbn. rewrite S1 in N2. cbn in N2. lia.
Qed.

Lemma refit_sub attempts t ref : forall l shifts fit l' shifts',
  refit attempts t ref l shifts = (fit, l', shifts') -> l' ⊆ l.
Proof.
  induction attempts as [|k IH]; intros l shifts fit l' shifts'; cbn [refit]; [by intros [= <- <- <-]|].
  destruct (_ || _); [by intros [= <- <- <-]|]. destruct (negb _); [by intros [= <- <- <-]|].
  intros E%IH. etransitivity; [exact E|]. intros s [_ Hs]%list_elem_of_filter. done.
Qed.

(** What a recompute of samples publishes. *)
Lemma recompute_spec t st :
  samples st <> [] ->
  let st' := recompute t st in
  let e := est st' in
  let level := levelOf t (newestAt st) (e_rate e) (samples st') in
  samples st' ⊆ samples st /\ e_atSec e = newestAt st /\
  e_samples e = Z.of_nat (length level) /\ e_valid e = (minLevelSamples t <=? e_samples e) /\
  e_liveOffsetSec e = median level /\
  (holdJitterSpikes t = false -> e_offsetSec e = e_liveOffsetSec e /\ e_held e = false) /\
  exists e0, e_held e0 = false /\
    (hold st', e) = if holdJitterSpikes t && e_valid e then holdThroughSpikes (hold st) e0 else (hold st, e0).
Proof.
  intros N. unfold recompute. destruct (samples st) as [|s0 ss] eqn:Es; [done|]. cbn zeta.
  destruct (refit 2 t (newestAt st) (s0 :: ss) (levelShifts st)) as [[fit l] shifts] eqn:Er.
  apply refit_sub in Er. set (e := MkEstimate _ _ _ _ _ _ _ _ _ _ _ _ _ _ _ _ _ _ _ _ _).
  pose proof (holdThroughSpikes_keeps (hold st) e) as K. cbn zeta in K.
  destruct (holdJitterSpikes t) eqn:Eh; cbn [andb].
  - destruct (e_valid e) eqn:Ev.
    + destruct (holdThroughSpikes (hold st) e) as [h' e'] eqn:Eq. cbn [snd] in K.
      destruct K as (K1 & K2 & K3 & K4 & K5 & K6). cbn [samples est hold].
      rewrite K1, K2, K3, K4, K5. repeat split; try done. exists e. rewrite ?Ev. done.
    + cbn [samples est hold]. repeat split; try done. exists e. rewrite ?Ev. done.
  - cbn [samples est hold]. repeat split; try done. by exists e.
Qed.

(** *** Runs *)

Inductive run (t : OffsetTuning) : Estimator -> list OffsetEstimate -> Prop :=
| run_new : run t newEstimator []
| run_add st log a o : run t st log -> run t (add t st a o) log
| run_clear st log : run t st log -> run t (clear st) log
| run_prior st log r u k : run t st log -> run t (setRatePrior st r u k) log
| run_estimate st log : run t st log -> run t (snd (estimate t st)) (fst (estimate t st) :: log).

Lemma run_inv t st log : run t st log -> holdInv (hold st) log /\ (dirty st = false -> heldOk (est st) (hold st)).
Proof.
  induction 1 as [|st log a o R [I K]|st log R [[C H N] K]|st log r u k R [I K]|st log R [I K]].
  - split; [|done]. split; [done|done|cbn; lia].
  - done.
  - split; [|done]. split; [done|done|]. cbn. destruct (holding (hold st)); cbn in *; lia.
  - done.
  - unfold estimate. destruct (dirty st) eqn:D; cbn [fst snd hold est]; [|split; [by apply holdInv_more|auto]].
    destruct (samples st) as [|s0 ss] eqn:Es.
    + unfold recompute. rewrite Es. cbn [hold est]. split; [by apply holdInv_more|].
      intros _ X. discriminate X.
    + destruct (recompute_spec t st ltac:(congruence)) as (_ & _ & _ & _ & _ & _ & e0 & U & E).
      destruct (holdJitterSpikes t && e_valid (est (recompute t st))).
      * pose proof (holdThroughSpikes_inv (hold st) e0 log U I) as G. rewrite <- E in G. destruct G. auto.
      * injection E as E1 E2. rewrite E1, E2. split; [by apply holdInv_more|]. intros _ X. congruence.
Qed.

(** ** Properties *)

(** The level withstands any disturbance of less than half its window.
    When the carried samples of the level window are numbers and more than half
    of them lie between two bounds, the live level is one of the samples
    between those bounds or the mean of two of them, whatever the others are;
    the level counts as valid exactly when the window holds the minimum; and
    without the spike hold it is the level published. *)
Lemma level_withstands_minority (t : OffsetTuning) (st : Estimator) (a b : double) :
  samples st <> [] ->
  let st' := recompute t st in
  let e := est st' in
  let level := levelOf t (newestAt st) (e_rate e) (samples st') in
  isNum a -> isNum b -> Forall isNum level -> (length level < 2 * within a b level)%nat ->
  (exists x y, between a b x = true /\ between a b y = true /\
     (e_liveOffsetSec e = x \/ e_liveOffsetSec e = (0.5 * (x + y))%D)) /\
  samples st' ⊆ samples st /\ e_samples e = Z.of_nat (length level) /\
  (e_valid e = true <-> minLevelSamples t <= Z.of_nat (length level)) /\
  (holdJitterSpikes t = false -> e_offsetSec e = e_liveOffsetSec e).
Proof.
  intros N st' e level Na Nb F M. destruct (recompute_spec t st N) as (Sub & _ & Ls & V & Lv & U & _).
  fold st' e in Sub, Ls, V, Lv, U. fold level in Ls, Lv.
  destruct (median_majority level a b Na Nb F M) as (x & y & Bx & By & E). rewrite <- Lv in E.
  split; [by exists x, y|]. split; [done|]. split; [done|]. split; [|intros Hh; apply U, Hh].
  rewrite V, Ls. apply Z.leb_le.
Qed.

(** C32: a hold is bounded and honest. In any run of an estimator, whenever an
    estimate is held: it has been for less than the ten minutes allowed, the
    level published is one the same run published earlier, when not holding,
    carried along the rate; and no more holds ever time out than were started. *)
Theorem hold_bounded (t : OffsetTuning) (st : Estimator) (log : list OffsetEstimate) :
  run t st log ->
  let '(e, st') := estimate t st in
  (e_held e = true ->
     (e_heldForSec e >=? kMaxHoldSec)%D = false /\ e_heldForSec e = (e_atSec e - holdStart (hold st'))%D /\
     exists e0, e0 ∈ e :: log /\ e_held e0 = false /\
       e_offsetSec e = (e_offsetSec e0 + e_rate e * (e_atSec e - e_atSec e0))%D) /\
  0 <= holdsTimedOut (hold st') <= holds (hold st').
Proof.
  intros R. pose proof (run_inv t _ _ (run_estimate t _ _ R)) as [[C H [N1 N2]] K].
  destruct (estimate t st) as [e st'] eqn:E. cbn [fst snd] in *.
  assert (D : dirty st' = false /\ est st' = e) by (unfold estimate in E; injection E as <- <-; done).
  destruct D as [D Ee]. specialize (K D). rewrite Ee in K. split.
  - intros Hh. destruct (K Hh) as (Ho & L & F & O). split; [done|]. split; [done|].
    destruct (C (H Ho)) as (e0 & I0 & U0 & A0 & O0). exists e0. rewrite A0, O0. done.
  - destruct (holding (hold st')); cbn in N2; lia.
Qed.

(** *** Witnesses *)

Definition demoLevel : Estimator :=
  fold_left (fun st s => add defaultTuning st (fst s) (snd s))
    [(1, 1); (2, 1); (3, 50); (4, 1); (5, -70)]%D newEstimator.

Lemma level_withstands_minority_witness :
  exists x y, between 1 1 x = true /\ between 1 1 y = true /\
    (e_liveOffsetSec (est (recompute defaultTuning demoLevel)) = x \/
     e_liveOffsetSec (est (recompute defaultTuning demoLevel)) = (0.5 * (x + y))%D).
Proof.
  refine (proj1 (level_withstands_minority defaultTuning demoLevel 1%D 1%D _ _ _ _ _)).
  - vm_compute. discriminate.
  - reflexivity.
  - reflexivity.
  - vm_compute. repeat constructor.
  - apply Nat.ltb_lt. vm_compute. reflexivity.
Defined.

(** A source read every ten seconds: calm for ten minutes, then scattered. *)
Definition demoTuning : OffsetTuning := MkTuning 120 3 130 600 1000 60 5 5 true.
Fixpoint feed (t : OffsetTuning) (l : list (double * double)) (st : Estimator) (log : list OffsetEstimate)
  : Estimator * list OffsetEstimate :=
  match l with
  | [] => (st, log)
  | (a, o) :: l => let '(e, st) := estimate t (add t st a o) in feed t l st (e :: log)
  end.
Lemma feed_run t l : forall st log, run t st log -> run t (fst (feed t l st log)) (snd (feed t l st log)).
Proof.
  induction l as [|[a o] l IH]; intros st log R; [done|]. cbn [feed].
  pose proof (run_estimate t _ _ (run_add t _ _ a o R)) as R'.
  destruct (estimate t (add t st a o)) as [e st']. by apply IH.
Qed.
Definition demoReadings : list (double * double) :=
  (map (fun i => (10 * d_of_Z (Z.of_nat i + 1), 0)%D) (seq 0 64) ++
   map (fun i => (10 * d_of_Z (Z.of_nat i + 65), if Nat.even i then 1e-3 else - 1e-3)%D) (seq 0 9))%list.

Lemma hold_bounded_witness :
  let '(e, st') := estimate demoTuning (fst (feed demoTuning demoReadings newEstimator [])) in
  e_held e = true /\ (e_heldForSec e >=? kMaxHoldSec)%D = false /\ 0 <= holdsTimedOut (hold st') <= holds (hold st').
Proof.
  pose proof (hold_bounded demoTuning _ _ (feed_run demoTuning demoReadings newEstimator [] (run_new demoTuning))) as W.
  destruct (estimate demoTuning (fst (feed demoTuning demoReadings newEstimator []))) as [e st'] eqn:E.
  assert (Hh : e_held e = true).
  { replace e with (fst (estimate demoTuning (fst (feed demoTuning demoReadings newEstimator [])))) by (rewrite E; reflexivity).
    vm_compute. reflexivity. }
  destruct W as [W1 W2]. destruct (W1 Hh) as (L & _). split; [exact Hh|split; [exact L|exact W2]].
Defined.
