(* ===== verification/NtpClient.v ===== *)
(** * The NTP client (src/NtpClient.cpp)
    One pass of a peer's poll loop is [runStep]: the name is looked up again if
    due, a request is sent, the datagrams that come are examined until one is
    this server's answer, and what the answer does to the peer is done. What the
    network and the clocks decide is in [PollEnv]. The texts of errors are
    values of [Reject]. Threads, DNS and sockets are not modelled. *)

From Stdlib Require Import ZArith Lia List Bool Ascii String Floats.
From stdpp Require Import base list strings sorting.
From S2P Require Import Prelude Doubles Text IpPrefix SourceTypes Selector NtpServer OffsetEstimator.

#[local] Open Scope string_scope.
#[local] Open Scope Z_scope.

Definition kPhi : double := 15e-6%D.
Definition kReplyTimeoutSec : double := 5%D.
Definition kBurstCount : Z := 6.
Definition kBurstSpacingSec : double := 2%D.
Definition kReresolveAfterTimeouts : Z := 4.
Definition kQuickRetrySec : double := 2%D.
Definition kMaxQuickRetries : Z := 2.
Definition kSpikeSpreadFactor : double := 3%D.
Definition kSpikeRunLimit : Z := kMaxQuickRetries + 1.
Definition kMaxAgePolls : double := 4%D.
Definition kSpikeBiasFloorSec : double := 1e-3%D.
Definition kMaxBackoffPollSec : double := 1024%D.
Definition kBackoffRecoverAfter : Z := 8.
Definition kFilterSize : nat := 8.

(** ** The wire *)

Definition at_ (b : list Z) (i : nat) : Z := nth i b 0.
Definition read32 (b : list Z) (i : nat) : Z :=
  Z.lor (Z.lor (Z.lor (Z.shiftl (at_ b i) 24) (Z.shiftl (at_ b (i + 1)) 16)) (Z.shiftl (at_ b (i + 2)) 8))
        (at_ b (i + 3)).
Definition fromShortFormat (v : Z) : double := (d_of_Z v / 65536)%D.

(** The era nearest what the host's clock says. A host within [kEras] eras of
    1900, some thirty-five thousand years either way, is brought to it. *)
Definition kEras : nat := 256.
Fixpoint eraDown (fuel : nat) (unix approx : double) : double :=
  match fuel with
  | O => unix
  | S f => if (4294967296 / 2 <? unix - approx)%D then eraDown f (unix - 4294967296)%D approx else unix
  end.
Fixpoint eraUp (fuel : nat) (unix approx : double) : double :=
  match fuel with
  | O => unix
  | S f => if (4294967296 / 2 <? approx - unix)%D then eraUp f (unix + 4294967296)%D approx else unix
  end.
Definition fromNtpTime (b : list Z) (i : nat) (approxUnix : double) : double :=
  let unix := (d_of_Z (read32 b i) - d_of_Z kNtpUnixDelta + d_of_Z (read32 b (i + 4)) / 4294967296)%D in
  eraUp kEras (eraDown kEras unix approxUnix) approxUnix.

Definition printable (b : Z) : bool := (32 <=? b) && (b <=? 126).
Definition charOf (b : Z) : ascii := ascii_of_nat (Z.to_nat b).
Definition textOf (l : list Z) : string := string_of_list_ascii (map charOf (filter (fun b => printable b = true) l)).
Definition four (b : list Z) (i : nat) : list Z := map (at_ b) (seq i 4).

Definition refidText (b : list Z) (i : nat) (stratum : Z) : string :=
  if (stratum <=? 1) && forallb (fun x => (x =? 0) || printable x) (four b i) then textOf (four b i)
  else udec (at_ b i) +:+ "." +:+ udec (at_ b (i + 1)) +:+ "." +:+ udec (at_ b (i + 2)) +:+ "."
       +:+ udec (at_ b (i + 3)).
Definition kissText (b : list Z) (i : nat) : string := textOf (four b i).

(** The peer's address as a reference identifier: FNV-1a over an IPv6 one. *)
Definition fnv1a (l : list Z) : Z :=
  fold_left (fun h b => u32 (Z.lxor h b * 16777619)) l 2166136261.
Definition refidForPeer (sa : SockAddr) : Z :=
  match sa with
  | SaInet b => read32 b 0
  | SaInet6 b => fnv1a (map (at_ b) (seq 0 16))
  | SaOther => 0
  end.

(** ** The peer *)

Record NtpSourceConfig := MkPeerConfig {
  pc_name : string; pc_server : string; pc_enabled : bool; pc_pollSeconds : double; pc_iburst : bool;
  pc_weight : double; pc_maxRootDistanceMs : double; pc_maxStratum : Z; pc_extraDelayMs : double
}.

(** One accepted measurement. *)
Record FilterSample := MkFSample {
  fs_offsetSec : double; fs_delaySec : double; fs_dispersionSec : double; fs_atSec : double;
  fs_seq : Z; fs_valid : bool
}.
Definition noSample : FilterSample := MkFSample 0 0 0 0 0 false.

(** Why a poll brought nothing usable. *)
Inductive Reject :=
| RConnect | RSend | RTimeout | RPoll | RRecv
| RKiss (code : string) | RUnsynchronised | RStratum (s : Z) | RZeroTransmit | RLoop (refid : string)
| RRootDistance (sec : double).

(** What a reply said, as the snapshot keeps it. *)
Record PeerInfo := MkInfo {
  n_stratum : Z; n_refid : string; n_leap : Z; n_rootDelaySec : double; n_rootDispersionSec : double;
  n_precisionSec : double; n_delaySec : double; n_filterJitterSec : double; n_rootDistanceSec : double;
  n_kissCode : string; n_stopped : bool; n_reach : Z; n_sent : Z; n_received : Z; n_rejected : Z;
  n_spikes : Z; n_pollSec : double; n_lastReject : option Reject;
  n_addressHost : string; n_addressRefid : Z; n_leapPending : bool
}.

(** What [recompute] publishes for the selector. *)
Record Published := MkPublished {
  pb_haveOffset : bool; pb_samples : Z; pb_est : OffsetEstimate; pb_ageSec : double; pb_maxAgeSec : double;
  pb_dispersionSec : double; pb_weightDispersionSec : double
}.

Record Peer := MkPeer {
  p_fd : bool; p_consecutiveTimeouts : Z; p_retryable : bool; p_quickRetries : Z; p_burstLeft : Z;
  p_backoffPollSec : double; p_goodRun : Z;
  p_filter : list FilterSample; p_seq : Z; p_handedOn : Z; p_spikeRun : Z; p_offsets : Estimator;
  p_info : PeerInfo; p_published : Published
}.

Definition newPeer (cfg : NtpSourceConfig) : Peer :=
  MkPeer false 0 false 0 (if pc_iburst cfg then kBurstCount else 0) 0 0
    (replicate kFilterSize noSample) 0 0 0 newEstimator
    (MkInfo 0 "" 0 0 0 0 0 0 0 "" false 0 0 0 0 0 (pc_pollSeconds cfg) None "" 0 false)
    (MkPublished false 0 noEstimate 1e9 0 0 0).
Definition tuningOf (cfg : NtpSourceConfig) : OffsetTuning := forPollInterval (pc_pollSeconds cfg).

(** *** Updates *)

Definition withInfo (st : Peer) (i : PeerInfo) : Peer :=
  MkPeer (p_fd st) (p_consecutiveTimeouts st) (p_retryable st) (p_quickRetries st) (p_burstLeft st)
    (p_backoffPollSec st) (p_goodRun st) (p_filter st) (p_seq st) (p_handedOn st) (p_spikeRun st)
    (p_offsets st) i (p_published st).
Definition withFd (st : Peer) (fd : bool) : Peer :=
  MkPeer fd (p_consecutiveTimeouts st) (p_retryable st) (p_quickRetries st) (p_burstLeft st)
    (p_backoffPollSec st) (p_goodRun st) (p_filter st) (p_seq st) (p_handedOn st) (p_spikeRun st)
    (p_offsets st) (p_info st) (p_published st).
Definition withTimeouts (st : Peer) (n : Z) : Peer :=
  MkPeer (p_fd st) n (p_retryable st) (p_quickRetries st) (p_burstLeft st)
    (p_backoffPollSec st) (p_goodRun st) (p_filter st) (p_seq st) (p_handedOn st) (p_spikeRun st)
    (p_offsets st) (p_info st) (p_published st).
Definition withRetryable (st : Peer) (b : bool) : Peer :=
  MkPeer (p_fd st) (p_consecutiveTimeouts st) b (p_quickRetries st) (p_burstLeft st)
    (p_backoffPollSec st) (p_goodRun st) (p_filter st) (p_seq st) (p_handedOn st) (p_spikeRun st)
    (p_offsets st) (p_info st) (p_published st).
Definition withPolling (st : Peer) (quick burst : Z) (backoff : double) (goodRun : Z) : Peer :=
  MkPeer (p_fd st) (p_consecutiveTimeouts st) (p_retryable st) quick burst backoff goodRun
    (p_filter st) (p_seq st) (p_handedOn st) (p_spikeRun st) (p_offsets st) (p_info st) (p_published st).
Definition withFilter (st : Peer) (f : list FilterSample) (seq handed spikeRun : Z) (o : Estimator) : Peer :=
  MkPeer (p_fd st) (p_consecutiveTimeouts st) (p_retryable st) (p_quickRetries st) (p_burstLeft st)
    (p_backoffPollSec st) (p_goodRun st) f seq handed spikeRun o (p_info st) (p_published st).

Definition withPublished (st : Peer) (o : Estimator) (b : Published) : Peer :=
  MkPeer (p_fd st) (p_consecutiveTimeouts st) (p_retryable st) (p_quickRetries st) (p_burstLeft st)
    (p_backoffPollSec st) (p_goodRun st) (p_filter st) (p_seq st) (p_handedOn st) (p_spikeRun st) o
    (p_info st) b.

(** The kiss of the latest answer, and whether it said to stop. *)
Definition kissed (i : PeerInfo) (code : string) (stopped : bool) : PeerInfo :=
  MkInfo (n_stratum i) (n_refid i) (n_leap i) (n_rootDelaySec i) (n_rootDispersionSec i) (n_precisionSec i)
    (n_delaySec i) (n_filterJitterSec i) (n_rootDistanceSec i) code stopped (n_reach i) (n_sent i)
    (n_received i) (n_rejected i) (n_spikes i) (n_pollSec i) (n_lastReject i) (n_addressHost i)
    (n_addressRefid i) (n_leapPending i).
Definition tallied (i : PeerInfo) (reach sent received rejected spikes : Z) : PeerInfo :=
  MkInfo (n_stratum i) (n_refid i) (n_leap i) (n_rootDelaySec i) (n_rootDispersionSec i) (n_precisionSec i)
    (n_delaySec i) (n_filterJitterSec i) (n_rootDistanceSec i) (n_kissCode i) (n_stopped i) reach sent
    received rejected spikes (n_pollSec i) (n_lastReject i) (n_addressHost i) (n_addressRefid i)
    (n_leapPending i).
Definition filtered (i : PeerInfo) (delay jitter distance : double) : PeerInfo :=
  MkInfo (n_stratum i) (n_refid i) (n_leap i) (n_rootDelaySec i) (n_rootDispersionSec i) (n_precisionSec i)
    delay jitter distance (n_kissCode i) (n_stopped i) (n_reach i) (n_sent i)
    (n_received i) (n_rejected i) (n_spikes i) (n_pollSec i) (n_lastReject i) (n_addressHost i)
    (n_addressRefid i) (n_leapPending i).
Definition judged (i : PeerInfo) (why : option Reject) (pollSec : double) : PeerInfo :=
  MkInfo (n_stratum i) (n_refid i) (n_leap i) (n_rootDelaySec i) (n_rootDispersionSec i) (n_precisionSec i)
    (n_delaySec i) (n_filterJitterSec i) (n_rootDistanceSec i) (n_kissCode i) (n_stopped i) (n_reach i)
    (n_sent i) (n_received i) (n_rejected i) (n_spikes i) pollSec why (n_addressHost i)
    (n_addressRefid i) (n_leapPending i).

(** ** The clock filter *)

(** The first valid sample of the least round trip. *)
Definition bestOf (f : list FilterSample) : option FilterSample :=
  fold_left (fun best s =>
      if negb (fs_valid s) then best
      else match best with
           | None => Some s
           | Some b => if (fs_delaySec s <? fs_delaySec b)%D then Some s else best
           end) f None.

Definition filterJitter (f : list FilterSample) (best : FilterSample) : double :=
  let others := filter (fun s => fs_valid s && negb (fs_seq s =? fs_seq best) = true) f in
  let ss := fold_left (fun a s => let d := (fs_offsetSec s - fs_offsetSec best)%D in (a + d * d)%D) others 0%D in
  match others with
  | [] => 0%D
  | _ => PrimFloat.sqrt (ss / d_of_Z (Z.of_nat (length others)))%D
  end.

(** How much more than the best's round trip a clean sample may take. *)
Definition allowedExcess (f : list FilterSample) (best : FilterSample) : double :=
  let delays := merge_sort dsortLe (map fs_delaySec (filter (fun s => fs_valid s = true) f)) in
  let cleanSpread := (nth (length delays / 4) delays 0 - fs_delaySec best)%D in
  dmax (dmax (2 * kSpikeBiasFloorSec)%D (fs_delaySec best)) (kSpikeSpreadFactor * cleanSpread)%D.

Definition filterAdd (cfg : NtpSourceConfig) (st : Peer) (s : FilterSample) : Peer :=
  let f := take kFilterSize (s :: p_filter st) in
  match bestOf f with
  | None => withFilter st f (p_seq st) (p_handedOn st) (p_spikeRun st) (p_offsets st)
  | Some best =>
      let i := p_info st in
      let st := withInfo st (filtered i (fs_delaySec best) (filterJitter f best)
        ((n_rootDelaySec i + fs_delaySec best) / 2 + n_rootDispersionSec i + fs_dispersionSec best)%D) in
      let i := p_info st in
      let slow := (allowedExcess f best <? fs_delaySec s - fs_delaySec best)%D in
      if slow && (p_spikeRun st + 1 <? kSpikeRunLimit) then
        withRetryable
          (withInfo (withFilter st f (p_seq st) (p_handedOn st) (p_spikeRun st + 1) (p_offsets st))
             (tallied i (n_reach i) (n_sent i) (n_received i) (n_rejected i) (n_spikes i + 1))) true
      else if p_handedOn st <? fs_seq s then
        withFilter st f (p_seq st) (fs_seq s) 0 (add (tuningOf cfg) (p_offsets st) (fs_atSec s) (fs_offsetSec s))
      else withFilter st f (p_seq st) (p_handedOn st) 0 (p_offsets st)
  end.

(** What the peer asserts, and what sets it apart from the others. *)
Definition recompute (cfg : NtpSourceConfig) (st : Peer) (now : double) : Peer :=
  let '(e, o) := estimate (tuningOf cfg) (p_offsets st) in
  let i := p_info st in
  withPublished st o
    (MkPublished (e_valid e) (e_samples e) e
       (match samples o with [] => 1e9%D | _ => (now - newestAt o)%D end)
       (dmax 180 (kMaxAgePolls * n_pollSec i)%D)
       (n_rootDistanceSec i + n_filterJitterSec i + e_jitterSec e + e_rateTermSec e)%D
       (n_delaySec i / 2 + n_filterJitterSec i + e_jitterSec e)%D).

(** What the selector is told. *)
Definition snapshot (cfg : NtpSourceConfig) (primary : bool) (st : Peer) (active : bool) (activeReason : string)
  : SourceSnapshot :=
  let i := p_info st in
  let b := p_published st in
  let e := pb_est b in
  let reachable := negb (n_reach i =? 0) in
  MkSnapshot (pc_name cfg) Ntp primary
    (pc_enabled cfg && active && negb (n_stopped i) && reachable && pb_haveOffset b)
    (if negb (pc_enabled cfg) then "disabled in the configuration"
     else if negb active then (if String.eqb activeReason "" then "held in cold standby" else activeReason)
     else if n_stopped i then "the server sent kiss-o'-death " +:+ n_kissCode i +:+ " and will not be polled again"
     else if negb reachable then
       (if n_sent i =? 0 then "no poll has been answered yet"
        else "unreachable: the last 8 polls went unanswered")
     else if negb (pb_haveOffset b) then "still filtering: " +:+ dec (pb_samples b) +:+ " accepted sample(s) so far"
     else "")
    "ntp" (n_leapPending i) (pb_haveOffset b) (e_offsetSec e) (e_atSec e) (e_rate e) (e_rateUncertainty e)
    (e_rateMeasured e) (pb_dispersionSec b) (pb_weightDispersionSec b) (pb_ageSec b) (pb_maxAgeSec b)
    (pb_samples b)
    (SourceTypes.MkPeerInfo (n_stratum i) (n_rootDelaySec i) (n_delaySec i) (pc_server cfg) (n_addressHost i)
       (n_addressRefid i))
    (pc_weight cfg).

(** ** One answer *)

Record Datagram := MkDatagram {
  dg_bytes : list Z; dg_readAt : double; dg_stamps : list (Z * Z * double)
}.

Section Client.
Context `{Libm} `{DaemonClock}.

Definition clockPrecisionSec : double :=
  if (0 <? daemonClockResolution)%D then daemonClockResolution else 1e-6%D.

Definition currentPoll (cfg : NtpSourceConfig) (st : Peer) : double :=
  if (0 <? p_backoffPollSec st)%D then p_backoffPollSec st else pc_pollSeconds cfg.

(** The request; its transmit timestamp is the nonce. *)
Definition request (cfg : NtpSourceConfig) (st : Peer) (nonce : Z) : list Z :=
  ([Z.lor (Z.lor (Z.shiftl 0 6) (Z.shiftl 4 3)) 3; 0;
    u8 (zclamp (dllround (std_log2 (dmax 1 (currentPoll cfg st)))) 4 17);
    u8 (zclamp (d2ll (dceil (std_log2 clockPrecisionSec))) (-20) 0)]
   ++ repeat 0 36 ++ put32 (u32 (Z.shiftr nonce 32)) ++ put32 (u32 nonce))%list.

(** A kiss-o'-death. *)
Definition kiss (cfg : NtpSourceConfig) (st : Peer) (b : list Z) : Reject * Peer :=
  let code := kissText b 12 in
  let stop := String.eqb code "DENY" || String.eqb code "RSTR" in
  let st := withInfo st (kissed (p_info st) code (stop || n_stopped (p_info st))) in
  if negb stop && String.eqb code "RATE" then
    let asked := std_pow 2 (d_of_Z (zclamp (at_ b 2) 4 17)) in
    (RKiss code, withPolling st (p_quickRetries st) 0
                   (dmin kMaxBackoffPollSec (dmax (currentPoll cfg st * 2) asked)%D) 0)
  else (RKiss code, st).

(** Eight clean answers ease a backoff. *)
Definition easeBackoff (cfg : NtpSourceConfig) (st : Peer) : Peer :=
  if (0 <? p_backoffPollSec st)%D then
    let run := p_goodRun st + 1 in
    if kBackoffRecoverAfter <=? run then
      let half := (p_backoffPollSec st / 2)%D in
      withPolling st (p_quickRetries st) (p_burstLeft st)
        (if (half <=? pc_pollSeconds cfg)%D then 0%D else half) 0
    else withPolling st (p_quickRetries st) (p_burstLeft st) (p_backoffPollSec st) run
  else st.

(** What an answer measures: offset, delay, and what it is worth. *)
Definition measured (cfg : NtpSourceConfig) (b : list Z) (t1 t4 approx : double) : double * double * double :=
  let t2 := fromNtpTime b 32 approx in
  let t3 := fromNtpTime b 40 approx in
  let offset := (((t2 - t1) + (t3 - t4)) / 2)%D in
  let delay := ((t4 - t1) - (t3 - t2))%D in
  let minDelay := (2 * clockPrecisionSec)%D in
  let delay := if (delay <? minDelay)%D then minDelay else delay in
  let serverPrecision := std_pow 2 (d_of_Z (i8 (at_ b 3))) in
  ((offset + pc_extraDelayMs cfg * 1e-3 / 2)%D, delay,
   (serverPrecision + clockPrecisionSec + kPhi * (t4 - t1))%D).

Definition rootDistanceOf (b : list Z) (delay sampleDisp : double) : double :=
  ((fromShortFormat (read32 b 4) + delay) / 2 + fromShortFormat (read32 b 8) + sampleDisp)%D.

(** The answer taken: the counters, what it said, and the sample filtered. *)
Definition accept (cfg : NtpSourceConfig) (st : Peer) (b : list Z) (t4 offset delay disp : double) : Peer :=
  let leap := Z.land (Z.shiftr (at_ b 0) 6) 3 in
  let st := easeBackoff cfg (withTimeouts st 0) in
  let i := p_info st in
  let i := MkInfo (at_ b 1) (refidText b 12 (at_ b 1)) leap (fromShortFormat (read32 b 4))
             (fromShortFormat (read32 b 8)) (std_pow 2 (d_of_Z (i8 (at_ b 3)))) (n_delaySec i)
             (n_filterJitterSec i) (n_rootDistanceSec i) "" (n_stopped i) (n_reach i) (n_sent i)
             (n_received i + 1) (n_rejected i) (n_spikes i) (n_pollSec i) (n_lastReject i)
             (n_addressHost i) (n_addressRefid i) ((leap =? 1) || (leap =? 2)) in
  let st := withInfo st i in
  let seq := p_seq st + 1 in
  filterAdd cfg (withFilter st (p_filter st) seq (p_handedOn st) (p_spikeRun st) (p_offsets st))
    (MkFSample offset delay disp t4 seq true).

(** One datagram: [None] if it is not this server's answer to this request. *)
Definition examine (cfg : NtpSourceConfig) (localAddrs : list Z) (st : Peer) (nonce : Z) (t1 approx : double)
    (d : Datagram) : option (option Reject * Peer) :=
  let b := dg_bytes d in
  let leap := Z.land (Z.shiftr (at_ b 0) 6) 3 in
  let version := Z.land (Z.shiftr (at_ b 0) 3) 7 in
  let mode := Z.land (at_ b 0) 7 in
  let stratum := at_ b 1 in
  if Z.of_nat (length b) <? kPacketSize then None
  else if negb (mode =? 4) then None
  else if (version <? 3) || (4 <? version) then None
  else if negb (read32 b 24 =? u32 (Z.shiftr nonce 32)) || negb (read32 b 28 =? u32 nonce) then None
  else if stratum =? 0 then let '(why, st) := kiss cfg st b in Some (Some why, st)
  else if leap =? 3 then Some (Some RUnsynchronised, st)
  else if pc_maxStratum cfg <? stratum then Some (Some (RStratum stratum), st)
  else if (read32 b 40 =? 0) && (read32 b 44 =? 0) then Some (Some RZeroTransmit, st)
  else if (1 <? stratum) && existsb (Z.eqb (read32 b 12)) localAddrs
       then Some (Some (RLoop (refidText b 12 stratum)), st)
  else
    let t4 := stamped (dg_stamps d) (dg_readAt d) in
    let '(offset, delay, disp) := measured cfg b t1 t4 approx in
    let distance := rootDistanceOf b delay disp in
    if (pc_maxRootDistanceMs cfg * 1e-3 <? distance)%D then Some (Some (RRootDistance distance), st)
    else Some (None, accept cfg st b t4 offset delay disp).

(** What the wait for a reply sees, in order, before its time runs out. *)
Inductive WaitEvent := WInterrupted | WPollError | WRecvAgain | WRecvError | WDatagram (d : Datagram).

Fixpoint awaitReply (cfg : NtpSourceConfig) (localAddrs : list Z) (st : Peer) (nonce : Z) (t1 approx : double)
    (l : list WaitEvent) : option Reject * Peer :=
  match l with
  | [] => (Some RTimeout, withRetryable (withTimeouts st (p_consecutiveTimeouts st + 1)) true)
  | WInterrupted :: l | WRecvAgain :: l => awaitReply cfg localAddrs st nonce t1 approx l
  | WPollError :: _ => (Some RPoll, withFd st false)
  | WRecvError :: _ => (Some RRecv, withFd st false)
  | WDatagram d :: l =>
      match examine cfg localAddrs st nonce t1 approx d with
      | None => awaitReply cfg localAddrs st nonce t1 approx l
      | Some r => r
      end
  end.

(** [connectPeer]: the lookup failed, its answer includes the address in use, or
    a socket was connected to a new one. *)
Inductive Connect := CFailed | CKept | CMoved (host : string) (refid : Z).
Definition connectPeer (st : Peer) (c : Connect) : bool * Peer :=
  match c with
  | CFailed => (false, st)
  | CKept => (true, st)
  | CMoved host refid =>
      let i := p_info st in
      let i := MkInfo (n_stratum i) (n_refid i) (n_leap i) (n_rootDelaySec i) (n_rootDispersionSec i)
                 (n_precisionSec i) (n_delaySec i) (n_filterJitterSec i) (n_rootDistanceSec i) (n_kissCode i)
                 (n_stopped i) (n_reach i) (n_sent i) (n_received i) (n_rejected i) (n_spikes i) (n_pollSec i)
                 (n_lastReject i) host refid (n_leapPending i) in
      let moved := p_fd st in
      let st := withInfo (withTimeouts (withFd st true) 0) i in
      (true, if moved then withFilter st (replicate kFilterSize noSample) (p_seq st) (p_handedOn st) 0 (p_offsets st)
             else st)
  end.

Record PollEnv := MkEnv {
  v_resolveDue : bool; v_lookAgain : Connect; v_connect : Connect;
  v_nonce : Z; v_t1 : double; v_sendOk : bool; v_approx : double; v_events : list WaitEvent;
  v_now : double
}.

(** The peer after the poll, what went wrong if anything, and the request that
    went out if one did. *)
Definition pollOnce (cfg : NtpSourceConfig) (localAddrs : list Z) (st : Peer) (v : PollEnv)
  : option Reject * Peer * option (list Z) :=
  let st := withRetryable st false in
  let '(ok, st) := if p_fd st then (true, st) else connectPeer st (v_connect v) in
  if negb ok then (Some RConnect, st, None)
  else if negb (v_sendOk v) then (Some RSend, withFd st false, None)
  else
    let out := request cfg st (v_nonce v) in
    let i := p_info st in
    let st := withInfo st (tallied i (n_reach i) (n_sent i + 1) (n_received i) (n_rejected i) (n_spikes i)) in
    let '(why, st) := awaitReply cfg localAddrs st (v_nonce v) (v_t1 v) (v_approx v) (v_events v) in
    (why, st, Some out).

(** When the next poll is: soon in a burst or after a poll worth trying again,
    else a poll interval away. *)
Definition schedule (cfg : NtpSourceConfig) (st : Peer) : Peer * double :=
  let '(st, wait) :=
    if 0 <? p_burstLeft st then
      (withPolling st (p_quickRetries st) (p_burstLeft st - 1) (p_backoffPollSec st) (p_goodRun st),
       kBurstSpacingSec)
    else if p_retryable st && (p_backoffPollSec st <=? 0)%D && negb (n_reach (p_info st) =? 0)
            && (p_quickRetries st <? kMaxQuickRetries)
    then (withPolling st (p_quickRetries st + 1) (p_burstLeft st) (p_backoffPollSec st) (p_goodRun st),
          kQuickRetrySec)
    else (withPolling st 0 (p_burstLeft st) (p_backoffPollSec st) (p_goodRun st), currentPoll cfg st) in
  (withInfo st (judged (p_info st) (n_lastReject (p_info st)) (currentPoll cfg st)), wait).

(** One pass of [run] for an active peer, and how long it then waits: half a
    minute after a refusal for good, else until the next poll. *)
Definition runStep (cfg : NtpSourceConfig) (localAddrs : list Z) (st : Peer) (v : PollEnv)
  : Peer * double * option (list Z) :=
  let st :=
    if p_fd st && ((kReresolveAfterTimeouts <=? p_consecutiveTimeouts st) || v_resolveDue v)
    then withTimeouts (snd (connectPeer st (v_lookAgain v))) 0 else st in
  let '(why, st, out) := pollOnce cfg localAddrs st v in
  let i := p_info st in
  let reach := u8 (Z.lor (Z.shiftl (n_reach i) 1) (match why with None => 1 | _ => 0 end)) in
  let rejected := match why with None => n_rejected i | _ => n_rejected i + 1 end in
  let i := judged (tallied i reach (n_sent i) (n_received i) rejected (n_spikes i)) why (n_pollSec i) in
  let st := recompute cfg (withInfo st i) (v_now v) in
  if n_stopped i then (st, 30%D, out)
  else let '(st, wait) := schedule cfg st in (st, wait, out).

(** [dropTiming]: for a peer held inactive or sent back to start over. *)
Definition dropTiming (st : Peer) : Peer :=
  let b := p_published st in
  withPublished (withFilter st (replicate kFilterSize noSample) (p_seq st) 0 (p_spikeRun st) (p_offsets st))
    (clear (p_offsets st))
    (MkPublished false 0 (pb_est b) (pb_ageSec b) (pb_maxAgeSec b) (pb_dispersionSec b) (pb_weightDispersionSec b)).

(** The first pass while held inactive, the first when active again, and a
    pass that starts over at the consensus's request. *)
Definition goIdle (st : Peer) : Peer :=
  let st := dropTiming (withFd st false) in
  let i := p_info st in
  withInfo st (tallied i 0 (n_sent i) (n_received i) (n_rejected i) (n_spikes i)).
Definition bringUp (st : Peer) : Peer :=
  withPolling st (p_quickRetries st) kBurstCount 0 (p_goodRun st).
Definition startOver (st : Peer) : Peer :=
  let st := dropTiming (withFd st false) in
  withPolling st (p_quickRetries st) kBurstCount (p_backoffPollSec st) (p_goodRun st).

(** The states a peer's thread goes through, with whether each poll since it was
    last idle was answered, newest first. *)
Inductive reachPeer (cfg : NtpSourceConfig) (localAddrs : list Z) : Peer -> list bool -> Prop :=
| reach_new : reachPeer cfg localAddrs (newPeer cfg) []
| reach_idle st log : reachPeer cfg localAddrs st log -> reachPeer cfg localAddrs (goIdle st) []
| reach_up st log : reachPeer cfg localAddrs st log -> reachPeer cfg localAddrs (bringUp st) log
| reach_over st log : reachPeer cfg localAddrs st log -> reachPeer cfg localAddrs (startOver st) log
| reach_rate st log r u k : reachPeer cfg localAddrs st log ->
    reachPeer cfg localAddrs (withPublished st (setRatePrior (p_offsets st) r u k) (p_published st)) log
| reach_poll st log v st' : reachPeer cfg localAddrs st log -> fst (fst (runStep cfg localAddrs st v)) = st' ->
    reachPeer cfg localAddrs st' (match n_lastReject (p_info st') with None => true | _ => false end :: log).
End Client.

(** ** Lemmas *)

(** What makes a datagram this server's answer to this request. *)
Definition isAnswer (nonce : Z) (d : Datagram) : bool :=
  let b := dg_bytes d in
  (kPacketSize <=? Z.of_nat (length b)) && (Z.land (at_ b 0) 7 =? 4) &&
  (3 <=? Z.land (Z.shiftr (at_ b 0) 3) 7) && (Z.land (Z.shiftr (at_ b 0) 3) 7 <=? 4) &&
  (read32 b 24 =? u32 (Z.shiftr nonce 32)) && (read32 b 28 =? u32 nonce).

Section ClientFacts.
Context `{Libm} `{DaemonClock}.

(** What the answer must say to be taken. *)
Definition usable (cfg : NtpSourceConfig) (localAddrs : list Z) (b : list Z) (t1 t4 approx : double) : bool :=
  let '(offset, delay, disp) := measured cfg b t1 t4 approx in
  negb (at_ b 1 =? 0) && negb (Z.land (Z.shiftr (at_ b 0) 6) 3 =? 3) && (at_ b 1 <=? pc_maxStratum cfg) &&
  negb ((read32 b 40 =? 0) && (read32 b 44 =? 0)) &&
  negb ((1 <? at_ b 1) && existsb (Z.eqb (read32 b 12)) localAddrs) &&
  negb (pc_maxRootDistanceMs cfg * 1e-3 <? rootDistanceOf b delay disp)%D.

Lemma examine_answer cfg la st nonce t1 approx d :
  (examine cfg la st nonce t1 approx d <> None) <-> isAnswer nonce d = true.
Proof.
  unfold examine, isAnswer. set (b := dg_bytes d). cbn zeta.
  destruct (measured cfg b t1 _ approx) as [[offset delay] disp].
  destruct (Z.ltb_spec (Z.of_nat (length b)) kPacketSize).
  { rewrite (proj2 (Z.leb_gt _ _)) by done. cbn. split; [done|discriminate]. }
  rewrite (proj2 (Z.leb_le kPacketSize _)) by done.
  destruct (Z.land (at_ b 0) 7 =? 4); [|cbn; split; [done|discriminate]]. cbn [negb andb].
  set (v := Z.land (Z.shiftr (at_ b 0) 3) 7).
  destruct (Z.ltb_spec v 3), (Z.leb_spec 3 v); try lia; [cbn; split; [done|discriminate]|].
  destruct (Z.ltb_spec 4 v), (Z.leb_spec v 4); try lia; [cbn; split; [done|discriminate]|]. cbn [orb andb].
  destruct (read32 b 24 =? _); [|cbn; split; [done|discriminate]].
  destruct (read32 b 28 =? _); [|cbn; split; [done|discriminate]]. cbn [negb orb].
  split; [done|intros _]. destruct (at_ b 1 =? 0); [by destruct (kiss cfg st b)|].
  repeat (match goal with |- context [if ?c then _ else _] => destruct c end); done.
Qed.

Lemma examine_taken cfg la st nonce t1 approx d st' :
  examine cfg la st nonce t1 approx d = Some (None, st') ->
  let b := dg_bytes d in
  let t4 := stamped (dg_stamps d) (dg_readAt d) in
  let '(offset, delay, disp) := measured cfg b t1 t4 approx in
  isAnswer nonce d = true /\ usable cfg la b t1 t4 approx = true /\ st' = accept cfg st b t4 offset delay disp.
Proof.
  intros E. cbn zeta. assert (A : isAnswer nonce d = true) by (apply (examine_answer cfg la st nonce t1 approx); congruence).
  unfold usable. revert E. unfold examine. set (b := dg_bytes d). cbn zeta.
  destruct (measured cfg b t1 _ approx) as [[offset delay] disp].
  repeat (match goal with |- context [if ?c then None else _] => destruct c; [done|] end).
  destruct (at_ b 1 =? 0); [by destruct (kiss cfg st b)|].
  destruct (Z.land (Z.shiftr (at_ b 0) 6) 3 =? 3); [done|].
  destruct (Z.ltb_spec (pc_maxStratum cfg) (at_ b 1)); [done|].
  rewrite (proj2 (Z.leb_le _ (pc_maxStratum cfg))) by done.
  destruct ((read32 b 40 =? 0) && (read32 b 44 =? 0)); [done|].
  destruct ((1 <? at_ b 1) && existsb (Z.eqb (read32 b 12)) la); [done|].
  destruct (pc_maxRootDistanceMs cfg * 1e-3 <? rootDistanceOf b delay disp)%D; [done|].
  intros [= <-]. done.
Qed.

Definition isEvent (nonce : Z) (e : WaitEvent) : bool :=
  match e with WDatagram d => isAnswer nonce d | WPollError | WRecvError => true | _ => false end.

(** Only errors and the answer end the wait. *)
Lemma awaitReply_filter cfg la st nonce t1 approx l :
  awaitReply cfg la st nonce t1 approx l =
  awaitReply cfg la st nonce t1 approx (filter (fun e => isEvent nonce e = true) l).
Proof.
  induction l as [|e l IH]; [done|].
  destruct e as [| | | |d]; try (rewrite filter_cons_True by done; done);
    try (rewrite filter_cons_False by done; exact IH).
  cbn [awaitReply]. destruct (examine cfg la st nonce t1 approx d) as [r|] eqn:E.
  - rewrite filter_cons_True; [cbn [awaitReply]; by rewrite E|].
    apply (examine_answer cfg la st nonce t1 approx). congruence.
  - rewrite filter_cons_False; [exact IH|]. cbn [isEvent]. intros A.
    apply (examine_answer cfg la st nonce t1 approx d) in A. congruence.
Qed.

Lemma awaitReply_taken cfg la st nonce t1 approx l st' :
  awaitReply cfg la st nonce t1 approx l = (None, st') ->
  exists d, WDatagram d ∈ l /\ examine cfg la st nonce t1 approx d = Some (None, st').
Proof.
  induction l as [|e l IH]; [done|]. destruct e as [| | | |d]; cbn [awaitReply]; try done.
  - intros (d & ? & ?)%IH. exists d. split; [by right|done].
  - intros (d & ? & ?)%IH. exists d. split; [by right|done].
  - destruct (examine cfg la st nonce t1 approx d) as [r|] eqn:E.
    + intros ->. exists d. split; [by left|done].
    + intros (d' & ? & ?)%IH. exists d'. split; [by right|done].
Qed.
End ClientFacts.

(** *** What a poll keeps *)

Lemma bestOf_keeps f : forall b, exists b',
  fold_left (fun best s =>
      if negb (fs_valid s) then best
      else match best with
           | None => Some s
           | Some b => if (fs_delaySec s <? fs_delaySec b)%D then Some s else best
           end) f (Some b) = Some b'.
Proof.
  induction f as [|s f IH]; intros b; [by eexists|]. cbn.
  destruct (negb (fs_valid s)); [apply IH|]. destruct (_ <? _)%D; apply IH.
Qed.

(** A sample goes to the estimator, or is dropped as one more of a short run. *)
Lemma filterAdd_spec cfg st s :
  fs_valid s = true -> p_handedOn st < fs_seq s -> 0 <= p_spikeRun st ->
  let st' := filterAdd cfg st s in
  p_seq st' = p_seq st /\ n_reach (p_info st') = n_reach (p_info st) /\
  ((p_spikeRun st' = p_spikeRun st + 1 /\ p_spikeRun st' < kSpikeRunLimit /\ p_handedOn st' = p_handedOn st /\
    p_offsets st' = p_offsets st) \/
   (p_spikeRun st' = 0 /\ p_handedOn st' = fs_seq s /\
    p_offsets st' = add (tuningOf cfg) (p_offsets st) (fs_atSec s) (fs_offsetSec s))).
Proof.
  intros V Hs Hr. unfold filterAdd. cbn zeta.
  assert (B : exists b, bestOf (take kFilterSize (s :: p_filter st)) = Some b).
  { unfold bestOf, kFilterSize. cbn [take fold_left]. rewrite V. cbn [negb]. apply bestOf_keeps. }
  destruct B as [b ->]. cbn [withInfo p_spikeRun p_handedOn p_seq p_info p_offsets].
  destruct (_ && _) eqn:E.
  - apply andb_true_iff in E as [_ E%Z.ltb_lt]. cbn. split; [done|]. split; [done|]. left. auto.
  - rewrite (proj2 (Z.ltb_lt _ _)) by done. cbn. auto 10.
Qed.

Definition peerOk (st : Peer) : Prop := 0 <= p_handedOn st <= p_seq st /\ 0 <= p_spikeRun st < kSpikeRunLimit.

Section Keeps.
Context `{Libm} `{DaemonClock}.

Lemma easeBackoff_same cfg st :
  let st' := easeBackoff cfg st in
  p_seq st' = p_seq st /\ p_handedOn st' = p_handedOn st /\ p_spikeRun st' = p_spikeRun st /\
  p_offsets st' = p_offsets st /\ p_info st' = p_info st.
Proof. unfold easeBackoff. repeat case_match; done. Qed.

Lemma accept_spec cfg st b t4 offset delay disp :
  peerOk st ->
  let st' := accept cfg st b t4 offset delay disp in
  peerOk st' /\ p_seq st' = p_seq st + 1 /\ n_reach (p_info st') = n_reach (p_info st) /\
  ((p_spikeRun st' = p_spikeRun st + 1 /\ p_handedOn st' = p_handedOn st /\ p_offsets st' = p_offsets st) \/
   (p_spikeRun st' = 0 /\ p_handedOn st' = p_seq st + 1 /\
    p_offsets st' = add (tuningOf cfg) (p_offsets st) t4 offset)).
Proof.
  intros [[H1 H2] [H3 H4]]. unfold accept. cbn zeta.
  destruct (easeBackoff_same cfg (withTimeouts st 0)) as (E1 & E2 & E3 & E4 & E5). cbn zeta in *.
  set (st1 := easeBackoff cfg (withTimeouts st 0)) in *.
  match goal with |- context [filterAdd cfg ?s ?m] => set (p0 := s); set (m0 := m) end.
  assert (Q : p_seq p0 = p_seq st + 1 /\ p_handedOn p0 = p_handedOn st /\ p_spikeRun p0 = p_spikeRun st /\
              p_offsets p0 = p_offsets st /\ n_reach (p_info p0) = n_reach (p_info st)).
  { unfold p0. cbn. rewrite E1, E2, E3, E4, E5. done. }
  destruct Q as (Q1 & Q2 & Q3 & Q4 & Q5).
  assert (M : fs_valid m0 = true /\ fs_seq m0 = p_seq st + 1 /\ fs_atSec m0 = t4 /\ fs_offsetSec m0 = offset).
  { unfold m0. cbn. rewrite E1. done. }
  destruct M as (M1 & M2 & M3 & M4). clearbody p0 m0. clear E1 E2 E3 E4 E5.
  pose proof (filterAdd_spec cfg p0 m0 M1 ltac:(lia) ltac:(lia)) as F. cbn zeta in F.
  destruct F as (F1 & F2 & F3). rewrite Q1 in F1. rewrite Q5 in F2. rewrite Q2, Q3, Q4, M2, M3, M4 in F3.
  unfold peerOk. rewrite F1, F2. unfold kSpikeRunLimit, kMaxQuickRetries in *.
  split; [|split; [done|split; [done|tauto]]]. destruct F3 as [(-> & ? & -> & _)|(-> & -> & _)]; lia.
Qed.

(** Nothing a poll does but an accepted answer touches the filter, and nothing
    the reach register. *)
Definition sameTiming (st st' : Peer) : Prop :=
  p_seq st' = p_seq st /\ p_handedOn st' = p_handedOn st /\ n_reach (p_info st') = n_reach (p_info st) /\
  (p_spikeRun st' = p_spikeRun st \/ p_spikeRun st' = 0).
Lemma sameTiming_ok st st' : sameTiming st st' -> peerOk st -> peerOk st'.
Proof. intros (E1 & E2 & _ & E3) [O1 O2]. unfold peerOk, kSpikeRunLimit, kMaxQuickRetries in *. rewrite E1, E2. lia. Qed.
Lemma sameTiming_trans a b c : sameTiming a b -> sameTiming b c -> sameTiming a c.
Proof. intros (?&?&?&?) (?&?&?&?). unfold sameTiming. intuition congruence. Qed.

Lemma connectPeer_same st c : sameTiming st (snd (connectPeer st c)).
Proof. unfold sameTiming. destruct c; cbn; auto. destruct (p_fd st); cbn; auto. Qed.

Lemma kiss_same cfg st b : sameTiming st (snd (kiss cfg st b)).
Proof. unfold kiss, sameTiming. cbn zeta. destruct (_ && _); cbn; auto. Qed.

Lemma examine_ok cfg la st nonce t1 approx d r :
  peerOk st -> examine cfg la st nonce t1 approx d = Some r ->
  peerOk (snd r) /\ n_reach (p_info (snd r)) = n_reach (p_info st).
Proof.
  intros O E. destruct r as [[why|] st'].
  2:{ apply examine_taken in E. cbn zeta in E. destruct (measured _ _ _ _ _) as [[o dl] di].
      destruct E as (_ & _ & ->). cbn. destruct (accept_spec cfg st (dg_bytes d) (stamped (dg_stamps d) (dg_readAt d)) o dl di O)
        as (? & _ & ? & _). done. }
  revert E. unfold examine. cbn zeta. destruct (measured _ _ _ _ _) as [[o dl] di].
  pose proof (kiss_same cfg st (dg_bytes d)) as K. destruct (kiss cfg st (dg_bytes d)) as [kw kst]. cbn [snd] in K.
  repeat (match goal with |- context [if ?c then _ else _] => destruct c end); intros [= <- <-]; cbn; try done.
  split; [by eapply sameTiming_ok|apply K].
Qed.

Lemma awaitReply_ok cfg la st nonce t1 approx l :
  peerOk st ->
  let st' := snd (awaitReply cfg la st nonce t1 approx l) in
  peerOk st' /\ n_reach (p_info st') = n_reach (p_info st).
Proof.
  intros O. induction l as [|e l IH]; [done|]. destruct e as [| | | |d]; cbn [awaitReply]; try done.
  destruct (examine cfg la st nonce t1 approx d) as [r|] eqn:E; [|done]. by eapply examine_ok.
Qed.

Lemma pollOnce_ok cfg la st v :
  peerOk st ->
  let '(why, st', out) := pollOnce cfg la st v in
  peerOk st' /\ n_reach (p_info st') = n_reach (p_info st).
Proof.
  intros O. unfold pollOnce. cbn zeta.
  assert (S : let '(ok, st1) := if p_fd (withRetryable st false) then (true, withRetryable st false)
                               else connectPeer (withRetryable st false) (v_connect v) in
              peerOk st1 /\ n_reach (p_info st1) = n_reach (p_info st)).
  { destruct (p_fd _); [done|]. pose proof (connectPeer_same (withRetryable st false) (v_connect v)) as C.
    destruct (connectPeer _ _) as [ok st1]. cbn [snd] in C. split; [by eapply sameTiming_ok|apply C]. }
  destruct (if p_fd (withRetryable st false) then _ else _) as [ok st1]. destruct S as [S1 S2].
  destruct (negb ok); [done|]. destruct (negb (v_sendOk v)); [done|].
  match goal with |- context [awaitReply cfg la ?s ?n ?t ?a ?l] => pose proof (awaitReply_ok cfg la s n t a l S1) as A end.
  destruct (awaitReply _ _ _ _ _ _ _) as [why st2]. cbn in A. rewrite S2 in A. done.
Qed.

Lemma schedule_same cfg st :
  let st' := fst (schedule cfg st) in
  p_seq st' = p_seq st /\ p_handedOn st' = p_handedOn st /\ p_spikeRun st' = p_spikeRun st /\
  n_reach (p_info st') = n_reach (p_info st) /\ n_lastReject (p_info st') = n_lastReject (p_info st).
Proof.
  unfold schedule. destruct (0 <? p_burstLeft st); [done|].
  by destruct (p_retryable st && (p_backoffPollSec st <=? 0)%D && negb (n_reach (p_info st) =? 0)
            && (p_quickRetries st <? kMaxQuickRetries)).
Qed.

(** One pass: the filter's invariant, and one more bit in the register. *)
Lemma runStep_ok cfg la st v :
  peerOk st ->
  let st' := fst (fst (runStep cfg la st v)) in
  let ok := match n_lastReject (p_info st') with None => true | _ => false end in
  peerOk st' /\ n_reach (p_info st') = u8 (Z.lor (Z.shiftl (n_reach (p_info st)) 1) (Z.b2z ok)).
Proof.
  intros O. cbn zeta. unfold runStep. cbn zeta.
  set (st1 := if _ && _ then _ else _).
  assert (S : peerOk st1 /\ n_reach (p_info st1) = n_reach (p_info st)).
  { unfold st1. destruct (_ && _); [|done]. pose proof (connectPeer_same st (v_lookAgain v)) as C.
    split; [|apply C]. by apply (sameTiming_ok st). }
  destruct S as [S1 S2]. clearbody st1. pose proof (pollOnce_ok cfg la st1 v S1) as P.
  destruct (pollOnce cfg la st1 v) as [[why st2] out]. destruct P as [P1 P2]. rewrite S2 in P2.
  unfold recompute. destruct (estimate _ _) as [e o]. cbn [withInfo withPublished p_info judged tallied n_stopped n_reach].
  set (st3 := withPublished _ _ _).
  assert (Q : peerOk st3 /\ n_reach (p_info st3) =
    u8 (Z.lor (Z.shiftl (n_reach (p_info st)) 1) (Z.b2z match n_lastReject (p_info st3) with None => true | _ => false end))).
  { split; [exact P1|]. cbn. rewrite P2. by destruct why. }
  clearbody st3. destruct (n_stopped _); [exact Q|]. destruct (schedule_same cfg st3) as (E1 & E2 & E3 & E4 & E5).
  destruct (schedule cfg st3) as [st4 w]. cbn [fst] in *. unfold peerOk in *. by rewrite E1, E2, E3, E4, E5.
Qed.

Lemma reach_ok cfg la st log :
  reachPeer cfg la st log ->
  peerOk st /\ 0 <= n_reach (p_info st) < 256 /\
  forall i, (i < 8)%nat -> Z.testbit (n_reach (p_info st)) (Z.of_nat i) = nth i log false.
Proof.
  induction 1 as [|st log R (O & B & IH)|st log R (O & B & IH)|st log R (O & B & IH)|st log r u k R (O & B & IH)
                 |st log v st' R (O & B & IH) Es].
  - split; [unfold peerOk, kSpikeRunLimit, kMaxQuickRetries; cbn; lia|]. split; [done|].
    intros i _. cbn. rewrite Z.bits_0. by destruct i.
  - split; [destruct O as [O1 O2]; unfold peerOk in *; cbn; lia|]. split; [done|].
    intros i _. cbn. rewrite Z.bits_0. by destruct i.
  - done.
  - split; [destruct O as [O1 O2]; unfold peerOk in *; cbn; lia|]. done.
  - done.
  - destruct (runStep_ok cfg la st v O) as [O' E]. cbn zeta in *. rewrite Es in *. split; [done|]. rewrite E.
    split; [apply u8_range|]. intros i Hi. unfold u8. change 256 with (2 ^ 8).
    rewrite Z.mod_pow2_bits_low, Z.lor_spec, Z.shiftl_spec by lia.
    destruct i as [|i]; cbn [nth].
    + rewrite Z.testbit_neg_r by lia. cbn. destruct (n_lastReject _); done.
    + replace (Z.of_nat (S i) - 1) with (Z.of_nat i) by lia. rewrite IH by lia.
      replace (Z.testbit (Z.b2z _) (Z.of_nat (S i))) with false; [by rewrite orb_false_r|].
      symmetry. destruct (n_lastReject _); cbn [Z.b2z]; [apply Z.bits_0|]. apply (Z.bits_above_log2 1); cbn; lia.
Qed.
End Keeps.

(** ** Properties *)

(** C8: only this server's answer to this request counts. Whatever else
    arrives while a reply is awaited -- short packets, other modes and
    versions, anything that does not return the sixty-four random bits of the
    request -- the outcome is as if it had not; and a poll succeeds only with a
    datagram that does return them, whose stratum is set and within the limit,
    that is synchronised, carries a transmit time, does not name this host as
    its reference, and is within the root distance allowed. *)
Theorem only_the_answer_counts `{Libm} `{DaemonClock} (cfg : NtpSourceConfig) (localAddrs : list Z) (st : Peer)
    (v : PollEnv) :
  (forall l, filter (fun e => isEvent (v_nonce v) e = true) l = filter (fun e => isEvent (v_nonce v) e = true) (v_events v) ->
     awaitReply cfg localAddrs st (v_nonce v) (v_t1 v) (v_approx v) l =
     awaitReply cfg localAddrs st (v_nonce v) (v_t1 v) (v_approx v) (v_events v)) /\
  (forall st' out, pollOnce cfg localAddrs st v = (None, st', out) ->
     exists d, WDatagram d ∈ v_events v /\ isAnswer (v_nonce v) d = true /\
       usable cfg localAddrs (dg_bytes d) (v_t1 v) (stamped (dg_stamps d) (dg_readAt d)) (v_approx v) = true).
Proof.
  split.
  - intros l E. rewrite (awaitReply_filter cfg localAddrs st _ _ _ l), E. symmetry. apply awaitReply_filter.
  - intros st' out. unfold pollOnce. cbn zeta.
    destruct (if p_fd (withRetryable st false) then _ else _) as [ok st1].
    destruct (negb ok); [done|]. destruct (negb (v_sendOk v)); [done|].
    destruct (awaitReply _ _ _ _ _ _ _) as [why st2] eqn:E. intros [= -> _ _].
    apply awaitReply_taken in E as (d & Hd & E). apply examine_taken in E. cbn zeta in E.
    destruct (measured _ _ _ _ _) as [[offset delay] disp]. destruct E as (A & U & _). by exists d.
Qed.

(** the reach register is the last eight polls. For any peer a run
    reaches, bit [i] of the register says whether the [i]-th latest poll since
    it was last idle was answered; and it is offered to the selector as ready
    only if enabled, active, not told to stop, with an offset, and with an
    answer among its last eight polls. *)
Theorem reach_register `{Libm} `{DaemonClock} (cfg : NtpSourceConfig) (localAddrs : list Z) (st : Peer)
    (log : list bool) (primary active : bool) (reason : string) :
  reachPeer cfg localAddrs st log ->
  0 <= n_reach (p_info st) < 256 /\
  (forall i, (i < 8)%nat -> Z.testbit (n_reach (p_info st)) (Z.of_nat i) = nth i log false) /\
  (s_ready (snapshot cfg primary st active reason) = true ->
     pc_enabled cfg = true /\ active = true /\ n_stopped (p_info st) = false /\
     s_haveOffset (snapshot cfg primary st active reason) = true /\
     exists i, (i < 8)%nat /\ nth i log false = true).
Proof.
  intros R. destruct (reach_ok cfg localAddrs st log R) as (O & B & T). split; [done|]. split; [done|].
  cbn. intros Rd. zbool. repeat (split; [done|]). set (r := n_reach (p_info st)) in *.
  assert (L : 0 <= Z.log2 r < 8) by (split; [apply Z.log2_nonneg|apply Z.log2_lt_pow2; lia]).
  exists (Z.to_nat (Z.log2 r)). split; [lia|]. rewrite <- T by lia. rewrite Z2Nat.id by lia.
  apply Z.bit_log2. lia.
Qed.

(** Answers taken one after another. *)
Definition acceptAll `{Libm} (cfg : NtpSourceConfig) (st : Peer) (l : list (list Z * double * double * double * double)) : Peer :=
  fold_left (fun st '(b, t4, offset, delay, disp) => accept cfg st b t4 offset delay disp) l st.

(** C33: the clock filter neither repeats nor starves. For any peer a run
    reaches, an answer taken either reaches the estimator, once, as the newest
    handed on, or leaves the estimator alone as one of at most two slow ones in
    a row: of any three answers in a row, whatever they measure, at least one
    is handed on. *)
Theorem filter_never_starves `{Libm} `{DaemonClock} (cfg : NtpSourceConfig) (localAddrs : list Z) (st : Peer)
    (log : list bool) :
  reachPeer cfg localAddrs st log ->
  (forall b t4 offset delay disp,
     let st' := accept cfg st b t4 offset delay disp in
     p_handedOn st <= p_seq st < p_seq st' /\
     ((p_handedOn st' = p_seq st' /\ p_offsets st' = add (tuningOf cfg) (p_offsets st) t4 offset) \/
      (p_handedOn st' = p_handedOn st /\ p_offsets st' = p_offsets st))) /\
  (forall x y z, p_seq st < p_handedOn (acceptAll cfg st [x; y; z])).
Proof.
  intros R. destruct (reach_ok cfg localAddrs st log R) as (O & _). split.
  - intros b t4 o dl ds. cbn zeta. destruct (accept_spec cfg st b t4 o dl ds O) as (_ & E & _ & S).
    destruct O as [O _]. rewrite E. split; [lia|]. destruct S as [(_ & S1 & S2)|(_ & S1 & S2)]; auto.
  - intros x y z. unfold acceptAll. cbn [fold_left].
    destruct x as [[[[b1 t1] o1] d1] e1], y as [[[[b2 t2] o2] d2] e2], z as [[[[b3 t3] o3] d3] e3].
    destruct (accept_spec cfg st b1 t1 o1 d1 e1 O) as (O1 & E1 & _ & S1).
    set (s1 := accept cfg st b1 t1 o1 d1 e1) in *. clearbody s1.
    destruct (accept_spec cfg s1 b2 t2 o2 d2 e2 O1) as (O2 & E2 & _ & S2).
    set (s2 := accept cfg s1 b2 t2 o2 d2 e2) in *. clearbody s2.
    destruct (accept_spec cfg s2 b3 t3 o3 d3 e3 O2) as (O3 & E3 & _ & S3).
    set (s3 := accept cfg s2 b3 t3 o3 d3 e3) in *. clearbody s3.
    unfold peerOk, kSpikeRunLimit, kMaxQuickRetries in *. lia.
Qed.

(** *** Server and client *)

Lemma lor_add x y k : 0 <= k -> 0 <= y < 2 ^ k -> Z.lor (Z.shiftl x k) y = x * 2 ^ k + y.
Proof.
  intros K Y. assert (L : Z.land (Z.shiftl x k) y = 0).
  { apply Z.bits_inj'. intros n Hn. rewrite Z.land_spec, Z.shiftl_spec, Z.bits_0 by lia.
    destruct (Z.ltb_spec n k); [by rewrite Z.testbit_neg_r by lia|].
    replace (Z.testbit y n) with false; [apply andb_false_r|]. symmetry.
    destruct (Z.eq_dec y 0) as [->|]; [apply Z.bits_0|].
    apply Z.bits_above_log2; [lia|]. assert (Z.log2 y < k) by (apply Z.log2_lt_pow2; lia). lia. }
  rewrite <- Z.lxor_lor, <- Z.add_nocarry_lxor by done. rewrite Z.shiftl_mul_pow2 by done. done.
Qed.

Lemma read32_bytes b0 b1 b2 b3 :
  isByte b0 -> isByte b1 -> isByte b2 -> isByte b3 ->
  read32 [b0; b1; b2; b3] 0 = ((b0 * 256 + b1) * 256 + b2) * 256 + b3.
Proof.
  unfold isByte, read32, at_. cbn [nth Nat.add]. intros.
  assert (S : forall x k, 0 <= k -> Z.shiftl x k = x * 2 ^ k) by (intros; by apply Z.shiftl_mul_pow2).
  rewrite (S b1), (S b2) by lia. change (2 ^ 16) with 65536. change (2 ^ 8) with 256.
  rewrite (lor_add b0 _ 24) by lia.
  replace (b0 * 2 ^ 24 + b1 * 65536) with (Z.shiftl (b0 * 256 + b1) 16) by (rewrite S by lia; lia).
  rewrite (lor_add _ _ 16) by lia.
  replace ((b0 * 256 + b1) * 2 ^ 16 + b2 * 256) with (Z.shiftl ((b0 * 256 + b1) * 256 + b2) 8)
    by (rewrite S by lia; lia).
  rewrite lor_add by lia. lia.
Qed.

Lemma read32_put32 v : 0 <= v < 4294967296 -> read32 (put32 v) 0 = v.
Proof.
  intros R. unfold put32. rewrite read32_bytes by (unfold isByte; apply u8_range).
  unfold u8. rewrite !Z.shiftr_div_pow2 by lia. change (2 ^ 24) with 16777216. change (2 ^ 16) with 65536.
  change (2 ^ 8) with 256. dlia.
Qed.

Lemma read32_drop b i : read32 b i = read32 (take 4 (drop i b)) 0.
Proof.
  unfold read32, at_. cbn [Nat.add].
  assert (N : forall k, (k < 4)%nat -> nth (i + k) b 0 = nth k (take 4 (drop i b)) 0).
  { intros k Hk. destruct (b !! (i + k)%nat) as [x|] eqn:E.
    - rewrite (nth_lookup_Some _ _ _ _ E). symmetry. apply nth_lookup_Some.
      rewrite lookup_take_lt, lookup_drop by lia. done.
    - rewrite !nth_overflow; [done| |by apply lookup_ge_None].
      apply lookup_ge_None. destruct (take 4 (drop i b) !! k) eqn:E'; [|done].
      rewrite lookup_take_lt, lookup_drop in E' by lia. congruence. }
  rewrite <- (N 0%nat), <- (N 1%nat), <- (N 2%nat), <- (N 3%nat) by lia. by rewrite Nat.add_0_r.
Qed.

Section Exchange.
Context `{Inet} `{Libm} `{DaemonClock}.

Lemma request_length cfg st nonce : length (request cfg st nonce) = 48%nat.
Proof. done. Qed.

Lemma request_fields cfg st nonce a :
  a_bytes a = request cfg st nonce ->
  mode a = 3 /\ version a = 4 /\ clientTransmit a = (put32 (u32 (Z.shiftr nonce 32)) ++ put32 (u32 nonce))%list.
Proof. intros E. unfold mode, version, clientTransmit, reqByte. rewrite E. done. Qed.

(** A reply to the client's own request is an answer to it. *)
Lemma reply_isAnswer scfg c a sst out sst' cfg st nonce readAt stamps :
  a_bytes a = request cfg st nonce -> serveOne scfg c a sst = (Some out, sst') ->
  isAnswer nonce (MkDatagram out readAt stamps) = true /\ (out = kodReply a \/ out = timeReply scfg c a).
Proof.
  intros Eb E. destruct (request_fields cfg st nonce a Eb) as (M & V & T).
  destruct (serveOne_spec scfg c a sst) as (l & t & E'). cbn zeta in E'. rewrite E in E'. injection E' as Er _.
  assert (K : out = kodReply a \/ out = timeReply scfg c a).
  { destruct (outcomeOf scfg c a sst); cbn in Er; simplify_eq; auto. }
  split; [|exact K]. clear E Er.
  assert (G : length out = 48%nat /\ (exists leap, at_ out 0 = firstByte leap 4 /\ (leap = 0 \/ leap = 1 \/ leap = 3)) /\
              take 8 (drop 24 out) = clientTransmit a).
  { destruct K as [->| ->].
    - split; [apply kodReply_length|]. split; [|apply kodReply_originate].
      exists 3. split; [|auto]. unfold at_, kodReply. cbn [nth app]. by rewrite V.
    - split; [apply timeReply_length|]. split; [|apply timeReply_originate].
      exists (leapOf scfg c (recvTime a)). split; [|apply leapOf_cases]. unfold at_, timeReply. cbn [nth app]. by rewrite V. }
  destruct G as (L & (leap & B0 & Lp) & O). rewrite T in O.
  destruct (firstByte_fields leap 4 Lp ltac:(lia)) as (_ & _ & F2 & F3).
  unfold isAnswer. cbn [dg_bytes]. rewrite L, B0, F2, F3. cbn [Z.of_nat]. unfold kPacketSize.
  assert (R : forall z, 0 <= u32 z < 4294967296) by (intros; apply u32_range).
  assert (O1 : take 4 (drop 24 out) = put32 (u32 (Z.shiftr nonce 32))).
  { replace (take 4 (drop 24 out)) with (take 4 (take 8 (drop 24 out))) by (by rewrite take_take). by rewrite O. }
  assert (O2 : take 4 (drop 28 out) = put32 (u32 nonce)).
  { replace (take 4 (drop 28 out)) with (drop 4 (take 8 (drop 24 out)))
      by (rewrite skipn_firstn_comm, drop_drop; done). by rewrite O. }
  rewrite (read32_drop out 24), (read32_drop out 28), O1, O2, !read32_put32, !Z.eqb_refl by apply R. done.
Qed.
End Exchange.

(** C9: this client understands this server. When the server answers the
    client's own request, the client takes the datagram for its answer; a kiss
    is read as RATE, ends the burst, and starts the answers towards easing over
    again; and a time reply of a synchronised server is never refused as a kiss
    or as unsynchronised. *)
Theorem client_understands_server `{Inet} `{Libm} `{DaemonClock} (scfg : NtpConfig) (c : Combined) (a : Arrival)
    (sst sst' : Server) (out : list Z) (cfg : NtpSourceConfig) (la : list Z) (st : Peer) (nonce : Z)
    (t1 approx : double) (readAt : double) (stamps : list (Z * Z * double)) :
  a_bytes a = request cfg st nonce -> serveOne scfg c a sst = (Some out, sst') ->
  (c_synchronised c = true -> 1 <= c_stratum c <= 15) ->
  let d := MkDatagram out readAt stamps in
  isAnswer nonce d = true /\
  (out = kodReply a ->
     exists st', examine cfg la st nonce t1 approx d = Some (Some (RKiss "RATE"), st') /\
       p_burstLeft st' = 0 /\ p_goodRun st' = 0 /\ n_kissCode (p_info st') = "RATE" /\
       p_backoffPollSec st' = dmin kMaxBackoffPollSec
         (dmax (currentPoll cfg st * 2) (std_pow 2 (d_of_Z (clientPoll a))))%D) /\
  (out = timeReply scfg c a -> c_synchronised c = true ->
     match examine cfg la st nonce t1 approx d with
     | Some (Some (RKiss _), _) | Some (Some RUnsynchronised, _) | None => False
     | Some (None, st') => n_stratum (p_info st') = c_stratum c
     | Some (Some _, _) => True
     end).
Proof.
  intros Eb E Str d. destruct (reply_isAnswer scfg c a sst out sst' cfg st nonce readAt stamps Eb E) as [A K].
  fold d in A. split; [exact A|]. pose proof (proj2 (examine_answer cfg la st nonce t1 approx d) A) as X.
  destruct (request_fields cfg st nonce a Eb) as (_ & V & _). pose proof (clientPoll_range a) as Pr. split.
  - intros Ek. revert X. unfold examine. cbn zeta. destruct (measured _ _ _ _ _) as [[o dl] di].
    repeat (match goal with |- context [if ?c then None else _] => destruct c; [done|] end). intros _.
    unfold d. cbn [dg_bytes]. rewrite Ek. change (at_ (kodReply a) 1) with 0. cbn [Z.eqb].
    unfold kiss. change (kissText (kodReply a) 12) with "RATE". cbn zeta.
    change (String.eqb "RATE" "DENY" || String.eqb "RATE" "RSTR") with false.
    change (negb false && String.eqb "RATE" "RATE") with true. cbv iota.
    change (at_ (kodReply a) 2) with (clientPoll a).
    eexists. split; [reflexivity|]. cbn. unfold currentPoll. cbn.
    assert (zclamp (clientPoll a) 4 17 = clientPoll a) as -> by (unfold zclamp; zcases). done.
  - intros Et Sy. specialize (Str Sy). revert X. destruct (examine cfg la st nonce t1 approx d) as [[why st']|] eqn:Ex; [|done].
    intros _. assert (S1 : at_ out 1 = c_stratum c).
    { rewrite Et. change (at_ (timeReply scfg c a) 1) with (u8 (stratumOf c)). unfold stratumOf. rewrite Sy. cbn [negb].
      rewrite (proj2 (Z.ltb_lt 0 _)), u8_small by lia. done. }
    assert (L0 : Z.land (Z.shiftr (at_ out 0) 6) 3 <> 3).
    { rewrite Et. change (at_ (timeReply scfg c a) 0) with (firstByte (leapOf scfg c (recvTime a)) (version a)).
      destruct (firstByte_fields (leapOf scfg c (recvTime a)) (version a) (leapOf_cases _ _ _) ltac:(lia)) as (_ & -> & _).
      unfold leapOf. rewrite Sy. cbn [negb]. by case_match. }
    destruct why as [why|].
    + revert Ex. unfold examine. cbn zeta. destruct (measured _ _ _ _ _) as [[o dl] di]. unfold d. cbn [dg_bytes].
      repeat (match goal with |- context [if ?c then None else _] => destruct c; [done|] end).
      rewrite S1. rewrite (proj2 (Z.eqb_neq (c_stratum c) 0)) by lia. rewrite (proj2 (Z.eqb_neq _ 3)) by exact L0.
      repeat (match goal with |- context [if ?c then _ else _] => destruct c end); by intros [= <- <-].
    + apply examine_taken in Ex. cbn zeta in Ex. destruct (measured _ _ _ _ _) as [[o dl] di].
      destruct Ex as (_ & _ & ->). unfold accept. cbn zeta. unfold d. cbn [dg_bytes]. rewrite <- S1.
      unfold filterAdd. repeat case_match; done.
Qed.

(** ** What the code does otherwise than it says *)

(** A peer told to stop (DENY, RSTR) is polled again at its next pass: nothing
    between the wait and the poll looks at [n_stopped]. *)
Theorem stopped_peer_is_polled `{Libm} `{DaemonClock} (cfg : NtpSourceConfig) (la : list Z) (st : Peer) (v : PollEnv) :
  p_fd st = true -> v_sendOk v = true -> snd (runStep cfg la st v) <> None.
Proof.
  intros F S. unfold runStep. cbn zeta.
  set (st1 := if _ && _ then _ else _).
  assert (F1 : p_fd st1 = true).
  { unfold st1. destruct (_ && _); [|done]. unfold connectPeer. destruct (v_lookAgain v); cbn; try done. by rewrite F. }
  clearbody st1. unfold pollOnce. cbn zeta. cbn [withRetryable p_fd]. rewrite F1, S. cbn [negb].
  destruct (awaitReply _ _ _ _ _ _ _) as [why st2]. destruct (recompute _ _ _).
  destruct (n_stopped _); [done|]. by destruct (schedule _ _).
Qed.

(** A server that asks for a slower poll makes a peer configured to poll every
    4096 seconds poll every 1024. *)
Theorem rate_kiss_speeds_up_slow_peer `{Libm} (cfg : NtpSourceConfig) (st : Peer) (b : list Z) :
  pc_pollSeconds cfg = 4096%D -> p_backoffPollSec st = 0%D -> kissText b 12 = "RATE" ->
  currentPoll cfg st = 4096%D /\ currentPoll cfg (snd (kiss cfg st b)) = 1024%D.
Proof.
  intros P B K. assert (C : currentPoll cfg st = 4096%D) by (unfold currentPoll; rewrite B, P; reflexivity).
  split; [exact C|]. unfold kiss. cbn zeta. rewrite K.
  change (String.eqb "RATE" "DENY" || String.eqb "RATE" "RSTR") with false.
  change (negb false && String.eqb "RATE" "RATE") with true. cbv iota. cbn [snd].
  assert (D : forall x, dmin kMaxBackoffPollSec (dmax (4096 * 2)%D x) = 1024%D).
  { intros x. unfold dmax, dmin. destruct (4096 * 2 <? x)%D eqn:E.
    - assert (G : (x <? kMaxBackoffPollSec)%D = false).
      { revert E. rewrite !dltb_key. destruct (dkey x) as [k|]; [|by destruct (dkey (4096 * 2)%D)].
        destruct (dkey (4096 * 2)%D) as [k1|] eqn:E1; [|done]. destruct (dkey kMaxBackoffPollSec) as [k2|] eqn:E2; [|done].
        vm_compute in E1, E2. injection E1 as <-. injection E2 as <-. intros. zbool. apply Z.ltb_ge. lia. }
      rewrite G. reflexivity.
    - reflexivity. }
  unfold currentPoll in *. cbn [withInfo withPolling p_backoffPollSec].
  rewrite B in *. change (0 <? 0)%D with false in *. cbv iota in *. rewrite P, D. reflexivity.
Qed.

(** *** Witnesses: the exchange of a request and its reply *)

Definition demoNonce : Z := 1234605616436508552.
Definition demoPeerConfig : NtpSourceConfig := MkPeerConfig "up" "192.0.2.1" true 64 true 1 500 15 0.
Definition demoConnected : Peer := snd (connectPeer (newPeer demoPeerConfig) (CMoved "192.0.2.1" 3221225985)).
Definition demoRequest : Arrival :=
  MkArrival (SaInet [10;0;0;1]) (@request demoClock demoPeerConfig demoConnected demoNonce) 10 [] 10 10 10 10 10 0.5 10 true.
Definition demoReply : list Z := @timeReply demoClock demoServerConfig demoTime demoRequest.
Definition demoEnv : PollEnv :=
  MkEnv false CKept CKept demoNonce 10 true 1789000010
    [WDatagram (MkDatagram (repeat 36 48) 10.001 []); WInterrupted; WDatagram (MkDatagram demoReply 10.002 [])] 10.002.

Lemma only_the_answer_counts_witness :
  exists d, WDatagram d ∈ v_events demoEnv /\ isAnswer demoNonce d = true /\
    @usable demoLibm demoClock demoPeerConfig [] (dg_bytes d) 10 (stamped (dg_stamps d) (dg_readAt d)) 1789000010 = true.
Proof.
  destruct (@pollOnce demoLibm demoClock demoPeerConfig [] demoConnected demoEnv) as [[why st'] out] eqn:E.
  assert (W : fst (fst (@pollOnce demoLibm demoClock demoPeerConfig [] demoConnected demoEnv)) = None)
    by (vm_compute; reflexivity).
  rewrite E in W. cbn [fst] in W. subst why.
  exact (proj2 (@only_the_answer_counts demoLibm demoClock demoPeerConfig [] demoConnected demoEnv) st' out E).
Defined.

Definition demoFirst : PollEnv :=
  MkEnv false CKept (CMoved "192.0.2.1" 3221225985) demoNonce 10 true 1789000010 (v_events demoEnv) 10.002.
Definition afterFirst `{Libm} `{DaemonClock} (cfg : NtpSourceConfig) (v : PollEnv) : Peer :=
  fst (fst (runStep cfg [] (newPeer cfg) v)).
Lemma afterFirst_reach `{Libm} `{DaemonClock} cfg v : exists b, reachPeer cfg [] (afterFirst cfg v) [b].
Proof.
  exists (match n_lastReject (p_info (afterFirst cfg v)) with None => true | _ => false end).
  exact (reach_poll cfg [] (newPeer cfg) [] v (afterFirst cfg v) (reach_new cfg []) eq_refl).
Qed.
Definition demoAfter : Peer := @afterFirst demoLibm demoClock demoPeerConfig demoFirst.

Lemma reach_register_witness : exists log, Z.testbit (n_reach (p_info demoAfter)) 0 = nth 0 log false.
Proof.
  destruct (@afterFirst_reach demoLibm demoClock demoPeerConfig demoFirst) as [b R]. exists [b].
  exact (proj1 (proj2 (@reach_register demoLibm demoClock demoPeerConfig [] demoAfter [b] false true "" R)) 0%nat ltac:(lia)).
Defined.

Lemma filter_never_starves_witness :
  let slow := ([], 20, 0, 1, 1e-6)%D in
  p_seq demoAfter < p_handedOn (@acceptAll demoLibm demoPeerConfig demoAfter [slow; slow; slow]).
Proof.
  destruct (@afterFirst_reach demoLibm demoClock demoPeerConfig demoFirst) as [b R].
  exact (proj2 (@filter_never_starves demoLibm demoClock demoPeerConfig [] demoAfter [b] R) _ _ _).
Defined.

Lemma client_understands_server_witness :
  isAnswer demoNonce (MkDatagram demoReply 10.002 []) = true.
Proof.
  destruct (@serveOne IpPrefix.demoInet demoClock demoServerConfig demoTime demoRequest newServer) as [o sst'] eqn:E.
  assert (O : o = Some demoReply).
  { replace o with (fst (@serveOne IpPrefix.demoInet demoClock demoServerConfig demoTime demoRequest newServer))
      by (rewrite E; reflexivity). vm_compute. reflexivity. }
  subst o.
  refine (proj1 (@client_understands_server IpPrefix.demoInet demoLibm demoClock demoServerConfig demoTime demoRequest
    newServer sst' demoReply demoPeerConfig [] demoConnected demoNonce 10 1789000010 10.002 [] eq_refl E _)).
  intros _. cbn. lia.
Defined.
