(* ===== verification/TimeCode.v ===== *)
(** * What the station decoders share (src/clock/*Decoder.cpp)
    The decoders of MSF, DCF77, Allouis and WWVB hand the voter a UTC frame in
    WWVB's layout, encoded from the minute they read. This file has that frame,
    what it transmits, and the voter's window over successive minutes. *)

From Stdlib Require Import ZArith Lia List Bool Floats.
From stdpp Require Import base list.
From S2P Require Import Prelude Doubles Rounding ClockTypes CivilTime TimeFrameVoter.

#[local] Open Scope Z_scope.

Definition kVoterMarkers : list Z := [0; 9; 19; 29; 39; 49; 59].

(** A UTC frame in WWVB's layout, every bit at confidence [c]: greedy over the
    weights in the order of the map. *)
Definition putBits (m : ClockFieldMap) (v : Z) (c : double) (sc : list ClockSymbol * list double) :
    list ClockSymbol * list double :=
  snd (fold_left
    (fun '(v, (syms, confs)) bw =>
       let one := bw_weight bw <=? v in
       (if one then v - bw_weight bw else v,
        (<[Z.to_nat (bw_second bw) := if one then SymOne else SymZero]> syms,
         <[Z.to_nat (bw_second bw) := c]> confs)))
    m (v, sc)).

Definition blankSymbols : list ClockSymbol :=
  fold_left (fun l m => <[Z.to_nat m := SymMarker]> l) kVoterMarkers (replicate 60 SymUnknown).

(** The frame handed to the voter: empty, or a minute with a confidence for each
    field. *)
Definition utcFrame (utc : option (TimeFields * (FieldIndex -> double))) : Frame :=
  let blank := (blankSymbols, replicate 60 0%D) in
  let '(syms, confs) :=
    match utc with
    | None => blank
    | Some (t, c) =>
        let put fld sc := putBits (wwvbFields fld) (fieldOf t fld) (c fld) sc in
        put FieldYear (put FieldDoy (put FieldHours (put FieldMinutes blank)))
    end in
  MkFrame syms confs.

(** ** The local minute DCF77 and ALS162 send
    Seconds 21 to 58 carry the minute that begins at the next minute mark, in
    local time: minute, hour and date in decimal digits, least significant bit
    first, each of the three groups followed by its parity. *)

Definition bcd (v : Z) : Z := Z.lor (Z.shiftl (cdiv v 10) 4) (cmod v 10).
(** Bits of [v], least significant first. *)
Definition lsb (n : nat) (v : Z) : list Z := map (fun i => Z.land (Z.shiftr v (Z.of_nat i)) 1) (seq 0 n).
Definition xors (l : list Z) : Z := fold_left Z.lxor l 0.
(** Bits [a] to [a + n - 1] of a minute, and the parity of [a] to [z]. *)
Definition bitsFrom (at_ : Z -> Z) (a : Z) (n : nat) : list Z := map (fun i => at_ (a + Z.of_nat i)) (seq 0 n).
Definition parityOf (at_ : Z -> Z) (a z : Z) : Z := xors (bitsFrom at_ a (Z.to_nat (z - a + 1))).

(** The minute and its date, whose day number is [lc_days]. *)
Record LocalCode := MkLocal {
  lc_minute : Z; lc_hour : Z; lc_day : Z; lc_month : Z; lc_year2 : Z; lc_days : Z
}.
Definition localCode (at_ : Z -> Z) : option LocalCode :=
  let four a := at_ a + 2 * at_ (a + 1) + 4 * at_ (a + 2) + 8 * at_ (a + 3) in
  let minU := four 21 in
  let minT := at_ 25 + 2 * at_ 26 + 4 * at_ 27 in
  let hrU := four 29 in
  let hrT := at_ 33 + 2 * at_ 34 in
  let dayU := four 36 in
  let dayT := at_ 40 + 2 * at_ 41 in
  let wday := at_ 42 + 2 * at_ 43 + 4 * at_ 44 in
  let monU := four 45 in
  let monT := at_ 49 in
  let yrU := four 50 in
  let yrT := four 54 in
  if (9 <? minU) || (9 <? hrU) || (9 <? dayU) || (9 <? monU) || (9 <? yrU) || (9 <? yrT) then None
  else
    let minute := minT * 10 + minU in
    let hour := hrT * 10 + hrU in
    let day := dayT * 10 + dayU in
    let month := monT * 10 + monU in
    let year2 := yrT * 10 + yrU in
    if (59 <? minute) || (23 <? hour) || (month <? 1) || (12 <? month) || (day <? 1) || (wday <? 1) then None
    else
      let days := daysFromCivil (2000 + year2) month day in
      let '(_, cm, cd) := civilFromDays days in
      if negb (cm =? month) || negb (cd =? day) then None
      else if negb (floorMod (days + 3) 7 + 1 =? wday) then None
      else Some (MkLocal minute hour day month year2 days).
(** UTC of the second 0 of the minute that sent it. *)
Definition codeUtcMs (c : LocalCode) (summer : bool) : Z :=
  (lc_days c * 1440 + lc_hour c * 60 + lc_minute c - (if summer then 120 else 60) - 1) * 60000.

(** ** Lemmas *)

Lemma range_check (f : Z -> bool) hi v :
  forallb (fun i => f (Z.of_nat i)) (seq 0 (S hi)) = true -> 0 <= v <= Z.of_nat hi -> f v = true.
Proof.
  rewrite forallb_forall. intros F Hv. specialize (F (Z.to_nat v) ltac:(apply in_seq; lia)).
  by rewrite Z2Nat.id in F by lia.
Qed.

Lemma fold_dmin_nan l : forall x, dnan x = false -> Forall (fun x => dnan x = false) l ->
  dnan (fold_left dmin l x) = false.
Proof.
  induction l as [|y l IH]; intros x Hx F; [done|]. cbn. apply Forall_cons in F as [F1 F].
  apply IH; [by apply dnan_dmin|done].
Qed.

(** *** The frame made for the voter *)

Fixpoint greedyBits (m : ClockFieldMap) (v : Z) : list ClockSymbol :=
  match m with
  | [] => []
  | bw :: m => (if bw_weight bw <=? v then SymOne else SymZero) ::
               greedyBits m (if bw_weight bw <=? v then v - bw_weight bw else v)
  end.

Definition secsOf (m : ClockFieldMap) : list nat := map (fun bw => Z.to_nat (bw_second bw)) m.

Lemma putBits_cons bw m v c syms confs :
  putBits (bw :: m) v c (syms, confs) =
  putBits m (if bw_weight bw <=? v then v - bw_weight bw else v) c
    (<[Z.to_nat (bw_second bw) := if bw_weight bw <=? v then SymOne else SymZero]> syms,
     <[Z.to_nat (bw_second bw) := c]> confs).
Proof. reflexivity. Qed.

Lemma nth_insert_eq {A} (l : list A) i x d : (i < length l)%nat -> nth i (<[i := x]> l) d = x.
Proof. intros. apply nth_lookup_Some with (d := d). by apply list_lookup_insert_eq. Qed.
Lemma nth_insert_ne {A} (l : list A) i j x d : i <> j -> nth j (<[i := x]> l) d = nth j l d.
Proof. intros. rewrite !nth_lookup. by rewrite list_lookup_insert_ne. Qed.

Lemma putBits_spec m : forall v c syms confs,
  NoDup (secsOf m) -> Forall (fun i => (i < 60)%nat) (secsOf m) -> length syms = 60%nat ->
  let r := putBits m v c (syms, confs) in
  length (fst r) = 60%nat /\
  map (fun i => nth i (fst r) SymUnknown) (secsOf m) = greedyBits m v /\
  (forall i, ~ In i (secsOf m) -> nth i (fst r) SymUnknown = nth i syms SymUnknown).
Proof.
  induction m as [|bw m IH]; intros v c syms confs N F L; [done|]. cbn zeta. rewrite putBits_cons.
  cbn [secsOf map] in N, F. apply NoDup_cons in N as [Nin N]. apply Forall_cons in F as [F1 F].
  set (w := if bw_weight bw <=? v then v - bw_weight bw else v).
  set (b := if bw_weight bw <=? v then SymOne else SymZero).
  destruct (IH w c (<[Z.to_nat (bw_second bw) := b]> syms) (<[Z.to_nat (bw_second bw) := c]> confs) N F) as (L' & M & O).
  { by rewrite length_insert. }
  split; [done|]. split.
  - cbn [secsOf map greedyBits]. fold b w. f_equal; [|exact M].
    rewrite O by (by rewrite <- list_elem_of_In). apply nth_insert_eq. by rewrite L.
  - intros i Hi. cbn [secsOf map In] in Hi. rewrite O by tauto. apply nth_insert_ne. tauto.
Qed.

Lemma putBits_confs (P : double -> Prop) m : forall v c syms confs,
  P c -> Forall P confs -> Forall P (snd (putBits m v c (syms, confs))).
Proof.
  induction m as [|bw m IH]; intros v c syms confs Pc Pf; [done|]. rewrite putBits_cons.
  apply IH; [done|]. by apply Forall_insert.
Qed.

Definition greedyOk (fld : FieldIndex) (v : Z) : bool :=
  bool_decide (greedyBits (wwvbFields fld) v = encodeField (wwvbFields fld) v).
Lemma greedy_encodes fld v : 0 <= v <= Z.of_nat (fieldMax fld) ->
  greedyBits (wwvbFields fld) v = encodeField (wwvbFields fld) v.
Proof.
  intros Hv. apply (bool_decide_unpack _). change (Is_true (greedyOk fld v)). apply Is_true_true.
  revert Hv. apply range_check. destruct fld; vm_compute; reflexivity.
Qed.

Definition fieldSecs (fld : FieldIndex) : list nat := secsOf (wwvbFields fld).

Lemma fieldSecs_ok fld : NoDup (fieldSecs fld) /\ Forall (fun i => (i < 60)%nat) (fieldSecs fld).
Proof. split; [apply (bool_decide_unpack _)|apply (bool_decide_unpack _)]; destruct fld; vm_compute; exact I. Qed.
Lemma fieldSecs_disjoint fld fld' i : fld <> fld' -> In i (fieldSecs fld) -> ~ In i (fieldSecs fld').
Proof.
  intros N Hi Hj. destruct fld, fld'; try done; cbn in Hi, Hj;
    repeat (destruct Hi as [<-|Hi]; [lia|]); done.
Qed.

Lemma put_other fld fld' v c sc :
  fld <> fld' -> length (fst sc) = 60%nat ->
  map (fun i => nth i (fst (putBits (wwvbFields fld') v c sc)) SymUnknown) (fieldSecs fld) =
  map (fun i => nth i (fst sc) SymUnknown) (fieldSecs fld).
Proof.
  intros N L. destruct sc as [syms confs]. apply map_ext_in. intros i Hi.
  destruct (fieldSecs_ok fld') as [Nd F].
  destruct (putBits_spec (wwvbFields fld') v c syms confs Nd F L) as (_ & _ & O).
  apply O. by apply (fieldSecs_disjoint fld).
Qed.
Lemma put_length fld v c sc : length (fst sc) = 60%nat -> length (fst (putBits (wwvbFields fld) v c sc)) = 60%nat.
Proof.
  intros L. destruct sc as [syms confs]. destruct (fieldSecs_ok fld) as [Nd F].
  by destruct (putBits_spec (wwvbFields fld) v c syms confs Nd F L).
Qed.
Lemma put_own fld v c sc :
  length (fst sc) = 60%nat -> 0 <= v <= Z.of_nat (fieldMax fld) ->
  map (fun i => nth i (fst (putBits (wwvbFields fld) v c sc)) SymUnknown) (fieldSecs fld) =
  encodeField (wwvbFields fld) v.
Proof.
  intros L Hv. destruct sc as [syms confs]. destruct (fieldSecs_ok fld) as [Nd F].
  destruct (putBits_spec (wwvbFields fld) v c syms confs Nd F L) as (_ & M & _).
  etransitivity; [exact M|]. by apply greedy_encodes.
Qed.

Lemma utcFrame_transmits cfg t c :
  fields cfg = wwvbFields -> rangeValid t = true -> transmits cfg (utcFrame (Some (t, c))) t.
Proof.
  intros C V fld. rewrite C. pose proof (rangeValid_field _ fld V) as R.
  transitivity (map (fun i => nth i (f_symbols (utcFrame (Some (t, c)))) SymUnknown) (fieldSecs fld)).
  { unfold fieldSecs, secsOf. by rewrite map_map. }
  unfold utcFrame. set (sc := (blankSymbols, replicate 60 0%D)).
  assert (L0 : length (fst sc) = 60%nat) by reflexivity. clearbody sc.
  destruct (putBits (wwvbFields FieldYear) _ _ _) as [syms confs] eqn:E. cbn [f_symbols].
  change syms with (fst (syms, confs)). rewrite <- E.
  destruct fld; rewrite ?put_other by (try done; repeat apply put_length; done);
    apply put_own; try done; repeat apply put_length; done.
Qed.

Lemma utcFrame_ok utc :
  (forall t c, utc = Some (t, c) -> forall fld, dnan (c fld) = false) -> frameOk (utcFrame utc).
Proof.
  intros N. unfold frameOk, utcFrame. destruct utc as [[t c]|]; [|by apply Forall_replicate].
  specialize (N t c eq_refl). destruct (putBits (wwvbFields FieldYear) _ _ _) as [syms confs] eqn:E. cbn [f_confidence].
  change confs with (snd (syms, confs)). rewrite <- E.
  repeat match goal with |- context [putBits ?m ?v (c ?f) ?sc] =>
    lazymatch sc with
    | (_, _) => fail
    | _ => rewrite (surjective_pairing sc)
    end end.
  repeat (apply putBits_confs; [done|]). by apply Forall_replicate.
Qed.

(** *** The local minute *)

Lemma length_lsb n v : length (lsb n v) = n.
Proof. unfold lsb. by rewrite length_map, length_seq. Qed.
Lemma xors_app l : xors (l ++ [xors l]) = 0.
Proof. unfold xors. rewrite fold_left_app. cbn. apply Z.lxor_nilpotent. Qed.

(** A field's units and tens, checked over its whole range. *)
Definition unitsOf (l : list Z) : Z := nth 0 l 0 + 2 * nth 1 l 0 + 4 * nth 2 l 0 + 8 * nth 3 l 0.
Definition tensOf (l : list Z) : Z := nth 4 l 0 + 2 * nth 5 l 0 + 4 * nth 6 l 0 + 8 * nth 7 l 0.
Definition lsbOk (n : nat) (v : Z) : bool :=
  let l := lsb n (bcd v) in (unitsOf l <=? 9) && (tensOf l <=? 9) && (tensOf l * 10 + unitsOf l =? v).
Lemma lsbOk_range n hi v :
  forallb (fun i => lsbOk n (Z.of_nat i)) (seq 0 (S hi)) = true -> 0 <= v <= Z.of_nat hi ->
  let l := lsb n (bcd v) in unitsOf l <= 9 /\ tensOf l <= 9 /\ tensOf l * 10 + unitsOf l = v.
Proof.
  intros F V. pose proof (range_check (lsbOk n) hi v F V) as O. unfold lsbOk in O. zbool. auto.
Qed.
Definition wdayOk (v : Z) : bool := let l := lsb 3 v in nth 0 l 0 + 2 * nth 1 l 0 + 4 * nth 2 l 0 =? v.
Lemma wday_range v : 0 <= v <= 7 -> let l := lsb 3 v in nth 0 l 0 + 2 * nth 1 l 0 + 4 * nth 2 l 0 = v.
Proof. intros V. apply Z.eqb_eq. apply (range_check wdayOk 7); [reflexivity|exact V]. Qed.

Lemma localCode_groups (at_ : Z -> Z) (pm ph : Z) (mi ho dd wd mo yr : list Z) :
  length mi = 7%nat -> length ho = 6%nat -> length dd = 6%nat -> length wd = 3%nat ->
  length mo = 5%nat -> length yr = 8%nat ->
  bitsFrom at_ 21 37 = (mi ++ [pm] ++ ho ++ [ph] ++ dd ++ wd ++ mo ++ yr)%list ->
  let minute := tensOf mi * 10 + unitsOf mi in
  let hour := tensOf ho * 10 + unitsOf ho in
  let day := tensOf dd * 10 + unitsOf dd in
  let wday := nth 0 wd 0 + 2 * nth 1 wd 0 + 4 * nth 2 wd 0 in
  let month := tensOf mo * 10 + unitsOf mo in
  let year2 := tensOf yr * 10 + unitsOf yr in
  let days := daysFromCivil (2000 + year2) month day in
  unitsOf mi <= 9 -> unitsOf ho <= 9 -> unitsOf dd <= 9 -> unitsOf mo <= 9 -> unitsOf yr <= 9 -> tensOf yr <= 9 ->
  minute <= 59 -> hour <= 23 -> validDate (2000 + year2) month day -> 0 <= year2 <= 99 ->
  wday = floorMod (days + 3) 7 + 1 ->
  localCode at_ = Some (MkLocal minute hour day month year2 days).
Proof.
  intros Lm Lh Ld Lw Lo Ly B.
  destruct mi as [|m0 [|m1 [|m2 [|m3 [|m4 [|m5 [|m6 [|? ?]]]]]]]]; try discriminate.
  destruct ho as [|h0 [|h1 [|h2 [|h3 [|h4 [|h5 [|? ?]]]]]]]; try discriminate.
  destruct dd as [|d0 [|d1 [|d2 [|d3 [|d4 [|d5 [|? ?]]]]]]]; try discriminate.
  destruct wd as [|w0 [|w1 [|w2 [|? ?]]]]; try discriminate.
  destruct mo as [|o0 [|o1 [|o2 [|o3 [|o4 [|? ?]]]]]]; try discriminate.
  destruct yr as [|y0 [|y1 [|y2 [|y3 [|y4 [|y5 [|y6 [|y7 [|? ?]]]]]]]]]; try discriminate.
  clear Lm Lh Ld Lw Lo Ly. cbv [bitsFrom seq map app] in B.
  repeat match type of B with context [21 + Z.of_nat ?k] =>
    let v := eval vm_compute in (21 + Z.of_nat k) in change (21 + Z.of_nat k) with v in B end.
  injection B. clear B. cbv zeta. intros. subst.
  unfold unitsOf, tensOf in *. cbn [nth] in *. rewrite ?Z.mul_0_r, ?Z.add_0_r in *.
  unfold localCode. cbv zeta.
  repeat match goal with |- context [at_ (?a + ?b)] =>
    let v := eval vm_compute in (a + b) in change (a + b) with v end.
  set (mu := at_ 21 + _ + _ + _) in *. set (mt := at_ 25 + _ + _) in *. set (hu := at_ 29 + _ + _ + _) in *.
  set (ht := at_ 33 + _) in *. set (du := at_ 36 + _ + _ + _) in *. set (dt := at_ 40 + _) in *.
  set (w := at_ 42 + _ + _) in *. set (ou := at_ 45 + _ + _ + _) in *.
  set (yu := at_ 50 + _ + _ + _) in *. set (yt := at_ 54 + _ + _ + _) in *.
  match goal with V : validDate _ _ _ |- _ => pose proof (validDate_day _ _ _ V) as [Vm Vd] end.
  match goal with W : w = _ |- _ => assert (W0 : 1 <= w) by (rewrite W; rewrite floorMod_mod by lia; dlia) end.
  clearbody mu mt hu ht du dt w ou yu yt.
  repeat match goal with
  | |- context [if ?a <? ?b then None else _] => destruct (Z.ltb_spec a b); [lia|]
  | |- context [(?a <? ?b) || _] => destruct (Z.ltb_spec a b); [lia|]; cbn [orb]
  end.
  rewrite civil_of_days by (done || (unfold yearRange; lia)).
  match goal with W : w = _ |- _ => rewrite !Z.eqb_refl, <- W, Z.eqb_refl end. reflexivity.
Qed.

(** The groups of a local date and time. *)
Definition groupsOf (y mo d days rem : Z) : list Z * list Z * list Z :=
  (lsb 7 (bcd (rem / 60 mod 60)), lsb 6 (bcd (rem / 3600)),
   (lsb 6 (bcd d) ++ lsb 3 (floorMod (days + 3) 7 + 1) ++ lsb 5 (bcd mo) ++ lsb 8 (bcd (cmod y 100)))%list).
Lemma groupsOf_length y mo d days rem mi ho da : groupsOf y mo d days rem = (mi, ho, da) ->
  length mi = 7%nat /\ length ho = 6%nat /\ length da = 22%nat.
Proof.
  unfold groupsOf. intros G. apply pair_equal_spec in G as [G <-]. apply pair_equal_spec in G as [<- <-].
  by rewrite !length_app, !length_lsb.
Qed.

(** A local date and time sent is read. *)
Lemma localCode_date (at_ : Z -> Z) (pm ph : Z) y mo d rem mi ho da :
  2000 <= y <= 2099 -> validDate y mo d -> 0 <= rem < 86400 ->
  let days := daysFromCivil y mo d in
  groupsOf y mo d days rem = (mi, ho, da) ->
  bitsFrom at_ 21 37 = (mi ++ [pm] ++ ho ++ [ph] ++ da)%list ->
  localCode at_ = Some (MkLocal (rem / 60 mod 60) (rem / 3600) d mo (y mod 100) days).
Proof.
  intros Y Vd Hr days G B. pose proof (validDate_day _ _ _ Vd) as [Hmo Hd].
  unfold groupsOf, cmod in G. rewrite Z.rem_mod_nonneg in G by lia.
  pose proof (lsbOk_range 7 59 (rem / 60 mod 60) eq_refl ltac:(dlia)) as (Um & Tm & Fm).
  pose proof (lsbOk_range 6 23 (rem / 3600) eq_refl ltac:(dlia)) as (Uh & Th & Fh).
  pose proof (lsbOk_range 6 31 d eq_refl ltac:(dlia)) as (Ud & Td & Fd).
  pose proof (lsbOk_range 5 12 mo eq_refl ltac:(dlia)) as (Uo & To & Fo).
  pose proof (lsbOk_range 8 99 (y mod 100) eq_refl ltac:(dlia)) as (Uy & Ty & Fy).
  assert (W : 0 <= floorMod (days + 3) 7 + 1 <= 7) by (rewrite floorMod_mod by lia; dlia).
  apply wday_range in W. pose proof (length_lsb 7 (bcd (rem / 60 mod 60))) as L1.
  pose proof (length_lsb 6 (bcd (rem / 3600))) as L2. pose proof (length_lsb 6 (bcd d)) as L3.
  pose proof (length_lsb 3 (floorMod (days + 3) 7 + 1)) as L4. pose proof (length_lsb 5 (bcd mo)) as L5.
  pose proof (length_lsb 8 (bcd (y mod 100))) as L6. cbv zeta in *.
  set (gmi := lsb 7 _) in *. set (gho := lsb 6 (bcd (rem / 3600))) in *. set (gdd := lsb 6 (bcd d)) in *.
  set (gwd := lsb 3 _) in *. set (gmo := lsb 5 _) in *. set (gyr := lsb 8 _) in *.
  clearbody gmi gho gdd gwd gmo gyr. apply pair_equal_spec in G as [G <-]. apply pair_equal_spec in G as [<- <-].
  pose proof (localCode_groups at_ pm ph _ _ _ _ _ _ L1 L2 L3 L4 L5 L6 B) as DB.
  cbv zeta in DB. rewrite Fm, Fh, Fd, Fo, Fy, W in DB.
  replace (2000 + y mod 100) with y in DB by dlia. fold days in DB.
  exact (DB Um Uh Ud Uo Uy Ty ltac:(dlia) ltac:(dlia) Vd ltac:(dlia) eq_refl).
Qed.

(** The instant a timestamp names, and the local time announced by the minute
    that starts at UTC [ms], in seconds. *)
Definition msOf (t : TimeFields) : Z := utcMsFromFields (tf_year2 t) (tf_doy t) (tf_hour t) (tf_minute t).
Definition announced (ms : Z) (summer : bool) : Z := ms / 1000 + 60 + (if summer then 7200 else 3600).
Definition announcedDate (ms : Z) (summer : bool) : Z * Z * Z := civilFromDays (announced ms summer / 86400).
Definition announcedGroups (ms : Z) (summer : bool) : list Z * list Z * list Z :=
  let '(y, mo, d) := announcedDate ms summer in
  groupsOf y mo d (announced ms summer / 86400) (announced ms summer mod 86400).

Lemma msOf_minute t summer : rangeValid t = true ->
  msOf t = msOf t / 60000 * 60000 /\ dayRange (announced (msOf t) summer / 86400).
Proof.
  rewrite rangeValid_spec. intros (Hm & Hh & Hd & Hy). pose proof (yearLen_range (tf_year2 t)).
  unfold msOf, announced, utcMsFromFields. rewrite daysFromCivil_plain by lia. cbn zeta.
  change (1 <=? 2) with true. cbn [Z.b2z]. unfold dayOfEra. change (monthDays 1) with 306.
  unfold dayRange. destruct summer; dlia.
Qed.

(** The minute announced is read, and it is the next one. *)
Lemma localCode_announced (at_ : Z -> Z) (pm ph : Z) t summer mi ho da :
  rangeValid t = true -> 2000 <= fst (fst (announcedDate (msOf t) summer)) <= 2099 ->
  announcedGroups (msOf t) summer = (mi, ho, da) ->
  bitsFrom at_ 21 37 = (mi ++ [pm] ++ ho ++ [ph] ++ da)%list ->
  exists c, localCode at_ = Some c /\ codeUtcMs c summer = msOf t.
Proof.
  intros V Y G B. destruct (msOf_minute t summer V) as [M D]. unfold announcedGroups, announcedDate in *.
  pose proof (days_of_civil _ D) as C.
  destruct (civilFromDays _) as [[y mo] d]. cbn [fst] in Y. destruct C as [Vd E].
  assert (EL : announced (msOf t) summer = msOf t / 1000 + 60 + (if summer then 7200 else 3600)) by reflexivity.
  remember (announced (msOf t) summer) as local eqn:El. clear El.
  pose proof (Z.mod_pos_bound local 86400 ltac:(done)) as Hr.
  pose proof (Z.div_mod local 86400 ltac:(done)) as LE. rewrite <- E in G.
  eexists. split; [exact (localCode_date at_ pm ph y mo d _ mi ho da Y Vd Hr G B)|].
  unfold codeUtcMs. cbn [lc_days lc_hour lc_minute]. rewrite E. clear G B. destruct summer; dlia.
Qed.

(** Bits read off a list that starts at bit [off]. *)
Lemma bitsFrom_mid (at_ : Z -> Z) (l pre mid post : list Z) off a n :
  (forall s, at_ s = nth (Z.to_nat (s - off)) l 0) ->
  l = (pre ++ mid ++ post)%list -> off <= a -> length pre = Z.to_nat (a - off) -> length mid = n ->
  bitsFrom at_ a n = mid.
Proof.
  intros At -> O Lp <-. unfold bitsFrom. apply list_eq. intros i. rewrite list_lookup_fmap.
  destruct (decide (i < length mid)%nat) as [Hi|Hi].
  - rewrite lookup_seq_lt by done. cbn. destruct (lookup_lt_is_Some_2 mid i Hi) as [x E]. rewrite E. f_equal. rewrite At.
    apply nth_lookup_Some. replace (Z.to_nat (a + Z.of_nat i - off)) with (length pre + i)%nat by lia.
    rewrite lookup_app_r by lia. replace (length pre + i - length pre)%nat with i by lia.
    by rewrite lookup_app_l.
  - rewrite lookup_seq_ge, lookup_ge_None_2 by lia. done.
Qed.

(** Bits: their parity is their number's, and one of them changed changes it. *)
Definition isBit (x : Z) : Prop := x = 0 \/ x = 1.
Lemma land1_bit x : isBit (Z.land x 1).
Proof. unfold isBit. pose proof (Z.land_ones x 1 ltac:(lia)) as E. change (Z.ones 1) with 1 in E. change (2 ^ 1) with 2 in E. rewrite E. clear E. dlia. Qed.
Lemma lsb_bits n v : Forall isBit (lsb n v).
Proof. unfold lsb. apply Forall_forall. intros x Hx. apply list_elem_of_In, in_map_iff in Hx as (i & <- & _). apply land1_bit. Qed.

Lemma xors_sum_from l : forall a, isBit a -> Forall isBit l -> fold_left Z.lxor l a = (a + sumZ l) mod 2.
Proof.
  induction l as [|x l IH]; intros a A F; [destruct A as [-> | ->]; reflexivity|].
  apply Forall_cons in F as [X F]. cbn [fold_left]. rewrite IH; [|destruct A as [-> | ->], X as [-> | ->]; cbv; tauto|done].
  unfold sumZ. cbn [foldr]. fold (sumZ l). destruct A as [-> | ->], X as [-> | ->]; cbn [Z.lxor]; try (f_equal; lia).
  change (Z.lxor 1 1) with 0. replace (1 + (1 + sumZ l)) with (0 + sumZ l + 1 * 2) by lia. by rewrite Z.mod_add.
Qed.
Lemma xors_sum l : Forall isBit l -> xors l = sumZ l mod 2.
Proof. intros F. unfold xors. rewrite xors_sum_from by (done || by left). done. Qed.
Lemma xors_bit l : Forall isBit l -> isBit (xors l).
Proof. intros F. rewrite xors_sum by done. unfold isBit. dlia. Qed.
Lemma sumZ_insert l i x y : l !! i = Some x -> sumZ (<[i := y]> l) = sumZ l - x + y.
Proof.
  revert i. induction l as [|z l IH]; intros [|i] E; try done.
  - injection E as ->. change (<[0%nat := y]> (x :: l)) with (y :: l). unfold sumZ. cbn [foldr]. lia.
  - specialize (IH i E). change (<[S i := y]> (z :: l)) with (z :: <[i := y]> l). unfold sumZ in *. cbn [foldr]. lia.
Qed.

(** Seconds 21 to 58 of a minute sent: the groups with their parities. *)
Definition withParities (mi ho da : list Z) : list Z := (mi ++ [xors mi] ++ ho ++ [xors ho] ++ da ++ [xors da])%list.

(** Sent after the seconds from [off] to 20, they pass the decoders' checks. *)
Lemma parities_sent (at_ : Z -> Z) (l head mi ho da post : list Z) off :
  (forall s, at_ s = nth (Z.to_nat (s - off)) l 0) ->
  l = (head ++ withParities mi ho da ++ post)%list -> off <= 21 -> length head = Z.to_nat (21 - off) ->
  length mi = 7%nat -> length ho = 6%nat -> length da = 22%nat ->
  parityOf at_ 21 28 = 0 /\ parityOf at_ 29 35 = 0 /\ parityOf at_ 36 58 = 0 /\
  bitsFrom at_ 21 38 = withParities mi ho da /\
  bitsFrom at_ 21 37 = (mi ++ [xors mi] ++ ho ++ [xors ho] ++ da)%list.
Proof.
  intros At E O Lh L1 L2 L3. unfold parityOf, withParities in *.
  change (Z.to_nat (28 - 21 + 1)) with 8%nat. change (Z.to_nat (35 - 29 + 1)) with 7%nat.
  change (Z.to_nat (58 - 36 + 1)) with 23%nat.
  rewrite (bitsFrom_mid at_ l head (mi ++ [xors mi]) (ho ++ [xors ho] ++ da ++ [xors da] ++ post) off 21 8)
    by (exact At || (rewrite ?E, <- ?app_assoc, ?length_app; (done || cbn; lia))).
  rewrite (bitsFrom_mid at_ l (head ++ mi ++ [xors mi]) (ho ++ [xors ho]) (da ++ [xors da] ++ post) off 29 7)
    by (exact At || (rewrite ?E, <- ?app_assoc, ?length_app; (done || cbn; lia))).
  rewrite (bitsFrom_mid at_ l (head ++ mi ++ [xors mi] ++ ho ++ [xors ho]) (da ++ [xors da]) post off 36 23)
    by (exact At || (rewrite ?E, <- ?app_assoc, ?length_app; (done || cbn; lia))).
  rewrite !xors_app. repeat (split; [done|]).
  split; [apply (bitsFrom_mid at_ l head _ post off)|apply (bitsFrom_mid at_ l head _ ([xors da] ++ post) off)];
    (exact At || (rewrite ?E, <- ?app_assoc, ?length_app; (done || cbn; lia))).
Qed.

(** *** Calls back
    A decoder's calls are only added to: [grew], and every one of them [quiet]. *)
Section Growth.
Context {S C : Type} (calls : S -> list C) (quiet : C -> Prop).

Definition grew (s s' : S) : Prop := exists new, calls s' = (calls s ++ new)%list /\ Forall quiet new.
Lemma grew_refl s s' : calls s' = calls s -> grew s s'.
Proof. intros E. exists []. by rewrite app_nil_r. Qed.
Lemma grew_trans s1 s2 s3 : grew s1 s2 -> grew s2 s3 -> grew s1 s3.
Proof.
  intros (n1 & E1 & F1) (n2 & E2 & F2). exists (n1 ++ n2)%list. rewrite E2, E1, app_assoc.
  split; [done|]. by apply Forall_app.
Qed.
Lemma grew_call s s' c : calls s' = (calls s ++ [c])%list -> quiet c -> grew s s'.
Proof. intros E N. exists [c]. by repeat constructor. Qed.
Lemma grew_weaken (P : C -> Prop) s s' : (forall c, quiet c -> P c) -> grew s s' ->
  exists new, calls s' = (calls s ++ new)%list /\ Forall P new.
Proof. intros W (n & E & F). exists n. split; [done|]. eapply Forall_impl; [exact F|exact W]. Qed.
End Growth.
#[export] Hint Resolve grew_refl : ubersdr.

(** *** The voter's window over successive minutes *)

Section Window.
Context `{Pow} (cfg : Config).

Lemma votedFields_timestamp fs :
  TF (votedField cfg fs FieldMinutes) (votedField cfg fs FieldHours)
     (votedField cfg fs FieldDoy) (votedField cfg fs FieldYear) = votedTimestamp cfg fs.
Proof. unfold votedField. destruct fs; [done|]. by destruct (votedTimestamp cfg _). Qed.

(** The window holds successive minutes, the newest of them [t]. *)
Definition windowEnds (fs : list Frame) (t : TimeFields) : Prop :=
  fs <> [] /\ Forall frameOk fs /\ (length fs <= window cfg)%nat /\
  exists t0, rangeValid t0 = true /\
    (forall i f, fs !! i = Some f -> transmits cfg f (advanceMinutes t0 (Z.of_nat i))) /\
    advanceMinutes t0 (Z.of_nat (length fs) - 1) = t.

Lemma window_first f t :
  (0 < window cfg)%nat -> rangeValid t = true -> frameOk f -> transmits cfg f t -> windowEnds (addFrame cfg [] f) t.
Proof.
  intros W V F T. unfold addFrame. cbn [app]. rewrite keep_last_short by (cbn; lia).
  split; [done|]. split; [by constructor|]. split; [cbn; lia|]. exists t. split; [done|].
  split; [|cbn; by apply advanceMinutes_0].
  intros [|i] g E; [|done]. injection E as <-. cbn. by rewrite advanceMinutes_0.
Qed.

Lemma window_next fs f t :
  (0 < window cfg)%nat -> windowEnds fs t -> frameOk f -> transmits cfg f (advanceMinutes t 1) ->
  windowEnds (addFrame cfg fs f) (advanceMinutes t 1).
Proof.
  intros W (Ne & Ok & Le & t0 & V & Tr & Et) F T. unfold addFrame, keep_last.
  set (d := (length (fs ++ [f]) - window cfg)%nat).
  assert (Lf : length (fs ++ [f]) = S (length fs)) by (rewrite length_app; cbn; lia).
  assert (L0 : (0 < length fs)%nat) by (destruct fs; [done|cbn; lia]).
  assert (Ld : length (drop d (fs ++ [f])) = (S (length fs) - d)%nat) by (rewrite length_drop, Lf; done).
  assert (Hd : (d <= 1)%nat) by (unfold d; lia).
  assert (En : advanceMinutes t0 (Z.of_nat (length fs)) = advanceMinutes t 1).
  { rewrite <- Et, advanceMinutes_add by (done || lia). f_equal. lia. }
  split; [intros E; rewrite E in Ld; cbn in Ld; lia|].
  split; [apply Forall_drop, Forall_app; by repeat constructor|].
  split; [unfold d in *; lia|].
  exists (advanceMinutes t0 (Z.of_nat d)). split; [apply advanceMinutes_valid; [done|lia]|]. split.
  - intros i g. rewrite lookup_drop. intros E. rewrite advanceMinutes_add by (done || lia).
    destruct (decide (d + i < length fs)%nat).
    + rewrite lookup_app_l in E by lia. rewrite <- Nat2Z.inj_add. by apply Tr.
    + assert (d + i = length fs)%nat as Ei.
      { apply lookup_lt_Some in E. rewrite length_app in E. cbn in E. lia. }
      rewrite Ei, lookup_app_r, Nat.sub_diag in E by lia. injection E as <-.
      rewrite <- Nat2Z.inj_add, Ei, En. done.
  - rewrite Ld, advanceMinutes_add by (done || lia). rewrite <- En. f_equal. lia.
Qed.

Lemma windowEnds_voted fs t :
  mapsOk cfg = true -> powOk cfg (Z.of_nat (window cfg)) -> windowEnds fs t -> votedTimestamp cfg fs = t.
Proof.
  intros M P (Ne & Ok & Le & t0 & V & Tr & Et). rewrite <- Et. apply clean_window; try done.
  intros age Ha. apply P. lia.
Qed.
End Window.

(** The voter's floors hold over its window, with a power that does not vanish. *)
Lemma wwvb_powOk : @powOk demoPow wwvbVoter 8.
Proof.
  intros age Ha. assert (In age [0; 1; 2; 3; 4; 5; 6; 7]) as Hin by (cbn; lia).
  repeat (destruct Hin as [<-|Hin]; [split; (refine (proj2 (atLeast_key _ _ _) _); [lia|vm_compute; discriminate])|]). done.
Qed.
