(* ===== verification/Signals.v ===== *)
(** * What the signal chains share (src/clock/AllouisDecoder.cpp, MsfDecoder.cpp)
    The decoders of Allouis, MSF and DCF77 find their carrier and follow it the
    same way: a comb of frequencies correlated with the input, a second comb for
    the live signal to noise ratio, a mixing oscillator, rings of recent samples,
    and a tracker of the second's edge. *)

From Stdlib Require Import ZArith Lia List Bool Floats.
From stdpp Require Import base list sorting.
From S2P Require Import Prelude Doubles Rounding.

#[local] Open Scope Z_scope.

(** The C++ library's functions that are not exact. *)
Class Libm := {
  lm_cos : double -> double; lm_sin : double -> double; lm_exp : double -> double; lm_log10 : double -> double;
  lm_hypot : double -> double -> double; lm_atan2 : double -> double -> double
}.

Definition kPi : double := 3.14159265358979323846%D.

(** ** [std::remainder], which is exact *)

(** [x] and [y] over a common power of two, and [x] less the nearest multiple of
    [y], the even one of two as near. *)
Definition remainderZ (a b : Z) : Z :=
  let q := a / b in
  let r := a mod b in
  if (2 * r <? b) || ((2 * r =? b) && Z.even q) then r else r - b.
Definition dremainder (x y : double) : double :=
  match Prim2SF x, Prim2SF y with
  | S754_zero _, S754_finite _ _ _ | S754_zero _, S754_infinity _ | S754_finite _ _ _, S754_infinity _ => x
  | S754_finite s1 m1 e1, S754_finite s2 m2 e2 =>
      let e := Z.min e1 e2 in
      let a := (if s1 then -1 else 1) * Zpos m1 * 2 ^ (e1 - e) in
      let b := Zpos m2 * 2 ^ (e2 - e) in
      SF2Prim (binary_normalize prec emax (remainderZ a b) e s1)
  | _, _ => nan
  end.

(** ** Rings of samples
    A ring of a power of two slots at least as many as asked for; sample [n] is in
    slot [n mod size]. *)

Fixpoint growCap (fuel : nat) (cap n : Z) : Z :=
  match fuel with
  | O => cap
  | S fuel => if cap <? n then growCap fuel (2 * cap) n else cap
  end.
Definition capOf (n : Z) : Z := growCap 40 1 n.

Definition ringSlot {A} (l : list A) (n : Z) : nat := Z.to_nat (n mod Z.of_nat (length l)).
Definition ringPut {A} (l : list A) (n : Z) (x : A) : list A := <[ringSlot l n := x]> l.
(** What the ring holds at [n]; [None] when that is not a sample from [oldest] to
    [newest]. *)
Definition ringAt {A} (oldest newest : Z) (l : list A) (n : Z) : option A :=
  if (oldest <=? n) && (n <=? newest) then l !! ringSlot l n else None.
Fixpoint ringSpan (oldest newest : Z) (l : list double) (n : Z) (k : nat) : option (list double) :=
  match k with
  | O => Some []
  | S k => x ← ringAt oldest newest l n; xs ← ringSpan oldest newest l (n + 1) k; Some (x :: xs)
  end.
(** The samples [a] to [b]. *)
Definition ringFrom (oldest newest : Z) (l : list double) (a b : Z) : option (list double) :=
  ringSpan oldest newest l a (Z.to_nat (b - a + 1)).

(** A time in samples. *)
Definition spanOf (sr : Z) (sec : double) : Z := dllround (sec * d_of_Z sr)%D.

Definition total (l : list double) : double := fold_left PrimFloat.add l 0%D.
Definition dot (a b : list double) : double := fold_left (fun s '(x, y) => s + x * y)%D (combine a b) 0%D.

(** The first of the greatest, and where between its neighbours a parabola through
    the three puts the peak. *)
Definition argmax (l : list double) : nat :=
  fold_left (fun b i => if (nth i l 0 >? nth b l 0)%D then i else b) (seq 0 (length l)) 0%nat.
Definition peakFrac (l : list double) (i : nat) : double :=
  let y k := nth k l 0%D in
  let den := (y (i - 1)%nat - 2 * y i + y (i + 1)%nat)%D in
  if (den <? 0)%D then dclamp (0.5 * (y (i - 1)%nat - y (i + 1)%nat) / den) (-0.5) 0.5 else 0%D.

(** The confidence of a reading [z] sigmas from the boundary. *)
Definition confOf (z : double) : double := fround (dclamp ((z - 1) / 5) 0 1)%D.

(** ** Combs of frequencies *)

Definition kSearchHz : double := 20%D.
Definition kPullHz : double := 3%D.
Definition kSearchStep : double := 0.25%D.
Definition kToneGate : double := 12%D.
Definition kAcqSec : double := 2%D.
Definition kLiveToneSeconds : double := 2%D.
Definition kLiveToneSide : nat := 16.
Definition kLiveToneFirstHz : double := 5.5%D.

Record Bin := MkBin {
  b_f : double; b_stepRe : double; b_stepIm : double; b_rotRe : double; b_rotIm : double; b_accRe : double; b_accIm : double
}.
Definition binReset (b : Bin) : Bin := MkBin (b_f b) (b_stepRe b) (b_stepIm b) 1 0 0 0.
Definition binStep (xr xi : double) (b : Bin) : Bin :=
  MkBin (b_f b) (b_stepRe b) (b_stepIm b)
    (b_rotRe b * b_stepRe b - b_rotIm b * b_stepIm b)%D (b_rotRe b * b_stepIm b + b_rotIm b * b_stepRe b)%D
    (b_accRe b + (xr * b_rotRe b - xi * b_rotIm b))%D (b_accIm b + (xr * b_rotIm b + xi * b_rotRe b))%D.
Definition binPower (b : Bin) : double := (b_accRe b * b_accRe b + b_accIm b * b_accIm b)%D.

(** The frequencies searched: [f] to [hi] by a quarter; 161 of them. *)
Fixpoint combFrom (fuel : nat) (f hi : double) : list double :=
  match fuel with
  | O => []
  | S fuel => if (f <=? hi)%D then f :: combFrom fuel (f + kSearchStep)%D hi else []
  end.
Definition searchFreqs (fNominal : double) : list double :=
  combFrom 1000 (fNominal - kSearchHz)%D (fNominal + kSearchHz + 1e-9)%D.
Definition liveFreqs : list double :=
  0%D :: concat (map (fun i => let f := (kLiveToneFirstHz + d_of_Z (Z.of_nat i))%D in [f; (- f)%D]) (seq 0 kLiveToneSide)).

Section Combs.
Context `{Libm} (sr : Z).

Definition bin (f : double) : Bin :=
  MkBin f (lm_cos (- (2) * kPi * f / d_of_Z sr)%D) (lm_sin (- (2) * kPi * f / d_of_Z sr)%D) 1 0 0 0.
Definition unitLength (re im : double) : double * double :=
  let m := lm_hypot re im in if (1e-9 <? m)%D then (re / m, im / m)%D else (re, im).
Definition binRenorm (b : Bin) : Bin :=
  let '(re, im) := unitLength (b_rotRe b) (b_rotIm b) in
  MkBin (b_f b) (b_stepRe b) (b_stepIm b) re im (b_accRe b) (b_accIm b).
(** One sample into a comb that has had [count]. *)
Definition combStep (count : Z) (xr xi : double) (bins : list Bin) : list Bin :=
  let bins := map (binStep xr xi) bins in
  if Z.land count 1023 =? 1023 then map binRenorm bins else bins.

(** The comb the carrier is looked for in; [snr] is [lastToneSnrDb]. *)
Record Search := MkSearch { bins : list Bin; acqCount : Z; snr : double }.
Definition newSearch (fNominal : double) : Search := MkSearch (map bin (searchFreqs fNominal)) 0 0.
Definition acqTarget : Z := dllround (kAcqSec * d_of_Z sr)%D.

(** The strongest frequency no further from the nominal one than the pull, the
    first of equals. *)
Definition peakNear (fNominal : double) (bs : list Bin) (pw : list double) : option nat :=
  fold_left (fun peak i =>
    match bs !! i with
    | Some b =>
        if (dabs (b_f b - fNominal) <=? kPullHz)%D &&
           match peak with None => true | Some p => (nth i pw 0 >? nth p pw 0)%D end
        then Some i else peak
    | None => peak
    end) (seq 0 (length bs)) None.
(** The peak's frequency, refined by a parabola through its neighbours. *)
Definition refinedPeak (bs : list Bin) (pw : list double) (peak : nat) : double :=
  let p i := PrimFloat.sqrt (nth i pw 0%D) in
  let f := match bs !! peak with Some b => b_f b | None => 0%D end in
  if (0 <? peak)%nat && (peak + 1 <? length bs)%nat then
    let a := p (peak - 1)%nat in
    let c := p (peak + 1)%nat in
    let den := (a - 2 * p peak + c)%D in
    if (den <? 0)%D then (f + kSearchStep * dclamp (0.5 * (a - c) / den) (-0.5) 0.5)%D else f
  else f.
(** The search's end: the carrier's frequency when there is one, and otherwise
    the search begins again. *)
Definition finishSearch (fNominal : double) (g : Search) : Search * option double :=
  let pw := map binPower (bins g) in
  let median := nthSmallest (length pw / 2) pw in
  match peakNear fNominal (bins g) pw with
  | None => (MkSearch (map binReset (bins g)) 0 (snr g), None)
  | Some peak =>
      let snr' := if (0 <? median)%D then fround (10 * lm_log10 (nth peak pw 0 / median))%D else snr g in
      if (0 <? median)%D && (nth peak pw 0 >? kToneGate * median)%D
      then (MkSearch (bins g) (acqCount g) snr', Some (refinedPeak (bins g) pw peak))
      else (MkSearch (map binReset (bins g)) 0 snr', None)
  end.
(** One sample of the search. *)
Definition searchStep (fNominal : double) (g : Search) (xr xi : double) : Search * option double :=
  let g := MkSearch (combStep (acqCount g) xr xi (bins g)) (acqCount g + 1) (snr g) in
  if acqTarget <=? acqCount g then finishSearch fNominal g else (g, None).

(** The live comb: the carrier's bin and its neighbours. *)
Record Live := MkLive { liveBins : list Bin; liveCount : Z }.
Definition newLive : Live := MkLive (map bin liveFreqs) 0.
Definition liveTarget : Z := dllround (kLiveToneSeconds * d_of_Z sr)%D.
Definition liveToneStep (l : Live) (db : double) (zr zi : double) : Live * double :=
  let bs := combStep (liveCount l) zr zi (liveBins l) in
  let n := liveCount l + 1 in
  if n <? liveTarget then (MkLive bs n, db)
  else
    let pw := map binPower bs in
    let carrier := nth 0 pw 0%D in
    let median := nthSmallest kLiveToneSide (drop 1 pw) in
    (MkLive (map binReset bs) 0,
     if (0 <? median)%D && (0 <? carrier)%D then fround (10 * lm_log10 (carrier / median))%D else db).

(** ** The mixing oscillator *)

Record Osc := MkOsc { f0 : double; oscRe : double; oscIm : double; stepRe : double; stepIm : double; oscRenorm : Z }.
Definition tuned (fNominal : double) (o : Osc) (f : double) : Osc :=
  let f := dclamp f (fNominal - kPullHz) (fNominal + kPullHz) in
  MkOsc f (oscRe o) (oscIm o) (lm_cos (- (2) * kPi * f / d_of_Z sr)%D) (lm_sin (- (2) * kPi * f / d_of_Z sr)%D) (oscRenorm o).
Definition newOsc (fNominal : double) : Osc := MkOsc fNominal 1 0 1 0 0.
(** The sample mixed down, and the oscillator a sample later. *)
Definition mixDown (o : Osc) (xr xi : double) : Osc * (double * double) :=
  let zr := (xr * oscRe o - xi * oscIm o)%D in
  let zi := (xr * oscIm o + xi * oscRe o)%D in
  let re := (oscRe o * stepRe o - oscIm o * stepIm o)%D in
  let im := (oscRe o * stepIm o + oscIm o * stepRe o)%D in
  let n := oscRenorm o + 1 in
  let '(re, im) := if 1024 <=? n then unitLength re im else (re, im) in
  (MkOsc (f0 o) re im (stepRe o) (stepIm o) (if 1024 <=? n then 0 else n), (zr, zi)).

End Combs.

(** ** The edge tracker whose gain follows its residuals *)

Definition kTrkAlpha : double := (1 / 8)%D.
Definition kTrkAlphaMin : double := (1 / 32)%D.
Definition kTrkWarm : Z := 8.
Definition kTrkNoiseRefSec : double := 0.0001%D.

Record EdgeTracker := MkTrk {
  valid : bool; edge : double; period : double; count : Z; outliers : Z; resVar : double
}.
Definition noTracker : EdgeTracker := MkTrk false 0 0 0 0 0.
(** [reset] keeps the edge and the period. *)
Definition trkReset (t : EdgeTracker) : EdgeTracker := MkTrk false (edge t) (period t) 0 0 0.

Section Tracker.
Variable sr : Z.
Definition noiseRef : double := (kTrkNoiseRefSec * d_of_Z sr)%D.
Definition alpha (t : EdgeTracker) : double :=
  let rms := PrimFloat.sqrt (resVar t) in
  if negb (rms >? noiseRef)%D then kTrkAlpha else dmax kTrkAlphaMin (kTrkAlpha * noiseRef / rms)%D.
Definition update (t : EdgeTracker) (measured : bool) (raw nominal tol : double) : EdgeTracker :=
  if negb (valid t) then
    if measured then MkTrk true raw nominal 1 0 (resVar t) else t
  else
    let pred := (edge t + period t)%D in
    if negb measured then MkTrk true pred (period t) (count t) (outliers t) (resVar t)
    else
      let r := (raw - pred)%D in
      if (dabs r >? tol)%D then
        let out := outliers t + 1 in
        if 3 <=? out then MkTrk true raw nominal 1 0 0
        else MkTrk true pred (period t) (count t) out (resVar t)
      else
        let n := count t + 1 in
        let var := (resVar t + (if (n <=? 16)%Z then 1 / d_of_Z n else 1 / 16) * (r * r - resVar t))%D in
        let t := MkTrk true (edge t) (period t) n 0 var in
        let a := alpha t in
        MkTrk true (pred + dmax (1 / d_of_Z n) a * r)%D
          (if (kTrkWarm <? n)%Z
           then dclamp (period t + 0.5 * a * a * r) (nominal * (1 - 2e-4)) (nominal * (1 + 2e-4)) else period t)%D
          n 0 var.
End Tracker.

(** ** Lemmas: rings *)

Lemma length_ringPut {A} (l : list A) n x : length (ringPut l n x) = length l.
Proof. apply length_insert. Qed.
Lemma ringSlot_lt {A} (l : list A) n : (0 < length l)%nat -> (ringSlot l n < length l)%nat.
Proof. intros L. unfold ringSlot. pose proof (Z.mod_pos_bound n (Z.of_nat (length l))). lia. Qed.

(** What is not older than the oldest sample, nor newer than the newest, is read. *)
Lemma ringSpan_some old new l k : forall n, (0 < length l)%nat -> old <= n -> n + Z.of_nat k <= new + 1 ->
  exists xs, ringSpan old new l n k = Some xs /\ length xs = k.
Proof.
  induction k as [|k IH]; intros n L O N; [by exists []|]. cbn [ringSpan]. unfold ringAt.
  destruct (Z.leb_spec old n); [|lia]. destruct (Z.leb_spec n new); [|lia]. cbn [andb].
  destruct (lookup_lt_is_Some_2 l (ringSlot l n) (ringSlot_lt l n L)) as [x ->]. cbn [mbind option_bind].
  destruct (IH (n + 1) L ltac:(lia) ltac:(lia)) as (xs & -> & Lx). exists (x :: xs). cbn. split; [done|lia].
Qed.
Lemma ringFrom_some old new l a b : (0 < length l)%nat -> old <= a -> b <= new -> a <= b + 1 ->
  exists xs, ringFrom old new l a b = Some xs /\ Z.of_nat (length xs) = b - a + 1.
Proof.
  intros L O N A. unfold ringFrom. destruct (ringSpan_some old new l (Z.to_nat (b - a + 1)) a L O ltac:(lia)) as (xs & E & Lx).
  exists xs. split; [exact E|lia].
Qed.
Lemma growCap_pos fuel : forall cap n, 0 < cap -> 0 < growCap fuel cap n.
Proof. induction fuel as [|fuel IH]; intros cap n C; [done|]. cbn. destruct (cap <? n); [apply IH; lia|done]. Qed.
Lemma growCap_ge fuel : forall cap n, 0 < cap -> n <= cap * 2 ^ Z.of_nat fuel -> n <= growCap fuel cap n.
Proof.
  induction fuel as [|fuel IH]; intros cap n C B; [cbn in *; lia|]. cbn [growCap]. destruct (Z.ltb_spec cap n); [|lia].
  apply IH; [lia|]. rewrite Nat2Z.inj_succ, Z.pow_succ_r in B by lia. lia.
Qed.
Lemma capOf_ge n : n <= 2 ^ 40 -> n <= capOf n.
Proof. intros B. apply growCap_ge; [lia|]. change (Z.of_nat 40) with 40. lia. Qed.
Lemma capOf_pos n : 0 < capOf n.
Proof. by apply growCap_pos. Qed.

(** ** The tracker's period
    The clamp's 200 parts in a million are of the [nominal] the decoders give, which
    is the tracker's own period once it is going: it holds back one second's move
    and not their sum. Six hundred seconds that are each heard twenty samples late,
    at 12 kHz, take the period past 200 parts in a million of the rate, and with the
    rate for its nominal they do not. *)
Definition late (own : bool) (t : EdgeTracker) : EdgeTracker :=
  update 12000 t true (edge t + period t + 20)%D (if own then period t else 12000)%D 24%D.
Example tracker_winds_away :
  let t0 := MkTrk true 0 12000 9 0 0 in
  let after own := period (Nat.iter 600 (late own) t0) in
  (after true >? 12000 * (1 + 2e-4))%D = true /\ (after false <=? 12000 * (1 + 2e-4))%D = true.
Proof. vm_compute. split; reflexivity. Qed.

(** ** A library for the examples
    [sin] and [cos] by their series, and what serves for the rest where the
    phase is small. *)
Definition demoLibm : Libm :=
  let series (ks : list double) (x2 : double) := fold_right (fun k p => 1 - k * x2 * p)%D 1%D ks in
  let inv k := (1 / d_of_Z (Z.of_nat k * Z.of_nat (k + 1)))%D in
  let cs := map (fun i => inv (2 * i + 1)%nat) (seq 0 12) in
  let ss := map (fun i => inv (2 * i + 2)%nat) (seq 0 12) in
  {| lm_cos x := series cs (x * x)%D; lm_sin x := (x * series ss (x * x))%D;
     lm_exp x := (1 + x + x * x / 2)%D; lm_log10 x := x;
     lm_hypot x y := PrimFloat.sqrt (x * x + y * y)%D; lm_atan2 y x := (y / x)%D |}.
