(* ===== verification/EnvelopeRing.v ===== *)
(** * The envelope of a keyed carrier (src/clock/WwvbDecoder.cpp, MsfDecoder.cpp, Dcf77Decoder.cpp)
    WWVB, MSF and DCF77 find their seconds in the amplitude of the carrier: a low
    pass, the mean of each hundredth of a second in a ring of 1024, its percentiles,
    and the falls between them. Every read of the ring is checked: an index the
    ring does not hold is [None]. *)

From Stdlib Require Import ZArith Lia List Bool Floats.
From stdpp Require Import base list sorting.
From S2P Require Import Prelude Doubles Rounding Signals.

#[local] Open Scope Z_scope.

(** ** Constants *)

Definition kEnvRateHz : Z := 100.
Definition kEnvCap : Z := 1024.
Definition kPctWin : Z := 300.
Definition kEdgeTol : Z := 12.
Definition kEdgeLook : Z := 12.
Definition kWarmEnv : Z := 200.
Definition kLpfCutHz : double := 150%D.

(** ** The low pass *)

Record Biquad := MkBq { b0 : double; b1 : double; b2 : double; a1 : double; a2 : double; z1 : double; z2 : double }.
Definition bqProcess (q : Biquad) (x : double) : Biquad * double :=
  let y := (b0 q * x + z1 q)%D in
  (MkBq (b0 q) (b1 q) (b2 q) (a1 q) (a2 q) (b1 q * x - a1 q * y + z2 q) (b2 q * x - a2 q * y), y)%D.
Definition bqReset (q : Biquad) : Biquad := MkBq (b0 q) (b1 q) (b2 q) (a1 q) (a2 q) 0 0.
Definition passThrough : Biquad := MkBq 1 0 0 0 0 0 0.
Definition lowpass `{Libm} (fs fc : double) : Biquad :=
  let w0 := (2 * kPi * fc / fs)%D in
  let c := lm_cos w0 in
  let sn := lm_sin w0 in
  let q := 0.70710678118654752440%D in
  let alpha := (sn / (2 * q))%D in
  let a0 := (1 + alpha)%D in
  MkBq ((1 - c) / 2 / a0) ((1 - c) / a0) ((1 - c) / 2 / a0) (-(2) * c / a0) ((1 - alpha) / a0) 0 0.
(** Its delay at 0 Hz. *)
Definition groupDelay (lp : Biquad) : double := (1 - (a1 lp + 2 * a2 lp) / (1 + a1 lp + a2 lp))%D.

(** ** The ring *)

(** [pLo] and [pHi] are the percentiles. *)
Record Envelope := MkEnv { env : list double; envCount : Z; pLo : double; pHi : double }.
Definition noEnvelope : Envelope := MkEnv (replicate 1024 0%D) 0 0 0.

(** What the ring holds at an envelope index, if it still does. *)
Definition envAt (e : Envelope) (i : Z) : option double :=
  if (0 <=? i) && (i <? envCount e) && (envCount e - kEnvCap <=? i)
  then env e !! Z.to_nat (i mod kEnvCap) else None.
Fixpoint envRange (e : Envelope) (i : Z) (n : nat) : option (list double) :=
  match n with
  | O => Some []
  | S n => v ← envAt e i; vs ← envRange e (i + 1) n; Some (v :: vs)
  end.

Definition pushed (e : Envelope) (v : double) : Envelope :=
  MkEnv (<[Z.to_nat (envCount e mod kEnvCap) := v]> (env e)) (envCount e + 1) (pLo e) (pHi e).

(** The [low] and the 0.9 quantile of the last three seconds. *)
Definition updatePercentiles (low : double) (e : Envelope) : option Envelope :=
  let n := Z.min kPctWin (envCount e) in
  if n <? 8 then Some (MkEnv (env e) (envCount e) 0 0)
  else
    vs ← envRange e (envCount e - n) (Z.to_nat n);
    let kLow := Z.to_nat (d2ll (low * d_of_Z n)%D) in
    let kHigh := Z.to_nat (d2ll (0.90 * d_of_Z n)%D) in
    Some (MkEnv (env e) (envCount e) (nthSmallest kLow vs) (nthSmallest kHigh vs)).

Definition contrastOver (least floor : double) (e : Envelope) : bool :=
  (least * dmax (pLo e) (fround floor) <=? pHi e)%D.
Definition threshold (e : Envelope) (k : double) : double :=
  fadd (pLo e) (fmul (fround k) (fsub (pHi e) (pLo e))).
Definition thrHi (e : Envelope) : double := threshold e 0.6.
Definition thrMid (e : Envelope) : double := threshold e 0.5.
Definition thrLo (e : Envelope) : double := threshold e 0.4.

(** ** Falls *)

Definition sustainedLow (e : Envelope) (i : Z) : option bool :=
  let n := Z.to_nat (Z.min 7 (envCount e - 1 - i)) in
  vs ← envRange e (i + 1) n;
  let checked := Z.of_nat n in
  let low := Z.of_nat (length (filter (fun v => (v <? thrLo e)%D = true) vs)) in
  Some ((5 <=? checked) && (checked - 1 <=? low)).

Definition isFallingEdge (e : Envelope) (i : Z) : option bool :=
  before ← envAt e (i - 1);
  here ← envAt e i;
  if negb ((thrMid e <=? before)%D && (here <? thrMid e)%D) then Some false
  else
    vs ← envRange e (i - 3) 3;
    if existsb (fun v => (thrHi e <=? v)%D) vs then sustainedLow e i else Some false.

(** Where the drop that crosses at [i] is, in input samples: the area under the
    transition between the local high and low means, the low of [nLow] values.
    [hi]'s terms are summed from [i - 4] down. *)
Definition edgeSampleAt (nLow : nat) (least : double) (e : Envelope) (start decim : Z) (delay : double) (i : Z) : option double :=
  his ← envRange e (i - 8) 5;
  los ← envRange e (i + 4) nLow;
  mid ← envRange e (i - 2) 6;
  let hi := (total (rev his) / 5)%D in
  let lo := (total los / d_of_Z (Z.of_nat nLow))%D in
  let span := (hi - lo)%D in
  let pos :=
    if (least <? span)%D then
      let area := total (map (fun v => (v - lo) / span)%D mid) in
      dclamp (d_of_Z (i - 2) + area) (d_of_Z i - 1.5) (d_of_Z i + 1.5)
    else d_of_Z i in
  Some (d_of_Z start + pos * d_of_Z decim - delay)%D.

(** Look for the first edge from [i], [n] places on; [None] inside when the scan
    runs out. The last place looked at is kept. *)
Fixpoint scanFrom (test : Z -> option bool) (i : Z) (n : nat) (scan : Z) : option (option Z * Z) :=
  match n with
  | O => Some (None, scan)
  | S n => f ← test i; if (f : bool) then Some (Some i, i) else scanFrom test (i + 1) n i
  end.
(** From where a first edge is looked for, and over how many places. *)
Definition scanStart (e : Envelope) (scan : Z) : Z := Z.max (Z.max scan 9) (envCount e - kEnvCap + 9).
Definition scanLength (e : Envelope) (scan : Z) : nat := Z.to_nat (envCount e - kEdgeLook - scanStart e scan).

(** The edge nearest to [pred] within [tol], the first of equals. *)
Fixpoint nearestEdge (test : Z -> option bool) (pred i : Z) (n : nat) (best : option Z) : option (option Z) :=
  match n with
  | O => Some best
  | S n =>
      if i <? 9 then nearestEdge test pred (i + 1) n best
      else
        f ← test i;
        let nearer := match best with Some b => Z.abs (i - pred) <? Z.abs (b - pred) | None => true end in
        nearestEdge test pred (i + 1) n (if (f : bool) && nearer then Some i else best)
  end.
Definition edgeNear (test : Z -> option bool) (e : Envelope) (pred tol : Z) : option (option Z) :=
  let lo := Z.max (pred - tol) (envCount e - kEnvCap + 9) in
  let hi := Z.min (pred + tol) (envCount e - 1 - kEdgeLook) in
  nearestEdge test pred lo (Z.to_nat (hi + 1 - lo)) None.

(** ** Lemmas: the ring *)

(** The ring's size, and what it holds of the values pushed since the start. *)
Definition ringOk (e : Envelope) : Prop := length (env e) = 1024%nat /\ 0 <= envCount e.
Definition holds (e : Envelope) (h : list double) : Prop :=
  ringOk e /\ envCount e = Z.of_nat (length h) /\
  forall i, (i < length h)%nat -> (length h <= i + 1024)%nat -> envAt e (Z.of_nat i) = h !! i.

Lemma noEnvelope_holds : holds noEnvelope [].
Proof. split; [split; [reflexivity|cbn; lia]|]. split; [reflexivity|]. intros i I. cbn in I. lia. Qed.

Lemma envAt_some e i : ringOk e -> 0 <= i < envCount e -> envCount e - kEnvCap <= i -> exists v, envAt e i = Some v.
Proof.
  intros [L C] I W. unfold envAt. destruct (Z.leb_spec 0 i); [|lia]. destruct (Z.ltb_spec i (envCount e)); [|lia].
  destruct (Z.leb_spec (envCount e - kEnvCap) i); [|lia]. cbn [andb]. apply lookup_lt_is_Some_2. rewrite L.
  unfold kEnvCap. dlia.
Qed.

Lemma envRange_some e n : forall i, ringOk e -> 0 <= i -> envCount e - kEnvCap <= i -> i + Z.of_nat n <= envCount e ->
  exists vs, envRange e i n = Some vs /\ length vs = n.
Proof.
  induction n as [|n IH]; intros i R I W U; [by exists []|].
  destruct (envAt_some e i R) as [v E]; [lia|lia|]. destruct (IH (i + 1) R) as (vs & E' & L); [lia..|].
  exists (v :: vs). cbn [envRange]. rewrite E. cbn. rewrite E'. cbn. auto.
Qed.

Lemma pushed_holds e h v : holds e h -> holds (pushed e v) (h ++ [v]).
Proof.
  intros ((L & C) & N & H). unfold holds, ringOk, pushed. cbn [env envCount].
  rewrite length_insert, length_app. cbn [length]. split; [lia|]. split; [lia|]. intros i I W.
  unfold envAt. cbn [env envCount]. unfold kEnvCap.
  destruct (Z.leb_spec 0 (Z.of_nat i)); [|lia]. destruct (Z.ltb_spec (Z.of_nat i) (envCount e + 1)); [|lia].
  destruct (Z.leb_spec (envCount e + 1 - 1024) (Z.of_nat i)); [|lia]. cbn [andb].
  destruct (decide (i = length h)) as [->|Ne].
  - rewrite N, list_lookup_insert_eq by (rewrite L; dlia).
    rewrite lookup_app_r, Nat.sub_diag by lia. done.
  - rewrite list_lookup_insert_ne by (rewrite N; dlia). rewrite lookup_app_l by lia. rewrite <- H by lia.
    unfold envAt, kEnvCap. destruct (Z.leb_spec 0 (Z.of_nat i)); [|lia].
    destruct (Z.ltb_spec (Z.of_nat i) (envCount e)); [|lia].
    destruct (Z.leb_spec (envCount e - 1024) (Z.of_nat i)); [|lia]. done.
Qed.

Lemma percentiles_some low e : ringOk e ->
  exists e', updatePercentiles low e = Some e' /\ env e' = env e /\ envCount e' = envCount e.
Proof.
  intros R. unfold updatePercentiles, kPctWin. destruct (Z.ltb_spec (Z.min 300 (envCount e)) 8); [by eexists|].
  destruct (envRange_some e (Z.to_nat (Z.min 300 (envCount e))) (envCount e - Z.min 300 (envCount e)) R) as (vs & E & _);
    [unfold kEnvCap; lia..|]. rewrite E. cbn. by eexists.
Qed.
(** A value pushed, and the percentiles after it. *)
Lemma push_some low e h v : holds e h ->
  exists e', updatePercentiles low (pushed e v) = Some e' /\ holds e' (h ++ [v]).
Proof.
  intros Hh. pose proof (pushed_holds _ _ v Hh) as Hp.
  destruct (percentiles_some low (pushed e v)) as (e' & E & E1 & E2); [apply Hp|]. exists e'. split; [exact E|].
  destruct Hp as ((L & C) & N & V). split; [unfold ringOk; by rewrite E1, E2|]. split; [congruence|].
  intros i I U. rewrite <- V by done. unfold envAt. by rewrite E1, E2.
Qed.

Lemma isFallingEdge_some e i : ringOk e -> 3 <= i < envCount e -> envCount e - kEnvCap + 3 <= i ->
  exists f, isFallingEdge e i = Some f.
Proof.
  intros R I W. unfold isFallingEdge.
  destruct (envAt_some e (i - 1) R) as [b ->]; [lia|lia|]. destruct (envAt_some e i R) as [v ->]; [lia|lia|]. cbn [mbind option_bind].
  destruct (negb _); [by eexists|].
  destruct (envRange_some e 3 (i - 3) R) as (vs & -> & _); [lia..|]. cbn [mbind option_bind]. destruct (existsb _ vs); [|by eexists].
  unfold sustainedLow.
  destruct (envRange_some e (Z.to_nat (Z.min 7 (envCount e - 1 - i))) (i + 1) R) as (ws & -> & _); [lia..|]. by eexists.
Qed.

Lemma edgeSampleAt_some n least e start decim delay i : ringOk e -> (n <= 7)%nat -> 8 <= i -> envCount e - kEnvCap + 8 <= i ->
  i + 11 <= envCount e -> exists x, edgeSampleAt n least e start decim delay i = Some x.
Proof.
  intros R N I W U. unfold edgeSampleAt.
  destruct (envRange_some e 5 (i - 8) R) as (a & -> & _); [lia..|].
  destruct (envRange_some e n (i + 4) R) as (b & -> & _); [lia..|].
  destruct (envRange_some e 6 (i - 2) R) as (c & -> & _); [lia..|]. by eexists.
Qed.

(** ** Lemmas: the searches, which stop only where the test does *)

Lemma scanFrom_cases test n : forall i scan,
  (exists found scan', scanFrom test i n scan = Some (found, scan') /\
    forall j, found = Some j -> i <= j < i + Z.of_nat n) \/
  (scanFrom test i n scan = None /\ exists j, i <= j < i + Z.of_nat n /\ test j = None).
Proof.
  induction n as [|n IH]; intros i scan; [left; by exists None, scan|].
  cbn [scanFrom]. destruct (test i) as [f|] eqn:T; [|right; split; [done|]; exists i; split; [lia|done]]. cbn [mbind option_bind]. destruct f.
  - left. exists (Some i), i. split; [done|]. intros j [= <-]. lia.
  - destruct (IH (i + 1) i) as [(found & scan' & E & F)|(E & j & J & F)].
    + left. exists found, scan'. split; [done|]. intros j Hj. specialize (F j Hj). lia.
    + right. split; [done|]. exists j. split; [lia|done].
Qed.
Lemma nearestEdge_cases test pred n : forall i best,
  (exists b, nearestEdge test pred i n best = Some b /\
    forall j, b = Some j -> best = Some j \/ (9 <= j /\ i <= j < i + Z.of_nat n)) \/
  (nearestEdge test pred i n best = None /\ exists j, 9 <= j /\ i <= j < i + Z.of_nat n /\ test j = None).
Proof.
  induction n as [|n IH]; intros i best; [left; exists best; auto|]. cbn [nearestEdge].
  assert (Next : forall b0, (forall j, b0 = Some j -> best = Some j \/ (9 <= j /\ j = i)) ->
    (exists b, nearestEdge test pred (i + 1) n b0 = Some b /\
      forall j, b = Some j -> best = Some j \/ (9 <= j /\ i <= j < i + Z.of_nat (S n))) \/
    (nearestEdge test pred (i + 1) n b0 = None /\ exists j, 9 <= j /\ i <= j < i + Z.of_nat (S n) /\ test j = None)).
  { intros b0 B. destruct (IH (i + 1) b0) as [(b & E & F)|(E & j & J1 & J2 & F)].
    - left. exists b. split; [exact E|]. intros j Hj. destruct (F j Hj) as [F'|]; [destruct (B j F'); [auto|right; lia]|right; lia].
    - right. split; [exact E|]. exists j. split; [exact J1|]. split; [lia|exact F]. }
  destruct (Z.ltb_spec i 9); [apply Next; auto|].
  destruct (test i) as [f|] eqn:T; [|right; split; [done|]; exists i; split; [lia|split; [lia|done]]]. cbn [mbind option_bind].
  apply Next. intros j. destruct (f && _); [|auto]. intros [= <-]. right. lia.
Qed.

(** Exactly where the searches fail: a scan at the first place the test does, the
    search for the nearest at any. *)
Lemma scanFrom_none test n : forall i scan,
  scanFrom test i n scan = None <->
  exists j, i <= j < i + Z.of_nat n /\ (forall k, i <= k < j -> test k = Some false) /\ test j = None.
Proof.
  induction n as [|n IH]; intros i scan; [split; [done|intros (j & J & _); lia]|].
  cbn [scanFrom]. destruct (test i) as [[]|] eqn:T; cbn [mbind option_bind].
  - split; [done|]. intros (j & J & B & F). destruct (decide (i = j)) as [->|]; [congruence|].
    rewrite (B i) in T by lia. done.
  - rewrite IH. split; intros (j & J & B & F).
    + exists j. split; [lia|]. split; [|exact F]. intros k K. destruct (decide (k = i)) as [->|]; [exact T|apply B; lia].
    + destruct (decide (i = j)) as [->|]; [congruence|]. exists j. split; [lia|]. split; [|exact F]. intros k K. apply B. lia.
  - split; [intros _|done]. exists i. split; [lia|]. split; [lia|exact T].
Qed.
Lemma nearestEdge_none test pred n : forall i best,
  nearestEdge test pred i n best = None <-> exists j, 9 <= j /\ i <= j < i + Z.of_nat n /\ test j = None.
Proof.
  induction n as [|n IH]; intros i best; [split; [done|intros (j & _ & J & _); lia]|]. cbn [nearestEdge].
  assert (Next : forall b, test i <> None \/ i < 9 ->
    nearestEdge test pred (i + 1) n b = None <-> exists j, 9 <= j /\ i <= j < i + Z.of_nat (S n) /\ test j = None).
  { intros b Ne. rewrite IH. split; intros (j & J1 & J2 & F); exists j; [split; [exact J1|split; [lia|exact F]]|].
    assert (j <> i) by (intros ->; destruct Ne; [done|lia]). split; [exact J1|split; [lia|exact F]]. }
  destruct (Z.ltb_spec i 9); [apply Next; by right|].
  destruct (test i) as [f|] eqn:T; cbn [mbind option_bind]; [apply Next; by left|].
  split; [intros _|done]. exists i. split; [lia|]. split; [lia|exact T].
Qed.

(** Where the searches look, the envelope holds what a fall is told by. *)
Definition inReach (e : Envelope) (j : Z) : Prop := 9 <= j /\ envCount e - kEnvCap + 9 <= j /\ j + 13 <= envCount e.
Lemma scan_cases e test scan :
  (exists found scan', scanFrom test (scanStart e scan) (scanLength e scan) scan = Some (found, scan') /\
    forall j, found = Some j -> inReach e j) \/
  (scanFrom test (scanStart e scan) (scanLength e scan) scan = None /\ exists j, inReach e j /\ test j = None).
Proof.
  assert (R : forall j, scanStart e scan <= j < scanStart e scan + Z.of_nat (scanLength e scan) -> inReach e j).
  { intros j J. unfold inReach, scanLength, scanStart, kEdgeLook in *. lia. }
  destruct (scanFrom_cases test (scanLength e scan) (scanStart e scan) scan) as [(found & scan' & E & F)|(E & j & J & F)].
  - left. exists found, scan'. split; [exact E|]. intros j Hj. by apply R, F.
  - right. split; [exact E|]. exists j. split; [by apply R|exact F].
Qed.
Lemma edgeNear_cases e test pred tol :
  (exists b, edgeNear test e pred tol = Some b /\ forall i, b = Some i -> inReach e i /\ pred - tol <= i <= pred + tol) \/
  (edgeNear test e pred tol = None /\ exists j, inReach e j /\ test j = None).
Proof.
  unfold edgeNear. set (lo := Z.max _ _). set (hi := Z.min _ _). unfold kEdgeLook, inReach in *.
  destruct (nearestEdge_cases test pred (Z.to_nat (hi + 1 - lo)) lo None) as [(b & E & F)|(E & j & J1 & J2 & F)].
  - left. exists b. split; [exact E|]. intros i Hi. destruct (F i Hi) as [?|?]; [done|lia].
  - right. split; [exact E|]. exists j. split; [lia|exact F].
Qed.
Lemma scan_none e test scan :
  scanFrom test (scanStart e scan) (scanLength e scan) scan = None <->
  exists j, inReach e j /\ scan <= j /\ (forall k, inReach e k -> scan <= k < j -> test k = Some false) /\ test j = None.
Proof.
  rewrite scanFrom_none. unfold inReach, scanLength, scanStart, kEdgeLook.
  split; intros (j & J).
  - destruct J as (J & B & F). exists j. split; [lia|]. split; [lia|]. split; [|exact F]. intros k K1 K2. apply B. lia.
  - destruct J as (R & J & B & F). exists j. split; [lia|]. split; [|exact F]. intros k K. apply B; lia.
Qed.
Lemma edgeNear_none e test pred tol :
  edgeNear test e pred tol = None <-> exists j, inReach e j /\ pred - tol <= j <= pred + tol /\ test j = None.
Proof.
  unfold edgeNear. rewrite nearestEdge_none. unfold inReach, kEdgeLook.
  split; intros (j & J1 & J2 & J3); exists j; (split; [lia|]; split; [lia|exact J3]).
Qed.
Lemma fallingEdge_some e i : ringOk e -> inReach e i -> exists f, isFallingEdge e i = Some f.
Proof. unfold inReach. intros R I. apply isFallingEdge_some; [exact R|lia..]. Qed.
Lemma fallAt_some n least e start decim delay i : ringOk e -> (n <= 7)%nat -> inReach e i ->
  exists x, edgeSampleAt n least e start decim delay i = Some x.
Proof. unfold inReach. intros R N I. apply edgeSampleAt_some; [exact R|exact N|lia..]. Qed.
