(* ===== verification/Msf.v ===== *)
(** * The MSF time code (src/clock/MsfDecoder.cpp)
    What the 60 kHz Anthorn decoder makes of its classified seconds: where the
    minute is, the frame it fills, the bits and parities of the time code, the
    UTC frame it hands the voter, and the lock and labels that follow. The
    signal processing that classifies a second is not here: a second arrives as
    a [SecRec], with the tracked period and whether its edge was measured. *)

From Stdlib Require Import ZArith Lia List Bool Floats.
From stdpp Require Import base list.
From S2P Require Import Prelude Doubles Rounding ClockTypes CivilTime TimeFrameVoter TimeCode.

#[local] Open Scope Z_scope.

(** ** Constants *)

Definition kStructConf : double := 0.5%D.
Definition kSyncConf : double := fround 0.6.
Definition kIdBitMinConf : double := fround 0.1.
Definition kIdMeanConf : double := fround 0.4.
Definition kBitMinConf : double := fround 0.05.
Definition kMaxBlindSeconds : Z := 90.
Definition kMaxUnconfirmedMinutes : Z := 2.
Definition kFrameCap : Z := 62.
Definition kIdentifier : list Z := [0; 1; 1; 1; 1; 1; 1; 0].
Definition buildVoterConfig : Config := voterConfig wwvbFields.

(** ** Data *)

(** One classified second. *)
Record SecRec := MkSec {
  edge : Z; edgeExact : double;
  read : bool; marker : bool; markConf : double;
  bitA : Z; bitB : Z; aConf : double; bConf : double; cut : bool
}.
Definition noSec : SecRec := MkSec 0 nan false false 0 0 0 0 0 true.

Definition confMarker (r : SecRec) (c : double) : bool := read r && marker r && (c <=? markConf r)%D.

(** One minute's time code. *)
Record Decoded := MkDecoded {
  d_minute : Z; d_hour : Z; d_day : Z; d_month : Z; d_year2 : Z; d_wday : Z;
  d_summer : bool; d_summerSoon : bool; d_dut1Tenths : Z;
  d_utc : TimeFields; d_utcMs : Z
}.

(** The callbacks a second makes, in order. *)
Record FrameInfo := MkFrameInfo {
  fi_fields : TimeFields; fi_dut1Tenths : Z; fi_dst : bool; fi_confidence : double; fi_start : Z
}.
Record TimeInfo := MkTimeInfo {
  ti_fields : TimeFields; ti_quality : double; ti_edge : Z; ti_edgeExact : double; ti_second : Z
}.
Inductive Call :=
  | OnState (s : ClockLockState)
  | OnFrame (f : FrameInfo)
  | OnSecond (r : SecRec) (measured : bool) (sof : Z)
  | OnTime (t : TimeInfo).

(** The frame being filled, and how its seconds are counted. *)
Record Count := MkCount {
  anchored : bool; sofNext : Z; frame : list SecRec; frFilled : Z; frStart : Z; unconfirmedRun : Z
}.
(** The label: [haveVoted] and the voted fields. *)
Record Voted := MkVoted { haveVoted : bool; votedTime : TimeFields; votedQuality : double }.

(** [lastFrame] is the start and length of the last finalised minute
    ([haveLastFrame] false is [None]); [voter] the window of the voter. *)
Record Impl := MkImpl {
  lockState : ClockLockState; hist : list SecRec; count : Count; voted : Voted;
  lastFrame : option (Z * Z); lastFrameFrom : Z; voter : list Frame; blindSeconds : Z;
  calls : list Call
}.

Definition withCount (s : Impl) (c : Count) : Impl :=
  MkImpl (lockState s) (hist s) c (voted s) (lastFrame s) (lastFrameFrom s) (voter s)
         (blindSeconds s) (calls s).
Definition withVoted (s : Impl) (v : Voted) : Impl :=
  MkImpl (lockState s) (hist s) (count s) v (lastFrame s) (lastFrameFrom s) (voter s)
         (blindSeconds s) (calls s).
Definition withHist (s : Impl) (h : list SecRec) : Impl :=
  MkImpl (lockState s) h (count s) (voted s) (lastFrame s) (lastFrameFrom s) (voter s)
         (blindSeconds s) (calls s).
Definition withLast (s : Impl) (l : option (Z * Z)) : Impl :=
  MkImpl (lockState s) (hist s) (count s) (voted s) l (lastFrameFrom s) (voter s)
         (blindSeconds s) (calls s).
Definition withFrom (s : Impl) (from : Z) : Impl :=
  MkImpl (lockState s) (hist s) (count s) (voted s) (lastFrame s) from (voter s)
         (blindSeconds s) (calls s).
Definition withVoter (s : Impl) (fs : list Frame) : Impl :=
  MkImpl (lockState s) (hist s) (count s) (voted s) (lastFrame s) (lastFrameFrom s) fs
         (blindSeconds s) (calls s).
Definition withBlind (s : Impl) (b : Z) : Impl :=
  MkImpl (lockState s) (hist s) (count s) (voted s) (lastFrame s) (lastFrameFrom s) (voter s)
         b (calls s).
Definition call (s : Impl) (c : Call) : Impl :=
  MkImpl (lockState s) (hist s) (count s) (voted s) (lastFrame s) (lastFrameFrom s) (voter s)
         (blindSeconds s) (calls s ++ [c])%list.

Definition emptyCount : Count := MkCount false 0 (replicate 62 noSec) 0 0 0.
Definition noVote : Voted := MkVoted false (TF (-1) (-1) (-1) (-1)) 0.
(** The decoder once it has found the carrier. *)
Definition running : Impl := MkImpl LockAcquiring [] emptyCount noVote None 0 [] 0 [].

Definition withLock (s : Impl) (l : ClockLockState) : Impl :=
  MkImpl l (hist s) (count s) (voted s) (lastFrame s) (lastFrameFrom s) (voter s)
         (blindSeconds s) (calls s).
Definition setLockState (s : Impl) (l : ClockLockState) : Impl :=
  if bool_decide (l = lockState s) then s else call (withLock s l) (OnState l).

Definition secAt (fr : list SecRec) (i : Z) : SecRec := nth (Z.to_nat i) fr noSec.

(** ** Where the minute is *)

(** The identifier in the A bits of eight seconds: the loop's early returns and
    the single precision sum it makes on the way. *)
Fixpoint identifierSum (secs : list SecRec) (ident : list Z) (sum : double) : option double :=
  match secs, ident with
  | r :: secs, i :: ident =>
      if negb (read r) || negb (cut r) || (aConf r <? kIdBitMinConf)%D then None
      else if confMarker r kStructConf then None
      else if negb (bitA r =? i) then None
      else identifierSum secs ident (fadd sum (aConf r))
  | _, _ => Some sum
  end.
Definition identifierAt (secs : list SecRec) : bool :=
  match identifierSum secs kIdentifier 0 with
  | None => false
  | Some sum => (fmul 8 kIdMeanConf <=? sum)%D
  end.
Definition identifierInHist (h : list SecRec) : bool :=
  if (length h <? 8)%nat then false else identifierAt (drop (length h - 8) h).
Definition identifierEndsAt (c : Count) (last : Z) : bool :=
  if (last <? 7) || (frFilled c <=? last) then false
  else identifierAt (map (fun j => secAt (frame c) (last - 7 + Z.of_nat j)) (seq 0 8)).

Definition dropAnchor (s : Impl) : Impl :=
  let v := voted s in
  withVoted (withCount s emptyCount) (MkVoted false (votedTime v) (votedQuality v)).
Definition demote (s : Impl) : Impl :=
  let v := voted s in
  let s := withVoted s (MkVoted false (votedTime v) (votedQuality v)) in
  if bool_decide (lockState s = LockLocked) then setLockState s LockAcquiring else s.

Definition startFrame (s : Impl) (r : SecRec) : Impl :=
  let c := count s in
  withCount s (MkCount (anchored c) 1 (<[0%nat := r]> (replicate 62 noSec)) 1 (edge r) (unconfirmedRun c)).
Definition setAnchored (s : Impl) (a : bool) : Impl :=
  let c := count s in
  withCount s (MkCount a (sofNext c) (frame c) (frFilled c) (frStart c) (unconfirmedRun c)).
Definition setSofNext (s : Impl) (n : Z) : Impl :=
  let c := count s in
  withCount s (MkCount (anchored c) n (frame c) (frFilled c) (frStart c) (unconfirmedRun c)).
Definition setUnconfirmed (s : Impl) (n : Z) : Impl :=
  let c := count s in
  withCount s (MkCount (anchored c) (sofNext c) (frame c) (frFilled c) (frStart c) n).

(** ** The time code *)

(** Bit A or B of second [p] in a minute of [n] seconds, with its confidence. *)
Definition bitAt (c : Count) (n p : Z) (isA : bool) : option (Z * double) :=
  let fromEnd := if isA then 17 <=? p else 52 <=? p in
  let idx := if fromEnd then p + (n - 60) else p in
  if (idx <? 1) || (frFilled c <=? idx) then None
  else
    let r := secAt (frame c) idx in
    if negb (read r) || negb (cut r) || confMarker r kStructConf then None
    else
      let conf := if isA then aConf r else bConf r in
      if (kBitMinConf <=? conf)%D then Some (if isA then bitA r else bitB r, conf) else None.

(** The bits of [len] seconds from [p], all of which must read. *)
Fixpoint readBits (c : Count) (n p : Z) (isA : bool) (len : nat) : option (list (Z * double)) :=
  match len with
  | O => Some []
  | S len =>
      b ← bitAt c n p isA; bs ← readBits c n (p + 1) isA len; Some (b :: bs)
  end.

(** The two bit arrays, [A] from second 17 and [B] from second 53. *)
Definition bitOf (from : Z) (bits : list Z) (p : Z) : Z := nth (Z.to_nat (p - from)) bits 0.
Definition sumFrom (a : Z -> Z) (from to : Z) : Z :=
  fold_left (fun v i => v + a (from + Z.of_nat i)) (seq 0 (Z.to_nat (to - from + 1))) 0.
Definition oddOk (a b : Z -> Z) (from to pb : Z) : bool :=
  Z.land (b pb + sumFrom a from to) 1 =? 1.
Definition msb (a : Z -> Z) (from : Z) (weights : list Z) : Z :=
  fst (fold_left (fun '(v, p) wgt => (v + a p * wgt, p + 1)) weights (0, from)).
Definition digitsOk (a : Z -> Z) (from tensBits : Z) : bool :=
  fold_left (fun u i => u * 2 + a (from + tensBits + i)) [0; 1; 2; 3] 0 <=? 9.

(** DUT1: the ones of B01-B08 say plus, of B09-B16 minus. *)
Definition dut1Ones (c : Count) (n from : Z) : Z :=
  fold_left (fun k i => match bitAt c n (from + i) false with
                        | Some (bit, _) => if bit =? 0 then k else k + 1
                        | None => k end) [0; 1; 2; 3; 4; 5; 6; 7] 0.
Definition dut1 (pos neg : Z) : Z :=
  if (0 <? pos) && (neg =? 0) then pos else if (0 <? neg) && (pos =? 0) then - neg else 0.

(** What the bits say, if they can be believed. *)
Definition decodeBits (A B : list Z) (dut1Tenths : Z) : option Decoded :=
  let a := bitOf 17 A in
  let b := bitOf 53 B in
  if negb (oddOk a b 17 24 54) || negb (oddOk a b 25 35 55) ||
     negb (oddOk a b 36 38 56) || negb (oddOk a b 39 51 57) then None
  else if negb (digitsOk a 17 4) || negb (digitsOk a 25 1) || negb (digitsOk a 30 2) ||
          negb (digitsOk a 39 2) || negb (digitsOk a 45 3) then None
  else
    let year2 := msb a 17 [80; 40; 20; 10; 8; 4; 2; 1] in
    let month := msb a 25 [10; 8; 4; 2; 1] in
    let day := msb a 30 [20; 10; 8; 4; 2; 1] in
    let wday := msb a 36 [4; 2; 1] in
    let hour := msb a 39 [20; 10; 8; 4; 2; 1] in
    let minute := msb a 45 [40; 20; 10; 8; 4; 2; 1] in
    if (59 <? minute) || (23 <? hour) || (month <? 1) || (12 <? month) || (day <? 1) || (6 <? wday)
    then None
    else
      let days := daysFromCivil (2000 + year2) month day in
      let '(_, cm, cd) := civilFromDays days in
      if negb (cm =? month) || negb (cd =? day) then None
      else if negb (floorMod (days + 4) 7 =? wday) then None
      else
        let summer := b 58 =? 1 in
        let nextLocalMin := days * 1440 + hour * 60 + minute in
        let s0UtcMin := nextLocalMin - (if summer then 60 else 0) - 1 in
        let utcMs := s0UtcMin * 60000 in
        Some (MkDecoded minute hour day month year2 wday summer (b 53 =? 1) dut1Tenths
                        (hostNowFields utcMs) utcMs).

(** The decoded minute and the weakest of its bits' confidences. *)
Definition decode (c : Count) (n : Z) : option (Decoded * double) :=
  A ← readBits c n 17 true 35;
  B ← readBits c n 53 false 6;
  d ← decodeBits (map fst A) (map fst B) (dut1 (dut1Ones c n 1) (dut1Ones c n 9));
  Some (d, fold_left dmin (map snd A ++ map snd B) 1%D).

(** ** The minute ends *)

Definition syntheticFrame (dec : option (Decoded * double)) : Frame :=
  utcFrame (match dec with Some (d, c) => Some (d_utc d, fun _ => c) | None => None end).

Definition frameInfo (dec : option (Decoded * double)) (start : Z) : FrameInfo :=
  match dec with
  | None => MkFrameInfo TimeFields_none 0 false 0 start
  | Some (d, c) => MkFrameInfo (d_utc d) (d_dut1Tenths d) (d_summer d) c start
  end.

Definition idWrong (c : Count) (n : Z) : Z :=
  fold_left (fun k j =>
    let r := secAt (frame c) (n - 8 + j) in
    if (1 <=? n - 8 + j) && read r && cut r && (kStructConf <=? aConf r)%D &&
       negb (bitA r =? nth (Z.to_nat j) kIdentifier 0)
    then k + 1 else k) [0; 1; 2; 3; 4; 5; 6; 7] 0.
Definition strayMarks (c : Count) (n : Z) : Z :=
  fold_left (fun k i => if confMarker (secAt (frame c) (Z.of_nat i)) kStructConf then k + 1 else k)
            (seq 1 (Z.to_nat n - 1)) 0.

Definition contradicted (c : Count) (n : Z) : bool := (0 <? strayMarks c n) || (2 <=? idWrong c n).
Definition confirmed (c : Count) (n : Z) (endMarker : bool) : bool :=
  (n <=? frFilled c) && negb (contradicted c n) &&
  (identifierEndsAt c (n - 1) || confMarker (secAt (frame c) 0) kSyncConf && endMarker).

Section Decoder.
(** [cfg] is the voter's configuration: [buildVoterConfig] with the plausibility
    reference set. [sr] is the sample rate and [period] the tracked length of a
    second in samples. *)
Context `{Pow} (cfg : Config) (sr : Z).

(** The minute's start is a whole minute after the last one's. *)
Definition consecutive (s : Impl) (period : double) : bool :=
  match lastFrame s with
  | None => false
  | Some (start, len) =>
      (dabs (d_of_Z (frStart (count s) - start) - d_of_Z len * period) <=? 0.25 * d_of_Z sr)%D
  end.

(** The vote after a minute: its frame in, and the label if the voter locks. *)
Definition vote (s : Impl) (f : Frame) (keep : bool) : Impl :=
  let fs := addFrame cfg (if keep then voter s else reset (voter s)) f in
  let s := withVoter s fs in
  if l_locked (lockVerdict cfg fs)
  then withVoted s (MkVoted (haveVoted (voted s))
         (TF (votedField cfg fs FieldMinutes) (votedField cfg fs FieldHours)
             (votedField cfg fs FieldDoy) (votedField cfg fs FieldYear))
         (lockConfidence cfg fs))
  else s.

Definition finalizeFrame (s : Impl) (n : Z) (endMarker : bool) (period : double) : Impl :=
  let c := count s in
  let conf := confirmed c n endMarker in
  let run := if contradicted c n || conf then unconfirmedRun c else unconfirmedRun c + 1 in
  let s := setUnconfirmed s run in
  if contradicted c n || (negb conf && (kMaxUnconfirmedMinutes <? run)) then
    withLast (demote (dropAnchor s)) None
  else
    let s := if conf then setUnconfirmed s 0 else s in
    let dec := if conf then decode c n else None in
    let s := withFrom s (match dec with Some _ => 1 | None => 0 end) in
    let s := call s (OnFrame (frameInfo dec (frStart c))) in
    let keep := consecutive s period in
    let s := withLast s (Some (frStart c, n)) in
    let s := vote s (syntheticFrame dec) keep in
    if l_locked (lockVerdict cfg (voter s)) && conf && (n =? 60) then
      setLockState (withVoted s (MkVoted true (votedTime (voted s)) (votedQuality (voted s)))) LockLocked
    else demote s.

(** The second after a finalised minute is second 00 of the next, unless the
    anchor was let go and this second is no marker: -1. *)
Definition afterFinalize (s : Impl) (r : SecRec) (sof : Z) : Impl * Z :=
  if negb (anchored (count s)) && negb (confMarker r kStructConf) then (s, -1)
  else (startFrame (setAnchored s true) r, 0).

(** ** One second *)

(** Which second of the minute this is, and what that ends. *)
Definition countSecond (s : Impl) (r : SecRec) (period : double) : Impl * Z :=
  let c := count s in
  if negb (anchored c) then
    if confMarker r kSyncConf then (startFrame (setAnchored s true) r, 0)
    else if identifierInHist (hist s) then
      (withCount s (MkCount true 0 (frame c) 0 (frStart c) (unconfirmedRun c)), 59)
    else (s, -1)
  else
    let sof := sofNext c in
    if sof =? 0 then (startFrame s r, sof)
    else if (59 <=? sof) && confMarker r kStructConf then
      afterFinalize (finalizeFrame s sof true period) r sof
    else if (sof <? 59) && confMarker r kStructConf then
      (startFrame (setUnconfirmed (withLast (demote s) None) 0) r, 0)
    else if (60 <=? sof) && identifierEndsAt c (sof - 1) then
      afterFinalize (finalizeFrame s sof false period) r sof
    else if kFrameCap - 1 <=? sof then (demote (dropAnchor s), -1)
    else
      let c' := MkCount (anchored c) (sof + 1) (<[Z.to_nat sof := r]> (frame c)) (sof + 1)
                        (frStart c) (unconfirmedRun c) in
      let s := withCount s c' in
      if (58 <=? sof) && (sof <=? 60) && identifierEndsAt c' sof then
        let s := finalizeFrame s (sof + 1) false period in
        (if anchored (count s) then setSofNext s 0 else s, sof)
      else (s, sof).

Definition handleSecond (s : Impl) (r : SecRec) (measured : bool) (period : double) : Impl :=
  let '(s, sof) := countSecond s r period in
  let s := call s (OnSecond r measured sof) in
  if bool_decide (lockState s = LockLocked) && haveVoted (voted s) && (0 <=? sof) && (sof <? 60) then
    call s (OnTime (MkTimeInfo (votedTime (voted s)) (votedQuality (voted s)) (edge r) (edgeExact r) sof))
  else s.

(** The second as the running decoder takes it: the blind run, the history, the
    frame, and the search starting over after too long blind. *)
Definition processSecond (s : Impl) (r : SecRec) (measured : bool) (period : double) : Impl :=
  let s := withBlind s (if measured then 0 else blindSeconds s + 1) in
  let h := (hist s ++ [r])%list in
  let s := withHist s (if (16 <? length h)%nat then drop 1 h else h) in
  let s := handleSecond s r measured period in
  if kMaxBlindSeconds <=? blindSeconds s then
    let s := if bool_decide (lockState s = LockLocked) then setLockState s LockAcquiring else s in
    withHist (dropAnchor (withBlind s 0)) []
  else s.

Definition run (s : Impl) (secs : list (SecRec * bool * double)) : Impl :=
  fold_left (fun s '(r, m, p) => processSecond s r m p) secs s.

End Decoder.

(** ** What the station sends *)

(** UK clock time as the time code has it. *)
Record UkTime := MkUk {
  uk_year2 : Z; uk_month : Z; uk_day : Z; uk_wday : Z; uk_hour : Z; uk_minute : Z
}.
(** Minute [m] of the Unix epoch, read as local time. *)
Definition ukTime (m : Z) : UkTime :=
  let days := m / 1440 in
  let '(y, mo, d) := civilFromDays days in
  MkUk (y - 2000) mo d ((days + 4) mod 7) (m mod 1440 / 60) (m mod 60).

Definition bitsOf (w : nat) (v : Z) : list Z :=
  map (fun i => Z.b2z (Z.testbit v (Z.of_nat i))) (rev (seq 0 w)).
(** BCD, most significant bit first, the tens in [t] bits. *)
Definition bcd (t : nat) (v : Z) : list Z := (bitsOf t (v / 10) ++ bitsOf 4 (v mod 10))%list.
(** The bit that makes the ones of a group odd. *)
Definition parityBit (group : list Z) : Z := 1 - sumZ group mod 2.

Definition dateBits (u : UkTime) : list Z := (bcd 1 (uk_month u) ++ bcd 2 (uk_day u))%list.
Definition clockBits (u : UkTime) : list Z := (bcd 2 (uk_hour u) ++ bcd 3 (uk_minute u))%list.
(** Bits 17A to 51A, and 53B to 58B. *)
Definition timeBits (u : UkTime) : list Z :=
  (bcd 4 (uk_year2 u) ++ dateBits u ++ bitsOf 3 (uk_wday u) ++ clockBits u)%list.
Definition controlBits (u : UkTime) (summer soon : bool) : list Z :=
  [Z.b2z soon; parityBit (bcd 4 (uk_year2 u)); parityBit (dateBits u);
   parityBit (bitsOf 3 (uk_wday u)); parityBit (clockBits u); Z.b2z summer].

(** The minute that starts at UTC [t] carries the local time of the next. *)
Definition utcMinute (t : TimeFields) : Z :=
  utcMsFromFields (tf_year2 t) (tf_doy t) (tf_hour t) (tf_minute t) / 60000.
Definition localOf (t : TimeFields) (summer : bool) : UkTime :=
  ukTime (utcMinute t + 1 + (if summer then 60 else 0)).

(** The frame's readable bits are those of the minute that starts at [t]. *)
Definition carries (c : Count) (n : Z) (t : TimeFields) (summer soon : bool) : Prop :=
  (forall p, 17 <= p <= 51 -> fst <$> bitAt c n p true = Some (bitOf 17 (timeBits (localOf t summer)) p)) /\
  (forall p, 53 <= p <= 58 -> fst <$> bitAt c n p false = Some (bitOf 53 (controlBits (localOf t summer) summer soon) p)).

(** ** Lemmas: reading bits *)

Lemma readBits_Some c n isA len : forall p bs,
  readBits c n p isA len = Some bs ->
  length bs = len /\ forall i, (i < len)%nat -> bitAt c n (p + Z.of_nat i) isA = nth_error bs i.
Proof.
  induction len as [|len IH]; cbn [readBits]; intros p bs E.
  - injection E as <-. split; [done|lia].
  - destruct (bitAt c n p isA) as [b|] eqn:Eb; [|discriminate]. cbn [mbind option_bind] in E.
    destruct (readBits c n (p + 1) isA len) as [bs'|] eqn:Er; [|discriminate].
    cbn in E. injection E as <-. destruct (IH _ _ Er) as [L F]. split; [cbn; lia|].
    intros [|i] Hi; [by rewrite Z.add_0_r|]. cbn [nth_error]. rewrite <- F by lia. f_equal. lia.
Qed.

Lemma readBits_of c n isA len a : forall p,
  (forall i, (i < len)%nat -> fst <$> bitAt c n (p + Z.of_nat i) isA = Some (a (p + Z.of_nat i))) ->
  exists bs, readBits c n p isA len = Some bs /\ map fst bs = map (fun i => a (p + Z.of_nat i)) (seq 0 len).
Proof.
  induction len as [|len IH]; intros p F; [by exists []|]. cbn [readBits].
  pose proof (F O ltac:(lia)) as F0. rewrite Z.add_0_r in F0.
  destruct (bitAt c n p isA) as [b|]; [|discriminate]. cbn in F0. injection F0 as F0.
  destruct (IH (p + 1)) as (bs & E & M).
  { intros i Hi. replace (p + 1 + Z.of_nat i) with (p + Z.of_nat (S i)) by lia. apply F. lia. }
  exists (b :: bs). rewrite E. split; [done|]. cbn [map seq]. rewrite F0, Z.add_0_r, M. f_equal.
  rewrite <- seq_shift, map_map. apply map_ext. intros i. f_equal. lia.
Qed.

Lemma bitOf_list from l : map (fun i => bitOf from l (from + Z.of_nat i)) (seq 0 (length l)) = l.
Proof.
  transitivity (map (fun i => nth i l 0) (seq 0 (length l))).
  - apply map_ext. intros i. unfold bitOf. f_equal. lia.
  - induction l as [|x l IH]; [done|]. cbn [length seq map nth]. by rewrite <- seq_shift, map_map, IH.
Qed.

(** A field is what its own bits say, wherever it stands. *)
Lemma bitOf_mid from pre mid post i :
  (i < length mid)%nat ->
  bitOf from (pre ++ mid ++ post) (from + Z.of_nat (length pre) + Z.of_nat i) = bitOf 0 mid (Z.of_nat i).
Proof.
  intros Hi. unfold bitOf. rewrite app_nth2 by lia. rewrite app_nth1 by lia. f_equal. lia.
Qed.

Lemma msb_local a a' from from' ws :
  (forall i, (i < length ws)%nat -> a (from + Z.of_nat i) = a' (from' + Z.of_nat i)) ->
  msb a from ws = msb a' from' ws.
Proof.
  unfold msb. generalize 0. revert from from'. induction ws as [|w ws IH]; intros from from' v E; [done|].
  cbn [fold_left]. pose proof (E O ltac:(cbn; lia)) as E0. rewrite !Z.add_0_r in E0. rewrite E0.
  apply IH. intros i Hi. specialize (E (S i) ltac:(cbn; lia)).
  by replace (from + 1 + Z.of_nat i) with (from + Z.of_nat (S i)) by lia;
     replace (from' + 1 + Z.of_nat i) with (from' + Z.of_nat (S i)) by lia.
Qed.

Lemma fold_seq_shift {A} (g : A -> Z -> A) len : forall k acc,
  fold_left (fun v i => g v (Z.of_nat i)) (seq k len) acc =
  fold_left g (map (fun i => Z.of_nat i) (seq k len)) acc.
Proof. induction len as [|len IH]; intros; cbn; [done|apply IH]. Qed.

Lemma fold_add_sumZ l : forall acc, fold_left Z.add l acc = acc + sumZ l.
Proof. unfold sumZ. induction l as [|x l IH]; intros acc; cbn; [lia|rewrite IH; lia]. Qed.

Lemma sumFrom_sumZ a from to : sumFrom a from to = sumZ (map (fun i => a (from + Z.of_nat i)) (seq 0 (Z.to_nat (to - from + 1)))).
Proof.
  unfold sumFrom. rewrite <- (Z.add_0_l (sumZ _)), <- fold_add_sumZ. generalize (seq 0 (Z.to_nat (to - from + 1))) 0.
  induction l as [|i l IH]; intros v; cbn; [done|apply IH].
Qed.

Lemma sumFrom_list a from to l :
  to = from + Z.of_nat (length l) - 1 ->
  (forall i, (i < length l)%nat -> a (from + Z.of_nat i) = bitOf 0 l (Z.of_nat i)) ->
  sumFrom a from to = sumZ l.
Proof.
  intros -> E. rewrite sumFrom_sumZ. replace (Z.to_nat _) with (length l) by lia.
  rewrite <- (bitOf_list 0 l) at 2. f_equal. apply map_ext_in. intros i Hi. rewrite in_seq in Hi.
  rewrite E by lia. done.
Qed.

Lemma digitsOk_local a a' from from' t :
  (forall i, (i < Z.to_nat t + 4)%nat -> a (from + Z.of_nat i) = a' (from' + Z.of_nat i)) -> 0 <= t ->
  digitsOk a from t = digitsOk a' from' t.
Proof.
  intros E Ht. unfold digitsOk. f_equal. apply fold_left_ext_in. intros u x Hx.
  assert (0 <= x <= 3) by (cbn in Hx; lia). f_equal.
  specialize (E (Z.to_nat (t + x)) ltac:(lia)). rewrite Z2Nat.id in E by lia.
  by rewrite !Z.add_assoc in E.
Qed.

(** *** What the broadcast bits decode to *)

(** A field's digits and value, checked over its whole range. *)
Definition bcdReads (t : nat) (ws : list Z) (v : Z) : bool :=
  (msb (bitOf 0 (bcd t v)) 0 ws =? v) && digitsOk (bitOf 0 (bcd t v)) 0 (Z.of_nat t).

Lemma bcdReads_year v : 0 <= v <= 99 -> bcdReads 4 [80; 40; 20; 10; 8; 4; 2; 1] v = true.
Proof. apply (range_check _ 99). vm_compute. reflexivity. Qed.
Lemma bcdReads_month v : 0 <= v <= 12 -> bcdReads 1 [10; 8; 4; 2; 1] v = true.
Proof. apply (range_check _ 12). vm_compute. reflexivity. Qed.
Lemma bcdReads_six v : 0 <= v <= 31 -> bcdReads 2 [20; 10; 8; 4; 2; 1] v = true.
Proof. apply (range_check _ 31). vm_compute. reflexivity. Qed.
Lemma bcdReads_minute v : 0 <= v <= 59 -> bcdReads 3 [40; 20; 10; 8; 4; 2; 1] v = true.
Proof. apply (range_check _ 59). vm_compute. reflexivity. Qed.
Lemma wdayReads v : 0 <= v <= 6 -> msb (bitOf 0 (bitsOf 3 v)) 0 [4; 2; 1] = v.
Proof. intros. apply Z.eqb_eq. apply (range_check (fun v => msb (bitOf 0 (bitsOf 3 v)) 0 [4; 2; 1] =? v) 6); [reflexivity|done]. Qed.

Lemma parity_odd l : Z.land (parityBit l + sumZ l) 1 = 1.
Proof.
  change 1 with (Z.ones 1) at 1. rewrite Z.land_ones by lia. change (2 ^ 1) with 2. unfold parityBit. dlia.
Qed.

(** The slots of the time code, by position. *)
Ltac slots := intros i Hi; cbn in Hi;
  do 14 (destruct i as [|i]; [first [lia|reflexivity]|]); lia.

Section TimeBits.
Context (u : UkTime) (summer soon : bool).
Local Abbreviation a := (bitOf 17 (timeBits u)).
Local Abbreviation b := (bitOf 53 (controlBits u summer soon)).

Lemma timeBits_parity :
  oddOk a b 17 24 54 = true /\ oddOk a b 25 35 55 = true /\
  oddOk a b 36 38 56 = true /\ oddOk a b 39 51 57 = true.
Proof.
  unfold oddOk. rewrite (sumFrom_list a 17 24 (bcd 4 (uk_year2 u))), (sumFrom_list a 25 35 (dateBits u)),
    (sumFrom_list a 36 38 (bitsOf 3 (uk_wday u))), (sumFrom_list a 39 51 (clockBits u)) by (reflexivity || slots).
  repeat split; apply Z.eqb_eq, parity_odd.
Qed.

Lemma timeBits_field t tz ws from v :
  Z.of_nat t = tz -> bcdReads t ws v = true -> length ws = (t + 4)%nat ->
  (forall i, (i < t + 4)%nat -> a (from + Z.of_nat i) = bitOf 0 (bcd t v) (0 + Z.of_nat i)) ->
  msb a from ws = v /\ digitsOk a from tz = true.
Proof.
  unfold bcdReads. intros <- R L E. zbool. split.
  - rewrite (msb_local a (bitOf 0 (bcd t v)) from 0); [lia|]. rewrite L. exact E.
  - rewrite (digitsOk_local a (bitOf 0 (bcd t v)) from 0); [done| |lia]. rewrite Nat2Z.id. exact E.
Qed.
End TimeBits.

Definition ukOk (u : UkTime) : Prop :=
  0 <= uk_year2 u <= 99 /\ validDate (2000 + uk_year2 u) (uk_month u) (uk_day u) /\
  uk_wday u = (daysFromCivil (2000 + uk_year2 u) (uk_month u) (uk_day u) + 4) mod 7 /\
  0 <= uk_hour u <= 23 /\ 0 <= uk_minute u <= 59.

Lemma decodeBits_broadcast (u : UkTime) (summer soon : bool) (dut : Z) :
  ukOk u ->
  let utcMs := (daysFromCivil (2000 + uk_year2 u) (uk_month u) (uk_day u) * 1440 + uk_hour u * 60 + uk_minute u
                - (if summer then 60 else 0) - 1) * 60000 in
  decodeBits (timeBits u) (controlBits u summer soon) dut =
  Some (MkDecoded (uk_minute u) (uk_hour u) (uk_day u) (uk_month u) (uk_year2 u) (uk_wday u)
                  summer soon dut (hostNowFields utcMs) utcMs).
Proof.
  intros (Hy & V & Hw & Hh & Hm) utcMs. pose proof (validDate_day _ _ _ V) as [Hmo Hd].
  assert (W : 0 <= uk_wday u <= 6) by (rewrite Hw; dlia).
  unfold decodeBits. destruct (timeBits_parity u summer soon) as (-> & -> & -> & ->). cbn [negb orb].
  destruct (timeBits_field u 4 4 _ 17 _ eq_refl (bcdReads_year _ Hy) eq_refl ltac:(slots)) as [E1 ->].
  destruct (timeBits_field u 1 1 _ 25 _ eq_refl (bcdReads_month (uk_month u) ltac:(lia)) eq_refl ltac:(slots)) as [E2 ->].
  destruct (timeBits_field u 2 2 _ 30 _ eq_refl (bcdReads_six (uk_day u) ltac:(lia)) eq_refl ltac:(slots)) as [E3 ->].
  destruct (timeBits_field u 2 2 _ 39 _ eq_refl (bcdReads_six (uk_hour u) ltac:(lia)) eq_refl ltac:(slots)) as [E4 ->].
  destruct (timeBits_field u 3 3 _ 45 _ eq_refl (bcdReads_minute (uk_minute u) Hm) eq_refl ltac:(slots)) as [E5 ->].
  assert (E6 : msb (bitOf 17 (timeBits u)) 36 [4; 2; 1] = uk_wday u).
  { rewrite (msb_local _ (bitOf 0 (bitsOf 3 (uk_wday u))) 36 0) by slots. by apply wdayReads. }
  rewrite E1, E2, E3, E4, E5, E6. cbn [negb orb].
  destruct (Z.ltb_spec 59 (uk_minute u)); [lia|]. destruct (Z.ltb_spec 23 (uk_hour u)); [lia|].
  destruct (Z.ltb_spec (uk_month u) 1); [lia|]. destruct (Z.ltb_spec 12 (uk_month u)); [lia|].
  destruct (Z.ltb_spec (uk_day u) 1); [lia|]. destruct (Z.ltb_spec 6 (uk_wday u)); [lia|]. cbn [orb].
  rewrite civil_of_days by (done || (unfold yearRange; lia)).
  rewrite !Z.eqb_refl, floorMod_mod, <- Hw, Z.eqb_refl by lia. cbn [negb orb].
  change (bitOf 53 (controlBits u summer soon) 58) with (Z.b2z summer).
  change (bitOf 53 (controlBits u summer soon) 53) with (Z.b2z soon).
  by destruct summer, soon.
Qed.

Lemma ukTime_spec m :
  dayRange (m / 1440) -> 2000 <= fst (fst (civilFromDays (m / 1440))) <= 2099 ->
  ukOk (ukTime m) /\
  daysFromCivil (2000 + uk_year2 (ukTime m)) (uk_month (ukTime m)) (uk_day (ukTime m)) * 1440 +
    uk_hour (ukTime m) * 60 + uk_minute (ukTime m) = m.
Proof.
  intros R Y. pose proof (days_of_civil _ R) as D. unfold ukOk, ukTime.
  destruct (civilFromDays (m / 1440)) as [[y mo] d]. cbn [fst snd uk_year2 uk_month uk_day uk_wday uk_hour uk_minute] in *.
  destruct D as [V E]. replace (2000 + (y - 2000)) with y by lia. rewrite E.
  repeat split; try apply V; dlia.
Qed.

Lemma utcMs_minute t : rangeValid t = true ->
  utcMinute t * 60000 = utcMsFromFields (tf_year2 t) (tf_doy t) (tf_hour t) (tf_minute t) /\
  dayRange ((utcMinute t + 1 + 60) / 1440) /\ dayRange ((utcMinute t + 1 + 0) / 1440).
Proof.
  rewrite rangeValid_spec. intros (Hm & Hh & Hd & Hy). pose proof (yearLen_range (tf_year2 t)).
  unfold utcMinute, utcMsFromFields. rewrite daysFromCivil_plain by lia. cbn zeta.
  change (1 <=? 2) with true. cbn [Z.b2z]. unfold dayOfEra. change (monthDays 1) with 306.
  unfold dayRange. dlia.
Qed.

Lemma decode_carries c n t summer soon :
  rangeValid t = true -> 0 <= uk_year2 (localOf t summer) <= 99 -> carries c n t summer soon ->
  exists d conf, decode c n = Some (d, conf) /\ d_utc d = t /\ d_summer d = summer /\
    d_summerSoon d = soon /\ d_utcMs d = utcMinute t * 60000.
Proof.
  intros V Y [CA CB]. destruct (utcMs_minute t V) as (M & R1 & R2).
  destruct (readBits_of c n true 35 (bitOf 17 (timeBits (localOf t summer))) 17) as (A & EA & MA).
  { intros i Hi. apply CA. lia. }
  destruct (readBits_of c n false 6 (bitOf 53 (controlBits (localOf t summer) summer soon)) 53) as (B & EB & MB).
  { intros i Hi. apply CB. lia. }
  assert (LA : map fst A = timeBits (localOf t summer)) by (rewrite MA; apply (bitOf_list 17)).
  assert (LB : map fst B = controlBits (localOf t summer) summer soon) by (rewrite MB; apply (bitOf_list 53)).
  unfold decode. rewrite EA. cbn [mbind option_bind]. rewrite EB. cbn [mbind option_bind]. rewrite LA, LB.
  destruct (ukTime_spec (utcMinute t + 1 + (if summer then 60 else 0))) as [Uk E].
  { by destruct summer. }
  { unfold localOf, ukTime in Y. destruct (civilFromDays _) as [[y mo] d]. cbn in *. lia. }
  fold (localOf t summer) in Uk, E. rewrite decodeBits_broadcast by done. cbn zeta. rewrite E.
  cbn [mbind option_bind].
  replace (_ - (if summer then 60 else 0) - 1) with (utcMinute t) by lia.
  do 2 eexists. split; [reflexivity|]. cbn. rewrite M. repeat split.
  rewrite <- (Z.add_0_r (utcMsFromFields _ _ _ _)). by apply hostNow_utcMs.
Qed.

(** *** Parity *)

(** First and last A second of a group, and the B second of its parity bit. *)
Definition parityGroups : list (Z * Z * Z) := [(17, 24, 54); (25, 35, 55); (36, 38, 56); (39, 51, 57)].
Definition bitVal (c : Count) (n p : Z) (isA : bool) : Z := default 0 (fst <$> bitAt c n p isA).
Definition groupOnes (c : Count) (n : Z) (g : Z * Z * Z) : Z :=
  let '(from, to, pb) := g in
  bitVal c n pb false + sumZ (map (fun i => bitVal c n (from + Z.of_nat i) true) (seq 0 (Z.to_nat (to - from + 1)))).
(** How many bits of a group read differently in two minutes. *)
Definition flips (c c' : Count) (n : Z) (g : Z * Z * Z) : Z :=
  let differ p isA := if bitVal c n p isA =? bitVal c' n p isA then 0 else 1 in
  let '(from, to, pb) := g in
  differ pb false + sumZ (map (fun i => differ (from + Z.of_nat i) true) (seq 0 (Z.to_nat (to - from + 1)))).
Definition binary (c : Count) : Prop :=
  Forall (fun r => (bitA r = 0 \/ bitA r = 1) /\ (bitB r = 0 \/ bitB r = 1)) (frame c).

Lemma bitVal_binary c n p isA : binary c -> bitVal c n p isA = 0 \/ bitVal c n p isA = 1.
Proof.
  intros B. unfold bitVal, bitAt. generalize (if if isA then 17 <=? p else 52 <=? p then p + (n - 60) else p) as idx. intros idx. destruct (_ || _); [by left|].
  destruct (_ || _); [by left|]. destruct (_ <=? _)%D; [|by left]. cbn.
  assert (R : (bitA (secAt (frame c) idx) = 0 \/ bitA (secAt (frame c) idx) = 1) /\
              (bitB (secAt (frame c) idx) = 0 \/ bitB (secAt (frame c) idx) = 1)).
  { unfold secAt. destruct (nth_in_or_default (Z.to_nat idx) (frame c) noSec) as [I|E].
    - unfold binary in B. rewrite Forall_forall in B. by apply B, list_elem_of_In.
    - rewrite E. cbn. lia. }
  destruct isA; apply R.
Qed.

Lemma readBits_bitVal c n isA len p bs :
  readBits c n p isA len = Some bs ->
  forall q, p <= q < p + Z.of_nat len -> bitOf p (map fst bs) q = bitVal c n q isA.
Proof.
  intros E q Hq. destruct (readBits_Some _ _ _ _ _ _ E) as [L F]. specialize (F (Z.to_nat (q - p)) ltac:(lia)).
  rewrite Z2Nat.id in F by lia. replace (p + (q - p)) with q in F by lia.
  unfold bitOf, bitVal. rewrite F.
  destruct (nth_error bs (Z.to_nat (q - p))) as [[b cf]|] eqn:En; [|apply nth_error_None in En; lia].
  cbn. apply nth_error_nth. by rewrite nth_error_map, En.
Qed.

Lemma decode_parity c n r g : decode c n = Some r -> In g parityGroups -> groupOnes c n g mod 2 = 1.
Proof.
  unfold decode. intros E Hg. destruct (readBits c n 17 true 35) as [A|] eqn:EA; [|discriminate]. cbn [mbind option_bind] in E.
  destruct (readBits c n 53 false 6) as [B|] eqn:EB; [|discriminate]. cbn [mbind option_bind] in E.
  pose proof (readBits_bitVal _ _ _ _ _ _ EA) as FA. pose proof (readBits_bitVal _ _ _ _ _ _ EB) as FB.
  assert (G : forall from to pb, 17 <= from -> to <= 51 -> 53 <= pb <= 58 ->
    oddOk (bitOf 17 (map fst A)) (bitOf 53 (map fst B)) from to pb = true -> groupOnes c n (from, to, pb) mod 2 = 1).
  { intros from to pb Hf Ht Hp O. unfold oddOk in O. apply Z.eqb_eq in O.
    change 1 with (Z.ones 1) in O at 1. rewrite Z.land_ones in O by lia. change (2 ^ 1) with 2 in O.
    unfold groupOnes. rewrite <- FB by lia. rewrite sumFrom_sumZ in O. etransitivity; [|exact O]. f_equal. f_equal. f_equal.
    apply map_ext_in. intros i Hi. rewrite in_seq in Hi. symmetry. apply FA. lia. }
  destruct (decodeBits _ _ _) as [d|] eqn:ED; [|discriminate]. unfold decodeBits in ED.
  destruct (oddOk _ _ 17 24 54) eqn:E1; [|discriminate]. destruct (oddOk _ _ 25 35 55) eqn:E2; [|discriminate].
  destruct (oddOk _ _ 36 38 56) eqn:E3; [|discriminate]. destruct (oddOk _ _ 39 51 57) eqn:E4; [|discriminate].
  destruct Hg as [<-|[<-|[<-|[<-|[]]]]]; apply G; (done || lia).
Qed.

Lemma flips_parity c c' n g : binary c -> binary c' ->
  (groupOnes c n g + flips c c' n g) mod 2 = groupOnes c' n g mod 2.
Proof.
  intros B B'. destruct g as [[from to] pb]. unfold groupOnes, flips.
  assert (One : forall p isA, exists k,
    bitVal c n p isA + (if bitVal c n p isA =? bitVal c' n p isA then 0 else 1) = bitVal c' n p isA + 2 * k).
  { intros p isA. destruct (bitVal_binary c n p isA B) as [-> | ->], (bitVal_binary c' n p isA B') as [-> | ->];
      cbn; [exists 0|exists 0|exists 1|exists 0]; lia. }
  assert (Sum : forall l, exists k,
    sumZ (map (fun i => bitVal c n (from + Z.of_nat i) true) l) +
    sumZ (map (fun i => if bitVal c n (from + Z.of_nat i) true =? bitVal c' n (from + Z.of_nat i) true then 0 else 1) l) =
    sumZ (map (fun i => bitVal c' n (from + Z.of_nat i) true) l) + 2 * k).
  { induction l as [|i l [k IH]]; [by exists 0|]. destruct (One (from + Z.of_nat i) true) as [j Hj].
    exists (k + j). unfold sumZ in *. cbn [map foldr]. lia. }
  destruct (One pb false) as [j Hj]. destruct (Sum (seq 0 (Z.to_nat (to - from + 1)))) as [k Hk].
  rewrite <- (Z_mod_plus_full (bitVal c' n pb false + _) (j + k) 2). f_equal. lia.
Qed.

(** *** The frame made for the voter *)

Lemma synthetic_transmits cfg d conf :
  fields cfg = wwvbFields -> rangeValid (d_utc d) = true ->
  transmits cfg (syntheticFrame (Some (d, conf))) (d_utc d).
Proof. apply utcFrame_transmits. Qed.

Lemma synthetic_frameOk dec : (forall d c, dec = Some (d, c) -> dnan c = false) -> frameOk (syntheticFrame dec).
Proof. intros N. apply utcFrame_ok. destruct dec as [[d c]|]; [|done]. intros t f [= <- <-] _. by apply (N d). Qed.

(** ** Lemmas: the decoder's state *)

Definition notTime (c : Call) : Prop := match c with OnTime _ => False | _ => True end.
(** Calls are only added, none of them a label. *)
Definition grows : Impl -> Impl -> Prop := grew calls notTime.

Lemma grows_refl s s' : calls s' = calls s -> grows s s'.
Proof. apply grew_refl. Qed.
Lemma grows_trans s1 s2 s3 : grows s1 s2 -> grows s2 s3 -> grows s1 s3.
Proof. apply grew_trans. Qed.
Lemma grows_call s c : notTime c -> grows s (call s c).
Proof. by apply grew_call. Qed.
Lemma grows_lock s l : grows s (setLockState s l).
Proof. unfold setLockState. case_bool_decide; [by apply grows_refl|]. by apply (grows_call (withLock s l)). Qed.
Lemma grows_demote s : grows s (demote s).
Proof.
  unfold demote. set (s1 := withVoted _ _). assert (G : grows s s1) by by apply grows_refl. clearbody s1.
  case_bool_decide; [|done]. eapply grows_trans; [exact G|apply grows_lock].
Qed.

Lemma demote_fields s :
  count (demote s) = count s /\ voter (demote s) = voter s /\ blindSeconds (demote s) = blindSeconds s /\
  haveVoted (voted (demote s)) = false /\ lockState (demote s) <> LockLocked.
Proof.
  unfold demote, setLockState. case_bool_decide as D; cbn in *; [|done].
  rewrite D. case_bool_decide; done.
Qed.
Lemma lock_fields s l :
  count (setLockState s l) = count s /\ voter (setLockState s l) = voter s /\
  voted (setLockState s l) = voted s /\ lockState (setLockState s l) = l /\
  blindSeconds (setLockState s l) = blindSeconds s.
Proof. unfold setLockState. case_bool_decide as D; cbn; by rewrite ?D. Qed.

(** The frame index stays inside its 62 slots, and no more than two minutes run
    unconfirmed. *)
Definition countOk (c : Count) : Prop :=
  0 <= sofNext c <= 61 /\ 0 <= frFilled c <= 61 /\ length (frame c) = 62%nat /\
  0 <= unconfirmedRun c <= kMaxUnconfirmedMinutes.

Section Labels.
Context `{Pow} (cfg : Config) (sr : Z).

(** A standing label is the voter's, and the voter is locked. *)
Definition labelOk (s : Impl) : Prop :=
  if haveVoted (voted s) then
    lockState s = LockLocked /\ l_locked (lockVerdict cfg (voter s)) = true /\
    votedTime (voted s) = votedTimestamp cfg (voter s)
  else lockState s <> LockLocked.

Definition Inv (s : Impl) : Prop := countOk (count s) /\ labelOk s.

Lemma demote_inv s : countOk (count s) -> Inv (demote s).
Proof.
  intros C. destruct (demote_fields s) as (E1 & E2 & E3 & E4 & E5). split; [by rewrite E1|].
  unfold labelOk. by rewrite E4.
Qed.

Lemma emptyCount_ok : countOk emptyCount.
Proof. by repeat split. Qed.

Lemma startFrame_inv s r : Inv s -> Inv (startFrame s r).
Proof.
  intros [(Hs & Hf & Hl & Hu) L]. split; [|exact L].
  unfold countOk, startFrame. cbn [count withCount sofNext frFilled frame unconfirmedRun].
  rewrite length_insert, length_replicate. repeat split; lia.
Qed.
Lemma withLabelSame s s' :
  voted s' = voted s -> lockState s' = lockState s -> voter s' = voter s -> labelOk s -> labelOk s'.
Proof. unfold labelOk. by intros -> -> ->. Qed.

(** What the vote leaves: the new window, and its label if it is locked. *)
Lemma vote_fields (s : Impl) (f : Frame) (keep : bool) :
  let fs := addFrame cfg (if keep then voter s else reset (voter s)) f in
  voter (vote cfg s f keep) = fs /\ count (vote cfg s f keep) = count s /\
  calls (vote cfg s f keep) = calls s /\ blindSeconds (vote cfg s f keep) = blindSeconds s /\
  lockState (vote cfg s f keep) = lockState s /\
  (l_locked (lockVerdict cfg fs) = true -> votedTime (voted (vote cfg s f keep)) = votedTimestamp cfg fs).
Proof.
  cbn zeta. unfold vote. destruct (l_locked _) eqn:E; cbn; rewrite ?E; repeat split; try done.
  intros _. apply votedFields_timestamp.
Qed.

Lemma finalizeFrame_inv s n endMarker period :
  Inv s -> Inv (finalizeFrame cfg sr s n endMarker period) /\ grows s (finalizeFrame cfg sr s n endMarker period).
Proof.
  intros [(Hs & Hf & Hl & Hu) L]. unfold finalizeFrame. cbn zeta.
  set (c := count s) in *. set (conf := confirmed c n endMarker).
  set (run := if contradicted c n || conf then unconfirmedRun c else unconfirmedRun c + 1).
  assert (Hr : 0 <= run <= kMaxUnconfirmedMinutes + 1) by (unfold run; destruct (_ || _); lia).
  destruct (contradicted c n || negb conf && (kMaxUnconfirmedMinutes <? run)) eqn:E.
  { split.
    - pose proof (demote_inv (dropAnchor (setUnconfirmed s run)) emptyCount_ok) as D. exact D.
    - apply (grows_trans _ (dropAnchor (setUnconfirmed s run))); [by apply grows_refl|].
      exact (grows_demote (dropAnchor (setUnconfirmed s run))). }
  set (s1 := if conf then setUnconfirmed _ 0 else _).
  assert (C1 : countOk (count s1) /\ calls s1 = calls s).
  { unfold s1. destruct conf; cbn in E |- *.
    - split; [|done]. unfold countOk. cbn. unfold kMaxUnconfirmedMinutes in *. repeat split; (done || lia || (fold c; lia)).
    - split; [|done]. unfold countOk. cbn. fold c. apply orb_false_iff in E as [_ E].
      apply Z.ltb_ge in E. repeat split; (done || lia). }
  destruct C1 as [C1 K1]. clearbody s1.
  set (dec := if conf then decode c n else None). clearbody dec.
  set (s2 := withLast _ _). assert (C2 : countOk (count s2) /\ grows s s2).
  { split; [exact C1|]. eexists [_]. split; [cbn; by rewrite K1|by repeat constructor]. }
  destruct C2 as [C2 G2]. clearbody s2. set (keep := consecutive _ _ _). clearbody keep.
  destruct (vote_fields s2 (syntheticFrame dec) keep) as (V1 & V2 & V3 & V4 & V5 & V6).
  set (s3 := vote _ _ _ _) in *. rewrite V1.
  assert (G3 : grows s s3) by (apply (grows_trans _ s2 _ G2), grows_refl, V3).
  clearbody s3.
  destruct (l_locked _ && conf && (n =? 60)) eqn:Lk.
  - zbool. destruct (lock_fields (withVoted s3 (MkVoted true (votedTime (voted s3)) (votedQuality (voted s3)))) LockLocked)
      as (F1 & F2 & F3 & F4 & F5). split.
    + split; [by rewrite F1; cbn; rewrite V2|]. unfold labelOk. rewrite F3, F4, F2. cbn. rewrite V1. by rewrite V6.
    + eapply grows_trans; [exact G3|]. apply (grows_lock (withVoted s3 _)).
  - split; [apply demote_inv; by rewrite V2|]. eapply grows_trans; [exact G3|apply grows_demote].
Qed.

Lemma afterFinalize_inv s r sof :
  Inv s -> Inv (fst (afterFinalize s r sof)) /\ grows s (fst (afterFinalize s r sof)).
Proof.
  intros I. unfold afterFinalize. destruct (_ && _); [split; [done|by apply grows_refl]|].
  split; [|by apply grows_refl]. apply startFrame_inv. exact I.
Qed.

Lemma countSecond_inv s r period :
  Inv s -> Inv (fst (countSecond cfg sr s r period)) /\ grows s (fst (countSecond cfg sr s r period)).
Proof.
  intros I. unfold countSecond. destruct I as [C L]. pose proof C as (Hs & Hf & Hl & Hu).
  destruct (negb (anchored (count s))).
  { destruct (confMarker r kSyncConf); [split; [by apply startFrame_inv|by apply grows_refl]|].
    destruct (identifierInHist (hist s)); [|split; [done|by apply grows_refl]].
    split; [|by apply grows_refl]. split; [|exact L]. unfold countOk. cbn. repeat split; (done || lia). }
  destruct (Z.eqb_spec (sofNext (count s)) 0); [split; [by apply startFrame_inv|by apply grows_refl]|].
  assert (Fin : forall n m, let q := afterFinalize (finalizeFrame cfg sr s n m period) r (sofNext (count s)) in
    Inv (fst q) /\ grows s (fst q)).
  { intros k m. destruct (finalizeFrame_inv s k m period (conj C L)) as [I1 G1].
    destruct (afterFinalize_inv _ r (sofNext (count s)) I1) as [I2 G2].
    split; [exact I2|by eapply grows_trans]. }
  destruct (_ && confMarker r kStructConf); [apply Fin|].
  destruct (_ && confMarker r kStructConf).
  { split; [|exact (grows_demote s)]. apply startFrame_inv.
    destruct (demote_inv s C) as [(D1 & D2 & D3 & D4) D5]. split; [|exact D5].
    unfold countOk. cbn. unfold kMaxUnconfirmedMinutes. repeat split; (done || lia). }
  destruct ((60 <=? _) && _); [apply Fin|].
  destruct (Z.leb_spec (kFrameCap - 1) (sofNext (count s))).
  { split; [exact (demote_inv (dropAnchor s) emptyCount_ok)|exact (grows_demote (dropAnchor s))]. }
  set (s' := withCount s _). assert (I' : Inv s').
  { split; [|exact L]. unfold countOk, s'. cbn. rewrite length_insert. unfold kFrameCap in *.
    repeat split; (done || lia). }
  assert (G' : grows s s') by by apply grows_refl.
  clearbody s'. destruct (_ && identifierEndsAt _ _); [|split; done].
  destruct (finalizeFrame_inv s' (sofNext (count s) + 1) false period I') as [[C1 L1] G1].
  cbn [fst]. destruct (anchored _); (split; [|by eapply grows_trans]); [|done].
  split; [|exact L1]. destruct C1 as (A1 & A2 & A3 & A4). unfold countOk. cbn. repeat split; (done || lia).
Qed.

(** A label given by [handleSecond] is the locked voter's. *)
Definition backed (s : Impl) (c : Call) : Prop :=
  match c with
  | OnTime t => 0 <= ti_second t < 60 /\ l_locked (lockVerdict cfg (voter s)) = true /\
                ti_fields t = votedTimestamp cfg (voter s)
  | _ => True
  end.

Lemma handleSecond_inv s r m period :
  Inv s -> let s' := handleSecond cfg sr s r m period in
  Inv s' /\ exists new, calls s' = (calls s ++ new)%list /\ Forall (backed s') new.
Proof.
  intros I. cbn zeta. unfold handleSecond. destruct (countSecond_inv s r period I) as [I1 (n & E & F)].
  destruct (countSecond cfg sr s r period) as [s1 sof]. cbn [fst] in *. cbn zeta.
  assert (F' : forall st, Forall (backed st) n).
  { intros st. eapply Forall_impl; [exact F|]. by intros []. }
  destruct (_ && _) eqn:Lab.
  - split; [exact I1|]. eexists (n ++ [_; _])%list. split.
    { cbn. rewrite E, <- !app_assoc. done. }
    apply Forall_app. split; [apply F'|]. repeat constructor; cbn; zbool; try lia;
      destruct I1 as [_ L1]; unfold labelOk in L1; cbn in *;
      destruct (haveVoted (voted s1)); try discriminate; apply L1.
  - split; [exact I1|]. eexists (n ++ [_])%list. split; [cbn; rewrite E, <- app_assoc; done|].
    apply Forall_app. split; [apply F'|]. by repeat constructor.
Qed.

Lemma processSecond_inv s r m period :
  Inv s -> let s' := processSecond cfg sr s r m period in
  Inv s' /\ exists new, calls s' = (calls s ++ new)%list /\ Forall (backed s') new.
Proof.
  intros I. cbn zeta. unfold processSecond. cbn zeta.
  set (s0 := withHist _ _). assert (I0 : Inv s0) by exact I.
  assert (E0 : calls s0 = calls s) by done. clearbody s0.
  destruct (handleSecond_inv s0 r m period I0) as (I1 & n & E & F). cbn zeta in *.
  set (s1 := handleSecond _ _ _ _ _ _) in *. clearbody s1. rewrite E0 in E.
  destruct (kMaxBlindSeconds <=? blindSeconds s1); [|split; [done|by exists n]].
  destruct (grows_lock s1 LockAcquiring) as (n' & E' & F'). destruct (lock_fields s1 LockAcquiring) as (L1 & L2 & L3 & L4 & L5).
  case_bool_decide as D.
  - split; [split; [exact emptyCount_ok|]|].
    + unfold labelOk. cbn. by rewrite L4.
    + exists (n ++ n')%list. cbn. rewrite E', E, app_assoc. split; [done|]. apply Forall_app. split.
      * eapply Forall_impl; [exact F|]. unfold backed. cbn. by rewrite L2.
      * eapply Forall_impl; [exact F'|]. by intros [].
  - split; [split; [exact emptyCount_ok|]|].
    + unfold labelOk. by cbn.
    + exists n. split; [exact E|exact F].
Qed.

Lemma msf_run_inv secs : forall s, Inv s -> Inv (run cfg sr s secs).
Proof.
  induction secs as [|[[r m] p] secs IH]; intros s I; [done|]. cbn. apply IH. by apply processSecond_inv.
Qed.
Lemma msf_running_inv : Inv running.
Proof. split; [apply emptyCount_ok|done]. Qed.

End Labels.

(** ** Lemmas: a minute that reads *)

(** The seconds of a minute that starts at [t]: the bits of the time code read
    right, no marker is seen inside it, and its identifier reads. Second 00 and
    the seconds of fast code and DUT1 may be anything. *)
Definition shows (r : SecRec) (isA : bool) (bit : Z) : bool :=
  read r && cut r && (kBitMinConf <=? (if isA then aConf r else bConf r))%D &&
  ((if isA then bitA r else bitB r) =? bit).
Definition cleanMinute (secs : list SecRec) (t : TimeFields) (summer soon : bool) : bool :=
  let u := localOf t summer in
  (length secs =? 60)%nat && (0 <=? uk_year2 u) && (uk_year2 u <=? 99) &&
  forallb (fun i => negb (confMarker (nth i secs noSec) kStructConf)) (seq 1 59) &&
  forallb (fun i => shows (nth i secs noSec) true (bitOf 17 (timeBits u) (Z.of_nat i))) (seq 17 35) &&
  forallb (fun i => shows (nth i secs noSec) false (bitOf 53 (controlBits u summer soon) (Z.of_nat i))) (seq 53 6) &&
  identifierAt (drop 52 secs).

(** The frame after [k] seconds. *)
Definition filled (secs : list SecRec) (k : nat) : list SecRec := (take k secs ++ replicate (62 - k) noSec)%list.

Lemma filled_1 r secs : filled (r :: secs) 1 = <[0%nat := r]> (replicate 62 noSec).
Proof. reflexivity. Qed.

Lemma filled_S secs k : (k < length secs)%nat -> (k < 62)%nat ->
  <[k := nth k secs noSec]> (filled secs k) = filled secs (S k).
Proof.
  intros Hk H62. unfold filled. replace (62 - k)%nat with (S (62 - S k)) by lia.
  assert (L : length (take k secs) = k) by (rewrite length_take; lia).
  destruct (lookup_lt_is_Some_2 secs k Hk) as [x E].
  rewrite (take_S_r secs k x E), (nth_lookup_Some _ _ _ _ E), <- app_assoc.
  rewrite <- (Nat.add_0_r k) at 1. rewrite <- L at 1. by rewrite insert_app_r.
Qed.

Lemma filled_nth secs k i : (i < k)%nat -> (k <= length secs)%nat -> nth i (filled secs k) noSec = nth i secs noSec.
Proof.
  intros Hi Hk. unfold filled. rewrite app_nth1 by (rewrite length_take; lia).
  rewrite !nth_lookup, lookup_take_lt by lia. done.
Qed.

Section Clean.
Context (secs : list SecRec) (t : TimeFields) (summer soon : bool).
Context (V : rangeValid t = true) (Cl : cleanMinute secs t summer soon = true).

Lemma clean_parts :
  length secs = 60%nat /\ 0 <= uk_year2 (localOf t summer) <= 99 /\
  (forall i, (1 <= i < 60)%nat -> confMarker (nth i secs noSec) kStructConf = false) /\
  (forall i, (17 <= i < 52)%nat ->
     shows (nth i secs noSec) true (bitOf 17 (timeBits (localOf t summer)) (Z.of_nat i)) = true) /\
  (forall i, (53 <= i < 59)%nat ->
     shows (nth i secs noSec) false (bitOf 53 (controlBits (localOf t summer) summer soon) (Z.of_nat i)) = true) /\
  identifierAt (drop 52 secs) = true.
Proof.
  pose proof Cl as C. unfold cleanMinute in C. cbn zeta in C. rewrite !andb_true_iff, !forallb_forall in C.
  destruct C as ((((((C1 & C2) & C3) & C4) & C5) & C6) & C7).
  apply Nat.eqb_eq in C1. apply Z.leb_le in C2, C3. repeat split; try done.
  - intros i Hi. apply negb_true_iff, C4, in_seq. lia.
  - intros i Hi. apply C5, in_seq. lia.
  - intros i Hi. apply C6, in_seq. lia.
Qed.

Lemma identifierSum_bits l : forall ident sum x,
  identifierSum l ident sum = Some x -> forall j, (j < length l)%nat -> (j < length ident)%nat ->
  bitA (nth j l noSec) = nth j ident 0.
Proof.
  induction l as [|r l IH]; intros [|i ident] sum x E j Hj Hi; cbn in Hj, Hi; try lia.
  cbn [identifierSum] in E. destruct (_ || _ || _); [discriminate|].
  destruct (confMarker r kStructConf); [discriminate|]. destruct (Z.eqb_spec (bitA r) i); [|discriminate].
  destruct j as [|j]; [done|]. cbn. eapply IH; [exact E|lia|lia].
Qed.

Lemma identifier_bit l j : identifierAt l = true -> (j < 8)%nat -> (j < length l)%nat ->
  bitA (nth j l noSec) = nth j kIdentifier 0.
Proof.
  unfold identifierAt. destruct (identifierSum l kIdentifier 0) as [x|] eqn:E; [|discriminate].
  intros _ Hj Hl. by eapply identifierSum_bits.
Qed.

Lemma clean_identifier_bit j : (j < 8)%nat -> bitA (nth (52 + j) secs noSec) = nth j kIdentifier 0.
Proof.
  intros Hj. destruct clean_parts as (L & _ & _ & _ & _ & I). rewrite <- nth_skipn.
  apply identifier_bit; [exact I|done|]. rewrite length_skipn. lia.
Qed.

Lemma map_secAt k i n : (i + n <= k)%nat -> (k <= length secs)%nat ->
  map (fun j => secAt (filled secs k) (Z.of_nat i + Z.of_nat j)) (seq 0 n) = take n (drop i secs).
Proof.
  intros Hk Hl. transitivity (map (fun j => nth j (drop i secs) noSec) (seq 0 n)).
  - apply map_ext_in. intros j Hj. rewrite in_seq in Hj. unfold secAt.
    replace (Z.to_nat _) with (i + j)%nat by lia. rewrite filled_nth by lia. symmetry. apply nth_skipn.
  - apply nth_ext with noSec noSec; rewrite length_map, length_seq; [rewrite length_take, length_drop; lia|].
    intros j Hj. rewrite nth_indep with (d' := (fun j => nth j (drop i secs) noSec) O)
      by (rewrite length_map, length_seq; lia).
    rewrite (map_nth (fun j => nth j (drop i secs) noSec)), seq_nth by lia.
    rewrite !nth_lookup, lookup_take_lt by lia. done.
Qed.

(** At second 58 the identifier is not yet there; at 59 it is. *)
Lemma identifier_58 c : frame c = filled secs 59 -> identifierEndsAt c 58 = false.
Proof.
  intros E. unfold identifierEndsAt. destruct (_ || _); [done|]. rewrite E.
  destruct clean_parts as (L & _). change (58 - 7) with (Z.of_nat 51). rewrite (map_secAt 59 51 8) by lia.
  destruct (identifierAt (take 8 (drop 51 secs))) eqn:I; [|done]. exfalso.
  pose proof (identifier_bit _ 1 I ltac:(lia) ltac:(rewrite length_take, length_drop; lia)) as B.
  rewrite nth_lookup, lookup_take_lt, <- nth_lookup in B by lia.
  pose proof (clean_identifier_bit 0 ltac:(lia)) as B0. cbn in B, B0.
  assert (Ed : nth 1 (drop 51 secs) noSec = nth 52 secs noSec) by apply (nth_skipn 51 secs 1).
  rewrite Ed in B. congruence.
Qed.
Lemma identifier_59 c : frame c = filled secs 60 -> frFilled c = 60 -> identifierEndsAt c 59 = true.
Proof.
  intros E Ef. unfold identifierEndsAt. rewrite Ef, E. cbn [orb Z.ltb Z.leb Z.compare Pos.compare Pos.compare_cont].
  destruct clean_parts as (L & _ & _ & _ & _ & I). change (59 - 7) with (Z.of_nat 52).
  rewrite (map_secAt 60 52 8) by lia.
  rewrite firstn_all2; [exact I|]. rewrite length_skipn. lia.
Qed.

Lemma clean_bitAt c p isA bit :
  frame c = filled secs 60 -> frFilled c = 60 -> 1 <= p < 60 -> shows (nth (Z.to_nat p) secs noSec) isA bit = true ->
  exists conf, bitAt c 60 p isA = Some (bit, conf).
Proof.
  intros E Ef Hp S. destruct clean_parts as (L & _ & M & _). unfold bitAt.
  replace (if if isA then 17 <=? p else 52 <=? p then p + (60 - 60) else p) with p by (destruct (if isA then _ else _); lia).
  rewrite E, Ef. destruct (Z.ltb_spec p 1); [lia|]. destruct (Z.leb_spec 60 p); [lia|]. cbn [orb].
  unfold secAt. rewrite filled_nth by lia. rewrite M by lia.
  unfold shows in S. rewrite !andb_true_iff in S. destruct S as [[[-> ->] Cf] B]. cbn [negb orb].
  rewrite Cf. eexists. apply Z.eqb_eq in B. by rewrite B.
Qed.

Lemma clean_carries c : frame c = filled secs 60 -> frFilled c = 60 -> carries c 60 t summer soon.
Proof.
  intros E Ef. destruct clean_parts as (L & Y & M & A & B & I). split; intros p Hp.
  - destruct (clean_bitAt c p true (bitOf 17 (timeBits (localOf t summer)) p) E Ef ltac:(lia)) as [cf ->]; [|done].
    rewrite <- (Z2Nat.id p) at 2 by lia. apply A. lia.
  - destruct (clean_bitAt c p false (bitOf 53 (controlBits (localOf t summer) summer soon) p) E Ef ltac:(lia)) as [cf ->]; [|done].
    rewrite <- (Z2Nat.id p) at 2 by lia. apply B. lia.
Qed.

Lemma clean_decodes c : frame c = filled secs 60 -> frFilled c = 60 ->
  exists d conf, decode c 60 = Some (d, conf) /\ d_utc d = t /\ d_summer d = summer.
Proof.
  intros E Ef. destruct clean_parts as (_ & Y & _).
  destruct (decode_carries c 60 t summer soon V Y (clean_carries c E Ef)) as (d & conf & D & U & Su & _).
  by exists d, conf.
Qed.

Lemma clean_confirmed c : frame c = filled secs 60 -> frFilled c = 60 ->
  contradicted c 60 = false /\ confirmed c 60 false = true.
Proof.
  intros E Ef. destruct clean_parts as (L & _ & M & _).
  assert (C : contradicted c 60 = false).
  { unfold contradicted. apply orb_false_iff. split.
    - unfold strayMarks. rewrite (fold_left_ext_in _ (fun k _ => k)).
      + by rewrite fold_left_id || (induction (seq 1 (Z.to_nat 60 - 1)); done).
      + intros k i Hi. rewrite in_seq in Hi. unfold secAt. rewrite E, Nat2Z.id, filled_nth by lia.
        by rewrite M by lia.
    - unfold idWrong. rewrite (fold_left_ext_in _ (fun k _ => k)); [done|].
      intros k j Hj. assert (Hj' : 0 <= j < 8) by (cbn in Hj; lia).
      unfold secAt. rewrite E, filled_nth by lia.
      replace (Z.to_nat (60 - 8 + j)) with (52 + Z.to_nat j)%nat by lia.
      rewrite clean_identifier_bit by lia. by rewrite Z.eqb_refl, andb_false_r. }
  split; [exact C|]. unfold confirmed. rewrite C, Ef. change (60 - 1) with 59. by rewrite identifier_59.
Qed.
End Clean.

(** The weakest confidence is a number: every bit read was at its floor. *)
Lemma bitAt_conf c n p isA b cf : bitAt c n p isA = Some (b, cf) -> dnan cf = false.
Proof.
  unfold bitAt. generalize (if if isA then 17 <=? p else 52 <=? p then p + (n - 60) else p) as idx. intros idx.
  destruct (_ || _); [done|]. destruct (_ || _); [done|]. destruct (_ <=? _)%D eqn:E; [|done].
  intros [= _ <-]. rewrite dleb_key in E. unfold dnan. destruct (dkey kBitMinConf), (dkey (if isA then _ else _)); done.
Qed.

Lemma readBits_conf c n isA len : forall p bs,
  readBits c n p isA len = Some bs -> Forall (fun x => dnan x = false) (map snd bs).
Proof.
  induction len as [|len IH]; cbn [readBits]; intros p bs E; [by injection E as <-|].
  destruct (bitAt c n p isA) as [[b cf]|] eqn:Eb; [|discriminate]. cbn [mbind option_bind] in E.
  destruct (readBits c n (p + 1) isA len) as [bs'|] eqn:Er; [|discriminate].
  cbn in E. injection E as <-. constructor; [by eapply bitAt_conf|by eapply IH].
Qed.

Lemma decode_conf c n d conf : decode c n = Some (d, conf) -> dnan conf = false.
Proof.
  unfold decode. intros E. destruct (readBits c n 17 true 35) as [A|] eqn:EA; [|discriminate]. cbn [mbind option_bind] in E.
  destruct (readBits c n 53 false 6) as [B|] eqn:EB; [|discriminate]. cbn [mbind option_bind] in E.
  destruct (decodeBits _ _ _) as [d'|]; [|discriminate]. cbn in E. injection E as _ <-.
  apply fold_dmin_nan; [done|]. apply Forall_app. split; by eapply readBits_conf.
Qed.

(** ** Lemmas: running through a minute *)

Section Run.
Context `{Pow} (cfg : Config) (sr : Z).

Lemma finalizeFrame_blind s n m p :
  blindSeconds (finalizeFrame cfg sr s n m p) = blindSeconds s.
Proof.
  unfold finalizeFrame. cbn zeta. destruct (_ || _).
  { cbn. destruct (demote_fields (dropAnchor (setUnconfirmed s (if contradicted (count s) n ||
      confirmed (count s) n m then unconfirmedRun (count s) else unconfirmedRun (count s) + 1)))) as (_ & _ & B & _).
    exact B. }
  set (s2 := withLast _ _). assert (B2 : blindSeconds s2 = blindSeconds s) by (unfold s2; by destruct (confirmed _ _ _)).
  clearbody s2. match goal with |- context [vote cfg s2 ?f ?k] =>
    destruct (vote_fields cfg s2 f k) as (_ & _ & _ & B3 & _); set (s3 := vote cfg s2 f k) in * end.
  clearbody s3. destruct (_ && _).
  - match goal with |- context [setLockState ?x ?l] => destruct (lock_fields x l) as (_ & _ & _ & _ & ->) end.
    cbn. congruence.
  - destruct (demote_fields s3) as (_ & _ & -> & _). congruence.
Qed.

Lemma demote_blind s : blindSeconds (demote s) = blindSeconds s.
Proof. apply (demote_fields s). Qed.
Lemma countSecond_blind s r p : blindSeconds (fst (countSecond cfg sr s r p)) = blindSeconds s.
Proof.
  assert (A : forall s' sof, blindSeconds s' = blindSeconds s -> blindSeconds (fst (afterFinalize s' r sof)) = blindSeconds s).
  { intros s' sof E. unfold afterFinalize. by destruct (_ && _). }
  unfold countSecond. cbv zeta. destruct (negb _).
  { destruct (confMarker _ _); [done|]. by destruct (identifierInHist _). }
  destruct (_ =? 0); [done|]. destruct (_ && _); [apply A, finalizeFrame_blind|].
  destruct (_ && _); [cbn; apply demote_blind|]. destruct (_ && _); [apply A, finalizeFrame_blind|].
  destruct (_ <=? _); [cbn; by rewrite demote_blind|].
  match goal with |- context [identifierEndsAt ?c ?n] => destruct ((58 <=? _) && (_ <=? 60) && identifierEndsAt c n) end; [|done].
  cbv zeta. destruct (anchored _); cbn; by rewrite finalizeFrame_blind.
Qed.
(** Blind for too long, the history is let go. *)
Lemma processSecond_lost s r m p : kMaxBlindSeconds <= (if m : bool then 0 else blindSeconds s + 1) ->
  hist (processSecond cfg sr s r m p) = [].
Proof.
  intros B. unfold processSecond. cbv zeta. set (s0 := withHist _ _).
  assert (E : blindSeconds (handleSecond cfg sr s0 r m p) = if m then 0 else blindSeconds s + 1).
  { unfold handleSecond. pose proof (countSecond_blind s0 r p) as E. destruct (countSecond _ _ _ _ _) as [s1 sof].
    cbv zeta. destruct (_ && _); exact E. }
  rewrite E. apply Z.leb_le in B. by rewrite B.
Qed.

(** The state a measured second is counted from. *)
Definition prepared (s : Impl) (r : SecRec) : Impl :=
  withHist (withBlind s 0) (let h := (hist s ++ [r])%list in if (16 <? length h)%nat then drop 1 h else h).

(** A measured second leaves what counting it leaves. *)
Lemma processSecond_measured s r p s1 sof :
  countSecond cfg sr (prepared s r) r p = (s1, sof) -> blindSeconds s1 = 0 ->
  let s' := processSecond cfg sr s r true p in
  count s' = count s1 /\ voter s' = voter s1 /\ lockState s' = lockState s1 /\ voted s' = voted s1.
Proof.
  cbn zeta. intros E B. unfold processSecond. cbn zeta. unfold handleSecond.
  change (withHist (withBlind s 0) _) with (prepared s r). rewrite E. cbn zeta.
  destruct (_ && _); cbn [blindSeconds call count voter lockState voted]; rewrite B; done.
Qed.

(** [k] seconds into a minute whose seconds are [secs]. *)
Definition into (secs : list SecRec) (k : nat) (fs : list Frame) (s : Impl) : Prop :=
  anchored (count s) = true /\ sofNext (count s) = Z.of_nat k /\ frame (count s) = filled secs k /\
  frFilled (count s) = Z.of_nat k /\ voter s = fs.
(** Between two minutes. *)
Definition between (fs : list Frame) (s : Impl) : Prop :=
  anchored (count s) = true /\ sofNext (count s) = 0 /\ voter s = fs.

Lemma countSecond_zero s r p :
  anchored (count s) = true -> sofNext (count s) = 0 -> countSecond cfg sr s r p = (startFrame s r, 0).
Proof. intros A N. unfold countSecond. by rewrite A, N. Qed.

Lemma first_second r rest fs s p :
  between fs s -> into (r :: rest) 1 fs (processSecond cfg sr s r true p).
Proof.
  intros (A & N & W).
  destruct (processSecond_measured s r p _ _ (countSecond_zero (prepared s r) r p A N) eq_refl) as (E1 & E2 & _).
  unfold into. rewrite E1, E2. cbn. by rewrite A.
Qed.

Section Minute.
Context (secs : list SecRec) (t : TimeFields) (summer soon : bool).
Context (V : rangeValid t = true) (Cl : cleanMinute secs t summer soon = true).

(** The count with one more second of the minute. *)
Definition oneMore (s : Impl) (k : nat) : Impl :=
  let c := count s in
  withCount s (MkCount true (Z.of_nat (S k)) (filled secs (S k)) (Z.of_nat (S k)) (frStart c) (unconfirmedRun c)).

Lemma countSecond_into s k fs p :
  (1 <= k < 60)%nat -> into secs k fs s ->
  countSecond cfg sr s (nth k secs noSec) p =
  if (k =? 59)%nat then
    let s := finalizeFrame cfg sr (oneMore s 59) 60 false p in
    (if anchored (count s) then setSofNext s 0 else s, 59)
  else (oneMore s k, Z.of_nat k).
Proof.
  intros Hk (A & N & F & L & W). destruct (clean_parts secs t summer soon Cl) as (Len & _ & M & _).
  unfold countSecond. rewrite A, N. cbn [negb]. rewrite M, !andb_false_r by lia.
  destruct (Z.eqb_spec (Z.of_nat k) 0); [lia|]. destruct (Z.leb_spec 60 (Z.of_nat k)); [lia|]. cbn [andb].
  unfold kFrameCap. destruct (Z.leb_spec (62 - 1) (Z.of_nat k)); [lia|].
  rewrite Nat2Z.id, F, filled_S by lia. replace (Z.of_nat k + 1) with (Z.of_nat (S k)) by lia. cbn zeta.
  destruct (Nat.eqb_spec k 59) as [->|].
  - rewrite (identifier_59 secs t summer soon Cl) by done. done.
  - destruct (Z.leb_spec 58 (Z.of_nat k)); [|done]. destruct (Z.leb_spec (Z.of_nat k) 60); [|lia]. cbn [andb].
    assert (k = 58)%nat as -> by lia. by rewrite (identifier_58 secs t summer soon Cl).
Qed.

Lemma into_prepared k fs s r : into secs k fs s -> into secs k fs (prepared s r).
Proof. done. Qed.

Lemma middle_second k fs s p :
  (1 <= k < 59)%nat -> into secs k fs s -> into secs (S k) fs (processSecond cfg sr s (nth k secs noSec) true p).
Proof.
  intros Hk I. pose proof (countSecond_into _ k fs p ltac:(lia) (into_prepared k fs s (nth k secs noSec) I)) as E.
  destruct (Nat.eqb_spec k 59); [lia|]. destruct (processSecond_measured _ _ _ _ _ E eq_refl) as (E1 & E2 & _).
  unfold into. rewrite E1, E2. cbn [oneMore count withCount voter anchored sofNext frame frFilled]. repeat split; apply I.
Qed.

Lemma countSecond_last s fs p :
  into secs 59 fs s -> blindSeconds s = 0 ->
  exists s0, frame (count s0) = filled secs 60 /\ frFilled (count s0) = 60 /\ anchored (count s0) = true /\
    voter s0 = fs /\ blindSeconds s0 = 0 /\
    countSecond cfg sr s (nth 59 secs noSec) p =
      (if anchored (count (finalizeFrame cfg sr s0 60 false p)) then setSofNext (finalizeFrame cfg sr s0 60 false p) 0
       else finalizeFrame cfg sr s0 60 false p, 59).
Proof.
  intros I B. exists (oneMore s 59). rewrite (countSecond_into s 59 fs p) by (lia || exact I).
  destruct I as (_ & _ & _ & _ & W). cbn [oneMore count withCount voter anchored sofNext frame frFilled blindSeconds].
  repeat split; done.
Qed.

(** The minute's end decodes it and hands its frame to the voter. *)
Lemma finalize_clean s p :
  fields cfg = wwvbFields -> frame (count s) = filled secs 60 -> frFilled (count s) = 60 ->
  anchored (count s) = true ->
  exists f keep, frameOk f /\ transmits cfg f t /\
    anchored (count (finalizeFrame cfg sr s 60 false p)) = true /\
    voter (finalizeFrame cfg sr s 60 false p) = addFrame cfg (if keep : bool then voter s else []) f.
Proof.
  intros Cf F L A. destruct (clean_confirmed secs t summer soon Cl (count s) F L) as [Cn Cd].
  destruct (clean_decodes secs t summer soon V Cl (count s) F L) as (d & conf & Dc & U & Su).
  assert (Ok : frameOk (syntheticFrame (Some (d, conf)))).
  { apply synthetic_frameOk. intros d' c' [= <- <-]. eapply decode_conf; exact Dc. }
  assert (Tr : transmits cfg (syntheticFrame (Some (d, conf))) t).
  { rewrite <- U. apply synthetic_transmits; [done|by rewrite U]. }
  unfold finalizeFrame. cbn zeta. rewrite Cn, Cd, Dc. cbn [orb negb andb].
  set (s2 := withLast _ _). assert (A2 : anchored (count s2) = true) by exact A.
  assert (W2 : voter s2 = voter s) by reflexivity. clearbody s2.
  generalize dependent (syntheticFrame (Some (d, conf))). intros f Ok Tr.
  set (keep := consecutive _ _ _). clearbody keep. exists f, keep. split; [done|]. split; [done|].
  destruct (vote_fields cfg s2 f keep) as (V1 & V2 & _).
  set (s3 := vote _ _ _ _) in *. clearbody s3. unfold reset in V1. rewrite W2 in V1.
  destruct (_ && _).
  - destruct (lock_fields (withVoted s3 (MkVoted true (votedTime (voted s3)) (votedQuality (voted s3)))) LockLocked)
      as (F1 & F2 & _). rewrite F1, F2. cbn [count voter withVoted]. rewrite V2, A2, V1. done.
  - destruct (demote_fields s3) as (F1 & F2 & _). rewrite F1, F2, V2, A2, V1. done.
Qed.

Lemma last_second fs s p :
  fields cfg = wwvbFields -> into secs 59 fs s ->
  exists f keep, frameOk f /\ transmits cfg f t /\
    between (addFrame cfg (if keep : bool then fs else []) f) (processSecond cfg sr s (nth 59 secs noSec) true p).
Proof.
  intros Cf I.
  destruct (countSecond_last _ fs p (into_prepared 59 fs s (nth 59 secs noSec) I) eq_refl)
    as (s0 & F0 & L0 & A0 & W0 & B0 & E).
  destruct (finalize_clean s0 p Cf F0 L0 A0) as (f & keep & Ok & Tr & An & W).
  exists f, keep. split; [done|]. split; [done|]. rewrite W0 in W.
  pose proof (finalizeFrame_blind s0 60 false p) as Bl. rewrite B0 in Bl. rewrite An in E.
  revert E Bl An W. generalize (finalizeFrame cfg sr s0 60 false p). intros s1 E Bl An W.
  destruct (processSecond_measured _ _ _ _ _ E Bl) as (E1 & E2 & _).
  unfold between. rewrite E1, E2. cbn [setSofNext count withCount anchored sofNext voter]. by rewrite An, W.
Qed.

Lemma run_app a b s : run cfg sr s (a ++ b) = run cfg sr (run cfg sr s a) b.
Proof. apply fold_left_app. Qed.

(** The seconds as they come: every edge measured. *)
Definition allMeasured (l : list (SecRec * bool * double)) : bool := forallb (fun x => snd (fst x)) l.
Definition records (l : list (SecRec * bool * double)) : list SecRec := map (fun x => fst (fst x)) l.

Lemma run_minute l fs s :
  fields cfg = wwvbFields -> records l = secs -> allMeasured l = true -> between fs s ->
  exists f keep, frameOk f /\ transmits cfg f t /\
    between (addFrame cfg (if keep : bool then fs else []) f) (run cfg sr s l).
Proof.
  intros Cf R M B. destruct (clean_parts secs t summer soon Cl) as (Len & _).
  assert (Ll : length l = 60%nat) by (rewrite <- Len, <- R; symmetry; apply length_map).
  assert (Step : forall k, (k < 60)%nat -> exists p, run cfg sr s (take (S k) l) =
    processSecond cfg sr (run cfg sr s (take k l)) (nth k secs noSec) true p).
  { intros k Hk. destruct (lookup_lt_is_Some_2 l k ltac:(lia)) as [[[r m] p] E].
    exists p. rewrite (take_S_r l k _ E), run_app. cbn.
    assert (Er : nth k secs noSec = r).
    { apply nth_lookup_Some. rewrite <- R. unfold records. by rewrite list_lookup_fmap, E. }
    assert (Em : m = true).
    { unfold allMeasured in M. rewrite forallb_forall in M.
      apply (M (r, m, p)). apply list_elem_of_In. by eapply list_elem_of_lookup_2. }
    by rewrite Er, Em. }
  assert (I : forall k, (k < 59)%nat -> into secs (S k) fs (run cfg sr s (take (S k) l))).
  { induction k as [|k IH]; intros Hk.
    - destruct (Step 0%nat ltac:(lia)) as [p ->]. cbn [take run fold_left].
      destruct secs as [|r0 rest]; [done|]. by apply first_second.
    - destruct (Step (S k) ltac:(lia)) as [p ->]. apply middle_second; [lia|]. apply IH. lia. }
  destruct (Step 59%nat ltac:(lia)) as [p E]. rewrite firstn_all2 in E by lia. rewrite E.
  apply last_second; [done|]. apply I. lia.
Qed.
End Minute.

(** *** The voter's window over clean minutes *)

(** Successive clean minutes, the first starting at [t]. *)
Definition cleanRun (t : TimeFields) (minutes : list (list (SecRec * bool * double))) : Prop :=
  forall i l, minutes !! i = Some l -> allMeasured l = true /\
    exists summer soon, cleanMinute (records l) (advanceMinutes t (Z.of_nat i)) summer soon = true.

Lemma run_minutes minutes : forall t fs s,
  fields cfg = wwvbFields -> (0 < window cfg)%nat -> rangeValid t = true ->
  windowEnds cfg fs t -> between fs s -> cleanRun (advanceMinutes t 1) minutes ->
  exists fs', windowEnds cfg fs' (advanceMinutes t (Z.of_nat (length minutes))) /\ between fs' (run cfg sr s (concat minutes)).
Proof.
  induction minutes as [|l ms IH]; intros t fs s Cf W V We B C.
  { exists fs. cbn. by rewrite advanceMinutes_0. }
  assert (V1 : rangeValid (advanceMinutes t 1) = true) by (apply advanceMinutes_valid; [done|lia]).
  destruct (C O l eq_refl) as (M & summer & soon & Cl). cbn in Cl. rewrite advanceMinutes_0 in Cl by done.
  destruct (run_minute _ _ _ _ V1 Cl l fs s Cf eq_refl M B) as (f & keep & Ok & Tr & B').
  assert (We' : windowEnds cfg (addFrame cfg (if keep then fs else []) f) (advanceMinutes t 1)).
  { destruct keep; [by apply window_next|by apply window_first]. }
  destruct (IH _ _ _ Cf W V1 We' B') as (fs' & We2 & B2).
  { intros i l' E. destruct (C (S i) l' E) as (M' & su & so & Cl'). split; [done|]. exists su, so.
    rewrite advanceMinutes_add by (done || lia). by replace (1 + Z.of_nat i) with (Z.of_nat (S i)) by lia. }
  exists fs'. cbn [concat length]. rewrite run_app. split; [|done].
  rewrite advanceMinutes_add in We2 by (done || lia).
  by replace (Z.of_nat (S (length ms))) with (1 + Z.of_nat (length ms)) by lia.
Qed.

End Run.

(** ** Properties *)

(** C13: the MSF time code decodes to the minute it was sent in. When the bits of
    a minute of 59, 60 or 61 seconds read as what the station sends for the UTC
    minute [t] - the UK local time of the next minute, summer time in force or
    not - [decode] gives exactly [t], across midnight, month and year ends. *)
Theorem msf_decodes_broadcast (c : Count) (n : Z) (t : TimeFields) (summer soon : bool) :
  rangeValid t = true -> 0 <= uk_year2 (localOf t summer) <= 99 -> carries c n t summer soon ->
  exists d conf, decode c n = Some (d, conf) /\ d_utc d = t /\ d_summer d = summer /\
    d_summerSoon d = soon /\ d_utcMs d = utcMinute t * 60000.
Proof. apply decode_carries. Qed.

(** C14: parity refuses. Once a minute decodes, no reading of it in which an odd
    number of the bits of one parity group (data and parity bit) came out
    inverted decodes at all; in particular no single wrong bit of the year, the
    date, the weekday or the time does. *)
Theorem msf_parity_detects (c c' : Count) (n : Z) (g : Z * Z * Z) :
  decode c n <> None -> binary c -> binary c' -> In g parityGroups -> flips c c' n g mod 2 = 1 ->
  decode c' n = None.
Proof.
  intros D B B' Hg F. destruct (decode c n) as [r|] eqn:E; [|exfalso; exact (D eq_refl)].
  destruct (decode c' n) as [r'|] eqn:E'; [exfalso|reflexivity].
  pose proof (decode_parity _ _ _ _ E Hg). pose proof (decode_parity _ _ _ _ E' Hg).
  pose proof (flips_parity c c' n g B B') as P. rewrite Z.add_mod in P by lia. dlia.
Qed.

(** no label without a locked vote. However the running decoder was driven,
    the labels the next second gives are for a second 0 to 59 and carry the
    timestamp the voter votes, while the voter's own verdict is that it is
    locked; and the frame index has stayed within the frame's 62 slots, with no
    more than two minutes run unconfirmed. *)
Lemma msf_labels_backed `{Pow} (cfg : Config) (sr : Z) (past : list (SecRec * bool * double))
    (r : SecRec) (m : bool) (p : double) :
  let s := run cfg sr running past in
  let s' := processSecond cfg sr s r m p in
  countOk (count s') /\
  exists new, calls s' = (calls s ++ new)%list /\
    forall ti, In (OnTime ti) new ->
      0 <= ti_second ti < 60 /\ l_locked (lockVerdict cfg (voter s')) = true /\
      ti_fields ti = votedTimestamp cfg (voter s').
Proof.
  cbn zeta. pose proof (msf_run_inv cfg sr past running (msf_running_inv cfg)) as I.
  destruct (processSecond_inv cfg sr _ r m p I) as [[C _] (new & E & F)]. split; [exact C|].
  exists new. split; [exact E|]. intros ti Hi. rewrite Forall_forall in F.
  exact (F (OnTime ti) (proj2 (list_elem_of_In _ _) Hi)).
Qed.

(** C15: clean minutes are told right. From any state the decoder can reach that
    stands at the start of a minute with an empty voter, after any number of
    minutes of readable seconds the voted time is the UTC of the last of them,
    whatever the edges' spacing made of the voter's window; and when the decoder
    has locked, the label it stands on is that minute. *)
Theorem msf_clean_run `{Pow} (cfg : Config) (sr : Z) (past : list (SecRec * bool * double))
    (t : TimeFields) (minutes : list (list (SecRec * bool * double))) :
  fields cfg = wwvbFields -> (0 < window cfg)%nat -> mapsOk cfg = true ->
  powOk cfg (Z.of_nat (window cfg)) -> rangeValid t = true ->
  between [] (run cfg sr running past) -> minutes <> [] -> cleanRun t minutes ->
  let s := run cfg sr (run cfg sr running past) (concat minutes) in
  let last := advanceMinutes t (Z.of_nat (length minutes) - 1) in
  votedTimestamp cfg (voter s) = last /\ (lockState s = LockLocked -> votedTime (voted s) = last).
Proof.
  intros Cf W M P V B Ne C. cbn zeta. destruct minutes as [|l ms]; [done|].
  destruct (C O l eq_refl) as (Me & summer & soon & Cl). cbn in Cl. rewrite advanceMinutes_0 in Cl by done.
  destruct (run_minute cfg sr _ _ _ _ V Cl l [] _ Cf eq_refl Me B) as (f & keep & Ok & Tr & B').
  assert (We : windowEnds cfg (addFrame cfg (if keep then [] else []) f) t) by (destruct keep; by apply window_first).
  destruct (run_minutes cfg sr ms _ _ _ Cf W V We B') as (fs & We' & B2).
  { intros i l' E. destruct (C (S i) l' E) as (M' & su & so & Cl'). split; [done|]. exists su, so.
    rewrite advanceMinutes_add by (done || lia). by replace (1 + Z.of_nat i) with (Z.of_nat (S i)) by lia. }
  pose proof (windowEnds_voted cfg _ _ M P We') as Vt.
  cbn [concat length]. rewrite run_app. set (s := run cfg sr _ (concat ms)) in *.
  replace (Z.of_nat (S (length ms)) - 1) with (Z.of_nat (length ms)) by lia.
  assert (I : Inv cfg s) by (unfold s; apply msf_run_inv, msf_run_inv, msf_run_inv, msf_running_inv).
  destruct B2 as (_ & _ & Ev). rewrite Ev. split; [exact Vt|]. intros L. clearbody s.
  destruct I as [_ Lb]. unfold labelOk in Lb. destruct (haveVoted (voted s)); [|done].
  destruct Lb as (_ & _ & El). by rewrite El, Ev.
Qed.

(** *** Witnesses *)

(** Second [i] of the minute that starts at [t], as Anthorn keys it. *)
Definition sendSecond (t : TimeFields) (summer : bool) (start : Z) (i : nat) : SecRec :=
  let u := localOf t summer in
  let p := Z.of_nat i in
  let a := if (17 <=? p) && (p <=? 51) then bitOf 17 (timeBits u) p
           else if 52 <=? p then nth (i - 52) kIdentifier 0 else 0 in
  let b := if (53 <=? p) && (p <=? 58) then bitOf 53 (controlBits u summer false) p else 0 in
  MkSec (start + 12000 * p) (d_of_Z (start + 12000 * p)) true (i =? 0)%nat 0.75%D a b 0.75%D 0.75%D true.
Definition sendMinute (t : TimeFields) (summer : bool) (start : Z) : list (SecRec * bool * double) :=
  map (fun i => (sendSecond t summer start i, true, 12000%D)) (seq 0 60).

(** UK midnight of 1 July 2024 is 23:00 UTC of 30 June. *)
Definition demoMinute : TimeFields := TF 58 22 182 24.
Definition demoCount : Count :=
  MkCount true 60 (filled (records (sendMinute demoMinute true 0)) 60) 60 0 0.
(** The same minute with its first year bit inverted. *)
Definition demoFlipped : Count :=
  let fr := filled (records (sendMinute demoMinute true 0)) 60 in
  let r := nth 17 fr noSec in
  MkCount true 60 (<[17%nat := MkSec (edge r) (edgeExact r) true false (markConf r) (1 - bitA r) (bitB r)
                                     (aConf r) (bConf r) true]> fr) 60 0 0.

Lemma msf_decodes_broadcast_witness :
  exists d conf, decode demoCount 60 = Some (d, conf) /\ d_utc d = demoMinute /\ d_summer d = true /\
    d_summerSoon d = false /\ d_utcMs d = utcMinute demoMinute * 60000.
Proof.
  apply (msf_decodes_broadcast demoCount 60 demoMinute true false); [vm_compute; reflexivity|vm_compute; split; discriminate|].
  by apply (clean_carries (records (sendMinute demoMinute true 0))); [vm_compute|..].
Defined.

Definition binaryb (c : Count) : bool :=
  forallb (fun r => ((bitA r =? 0) || (bitA r =? 1)) && ((bitB r =? 0) || (bitB r =? 1))) (frame c).
Lemma binaryb_ok c : binaryb c = true -> binary c.
Proof.
  unfold binaryb, binary. rewrite forallb_forall, Forall_forall. intros F r Hr.
  apply list_elem_of_In, F in Hr. rewrite andb_true_iff, !orb_true_iff, !Z.eqb_eq in Hr. exact Hr.
Qed.

Lemma msf_parity_detects_witness : decode demoFlipped 60 = None.
Proof.
  apply (msf_parity_detects demoCount demoFlipped 60 (17, 24, 54)).
  - intros E. assert (N : (match decode demoCount 60 with Some _ => true | None => false end) = true) by (vm_compute; reflexivity).
    rewrite E in N. discriminate.
  - apply binaryb_ok. vm_compute. reflexivity.
  - apply binaryb_ok. vm_compute. reflexivity.
  - left. reflexivity.
  - vm_compute. reflexivity.
Defined.

(** The end of a minute anchors; three clean minutes over UK midnight follow. *)
Definition demoPast : list (SecRec * bool * double) := drop 52 (sendMinute (TF 57 22 182 24) true 0).
Definition demoMinutes : list (list (SecRec * bool * double)) :=
  map (fun i => sendMinute (advanceMinutes demoMinute i) true (720000 * (i + 1))) [0; 1; 2].

Lemma demoMinutes_clean : cleanRun demoMinute demoMinutes.
Proof.
  intros i l E. assert (Hi : (i < 3)%nat) by (apply lookup_lt_Some in E; exact E).
  do 3 (destruct i as [|i]; [injection E as <-; split; [vm_compute; reflexivity|exists true, false; vm_compute; reflexivity]|]).
  lia.
Qed.

Lemma msf_clean_run_witness :
  let s := @run demoPow buildVoterConfig 12000 (@run demoPow buildVoterConfig 12000 running demoPast) (concat demoMinutes) in
  lockState s = LockLocked /\ @votedTimestamp demoPow buildVoterConfig (voter s) = TF 0 23 182 24 /\
  votedTime (voted s) = TF 0 23 182 24.
Proof.
  assert (B : between [] (@run demoPow buildVoterConfig 12000 running demoPast)) by (vm_compute; repeat split).
  destruct (@msf_clean_run demoPow buildVoterConfig 12000 demoPast demoMinute demoMinutes
    eq_refl ltac:(vm_compute; lia) ltac:(vm_compute; reflexivity) wwvb_powOk eq_refl B ltac:(discriminate) demoMinutes_clean)
    as [E1 E2].
  assert (L : lockState (@run demoPow buildVoterConfig 12000 (@run demoPow buildVoterConfig 12000 running demoPast)
                (concat demoMinutes)) = LockLocked) by (vm_compute; reflexivity).
  cbn zeta. split; [exact L|]. split; [exact E1|exact (E2 L)].
Defined.
