(* ===== verification/MsfSignal.v ===== *)
(** * The MSF signal chain (src/clock/MsfDecoder.cpp)
    Samples to seconds: the carrier, the envelope and the falls in it that may be a
    second's edge, the edge timed on the carrier's own amplitude, and once per
    second the five tenths that carry its bits; the seconds go to Msf. A sample and
    a second are separate steps, as in [pushEnvelope]'s last line. Every read of a
    ring is checked. The code guards most of them itself; the theorem says which
    two it does not, and exactly when they are made. The picture of the second given
    to the status page is left out, but not the reads it makes. *)

From Stdlib Require Import ZArith Lia List Bool Floats.
From stdpp Require Import base list sorting.
From S2P Require Import Prelude Doubles Rounding ClockTypes TimeFrameVoter Signals EnvelopeRing Msf.

#[local] Open Scope Z_scope.

(** ** Constants *)

Definition kCarrierBefore : Z := 45.
Definition kSlopeSigmaSec : double := 0.0005%D.
Definition kSlopeFineSearchSec : double := 0.002%D.
Definition kStepSec : double := 0.040%D.
Definition kSlopeSearchSec : double := 0.020%D.
Definition kSlopeTrackSec : double := 0.0015%D.
Definition kTrkOutlierSec : double := 0.002%D.
Definition kReseedSec : double := 0.001%D.
Definition kReseedWindow : nat := 15.
Definition kReseedSig : double := 4%D.
Definition kClassifyEnv : Z := 50.
Definition kMinContrast : double := 2%D.
Definition kFreqGain : double := 0.5%D.

(** ** Data *)

Record Mixed := MkMixed {
  lpI : Biquad; lpQ : Biquad; lpfDelay : double; magAccum : double; magCount : Z
}.
Record Rings := MkRings { zRe : list double; zIm : list double; zStart : Z }.
(** What is followed from second to second: how deep "off" is, the carrier's
    residual frequency, and its phase at the last second. *)
Record Learnt := MkLearnt { lowFrac : double; fResidual : double; prevTheta : option (double * double) }.
Record Segment := MkSeg { segValid : bool; segEdge : double; scanPos : Z; wideOff : list double }.
(** [base] is [envBaseSample]; [tail] what Msf keeps. *)
Record Sig := MkSig {
  searching : bool; samplesConsumed : Z; search : Search; live : Live; osc : Osc; mixed : Mixed;
  rings : Rings; base : Z; envl : Envelope; learnt : Learnt; seg : Segment; trk : EdgeTracker; tail : Impl
}.
Definition withSearch (s : Sig) (g : Search) : Sig :=
  MkSig (searching s) (samplesConsumed s) g (live s) (osc s) (mixed s) (rings s) (base s) (envl s) (learnt s) (seg s) (trk s) (tail s).
Definition withEnv (s : Sig) (e : Envelope) : Sig :=
  MkSig (searching s) (samplesConsumed s) (search s) (live s) (osc s) (mixed s) (rings s) (base s) e (learnt s) (seg s) (trk s) (tail s).
Definition withSeg (s : Sig) (g : Segment) : Sig :=
  MkSig (searching s) (samplesConsumed s) (search s) (live s) (osc s) (mixed s) (rings s) (base s) (envl s) (learnt s) g (trk s) (tail s).
Definition withTail (s : Sig) (w : Impl) : Sig :=
  MkSig (searching s) (samplesConsumed s) (search s) (live s) (osc s) (mixed s) (rings s) (base s) (envl s) (learnt s) (seg s) (trk s) w.

(** ** The envelope, as MSF has it *)

Definition percentiles : Envelope -> option Envelope := updatePercentiles 0.05%D.
Definition haveContrast : Envelope -> bool := contrastOver kMinContrast 1e-9%D.
Definition dropSample : Envelope -> Z -> Z -> double -> Z -> option double := edgeSampleAt 5 1e-12%D.

(** A fall that is a second's edge: 450 ms of carrier before it, four fifths of it
    above the midpoint. The code asks that what it reads has not been overwritten,
    and not that it was ever written. *)
Definition carrierBefore (e : Envelope) (i : Z) : option bool :=
  if i - kCarrierBefore <? envCount e - kEnvCap then Some false
  else
    vs ← envRange e (i - kCarrierBefore + 1) (Z.to_nat (kCarrierBefore - 5));
    Some ((kCarrierBefore - 5) * 8 / 10 <=? Z.of_nat (length (filter (fun v => (thrMid e <=? v)%D = true) vs))).
Definition isSecondEdge (e : Envelope) (i : Z) : option bool :=
  f ← isFallingEdge e i; if (f : bool) then carrierBefore e i else Some false.

Section Chain.
(** [fNominal] is the carrier's offset the decoder is made with. *)
Context `{Libm} `{Pow} (cfg : Config) (sr decim : Z) (fNominal : double).

Definition envPos (s : Sig) (sample : double) : double :=
  ((sample - d_of_Z (base s) + lpfDelay (mixed s)) / d_of_Z decim)%D.

Definition newest (s : Sig) : Z := samplesConsumed s - 1.
Definition oldest (s : Sig) : Z :=
  Z.max (zStart (rings s)) (samplesConsumed s - Z.of_nat (length (zRe (rings s))) + 1).
(** The baseband at the samples [a] to [b]. *)
Definition zFrom (s : Sig) (a b : Z) : option (list (double * double)) :=
  re ← ringFrom (oldest s) (newest s) (zRe (rings s)) a b;
  im ← ringFrom (oldest s) (newest s) (zIm (rings s)) a b;
  Some (combine re im).
Definition sumZ2 (l : list (double * double)) : double * double := (total (map fst l), total (map snd l)).

(** ** Edges at full rate *)

(** The carrier's direction over some samples. *)
Definition direction (l : list (double * double)) : option (double * double) :=
  let '(re, im) := sumZ2 l in
  let m := lm_hypot re im in
  if (0 <? m)%D then Some (re / m, im / m)%D else None.
Definition amp (d z : double * double) : double := (fst z * fst d + snd z * snd d)%D.
Definition quad (d z : double * double) : double := (snd z * fst d - fst z * snd d)%D.

(** The peak of a correlation over [2 search + 1] lags, strictly inside them. *)
Definition insidePeak (y : list double) (search : Z) : option nat :=
  let bi := argmax y in
  if negb (0 <? nth bi y 0)%D || (Z.of_nat bi <=? 0) || (2 * search <=? Z.of_nat bi) then None else Some bi.

(** Where the amplitude falls fastest; NaN when no peak is inside. *)
Definition steepestAt (s : Sig) (center sgSec searchSec : double) : option double :=
  let sg := (sgSec * d_of_Z sr)%D in
  let half := d2ll (dceil (4 * sg))%D in
  let search := Z.max 2 (spanOf sr searchSec) in
  let c := dllround center in
  let pre0 := c - search - spanOf sr 0.035 in
  let pre1 := c - search - half in
  if (pre0 <? oldest s) || (newest s <? c + search + half) then Some nan
  else
    zs ← zFrom s pre0 pre1;
    match direction zs with
    | None => Some nan
    | Some d =>
        zs ← zFrom s (c - search - half) (c + search + half);
        let a := map (amp d) zs in
        let g := map (fun i => let k := d_of_Z (Z.of_nat i - half) in (- k * lm_exp (-0.5 * k * k / (sg * sg)))%D)
                     (seq 0 (Z.to_nat (2 * half + 1))) in
        let y := map (fun j => dot (drop j a) g) (seq 0 (Z.to_nat (2 * search + 1))) in
        match insidePeak y search with
        | None => Some nan
        | Some bi => Some (d_of_Z (c + Z.of_nat bi - search) + peakFrac y bi)%D
        end
    end.

(** Running sums: [p + re * x + im * y]. *)
Fixpoint sums (f : double -> double * double -> double) (p : double) (l : list (double * double)) : list double :=
  p :: match l with [] => [] | z :: l => sums f (f p z) l end.
Definition stepOf (w : nat) (p : list double) (i : nat) : double :=
  let x k := nth k p 0%D in ((x i - x (i - w)%nat) - (x (i + w)%nat - x i))%D.
(** Where the mean of 40 ms before is furthest above that of 40 ms after, with how
    far it stands above the same on the quadrature component; the latter is 0 when
    nothing was correlated. *)
Definition stepAt (s : Sig) (center searchSec : double) : option (double * double) :=
  let W := Z.max 4 (spanOf sr kStepSec) in
  let search := Z.max 2 (spanOf sr searchSec) in
  let c := dllround center in
  let lo := c - search - W in
  let hi := c + search + W in
  let pre0 := lo - spanOf sr 0.035 in
  if (pre0 <? oldest s) || (newest s <? hi) then Some (nan, 0)%D
  else
    zs ← zFrom s pre0 (lo - 1);
    match direction zs with
    | None => Some (nan, 0)%D
    | Some d =>
        zs ← zFrom s lo (hi - 1);
        let P := sums (fun p z => p + fst z * fst d + snd z * snd d)%D 0%D zs in
        let Q := sums (fun p z => p + snd z * fst d - fst z * snd d)%D 0%D zs in
        let w := Z.to_nat W in
        let lags := seq 0 (Z.to_nat (2 * search + 1)) in
        let y := map (fun j => stepOf w P (w + j)) lags in
        let q := map (fun j => stepOf w Q (w + j)) lags in
        let q2 := fold_left (fun a v => a + v * v)%D q 0%D in
        let sig := if (q2 >? 0)%D then (nth (argmax y) y 0 / PrimFloat.sqrt (q2 / d_of_Z (Z.of_nat (length y))))%D else 0%D in
        match insidePeak y search with
        | None => Some (nan, sig)
        | Some bi => Some ((d_of_Z (c + Z.of_nat bi - search) - 0.5 + peakFrac y bi)%D, sig)
        end
    end.

Definition refineEdge (s : Sig) (coarse : double) : option (double * double) :=
  '(wide, sig) ← stepAt s coarse kSlopeSearchSec;
  if negb (disfinite wide) then Some (wide, sig)
  else
    fine ← steepestAt s wide kSlopeSigmaSec kSlopeFineSearchSec;
    Some (if disfinite fine then fine else wide, sig).

(** ** Where the seconds are *)

Definition trySeed (s : Sig) : option Sig :=
  let e := envl s in
  let g := seg s in
  if (envCount e <? kWarmEnv) || negb (haveContrast e) then Some s
  else
    '(found, scan) ← scanFrom (isSecondEdge e) (scanStart e (scanPos g)) (scanLength e (scanPos g)) (scanPos g);
    match found with
    | Some i => x ← dropSample e (base s) decim (lpfDelay (mixed s)) i;
                Some (withTail (withSeg s (MkSeg true x scan (wideOff g))) (withHist (tail s) []))
    | None => Some (withSeg s (MkSeg (segValid g) (segEdge g) scan (wideOff g)))
    end.

Definition findFallingEdgeNear (s : Sig) (pred tol : Z) : option (option double) :=
  let e := envl s in
  if negb (haveContrast e) then Some None
  else
    best ← edgeNear (isSecondEdge e) e pred tol;
    match best with
    | None => Some None
    | Some i =>
        coarse ← dropSample e (base s) decim (lpfDelay (mixed s)) i;
        '(x, _) ← refineEdge s coarse;
        Some (if disfinite x then Some x else None)
    end.

(** ** The second's bits *)

Definition trackCarrier (l : Learnt) (at_ theta : double) : Learnt :=
  let f :=
    match prevTheta l with
    | Some (theta0, at0) =>
        if (at_ >? at0)%D then
          let dt := ((at_ - at0) / d_of_Z sr)%D in
          let d := dremainder (theta - theta0 - 2 * kPi * fResidual l * dt)%D (2 * kPi)%D in
          if (dt >? 0.5)%D && (dt <? 1.5)%D
          then dclamp (fResidual l + kFreqGain * d / (2 * kPi * dt))%D (-0.5) 0.5
          else fResidual l
        else fResidual l
    | None => fResidual l
    end in
  MkLearnt (lowFrac l) f (Some (theta, at_)).

(** The reads for the picture of the second: as much of it as has arrived. *)
Definition showWindow (e : Envelope) (j0 : Z) : option unit :=
  fold_left (fun acc k => _ ← acc; _ ← envAt e (Z.min (j0 + Z.of_nat k) (envCount e - 1)); Some tt)
    (seq 0 100) (Some tt).

(** A sample on the carrier's phase, carried to it from [mid]. *)
Definition onPhase (theta w0 mid : double) (n : Z) (z : double * double) : double * double :=
  let ph := (theta + w0 * (d_of_Z n - mid))%D in
  let d := (lm_cos ph, lm_sin ph) in (amp d z, quad d z).
Definition projected (s : Sig) (theta w0 mid : double) (a b : Z) : option (list (double * double)) :=
  zs ← zFrom s a b; Some (imap (fun i z => onPhase theta w0 mid (a + Z.of_nat i) z) zs).

Definition unreadSecond (edge : double) : SecRec := MkSec (dllround edge) edge false false 0 0 0 0 0 true.

(** The second's record, and what was learnt. *)
Definition classify (s : Sig) (edge : double) : option (SecRec * Learnt) :=
  let l := learnt s in
  let unread l := Some (unreadSecond edge, l) in
  _ ← showWindow (envl s) (dllround (envPos s edge));
  let c := dllround edge in
  let pre0 := c - spanOf sr 0.450 in
  let pre1 := c - spanOf sr 0.010 in
  if (pre0 <? oldest s) || (newest s <? c + spanOf sr 0.500) then unread l
  else
    zs ← zFrom s pre0 pre1;
    let '(re, im) := sumZ2 zs in
    if negb (0 <? lm_hypot re im)%D then unread l
    else
      let theta := lm_atan2 im re in
      let mid := (0.5 * d_of_Z (pre0 + pre1))%D in
      let l := trackCarrier l mid theta in
      let w0 := (2 * kPi * fResidual l / d_of_Z sr)%D in
      ps ← projected s theta w0 mid pre0 pre1;
      let np := d_of_Z (pre1 - pre0 + 1) in
      let Hc := (total (map fst ps) / np)%D in
      let sigma := PrimFloat.sqrt (fold_left (fun a p => a + snd p * snd p)%D ps 0 / np)%D in
      if negb (0 <? Hc)%D || negb (haveContrast (envl s)) then unread l
      else
        let a0 := spanOf sr 0.020 in
        let a1 := spanOf sr 0.080 in
        let per := d_of_Z (a1 - a0 + 1) in
        let tenth t :=
          let from := c + spanOf sr (0.1 * d_of_Z t)%D in
          ps ← projected s theta w0 mid (from + a0) (from + a1);
          Some (total (map fst ps) / per)%D in
        let depth := dmax 0.1 (1 - lowFrac l)%D in
        v0 ← tenth 0; v1 ← tenth 1; v2 ← tenth 2; v3 ← tenth 3; v4 ← tenth 4;
        let x v := ((1 - v / Hc) / depth)%D in
        let sx := dmax 1e-4 (sigma / PrimFloat.sqrt per / (Hc * depth))%D in
        let m := (0.5 * (x v3 + x v4))%D in
        let cut := (0.5 <=? x v0)%D in
        let conf z : double := if cut then confOf z else 0%D in
        Some (MkSec (dllround edge) edge true (0.5 <=? m)%D (conf (dabs (m - 0.5) / (sx / PrimFloat.sqrt 2))%D)
                (Z.b2z (0.5 <=? x v1)%D) (Z.b2z (0.5 <=? x v2)%D)
                (conf (dabs (x v1 - 0.5) / sx)%D) (conf (dabs (x v2 - 0.5) / sx)%D) cut,
              if cut then MkLearnt (lowFrac l + 0.02 * (dclamp (v0 / Hc) 0 0.9 - lowFrac l))%D (fResidual l) (prevTheta l)
              else l).

(** ** Once per second *)

(** How the second's edge was timed. *)
Record Timing := MkTiming { t_meas : bool; t_edge : double; t_trk : EdgeTracker; t_wideOff : list double }.
Definition withinLast (n : nat) (l : list double) : list double := if (n <? length l)%nat then drop 1 l else l.
(** A settled tracker against the wide search: re-seeded at the median of the last
    fifteen offsets when that is more than a millisecond. *)
Definition reseed (t : Timing) (pred wide sig : double) : Timing :=
  if disfinite wide && (kReseedSig <=? sig)%D then
    let off := withinLast kReseedWindow (t_wideOff t ++ [(wide - pred)%D]) in
    let med := nthSmallest (length off / 2) off in
    if (length off =? kReseedWindow)%nat && (dabs med >? kReseedSec * d_of_Z sr)%D
    then MkTiming true (pred + med)%D (trkReset (t_trk t)) []
    else MkTiming (t_meas t) (t_edge t) (t_trk t) off
  else t.
(** A settled tracker times the edge itself; one that is not leaves it untimed. *)
Definition timeByTracker (s : Sig) : option Timing :=
  let pred := segEdge (seg s) in
  if valid (trk s) && (kTrkWarm <? Signals.count (trk s)) then
    fine ← steepestAt s pred kSlopeSigmaSec kSlopeTrackSec;
    '(wide, sig) ← refineEdge s pred;
    Some (reseed (MkTiming (disfinite fine && haveContrast (envl s)) fine (trk s) (wideOff (seg s))) pred wide sig)
  else Some (MkTiming false 0 (trk s) (wideOff (seg s))).
Definition timeEdge (s : Sig) : option Timing :=
  let pred := segEdge (seg s) in
  let warm := valid (trk s) && (kTrkWarm <? Signals.count (trk s)) in
  t ← timeByTracker s;
  t ← (if t_meas t then Some t
       else
         found ← findFallingEdgeNear s (dllround (envPos s pred)) kEdgeTol;
         Some (match found with
               | Some x => MkTiming true x (t_trk t) (t_wideOff t)
               | None => t
               end));
  let k := t_trk t in
  let k := update sr k (t_meas t) (t_edge t) (if valid k then period k else d_of_Z sr)
             (if warm then (kTrkOutlierSec * d_of_Z sr)%D else d_of_Z decim) in
  Some (MkTiming (t_meas t) (if valid k then Signals.edge k else pred) k (t_wideOff t)).

(** What is left of the second once its edge is timed. *)
Definition readSecond (s : Sig) (t : Timing) : option Sig :=
  '(r, l) ← classify s (t_edge t);
  let k := t_trk t in
  let p := if valid k then period k else d_of_Z sr in
  let blind := if t_meas t then 0 else blindSeconds (tail s) + 1 in
  let w := processSecond cfg sr (tail s) r (t_meas t) p in
  let next := if valid k then (Signals.edge k + period k)%D else (t_edge t + d_of_Z sr)%D in
  let lost := kMaxBlindSeconds <=? blind in
  let g := seg s in
  Some (MkSig (searching s) (samplesConsumed s) (search s) (live s) (osc s) (mixed s) (rings s) (base s) (envl s) l
          (if lost then MkSeg false next 0 (t_wideOff t) else MkSeg (segValid g) next (scanPos g) (t_wideOff t))
          (if lost then trkReset k else k) w).
Definition nextSecond (s : Sig) : option Sig := t ← timeEdge s; readSecond s t.

Definition canProcessSecond (s : Sig) : bool :=
  d2ll (dfloor (envPos s (segEdge (seg s)))) + kClassifyEnv + kEdgeTol + kEdgeLook <=? envCount (envl s).
Definition secondDue (s : Sig) : bool := negb (searching s) && segValid (seg s) && canProcessSecond s.

(** ** Sample by sample *)

Definition startSteady (s : Sig) (f : double) : Sig :=
  let o := tuned sr fNominal (osc s) f in
  let lp := lowpass (d_of_Z sr) kLpfCutHz in
  let m := mixed s in
  MkSig false (samplesConsumed s) (search s) (live s) (MkOsc (f0 o) 1 0 (stepRe o) (stepIm o) 0)
    (MkMixed lp lp (groupDelay lp) (magAccum m) (magCount m)) (MkRings (zRe (rings s)) (zIm (rings s)) (samplesConsumed s))
    (samplesConsumed s) (envl s) (learnt s) (seg s) (trk s) (setLockState (tail s) LockAcquiring).
Definition feedAcquisition (s : Sig) (xr xi : double) : Sig :=
  let '(g, found) := searchStep sr fNominal (search s) xr xi in
  let s := withSearch s g in
  match found with Some f => startSteady s f | None => s end.

(** A value into the envelope, and the first second looked for. *)
Definition pushEnvelope (s : Sig) (v : double) : option Sig :=
  e ← percentiles (pushed (envl s) v);
  let s := withEnv s e in
  if segValid (seg s) then Some s else trySeed s.

(** A sample mixed down, and the envelope's next value if it completes one. *)
Definition mixSample (s : Sig) (xr xi : double) : Sig * option double :=
  let '(o, (zr, zi)) := mixDown (osc s) xr xi in
  let '(lv, db) := liveToneStep sr (live s) (snr (search s)) zr zi in
  let r := rings s in
  let r := MkRings (ringPut (zRe r) (newest s) (fround zr)) (ringPut (zIm r) (newest s) (fround zi)) (zStart r) in
  let m := mixed s in
  let '(qi, i) := bqProcess (lpI m) zr in
  let '(qq, q) := bqProcess (lpQ m) zi in
  let acc := (magAccum m + PrimFloat.sqrt (i * i + q * q))%D in
  let n := magCount m + 1 in
  let full := decim <=? n in
  let g := search s in
  (MkSig false (samplesConsumed s) (MkSearch (bins g) (acqCount g) db) lv o
     (MkMixed qi qq (lpfDelay m) (if full then 0%D else acc) (if full then 0 else n)) r (base s) (envl s)
     (learnt s) (seg s) (trk s) (tail s),
   if full then Some (fround (acc / d_of_Z n)%D) else None).
Definition feedSteady (s : Sig) (xr xi : double) : option Sig :=
  let '(s, v) := mixSample s xr xi in
  match v with Some v => pushEnvelope s v | None => Some s end.

Definition counted (s : Sig) : Sig :=
  MkSig (searching s) (samplesConsumed s + 1) (search s) (live s) (osc s) (mixed s) (rings s) (base s) (envl s)
    (learnt s) (seg s) (trk s) (tail s).
Definition feed (s : Sig) (xr xi : double) : option Sig :=
  let s := counted s in if searching s then Some (feedAcquisition s xr xi) else feedSteady s xr xi.

(** ** Construction and reset *)

Definition ringCap : nat := Z.to_nat (capOf (3 * sr)).
Definition fresh : Impl := MkImpl LockNoSignal [] emptyCount noVote None 0 [] 0 [].
Definition construct : Sig :=
  MkSig true 0 (newSearch sr fNominal) (newLive sr) (newOsc fNominal) (MkMixed passThrough passThrough 0 0 0)
    (MkRings (replicate ringCap 0%D) (replicate ringCap 0%D) 0) 0 noEnvelope (MkLearnt 0.05 0 None)
    (MkSeg false 0 0 []) noTracker fresh.
(** [reset]: the ring of the baseband and the voter's frames are left as they are. *)
Definition resetTail (w : Impl) : Impl :=
  setLockState (withFrom (withLast (dropAnchor (withBlind (withHist w []) 0)) None) 0) LockNoSignal.
Definition reset (s : Sig) : Sig :=
  let g := search s in
  let o := osc s in
  let m := mixed s in
  MkSig true 0 (MkSearch (map binReset (bins g)) 0 0) (MkLive (map binReset (liveBins (live s))) 0)
    (MkOsc fNominal 1 0 (stepRe o) (stepIm o) 0) (MkMixed (bqReset (lpI m)) (bqReset (lpQ m)) (lpfDelay m) 0 0)
    (rings s) 0 noEnvelope (MkLearnt 0.05 0 None) (MkSeg false 0 0 []) (trkReset (trk s)) (resetTail (tail s)).

(** ** What the decoder does with its samples: one at a time, each followed by the
    seconds it makes due. *)
Inductive reach : Sig -> list (double * double) -> Prop :=
  | reach_start : reach construct []
  | reach_sample s s' xs xr xi : reach s xs -> secondDue s = false -> feed s xr xi = Some s' -> reach s' (xs ++ [(xr, xi)])
  | reach_second s s' xs : reach s xs -> secondDue s = true -> nextSecond s = Some s' -> reach s' xs.

End Chain.

(** ** Lemmas: what is read is there *)

Section Reads.
Context `{Libm} `{Pow} (cfg : Config) (sr decim : Z) (fNominal : double).

(** The spans a sample rate rounds to nest as they should. *)
Definition slopeHalf : Z := d2ll (dceil (4 * (kSlopeSigmaSec * d_of_Z sr)))%D.
Definition geometryOk : bool :=
  (0 <=? slopeHalf) && (slopeHalf <=? spanOf sr 0.035) &&
  (0 <=? spanOf sr 0.010) && (spanOf sr 0.010 <=? spanOf sr 0.450) && (0 <=? spanOf sr 0.020) &&
  (spanOf sr 0.020 <=? spanOf sr 0.080) &&
  forallb (fun t => (0 <=? spanOf sr (0.1 * d_of_Z t)%D) && (spanOf sr (0.1 * d_of_Z t)%D + spanOf sr 0.080 <=? spanOf sr 0.500))
    [0; 1; 2; 3; 4].
Hypothesis Geo : geometryOk = true.

Lemma msf_geometry :
  0 <= slopeHalf <= spanOf sr 0.035 /\ 0 <= spanOf sr 0.010 <= spanOf sr 0.450 /\
  0 <= spanOf sr 0.020 <= spanOf sr 0.080 /\
  forall t, In t [0; 1; 2; 3; 4] ->
    0 <= spanOf sr (0.1 * d_of_Z t)%D /\ spanOf sr (0.1 * d_of_Z t)%D + spanOf sr 0.080 <= spanOf sr 0.500.
Proof.
  unfold geometryOk in Geo. rewrite !andb_true_iff, forallb_forall, !Z.leb_le in Geo. destruct Geo as ((((((A & B) & C) & D) & E) & F) & G).
  repeat split; try assumption; apply G in H1; rewrite andb_true_iff, !Z.leb_le in H1; apply H1.
Qed.

Definition ringsOk (r : Rings) : Prop := (0 < length (zRe r))%nat /\ length (zIm r) = length (zRe r).

Lemma zFrom_some s a b : ringsOk (rings s) -> oldest s <= a -> b <= newest s -> a <= b + 1 -> exists zs, zFrom s a b = Some zs.
Proof.
  intros [R1 R2] A B L. unfold zFrom.
  destruct (ringFrom_some (oldest s) (newest s) (zRe (rings s)) a b) as (x & -> & _); [lia..|].
  destruct (ringFrom_some (oldest s) (newest s) (zIm (rings s)) a b) as (y & -> & _); [lia..|]. by eexists.
Qed.
Lemma projected_some s theta w0 mid a b : ringsOk (rings s) -> oldest s <= a -> b <= newest s -> a <= b + 1 ->
  exists ps, projected s theta w0 mid a b = Some ps.
Proof. intros R A B L. unfold projected. destruct (zFrom_some s a b R A B L) as [zs ->]. by eexists. Qed.

Lemma steepest_some s center sec : ringsOk (rings s) -> exists x, steepestAt sr s center kSlopeSigmaSec sec = Some x.
Proof.
  intros R. destruct msf_geometry as (G1 & _). unfold steepestAt. fold slopeHalf. cbv zeta.
  set (search := Z.max 2 _). set (c := dllround center).
  destruct (Z.ltb_spec (c - search - spanOf sr 0.035) (oldest s)); [by eexists|].
  destruct (Z.ltb_spec (newest s) (c + search + slopeHalf)); [by eexists|]. cbn [orb].
  destruct (zFrom_some s (c - search - spanOf sr 0.035) (c - search - slopeHalf) R) as [zs ->]; [lia..|]. cbn [mbind option_bind].
  destruct (direction zs); [|by eexists].
  destruct (zFrom_some s (c - search - slopeHalf) (c + search + slopeHalf) R) as [zs' ->]; [lia..|]. cbn [mbind option_bind].
  destruct (insidePeak _ _); by eexists.
Qed.
Lemma step_some s center sec : ringsOk (rings s) -> exists x, stepAt sr s center sec = Some x.
Proof.
  intros R. destruct msf_geometry as (G1 & _). unfold stepAt. cbv zeta. set (W := Z.max 4 _). set (search := Z.max 2 _). set (c := dllround center).
  destruct (Z.ltb_spec (c - search - W - spanOf sr 0.035) (oldest s)); [by eexists|].
  destruct (Z.ltb_spec (newest s) (c + search + W)); [by eexists|]. cbn [orb].
  destruct (zFrom_some s (c - search - W - spanOf sr 0.035) (c - search - W - 1) R) as [zs ->]; [lia..|]. cbn [mbind option_bind].
  destruct (direction zs); [|by eexists].
  destruct (zFrom_some s (c - search - W) (c + search + W - 1) R) as [zs' ->]; [lia..|]. cbn [mbind option_bind].
  destruct (insidePeak _ _); by eexists.
Qed.
Lemma refine_some s x : ringsOk (rings s) -> exists r, refineEdge sr s x = Some r.
Proof.
  intros R. unfold refineEdge. destruct (step_some s x kSlopeSearchSec R) as [[wide sig] ->]. cbn [mbind option_bind].
  destruct (negb _); [by eexists|]. destruct (steepest_some s wide kSlopeFineSearchSec R) as [fine ->]. by eexists.
Qed.

(** The first read the code does not guard: the carrier before a fall in the first
    44 values of the envelope, which was never written. *)
Definition carrierUnwritten (e : Envelope) (i : Z) : Prop :=
  isFallingEdge e i = Some true /\ i < kCarrierBefore - 1 /\ envCount e - kEnvCap <= i - kCarrierBefore.
Lemma secondEdge_none e i : ringOk e -> inReach e i -> isSecondEdge e i = None <-> carrierUnwritten e i.
Proof.
  intros R J. unfold isSecondEdge, carrierUnwritten. destruct (fallingEdge_some e i R J) as [f F]. rewrite F.
  cbn [mbind option_bind]. destruct f; [|split; [done|by intros [? _]]]. destruct J as (J1 & J2 & J3).
  unfold carrierBefore, kCarrierBefore, kEnvCap in *.
  destruct (Z.ltb_spec (i - 45) (envCount e - 1024)); [split; [done|intros (_ & _ & ?); lia]|].
  destruct (Z.lt_ge_cases i 44) as [L|L].
  - split; [by auto|]. intros _. assert (U : envAt e (i - 45 + 1) = None) by (unfold envAt; by destruct (Z.leb_spec 0 (i - 45 + 1)); [lia|]).
    change (Z.to_nat (45 - 5)) with (S 39). generalize 39%nat. intros n. cbn [envRange]. by rewrite U.
  - destruct (envRange_some e (Z.to_nat (45 - 5)) (i - 45 + 1) R) as (vs & -> & _); [unfold kEnvCap; lia..|].
    split; [done|intros (_ & ? & _); lia].
Qed.

(** The search for a first edge comes to such a fall. *)
Definition seedFails (s : Sig) : Prop :=
  kWarmEnv <= envCount (envl s) /\ haveContrast (envl s) = true /\
  exists i, inReach (envl s) i /\ scanPos (seg s) <= i /\
    (forall j, inReach (envl s) j -> scanPos (seg s) <= j < i -> isSecondEdge (envl s) j = Some false) /\
    carrierUnwritten (envl s) i.
Lemma seed_cases s : ringOk (envl s) ->
  (trySeed decim s = None <-> seedFails s) /\
  (forall s', trySeed decim s = Some s' -> s' = s \/ exists g, s' = withSeg s g \/ s' = withTail (withSeg s g) (withHist (tail s) [])).
Proof.
  intros R. unfold trySeed, seedFails.
  destruct (Z.ltb_spec (envCount (envl s)) kWarmEnv); [cbn [orb]; split; [split; [done|intros [? _]; lia]|intros ? [= <-]; auto]|].
  destruct (haveContrast (envl s)); cbn [orb negb]; [|split; [split; [done|by intros (_ & ? & _)]|intros ? [= <-]; auto]].
  destruct (scanFrom _ _ _ _) as [[found scan]|] eqn:E; cbn [mbind option_bind].
  - split.
    + split.
      * destruct found as [i|]; [|done]. unfold dropSample.
        destruct (scan_cases (envl s) (isSecondEdge (envl s)) (scanPos (seg s))) as [(found & scan' & E' & F)|(E' & _)]; [|congruence].
        rewrite E in E'. injection E' as <- <-.
        destruct (fallAt_some 5 1e-12%D (envl s) (base s) decim (lpfDelay (mixed s)) i R) as [x ->]; [lia|by apply F|done].
      * intros (_ & _ & i & I & S & B & U). enough (N : scanFrom (isSecondEdge (envl s)) (scanStart (envl s) (scanPos (seg s)))
          (scanLength (envl s) (scanPos (seg s))) (scanPos (seg s)) = None) by congruence.
        apply scan_none. exists i. repeat (split; [done|]). by apply secondEdge_none.
    + intros s'. destruct found as [i|]; [destruct (dropSample _ _ _ _ _) as [x|]; [|done]|]; cbn [mbind option_bind]; intros [= <-];
        right; eexists; [by right|by left].
  - split; [|done]. split; [|done]. intros _. apply scan_none in E. destruct E as (i & I & S & B & U).
    split; [done|]. split; [done|]. exists i. repeat (split; [done|]). by apply secondEdge_none.
Qed.

(** The search for the edge of a second comes to such a fall within its reach. *)
Definition nearFails (s : Sig) (pred tol : Z) : Prop :=
  haveContrast (envl s) = true /\
  exists i, inReach (envl s) i /\ pred - tol <= i <= pred + tol /\ carrierUnwritten (envl s) i.
Lemma findEdge_none s pred tol : ringOk (envl s) -> ringsOk (rings s) ->
  findFallingEdgeNear sr decim s pred tol = None <-> nearFails s pred tol.
Proof.
  intros R Z. unfold findFallingEdgeNear, nearFails. destruct (haveContrast (envl s)); cbn [negb]; [|split; [done|by intros [? _]]].
  assert (N : edgeNear (isSecondEdge (envl s)) (envl s) pred tol = None <->
    exists i, inReach (envl s) i /\ pred - tol <= i <= pred + tol /\ carrierUnwritten (envl s) i).
  { rewrite edgeNear_none. split; intros (i & I & J & U); exists i; (split; [exact I|]; split; [exact J|]; by apply secondEdge_none). }
  destruct (edgeNear_cases (envl s) (isSecondEdge (envl s)) pred tol) as [(b & E & F)|(E & _)]; rewrite E in N |- *; cbn [mbind option_bind].
  2: { split; [|done]. intros _. split; [done|]. by apply N. }
  assert (O : ~ exists i, inReach (envl s) i /\ pred - tol <= i <= pred + tol /\ carrierUnwritten (envl s) i)
    by (intros U; apply N in U; done).
  split; [|by intros [_ ?]]. destruct b as [i|]; [|done]. destruct (F i eq_refl) as [F1 _].
  unfold dropSample. destruct (fallAt_some 5 1e-12%D (envl s) (base s) decim (lpfDelay (mixed s)) i R) as [x ->]; [lia|exact F1|].
  cbn [mbind option_bind]. by destruct (refine_some s x Z) as [[y ?] ->].
Qed.

Lemma timeByTracker_some s : ringsOk (rings s) -> exists t, timeByTracker sr s = Some t.
Proof.
  intros Z. unfold timeByTracker. destruct (_ && _); [|by eexists].
  destruct (steepest_some s (segEdge (seg s)) kSlopeTrackSec Z) as [fine ->]. cbn [mbind option_bind].
  destruct (refine_some s (segEdge (seg s)) Z) as [[wide sig] ->]. by eexists.
Qed.
(** The second's edge is looked for in the envelope, and the search fails. *)
Definition edgeFails (s : Sig) : Prop :=
  (exists t, timeByTracker sr s = Some t /\ t_meas t = false) /\
  nearFails s (dllround (envPos decim s (segEdge (seg s)))) kEdgeTol.
Lemma timeEdge_none s : ringOk (envl s) -> ringsOk (rings s) -> timeEdge sr decim s = None <-> edgeFails s.
Proof.
  intros R Z. unfold timeEdge, edgeFails. cbv zeta. destruct (timeByTracker_some s Z) as [t E]. rewrite E. cbn [mbind option_bind].
  destruct (t_meas t) eqn:M; cbn [mbind option_bind]; [split; [done|intros [(t' & [= <-] & ?) _]; congruence]|].
  rewrite <- findEdge_none by done. destruct (findFallingEdgeNear _ _ _ _ _); cbn [mbind option_bind]; split; try done; [by intros [_ ?]|].
  intros _. split; [by exists t|done].
Qed.

(** The second read the code does not guard: the picture's, when the second it is
    of began before the envelope did, or has gone from it. *)
Definition pictureGone (s : Sig) (edge : double) : Prop :=
  Z.min (dllround (envPos decim s edge)) (envCount (envl s) - 1) < Z.max 0 (envCount (envl s) - kEnvCap).
#[global] Instance pictureGone_dec s edge : Decision (pictureGone s edge).
Proof. unfold pictureGone. apply _. Defined.
Lemma showWindow_none e j0 : ringOk e ->
  showWindow e j0 = if Z.min j0 (envCount e - 1) <? Z.max 0 (envCount e - kEnvCap) then None else Some tt.
Proof.
  intros R. unfold showWindow. set (f := fun acc (k : nat) => _ ← acc; _ ← envAt e (Z.min (j0 + Z.of_nat k) (envCount e - 1)); Some tt).
  destruct (Z.ltb_spec (Z.min j0 (envCount e - 1)) (Z.max 0 (envCount e - kEnvCap))) as [G|G].
  - assert (N : forall l, fold_left f l None = None) by (induction l; done). change (seq 0 100) with (0%nat :: seq 1 99). cbn [fold_left].
    assert (F0 : f (Some tt) 0%nat = None); [|by rewrite F0].
    unfold f, envAt, kEnvCap in *. cbn [mbind option_bind]. rewrite Z.add_0_r.
    destruct (Z.leb_spec 0 (Z.min j0 (envCount e - 1))), (Z.leb_spec (envCount e - 1024) (Z.min j0 (envCount e - 1))); try lia;
      by rewrite ?andb_false_r.
  - generalize (seq 0 100) as l. induction l as [|k l IH]; [done|]. cbn [fold_left].
    assert (Fk : f (Some tt) k = Some tt); [|by rewrite Fk].
    unfold f. cbn [mbind option_bind]. destruct (envAt_some e (Z.min (j0 + Z.of_nat k) (envCount e - 1)) R) as [v ->]; [lia|lia|done].
Qed.

Lemma msf_classify_some s edge : ringOk (envl s) -> ringsOk (rings s) -> ~ pictureGone s edge ->
  exists r, classify sr decim s edge = Some r.
Proof.
  intros Re R W0. assert (W : showWindow (envl s) (dllround (envPos decim s edge)) = Some tt).
  { unfold pictureGone in W0. rewrite showWindow_none by done. by destruct (Z.ltb_spec (Z.min (dllround (envPos decim s edge)) (envCount (envl s) - 1)) (Z.max 0 (envCount (envl s) - kEnvCap))). } destruct msf_geometry as (_ & G2 & G3 & G4). unfold classify. rewrite W. cbn [mbind option_bind]. cbv zeta. set (c := dllround edge).
  destruct (Z.ltb_spec (c - spanOf sr 0.450) (oldest s)) as [O|O]; [by eexists|].
  destruct (Z.ltb_spec (newest s) (c + spanOf sr 0.500)) as [N|N]; [by eexists|]. cbn [orb].
  destruct (G4 0) as [T1 T2]; [cbn; tauto|].
  destruct (zFrom_some s (c - spanOf sr 0.450) (c - spanOf sr 0.010) R) as [zs ->]; [lia..|]. cbn [mbind option_bind].
  destruct (sumZ2 zs) as [re im]. destruct (negb _); [by eexists|].
  match goal with |- context [projected s ?th ?w ?m _ _] =>
    destruct (projected_some s th w m (c - spanOf sr 0.450) (c - spanOf sr 0.010) R) as [ps ->]; [lia..|] end.
  cbn [mbind option_bind]. destruct (_ || _); [by eexists|].
  assert (T : forall th w m t, In t [0; 1; 2; 3; 4] ->
    exists ps, projected s th w m (c + spanOf sr (0.1 * d_of_Z t)%D + spanOf sr 0.020) (c + spanOf sr (0.1 * d_of_Z t)%D + spanOf sr 0.080) = Some ps).
  { intros th w m t I. destruct (G4 t I) as [A B]. apply projected_some; [exact R|lia..]. }
  do 5 match goal with |- context [projected s ?th ?w ?m (c + spanOf sr (0.1 * d_of_Z ?t)%D + _) _] =>
    destruct (T th w m t) as [? ->]; [cbn; tauto|]; cbn [mbind option_bind] end.
  by eexists.
Qed.
End Reads.

(** ** Lemmas: what holds between steps *)

Section Steps.
Context `{Libm} `{Pow} (cfg : Config) (sr decim : Z) (fNominal : double).
Hypothesis Geo : geometryOk sr = true.

(** The decoder as it begins to look for seconds. *)
Definition begun : Impl := setLockState fresh LockAcquiring.
(** The decoder of seconds has run on some; with no second in sight it has no
    history. *)
Definition tailOk (s : Sig) : Prop :=
  (segValid (seg s) = false -> hist (tail s) = []) /\
  if searching s then tail s = fresh /\ segValid (seg s) = false else exists secs, tail s = run cfg sr begun secs.
Definition good (s : Sig) (n : nat) : Prop :=
  samplesConsumed s = Z.of_nat n /\ ringsOk (rings s) /\ ringOk (envl s) /\ tailOk s.

Lemma msf_construct_good : good (construct sr fNominal) 0.
Proof.
  split; [done|]. split; [|split; [apply noEnvelope_holds|done]]. unfold ringsOk. cbn. rewrite !length_replicate.
  unfold ringCap. pose proof (capOf_pos (3 * sr)). lia.
Qed.

Lemma withHist_same w : hist w = [] -> withHist w [] = w.
Proof. destruct w. cbn. by intros ->. Qed.

(** A value goes into the envelope, the search runs on that envelope, and only it
    can fail. *)
Definition pushFails (s : Sig) (v : double) : Prop :=
  segValid (seg s) = false /\ exists e, percentiles (pushed (envl s) v) = Some e /\ seedFails (withEnv s e).
Lemma push_cases s n v : searching s = false -> good s n ->
  (pushEnvelope decim s v = None <-> pushFails s v) /\ (forall s', pushEnvelope decim s v = Some s' -> good s' n).
Proof.
  intros Se (C & Z & R & T1 & T2). rewrite Se in T2. unfold pushEnvelope, pushFails, percentiles.
  destruct (percentiles_some 0.05%D (pushed (envl s) v)) as (e & E & E1 & E2).
  { destruct R as [R1 R2]. split; [cbn; by rewrite length_insert|cbn; lia]. }
  rewrite E. cbn [mbind option_bind]. assert (R' : ringOk e).
  { destruct R as [R1 R2]. split; [rewrite E1; cbn; by rewrite length_insert|rewrite E2; cbn; lia]. }
  assert (G : forall w g, w = tail s -> (segValid g = false -> hist w = []) -> good (withTail (withSeg (withEnv s e) g) w) n).
  { intros w g -> Hw. split; [exact C|]. split; [exact Z|]. split; [exact R'|]. split; [exact Hw|]. cbn. by rewrite Se. }
  change (seg (withEnv s e)) with (seg s). destruct (segValid (seg s)) eqn:V.
  - split; [split; [done|by intros [? _]]|]. intros s' [= <-]. apply (G (tail s) (seg s)); [done|congruence].
  - specialize (T1 eq_refl). destruct (seed_cases decim (withEnv s e) R') as [N D]. rewrite N. split.
    + split; [intros F; split; [done|]; by exists e|]. by intros (_ & e' & [= <-] & F).
    + intros s' Hs. destruct (D s' Hs) as [->|(g & [->| ->])].
      * by apply (G (tail s) (seg s)).
      * by apply (G (tail s) g).
      * apply G; [by apply withHist_same|done].
Qed.

(** The sample completes a value of the envelope with which the search fails. *)
Definition feedFails (s : Sig) (xr xi : double) : Prop :=
  searching s = false /\ exists s1 v, mixSample sr decim (counted s) xr xi = (s1, Some v) /\ pushFails s1 v.
Lemma mixSample_keeps s xr xi : let s1 := fst (mixSample sr decim s xr xi) in
  envl s1 = envl s /\ seg s1 = seg s /\ tail s1 = tail s /\ samplesConsumed s1 = samplesConsumed s /\ searching s1 = false /\
  (ringsOk (rings s) -> ringsOk (rings s1)).
Proof.
  unfold mixSample. destruct (mixDown _ _ _) as [o [zr zi]]. destruct (liveToneStep _ _ _ _ _) as [lv db]. cbv zeta.
  destruct (bqProcess _ _) as [qi i]. destruct (bqProcess _ _) as [qq q]. cbn. repeat (split; [done|]).
  intros [Z1 Z2]. split; cbn; by rewrite !length_ringPut.
Qed.
Lemma feed_cases s n xr xi : good s n ->
  (feed sr decim fNominal s xr xi = None <-> feedFails s xr xi) /\
  (forall s', feed sr decim fNominal s xr xi = Some s' -> good s' (S n)).
Proof.
  intros (C & Z & R & T1 & T2). unfold feed, feedFails. cbv zeta. cbn [counted searching]. destruct (searching s) eqn:Se.
  - split; [split; [done|by intros [? _]]|]. intros s' [= <-]. destruct T2 as [T2 T3]. unfold feedAcquisition. cbn [search counted].
    destruct (searchStep _ _ _ _ _) as [g [f|]].
    + split; [cbn; lia|]. split; [exact Z|]. split; [exact R|]. split; [|cbn; exists []; by rewrite T2]. cbn. by rewrite T2.
    + split; [cbn; lia|]. split; [exact Z|]. split; [exact R|]. split; [exact T1|]. cbn. rewrite Se. by split.
  - unfold feedSteady. destruct (mixSample_keeps (counted s) xr xi) as (K1 & K2 & K3 & K4 & K5 & K6).
    destruct (mixSample sr decim (counted s) xr xi) as [s1 v]. cbn [fst] in *.
    assert (G1 : good s1 (S n)).
    { split; [rewrite K4; cbn; lia|]. split; [by apply K6|]. split; [by rewrite K1|].
      unfold tailOk. rewrite K2, K3, K5. split; [exact T1|exact T2]. }
    destruct v as [v|].
    + destruct (push_cases s1 (S n) v K5 G1) as [N P]. rewrite N. split; [|exact P].
      split; [intros F; split; [done|]; by exists s1, v|]. by intros (_ & ? & ? & [= <- <-] & F).
    + split; [|by intros s' [= <-]]. split; [done|]. by intros (_ & ? & ? & ? & _).
Qed.

Lemma begun_more w secs r m p : w = run cfg sr begun secs ->
  processSecond cfg sr w r m p = run cfg sr begun (secs ++ [(r, m, p)]).
Proof. intros ->. unfold run. by rewrite fold_left_app. Qed.

(** The second's edge cannot be looked for, or its picture cannot be shown. *)
Definition secondFails (s : Sig) : Prop :=
  edgeFails sr decim s \/ exists t, timeEdge sr decim s = Some t /\ pictureGone decim s (t_edge t).
Lemma second_cases s n : good s n ->
  (nextSecond cfg sr decim s = None <-> secondFails s) /\
  (secondDue decim s = true -> forall s', nextSecond cfg sr decim s = Some s' -> good s' n).
Proof.
  intros (C & Z & R & T1 & T2). unfold nextSecond, secondFails. rewrite <- (timeEdge_none sr decim Geo s R Z).
  destruct (timeEdge sr decim s) as [t|] eqn:E; cbn [mbind option_bind]; [|split; [tauto|done]]. split.
  - split.
    + intros N. right. exists t. split; [done|]. destruct (decide (pictureGone decim s (t_edge t))) as [?|G]; [done|].
      unfold readSecond in N. destruct (msf_classify_some sr decim Geo s (t_edge t) R Z G) as [[r l] Ec]. by rewrite Ec in N.
    + intros [?|(t' & [= <-] & G)]; [done|]. unfold readSecond, classify. rewrite showWindow_none by exact R.
      unfold pictureGone in G. apply Z.ltb_lt in G. by rewrite G.
  - intros D s'. unfold secondDue in D. rewrite !andb_true_iff, negb_true_iff in D. destruct D as [[Se V] _].
    rewrite Se in T2. destruct T2 as [secs T2]. unfold readSecond. destruct (classify _ _ _ _) as [[r l]|]; [|done]. cbn [mbind option_bind]. cbv zeta.
    intros [= <-]. split; [exact C|]. split; [exact Z|]. split; [exact R|]. split.
    + cbn [seg tail]. destruct (kMaxBlindSeconds <=? _) eqn:L.
      * intros _. apply processSecond_lost. by apply Z.leb_le.
      * cbn [segValid]. congruence.
    + cbn [searching tail]. rewrite Se. eexists. by apply begun_more.
Qed.

Lemma msf_reach_good s xs : reach cfg sr decim fNominal s xs -> good s (length xs).
Proof.
  induction 1 as [|s s' xs xr xi _ IH D E|s s' xs _ IH D E].
  - apply msf_construct_good.
  - rewrite length_app, Nat.add_1_r. by apply (feed_cases s (length xs) xr xi IH).
  - by apply (second_cases s (length xs) IH).
Qed.
End Steps.

(** ** Properties *)

(** C16: two reads of the signal chain are unguarded, and no other. Whatever
    samples the decoder is given and whatever the C++ library's transcendental
    functions answer, at a sample rate whose rounded spans nest (the hypothesis,
    evaluated for the rates in use), in every state reached the next sample is
    processed with every ring read where it was written, except exactly when it
    completes a value of the envelope with which the search for a first second,
    every earlier place having been no second's edge, comes to a fall in the
    envelope's first 44 values and asks for the carrier before it; and so is a
    second, except exactly when the search for its edge in the envelope comes to
    such a fall, or the picture of it is of a second that began before the envelope,
    or has gone from it. All the samples are counted, and once the carrier is found
    the decoder of seconds has run on a list of seconds and nothing else. *)
Theorem msf_reads_held `{Libm} `{Pow} (cfg : Config) (sr decim : Z) (fNominal : double) :
  geometryOk sr = true ->
  (forall s xs, reach cfg sr decim fNominal s xs -> good cfg sr s (length xs)) /\
  forall s n, good cfg sr s n ->
    samplesConsumed s = Z.of_nat n /\ (searching s = false -> exists secs, tail s = run cfg sr begun secs) /\
    (forall xr xi, feed sr decim fNominal s xr xi = None <-> feedFails sr decim s xr xi) /\
    (nextSecond cfg sr decim s = None <-> secondFails sr decim s).
Proof.
  intros Geo. split; [by apply msf_reach_good|]. intros s n G. split; [apply G|]. split; [|split].
  - intros Se. destruct G as (_ & _ & _ & _ & T). by rewrite Se in T.
  - intros xr xi. by apply (feed_cases cfg sr decim fNominal s n xr xi G).
  - by apply (second_cases cfg sr decim Geo s n G).
Qed.

(** *** Witnesses *)

(** [n] values of envelope whose first fall is at the [first]th: three tenths off in
    every second. *)
Definition earlyEnvelope (n : Z) (first : nat) : Envelope :=
  let v i := if (first <=? i)%nat && (Nat.modulo (i - first) 100 <? 30)%nat then 0.05%D else 1%D in
  default noEnvelope (percentiles (MkEnv (map v (seq 0 200) ++ replicate 824 0%D)%list n 0 0)).
(** The first second of a signal that falls 0.2 s after it was found is looked for
    before the start of the envelope; one that falls after 0.5 s is found. *)
Example msf_early_fall :
  let seeded first := trySeed 120 (withEnv (@construct demoLibm 12000 0) (earlyEnvelope 200 first)) in
  seeded 20%nat = None /\ option_map (fun s => segValid (seg s)) (seeded 50%nat) = Some true.
Proof. vm_compute. split; reflexivity. Qed.

(** Two seconds after the carrier was found, with this envelope, the sample that
    completes the next value of it to come. *)
Definition atTwoSeconds (e : Envelope) (g : Segment) : Sig :=
  let c := @construct demoLibm 12000 0 in
  MkSig false 23999 (search c) (live c) (osc c) (MkMixed passThrough passThrough 0 119 119)
    (MkRings (replicate 1024 0%D) (replicate 1024 0%D) 0) 0 e (learnt c) g (trk c) begun.
Lemma atTwoSeconds_good e g : ringOk e -> @good demoPow buildVoterConfig 12000 (atTwoSeconds e g) (Z.to_nat 23999).
Proof. intros R. split; [done|]. split; [split; cbn; lia|]. split; [exact R|]. split; [done|]. by exists []. Qed.
Lemma earlyEnvelope_ok n first : 0 <= n -> ringOk (earlyEnvelope n first).
Proof.
  intros N. unfold earlyEnvelope, percentiles.
  match goal with |- context [updatePercentiles _ ?e] => destruct (percentiles_some 0.05%D e) as (e' & -> & E1 & E2) end.
  - split; [|exact N]. cbn [env]. by rewrite length_app, length_map, length_seq, length_replicate.
  - cbn. unfold ringOk. rewrite E1, E2. split; [|exact N]. cbn [env]. by rewrite length_app, length_map, length_seq, length_replicate.
Qed.

(** A first fall at the 20th value, looked for as the 200th is completed, and as the
    edge of a second thought to be there; and the picture of a second thought to be
    before the envelope. *)
Lemma msf_reads_held_witness :
  let s1 := atTwoSeconds (earlyEnvelope 199 20) (MkSeg false 0 0 []) in
  let s2 := atTwoSeconds (earlyEnvelope 200 20) (MkSeg true 2400 0 []) in
  let s3 := atTwoSeconds (earlyEnvelope 200 50) (MkSeg true (-600) 0 []) in
  geometryOk 12000 = true /\ Forall (fun s => @good demoPow buildVoterConfig 12000 s (Z.to_nat 23999)) [s1; s2; s3] /\
  secondDue 120 s2 = true /\ secondDue 120 s3 = true /\
  @feed demoLibm 12000 120 0 s1 1 0 = None /\ @feedFails demoLibm 12000 120 s1 1 0 /\
  @nextSecond demoLibm demoPow buildVoterConfig 12000 120 s2 = None /\ @secondFails demoLibm 12000 120 s2 /\
  @nextSecond demoLibm demoPow buildVoterConfig 12000 120 s3 = None /\ @secondFails demoLibm 12000 120 s3.
Proof.
  cbv zeta. set (s1 := atTwoSeconds _ _). set (s2 := atTwoSeconds _ _). set (s3 := atTwoSeconds _ _).
  assert (G1 : @good demoPow buildVoterConfig 12000 s1 (Z.to_nat 23999)) by (apply atTwoSeconds_good, earlyEnvelope_ok; lia).
  assert (G2 : @good demoPow buildVoterConfig 12000 s2 (Z.to_nat 23999)) by (apply atTwoSeconds_good, earlyEnvelope_ok; lia).
  assert (G3 : @good demoPow buildVoterConfig 12000 s3 (Z.to_nat 23999)) by (apply atTwoSeconds_good, earlyEnvelope_ok; lia).
  assert (Geo : geometryOk 12000 = true) by (vm_compute; reflexivity).
  destruct (@msf_reads_held demoLibm demoPow buildVoterConfig 12000 120 0%D Geo) as (_ & P).
  destruct (P s1 _ G1) as (_ & _ & F & _). destruct (P s2 _ G2) as (_ & _ & _ & S2). destruct (P s3 _ G3) as (_ & _ & _ & S3).
  assert (F1 : @feed demoLibm 12000 120 0 s1 1 0 = None) by (vm_compute; reflexivity).
  assert (N2 : @nextSecond demoLibm demoPow buildVoterConfig 12000 120 s2 = None) by (vm_compute; reflexivity).
  assert (N3 : @nextSecond demoLibm demoPow buildVoterConfig 12000 120 s3 = None) by (vm_compute; reflexivity).
  split; [exact Geo|]. split; [by repeat (apply Forall_cons; split; [assumption|])|]. split; [vm_compute; reflexivity|]. split; [vm_compute; reflexivity|].
  split; [exact F1|]. split; [by apply F|]. split; [exact N2|]. split; [by apply S2|]. split; [exact N3|]. by apply S3.
Defined.
