(* ===== verification/Dcf77.v ===== *)
(** * The DCF77 time code (src/clock/Dcf77Decoder.cpp)
    What the 77.5 kHz Mainflingen decoder makes of its seconds, each read twice,
    by amplitude (AM) and by phase (PM): where the minute is, the frame, the two
    decodes and their agreement, the time code predicted for the next minute, the
    lock and the labels. A second arrives classified ([SecRec]), with what the
    signal processing before it found ([Seen]); that processing is Dcf77Signal's. *)

From Stdlib Require Import ZArith Lia List Bool Floats.
From stdpp Require Import base list.
From S2P Require Import Prelude Doubles Rounding ClockTypes CivilTime TimeFrameVoter TimeCode.

#[local] Open Scope Z_scope.

(** ** Constants *)

Definition kStructConf : double := 0.5%D.
Definition kPmStructConf : double := 0.5%D.
Definition kSyncConf : double := fround 0.6.
Definition kPmSyncConf : double := 0.25%D.
Definition kPmBitMinConf : double := fround 0.1.
Definition kAmBitMinConf : double := fround 0.05.
Definition kMaxBlindSeconds : Z := 90.
Definition kMaxUnconfirmedMinutes : Z := 2.
Definition kMaxStructFaults : Z := 2.
Definition buildVoterConfig : Config := voterConfig wwvbFields.

(** The PM bit every minute carries in these seconds: the sync word. *)
Definition pmFixedBit (sof : Z) : option Z :=
  if sof =? 59 then Some 0
  else if (0 <=? sof) && (sof <=? 9) then Some 1
  else if (10 <=? sof) && (sof <=? 14) then Some 0 else None.

(** EU summer time: from 01:00 UTC on the last Sunday of March to that of
    October. *)
Definition lastSunday (y mon : Z) : Z :=
  let day := daysFromCivil y mon 31 in
  (day - floorMod (floorMod (day + 3) 7 - 6) 7) * 86400 + 3600.
Definition cestAt (unixSec : Z) : bool :=
  let '(y, _, _) := civilFromDays (floorDiv unixSec 86400) in
  (lastSunday y 3 <=? unixSec) && (unixSec <? lastSunday y 10).

(** ** The predicted minute *)

(** Seconds 17 to 58 of the minute whose second 0 is [utcS0Ms], as far as they
    can be known in advance: [None] where they cannot. *)
Definition predictGroups (utcS0Ms : Z) : bool * (list Z * list Z * list Z) :=
  let next := floorDiv utcS0Ms 1000 + 60 in
  let cest := cestAt next in
  let local := next + (if cest then 7200 else 3600) in
  let days := floorDiv local 86400 in
  let rem := floorMod local 86400 in
  let '(y, mo, d) := civilFromDays days in
  (cest, (lsb 7 (bcd (cmod (cdiv rem 60) 60)), lsb 6 (bcd (cdiv rem 3600)),
          (lsb 6 (bcd d) ++ lsb 3 (floorMod (days + 3) 7 + 1) ++ lsb 5 (bcd mo) ++ lsb 8 (bcd (cmod y 100)))%list)).
Definition predictTimeCode (utcS0Ms : Z) : list (option Z) :=
  let '(cest, (mi, ho, da)) := predictGroups utcS0Ms in
  (map (fun s => pmFixedBit (Z.of_nat s)) (seq 0 15) ++
   [None; None; Some (if cest then 1 else 0); Some (if cest then 0 else 1); None; Some 1] ++
   map Some (mi ++ [xors mi] ++ ho ++ [xors ho] ++ da ++ [xors da]) ++
   [pmFixedBit 59; None])%list.

(** ** Data *)

(** One classified second: AM's symbol, and PM's sign, 0 when there is none. *)
Record SecRec := MkSec {
  edge : Z; edgeExact : double; am : ClockSymbol; amConf : double; pmSign : Z; pmConf : double
}.
Definition noSec : SecRec := MkSec 0 nan SymUnknown 0 0 0.

(** What the signal processing found around a second: whether its edge was
    measured, whether either demodulator heard it, whether PM times it, whether
    the envelope has contrast, and the tracked second in samples. *)
Record Seen := MkSeen {
  measured : bool; heard : bool; servable : bool; contrast : bool; period : double
}.

Record Decoded := MkDecoded {
  d_minute : Z; d_hour : Z; d_day : Z; d_month : Z; d_year2 : Z; d_cest : bool; d_leapWarn : bool;
  d_utc : TimeFields; d_utcMs : Z
}.

Record FrameInfo := MkFrameInfo {
  fi_fields : TimeFields; fi_leapPending : bool; fi_dst : bool; fi_confidence : double; fi_start : Z
}.
Record TimeInfo := MkTimeInfo {
  ti_fields : TimeFields; ti_quality : double; ti_edge : Z; ti_edgeExact : double; ti_second : Z
}.
Inductive Call :=
  | OnState (s : ClockLockState)
  | OnFrame (f : FrameInfo)
  | OnSecond (r : SecRec) (measured servable : bool) (sof : Z)
  | OnTime (t : TimeInfo).

Record Count := MkCount {
  anchored : bool; sofNext : Z; frame : list SecRec; frFilled : Z; frStart : Z;
  leapMinute : bool; leapInserted : bool; unconfirmedRun : Z; structFaults : Z
}.
Definition emptyFrame : list SecRec := replicate 60 noSec.
Definition emptyCount (start : Z) : Count := MkCount false 0 emptyFrame 0 start false false 0 0.

Record Voted := MkVoted { haveVoted : bool; votedTime : TimeFields; votedQuality : double }.
Definition noVote : Voted := MkVoted false TimeFields_none 0.

(** What carries over from minute to minute. [lastFrame] is the last frame's
    start; [codeS0] is [codeS0UtcMs] while the code is known, [codeBits] being its
    prediction; [polarity] is [None] until it is known. *)
Record Carry := MkCarry {
  lastFrame : option Z; lastLeapWarn : bool; lastFrameFrom : Z; prevFrameFrom : Z;
  codeS0 : option Z; polarity : option Z; pmRefusedLocks : Z
}.

Record Impl := MkImpl {
  lockState : ClockLockState; hist : list SecRec; count : Count; voted : Voted; carry : Carry;
  voter : list Frame; blindSeconds : Z; calls : list Call
}.

Definition withCount (s : Impl) (c : Count) : Impl :=
  MkImpl (lockState s) (hist s) c (voted s) (carry s) (voter s) (blindSeconds s) (calls s).
Definition withVoted (s : Impl) (v : Voted) : Impl :=
  MkImpl (lockState s) (hist s) (count s) v (carry s) (voter s) (blindSeconds s) (calls s).
Definition withHist (s : Impl) (h : list SecRec) : Impl :=
  MkImpl (lockState s) h (count s) (voted s) (carry s) (voter s) (blindSeconds s) (calls s).
Definition withCarry (s : Impl) (k : Carry) : Impl :=
  MkImpl (lockState s) (hist s) (count s) (voted s) k (voter s) (blindSeconds s) (calls s).
Definition withVoter (s : Impl) (fs : list Frame) : Impl :=
  MkImpl (lockState s) (hist s) (count s) (voted s) (carry s) fs (blindSeconds s) (calls s).
Definition withBlind (s : Impl) (b : Z) : Impl :=
  MkImpl (lockState s) (hist s) (count s) (voted s) (carry s) (voter s) b (calls s).
Definition call (s : Impl) (c : Call) : Impl :=
  MkImpl (lockState s) (hist s) (count s) (voted s) (carry s) (voter s) (blindSeconds s) (calls s ++ [c])%list.
Definition withLock (s : Impl) (l : ClockLockState) : Impl :=
  MkImpl l (hist s) (count s) (voted s) (carry s) (voter s) (blindSeconds s) (calls s).
Definition setLockState (s : Impl) (l : ClockLockState) : Impl :=
  if bool_decide (l = lockState s) then s else call (withLock s l) (OnState l).
Definition setPolarity (s : Impl) (p : option Z) : Impl :=
  let k := carry s in
  withCarry s (MkCarry (lastFrame k) (lastLeapWarn k) (lastFrameFrom k) (prevFrameFrom k) (codeS0 k) p (pmRefusedLocks k)).

Definition noCarry : Carry := MkCarry None false 0 0 None None 0.
(** The decoder once it has found the carrier. *)
Definition running : Impl := MkImpl LockAcquiring [] (emptyCount 0) noVote noCarry [] 0 [].

Definition secAt (fr : list SecRec) (i : Z) : SecRec := nth (Z.to_nat i) fr noSec.
(** A PM bit, the polarity being known. *)
Definition pmBitOf (pol : Z) (r : SecRec) : Z := if 0 <? pmSign r * pol then 0 else 1.

(** ** Where the minute is *)

(** Sixteen seconds as s59, s0 to s14, read by PM with this polarity: the loop's
    early returns and the single precision sum it makes on the way. *)
Fixpoint syncSum (pol : Z) (j : Z) (secs : list SecRec) (sum : double) : option double :=
  match secs with
  | [] => Some sum
  | h :: secs =>
      if (pmSign h =? 0) || (pmConf h <? kPmBitMinConf)%D then None
      else
        let sof := if j =? 0 then 59 else j - 1 in
        if negb (bool_decide (Some (pmBitOf pol h) = pmFixedBit sof)) then None
        else syncSum pol (j + 1) secs (fadd sum (pmConf h))
  end.
Definition matches (pol : Z) (secs : list SecRec) : bool :=
  match syncSum pol 0 secs 0 with
  | None => false
  | Some sum => (fmul 16 kPmSyncConf <=? sum)%D
  end.
(** Whether it is the sync word, and the polarity after looking. *)
Definition pmSyncHere (s : Impl) : bool * option Z :=
  let pol := polarity (carry s) in
  if (length (hist s) <? 16)%nat then (false, pol)
  else
    let secs := drop (length (hist s) - 16) (hist s) in
    let s59 := nth 0 secs noSec in
    if (kSyncConf <=? amConf s59)%D && negb (symb_eqb (am s59) SymMarker) then (false, pol)
    else
      match pol with
      | Some p => (matches p secs, pol)
      | None => if matches 1 secs then (true, Some 1)
                else if matches (-1) secs then (true, Some (-1)) else (false, None)
      end.
(** This second had no cut, clearly, and the one before did. *)
Definition amMarkerHere (h : list SecRec) (contrast : bool) : bool :=
  if (length h <? 2)%nat || negb contrast then false
  else
    let cur := nth (length h - 1) h noSec in
    let prev := nth (length h - 2) h noSec in
    symb_eqb (am cur) SymMarker && (kSyncConf <=? amConf cur)%D &&
    negb (symb_eqb (am prev) SymMarker) && (kSyncConf <=? amConf prev)%D.

Definition unvoted (v : Voted) : Voted := MkVoted false (votedTime v) (votedQuality v).
Definition dropAnchor (s : Impl) : Impl :=
  let k := carry s in
  let s := withVoter (withVoted s (unvoted (voted s))) (reset (voter s)) in
  let s := withCarry s (MkCarry None false (lastFrameFrom k) (prevFrameFrom k) None (polarity k) (pmRefusedLocks k)) in
  withCount s (emptyCount (frStart (count s))).
Definition demote (s : Impl) : Impl :=
  let s := withVoted s (unvoted (voted s)) in
  if bool_decide (lockState s = LockLocked) then setLockState s LockAcquiring else s.

(** ** The time code *)

Inductive Src := Am | Pm.

(** A second's bit by one demodulator, with its confidence. *)
Definition bitOf (pol : option Z) (src : Src) (r : SecRec) : option (Z * double) :=
  match src with
  | Pm =>
      match pol with
      | Some p => if (pmSign r =? 0) || (pmConf r <? kPmBitMinConf)%D then None
                  else Some (pmBitOf p r, pmConf r)
      | None => None
      end
  | Am =>
      match am r with
      | SymZero | SymOne =>
          if (amConf r <? kAmBitMinConf)%D then None
          else Some (if symb_eqb (am r) SymOne then 1 else 0, amConf r)
      | _ => None
      end
  end.

(** The bits of seconds 15 to 58, all of which must read. *)
Fixpoint readFrom (pol : option Z) (src : Src) (secs : list SecRec) : option (list Z) :=
  match secs with
  | [] => Some []
  | r :: secs => b ← bitOf pol src r; bs ← readFrom pol src secs; Some (fst b :: bs)
  end.

(** What the bits say, if they can be believed; the list starts at second 15. *)
Definition decodeBits (bits : list Z) : option Decoded :=
  let at_ s := nth (Z.to_nat (s - 15)) bits 0 in
  if negb (at_ 20 =? 1) then None
  else if at_ 17 =? at_ 18 then None
  else if negb (parityOf at_ 21 28 =? 0) || negb (parityOf at_ 29 35 =? 0) || negb (parityOf at_ 36 58 =? 0) then None
  else
    c ← localCode at_;
    let cest := at_ 17 =? 1 in
    let utcMs := codeUtcMs c cest in
    Some (MkDecoded (lc_minute c) (lc_hour c) (lc_day c) (lc_month c) (lc_year2 c) cest (at_ 19 =? 1)
            (hostNowFields utcMs) utcMs).

Definition decode (pol : option Z) (src : Src) (fr : list SecRec) : option Decoded :=
  bits ← readFrom pol src (take 44 (drop 15 fr)); decodeBits bits.

(** A leap second can only end the UTC month. *)
Definition leapSecondPossible (f : TimeFields) : bool :=
  if negb (tf_minute f =? 59) || negb (tf_hour f =? 23) then false
  else isLastDayOfMonth (utcMsFromFields (tf_year2 f) (tf_doy f) (tf_hour f) (tf_minute f)).
Definition tentativeLeapMinute (pol : option Z) (fr : list SecRec) : bool :=
  let d := match decode pol Pm fr with Some d => Some d | None => decode pol Am fr end in
  match d with Some d => d_leapWarn d && leapSecondPossible (d_utc d) | None => false end.
Definition sameMinute (a b : Decoded) : bool :=
  (d_utcMs a =? d_utcMs b) && Bool.eqb (d_leapWarn a) (d_leapWarn b).

(** Which way round PM reads, by the sync word, when AM found the minute. *)
Definition polarityVotes (pol : Z) (fr : list SecRec) : Z * Z :=
  fold_left (fun '(hit, miss) s =>
    let r := secAt fr s in
    match pmFixedBit s with
    | Some fixed =>
        if (pmSign r =? 0) || (pmConf r <? kPmSyncConf)%D then (hit, miss)
        else if pmBitOf pol r =? fixed then (hit + 1, miss) else (hit, miss + 1)
    | None => (hit, miss)
    end) (map Z.of_nat (seq 0 60)) (0, 0).
Definition learnPolarity (pol : option Z) (fr : list SecRec) : option Z :=
  match pol with
  | Some p => Some p
  | None =>
      let fits p := let '(hit, miss) := polarityVotes p fr in (14 <=? hit) && (miss =? 0) in
      if fits 1 then Some 1 else if fits (-1) then Some (-1) else None
  end.

(** ** The minute ends *)

(** What the two fixed features of the minute say of the count of seconds: PM
    agreements and contradictions over the sync word, and AM markers read where
    none belongs. *)
Record Marks := MkMarks { pmMatch : Z; pmMismatch : Z; amStrayMarks : Z }.
Definition markPm (pol : option Z) (s : Z) (r : SecRec) (k : Marks) : Marks :=
  match pol, pmFixedBit s with
  | Some p, Some fixed =>
      if pmSign r =? 0 then k
      else if pmBitOf p r =? fixed then
        (if (kPmSyncConf <=? pmConf r)%D then MkMarks (pmMatch k + 1) (pmMismatch k) (amStrayMarks k) else k)
      else if (kPmStructConf <=? pmConf r)%D then MkMarks (pmMatch k) (pmMismatch k + 1) (amStrayMarks k) else k
  | _, _ => k
  end.
Definition markAm (r : SecRec) (k : Marks) : Marks :=
  if (kStructConf <=? amConf r)%D && symb_eqb (am r) SymMarker
  then MkMarks (pmMatch k) (pmMismatch k) (amStrayMarks k + 1) else k.
Definition marksOf (pol : option Z) (fr : list SecRec) : Marks :=
  markPm pol 59 (secAt fr 59)
    (fold_left (fun k s => markAm (secAt fr s) (markPm pol s (secAt fr s) k)) (map Z.of_nat (seq 0 59))
       (MkMarks 0 0 0)).

(** The count of seconds is contradicted, or confirmed, or neither. *)
Definition judgeMinute (pol : option Z) (c : Count) : bool * bool :=
  let k := marksOf pol (frame c) in
  let s59 := secAt (frame c) 59 in
  let expect := if leapMinute c then SymZero else SymMarker in
  let s59Read := (kStructConf <=? amConf s59)%D && negb (symb_eqb (am s59) SymUnknown) in
  let amStrong := s59Read && symb_eqb (am s59) expect in
  let pmStrong := (12 <=? pmMatch k) && (pmMismatch k =? 0) in
  let s59Wrong := s59Read && negb (Bool.eqb (symb_eqb (am s59) SymMarker) (symb_eqb expect SymMarker)) in
  let amContra := s59Wrong || (negb amStrong && (0 <? amStrayMarks k)) in
  let pmContra := 0 <? pmMismatch k in
  let contradicted := (amContra && negb pmStrong) || (pmContra && negb amStrong) in
  (contradicted, (60 <=? frFilled c) && (amStrong || pmStrong) && negb contradicted).

(** Which decode is used, and where from: 0 neither, 1 AM, 2 PM, 3 both agreeing,
    4 both valid and different, which is refused. *)
Definition choose (pm am_ : option Decoded) : option Decoded * Z :=
  match pm, am_ with
  | Some p, Some a => if sameMinute p a then (Some p, 3) else (None, 4)
  | Some p, None => (Some p, 2)
  | None, Some a => (Some a, 1)
  | None, None => (None, 0)
  end.

(** The weakest of a group of bits, by the demodulator the minute was taken from,
    or the stronger of the two when both agreed. *)
Definition groupConf (pol : option Z) (from : Z) (fr : list SecRec) (a z : Z) : double :=
  fold_left (fun c i =>
    let r := secAt fr (a + Z.of_nat i) in
    let cp := match bitOf pol Pm r with Some (_, c) => c | None => 0%D end in
    let ca := match bitOf pol Am r with Some (_, c) => c | None => 0%D end in
    dmin c (if from =? 3 then dmax cp ca else if from =? 2 then cp else ca))
    (seq 0 (Z.to_nat (z - a + 1))) 1%D.
Definition fieldConf (pol : option Z) (from : Z) (fr : list SecRec) (fld : FieldIndex) : double :=
  let g := groupConf pol from fr in
  let cMin := g 21 28 in
  let cHour := dmin (dmin cMin (g 29 35)) (g 17 18) in
  match fld with
  | FieldMinutes => cMin
  | FieldHours => cHour
  | _ => dmin cHour (g 36 58)
  end.

Section Decoder.
(** [cfg] is the voter's configuration: [buildVoterConfig] with the plausibility
    reference set. [sr] is the sample rate. *)
Context `{Pow} (cfg : Config) (sr : Z).

Definition consecutive (s : Impl) (period : double) : bool :=
  match lastFrame (carry s) with
  | None => false
  | Some start =>
      let gap := ((if leapInserted (count s) then 61 else 60) * period)%D in
      (dabs (d_of_Z (frStart (count s) - start) - gap) <=? 0.25 * d_of_Z sr)%D
  end.

Definition vote (s : Impl) (f : Frame) (keep : bool) : Impl :=
  let fs := addFrame cfg (if keep then voter s else reset (voter s)) f in
  let s := withVoter s fs in
  if l_locked (lockVerdict cfg fs)
  then withVoted s (MkVoted (haveVoted (voted s))
         (TF (votedField cfg fs FieldMinutes) (votedField cfg fs FieldHours)
             (votedField cfg fs FieldDoy) (votedField cfg fs FieldYear))
         (lockConfidence cfg fs))
  else s.

Definition setCounted (s : Impl) (run : Z) (inserted : bool) : Impl :=
  let c := count s in
  withCount s (MkCount (anchored c) (sofNext c) (frame c) (frFilled c) (frStart c) (leapMinute c)
                 inserted run (structFaults c)).

Definition frameInfo (use : option Decoded) (conf : double) (start : Z) : FrameInfo :=
  match use with
  | None => MkFrameInfo TimeFields_none false false 0 start
  | Some d => MkFrameInfo (d_utc d) (d_leapWarn d) (d_cest d) conf start
  end.

Definition finalizeFrame (s : Impl) (period : double) : Impl :=
  let pol := learnPolarity (polarity (carry s)) (frame (count s)) in
  let s := setPolarity s pol in
  let c := count s in
  let '(contradicted, confirmed) := judgeMinute pol c in
  let early := contradicted || (frFilled c <? 60) in
  let run := if early || confirmed then unconfirmedRun c else unconfirmedRun c + 1 in
  let s := setCounted s run (leapInserted c) in
  if early || (negb confirmed && (kMaxUnconfirmedMinutes <? run)) then demote (dropAnchor s)
  else
    let s := if confirmed then setCounted s 0 (leapInserted c) else s in
    let fr := frame c in
    let '(use, from) := if confirmed then choose (decode pol Pm fr) (decode pol Am fr) else (None, 0) in
    let k := carry s in
    let code := match use with
                | Some d => Some (d_utcMs d + 60000)
                | None => option_map (fun ms => ms + 60000) (codeS0 k)
                end in
    let conf := fieldConf pol from fr in
    let s := call s (OnFrame (frameInfo use (conf FieldYear) (frStart c))) in
    let keep := consecutive s period in
    let warned := match use with Some d => d_leapWarn d | None => false end in
    let s := withCarry (setCounted s (unconfirmedRun (count s)) false)
               (MkCarry (Some (frStart c)) warned from (lastFrameFrom k) code pol (pmRefusedLocks k)) in
    let s := vote s (utcFrame (match use with Some d => Some (d_utc d, conf) | None => None end)) keep in
    let leapNext := leapMinute c ||
      match use with
      | Some d => (d_leapWarn d || lastLeapWarn k) && leapSecondPossible (d_utc d)
      | None => false
      end in
    if l_locked (lockVerdict cfg (voter s)) && confirmed && negb leapNext
    then setLockState (withVoted s (MkVoted true (votedTime (voted s)) (votedQuality (voted s)))) LockLocked
    else demote s.

(** ** One second *)

(** Symbols that contradict the minute's skeleton: two in a minute end the lock. *)
Definition checkStructure (s : Impl) (r : SecRec) (sof : Z) (contrast : bool) : Impl :=
  let c := count s in
  let faults := if sof =? 0 then 0 else structFaults c in
  let expectMark := ((sof =? 59) && negb (leapMinute c)) || (sof =? 60) in
  let faults :=
    if contrast && (kStructConf <=? amConf r)%D && negb (Bool.eqb (symb_eqb (am r) SymMarker) expectMark)
    then faults + 1 else faults in
  let faults :=
    match polarity (carry s), pmFixedBit sof with
    | Some p, Some fixed =>
        if negb (pmSign r =? 0) && (kPmStructConf <=? pmConf r)%D && negb (pmBitOf p r =? fixed)
        then faults + 1 else faults
    | _, _ => faults
    end in
  let s := withCount s (MkCount (anchored c) (sofNext c) (frame c) (frFilled c) (frStart c) (leapMinute c)
                          (leapInserted c) (unconfirmedRun c) faults) in
  if kMaxStructFaults <=? faults then demote s else s.

(** Which second of the minute this is, and whether it is recorded. *)
Definition countSecond (s : Impl) (r : SecRec) (contrast : bool) : Impl * Z * bool :=
  let c := count s in
  if negb (anchored c) then
    let '(sync, pol) := pmSyncHere s in
    let s := setPolarity s pol in
    if sync then
      let past := take 14 (drop (length (hist s) - 15) (hist s)) in
      (withCount s (MkCount true 15 (past ++ drop 14 (frame c))%list 14 (edge (secAt past 0))
                      (leapMinute c) (leapInserted c) (unconfirmedRun c) (structFaults c)), 14, true)
    else if amMarkerHere (hist s) contrast then
      (withCount s (MkCount true 0 (frame c) (frFilled c) (frStart c) (leapMinute c) (leapInserted c)
                      (unconfirmedRun c) (structFaults c)), 59, false)
    else (s, -1, false)
  else
    let sof := sofNext c in
    let s := if sof =? 0 then
               withCount s (MkCount true 0 (frame c) 0 (edge r) (leapMinute c) (leapInserted c)
                              (unconfirmedRun c) (structFaults c))
             else s in
    let s := if bool_decide (lockState s = LockLocked) then checkStructure s r sof contrast else s in
    let c := count s in
    if sof =? 60 then
      (withCount s (MkCount true 0 (frame c) (frFilled c) (frStart c) (leapMinute c) true
                      (unconfirmedRun c) (structFaults c)), sof, false)
    else
      (withCount s (MkCount true (sof + 1) (frame c) (frFilled c) (frStart c) (leapMinute c) (leapInserted c)
                      (unconfirmedRun c) (structFaults c)), sof, true).

Definition recordSecond (s : Impl) (r : SecRec) (sof : Z) (period : double) : Impl :=
  let c := count s in
  let fr := <[Z.to_nat sof := r]> (frame c) in
  let leap := if sof =? 58 then tentativeLeapMinute (polarity (carry s)) fr else leapMinute c in
  let s := withCount s (MkCount (anchored c) (sofNext c) fr (frFilled c + 1) (frStart c) leap (leapInserted c)
                          (unconfirmedRun c) (structFaults c)) in
  if sof =? 59 then
    let s := finalizeFrame s period in
    let c := count s in
    if anchored c then
      withCount s (MkCount true (if leapMinute c then 60 else 0) (frame c) (frFilled c) (frStart c) (leapMinute c)
                     (leapInserted c) (unconfirmedRun c) (structFaults c))
    else s
  else s.

Definition handleSecond (s : Impl) (r : SecRec) (seen : Seen) : Impl :=
  let '(s, sof, keep) := countSecond s r (contrast seen) in
  let s := call s (OnSecond r (measured seen) (servable seen) sof) in
  let s := if (keep : bool) then recordSecond s r sof (period seen) else s in
  if bool_decide (lockState s = LockLocked) && haveVoted (voted s) then
    call s (OnTime (MkTimeInfo (votedTime (voted s)) (votedQuality (voted s)) (edge r) (edgeExact r) sof))
  else s.

Definition stopCertifying (s : Impl) : Impl :=
  if bool_decide (lockState s = LockLocked) then setLockState s LockAcquiring else s.

Definition noteSecond (s : Impl) (r : SecRec) (seen : Seen) : Impl :=
  let s := withBlind s (if heard seen then 0 else blindSeconds s + 1) in
  let h := (hist s ++ [r])%list in
  withHist s (if (64 <? length h)%nat then drop 1 h else h).
Definition processSecond (s : Impl) (r : SecRec) (seen : Seen) : Impl :=
  let s := handleSecond (noteSecond s r seen) r seen in
  if kMaxBlindSeconds <=? blindSeconds s
  then withHist (dropAnchor (withBlind (stopCertifying s) 0)) []
  else s.

(** A PM lock. [segmented] is whether seconds are being cut already, [far]
    whether this one puts them elsewhere: then it is refused while AM decodes, and
    wins otherwise. *)
Definition amDecoding (s : Impl) : bool :=
  let k := carry s in
  anchored (count s) && ((lastFrameFrom k =? 1) || (lastFrameFrom k =? 3) ||
                         (prevFrameFrom k =? 1) || (prevFrameFrom k =? 3)).
Definition pmLockAt (s : Impl) (segmented far : bool) : Impl :=
  if negb segmented then withHist s []
  else if far then
    if amDecoding s then
      let k := carry s in
      withCarry s (MkCarry (lastFrame k) (lastLeapWarn k) (lastFrameFrom k) (prevFrameFrom k) (codeS0 k)
                     (polarity k) (pmRefusedLocks k + 1))
    else withHist (dropAnchor (stopCertifying s)) []
  else s.
(** The aided search also says which way round PM reads, when nothing has. *)
Definition aidedLock (s : Impl) (segmented : bool) (sign : Z) (far : bool) : Impl :=
  let refused := segmented && far && amDecoding s in
  let s := pmLockAt s segmented far in
  if refused then s
  else match polarity (carry s) with Some _ => s | None => setPolarity s (Some sign) end.

(** Everything that reaches the running decoder. *)
Inductive Input :=
  | Second (r : SecRec) (seen : Seen)
  | PmLock (segmented far : bool)
  | Aided (segmented : bool) (sign : Z) (far : bool).
Definition input (s : Impl) (i : Input) : Impl :=
  match i with
  | Second r seen => processSecond s r seen
  | PmLock segmented far => pmLockAt s segmented far
  | Aided segmented sign far => aidedLock s segmented sign far
  end.
Definition run (s : Impl) (ins : list Input) : Impl := fold_left input ins s.

End Decoder.

(** What a second's PM bit will be, for the searches: [-1] is [None]. *)
Definition predictedPmBit (s : Impl) (sof : Z) : option Z :=
  if (sof <? 0) || (59 <? sof) then None
  else match pmFixedBit sof with
       | Some b => Some b
       | None => match codeS0 (carry s) with
                 | Some ms => nth (Z.to_nat sof) (predictTimeCode ms) None
                 | None => None end
       end.

(** ** Lemmas: the time code *)

(** The local time the minute that starts at UTC [ms] announces, in seconds. *)
Definition localNext (ms : Z) : Z :=
  let next := floorDiv ms 1000 + 60 in next + (if cestAt next then 7200 else 3600).

(** Seconds 15 to 58 of a frame read, by one demodulator, and where the minute
    can be predicted they read what was. *)
Definition coded {A} (l : list A) : list A := take 44 (drop 15 l).
Definition reads (pol : option Z) (src : Src) (r : SecRec) (p : option Z) : Prop :=
  exists b conf, bitOf pol src r = Some (b, conf) /\ (p = None \/ p = Some b).
Definition readsPredicted (pol : option Z) (src : Src) (fr : list SecRec) (ms : Z) : Prop :=
  Forall2 (reads pol src) (coded fr) (coded (predictTimeCode ms)).

Lemma readFrom_reads pol src secs ps : Forall2 (reads pol src) secs ps ->
  exists bits, readFrom pol src secs = Some bits /\ Forall2 (fun b p => p = None \/ p = Some b) bits ps.
Proof.
  induction 1 as [|r p secs ps (b & conf & E & P) _ (bits & IH & F)]; [by exists []|].
  exists (b :: bits). cbn. rewrite E, IH. cbn. split; [done|by constructor].
Qed.

Lemma Forall2_known (bits l : list Z) :
  Forall2 (fun b p => p = None \/ p = Some b) bits (map Some l) -> bits = l.
Proof.
  revert bits. induction l as [|x l IH]; intros bits F; inversion F as [|b ? bits' ? P F']; [done|].
  subst. f_equal; [destruct P; simplify_eq; done|by apply IH].
Qed.

Lemma predicted_bits pol src fr ms cest mi ho da :
  predictGroups ms = (cest, (mi, ho, da)) -> length (mi ++ ho ++ da) = 35%nat ->
  readsPredicted pol src fr ms ->
  exists b15 b16 b19, readFrom pol src (coded fr) =
    Some ([b15; b16; if (cest : bool) then 1 else 0; if cest then 0 else 1; b19; 1] ++
          mi ++ [xors mi] ++ ho ++ [xors ho] ++ da ++ [xors da])%list.
Proof.
  intros G L R. unfold readsPredicted in R. apply readFrom_reads in R as (bits & E & F).
  unfold predictTimeCode in F. rewrite G in F. unfold coded at 1 in F.
  rewrite drop_app_ge in F by (rewrite length_map, length_seq; lia).
  change (15 - length _)%nat with 0%nat in F. rewrite drop_0 in F.
  set (tl := (mi ++ [xors mi] ++ ho ++ [xors ho] ++ da ++ [xors da])%list) in *.
  rewrite app_assoc, take_app_le, take_ge in F.
  2,3: rewrite length_app, length_map; unfold tl; rewrite !length_app in *; cbn [length]; lia.
  inversion F as [|b15 ? ? ? _ F1]. inversion F1 as [|b16 ? ? ? _ F2]. inversion F2 as [|b17 ? ? ? P17 F3].
  inversion F3 as [|b18 ? ? ? P18 F4]. inversion F4 as [|b19 ? ? ? _ F5]. inversion F5 as [|b20 ? ? ? P20 F6].
  subst. apply Forall2_known in F6. destruct P17, P18, P20; simplify_eq.
  exists b15, b16, b19. exact E.
Qed.

Lemma localNext_announced ms : localNext ms = announced ms (cestAt (ms / 1000 + 60)).
Proof. unfold localNext, announced. cbv zeta. by rewrite floorDiv_div by discriminate. Qed.

(** The year the predicted minute announces. *)
Definition announcedYear (ms : Z) : Z := fst (fst (civilFromDays (floorDiv (localNext ms) 86400))).

Lemma predictGroups_eq ms :
  predictGroups ms = (cestAt (ms / 1000 + 60), announcedGroups ms (cestAt (ms / 1000 + 60))).
Proof.
  unfold predictGroups, announcedGroups, announcedDate. rewrite <- localNext_announced. cbv zeta. fold (localNext ms).
  rewrite !(floorDiv_div _ 86400), (floorMod_mod _ 86400), (floorDiv_div _ 1000) by lia.
  destruct (civilFromDays _) as [[y mo] d]. unfold groupsOf, cdiv, cmod.
  rewrite !(Z.quot_div_nonneg (localNext ms mod 86400)) by dlia.
  by rewrite Z.rem_mod_nonneg by dlia.
Qed.

Lemma announcedYear_eq ms : announcedYear ms = fst (fst (announcedDate ms (cestAt (ms / 1000 + 60)))).
Proof. unfold announcedYear, announcedDate. by rewrite floorDiv_div, localNext_announced. Qed.

Lemma announcedGroups_length ms summer mi ho da : announcedGroups ms summer = (mi, ho, da) ->
  length mi = 7%nat /\ length ho = 6%nat /\ length da = 22%nat.
Proof. unfold announcedGroups. destruct (announcedDate _ _) as [[y mo] d]. apply groupsOf_length. Qed.

Lemma decode_predicted pol src fr t :
  rangeValid t = true -> 2000 <= announcedYear (msOf t) <= 2099 ->
  readsPredicted pol src fr (msOf t) ->
  exists d, decode pol src fr = Some d /\ d_utc d = t /\ d_utcMs d = msOf t /\
    d_cest d = cestAt (msOf t / 1000 + 60).
Proof.
  intros V Y R. rewrite announcedYear_eq in Y. pose proof (predictGroups_eq (msOf t)) as G.
  set (cest := cestAt (msOf t / 1000 + 60)) in *. clearbody cest.
  destruct (announcedGroups (msOf t) cest) as [[mi ho] da] eqn:Gr.
  destruct (announcedGroups_length _ _ _ _ _ Gr) as (L1 & L2 & L3).
  assert (L35 : length (mi ++ ho ++ da) = 35%nat) by (rewrite !length_app, L1, L2, L3; done).
  destruct (predicted_bits pol src fr _ _ _ _ _ G L35 R) as (b15 & b16 & b19 & RB).
  unfold decode. fold (coded fr). rewrite RB. cbn [mbind option_bind].
  unfold decodeBits. cbv zeta. set (head := [b15; b16; _; _; b19; 1]). set (bits := (head ++ _)%list).
  destruct (parities_sent _ bits head mi ho da [] 15 (fun _ => eq_refl)) as (-> & -> & -> & _ & B);
    [unfold bits, withParities; by rewrite app_nil_r|done..|].
  destruct (localCode_announced _ _ _ t cest mi ho da V Y Gr B) as (c & -> & E).
  assert (U : hostNowFields (msOf t) = t) by (rewrite <- (Z.add_0_r (msOf t)); by apply hostNow_utcMs).
  destruct cest; (eexists; split; [reflexivity|]; split; [|by split]); cbn [d_utc]; by rewrite <- U, <- E.
Qed.

(** [lastSunday] is 01:00 on a Sunday of the month's last seven days. *)
Lemma lastSunday_spec y mon : 1 <= mon <= 12 ->
  exists d, 25 <= d <= 31 /\ (daysFromCivil y mon d + 4) mod 7 = 0 /\
    lastSunday y mon = daysFromCivil y mon d * 86400 + 3600.
Proof.
  intros M. unfold lastSunday. cbv zeta. rewrite !floorMod_mod by lia.
  set (k := ((daysFromCivil y mon 31 + 3) mod 7 - 6) mod 7). assert (K : 0 <= k < 7) by (unfold k; dlia).
  assert (E : daysFromCivil y mon (31 - k) = daysFromCivil y mon 31 - k).
  { rewrite !daysFromCivil_plain by lia. cbv zeta. unfold dayOfEra. lia. }
  exists (31 - k). rewrite E. split; [lia|]. split; [unfold k; dlia|lia].
Qed.

(** ** Lemmas: the decoder's state *)

Definition notTime (c : Call) : Prop := match c with OnTime _ => False | _ => True end.
(** Calls are only added, none of them a label. *)
Definition grows : Impl -> Impl -> Prop := grew calls notTime.

Lemma dcf_grows_refl s s' : calls s' = calls s -> grows s s'.
Proof. apply grew_refl. Qed.
Lemma dcf_grows_trans s1 s2 s3 : grows s1 s2 -> grows s2 s3 -> grows s1 s3.
Proof. apply grew_trans. Qed.
Lemma dcf_grows_call s c : notTime c -> grows s (call s c).
Proof. by apply grew_call. Qed.
Lemma dcf_grows_lock s l : grows s (setLockState s l).
Proof. unfold setLockState. case_bool_decide; [by apply dcf_grows_refl|]. by apply (dcf_grows_call (withLock s l)). Qed.
Lemma dcf_grows_demote s : grows s (demote s).
Proof.
  unfold demote. case_bool_decide; [|by apply dcf_grows_refl].
  apply (dcf_grows_trans _ (withVoted s (unvoted (voted s)))); [by apply dcf_grows_refl|apply dcf_grows_lock].
Qed.
#[local] Hint Resolve dcf_grows_refl dcf_grows_call dcf_grows_lock dcf_grows_demote : core.

Lemma dcf_lock_fields s l :
  count (setLockState s l) = count s /\ voter (setLockState s l) = voter s /\
  voted (setLockState s l) = voted s /\ lockState (setLockState s l) = l /\
  blindSeconds (setLockState s l) = blindSeconds s.
Proof. unfold setLockState. case_bool_decide as D; cbn; by rewrite ?D. Qed.
Lemma dcf_demote_fields s :
  count (demote s) = count s /\ voter (demote s) = voter s /\ blindSeconds (demote s) = blindSeconds s /\
  haveVoted (voted (demote s)) = false /\ lockState (demote s) <> LockLocked.
Proof.
  unfold demote, setLockState. case_bool_decide as D; cbn in *; [|done].
  rewrite D. case_bool_decide; done.
Qed.
Lemma stop_fields s :
  count (stopCertifying s) = count s /\ voter (stopCertifying s) = voter s /\
  voted (stopCertifying s) = voted s /\ lockState (stopCertifying s) <> LockLocked /\
  grows s (stopCertifying s).
Proof.
  unfold stopCertifying. case_bool_decide; [|by repeat split; auto].
  destruct (dcf_lock_fields s LockAcquiring) as (-> & -> & -> & -> & _). by repeat split; auto.
Qed.

(** The frame index stays inside a minute's seconds and its leap second, and no
    more than two minutes run unconfirmed. *)
Definition countOk (c : Count) : Prop :=
  0 <= sofNext c <= 60 /\ length (frame c) = 60%nat /\ 0 <= unconfirmedRun c <= kMaxUnconfirmedMinutes.

Section Labels.
Context `{Pow} (cfg : Config) (sr : Z).

(** A standing label is the voter's, and the voter is locked; the decoder is not
    locked without knowing where the minute is, nor over a leap second. *)
Definition labelOk (s : Impl) : Prop :=
  if haveVoted (voted s) then
    lockState s = LockLocked /\ l_locked (lockVerdict cfg (voter s)) = true /\
    votedTime (voted s) = votedTimestamp cfg (voter s)
  else lockState s <> LockLocked.
Definition placed (s : Impl) : Prop :=
  anchored (count s) = false \/ sofNext (count s) = 60 -> lockState s <> LockLocked.
Definition Inv (s : Impl) : Prop := countOk (count s) /\ labelOk s /\ placed s.

Lemma dcf_demote_inv s : countOk (count s) -> Inv (demote s).
Proof.
  intros C. destruct (dcf_demote_fields s) as (E1 & E2 & E3 & E4 & E5). split; [by rewrite E1|].
  split; [unfold labelOk; by rewrite E4|by intros _].
Qed.
Lemma dcf_empty_ok start : countOk (emptyCount start).
Proof. by repeat split. Qed.
#[local] Hint Resolve dcf_empty_ok : core.

(** Dropping the anchor after the lock is given up. *)
Lemma dcf_drop_inv s : lockState s <> LockLocked -> Inv (dropAnchor s) /\ grows s (dropAnchor s).
Proof. intros L. split; [|by apply dcf_grows_refl]. split; [apply dcf_empty_ok|]. split; [exact L|intros _; exact L]. Qed.

Lemma dcf_same s s' :
  voted s' = voted s -> lockState s' = lockState s -> voter s' = voter s -> labelOk s -> labelOk s'.
Proof. unfold labelOk. by intros -> -> ->. Qed.

Lemma dcf_vote_fields (s : Impl) (f : Frame) (keep : bool) :
  let fs := addFrame cfg (if keep then voter s else reset (voter s)) f in
  voter (vote cfg s f keep) = fs /\ count (vote cfg s f keep) = count s /\
  calls (vote cfg s f keep) = calls s /\
  (l_locked (lockVerdict cfg fs) = true -> votedTime (voted (vote cfg s f keep)) = votedTimestamp cfg fs).
Proof.
  cbn zeta. unfold vote. destruct (l_locked _) eqn:E; cbn; rewrite ?E; repeat split; try done.
  intros _. apply votedFields_timestamp.
Qed.

Lemma dcf_finalize_inv s period :
  countOk (count s) -> anchored (count s) = true -> let s' := finalizeFrame cfg sr s period in
  countOk (count s') /\ labelOk s' /\ grows s s' /\
  (anchored (count s') = false \/ leapMinute (count s') = true -> lockState s' <> LockLocked).
Proof.
  intros (Hs & Hl & Hu) An. cbv zeta. unfold finalizeFrame. cbv zeta. cbn [count setPolarity withCarry].
  set (pol := learnPolarity _ _). set (c := count s) in *.
  destruct (judgeMinute pol c) as [contradicted confirmed].
  set (early := contradicted || _). set (run := if early || confirmed then _ else _).
  assert (Hr : 0 <= run <= kMaxUnconfirmedMinutes + 1) by (unfold run; destruct (early || confirmed); lia).
  destruct (early || negb confirmed && _) eqn:E.
  { set (s1 := dropAnchor _). assert (G : grows s s1) by by apply dcf_grows_refl.
    assert (C : countOk (count s1)) by apply dcf_empty_ok. clearbody s1.
    destruct (dcf_demote_inv s1 C) as (D1 & D2 & _). split; [done|]. split; [done|].
    split; [by eapply dcf_grows_trans|]. intros _. apply dcf_demote_fields. }
  set (s1 := if confirmed then setCounted _ 0 _ else _).
  assert (C1 : countOk (count s1) /\ calls s1 = calls s /\ anchored (count s1) = true /\ leapMinute (count s1) = leapMinute c).
  { unfold s1, countOk, kMaxUnconfirmedMinutes in *. destruct confirmed; cbn in E |- *; fold c.
    - repeat split; (done || lia).
    - apply orb_false_iff in E as [_ E]. apply Z.ltb_ge in E. repeat split; (done || lia). }
  destruct C1 as (C1 & K1 & A1 & Lm). clearbody s1.
  destruct (if confirmed then choose _ _ else _) as [use from].
  set (s2 := withCarry _ _).
  assert (C2 : countOk (count s2) /\ grows s s2 /\ anchored (count s2) = true /\ leapMinute (count s2) = leapMinute c).
  { split; [exact C1|]. split; [|by split]. eexists [_]. split; [cbn; by rewrite K1|by repeat constructor]. }
  destruct C2 as (C2 & G2 & A2 & Lm2). clearbody s2.
  set (keep := consecutive _ _ _). clearbody keep. set (f := utcFrame _). clearbody f.
  destruct (dcf_vote_fields s2 f keep) as (V1 & V2 & V3 & V4). set (s3 := vote _ _ _ _) in *. rewrite V1.
  assert (G3 : grows s s3) by (apply (dcf_grows_trans _ s2 _ G2), dcf_grows_refl, V3). clearbody s3.
  destruct (l_locked _ && confirmed && negb _) eqn:Lk.
  - zbool. destruct (dcf_lock_fields (withVoted s3 (MkVoted true (votedTime (voted s3)) (votedQuality (voted s3)))) LockLocked)
      as (F1 & F2 & F3 & F4 & _).
    unfold labelOk. rewrite F1, F2, F3, F4. cbn. rewrite V1, V2.
    split; [done|]. split; [by split; [|split; [|apply V4]]|]. split.
    { eapply dcf_grows_trans; [exact G3|]. apply (dcf_grows_lock (withVoted s3 _)). }
    intros [Q|Q]; congruence.
  - destruct (dcf_demote_inv s3 ltac:(by rewrite V2)) as (D1 & D2 & _). split; [done|]. split; [done|].
    split; [by eapply dcf_grows_trans; [|apply dcf_grows_demote]|]. intros _. apply dcf_demote_fields.
Qed.

(** Nothing of the count but its faults changes, and the lock is kept or given up. *)
Lemma checkStructure_inv s r sof contrast :
  let s' := checkStructure s r sof contrast in
  (countOk (count s) -> countOk (count s')) /\ anchored (count s') = anchored (count s) /\
  sofNext (count s') = sofNext (count s) /\ grows s s' /\
  (labelOk s -> labelOk s') /\ (lockState s <> LockLocked -> lockState s' <> LockLocked).
Proof.
  cbv zeta. unfold checkStructure. cbv zeta. set (s1 := withCount s _).
  assert (K : (countOk (count s) -> countOk (count s1)) /\ anchored (count s1) = anchored (count s) /\
              sofNext (count s1) = sofNext (count s) /\ grows s s1 /\ (labelOk s -> labelOk s1) /\
              lockState s1 = lockState s).
  { unfold s1. split; [done|]. split; [done|]. split; [done|]. split; [by apply dcf_grows_refl|]. done. }
  destruct K as (K1 & K2 & K3 & K4 & K5 & K6). clearbody s1. destruct (_ <=? _).
  - destruct (dcf_demote_fields s1) as (E1 & _ & _ & E4 & E5). rewrite E1. repeat split; try done; try (by apply K1).
    + by eapply dcf_grows_trans.
    + intros _. unfold labelOk. by rewrite E4.
  - rewrite K6. repeat split; try done; by apply K1.
Qed.

Lemma pmSyncHere_hist s pol : pmSyncHere s = (true, pol) -> (16 <= length (hist s))%nat.
Proof. unfold pmSyncHere. destruct (Nat.ltb_spec (length (hist s)) 16); [done|lia]. Qed.

Lemma dcf_countSecond_inv s r contrast :
  Inv s -> let '(s', sof, keep) := countSecond s r contrast in
  countOk (count s') /\ labelOk s' /\ grows s s' /\
  if (keep : bool) then anchored (count s') = true /\ 0 <= sof <= 59 /\ sofNext (count s') = sof + 1
  else lockState s' <> LockLocked.
Proof.
  intros (C & L & P). pose proof C as (Hs & Hl & Hu). unfold countSecond. cbv zeta.
  destruct (anchored (count s)) eqn:An; cbn [negb].
  - set (s1 := if sofNext (count s) =? 0 then _ else _).
    assert (K : countOk (count s1) /\ labelOk s1 /\ grows s s1 /\ lockState s1 = lockState s /\ anchored (count s1) = true).
    { unfold s1. destruct (sofNext (count s) =? 0);
        [|split; [exact C|split; [exact L|split; [by apply dcf_grows_refl|done]]]].
      split; [split; [cbn; lia|by split]|]. split; [done|]. split; [by apply dcf_grows_refl|done]. }
    destruct K as (K1 & K2 & K3 & K4 & K5). clearbody s1.
    set (s2 := if bool_decide _ then _ else _).
    assert (M : countOk (count s2) /\ labelOk s2 /\ grows s s2 /\
                (lockState s <> LockLocked -> lockState s2 <> LockLocked) /\ anchored (count s2) = true).
    { unfold s2. rewrite <- K4. case_bool_decide; [|done].
      destruct (checkStructure_inv s1 r (sofNext (count s)) contrast) as (M1 & M2 & M3 & M4 & M5 & M6).
      split; [by apply M1|]. split; [by apply M5|]. split; [by eapply dcf_grows_trans|]. split; [done|by rewrite M2]. }
    destruct M as (M1 & M2 & M3 & M4 & M5). clearbody s2. pose proof M1 as (Ms & Ml & Mu).
    destruct (Z.eqb_spec (sofNext (count s)) 60) as [E|E].
    + split; [split; [cbn; lia|by split]|]. split; [exact M2|]. split; [exact M3|]. apply M4, P. by right.
    + split; [split; [cbn; lia|by split]|]. split; [exact M2|]. split; [exact M3|]. cbn. lia.
  - destruct (pmSyncHere s) as [sync pol] eqn:Sy. cbn [count setPolarity withCarry].
    assert (NL : lockState s <> LockLocked) by (apply P; by left).
    destruct sync.
    + split; [|split; [exact L|split; [by apply dcf_grows_refl|cbn; lia]]]. split; [cbn; lia|].
      split; [|exact Hu]. cbn [count withCount setPolarity withCarry frame hist].
      apply pmSyncHere_hist in Sy. rewrite length_app, length_take, !length_drop. lia.
    + destruct (amMarkerHere _ _); (split; [|split; [exact L|split; [by apply dcf_grows_refl|exact NL]]]); [|exact C].
      split; [cbn; lia|by split].
Qed.

Lemma dcf_record_inv s r sof period :
  countOk (count s) -> labelOk s -> anchored (count s) = true -> 0 <= sof <= 59 -> sofNext (count s) = sof + 1 ->
  let s' := recordSecond cfg sr s r sof period in Inv s' /\ grows s s'.
Proof.
  intros C L An Hs Es. cbv zeta. unfold recordSecond. cbv zeta. set (s1 := withCount s _).
  assert (C1 : countOk (count s1)).
  { destruct C as (A & B & D). split; [exact A|]. split; [|exact D]. cbn. by rewrite length_insert. }
  assert (L1 : labelOk s1) by exact L. assert (A1 : anchored (count s1) = true) by exact An.
  assert (E1 : sofNext (count s1) = sof + 1) by exact Es. assert (G1 : grows s s1) by by apply dcf_grows_refl.
  clearbody s1. destruct (Z.eqb_spec sof 59) as [->|N].
  - destruct (dcf_finalize_inv s1 period C1 A1) as ((F1 & F2 & F3) & L2 & G2 & P2). cbv zeta in *.
    set (s2 := finalizeFrame _ _ _ _) in *. clearbody s2.
    assert (G : grows s s2) by by eapply dcf_grows_trans.
    destruct (anchored (count s2)) eqn:A2.
    + split; [|exact G]. split; [|split; [exact L2|]].
      * split; [cbn; destruct (leapMinute _); lia|by split].
      * intros [Q|Q]; [done|]. apply P2. right. cbn in Q. by destruct (leapMinute (count s2)).
    + split; [|exact G]. split; [by split|]. split; [exact L2|]. intros _. apply P2. by left.
  - split; [|exact G1]. split; [exact C1|]. split; [exact L1|]. intros [Q|Q]; [congruence|lia].
Qed.

(** A label given by [handleSecond] is the locked voter's. *)
Definition backed (s : Impl) (c : Call) : Prop :=
  match c with
  | OnTime t => 0 <= ti_second t < 60 /\ l_locked (lockVerdict cfg (voter s)) = true /\
                ti_fields t = votedTimestamp cfg (voter s)
  | _ => True
  end.

Lemma dcf_grows_backed s s' st : grows s s' ->
  exists new, calls s' = (calls s ++ new)%list /\ Forall (backed st) new.
Proof. intros (n & E & F). exists n. split; [done|]. eapply Forall_impl; [exact F|]. by intros []. Qed.

Lemma dcf_handle_inv s r seen :
  Inv s -> let s' := handleSecond cfg sr s r seen in
  Inv s' /\ exists new, calls s' = (calls s ++ new)%list /\ Forall (backed s') new.
Proof.
  intros I. cbv zeta. unfold handleSecond. pose proof (dcf_countSecond_inv s r (contrast seen) I) as K.
  destruct (countSecond s r (contrast seen)) as [[s1 sof] keep]. destruct K as (C1 & L1 & G1 & K).
  set (s2 := call s1 _). assert (G2 : grows s s2) by (eapply dcf_grows_trans; [exact G1|by apply dcf_grows_call]).
  set (s3 := if keep then _ else _).
  assert (K3 : Inv s3 /\ grows s s3 /\ (lockState s3 = LockLocked -> 0 <= sof <= 59)).
  { unfold s3. destruct keep.
    - destruct K as (A & B & D). destruct (dcf_record_inv s2 r sof (period seen) C1 L1 A B D) as (R1 & R2).
      split; [exact R1|]. split; [by eapply dcf_grows_trans|done].
    - split; [|split; [exact G2|done]]. split; [exact C1|]. split; [exact L1|by intros _]. }
  destruct K3 as (I3 & G3 & S3). clearbody s3.
  destruct (bool_decide _ && _) eqn:Lab; [|split; [exact I3|by apply dcf_grows_backed]].
  split; [exact I3|]. destruct G3 as (n & E & F). exists (n ++ [OnTime (MkTimeInfo (votedTime (voted s3))
    (votedQuality (voted s3)) (edge r) (edgeExact r) sof)])%list. split; [cbn; by rewrite E, app_assoc|].
  apply Forall_app. split; [eapply Forall_impl; [exact F|by intros []]|].
  zbool. destruct I3 as (_ & L3 & _). unfold labelOk in L3. repeat constructor; cbn.
  all: destruct (haveVoted (voted s3)); [|done]; destruct L3 as (L31 & L32 & L33); try done.
  all: specialize (S3 L31); lia.
Qed.

(** Giving up the lock and where the minute is. *)
Lemma dcf_stop_drop s : Inv (withHist (dropAnchor (stopCertifying s)) []) /\
  grows s (withHist (dropAnchor (stopCertifying s)) []).
Proof.
  destruct (stop_fields s) as (_ & _ & _ & N & G). destruct (dcf_drop_inv _ N) as [I _].
  split; [exact I|]. eapply dcf_grows_trans; [exact G|]. by apply dcf_grows_refl.
Qed.

Lemma dcf_note_inv s r seen : Inv s -> Inv (noteSecond s r seen).
Proof. exact (fun I => I). Qed.
Lemma dcf_blind_drop s : let s' := withHist (dropAnchor (withBlind (stopCertifying s) 0)) [] in
  Inv s' /\ grows s s'.
Proof.
  cbv zeta. destruct (stop_fields s) as (_ & _ & _ & N & n & E & F). split.
  - split; [apply dcf_empty_ok|]. split; [exact N|]. intros _. exact N.
  - exists n. split; [exact E|exact F].
Qed.

Lemma dcf_process_inv s r seen :
  Inv s -> let s1 := handleSecond cfg sr (noteSecond s r seen) r seen in
  let s' := processSecond cfg sr s r seen in
  Inv s' /\ exists new, calls s' = (calls s ++ new)%list /\ Forall (backed s1) new.
Proof.
  intros I. apply (dcf_note_inv s r seen) in I. cbv zeta.
  destruct (dcf_handle_inv _ r seen I) as (I1 & n & E & F). unfold processSecond. cbv zeta in *.
  set (s1 := handleSecond _ _ _ _ _) in *. clearbody s1.
  assert (E0 : calls s1 = (calls s ++ n)%list) by exact E. clear E I.
  destruct (_ <=? _); [|split; [exact I1|by exists n]].
  destruct (dcf_blind_drop s1) as [I2 (n' & E' & F')]. split; [exact I2|].
  exists (n ++ n')%list. split; [by rewrite E', E0, app_assoc|].
  apply Forall_app. split; [done|]. eapply Forall_impl; [exact F'|by intros []].
Qed.

Lemma dcf_pmLock_inv s segmented far :
  Inv s -> Inv (pmLockAt s segmented far) /\ grows s (pmLockAt s segmented far).
Proof.
  intros I. unfold pmLockAt. destruct segmented; cbn [negb]; [|split; [exact I|by apply dcf_grows_refl]].
  destruct far; [|by split; [|apply dcf_grows_refl]].
  destruct (amDecoding s); [split; [exact I|by apply dcf_grows_refl]|]. apply dcf_stop_drop.
Qed.

Lemma dcf_input_inv s i : Inv s -> Inv (input cfg sr s i).
Proof.
  intros I. destruct i as [r seen|segmented far|segmented sign far]; cbn.
  - by apply dcf_process_inv.
  - by apply dcf_pmLock_inv.
  - unfold aidedLock. destruct (dcf_pmLock_inv s segmented far I) as [P _].
    destruct (segmented && far && amDecoding s); [done|]. by destruct (polarity _).
Qed.

Lemma dcf_run_inv ins : forall s, Inv s -> Inv (run cfg sr s ins).
Proof. induction ins as [|i ins IH]; intros s I; [done|]. cbn. apply IH. by apply dcf_input_inv. Qed.
Lemma dcf_running_inv : Inv running.
Proof. split; [apply dcf_empty_ok|]. split; [done|]. by intros _. Qed.

End Labels.

(** ** Properties *)

(** C17: the decoder reads what it predicts. A frame whose seconds 15 to 58 read,
    by either demodulator, as the time code predicted for the minute [t], with
    whatever stands in the seconds that cannot be predicted, decodes to [t]: the
    parities, the calendar and the summer time of the prediction all pass the
    decoder's checks, and taking the announced minute and the local time back off
    gives the UTC minute again, across midnights, month ends and clock changes. *)
Theorem dcf77_decodes_predicted (pol : option Z) (src : Src) (fr : list SecRec) (t : TimeFields) :
  rangeValid t = true -> 2000 <= announcedYear (msOf t) <= 2099 ->
  readsPredicted pol src fr (msOf t) ->
  exists d, decode pol src fr = Some d /\ d_utc d = t /\ d_utcMs d = msOf t /\
    d_cest d = cestAt (msOf t / 1000 + 60).
Proof. apply decode_predicted. Qed.

(** no label without a locked vote. Whatever has reached the running decoder,
    seconds and locks in any order, the labels the next second gives are for a
    second 0 to 59, never for a leap second, and carry the timestamp the voter
    votes then, while the voter's own verdict is that it is locked; and the frame
    index has stayed within a minute and its leap second. *)
Lemma dcf77_labels_backed `{Pow} (cfg : Config) (sr : Z) (past : list Input) (r : SecRec) (seen : Seen) :
  let s := run cfg sr running past in
  let s1 := handleSecond cfg sr (noteSecond s r seen) r seen in
  let s' := processSecond cfg sr s r seen in
  countOk (count s') /\
  exists new, calls s' = (calls s ++ new)%list /\
    forall ti, In (OnTime ti) new ->
      0 <= ti_second ti < 60 /\ l_locked (lockVerdict cfg (voter s1)) = true /\
      ti_fields ti = votedTimestamp cfg (voter s1).
Proof.
  cbv zeta. pose proof (dcf_run_inv cfg sr past running (dcf_running_inv cfg)) as I.
  destruct (dcf_process_inv cfg sr _ r seen I) as ((C & _) & new & E & F). split; [exact C|].
  exists new. split; [exact E|]. intros ti Hi. rewrite Forall_forall in F.
  exact (F (OnTime ti) (proj2 (list_elem_of_In _ _) Hi)).
Qed.

(** summer time is the European rule. In every year [cestAt] holds exactly from 01:00 UTC on a Sunday among the last seven
    days of March to 01:00 UTC on a Sunday among the last seven of October. *)
Theorem cest_last_sundays (u : Z) :
  let y := fst (fst (civilFromDays (floorDiv u 86400))) in
  exists m o, 25 <= m <= 31 /\ (daysFromCivil y 3 m + 4) mod 7 = 0 /\
    25 <= o <= 31 /\ (daysFromCivil y 10 o + 4) mod 7 = 0 /\
    (cestAt u = true <->
     daysFromCivil y 3 m * 86400 + 3600 <= u < daysFromCivil y 10 o * 86400 + 3600).
Proof.
  cbv zeta. unfold cestAt. destruct (civilFromDays _) as [[y mo] d]. cbn [fst].
  destruct (lastSunday_spec y 3 ltac:(lia)) as (m & Hm & Sm & ->).
  destruct (lastSunday_spec y 10 ltac:(lia)) as (o & Ho & So & ->).
  exists m, o. repeat split; try lia; zbool; lia.
Qed.

(** ** Witnesses *)

(** Second [i] of the minute that starts at UTC [ms], as Mainflingen keys it: AM
    and PM, the seconds that cannot be predicted sent as zeros. *)
Definition sendSecond (ms start : Z) (i : nat) : Input :=
  let b := default 0 (nth i (predictTimeCode ms) None) in
  let sym := if (i =? 59)%nat then SymMarker else if b =? 1 then SymOne else SymZero in
  let edge := start + 12000 * Z.of_nat i in
  Second (MkSec edge (d_of_Z edge) sym 0.75%D (if b =? 1 then -1 else 1) 0.75%D)
         (MkSeen true true true true 12000%D).
Definition sendMinute (ms start : Z) : list Input := map (sendSecond ms start) (seq 0 60).
Definition recordOf (i : Input) : SecRec := match i with Second r _ => r | _ => noSec end.

(** 22:58 UTC of 30 June 2024, 00:58 of 1 July at Mainflingen. *)
Definition demoMinute : TimeFields := TF 58 22 182 24.
Definition demoFrame : list SecRec := map recordOf (sendMinute (msOf demoMinute) 0).

Definition readsb (pol : option Z) (src : Src) (rp : SecRec * option Z) : bool :=
  match bitOf pol src (fst rp), snd rp with
  | Some (b, _), Some p => p =? b
  | Some _, None => true
  | None, _ => false
  end.
Lemma readsb_ok pol src rs : Forall (fun rp => readsb pol src rp = true) rs -> Forall2 (reads pol src) (map fst rs) (map snd rs).
Proof.
  induction 1 as [|[r p] rs R _ IH]; [constructor|]. cbn. constructor; [|done]. unfold readsb in R. cbn in R.
  unfold reads. destruct (bitOf pol src r) as [[b c]|]; [|done]. exists b, c. split; [done|].
  destruct p as [p|]; [|by left]. apply Z.eqb_eq in R as ->. by right.
Qed.

Lemma demoFrame_reads src : readsPredicted (Some 1) src demoFrame (msOf demoMinute).
Proof.
  apply (readsb_ok (Some 1) src (combine (coded demoFrame) (coded (predictTimeCode (msOf demoMinute))))).
  apply Forall_forall. intros x Hx. apply list_elem_of_In in Hx. revert x Hx. apply forallb_forall. by destruct src; vm_compute.
Qed.

Lemma dcf77_decodes_predicted_witness :
  exists d, decode (Some 1) Pm demoFrame = Some d /\ d_utc d = demoMinute /\ d_utcMs d = msOf demoMinute /\
    d_cest d = cestAt (msOf demoMinute / 1000 + 60).
Proof.
  apply (dcf77_decodes_predicted (Some 1) Pm demoFrame demoMinute); [vm_compute; reflexivity|vm_compute; split; discriminate|].
  apply demoFrame_reads.
Defined.

Example cest_instants :
  map cestAt [1711846799; 1711846800; 1729990799; 1729990800] = [false; true; true; false].
Proof. vm_compute. reflexivity. Qed.

(** Four minutes over midnight UTC: the decoder finds the minute and the polarity
    by the sync word, locks, and labels each second with its minute. *)
Example dcf77_locks :
  let s := @run demoPow buildVoterConfig 12000 running
             (concat (map (fun i => sendMinute (msOf demoMinute + 60000 * i) (720000 * i)) [0; 1; 2; 3])) in
  lockState s = LockLocked /\ polarity (carry s) = Some 1 /\
  exists q, last (calls s) = Some (OnTime (MkTimeInfo (TF 1 23 182 24) q 2868000 2868000 59)).
Proof. vm_compute. split; [done|]. split; [done|]. by eexists. Qed.
