(* ===== verification/Dcf77Pm.v ===== *)
(** * DCF77's phase modulation (src/clock/Dcf77Decoder.cpp)
    The 512 chips every second carries on the carrier's phase, correlated through
    prefix sums of the phase: the chips, the sums' rings, the noise a burst is judged
    against, the search for it, its tracking, the evidence that holds it through a
    fade, and the sum of seconds that AM frames. A read of a ring is masked, as in
    the code: it is always of a slot there is, and a lemma says when that is the one
    wanted. *)

From Stdlib Require Import ZArith Lia List Bool Floats.
From stdpp Require Import base list sorting.
From S2P Require Import Prelude Doubles Rounding CivilTime Signals.

#[local] Open Scope Z_scope.

(** ** Constants *)

Definition kCarrierHz : double := 77500%D.
Definition kChips : Z := 512.
Definition kChipSec : double := (120 / kCarrierHz)%D.
Definition kPmStartSec : double := (15500 / kCarrierHz)%D.
Definition kHpHalfSec : double := 0.005%D.
Definition kPmAcqSeconds : nat := 6.
Definition kPmAcqScore : double := 3.5%D.
Definition kPmMinSnr : double := 4%D.
Definition kPmMissLimit : Z := 10.
Definition kPmNoiseAlpha : double := (1 / 8)%D.
Definition kPmNoiseJump : double := 4%D.
Definition kPmHoldWindow : Z := 30.
Definition kPmHoldCoherent : double := 2.5%D.
Definition kPmHoldPowerK : double := 3.5%D.
Definition kPmEvClip : double := 4%D.
Definition kPmStrongSnr : double := 8%D.
Definition kAidHalfSec : double := 0.025%D.
Definition kAidSeconds : nat := 30.
Definition kAidMinSeconds : nat := 10.
Definition kAidScore : double := 6%D.
Definition kAidClip : double := 4%D.
Definition kAidDriftSec : double := 0.005%D.
Definition kAidSpanSeconds : Z := 90.
Definition kAidMaxSlope : double := 0.5%D.
Definition kAidKnownSlope : double := 0.05%D.
Definition kPeriodLearnSeconds : Z := 32.
Definition kTrkAlpha : double := (1 / 8)%D.
Definition kTrkBeta : double := (1 / 128)%D.
Definition kTrkWarm : Z := 8.

(** [std::round]: halves go away from nought, and nought keeps the sign. *)
Definition dround (x : double) : double :=
  match droundZ x with Some z => if (z =? 0)%Z then (x * 0)%D else d_of_Z z | None => x end.
(** [static_cast<int>] of a [double], and of [std::llround]. *)
Definition d2i (x : double) : Z := i32 (d2ll x).
Definition llround32 (x : double) : Z := i32 (dllround x).

(** ** The chips *)

(** The Galois shift register, as published: 1 for a 0 chip and -1 for a 1 chip. *)
Definition chipStep (lfsr : Z) : Z * Z :=
  let chip := Z.land lfsr 1 in
  let l := Z.shiftr lfsr 1 in
  ((if chip =? 0 then 1 else -1), if Z.lxor chip (if l =? 0 then 1 else 0) =? 0 then l else Z.lxor l 272).
Fixpoint chipsFrom (n : nat) (lfsr : Z) : list Z :=
  match n with O => [] | S n => let '(c, l) := chipStep lfsr in c :: chipsFrom n l end.
Definition chips : list Z := chipsFrom 512 0.
Definition chip (k : nat) : Z := nth k chips 0.

(** The correlation regrouped by the prefix sum each term reads: only a change of
    chip contributes. *)
Definition coeffs : list (Z * Z) :=
  List.filter (fun '(_, w) => negb (w =? 0))
    ((0, - chip 0) :: map (fun k => (Z.of_nat k, chip (k - 1) - chip k)) (seq 1 511) ++ [(kChips, chip 511)]).

(** ** The rings of prefix sums
    [pre] of the phase's deviation, and [preH] of the same high-passed; [start] is
    [steadyStart], [total] the samples consumed. *)
Record Sums := MkSums { pre : list double; preH : list double; start : Z; total : Z }.

(** ** What follows a second's burst *)

(** [EdgeTracker]. *)
Record Tracker := MkTrk { t_valid : bool; t_edge : double; t_period : double; t_count : Z; t_outliers : Z }.
Definition newTracker : Tracker := MkTrk false 0 0 0 0.
Definition trkReset (t : Tracker) : Tracker := MkTrk false (t_edge t) (t_period t) 0 0.
Definition within200 (nominal v : double) : double := dclamp v (nominal * (1 - 2e-4))%D (nominal * (1 + 2e-4))%D.
Definition update (t : Tracker) (measured : bool) (raw nominal tol : double) : Tracker :=
  if negb (t_valid t) then if measured then MkTrk true raw nominal 1 0 else t
  else
    let pred := (t_edge t + t_period t)%D in
    if negb measured then MkTrk true pred (t_period t) (t_count t) (t_outliers t)
    else
      let r := (raw - pred)%D in
      if (dabs r >? tol)%D then
        if 3 <=? t_outliers t + 1 then MkTrk true raw nominal 1 0
        else MkTrk true pred (t_period t) (t_count t) (t_outliers t + 1)
      else
        let n := t_count t + 1 in
        MkTrk true (pred + dmax (1 / d_of_Z n) kTrkAlpha * r)%D
          (if kTrkWarm <? n then within200 nominal (t_period t + kTrkBeta * r)%D else t_period t) n 0.
Definition nudge (t : Tracker) (raw w nominal : double) : Tracker :=
  let pred := (t_edge t + t_period t)%D in
  let r := (raw - pred)%D in
  MkTrk (t_valid t) (pred + w * kTrkAlpha * r)%D (within200 nominal (t_period t + w * kTrkBeta * r)%D) (t_count t) (t_outliers t).

(** The noise of a tracked burst: its average, and what this second is judged against. *)
Record NoiseEst := MkNoise { n_v : double; n_now : double }.
Definition noNoise : NoiseEst := MkNoise 0 0.
Definition noteNoise (e : NoiseEst) (inst : double) : NoiseEst :=
  if (inst <=? 0)%D then MkNoise (n_v e) (n_v e)
  else if negb (n_v e >? 0)%D then MkNoise inst inst
  else
    MkNoise (n_v e + kPmNoiseAlpha * (dmin inst (kPmNoiseJump * n_v e) - n_v e))%D
      (if (inst >? kPmNoiseJump * n_v e)%D then inst else n_v e).

(** One tracked second's evidence: its signal to noise ratio squared, and its
    correlation signed by the bit it should carry, when that is known. *)
Record PmEv := MkEv { ev_z2 : double; ev_e : option double }.

(** What the tracked seconds since the last measured one say together. *)
Definition pmHoldEvidence (evs : list PmEv) (miss : Z) : bool :=
  let w := Nat.min (length evs) (Z.to_nat (Z.min miss kPmHoldWindow)) in
  let '(n, z2, nk, se) :=
    fold_left (fun '(n, z2, nk, se) e =>
      match ev_e e with
      | Some v => (n + 1, (z2 + ev_z2 e)%D, nk + 1, (se + v)%D)
      | None => (n + 1, (z2 + ev_z2 e)%D, nk, se)
      end) (drop (length evs - w) evs) (0, 0%D, 0, 0%D) in
  ((kPmMissLimit <=? nk) && (kPmHoldCoherent <=? se / PrimFloat.sqrt (d_of_Z nk))%D) ||
  ((kPmMissLimit <=? n) && (d_of_Z n + kPmHoldPowerK * PrimFloat.sqrt (2 * d_of_Z n) <=? z2)%D).
(** [bit] is the bit the second carries, where it and the polarity [pol] are known. *)
Definition signOf (pol : option Z) (bit : option Z) : option double :=
  match pol, bit with
  | Some p, Some b => Some (d_of_Z p * (if (b =? 0)%Z then 1 else -1))%D
  | _, _ => None
  end.
Definition pushPmEvidence (evs : list PmEv) (c snr : double) (pol bit : option Z) : list PmEv :=
  if (c =? 0)%D then evs
  else
    let e := option_map (fun s => fround (((if (0 <=? c)%D then 1 else -1) * s) * dmin snr kPmEvClip)%D) (signOf pol bit) in
    keep_last (Z.to_nat kPmHoldWindow) (evs ++ [MkEv (fround (dmin (snr * snr) (kPmEvClip * kPmEvClip)))%D e]).

(** *** The search's history: the last searches' powers by lag *)
Record Acq := MkAcq { acqPint : Z; acqBase : Z; acqHist : list (list double); acqHistN : nat; acqHistNext : nat }.
Definition noAcq : Acq := MkAcq 0 0 [] 0 0.

(** *** The aided search: the second waiting, the grid, and the seconds summed on it *)
Record AidSec := MkAid { a_j : Z; a_v : list double }.
Record Aid := MkAids { aid : list AidSec; aidE0 : double; aidP0 : double }.
Definition noAid : Aid := MkAids [] 0 0.

(** *** All of it
    [useHp] is which of the two sums is correlated. [periodLearnt] is [None] until
    it is known. The last three are for the diagnostics. *)
Record PmState := MkPm {
  pmLocked : bool; pmMiss : Z; useHp : bool; noiseRaw : NoiseEst; noiseHp : NoiseEst; pmTrk : Tracker; pmEv : list PmEv;
  acq : Acq; lastSearchEnd : Z; aids : Aid; periodLearnt : option double;
  lastPmSnr : double; pmHolding : bool; pmAidedLocks : Z
}.
Definition noPm : PmState := MkPm false 0 false noNoise noNoise newTracker [] noAcq 0 noAid None nan false 0.
Definition withUse (m : PmState) (u : bool) : PmState :=
  MkPm (pmLocked m) (pmMiss m) u (noiseRaw m) (noiseHp m) (pmTrk m) (pmEv m) (acq m) (lastSearchEnd m) (aids m)
    (periodLearnt m) (lastPmSnr m) (pmHolding m) (pmAidedLocks m).
Definition withNoise (m : PmState) (raw hp : NoiseEst) : PmState :=
  MkPm (pmLocked m) (pmMiss m) (useHp m) raw hp (pmTrk m) (pmEv m) (acq m) (lastSearchEnd m) (aids m)
    (periodLearnt m) (lastPmSnr m) (pmHolding m) (pmAidedLocks m).
Definition withTrk (m : PmState) (t : Tracker) : PmState :=
  MkPm (pmLocked m) (pmMiss m) (useHp m) (noiseRaw m) (noiseHp m) t (pmEv m) (acq m) (lastSearchEnd m) (aids m)
    (periodLearnt m) (lastPmSnr m) (pmHolding m) (pmAidedLocks m).
Definition withAcq (m : PmState) (a : Acq) (searched : Z) (snr : double) : PmState :=
  MkPm (pmLocked m) (pmMiss m) (useHp m) (noiseRaw m) (noiseHp m) (pmTrk m) (pmEv m) a searched (aids m)
    (periodLearnt m) snr (pmHolding m) (pmAidedLocks m).
Definition withAids (m : PmState) (a : Aid) : PmState :=
  MkPm (pmLocked m) (pmMiss m) (useHp m) (noiseRaw m) (noiseHp m) (pmTrk m) (pmEv m) (acq m) (lastSearchEnd m) a
    (periodLearnt m) (lastPmSnr m) (pmHolding m) (pmAidedLocks m).
Definition pmReset (m : PmState) : PmState :=
  let a := acq m in
  MkPm false 0 (useHp m) noNoise noNoise (trkReset (pmTrk m)) [] (MkAcq 0 (acqBase a) (acqHist a) 0 0) 0
    (MkAids [] (aidE0 (aids m)) (aidP0 (aids m))) None nan false 0.
Definition unlocked (m : PmState) : PmState :=
  MkPm false (pmMiss m) (useHp m) (noiseRaw m) (noiseHp m) (pmTrk m) (pmEv m) (acq m) (lastSearchEnd m) (aids m)
    (periodLearnt m) (lastPmSnr m) (pmHolding m) (pmAidedLocks m).

Section Pm.
Context `{Libm} (sr : Z).

Definition hpM : Z := Z.max 1 (spanOf sr kHpHalfSec).
Definition ringSize : nat := Z.to_nat (capOf (3 * sr)).
Definition mask (u : Sums) : Z := Z.of_nat (length (pre u)) - 1.

(** First and last of the prefix sums the searches may read. *)
Definition prefixLo (u : Sums) : Z := Z.max (start u + hpM) (total u - hpM - mask u + 1).
Definition prefixHi (u : Sums) : Z := total u - hpM.
Definition slot (p : list double) (k : Z) : double := nth (ringSlot p k) p 0%D.

(** The index a read at an instant begins at, and how far past it the instant is. *)
Definition indexOf (at_ : double) : Z := d2ll (dfloor (at_ + 0.5)%D).
Definition prefixAt (p : list double) (at_ : double) : double :=
  let x := (at_ + 0.5)%D in
  let a := slot p (indexOf at_) in
  let b := slot p (indexOf at_ + 1) in
  (a + (x - dfloor x) * (b - a))%D.
Definition burstInRing (u : Sums) (tau tc : double) : bool :=
  (d_of_Z (prefixLo u) <=? tau - 2)%D && (tau + d_of_Z kChips * tc + 2 <=? d_of_Z (prefixHi u))%D.
Definition corrOn (p : list double) (tau tc : double) : double :=
  fold_left (fun s '(k, w) => (s + d_of_Z w * prefixAt p (tau + d_of_Z k * tc))%D) coeffs 0%D.
Definition ringOf (u : Sums) (useHp : bool) : list double := if useHp then preH u else pre u.

(** The spread of the correlation at some lags, those whose burst is in the ring;
    -1 when they are too few. *)
Definition noise2On (u : Sums) (p : list double) (tc : double) (ats : list double) : double :=
  let sq := map (fun t => let c := corrOn p t tc in (c * c)%D) (take 32 (List.filter (fun t => burstInRing u t tc) ats)) in
  let k := length sq in
  if (k <? 8)%nat then (-1)%D else dmax 1e-30 (nthSmallest (k / 2) sq / 0.455)%D.
Definition trackNoise2 (u : Sums) (p : list double) (tau tc : double) : double :=
  noise2On u p tc (map (fun j => tau - (4 + 5.37 * d_of_Z (Z.of_nat j)) * tc)%D (seq 0 24)).

(** The next sample's phase into both. [pre] runs to one past the sample; [preH] is
    of each sample less the mean of those centred on it, [hpM] samples late. *)
Definition feedSums (u : Sums) (y : double) : Sums :=
  let k := total u - 1 in
  let p := ringPut (pre u) (k + 1) (slot (pre u) k + y)%D in
  let c := k - hpM in
  if c <? start u + hpM then MkSums p (preH u) (start u) (total u)
  else
    let h := if c =? start u + hpM then ringPut (preH u) c 0%D else preH u in
    let raw := (slot p (c + 1) - slot p c)%D in
    let ma := ((slot p (k + 1) - slot p (c - hpM)%Z) / d_of_Z (2 * hpM + 1))%D in
    MkSums p (ringPut h (c + 1) (slot h c + (raw - ma))%D) (start u) (total u).

(** What the high-pass leaves of a burst's power: the chip waveform at this rate,
    less its centred mean, against itself. *)
Definition waveform : list double :=
  let spc := (kChipSec * d_of_Z sr)%D in
  let n := d2ll (dceil (d_of_Z kChips * spc))%D in
  let wave := map (fun i => d_of_Z (chip (Z.to_nat (Z.min (kChips - 1) (d2ll (d_of_Z (Z.of_nat i) / spc)%D))))) (seq 0 (Z.to_nat n)) in
  (replicate (Z.to_nat hpM) 0 ++ wave ++ replicate (Z.to_nat (hpM + 1)) 0)%list%D.
Fixpoint runSums (s : double) (l : list double) : list double :=
  s :: match l with [] => [] | v :: l => runSums (s + v)%D l end.
Definition hpSignalKept : double :=
  let w := waveform in
  let run := runSums 0%D w in
  let m := Z.to_nat hpM in
  let '(kept, full) :=
    fold_left (fun '(kept, full) '(v, (before, after)) =>
      let mean := ((after - before) / d_of_Z (2 * hpM + 1))%D in
      (kept + (v - mean) * v, full + v * v)%D) (combine (drop m w) (combine run (drop (2 * m + 1) run))) (0, 0)%D in
  let a := if (full >? 0)%D then (kept / full)%D else 1%D in
  (a * a)%D.
(** The code works [hpSignalKept] out once. *)
Definition hpBetter (raw2 hp2 : double) : bool := (raw2 >? 0)%D && (hp2 >? 0)%D && (hp2 <? hpSignalKept * raw2)%D.

(** Early and late on the triangle of the correlation: how far the peak is from
    [tau], held to half a chip. *)
Definition earlyLate (p : list double) (tau tc sign : double) : double * double :=
  let d := (0.5 * tc)%D in ((sign * corrOn p (tau - d) tc)%D, (sign * corrOn p (tau + d) tc)%D).
Definition peakOffset (e l width limit : double) : double := dclamp ((e - l) / (e + l) * width)%D (- limit)%D limit.
Fixpoint refineFrom (n : nat) (p : list double) (tau tc sign : double) : double :=
  match n with
  | O => tau
  | S n =>
      let '(e, l) := earlyLate p tau tc sign in
      if (e + l <=? 0)%D then tau
      else refineFrom n p (tau - peakOffset e l (tc - 0.5 * tc) (0.5 * tc))%D tc sign
  end.
Definition refine : list double -> double -> double -> double -> double := refineFrom 2.
Definition signOfD (c : double) : double := if (0 <=? c)%D then 1%D else (-1)%D.
Definition decibels (ratio : double) : double := fround (20 * lm_log10 (dmax ratio 1e-3))%D.

(** ** The search: every lag of the last second *)

(** The correlation at one whole lag; the chips' offsets are the same at all. *)
Definition corrWhole (p : list double) (tc : double) (tau : Z) : double :=
  fold_left (fun s '(k, w) =>
    let o := (d_of_Z k * tc)%D in
    let i := tau + d2ll (dfloor o) in
    let a := slot p i in
    let b := slot p (i + 1) in
    (s + d_of_Z w * (a + (o - dfloor o) * (b - a)))%D) coeffs 0%D.
(** The variance of noise of which these are the squares. *)
Definition varianceOf (sq : list double) : double := dmax 1e-30 (nthSmallest (length sq / 2) sq / 0.455)%D.
(** [l], its first element in place [n] of as many, round the end. *)
Definition filedFrom (n : nat) (l : list double) : list double :=
  (drop (length l - n) l ++ take (length l - n) l)%list.
(** The first of the greatest sums over the searches filed, and the sum. *)
Definition bestLag (hist : list (list double)) (pint : nat) : nat * double :=
  fold_left (fun '(b, best) i =>
    let sum := Signals.total (map (fun h => nth i h 0%D) hist) in
    if (sum >? best)%D then (i, sum) else (b, best)) (seq 0 pint) (0%nat, (-1)%D).

(** One search, when one is due, with where it puts a burst that locks. *)
Definition pmSearch (u : Sums) (m : PmState) (P : double) : PmState * option double :=
  let tc := (kChipSec * P)%D in
  let hi := d2ll (dfloor (d_of_Z (prefixHi u) - d_of_Z kChips * tc - tc - 3))%D in
  let lo := hi - d2ll P + 1 in
  if (total u - lastSearchEnd m <? d2ll P) || (lo - d2ll tc - 2 <? prefixLo u) then (m, None)
  else
    let pint := i32 (hi - lo + 1) in
    let n := Z.to_nat pint in
    let a := if pint =? acqPint (acq m) then acq m
             else MkAcq pint lo (replicate kPmAcqSeconds (replicate n 0%D)) 0 0 in
    let span := (d_of_Z (hi - lo + 1) / 24)%D in
    let ats := map (fun j => d_of_Z lo + (d_of_Z (Z.of_nat j) + 0.5) * span)%D (seq 0 24) in
    let m := withUse m (hpBetter (noise2On u (pre u) tc ats) (noise2On u (preH u) tc ats)) in
    let p := ringOf u (useHp m) in
    let c := map (fun i => corrWhole p tc (lo + Z.of_nat i)) (seq 0 n) in
    let var := varianceOf (map (fun x => x * x)%D c) in
    let off0 := floorMod (lo - acqBase a) pint in
    let hist := <[acqHistNext a := filedFrom (Z.to_nat off0) (map (fun x => fround (x * x / var)%D) c)]> (acqHist a) in
    let k := Nat.min (acqHistN a + 1) kPmAcqSeconds in
    let a := MkAcq pint (acqBase a) hist k (Nat.modulo (acqHistNext a + 1) kPmAcqSeconds) in
    let '(best, sum) := bestLag (take k hist) n in
    let score := PrimFloat.sqrt (dmax 0 sum / d_of_Z (Z.max 1 (Z.of_nat k)))%D in
    let m := withAcq m a (total u) (decibels score) in
    if (k <? kPmAcqSeconds)%nat || (score <? kPmAcqScore)%D then (m, None)
    else
      let j := floorMod (Z.of_nat best - off0) pint in
      (m, Some (refine p (d_of_Z (lo + j)) tc (signOfD (nth (Z.to_nat j) c 0%D)))).

(** The state a lock begins with, whoever found it. *)
Definition lockedAfresh (m : PmState) : PmState :=
  MkPm true 0 (useHp m) noNoise noNoise (trkReset (pmTrk m)) []
    (MkAcq 0 (acqBase (acq m)) (acqHist (acq m)) (acqHistN (acq m)) (acqHistNext (acq m))) (lastSearchEnd m)
    (MkAids [] (aidE0 (aids m)) (aidP0 (aids m))) (periodLearnt m) (lastPmSnr m) (pmHolding m) (pmAidedLocks m).

(** ** Tracking *)

(** What a tracked second read: whether it was measured, where, the correlation
    there and its signal to noise ratio. *)
Record Read := MkRead { r_meas : bool; r_tau : double; r_c : double; r_snr : double }.
Definition unread : Read := MkRead false 0 0 0.
Definition pmTrack (u : Sums) (m : PmState) (pred P : double) : PmState * Read :=
  let tc := (kChipSec * P)%D in
  let win := d2i (dceil (1.5 * tc))%D in
  let base := dfloor pred in
  if negb (burstInRing u (base - d_of_Z win - tc)%D tc) || negb (burstInRing u (base + d_of_Z win + tc)%D tc)
  then (m, MkRead false pred 0 0)
  else
    let raw := noteNoise (noiseRaw m) (trackNoise2 u (pre u) base tc) in
    let hp := noteNoise (noiseHp m) (trackNoise2 u (preH u) base tc) in
    let use := hpBetter (n_v raw) (n_v hp) in
    let m := withUse (withNoise m raw hp) use in
    let noise2 := if use then n_now hp else n_now raw in
    let p := ringOf u use in
    let snrOf c := if (0 <? noise2)%D then (dabs c / PrimFloat.sqrt noise2)%D else 0%D in
    let '(best, bestTau) :=
      fold_left (fun '(best, bestTau) i =>
        let t := (base + d_of_Z (Z.of_nat i - win))%D in
        let c := corrOn p t tc in
        if (dabs c >? dabs best)%D then (c, t) else (best, bestTau)) (seq 0 (Z.to_nat (2 * win + 1))) (0%D, base) in
    let tau := refine p bestTau tc (signOfD best) in
    let c := corrOn p tau tc in
    let snr := snrOf c in
    let gate := if t_valid (pmTrk m) && (snr <? kPmStrongSnr)%D then (0.5 * tc)%D else d_of_Z win in
    if (kPmMinSnr <=? snr)%D && (dabs (tau - pred) <=? gate)%D then (m, MkRead true tau c snr)
    else
      let c := corrOn p pred tc in (m, MkRead false pred c (snrOf c)).

(** A second too weak to be measured, read by early and late where the burst is
    expected. *)
Definition pmNudge (u : Sums) (m : PmState) (r : Read) (pol bit : option Z) (P : double) : PmState :=
  let tc := (kChipSec * P)%D in
  let sign := match signOf pol bit with Some s => s | None => signOfD (r_c r) end in
  let '(e, l) := earlyLate (ringOf u (useHp m)) (r_tau r) tc sign in
  if negb (e + l >? 0)%D then withTrk m (update (pmTrk m) false 0 P tc)
  else
    let eps := peakOffset e l (tc - 0.5 * tc)%D (0.5 * tc)%D in
    let w := dmin 1 ((r_snr r / kPmMinSnr) * (r_snr r / kPmMinSnr))%D in
    withTrk m (nudge (pmTrk m) (r_tau r - eps - kPmStartSec * P)%D w (d_of_Z sr)).

(** The tracked second's evidence, and what ten unmeasured in a row say: the lock
    is held, or the search begins again. *)
Definition pmJudge (u : Sums) (m : PmState) (r : Read) (pol bit : option Z) : PmState :=
  let evs := pushPmEvidence (pmEv m) (r_c r) (r_snr r) pol bit in
  let miss := if r_meas r then 0 else pmMiss m + 1 in
  let lost := negb (r_meas r) && (kPmMissLimit <=? miss) && negb (pmHoldEvidence evs miss) in
  MkPm (negb lost) miss (useHp m) (noiseRaw m) (noiseHp m) (if lost then trkReset (pmTrk m) else pmTrk m)
    (if lost then [] else evs) (acq m) (if lost then total u else lastSearchEnd m) (aids m)
    (periodLearnt m) (decibels (r_snr r)) (pmHolding m) (pmAidedLocks m).
(** The tracker after it. *)
Definition pmFollow (u : Sums) (m : PmState) (r : Read) (pol bit : option Z) (P : double) : PmState :=
  let pmEdge := (r_tau r - kPmStartSec * P)%D in
  let nominal := if t_valid (pmTrk m) then P else d_of_Z sr in
  let m :=
    if r_meas r || negb (t_valid (pmTrk m)) || negb (r_snr r >? 0)%D
    then withTrk m (update (pmTrk m) (r_meas r) pmEdge nominal (kChipSec * P)%D)
    else pmNudge u m r pol bit P in
  let t := pmTrk m in
  if t_valid t && (kPeriodLearnSeconds <=? t_count t) then
    MkPm (pmLocked m) (pmMiss m) (useHp m) (noiseRaw m) (noiseHp m) t (pmEv m) (acq m) (lastSearchEnd m) (aids m)
      (Some (t_period t)) (lastPmSnr m) (pmHolding m) (pmAidedLocks m)
  else m.
(** A whole second of it. *)
Definition pmSecond (u : Sums) (m : PmState) (pol bit : option Z) (pred P : double) : PmState * Read :=
  let '(m, r) :=
    if pmLocked m then
      let '(m, r) := pmTrack u m (pred + kPmStartSec * P)%D P in (pmJudge u m r pol bit, r)
    else (m, unread) in
  let m := MkPm (pmLocked m) (pmMiss m) (useHp m) (noiseRaw m) (noiseHp m) (pmTrk m) (pmEv m) (acq m) (lastSearchEnd m)
             (aids m) (periodLearnt m) (lastPmSnr m) (pmLocked m && (kPmMissLimit <=? pmMiss m)) (pmAidedLocks m) in
  (if pmLocked m then pmFollow u m r pol bit P else m, r).

(** ** The search aided by AM *)

(** The slopes searched, from [d] to [top]. *)
Fixpoint slopesFrom (fuel : nat) (d top step : double) : list double :=
  match fuel with
  | O => []
  | S fuel => if (d <=? top)%D then d :: slopesFrom fuel (d + step)%D top step else []
  end.
Definition slopes (maxSlope : double) (span : Z) : list double :=
  let step := if 0 <? span then dmin maxSlope (1 / d_of_Z span)%D else maxSlope in
  slopesFrom 200 (- maxSlope)%D (maxSlope + 1e-9)%D step.
(** The sum of the seconds along one slope, at the lags [from] to [to]. *)
Definition alongSlope (secs : list AidSec) (last from to : Z) (d : double) : list double :=
  map (fun k =>
    let i := from + Z.of_nat k in
    fold_left (fun s e => (s + nth (Z.to_nat (i + llround32 (d * d_of_Z (a_j e - last))%D)) (a_v e) 0)%D) secs 0%D)
    (seq 0 (Z.to_nat (to - from + 1))).
(** The best score, its lag past the first, its slope and that slope's sums. *)
Record Best := MkBest { b_score : double; b_lag : nat; b_slope : double; b_sums : list double }.
Definition bestAlong (pol : option Z) (root : double) (d : double) (S : list double) (best : option Best) : option Best :=
  fold_left (fun best i =>
    let v := nth i S 0%D in
    let sc := ((match pol with Some p => d_of_Z p * v | None => dabs v end) / root)%D in
    if (sc >? match best with Some b => b_score b | None => 0 end)%D then Some (MkBest sc i d S) else best)
    (seq 0 (length S)) best.

(** The grid the second at [burst] is filed on. *)
Definition gridFor (a : Aid) (burst P0 : double) : Aid :=
  let j := ((burst - aidE0 a) / P0)%D in
  let stale :=
    match aid a with
    | [] => true
    | f :: _ => (dabs (burst - (aidE0 a + dround j * P0)) >? kAidDriftSec * d_of_Z sr)%D ||
                (kAidSpanSeconds <? dllround j - a_j f)
    end in
  let a := if stale then MkAids [] burst P0 else a in
  if negb (P0 =? aidP0 a)%D then MkAids [] burst P0 else a.

(** The second is summed with those before it; with enough of them, and a sum that
    stands out, PM is locked: where, the period, the sign of the bit it reads, and
    the score. *)
Record AidLock := MkAidLock { al_tau : double; al_P : double; al_sign : Z; al_score : double }.
Definition aidBase (a : Aid) (burst P0 : double) : Z * Z :=
  let j := dllround ((burst - aidE0 a) / P0)%D in
  (j, dllround (aidE0 a + d_of_Z j * P0)%D - llround32 (kAidHalfSec * d_of_Z sr)%D).
Definition aidDecide (pol : option Z) (secs : list AidSec) (base : Z) (P0 maxSlope : double) : option AidLock :=
  let W := llround32 (kAidHalfSec * d_of_Z sr)%D in
  let tc := (kChipSec * P0)%D in
  let last := match List.last secs (MkAid 0 []) with MkAid j _ => j end in
  let span := last - match secs with f :: _ => a_j f | [] => 0 end in
  let margin := d2i (dceil (maxSlope * d_of_Z span))%D + 1 in
  let root := PrimFloat.sqrt (d_of_Z (Z.of_nat (length secs))) in
  let best := fold_left (fun best d => bestAlong pol root d (alongSlope secs last margin (2 * W - margin) d) best)
                (slopes maxSlope span) None in
  match best with
  | None => None
  | Some b =>
      if (b_score b <? kAidScore)%D then None
      else
        let at_ k := nth (Z.to_nat k) (b_sums b) 0%D in
        let i := Z.of_nat (b_lag b) in
        let sign := if (0 <=? at_ i)%D then 1 else -1 in
        let h := llround32 (0.5 * tc)%D in
        let frac :=
          if (0 <=? i - h) && (i + h <=? 2 * W - 2 * margin) then
            let e := (d_of_Z sign * at_ (i - h)%Z)%D in
            let l := (d_of_Z sign * at_ (i + h)%Z)%D in
            if (e + l >? 0)%D then (- peakOffset e l (tc - d_of_Z h) (0.5 * d_of_Z h))%D else 0%D
          else 0%D in
        Some (MkAidLock (d_of_Z (base + (margin + i)) + frac)%D (P0 + b_slope b)%D sign (b_score b))
  end.
Definition aidedAcquire (u : Sums) (m : PmState) (pol : option Z) (burst sign : double) : PmState * option AidLock :=
  let P0 := default (d_of_Z sr) (periodLearnt m) in
  let maxSlope := match periodLearnt m with Some _ => kAidKnownSlope | None => kAidMaxSlope end in
  let W := llround32 (kAidHalfSec * d_of_Z sr)%D in
  let a := gridFor (aids m) burst P0 in
  let '(j, base) := aidBase a burst P0 in
  let tc := (kChipSec * P0)%D in
  if negb (burstInRing u (d_of_Z base) tc) || negb (burstInRing u (d_of_Z (base + 2 * W)) tc) then (withAids m a, None)
  else
    let c := map (fun i => corrOn (ringOf u (useHp m)) (d_of_Z (base + Z.of_nat i)) tc) (seq 0 (Z.to_nat (2 * W + 1))) in
    let sigma := PrimFloat.sqrt (varianceOf (map (fun x => x * x)%D c)) in
    let v := map (fun x => fround (dclamp (sign * x / sigma) (- kAidClip) kAidClip)%D) c in
    let secs := keep_last kAidSeconds (aid a ++ [MkAid j v]) in
    let m := withAids m (MkAids secs (aidE0 a) (aidP0 a)) in
    (m, if (length secs <? kAidMinSeconds)%nat then None else aidDecide pol secs base P0 maxSlope).
(** What an aided lock that is not refused leaves the tracker with: the burst it
    measured, in a second of the length it measured, worth as many measurements as
    its score is floors squared. *)
Definition aidedTracker (m : PmState) (l : AidLock) : PmState :=
  let P := al_P l in
  let t := update (pmTrk m) true (al_tau l + P - kPmStartSec * P)%D P (kChipSec * P)%D in
  let n := zclamp (d2i ((al_score l / kPmMinSnr) * (al_score l / kPmMinSnr))%D) 1 kTrkWarm in
  MkPm (pmLocked m) (pmMiss m) (useHp m) (noiseRaw m) (noiseHp m)
    (MkTrk (t_valid t) (t_edge t) (t_period t) n (t_outliers t)) (pmEv m) (acq m) (lastSearchEnd m) (aids m)
    (periodLearnt m) (lastPmSnr m) (pmHolding m) (pmAidedLocks m + 1).
End Pm.

(** ** Lemmas: the rings *)

Lemma feedSums_total sr u y : total (feedSums sr u y) = total u.
Proof. unfold feedSums. cbv zeta. by destruct (_ <? _). Qed.

(** Two places of a ring less than its size apart are not the same slot. *)
Lemma slot_put_same p n x : (0 < length p)%nat -> slot (ringPut p n x) n = x.
Proof.
  intros L. unfold slot, ringSlot. rewrite length_ringPut. unfold ringPut. apply nth_lookup_Some.
  apply list_lookup_insert_eq. by apply ringSlot_lt.
Qed.
Lemma slot_put_other p n m x : (0 < length p)%nat -> m < n < m + Z.of_nat (length p) -> slot (ringPut p n x) m = slot p m.
Proof.
  intros L D. unfold slot. replace (ringSlot (ringPut p n x) m) with (ringSlot p m) by (unfold ringSlot; by rewrite length_ringPut).
  unfold ringPut. rewrite !nth_lookup. f_equal. apply list_lookup_insert_ne. unfold ringSlot.
  pose proof (Z.mod_pos_bound n (Z.of_nat (length p)) ltac:(lia)). pose proof (Z.mod_pos_bound m (Z.of_nat (length p)) ltac:(lia)).
  intros E. apply Z2Nat.inj in E; [|lia..].
  assert (Q : (n - m) mod Z.of_nat (length p) = 0) by (rewrite Zminus_mod, E, Z.sub_diag; apply Z.mod_0_l; lia).
  rewrite Z.mod_small in Q by lia. lia.
Qed.
(** [pre] after a sample: the sum to one past it, and the earlier sums of the last
    turn of the ring. *)
Lemma feedSums_pre sr u y : (0 < length (pre u))%nat ->
  let p := pre (feedSums sr u y) in
  slot p (total u) = (slot (pre u) (total u - 1) + y)%D /\
  forall m, total u - Z.of_nat (length (pre u)) < m < total u -> slot p m = slot (pre u) m.
Proof.
  intros L. cbv zeta.
  assert (E : pre (feedSums sr u y) = ringPut (pre u) (total u) (slot (pre u) (total u - 1) + y)%D).
  { unfold feedSums. cbv zeta. replace (total u - 1 + 1) with (total u) by lia. by destruct (_ <? _). }
  rewrite E. split; [by apply slot_put_same|]. intros m M. apply slot_put_other; [done|lia].
Qed.
(** The oldest sum the searches may read is right for the high-passed ones, which
    end [hpM] before the others; of the others it lets through the places that the
    newest have been written over. *)
Lemma prefixLo_raw sr u : (0 < length (pre u))%nat -> start u + hpM sr < total u - hpM sr - mask u -> 3 <= hpM sr ->
  prefixLo sr u < total u - mask u /\ ringSlot (pre u) (prefixLo sr u) = ringSlot (pre u) (total u - hpM sr + 2) /\
  total u - hpM sr + 2 <= total u.
Proof.
  intros Le S M. unfold prefixLo, mask in *. rewrite Z.max_r by lia. split; [lia|]. split; [|lia].
  unfold ringSlot. f_equal. replace (total u - hpM sr - (Z.of_nat (length (pre u)) - 1) + 1)
    with (total u - hpM sr + 2 + (-1) * Z.of_nat (length (pre u))) by lia.
  apply Z.mod_add. lia.
Qed.

(** ** Lemmas: a lock held through a fade *)

(** It is judged on the weak stretch alone: what came before the last thirty
    seconds, or the last measured one, has no part in it. *)
Lemma pmHoldEvidence_weak before before' weak miss :
  Z.min miss kPmHoldWindow <= Z.of_nat (length weak) ->
  pmHoldEvidence (before ++ weak) miss = pmHoldEvidence (before' ++ weak) miss.
Proof.
  intros L. unfold pmHoldEvidence. cbv zeta.
  assert (E : forall b : list PmEv, drop (length (b ++ weak) - Nat.min (length (b ++ weak)) (Z.to_nat (Z.min miss kPmHoldWindow))) (b ++ weak)
    = keep_last (Z.to_nat (Z.min miss kPmHoldWindow)) weak).
  { intros b. unfold keep_last. rewrite length_app, drop_app_ge by lia. f_equal. lia. }
  by rewrite !E.
Qed.
(** Nor can nine seconds hold it. *)
Lemma pmHoldEvidence_few evs miss : miss < kPmMissLimit -> pmHoldEvidence evs miss = false.
Proof.
  intros M. unfold pmHoldEvidence. cbv zeta. set (l := drop _ evs).
  assert (L : (length l <= 9)%nat) by (unfold l; rewrite length_drop; unfold kPmMissLimit, kPmHoldWindow in *; lia).
  clearbody l. match goal with |- context [fold_left ?g l _] => set (f := g) end.
  assert (B : forall l n z2 nk se, let '(n', _, nk', _) := fold_left f l (n, z2, nk, se) in
    n' <= n + Z.of_nat (length l) /\ nk' <= nk + Z.of_nat (length l)).
  { clear. induction l as [|e l IH]; intros n z2 nk se; [cbn; lia|]. cbn [fold_left length]. unfold f at 2.
    destruct (ev_e e) as [v|].
    - specialize (IH (n + 1) (z2 + ev_z2 e)%D (nk + 1) (se + v)%D). destruct (fold_left f l _) as [[[? ?] ?] ?]. lia.
    - specialize (IH (n + 1) (z2 + ev_z2 e)%D nk se). destruct (fold_left f l _) as [[[? ?] ?] ?]. lia. }
  specialize (B l 0 0%D 0 0%D). destruct (fold_left f l _) as [[[n z2] nk] se]. unfold kPmMissLimit in *.
  destruct (Z.leb_spec 10 nk); [lia|]. destruct (Z.leb_spec 10 n); [lia|]. done.
Qed.

(** ** Lemmas: the search aided by AM *)

(** The slopes of a sum that spans no more than ninety seconds are few: the fuel
    is more than enough. *)
Lemma slopes_few maxSlope span : maxSlope = kAidMaxSlope \/ maxSlope = kAidKnownSlope -> 0 <= span <= kAidSpanSeconds ->
  (length (slopes maxSlope span) <= 100)%nat.
Proof.
  intros M S. assert (A : forallb (fun m => forallb (fun k => (length (slopes m (Z.of_nat k)) <=? 100)%nat) (seq 0 91))
    [kAidMaxSlope; kAidKnownSlope] = true) by (vm_compute; reflexivity).
  rewrite forallb_forall in A. specialize (A maxSlope ltac:(destruct M as [-> | ->]; [by left|by right; left])). rewrite forallb_forall in A.
  unfold kAidSpanSeconds in S. specialize (A (Z.to_nat span)). rewrite in_seq, Z2Nat.id, Nat.leb_le in A by lia. apply A. lia.
Qed.

(** ** Lemmas: the correlation regrouped *)

(** The correlation of the chips with a running sum, as the searches read it and
    chip by chip. *)
Definition regrouped (P : Z -> Z) : Z := sumZ (map (fun '(k, w) => w * P k) coeffs).
Definition chipByChip (P : Z -> Z) : Z :=
  sumZ (map (fun k => chip k * (P (Z.of_nat k + 1) - P (Z.of_nat k))) (seq 0 512)).

Lemma sumZ_nonzero (P : Z -> Z) l :
  sumZ (map (fun '(k, w) => w * P k) (List.filter (fun '(_, w) => negb (w =? 0)) l)) =
  sumZ (map (fun '(k, w) => w * P k) l).
Proof.
  unfold sumZ. induction l as [|[k w] l IH]; [done|]. cbn [List.filter map foldr].
  destruct (Z.eqb_spec w 0) as [->|]; cbn [negb map foldr]; rewrite IH; lia.
Qed.
(** Summation by parts. *)
Lemma sum_by_parts (c : nat -> Z) (P : Z -> Z) n :
  sumZ (map (fun k => c k * (P (Z.of_nat k + 1) - P (Z.of_nat k))) (seq 0 (S n))) =
  - c 0%nat * P 0 + sumZ (map (fun k => (c (k - 1)%nat - c k) * P (Z.of_nat k)) (seq 1 n)) + c n * P (Z.of_nat n + 1).
Proof.
  induction n as [|n IH]; [cbn [seq map sumZ foldr]; unfold sumZ; cbn [foldr]; change (Z.of_nat 0) with 0; ring|]. rewrite (seq_S (S n) 0), map_app, sumZ_app, IH, seq_S, map_app, sumZ_app.
  cbn [map sumZ foldr]. replace (1 + n - 1)%nat with n by lia. cbn [Nat.add].
  unfold sumZ. cbn [foldr]. replace (Z.of_nat (S n)) with (Z.of_nat n + 1) by lia. ring.
Qed.
Lemma regrouped_eq P : regrouped P = chipByChip P.
Proof.
  unfold regrouped, chipByChip. rewrite (sum_by_parts chip P 511). unfold coeffs. rewrite sumZ_nonzero.
  cbn [map]. unfold sumZ at 1. cbn [foldr]. fold (sumZ (map (λ '(k, w), w * P k) (map (λ k : nat, (Z.of_nat k, chip (k - 1) - chip k)) (seq 1 511) ++ [(512, chip 511)]))).
  rewrite map_app, sumZ_app, map_map. cbn [map sumZ foldr]. unfold kChips.
  change (Z.of_nat 511 + 1) with 512. lia.
Qed.

Lemma chipByChip_affine P a b : chipByChip (fun k => P k + a + b * k) = chipByChip P + b * sumZ (map chip (seq 0 512)).
Proof.
  unfold chipByChip. generalize (seq 0 512). intros l. unfold sumZ. induction l as [|k l IH]; cbn [map foldr]; [lia|]. rewrite IH. lia.
Qed.
Lemma chips_sum : sumZ (map chip (seq 0 512)) = 0.
Proof. vm_compute. reflexivity. Qed.

(** ** Properties *)

(** C19: the correlation costs a read for each change of chip and loses nothing.
    For any running sum, the weights the searches read it with give the sum of its
    increments over the 512 chips, each signed by its chip; and a constant added to
    every increment, such as the phase by which the reference lags a frequency
    offset, adds nothing. *)
Theorem chips_correlated (P : Z -> Z) :
  regrouped P = chipByChip P /\ (length coeffs <= 257)%nat /\
  forall a b, regrouped (fun k => P k + a + b * k) = regrouped P.
Proof.
  split; [apply regrouped_eq|]. split; [vm_compute; lia|]. intros a b.
  rewrite !regrouped_eq, chipByChip_affine, chips_sum. lia.
Qed.

Example chips_begin : map (fun c => if c =? 1 then 0 else 1) (take 21 chips) = [0;0;0;0;0;1;0;0;0;1;1;0;0;0;0;1;0;0;1;1;1].
Proof. vm_compute. reflexivity. Qed.
Example chips_balance : (fold_left Z.add chips 0, length chips, length coeffs) = (0, 512%nat, 257%nat).
Proof. vm_compute. reflexivity. Qed.
