(* ===== verification/Dcf77Signal.v ===== *)
(** * The DCF77 signal chain (src/clock/Dcf77Decoder.cpp)
    Samples to seconds: the carrier, its envelope and the cuts in it, its phase and
    the chips on it (Dcf77Pm), and once per second both measured, the edge taken
    from one of them and the second classified; the seconds, and what PM locks on,
    go to Dcf77. A sample and a second are separate steps, as in [pushEnvelope]'s
    last line. Every read of the envelope is checked. Of the pictures of a second
    given to the status page only the reads that can fail are here. *)

From Stdlib Require Import ZArith Lia List Bool Floats.
From stdpp Require Import base list sorting.
From S2P Require Import Prelude Doubles Rounding ClockTypes TimeFrameVoter Signals EnvelopeRing Dcf77Pm Dcf77.

#[local] Open Scope Z_scope.

(** ** Constants *)

Definition kMinContrast : double := 2%D.
Definition kRefHz : double := 1%D.
Definition kDcHz : double := 0.1%D.
Definition kFreqGain : double := 0.2%D.
Definition kPmFullConfSnr : double := 12%D.
Definition kResegTolSec : double := 0.030%D.

(** ** Data *)

Record Mixed := MkMixed {
  lpI : Biquad; lpQ : Biquad; lpfDelay : double; magAccum : double; magCount : Z
}.
(** The carrier's own recent phase. *)
Record Ref := MkRef {
  refRe : double; refIm : double; yDc : double; freqCount : Z; freqPrevRe : double; freqPrevIm : double
}.
Record Segment := MkSeg { segValid : bool; segEdge : double; scanPos : Z }.
(** For the diagnostics: [amMinusPm] is [None] until there is one. *)
Record Shown := MkShown { amMinusPm : option double; timingFromPm : bool }.
(** [total] of [sums] is [samplesConsumed], and [start] is [steadyStart]; [base] is
    [envBaseSample]. [aidPending] is the burst of the second waiting, and the sign
    of the bit it should carry. [tail] is what Dcf77 keeps. *)
Record Sig := MkSig {
  searching : bool; search : Search; live : Live; osc : Osc; mixed : Mixed; ref : Ref; sums : Sums;
  base : Z; envl : Envelope; lowFrac : double; pm : PmState; aidPending : option (double * double);
  seg : Segment; amTrk : Tracker; shown : Shown; tail : Impl
}.
Definition withSearch (s : Sig) (g : Search) : Sig :=
  MkSig (searching s) g (live s) (osc s) (mixed s) (ref s) (sums s) (base s) (envl s) (lowFrac s) (pm s) (aidPending s)
    (seg s) (amTrk s) (shown s) (tail s).
Definition withEnv (s : Sig) (e : Envelope) : Sig :=
  MkSig (searching s) (search s) (live s) (osc s) (mixed s) (ref s) (sums s) (base s) e (lowFrac s) (pm s) (aidPending s)
    (seg s) (amTrk s) (shown s) (tail s).
Definition withPm (s : Sig) (m : PmState) : Sig :=
  MkSig (searching s) (search s) (live s) (osc s) (mixed s) (ref s) (sums s) (base s) (envl s) (lowFrac s) m (aidPending s)
    (seg s) (amTrk s) (shown s) (tail s).
Definition withPending (s : Sig) (p : option (double * double)) : Sig :=
  MkSig (searching s) (search s) (live s) (osc s) (mixed s) (ref s) (sums s) (base s) (envl s) (lowFrac s) (pm s) p
    (seg s) (amTrk s) (shown s) (tail s).
Definition withSeg (s : Sig) (g : Segment) (am : Tracker) : Sig :=
  MkSig (searching s) (search s) (live s) (osc s) (mixed s) (ref s) (sums s) (base s) (envl s) (lowFrac s) (pm s) (aidPending s)
    g am (shown s) (tail s).
Definition withTail (s : Sig) (w : Impl) : Sig :=
  MkSig (searching s) (search s) (live s) (osc s) (mixed s) (ref s) (sums s) (base s) (envl s) (lowFrac s) (pm s) (aidPending s)
    (seg s) (amTrk s) (shown s) w.

Definition isSome {A} (o : option A) : bool := match o with Some _ => true | None => false end.

(** ** The envelope, as DCF77 has it *)

Definition percentiles : Envelope -> option Envelope := updatePercentiles 0.05%D.
Definition haveContrast : Envelope -> bool := contrastOver kMinContrast 1e-9%D.
Definition dropSample : Envelope -> Z -> Z -> double -> Z -> option double := edgeSampleAt 5 1e-12%D.

(** *** The AM symbol *)

Definition meanOf (w : list double) (a b : nat) : double :=
  (Signals.total (take (b - a + 1) (drop a w)) / d_of_Z (Z.of_nat (b - a + 1)))%D.
(** The hypotheses for how far the first two tenths are cut: 0.1 s, 0.2 s, not. *)
Definition hypotheses : list (double * double) := [(1, 0); (1, 1); (0, 0)]%D.
(** The first index of the least, among those not [except]. *)
Definition leastBut (except : option nat) (ds : list double) : nat :=
  default 0%nat (fold_left (fun b h =>
    if bool_decide (Some h = except) then b
    else match b with
         | None => Some h
         | Some b0 => if (nth h ds 0 <? nth b0 ds 0)%D then Some h else b
         end) (seq 0 (length ds)) None).

Section Chain.
(** [fNominal] is the carrier's offset the decoder is made with. *)
Context `{Libm} `{Pow} (cfg : Config) (sr decim : Z) (fNominal : double).

Definition envPos (s : Sig) (sample : double) : double :=
  ((sample - d_of_Z (base s) + lpfDelay (mixed s)) / d_of_Z decim)%D.

(** The symbol of the second whose envelope this is, its confidence, and the depth
    of the cut as learnt. *)
Definition symbolOf (w : list double) (low : double) (mustCut : bool) : ClockSymbol * double * double :=
  let h := meanOf w 30 94 in
  if negb (h >? 0)%D then (SymUnknown, 0%D, low)
  else
    let var := fold_left (fun a v => a + (v - h) * (v - h))%D (take 65 (drop 30 w)) 0%D in
    let sBlock := PrimFloat.sqrt (var / 64)%D in
    let d1 := meanOf w 2 8 in
    let d2 := meanOf w 12 18 in
    let depth := dmax 0.1 (1 - low)%D in
    let x1 := ((1 - d1 / h) / depth)%D in
    let x2 := ((1 - d2 / h) / depth)%D in
    let sx := dmax 1e-4 (sBlock / PrimFloat.sqrt 7 / (h * depth))%D in
    let ds := map (fun '(m1, m2) => (x1 - m1) * (x1 - m1) + (x2 - m2) * (x2 - m2))%D hypotheses in
    let best := leastBut None ds in
    let run := leastBut (Some best) ds in
    let '(b1, b2) := nth best hypotheses (0, 0)%D in
    let '(r1, r2) := nth run hypotheses (0, 0)%D in
    let sep := lm_hypot (b1 - r1)%D (b2 - r2)%D in
    let conf := confOf ((nth run ds 0 - nth best ds 0) / (2 * sep * sx))%D in
    (match best with 0%nat => SymZero | 1%nat => SymOne | _ => SymMarker end, conf,
     if mustCut || (negb (best =? 2)%nat && (0.5 <=? conf)%D)
     then (low + (if mustCut then 0.02 else 0.05) * (dclamp (d1 / h) 0 0.9 - low))%D else low).
(** A second that began before the envelope did is read out of the ring; one that
    has gone from it, or has no contrast, only for its picture. *)
Definition classifyAm (s : Sig) (edge : double) (mustCut : bool) : option (ClockSymbol * double * double) :=
  let e := envl s in
  let j0 := dllround (envPos s edge) in
  if j0 <? 0 then None
  else if (j0 <? envCount e - kEnvCap + 1) || negb (haveContrast e) then Some (SymUnknown, 0%D, lowFrac s)
  else w ← envRange e j0 (Z.to_nat kEnvRateHz); Some (symbolOf w (lowFrac s) mustCut).

(** ** Where the seconds are *)

Definition trySeedAm (s : Sig) : option Sig :=
  let e := envl s in
  let g := seg s in
  if (envCount e <? kWarmEnv) || negb (haveContrast e) then Some s
  else
    '(found, scan) ← scanFrom (isFallingEdge e) (scanStart e (scanPos g)) (scanLength e (scanPos g)) (scanPos g);
    match found with
    | Some i => x ← dropSample e (base s) decim (lpfDelay (mixed s)) i;
                Some (withTail (withSeg s (MkSeg true x scan) (amTrk s)) (withHist (tail s) []))
    | None => Some (withSeg s (MkSeg (segValid g) (segEdge g) scan) (amTrk s))
    end.

Definition findFallingEdgeNear (s : Sig) (pred tol : Z) : option (option double) :=
  let e := envl s in
  if negb (haveContrast e) then Some None
  else
    best ← edgeNear (isFallingEdge e) e pred tol;
    match best with
    | None => Some None
    | Some i => x ← dropSample e (base s) decim (lpfDelay (mixed s)) i; Some (Some x)
    end.

Definition periodOf (m : PmState) (am : Tracker) : double :=
  if pmLocked m && t_valid (pmTrk m) then t_period (pmTrk m)
  else if t_valid am then t_period am else d_of_Z sr.

(** *** A PM lock at [tau]
    It starts the seconds when there are none, is refused when it puts them
    elsewhere than AM, which is decoding, and wins otherwise. [lock] is what it is
    to the decoder of seconds. *)
Definition lockPm (s : Sig) (tau P : double) (lock : bool -> bool -> Input) : Sig :=
  let m := lockedAfresh (pm s) in
  let pmEdge := (tau - kPmStartSec * P)%D in
  let g := seg s in
  let cand := (pmEdge + P * dround ((segEdge g - pmEdge) / P))%D in
  let far := (dabs (cand - segEdge g) >? kResegTolSec * d_of_Z sr)%D in
  let s := withPending s None in
  let s' := withTail s (input cfg sr (tail s) (lock (segValid g) far)) in
  if negb (segValid g) then withPm (withSeg s' (MkSeg true pmEdge (scanPos g)) (trkReset (amTrk s))) m
  else if far && amDecoding (tail s) then withPm s' (unlocked m)
  else withPm (withSeg s' (MkSeg true cand (scanPos g)) (if far then trkReset (amTrk s) else amTrk s)) m.

Definition pmAcquireStep (s : Sig) : Sig :=
  if pmLocked (pm s) then s
  else
    let P := periodOf (pm s) (amTrk s) in
    let '(m, found) := pmSearch sr (sums s) (pm s) P in
    let s := withPm s m in
    match found with Some tau => lockPm s tau P PmLock | None => s end.

(** The second that waited, in the search that AM aids. *)
Definition aidStep (s : Sig) (burst sign : double) : Sig :=
  let '(m, found) := aidedAcquire sr (sums s) (pm s) (polarity (carry (tail s))) burst sign in
  let s := withPm s m in
  match found with
  | None => s
  | Some l =>
      let s := lockPm s (al_tau l) (al_P l) (fun segmented far => Aided segmented (al_sign l) far) in
      if pmLocked (pm s) then withPm s (aidedTracker (pm s) l) else s
  end.

(** ** Once per second *)

Definition canProcessSecond (s : Sig) : bool :=
  let edge := segEdge (seg s) in
  let j0 := d2ll (dfloor (envPos s edge)) in
  let P := periodOf (pm s) (amTrk s) in
  let tc := (kChipSec * P)%D in
  let burstEnd := (edge + kPmStartSec * P + d_of_Z kChips * tc + 3 * tc + 4)%D in
  (j0 + kEnvRateHz + kEdgeTol + kEdgeLook <=? envCount (envl s)) && (burstEnd <=? d_of_Z (prefixHi sr (sums s)))%D.
(** It is asked after each value of the envelope, when there are no samples towards
    the next. *)
Definition secondDue (s : Sig) : bool :=
  negb (searching s) && (magCount (mixed s) =? 0) && segValid (seg s) && canProcessSecond s.

(** The second as the decoder is about to count it: -1 when it does not know. *)
Definition sofHere (w : Impl) : Z := if anchored (count w) then sofNext (count w) else -1.

(** How the second was timed: AM's edge, PM's read, both trackers after them, and
    the edge taken, from PM or not. *)
Record Timed := MkTimed {
  h_amEdge : option double; h_read : Read; h_pm : PmState; h_am : Tracker; h_fromPm : bool; h_edge : double
}.
Definition timeSecond (s : Sig) : option Timed :=
  let P := periodOf (pm s) (amTrk s) in
  let pred := segEdge (seg s) in
  let w := tail s in
  amEdge ← findFallingEdgeNear s (dllround (envPos s pred)) kEdgeTol;
  let '(m, r) := pmSecond sr (sums s) (pm s) (polarity (carry w)) (predictedPmBit w (sofHere w)) pred P in
  let am := update (amTrk s) (isSome amEdge) (default 0%D amEdge)
              (if t_valid (amTrk s) then t_period (amTrk s) else d_of_Z sr) (d_of_Z decim) in
  let fromPm := pmLocked m && t_valid (pmTrk m) in
  Some (MkTimed amEdge r m am fromPm
    (if fromPm then t_edge (pmTrk m) else if t_valid am then t_edge am else pred)).

(** And what it says: the record, what goes with it, and the depth of the cut. *)
Record Heard := MkHeard { h_timed : Timed; h_rec : SecRec; h_seen : Seen; h_low : double }.
Definition hearSecond (s : Sig) (t : Timed) : option Heard :=
  let sof := sofHere (tail s) in
  let r := h_read t in
  let amMeas := isSome (h_amEdge t) in
  '(sym, conf, low) ← classifyAm s (h_edge t) ((0 <=? sof) && (sof <? 59));
  let read := pmLocked (pm s) && (r_snr r >? 0)%D in
  Some (MkHeard t
    (MkSec (dllround (h_edge t)) (h_edge t) sym conf (if read then if (0 <=? r_c r)%D then 1 else -1 else 0)
       (if read then fround (dclamp (r_snr r / kPmFullConfSnr) 0 1)%D else 0%D))
    (MkSeen (if h_fromPm t then r_meas r else amMeas) (amMeas || r_meas r) (h_fromPm t) (haveContrast (envl s))
       (periodOf (h_pm t) (h_am t)))
    low).

(** The decoder once the second is handled, before it gives up on the air. *)
Definition handled (s : Sig) (h : Heard) : Impl :=
  handleSecond cfg sr (noteSecond (tail s) (h_rec h) (h_seen h)) (h_rec h) (h_seen h).
Definition lostAt (s : Sig) (h : Heard) : bool := kMaxBlindSeconds <=? blindSeconds (handled s h).
Definition noteOffset (s : Sig) (t : Timed) : Shown :=
  let P := periodOf (pm s) (amTrk s) in
  MkShown
    match h_amEdge t with
    | Some amEdge =>
        if r_meas (h_read t) then
          let d := ((amEdge - (r_tau (h_read t) - kPmStartSec * P)) * 1000 / d_of_Z sr)%D in
          Some match amMinusPm (shown s) with Some a => (a + 0.05 * (d - a))%D | None => d end
        else amMinusPm (shown s)
    | None => amMinusPm (shown s)
    end (h_fromPm t).
(** The second handed on, and where the next is. *)
Definition takeSecond (s : Sig) (h : Heard) : Sig :=
  let t := h_timed h in
  let am := h_am t in
  let m := h_pm t in
  let next := if h_fromPm t then (t_edge (pmTrk m) + t_period (pmTrk m))%D
              else if t_valid am then (t_edge am + t_period am)%D else (h_edge t + d_of_Z sr)%D in
  let g := seg s in
  let lost := lostAt s h in
  MkSig (searching s) (search s) (live s) (osc s) (mixed s) (ref s) (sums s) (base s) (envl s) (h_low h) m (aidPending s)
    (if lost then MkSeg false next 0 else MkSeg (segValid g) next (scanPos g)) (if lost then trkReset am else am)
    (noteOffset s t) (processSecond cfg sr (tail s) (h_rec h) (h_seen h)).
(** The aided search gets the second that waited, and this one waits. *)
Definition aidSecond (s : Sig) (t : Timed) (P : double) (sof : Z) : Sig :=
  let s := match aidPending s with
           | Some (burst, sign) => if pmLocked (pm s) then s else aidStep s burst sign
           | None => s
           end in
  let s := withPending s None in
  if pmLocked (pm s) || negb (segValid (seg s))
  then withPm s (withAids (pm s) (MkAids [] (aidE0 (aids (pm s))) (aidP0 (aids (pm s)))))
  else if negb (h_fromPm t) && t_valid (amTrk s) && (0 <=? sof) then
    match predictedPmBit (tail s) sof with
    | Some bit => withPending s (Some (h_edge t + kPmStartSec * P, if (bit =? 0)%Z then 1 else -1)%D)
    | None => s
    end
  else s.
Definition readSecond (s : Sig) (t : Timed) : option Sig :=
  h ← hearSecond s t;
  Some (aidSecond (takeSecond s h) t (periodOf (pm s) (amTrk s)) (sofHere (tail s))).
Definition nextSecond (s : Sig) : option Sig := t ← timeSecond s; readSecond s t.

(** ** Sample by sample *)

Definition startSteady (s : Sig) (f : double) : Sig :=
  let o := tuned sr fNominal (osc s) f in
  let lp := lowpass (d_of_Z sr) kLpfCutHz in
  let x := mixed s in
  let u := sums s in
  let m := pm s in
  MkSig false (search s) (live s) (MkOsc (f0 o) 1 0 (stepRe o) (stepIm o) 0)
    (MkMixed lp lp (groupDelay lp) (magAccum x) (magCount x)) (ref s)
    (MkSums (ringPut (pre u) (total u) 0%D) (preH u) (total u) (total u)) (total u) (envl s) (lowFrac s)
    (withAcq m (acq m) (total u) (lastPmSnr m)) (aidPending s) (seg s) (amTrk s) (shown s)
    (setLockState (tail s) LockAcquiring).
Definition feedAcquisition (s : Sig) (xr xi : double) : Sig :=
  let '(g, found) := searchStep sr fNominal (search s) xr xi in
  let s := withSearch s g in
  match found with Some f => startSteady s f | None => s end.

(** A value into the envelope, the first second looked for, and the PM search. *)
Definition pushEnvelope (s : Sig) (v : double) : option Sig :=
  e ← percentiles (pushed (envl s) v);
  let s := withEnv s e in
  s ← (if segValid (seg s) then Some s else trySeedAm s);
  Some (pmAcquireStep s).

(** The sample's phase against the carrier's own. *)
Definition aRef : double := (1 - lm_exp (- (2) * kPi * kRefHz / d_of_Z sr))%D.
Definition aDc : double := (1 - lm_exp (- (2) * kPi * kDcHz / d_of_Z sr))%D.
Definition refStep (r : Ref) (zr zi : double) : Ref * double :=
  let re := (refRe r + aRef * (zr - refRe r))%D in
  let im := (refIm r + aRef * (zi - refIm r))%D in
  let rp := (re * re + im * im)%D in
  let y := if (rp >? 1e-30)%D then ((zi * re - zr * im) / PrimFloat.sqrt rp)%D else 0%D in
  let dc := (yDc r + aDc * (y - yDc r))%D in
  (MkRef re im dc (freqCount r) (freqPrevRe r) (freqPrevIm r), (y - dc)%D).
(** Once a second the mixer follows the reference's turning. *)
Definition followCarrier (r : Ref) (o : Osc) : Ref * Osc :=
  let n := freqCount r + 1 in
  if n <? sr then (MkRef (refRe r) (refIm r) (yDc r) n (freqPrevRe r) (freqPrevIm r), o)
  else
    (MkRef (refRe r) (refIm r) (yDc r) 0 (refRe r) (refIm r),
     if negb (freqPrevRe r =? 0)%D || negb (freqPrevIm r =? 0)%D then
       let cr := (refRe r * freqPrevRe r + refIm r * freqPrevIm r)%D in
       let ci := (refIm r * freqPrevRe r - refRe r * freqPrevIm r)%D in
       tuned sr fNominal o (f0 o + kFreqGain * lm_atan2 ci cr / (2 * kPi))%D
     else o).

Definition feedSteady (s : Sig) (xr xi : double) : option Sig :=
  let '(o, (zr, zi)) := mixDown (osc s) xr xi in
  let '(lv, db) := liveToneStep sr (live s) (snr (search s)) zr zi in
  let '(r, y) := refStep (ref s) zr zi in
  let u := feedSums sr (sums s) y in
  let '(r, o) := followCarrier r o in
  let x := mixed s in
  let '(qi, i) := bqProcess (lpI x) zr in
  let '(qq, q) := bqProcess (lpQ x) zi in
  let acc := (magAccum x + PrimFloat.sqrt (i * i + q * q))%D in
  let n := magCount x + 1 in
  let full := decim <=? n in
  let g := search s in
  let s := MkSig false (MkSearch (bins g) (acqCount g) db) lv o
             (MkMixed qi qq (lpfDelay x) (if full then 0%D else acc) (if full then 0 else n)) r u (base s) (envl s)
             (lowFrac s) (pm s) (aidPending s) (seg s) (amTrk s) (shown s) (tail s) in
  if full then pushEnvelope s (fround (acc / d_of_Z n)%D) else Some s.

Definition counted (s : Sig) : Sig :=
  let u := sums s in
  MkSig (searching s) (search s) (live s) (osc s) (mixed s) (ref s) (MkSums (pre u) (preH u) (start u) (total u + 1))
    (base s) (envl s) (lowFrac s) (pm s) (aidPending s) (seg s) (amTrk s) (shown s) (tail s).
Definition feed (s : Sig) (xr xi : double) : option Sig :=
  let s := counted s in if searching s then Some (feedAcquisition s xr xi) else feedSteady s xr xi.

(** ** Construction and reset *)

Definition fresh : Impl := MkImpl LockNoSignal [] (emptyCount 0) noVote noCarry [] 0 [].
Definition construct : Sig :=
  let ring := replicate (ringSize sr) 0%D in
  MkSig true (newSearch sr fNominal) (newLive sr) (newOsc fNominal) (MkMixed passThrough passThrough 0 0 0)
    (MkRef 0 0 0 0 0 0) (MkSums ring ring 0 0) 0 noEnvelope 0.15%D noPm None (MkSeg false 0 0) newTracker
    (MkShown None false) fresh.
(** [reset] leaves the voter's plausibility as it is. *)
Definition resetTail (w : Impl) : Impl :=
  let w := withHist (withBlind (dropAnchor w) 0) [] in
  setLockState (withCarry w noCarry) LockNoSignal.
Definition reset (s : Sig) : Sig :=
  let g := search s in
  let o := osc s in
  let x := mixed s in
  let u := sums s in
  MkSig true (MkSearch (map binReset (bins g)) 0 0) (MkLive (map binReset (liveBins (live s))) 0)
    (MkOsc fNominal 1 0 (stepRe o) (stepIm o) 0) (MkMixed (bqReset (lpI x)) (bqReset (lpQ x)) (lpfDelay x) 0 0)
    (MkRef 0 0 0 0 0 0) (MkSums (map (fun _ => 0%D) (pre u)) (map (fun _ => 0%D) (preH u)) 0 0) 0 noEnvelope 0.15%D
    (pmReset (pm s)) None (MkSeg false 0 0) (trkReset (amTrk s)) (MkShown None false) (resetTail (tail s)).

(** ** What the decoder does with its samples: one at a time, each followed by the
    seconds it makes due. *)
Inductive reach : Sig -> list (double * double) -> Prop :=
  | reach_start : reach construct []
  | reach_sample s s' xs xr xi : reach s xs -> secondDue s = false -> feed s xr xi = Some s' -> reach s' (xs ++ [(xr, xi)])
  | reach_second s s' xs : reach s xs -> secondDue s = true -> nextSecond s = Some s' -> reach s' xs.

End Chain.

(** ** Lemmas: the reads the code guards *)

Section Reads.
Context `{Libm} `{Pow} (cfg : Config) (sr decim : Z).

Lemma dcf_seed_some s : ringOk (envl s) ->
  exists s', trySeedAm decim s = Some s' /\
    (s' = s \/ exists g, s' = withSeg s g (amTrk s) /\ segValid g = segValid (seg s) \/
                         s' = withTail (withSeg s g (amTrk s)) (withHist (tail s) [])).
Proof.
  intros R. unfold trySeedAm. destruct ((envCount (envl s) <? kWarmEnv) || _); [exists s; auto|].
  destruct (scan_cases (envl s) (isFallingEdge (envl s)) (scanPos (seg s))) as [(found & scan & -> & F)|(_ & j & J & E)].
  2: { destruct (fallingEdge_some (envl s) j R J). congruence. }
  cbn [mbind option_bind]. destruct found as [i|].
  - unfold dropSample. destruct (fallAt_some 5 1e-12%D (envl s) (base s) decim (lpfDelay (mixed s)) i R) as [x ->]; [lia|by apply F|].
    eexists. split; [reflexivity|]. right. eexists. by right.
  - eexists. split; [reflexivity|]. right. eexists. by left.
Qed.
Lemma dcf_findEdge_some s pred tol : ringOk (envl s) -> exists r, findFallingEdgeNear decim s pred tol = Some r.
Proof.
  intros R. unfold findFallingEdgeNear. destruct (negb _); [by eexists|].
  destruct (edgeNear_cases (envl s) (isFallingEdge (envl s)) pred tol) as [(b & -> & F)|(_ & j & J & E)].
  2: { destruct (fallingEdge_some (envl s) j R J). congruence. }
  cbn [mbind option_bind]. destruct b as [i|]; [|by eexists]. destruct (F i eq_refl) as [F1 _].
  unfold dropSample. destruct (fallAt_some 5 1e-12%D (envl s) (base s) decim (lpfDelay (mixed s)) i R) as [x ->]; [lia|exact F1|].
  by eexists.
Qed.

Lemma dcf_timeSecond_some s : ringOk (envl s) -> exists t, timeSecond sr decim s = Some t.
Proof.
  intros R. unfold timeSecond. cbv zeta.
  destruct (dcf_findEdge_some s (dllround (envPos decim s (segEdge (seg s)))) kEdgeTol R) as [a ->]. cbn [mbind option_bind].
  destruct (pmSecond _ _ _ _ _ _ _) as [m r]. by eexists.
Qed.

(** The second's window begins before the envelope does, or ends after it. *)
Definition windowMissing (s : Sig) : Prop :=
  exists t, timeSecond sr decim s = Some t /\
    let j0 := dllround (envPos decim s (h_edge t)) in j0 < 0 \/ envCount (envl s) < j0 + kEnvRateHz.
Lemma hear_cases s t : ringOk (envl s) -> timeSecond sr decim s = Some t ->
  (exists h, hearSecond sr decim s t = Some h) \/ windowMissing s.
Proof.
  intros R T. unfold hearSecond, classifyAm, windowMissing. cbv zeta. set (j0 := dllround (envPos decim s (h_edge t))).
  assert (M : j0 < 0 \/ envCount (envl s) < j0 + kEnvRateHz -> windowMissing s) by (intros M; exists t; split; [exact T|exact M]).
  destruct (Z.ltb_spec j0 0) as [N|N]; [right; apply M; auto|].
  destruct (Z.ltb_spec j0 (envCount (envl s) - kEnvCap + 1)) as [G|G]; [left; by eexists|]. cbn [orb].
  destruct (negb _); [left; by eexists|].
  destruct (Z.lt_ge_cases (envCount (envl s)) (j0 + kEnvRateHz)) as [L|L]; [right; apply M; auto|].
  destruct (envRange_some (envl s) (Z.to_nat kEnvRateHz) j0 R) as (w & -> & _); [unfold kEnvRateHz in *; lia..|].
  cbn [mbind option_bind]. left. destruct (symbolOf _ _ _) as [[sym conf] low]. by eexists.
Qed.
End Reads.

(** ** Lemmas: what holds between steps *)

Section Steps.
Context `{Libm} `{Pow} (cfg : Config) (sr decim : Z) (fNominal : double).

(** The decoder as it begins to look for seconds. *)
Definition begun : Impl := setLockState fresh LockAcquiring.
(** The decoder of seconds has run on some inputs; with no second in sight it has
    no history. *)
Definition ranOn (w : Impl) : Prop := exists ins, w = run cfg sr begun ins.
Definition tailOk (s : Sig) : Prop :=
  (segValid (seg s) = false -> hist (tail s) = []) /\
  if searching s then tail s = fresh /\ segValid (seg s) = false else ranOn (tail s).
Definition good (s : Sig) (n : nat) : Prop := total (sums s) = Z.of_nat n /\ ringOk (envl s) /\ tailOk s.

Lemma ranOn_input w i : ranOn w -> ranOn (input cfg sr w i).
Proof. intros [ins ->]. exists (ins ++ [i]). unfold run. by rewrite fold_left_app. Qed.
Lemma dcf_begun_inv : Inv cfg begun.
Proof. unfold begun, fresh. split; [apply dcf_empty_ok|]. split; [done|]. by intros _. Qed.
Lemma ranOn_inv w : ranOn w -> Inv cfg w.
Proof. intros [ins ->]. apply dcf_run_inv, dcf_begun_inv. Qed.

(** Two states with the same samples, envelope and carrier search. *)
Definition alike (s s' : Sig) : Prop :=
  sums s' = sums s /\ envl s' = envl s /\ searching s' = searching s.
Lemma lockPm_steps s tau P lock :
  let s' := lockPm cfg sr s tau P lock in
  alike s s' /\ segValid (seg s') = true /\ exists far, tail s' = input cfg sr (tail s) (lock (segValid (seg s)) far).
Proof.
  cbv zeta. unfold lockPm. cbv zeta. set (far := (dabs _ >? _)%D). destruct (segValid (seg s)) eqn:V; cbn [negb].
  - destruct (far && _) eqn:R.
    + split; [done|]. split; [exact V|]. by exists far.
    + split; [done|]. split; [done|]. by exists far.
  - split; [done|]. split; [done|]. by exists far.
Qed.
Lemma good_locked s n tau P lock : searching s = false -> good s n -> good (lockPm cfg sr s tau P lock) n.
Proof.
  intros Se (C & R & T1 & T2). rewrite Se in T2. destruct (lockPm_steps s tau P lock) as ((E1 & E2 & E3) & V & far & E).
  unfold good, tailOk. rewrite E1, E2, E3, V, Se, E. split; [exact C|]. split; [exact R|]. split; [done|]. by apply ranOn_input.
Qed.
Lemma good_pm s n m : good s n -> good (withPm s m) n.
Proof. done. Qed.

Lemma good_acquire s n : searching s = false -> good s n -> good (pmAcquireStep cfg sr s) n.
Proof.
  intros Se G. unfold pmAcquireStep. destruct (pmLocked (pm s)); [done|]. cbv zeta.
  destruct (pmSearch _ _ _ _) as [m [tau|]]; [|by apply good_pm]. by apply good_locked.
Qed.
Lemma good_aidStep s n burst sign : searching s = false -> good s n -> good (aidStep cfg sr s burst sign) n.
Proof.
  intros Se G. unfold aidStep. destruct (aidedAcquire _ _ _ _ _ _) as [m [l|]]; [|by apply good_pm]. cbv zeta.
  destruct (pmLocked _); [apply good_pm|]; by apply good_locked.
Qed.

Lemma dcf77_construct_good : good (construct sr fNominal) 0.
Proof. split; [done|]. split; [apply noEnvelope_holds|done]. Qed.

Lemma dcf_withHist_same w : hist w = [] -> withHist w [] = w.
Proof. destruct w. cbn. by intros ->. Qed.
Lemma good_seed s n : searching s = false -> segValid (seg s) = false -> good s n ->
  exists s', trySeedAm decim s = Some s' /\ good s' n /\ searching s' = false.
Proof.
  intros Se V G. pose proof G as (C & R & T1 & T2). destruct (dcf_seed_some decim s R) as (s' & -> & D). exists s'.
  split; [done|]. assert (E : withHist (tail s) [] = tail s) by (by apply dcf_withHist_same, T1).
  assert (K : forall g, good (withSeg s g (amTrk s)) n).
  { intros g. split; [exact C|]. split; [exact R|]. split; [intros _; by apply T1|]. cbn. by rewrite Se in *. }
  destruct D as [->|(g & [[-> _]| ->])]; [done|by split|]. rewrite E. by split; [apply (K g)|].
Qed.
Lemma good_push s n v : searching s = false -> good s n ->
  exists s', pushEnvelope cfg sr decim s v = Some s' /\ good s' n.
Proof.
  intros Se (C & R & T). unfold pushEnvelope, percentiles.
  assert (Rp : ringOk (pushed (envl s) v)).
  { destruct R as [R1 R2]. split; [cbn; by rewrite length_insert|cbn; lia]. }
  destruct (percentiles_some 0.05%D (pushed (envl s) v) Rp) as (e & -> & E1 & E2). cbn [mbind option_bind].
  assert (G : good (withEnv s e) n).
  { split; [exact C|]. split; [|exact T]. destruct Rp as [Q1 Q2]. split; cbn [envl withEnv]; by rewrite ?E1, ?E2. }
  destruct (segValid (seg (withEnv s e))) eqn:V.
  - eexists. split; [reflexivity|]. by apply good_acquire.
  - destruct (good_seed (withEnv s e) n Se V G) as (s' & -> & G' & Se'). eexists. split; [reflexivity|]. by apply good_acquire.
Qed.

Lemma dcf_feed_good s n xr xi : good s n -> exists s', feed cfg sr decim fNominal s xr xi = Some s' /\ good s' (S n).
Proof.
  intros (C & R & T1 & T2). unfold feed. cbv zeta. cbn [counted searching]. destruct (searching s) eqn:Se.
  - eexists. split; [reflexivity|]. destruct T2 as [T2 T3]. unfold feedAcquisition. cbn [search counted].
    destruct (searchStep _ _ _ _ _) as [g [f|]].
    + split; [cbn; lia|]. split; [exact R|]. split; [|cbn; exists []; by rewrite T2]. cbn. by rewrite T2.
    + split; [cbn; lia|]. split; [exact R|]. split; [exact T1|]. cbn. rewrite Se. by split.
  - unfold feedSteady. cbn [osc live search mixed ref sums envl lowFrac pm aidPending seg amTrk shown tail counted base].
    destruct (mixDown _ _ _) as [o [zr zi]]. destruct (liveToneStep _ _ _ _ _) as [lv db].
    destruct (refStep _ _ _ _) as [r y]. cbv zeta. destruct (followCarrier _ _ _ _) as [r' o'].
    destruct (bqProcess _ _) as [qi i]. destruct (bqProcess _ _) as [qq q].
    match goal with |- context [if _ then pushEnvelope _ _ _ ?x _ else Some ?x] => set (s1 := x) end.
    assert (G1 : good s1 (S n)).
    { split; [|by split]. change (total (feedSums sr (sums (counted s)) y) = Z.of_nat (S n)).
      rewrite feedSums_total. cbn. lia. }
    assert (S1 : searching s1 = false) by done. clearbody s1.
    destruct (_ <=? _); [by apply good_push|by eexists].
Qed.

Lemma dcf_process_lost w r seen :
  kMaxBlindSeconds <= blindSeconds (handleSecond cfg sr (noteSecond w r seen) r seen) ->
  hist (processSecond cfg sr w r seen) = [].
Proof. intros L. unfold processSecond. cbv zeta. apply Z.leb_le in L. by rewrite L. Qed.

Lemma take_good s n h : searching s = false -> good s n -> segValid (seg s) = true -> good (takeSecond cfg sr s h) n.
Proof.
  intros Se (C & R & T1 & T2) V. rewrite Se in T2. split; [exact C|]. split; [exact R|].
  unfold takeSecond. cbv zeta. split; cbn [seg tail searching].
  - destruct (lostAt cfg sr s h) eqn:L; [|cbn; congruence]. intros _. apply dcf_process_lost. by apply Z.leb_le.
  - rewrite Se. by apply (ranOn_input (tail s) (Second (h_rec h) (h_seen h))).
Qed.
(** The aided search adds no input but a lock. *)
Lemma aidSecond_steps s n t P sof : searching s = false -> good s n ->
  let s' := aidSecond cfg sr s t P sof in
  good s' n /\ (tail s' = tail s \/ exists segmented sign far, tail s' = input cfg sr (tail s) (Aided segmented sign far)).
Proof.
  intros Se G. cbv zeta. unfold aidSecond. cbv zeta.
  set (s1 := match aidPending s with Some _ => _ | None => _ end).
  assert (K : good s1 n /\ (tail s1 = tail s \/ exists segmented sign far, tail s1 = input cfg sr (tail s) (Aided segmented sign far))).
  { unfold s1. destruct (aidPending s) as [[burst sign]|]; [|by split; [|left]].
    destruct (pmLocked (pm s)); [by split; [|left]|]. split; [by apply good_aidStep|].
    unfold aidStep. destruct (aidedAcquire _ _ _ _ _ _) as [m [l|]]; [|by left]. cbv zeta. right.
    destruct (lockPm_steps (withPm s m) (al_tau l) (al_P l) (fun segmented far => Aided segmented (al_sign l) far)) as (_ & _ & far & E).
    exists (segValid (seg s)), (al_sign l), far. by destruct (pmLocked _). }
  clearbody s1. destruct K as [K1 K2]. destruct (_ || _); [by split|]. destruct (_ && _); [|by split].
  by destruct (predictedPmBit _ _).
Qed.

(** A second that is due is taken, or its window is missing. *)
Lemma dcf_second_cases s n : good s n -> secondDue sr decim s = true ->
  (exists t h, timeSecond sr decim s = Some t /\ hearSecond sr decim s t = Some h /\ h_timed h = t /\
    let s' := aidSecond cfg sr (takeSecond cfg sr s h) t (periodOf sr (pm s) (amTrk s)) (sofHere (tail s)) in
    nextSecond cfg sr decim s = Some s' /\ good s' n /\
    (tail s' = tail (takeSecond cfg sr s h) \/
     exists segmented sign far, tail s' = input cfg sr (tail (takeSecond cfg sr s h)) (Aided segmented sign far))) \/
  (nextSecond cfg sr decim s = None /\ windowMissing sr decim s).
Proof.
  intros G D. unfold secondDue in D. rewrite !andb_true_iff, negb_true_iff in D. destruct D as [[[Se _] V] _].
  destruct (dcf_timeSecond_some sr decim s ltac:(apply G)) as [t Et]. unfold nextSecond, readSecond. rewrite Et. cbn [mbind option_bind].
  destruct (hearSecond sr decim s t) as [h|] eqn:Eh.
  - left. exists t, h. split; [done|]. split; [done|].
    assert (Ht : h_timed h = t).
    { unfold hearSecond in Eh. destruct (classifyAm _ _ _ _) as [[[sym conf] low]|]; [|done]. cbn in Eh. by injection Eh as <-. }
    split; [done|]. cbv zeta. cbn [mbind option_bind]. split; [done|].
    apply aidSecond_steps; [done|]. by apply take_good.
  - right. split; [done|]. destruct (hear_cases sr decim s t ltac:(apply G) Et) as [[h ?]|M]; [congruence|exact M].
Qed.

Lemma dcf_reach_good s xs : reach cfg sr decim fNominal s xs -> good s (length xs).
Proof.
  induction 1 as [|s s' xs xr xi _ IH D E|s s' xs _ IH D E].
  - apply dcf77_construct_good.
  - rewrite length_app, Nat.add_1_r. destruct (dcf_feed_good s (length xs) xr xi IH) as (s2 & E2 & G). congruence.
  - destruct (dcf_second_cases s (length xs) IH D) as [(t & h & _ & _ & _ & E2 & G & _)|(E2 & _)]; congruence.
Qed.
End Steps.

Lemma dcf_aided_grows `{Pow} cfg sr w segmented sign far : Inv cfg w -> grows w (input cfg sr w (Aided segmented sign far)).
Proof.
  intros I. cbn. unfold aidedLock. destruct (dcf_pmLock_inv cfg w segmented far I) as [_ G]. cbv zeta.
  destruct (_ && _); [exact G|]. by destruct (polarity _).
Qed.
(** The calls a second adds: its labels are backed by the vote when it is handled. *)
Lemma dcf_second_calls `{Pow} cfg sr s h w' : Inv cfg (tail s) ->
  (w' = tail (takeSecond cfg sr s h) \/
   exists segmented sign far, w' = input cfg sr (tail (takeSecond cfg sr s h)) (Aided segmented sign far)) ->
  exists new, calls w' = (calls (tail s) ++ new)%list /\ Forall (backed cfg (handled cfg sr s h)) new.
Proof.
  intros I A. destruct (dcf_process_inv cfg sr (tail s) (h_rec h) (h_seen h) I) as (I' & new & E & F).
  change (processSecond cfg sr (tail s) (h_rec h) (h_seen h)) with (tail (takeSecond cfg sr s h)) in *.
  destruct A as [->|(segmented & sign & far & ->)]; [by exists new|].
  destruct (dcf_aided_grows cfg sr (tail (takeSecond cfg sr s h)) segmented sign far I') as (more & E' & F').
  exists (new ++ more)%list. split; [by rewrite E', E, app_assoc|]. apply Forall_app. split; [exact F|].
  eapply Forall_impl; [exact F'|]. by intros [].
Qed.

(** ** Properties *)

(** C18: from samples to labels. Whatever samples the decoder is given, at whatever
    rate, and whatever the C++ library's transcendental functions answer, in every
    state reached the next sample is processed, every read of the envelope in its
    ring; and so is a second that is due, unless its window is not the envelope's
    to read. The samples are counted, and every label the second gives, by AM or PM
    and with locks of PM at any time, is for a second 0 to 59 and carries the
    timestamp the voter votes when the second is handled, the voter's own verdict
    being that it is locked. *)
Theorem dcf77_labels_from_samples `{Libm} `{Pow} (cfg : Config) (sr decim : Z) (fNominal : double) (s : Sig)
    (xs : list (double * double)) :
  reach cfg sr decim fNominal s xs ->
  total (sums s) = Z.of_nat (length xs) /\
  (forall xr xi, exists s', feed cfg sr decim fNominal s xr xi = Some s') /\
  (secondDue sr decim s = true ->
     (nextSecond cfg sr decim s = None /\ windowMissing sr decim s) \/
     exists t h s' new, timeSecond sr decim s = Some t /\ hearSecond sr decim s t = Some h /\
       nextSecond cfg sr decim s = Some s' /\ calls (tail s') = (calls (tail s) ++ new)%list /\
       forall ti, In (OnTime ti) new ->
         0 <= ti_second ti < 60 /\ l_locked (lockVerdict cfg (voter (handled cfg sr s h))) = true /\
         ti_fields ti = votedTimestamp cfg (voter (handled cfg sr s h))).
Proof.
  intros Rch. pose proof (dcf_reach_good cfg sr decim fNominal s xs Rch) as G. split; [apply G|]. split.
  - intros xr xi. destruct (dcf_feed_good cfg sr decim fNominal s _ xr xi G) as (s' & E & _). by exists s'.
  - intros D. destruct (dcf_second_cases cfg sr decim s _ G D) as [(t & h & Et & Eh & _ & En & _ & A)|?]; [right|by left].
    assert (I : Inv cfg (tail s)).
    { unfold secondDue in D. rewrite !andb_true_iff, negb_true_iff in D. destruct D as [[[Se _] _] _].
      destruct G as (_ & _ & _ & T). rewrite Se in T. by eapply ranOn_inv. }
    destruct (dcf_second_calls cfg sr s h _ I A) as (new & E & F).
    eexists t, h, _, new. split; [done|]. split; [done|]. split; [exact En|]. split; [exact E|].
    intros ti Hi. rewrite Forall_forall in F. exact (F (OnTime ti) (proj2 (list_elem_of_In _ _) Hi)).
Qed.

(** *** Witnesses *)

(** A second cut for a tenth, for two, and not at all. *)
Example symbols_read :
  let window n := (replicate n 0.15 ++ replicate (100 - n) 1)%list%D in
  map (fun n => fst (symbolOf (H := demoLibm) (window n) 0.15%D false)) [10; 20; 0]%nat =
    [(SymZero, 1%D); (SymOne, 1%D); (SymMarker, 1%D)].
Proof. vm_compute. reflexivity. Qed.
(** A lock with no seconds yet starts them a fifth of a second before the burst. *)
Example lock_starts :
  let s := lockPm (H0 := demoPow) buildVoterConfig 1200 (@construct demoLibm 1200 0) 5240%D 1200%D PmLock in
  (segValid (seg s), segEdge (seg s), pmLocked (pm s)) = (true, 5000%D, true).
Proof. vm_compute. reflexivity. Qed.

Lemma dcf77_labels_from_samples_witness :
  let c := @construct demoLibm 1200 0 in
  reach (H := demoLibm) (H0 := demoPow) buildVoterConfig 1200 12 0%D c [] /\ total (sums c) = 0 /\
  exists s', feed (H := demoLibm) (H0 := demoPow) buildVoterConfig 1200 12 0%D c 1%D 0%D = Some s'.
Proof.
  cbv zeta. destruct (@dcf77_labels_from_samples demoLibm demoPow buildVoterConfig 1200 12 0%D (@construct demoLibm 1200 0) [])
    as (E & F & _); [apply reach_start|].
  split; [apply reach_start|]. split; [exact E|]. apply F.
Defined.
