(* ===== verification/Wwv.v ===== *)
(** * The WWV and WWVH frame (src/clock/WwvDecoder.cpp)
    What the HF decoder makes of its classified seconds: which station it hears
    (the tag), where the minute is (the hole and the markers), a slipped second,
    the frame and its fields, the vote, the lock and the labels. The seconds come
    from WwvSignal; what a label rests on is in WwvLabels. *)

From Stdlib Require Import ZArith Lia List Bool Floats.
From stdpp Require Import base list.
From S2P Require Import Prelude Doubles Rounding ClockTypes CivilTime TimeFrameVoter TimeCode.

#[local] Open Scope Z_scope.

(** ** Constants *)

Definition kFrameSecs : Z := 60.
Definition kRecCap : nat := 720.
Definition kStructConf : double := fround 0.1.
Definition isMarkerSec (s : Z) : bool := cmod s 10 =? 9.

Definition kStationExcessRatio : double := 1.5%D.
Definition kStationHoldRatio : double := 1.2%D.
Definition kStationWarmSecs : Z := 20.
Definition kStationConfirmSecs : Z := 10.
Definition kStationSwitchSecs : Z := 30.
Definition kStationReleaseSecs : Z := 120.

(** ** The station tag
    Judged once a second from the two tick bands' excesses: the tag, the verdict
    waiting to be confirmed, and how long the tag has gone contradicted and
    unsupported. *)

Module Tag.
Record Tag := MkTag {
  station : ClockStation; pinned : bool; pending : ClockStation; pendingCount : Z;
  contrary : Z; unsupported : Z
}.
Definition untagged : Tag := MkTag StUnknown false StUnknown 0 0 0.

Definition verdict (eV eH : double) : ClockStation :=
  if (kStationExcessRatio * eH <=? eV)%D && (0 <? eV)%D then StWwv
  else if (kStationExcessRatio * eV <=? eH)%D && (0 <? eH)%D then StWwvh
  else StUnknown.
Definition supports (st : ClockStation) (eV eH : double) : bool :=
  (bool_decide (st = StWwv) && (0 <? eV)%D && (kStationHoldRatio * eH <=? eV)%D) ||
  (bool_decide (st = StWwvh) && (0 <? eH)%D && (kStationHoldRatio * eV <=? eH)%D).

(** A second's judgement; [age] is the fold's, in seconds past the tick's lock. *)
Definition judgeSecond (t : Tag) (young : bool) (eV eH : double) : Tag :=
  let v := verdict eV eH in
  let known := negb (bool_decide (v = StUnknown)) in
  if pinned t || young then t
  else if bool_decide (station t = StUnknown) then
    if known && bool_decide (v = pending t) then
      let n := pendingCount t + 1 in
      if kStationConfirmSecs <=? n then MkTag v (pinned t) (pending t) 0 0 0
      else MkTag (station t) (pinned t) (pending t) n (contrary t) (unsupported t)
    else MkTag (station t) (pinned t) v (if known then 1 else 0) (contrary t) (unsupported t)
  else if supports (station t) eV eH then
    MkTag (station t) (pinned t) (pending t) (pendingCount t) 0 0
  else
    let u := unsupported t + 1 in
    let c := if known then contrary t + 1 else 0 in
    if kStationSwitchSecs <=? c then MkTag v (pinned t) (pending t) (pendingCount t) 0 0
    else if kStationReleaseSecs <=? u then MkTag StUnknown (pinned t) StUnknown 0 0 0
    else MkTag (station t) (pinned t) (pending t) (pendingCount t) c u.

Definition presetStation (t : Tag) (s : ClockStation) : Tag :=
  if pinned t || negb (bool_decide (s = StWwv) || bool_decide (s = StWwvh)) then t
  else MkTag s (pinned t) StUnknown 0 0 0.
Definition pinStation (t : Tag) (s : ClockStation) : Tag := MkTag s true StUnknown 0 0 0.
(** [reset()]: only a pinned tag survives. *)
Definition reset (t : Tag) : Tag :=
  MkTag (if pinned t then station t else StUnknown) (pinned t) StUnknown 0 0 0.
End Tag.

(** ** Data *)

(** A classified second. [energy] is the mean of its subcarrier, a [double]; the
    record keeps it as a [float]. *)
Record Sec := MkSec {
  edgeSample : Z; edgeExact : double; measured : bool; servable : bool; sym : ClockSymbol; conf : double;
  energy : double
}.
Record Rec := MkRec { rk : Z; r_edge : Z; r_sym : ClockSymbol; r_conf : double; r_energy : double }.

Record FrameInfo := MkFrameInfo {
  fi_fields : TimeFields; fi_dut1Tenths : Z; fi_dst1 : bool; fi_dst2 : bool; fi_leapPending : bool;
  fi_confidence : double; fi_start : Z; fi_station : ClockStation
}.
Record TimeInfo := MkTimeInfo {
  ti_fields : TimeFields; ti_quality : double; ti_edge : Z; ti_edgeExact : double; ti_second : Z;
  ti_station : ClockStation
}.
Inductive Call :=
  | OnState (s : ClockLockState)
  | OnFrame (f : FrameInfo)
  | OnSecond (r : Sec) (sof : Z)
  | OnTime (t : TimeInfo).

Record Anchor := MkAnchor { anchored : bool; anchorSec0 : Z; nextFrameStartK : Z }.
(** [lastFields] is the last completed minute, when there is one. *)
Record Slip := MkSlip {
  badFrameStreak : Z; suspectSec : Z; lastRealignK : Z; lastFields : option TimeFields; lastLeapWarn : bool
}.
Record Last := MkLast { lastEdgeSample : Z; lastEdgeSampleExact : double; lastEdgeSecondOfFrame : Z }.

Record Impl := MkImpl {
  lockState : ClockLockState; recs : list Rec; recBase : Z; secIndex : Z; anchor : Anchor; slip : Slip;
  last : Last; voter : list Frame; calls : list Call
}.

Definition withRecs (s : Impl) (l : list Rec) (b k : Z) : Impl :=
  MkImpl (lockState s) l b k (anchor s) (slip s) (last s) (voter s) (calls s).
Definition withAnchor (s : Impl) (a : Anchor) : Impl :=
  MkImpl (lockState s) (recs s) (recBase s) (secIndex s) a (slip s) (last s) (voter s) (calls s).
Definition withSlip (s : Impl) (p : Slip) : Impl :=
  MkImpl (lockState s) (recs s) (recBase s) (secIndex s) (anchor s) p (last s) (voter s) (calls s).
Definition withLast (s : Impl) (l : Last) : Impl :=
  MkImpl (lockState s) (recs s) (recBase s) (secIndex s) (anchor s) (slip s) l (voter s) (calls s).
Definition withVoter (s : Impl) (fs : list Frame) : Impl :=
  MkImpl (lockState s) (recs s) (recBase s) (secIndex s) (anchor s) (slip s) (last s) fs (calls s).
Definition withLock (s : Impl) (l : ClockLockState) : Impl :=
  MkImpl l (recs s) (recBase s) (secIndex s) (anchor s) (slip s) (last s) (voter s) (calls s).
Definition call (s : Impl) (c : Call) : Impl :=
  MkImpl (lockState s) (recs s) (recBase s) (secIndex s) (anchor s) (slip s) (last s) (voter s) (calls s ++ [c])%list.
Definition setState (s : Impl) (l : ClockLockState) : Impl :=
  if bool_decide (l = lockState s) then s else call (withLock s l) (OnState l).
Definition setSuspect (p : Slip) (k : Z) : Slip :=
  MkSlip (badFrameStreak p) k (lastRealignK p) (lastFields p) (lastLeapWarn p).
Definition setStreak (p : Slip) (n : Z) : Slip :=
  MkSlip n (suspectSec p) (lastRealignK p) (lastFields p) (lastLeapWarn p).

Definition noAnchor : Anchor := MkAnchor false 0 0.
Definition noSlip : Slip := MkSlip 0 (-1) (-1) None false.
Definition fresh : Impl :=
  MkImpl LockNoSignal [] 0 0 noAnchor noSlip (MkLast 0 nan (-1)) [] [].
(** [reset()]. *)
Definition resetFrames (s : Impl) : Impl :=
  setState (MkImpl (lockState s) [] 0 0 noAnchor noSlip (MkLast 0 nan (-1)) [] (calls s)) LockNoSignal.

Definition demote (s : Impl) : Impl :=
  if bool_decide (lockState s = LockLocked) then setState s LockAcquiring else s.

(** What [softReacquire] does to the frame: the seconds begin again. *)
Definition softReacquire (s : Impl) : Impl :=
  let s := MkImpl (lockState s) [] (secIndex s) (secIndex s) noAnchor noSlip (last s) (reset (voter s)) (calls s) in
  if bool_decide (lockState s = LockNoSignal) then s else setState s LockAcquiring.

(** ** The leap second *)

Definition leapSecondPossible (p : Slip) : bool :=
  match lastFields p with
  | None => false
  | Some f =>
      if negb (tf_minute f =? 59) || negb (tf_hour f =? 23) then false
      else if (tf_doy f <? 1) || (366 <? tf_doy f) || (tf_year2 f <? 0) || (99 <? tf_year2 f) then false
      else isLastDayOfMonth (utcMsFromFields (tf_year2 f) (tf_doy f) (tf_hour f) (tf_minute f))
  end.

(** ** Anchoring *)

Definition isMark (r : Rec) : bool := symb_eqb (r_sym r) SymMarker.
Definition noRec : Rec := MkRec 0 0 SymUnknown 0 0.
(** The sixty records from [base] on. *)
Definition frameAt (rs : list Rec) (base : nat) : list Rec := take 60 (drop base rs).

Definition markerScore (f : list Rec) : Z :=
  fold_left (fun v s => if isMark (nth s f noRec) then v + (if isMarkerSec (Z.of_nat s) then 2 else -1) else v)
    (seq 0 60) 0.
(** The first second is the frame's hole: far below the mean of the others, and
    no more than the least of them. *)
Definition isHole (f : list Rec) : bool :=
  let e s := r_energy (nth s f noRec) in
  let '(sum, minE) :=
    fold_left (fun '(sum, m) s => ((sum + e s)%D, if (e s <? m)%D then e s else m)) (seq 1 59) (0%D, 1e30%D) in
  let meanE := (sum / 59)%D in
  (e 0%nat <? 0.5 * meanE)%D && (e 0%nat <=? minE + 1e-9)%D.
Definition minuteRead (f : list Rec) : Z :=
  fold_left (fun v bw => if symb_eqb (r_sym (nth (Z.to_nat (bw_second bw)) f noRec)) SymOne
                         then v + bw_weight bw else v) (wwvFields FieldMinutes) 0.
Fixpoint minuteSteps (ms : list Z) : Z :=
  match ms with
  | a :: (b :: _) as ms => (if b - a =? 1 then 1 else 0) + minuteSteps ms
  | _ => 0
  end.

(** An alignment: the score, the offset, and the three counts of its gate. *)
Record Fit := MkFit { f_score : Z; f_off : Z; f_marker : Z; f_inc : Z; f_hole : Z }.
Definition noFit : Fit := MkFit (-1073741824) (-1) 0 0 0.
Definition framesFrom (rs : list Rec) (off : nat) : list (list Rec) :=
  map (fun t => frameAt rs (off + 60 * t)) (seq 0 ((length rs - off) / 60)).
Definition fitAt (rs : list Rec) (off : nat) : Fit :=
  let fs := framesFrom rs off in
  let m := fold_left (fun v f => v + markerScore f) fs 0 in
  let h := fold_left (fun v f => v + (if isHole f then 1 else 0)) fs 0 in
  let i := minuteSteps (map minuteRead fs) in
  MkFit (m + 4 * i + 3 * h) (Z.of_nat off) m i h.
Definition bestFit (rs : list Rec) : Fit :=
  fold_left (fun best off =>
    if ((length rs - off) / 60 <? 2)%nat then best
    else let f := fitAt rs off in if f_score best <? f_score f then f else best) (seq 0 60) noFit.
Definition gate (f : Fit) : bool :=
  (0 <=? f_off f) && (0 <? f_marker f) && (1 <=? f_inc f) && (1 <=? f_hole f).
Definition tryAnchor (s : Impl) : Impl :=
  if (length (recs s) <? 120)%nat then s
  else let f := bestFit (recs s) in
       if gate f then withAnchor s (MkAnchor true (recBase s + f_off f) (recBase s + f_off f)) else s.

(** ** Frames *)

Definition bit (syms : list ClockSymbol) (s : Z) : bool := symb_eqb (nth (Z.to_nat s) syms SymUnknown) SymOne.
Definition sumField (syms : list ClockSymbol) (m : ClockFieldMap) : Z :=
  fold_left (fun v bw => if bit syms (bw_second bw) then v + bw_weight bw else v) m 0.
Definition frameConfidence (confs : list double) : double :=
  let '(sum, cnt) :=
    fold_left (fun '(sum, cnt) s =>
      if isMarkerSec (Z.of_nat s) then (sum, cnt)
      else ((sum + nth s confs 0)%D, cnt + 1)) (seq 0 60) (0%D, 0) in
  if cnt =? 0 then 0%D else fround (dmin 1 (sum / d_of_Z cnt))%D.
Definition decodeFrame (station : ClockStation) (syms : list ClockSymbol) (confs : list double) (start : Z) : FrameInfo :=
  let b := bit syms in
  let v fld := sumField syms (wwvFields fld) in
  let mag := (if b 56 then 1 else 0) + (if b 57 then 2 else 0) + (if b 58 then 4 else 0) in
  MkFrameInfo (TF (v FieldMinutes) (v FieldHours) (v FieldDoy) (v FieldYear))
    (if b 50 then mag else - mag) (b 2) (b 55) (b 3) (frameConfidence confs) start station.

(** How many markers are in their places, elsewhere, and on the places a second
    late and early. *)
Record Skeleton := MkSkel { mkOk : Z; mkFalse : Z; mkLate : Z; mkEarly : Z }.
Definition skeleton (syms : list ClockSymbol) : Skeleton :=
  fold_left (fun '(MkSkel ok fa la ea) s =>
    let z := Z.of_nat s in
    if symb_eqb (nth s syms SymUnknown) SymMarker
    then MkSkel (if isMarkerSec z then ok + 1 else ok) (if isMarkerSec z then fa else fa + 1)
                (if cmod z 10 =? 0 then la + 1 else la) (if cmod z 10 =? 8 then ea + 1 else ea)
    else MkSkel ok fa la ea) (seq 0 60) (MkSkel 0 0 0 0).
Definition slipped (k : Skeleton) : bool := ((4 <=? mkLate k) || (4 <=? mkEarly k)) && (mkOk k <=? 1).
Definition skeletonOk (k : Skeleton) : bool := negb ((mkOk k <? 4) || (5 <? mkFalse k)).

(** What becomes of the loop over frames: it goes on, or the seconds begin again. *)
Inductive Turn := Onward (s : Impl) | Reacquired (s : Impl).

Section Decoder.
(** [cfg] is the voter's configuration, with the plausibility reference set. *)
Context `{Pow} (cfg : Config).

Definition nextFrame (s : Impl) (n : Z) : Impl :=
  let a := anchor s in withAnchor s (MkAnchor (anchored a) (anchorSec0 a) (nextFrameStartK a + n)).

(** A skeleton one second off: the anchor moves by that second, once. *)
Definition realign (s : Impl) (k : Skeleton) : Turn :=
  let a := anchor s in
  let p := slip s in
  if nextFrameStartK a =? lastRealignK p then Reacquired (softReacquire s)
  else
    let shift := if mkEarly k <=? mkLate k then 1 else -1 in
    let next := nextFrameStartK a + shift in
    let s := withAnchor s (MkAnchor (anchored a) (anchorSec0 a + shift) next) in
    Onward (demote (withSlip s (MkSlip (badFrameStreak p) (-1) next (lastFields p) (lastLeapWarn p)))).

Definition votedNow (fs : list Frame) : TimeFields :=
  TF (votedField cfg fs FieldMinutes) (votedField cfg fs FieldHours)
     (votedField cfg fs FieldDoy) (votedField cfg fs FieldYear).

Definition vote (s : Impl) (f : Frame) : Impl := withVoter s (addFrame cfg (voter s) f).
Definition blankFrame : Frame := MkFrame (replicate 60 SymUnknown) (replicate 60 0%D).

(** The minute the frame names, and whether a leap second may follow it. *)
Definition noteMinute (s : Impl) (fi : FrameInfo) (suspect certified : bool) : Impl * bool :=
  let p := slip s in
  let fields := if suspect then None else Some (if certified then votedNow (voter s) else fi_fields fi) in
  let p' := MkSlip (badFrameStreak p) (suspectSec p) (lastRealignK p) fields (lastLeapWarn p) in
  let leapNext := negb suspect && (fi_leapPending fi || lastLeapWarn p) && leapSecondPossible p' in
  (withSlip s (MkSlip (badFrameStreak p) (suspectSec p) (lastRealignK p) fields
                 (if suspect then lastLeapWarn p else fi_leapPending fi)), leapNext).

Definition certify (s : Impl) (station : ClockStation) (certified suspect leapNext skelOk : bool) : Impl :=
  if certified && (suspect || leapNext) then demote s
  else if certified && negb skelOk then s
  else if certified then
    let s := setState s LockLocked in
    let l := last s in
    call s (OnTime (MkTimeInfo (votedNow (voter s)) (lockConfidence cfg (voter s)) (lastEdgeSample l)
                      (lastEdgeSampleExact l) (lastEdgeSecondOfFrame l) station))
  else demote s.

(** A frame that is not slipped. *)
Definition takeFrame (s : Impl) (station : ClockStation) (f : list Rec) (k : Skeleton) : Turn :=
  let syms := map r_sym f in
  let confs := map r_conf f in
  let next := nextFrameStartK (anchor s) in
  let suspect := (next <=? suspectSec (slip s)) && (suspectSec (slip s) <? next + kFrameSecs) in
  let fi := decodeFrame station syms confs (r_edge (nth 0 f noRec)) in
  let s := if suspect then s else call s (OnFrame fi) in
  let ok := skeletonOk k in
  let streak := if ok then 0 else badFrameStreak (slip s) + 1 in
  let s := withSlip s (setStreak (slip s) streak) in
  if 3 <=? streak then Reacquired (softReacquire s)
  else
    let s := vote s (if suspect then blankFrame else MkFrame syms confs) in
    let certified := l_locked (lockVerdict cfg (voter s)) in
    let '(s, leapNext) := noteMinute s fi suspect certified in
    Onward (nextFrame (certify s station certified suspect leapNext ok) kFrameSecs).

(** [feedPendingFrames]: every frame that is complete. [None] is a record read that
    is not there, or fuel that was not enough. *)
Fixpoint feed (fuel : nat) (station : ClockStation) (s : Impl) : option Turn :=
  match fuel with
  | O => None
  | S fuel =>
      let next := nextFrameStartK (anchor s) in
      if next + (kFrameSecs - 1) <=? secIndex s - 1 then
        if next <? recBase s then feed fuel station (nextFrame s kFrameSecs)
        else
          let f := frameAt (recs s) (Z.to_nat (next - recBase s)) in
          if negb (length f =? 60)%nat then None
          else
            let k := skeleton (map r_sym f) in
            match (if slipped k then realign s k else takeFrame s station f k) with
            | Onward s => feed fuel station s
            | Reacquired s => Some (Reacquired s)
            end
      else Some (Onward s)
  end.
Definition feedFuel (s : Impl) : nat := S (Z.to_nat (2 * (secIndex s - nextFrameStartK (anchor s)) + 3)).
Definition feedPendingFrames (station : ClockStation) (s : Impl) : option Turn :=
  if anchored (anchor s) then feed (feedFuel s) station s else Some (Onward s).

(** ** Seconds *)

Definition secondOfFrame (s : Impl) : Z :=
  if anchored (anchor s) then cmod (cmod (secIndex s - anchorSec0 (anchor s)) kFrameSecs + kFrameSecs) kFrameSecs
  else -1.

(** A second that says the count is off by one. *)
Definition contradicts (s : Impl) (sof : Z) (r : Sec) : bool :=
  match List.last (map Some (recs s)) None with
  | None => false
  | Some prev =>
      let marker := symb_eqb (sym r) SymMarker in
      let sure := (kStructConf <=? conf r)%D in
      anchored (anchor s) && (0 <? sof) && (rk prev =? secIndex s - 1) &&
      ((sure && marker && (cmod sof 10 =? 0) && negb (isMark prev)) ||
       (sure && negb marker && isMarkerSec sof && isMark prev && (kStructConf <=? r_conf prev)%D) ||
       ((sof =? 1) && leapSecondPossible (slip s) && (energy r <? 0.5 * r_energy prev)%D))
  end.

(** The second half of [processSecond]: what is done with a classified second. *)
Definition recordSecond (station : ClockStation) (s : Impl) (r : Sec) : option Turn :=
  let k := secIndex s in
  let sof := secondOfFrame s in
  let s := if contradicts s sof r then demote (withSlip s (setSuspect (slip s) k)) else s in
  let s := withLast s (MkLast (edgeSample r) (edgeExact r) sof) in
  let s := call s (OnSecond r sof) in
  let l := (recs s ++ [MkRec k (edgeSample r) (sym r) (conf r) (fround (energy r))])%list in
  let s := if (kRecCap <? length l)%nat then withRecs s (drop 1 l) (recBase s + 1) (k + 1)
           else withRecs s l (recBase s) (k + 1) in
  let s := if anchored (anchor s) then s else tryAnchor s in
  feedPendingFrames station s.
End Decoder.

(** What can happen to the frame: the tick's phase is found, a second, a second
    dropped with everything before it (the delay left its search band), a reset. *)
Inductive Event := EAcquire | ESecond (station : ClockStation) (r : Sec) | EReacquire | EReset.
Definition turned (t : Turn) : Impl := match t with Onward s | Reacquired s => s end.
Definition step `{Pow} (cfg : Config) (s : Impl) (e : Event) : option Impl :=
  match e with
  | EAcquire => Some (setState s LockAcquiring)
  | ESecond st r => t ← recordSecond cfg st s r; Some (turned t)
  | EReacquire => Some (softReacquire s)
  | EReset => Some (resetFrames s)
  end.
Fixpoint run `{Pow} (cfg : Config) (s : Impl) (es : list Event) : option Impl :=
  match es with [] => Some s | e :: es => s ← step cfg s e; run cfg s es end.

(** ** Lemmas: the station tag *)

(** A judgement: whether the fold was young, and the two excesses. *)
Definition judgement : Type := (bool * double * double).
Definition judged (t : Tag.Tag) (j : judgement) : Tag.Tag := let '(young, eV, eH) := j in Tag.judgeSecond t young eV eH.
Definition verdictOf (j : judgement) : ClockStation := let '(_, eV, eH) := j in Tag.verdict eV eH.
Definition supported (a : ClockStation) (j : judgement) : bool := let '(_, eV, eH) := j in Tag.supports a eV eH.
(** The judgements that counted, the latest first. *)
Definition history (js : list judgement) : list judgement := List.rev (List.filter (fun j => negb (fst (fst j))) js).

(** The last [n] of [h] are all so. *)
Definition recent (P : judgement -> Prop) (n : Z) (h : list judgement) : Prop :=
  0 <= n <= Z.of_nat (length h) /\ Forall P (take (Z.to_nat n) h).
Lemma recent_0 P h : recent P 0 h.
Proof. split; [lia|constructor]. Qed.
Lemma recent_S (P : judgement -> Prop) n h j : recent P n h -> P j -> recent P (n + 1) (j :: h).
Proof.
  intros [L F] Pj. split; [cbn; lia|]. replace (Z.to_nat (n + 1)) with (S (Z.to_nat n)) by lia. by constructor.
Qed.
Lemma recent_le (P : judgement -> Prop) n m h : recent P n h -> 0 <= m <= n -> recent P m h.
Proof.
  intros [L F] M. split; [lia|]. replace (Z.to_nat m) with (Nat.min (Z.to_nat m) (Z.to_nat n)) by lia.
  rewrite <- take_take. by apply Forall_take.
Qed.
Lemma recent_weaken (P Q : judgement -> Prop) n h : (forall j, P j -> Q j) -> recent P n h -> recent Q n h.
Proof. intros W [L F]. split; [done|]. eapply Forall_impl; [exact F|exact W]. Qed.

(** What the counts count. *)
Definition counted (t : Tag.Tag) (h : list judgement) : Prop :=
  if bool_decide (Tag.station t = StUnknown)
  then recent (fun j => verdictOf j = Tag.pending t /\ Tag.pending t <> StUnknown) (Tag.pendingCount t) h
  else recent (fun j => supported (Tag.station t) j = false) (Tag.unsupported t) h /\
       recent (fun j => verdictOf j <> StUnknown /\ supported (Tag.station t) j = false) (Tag.contrary t) h.

(** Why a tag became another. *)
Definition evidence (a b : ClockStation) (h : list judgement) : Prop :=
  if bool_decide (a = StUnknown) then recent (fun j => verdictOf j = b) kStationConfirmSecs h
  else if bool_decide (b = StUnknown) then recent (fun j => supported a j = false) kStationReleaseSecs h
  else recent (fun j => verdictOf j <> StUnknown /\ supported a j = false) kStationSwitchSecs h /\
       recent (fun j => verdictOf j = b) 1 h.

Lemma verdict_known eV eH : Tag.verdict eV eH = StUnknown \/ Tag.verdict eV eH = StWwv \/ Tag.verdict eV eH = StWwvh.
Proof. unfold Tag.verdict. destruct (_ && _); [auto|]. destruct (_ && _); auto. Qed.

Lemma judge_counted t h eV eH :
  counted t h -> Tag.pinned t = false ->
  let j := (false, eV, eH) in
  let t' := judged t j in
  Tag.pinned t' = false /\ counted t' (j :: h) /\
  (Tag.station t' <> Tag.station t -> evidence (Tag.station t) (Tag.station t') (j :: h)).
Proof.
  intros C Pn. cbv zeta. unfold judged, Tag.judgeSecond. cbv zeta. rewrite Pn. cbn [orb]. unfold counted in C.
  set (j := (false, eV, eH)). change (Tag.verdict eV eH) with (verdictOf j).
  set (v := verdictOf j) in *. case_bool_decide as U.
  - destruct (negb (bool_decide (v = StUnknown)) && bool_decide (v = Tag.pending t)) eqn:E.
    + zbool. apply bool_decide_eq_false in H. apply bool_decide_eq_true in H0.
      assert (R : recent (fun j => verdictOf j = Tag.pending t /\ Tag.pending t <> StUnknown) (Tag.pendingCount t + 1) (j :: h)).
      { apply recent_S; [exact C|]. split; [done|congruence]. }
      destruct (Z.leb_spec kStationConfirmSecs (Tag.pendingCount t + 1)) as [K|K]; cbn [Tag.station Tag.pinned].
      * split; [done|]. split.
        { unfold counted. cbn [Tag.station Tag.unsupported Tag.contrary]. case_bool_decide; [done|]. split; apply recent_0. }
        intros _. unfold evidence. rewrite bool_decide_eq_true_2 by done. rewrite H0.
        eapply recent_weaken, recent_le; [|exact R|unfold kStationConfirmSecs in *; lia]. by intros ? [].
      * split; [done|]. split; [|done]. unfold counted. cbn. by rewrite bool_decide_eq_true_2.
    + cbn [Tag.station Tag.pinned]. split; [done|]. split; [|done]. unfold counted. cbn. rewrite bool_decide_eq_true_2 by done.
      change (Tag.verdict eV eH) with v. case_bool_decide as Vu; cbn [negb]; [apply recent_0|].
      apply (recent_S _ 0); [apply recent_0|done].
  - destruct C as [C1 C2]. change (Tag.supports (Tag.station t) eV eH) with (supported (Tag.station t) j).
    destruct (supported (Tag.station t) j) eqn:Su.
    { cbn [Tag.station Tag.pinned]. split; [done|]. split; [|done]. unfold counted. cbn. rewrite bool_decide_eq_false_2 by done.
      split; apply recent_0. }
    set (c := if negb (bool_decide (v = StUnknown)) then Tag.contrary t + 1 else 0).
    assert (Ru : recent (fun j => supported (Tag.station t) j = false) (Tag.unsupported t + 1) (j :: h)) by (by apply recent_S).
    assert (Rc : recent (fun j => verdictOf j <> StUnknown /\ supported (Tag.station t) j = false) c (j :: h)).
    { unfold c. case_bool_decide; cbn [negb]; [apply recent_0|]. by apply recent_S. }
    destruct (Z.leb_spec kStationSwitchSecs c) as [K|K].
    + assert (Vk : v <> StUnknown) by (unfold c, kStationSwitchSecs in K; case_bool_decide; cbn [negb] in K; [lia|done]).
      cbn [Tag.station Tag.pinned]. split; [done|]. split.
      { unfold counted. cbn. rewrite bool_decide_eq_false_2 by done. split; apply recent_0. }
      intros _. unfold evidence. rewrite !bool_decide_eq_false_2 by done. split.
      * eapply recent_le; [exact Rc|unfold kStationSwitchSecs in *; lia].
      * apply (recent_S _ 0); [apply recent_0|done].
    + destruct (Z.leb_spec kStationReleaseSecs (Tag.unsupported t + 1)) as [K'|K']; cbn [Tag.station Tag.pinned].
      * split; [done|]. split; [unfold counted; cbn; rewrite bool_decide_eq_true_2 by done; apply recent_0|].
        intros _. unfold evidence. rewrite bool_decide_eq_false_2, bool_decide_eq_true_2 by done.
        eapply recent_le; [exact Ru|unfold kStationReleaseSecs in *; lia].
      * split; [done|]. split; [|done]. unfold counted. cbn. by rewrite bool_decide_eq_false_2.
Qed.

Lemma judged_counted js : forall t h, counted t h -> Tag.pinned t = false ->
  Tag.pinned (fold_left judged js t) = false /\ counted (fold_left judged js t) (history js ++ h).
Proof.
  induction js as [|[[young eV] eH] js IH]; intros t h C Pn; [done|]. cbn [fold_left].
  set (j := (young, eV, eH) : judgement).
  assert (E : (history (j :: js) ++ h = history js ++ (if young then h else j :: h))%list).
  { unfold history, j. cbn [List.filter fst]. destruct young; cbn [negb]; [done|]. cbn [List.rev]. by rewrite <- app_assoc. }
  rewrite E. unfold j. clear E j. destruct young.
  - replace (judged t (true, eV, eH)) with t; [by apply IH|]. unfold judged, Tag.judgeSecond. cbv zeta. by rewrite orb_true_r.
  - destruct (judge_counted t h eV eH C Pn) as (P' & C' & _). by apply IH.
Qed.

(** ** Lemmas: the records *)

Definition recsOk (s : Impl) : Prop :=
  recBase s + Z.of_nat (length (recs s)) = secIndex s /\ (length (recs s) <= kRecCap)%nat.
(** The frame's part of the state, which calls, votes and locks leave alone. *)
Definition framing (s : Impl) : list Rec * Z * Z * Anchor := (recs s, recBase s, secIndex s, anchor s).

Lemma setState_spec s l :
  framing (setState s l) = framing s /\ slip (setState s l) = slip s /\ last (setState s l) = last s /\
  voter (setState s l) = voter s /\ lockState (setState s l) = l /\
  (calls (setState s l) = calls s \/ calls (setState s l) = (calls s ++ [OnState l])%list).
Proof. unfold setState. case_bool_decide as D; [subst; tauto|]. repeat split. by right. Qed.

Lemma wwv_demote_spec s :
  framing (demote s) = framing s /\ slip (demote s) = slip s /\ last (demote s) = last s /\
  voter (demote s) = voter s /\ lockState (demote s) <> LockLocked /\
  (calls (demote s) = calls s \/ calls (demote s) = (calls s ++ [OnState LockAcquiring])%list).
Proof.
  unfold demote. case_bool_decide as D; [|tauto].
  destruct (setState_spec s LockAcquiring) as (E1 & E2 & E3 & E4 & E5 & E6). rewrite E5. done.
Qed.

Lemma frameAt_length rs b : (b + 60 <= length rs)%nat -> length (frameAt rs b) = 60%nat.
Proof. intros L. unfold frameAt. rewrite length_take, length_drop. lia. Qed.

Section Feed.
Context `{Pow} (cfg : Config).

(** What one turn of the loop over frames leaves. *)
Definition turnOk (s : Impl) (t : Turn) : Prop :=
  match t with
  | Onward s' => recs s' = recs s /\ recBase s' = recBase s /\ secIndex s' = secIndex s /\
      anchored (anchor s') = anchored (anchor s)
  | Reacquired s' => recs s' = [] /\ recBase s' = secIndex s /\ secIndex s' = secIndex s /\
      anchored (anchor s') = false
  end.
Lemma softReacquire_turn s : turnOk s (Reacquired (softReacquire s)).
Proof.
  unfold softReacquire. case_bool_decide; [done|]. match goal with |- context [setState ?x ?l] => destruct (setState_spec x l) as (E & _) end.
  unfold framing in E. injection E as E1 E2 E3 E4. cbn [turnOk]. by rewrite E1, E2, E3, E4.
Qed.

Lemma realign_turn s k :
  turnOk s (realign s k) /\
  match realign s k with
  | Onward s' => nextFrameStartK (anchor s') <= nextFrameStartK (anchor s) + 1 /\
      nextFrameStartK (anchor s) - 1 <= nextFrameStartK (anchor s') /\
      lastRealignK (slip s') = nextFrameStartK (anchor s') /\
      nextFrameStartK (anchor s) <> lastRealignK (slip s)
  | Reacquired _ => nextFrameStartK (anchor s) = lastRealignK (slip s)
  end.
Proof.
  unfold realign. destruct (Z.eqb_spec (nextFrameStartK (anchor s)) (lastRealignK (slip s))) as [E|E].
  { split; [apply softReacquire_turn|done]. }
  cbv zeta. match goal with |- context [demote ?x] => destruct (wwv_demote_spec x) as (E1 & E2 & _) end.
  unfold framing in E1. injection E1 as F1 F2 F3 F4. cbn [turnOk]. rewrite F1, F2, F3, F4, E2. cbn.
  destruct (mkEarly k <=? mkLate k); repeat split; lia.
Qed.

Lemma certify_spec s st certified suspect leapNext ok :
  let s' := certify cfg s st certified suspect leapNext ok in
  framing s' = framing s /\ slip s' = slip s /\ last s' = last s /\ voter s' = voter s /\
  exists new, calls s' = (calls s ++ new)%list /\ (length (omap (fun c => match c with OnTime t => Some t | _ => None end) new) <= 1)%nat /\
    Forall (fun c => match c with
      | OnTime t => certified = true /\ suspect = false /\ leapNext = false /\ ok = true /\
          lockState s' = LockLocked /\
          t = MkTimeInfo (votedNow cfg (voter s)) (lockConfidence cfg (voter s)) (lastEdgeSample (last s))
                (lastEdgeSampleExact (last s)) (lastEdgeSecondOfFrame (last s)) st
      | OnState _ => True
      | _ => False end) new.
Proof.
  cbv zeta. assert (D : forall b, let s' := demote s in framing s' = framing s /\ slip s' = slip s /\ last s' = last s /\
    voter s' = voter s /\ exists new, calls s' = (calls s ++ new)%list /\
      (length (omap (fun c => match c with OnTime t => Some t | _ => None end) new) <= 1)%nat /\
      Forall (fun c => match c with OnTime t => b t | OnState _ => True | _ => False end) new).
  { intros b. cbv zeta. destruct (wwv_demote_spec s) as (E1 & E2 & E3 & E4 & _ & E6). repeat (split; [done|]).
    destruct E6 as [E6|E6]; [exists []; rewrite app_nil_r; cbn; auto|]. exists [OnState LockAcquiring]. split; [done|].
    split; [cbn; lia|]. by repeat constructor. }
  unfold certify. destruct certified; cbn [andb]; [|apply D].
  destruct (suspect || leapNext) eqn:E; [apply D|]. apply orb_false_iff in E as [-> ->].
  destruct ok; cbn [negb]; [|repeat (split; [done|]); exists []; rewrite app_nil_r; cbn; auto].
  destruct (setState_spec s LockLocked) as (E1 & E2 & E3 & E4 & E5 & E6). cbv zeta.
  change (framing (call ?x _)) with (framing x). cbn [slip last voter calls lockState call]. rewrite E1, E2, E3, E4, E5.
  repeat (split; [done|]).
  destruct E6 as [->| ->]; [eexists [_]; split; [done|]; split; [cbn; lia|]; by repeat constructor|].
  rewrite <- app_assoc. eexists (_ :: [_]). split; [done|]. split; [cbn; lia|]. by repeat constructor.
Qed.

Lemma takeFrame_turn s st f k :
  turnOk s (takeFrame cfg s st f k) /\
  match takeFrame cfg s st f k with
  | Onward s' => nextFrameStartK (anchor s') = nextFrameStartK (anchor s) + 60
  | Reacquired _ => True
  end.
Proof.
  unfold takeFrame. cbv zeta. set (sus := _ && _). set (fi := decodeFrame _ _ _ _).
  set (s1 := if sus then s else call s (OnFrame fi)).
  assert (F1 : framing s1 = framing s) by (unfold s1; by destruct sus). clearbody s1.
  set (n := if skeletonOk k then 0 else _). set (s2 := withSlip s1 (setStreak (slip s1) n)).
  assert (F2 : framing s2 = framing s) by exact F1. clearbody s2 n.
  unfold framing in F2. injection F2 as G1 G2 G3 G4.
  destruct (3 <=? n).
  { destruct (softReacquire_turn s2) as (T1 & T2 & T3 & T4). cbn [turnOk] in *. by rewrite T1, T2, T3, T4, G3. }
  set (s3 := vote _ _ _). destruct (noteMinute cfg s3 fi sus _) as [s4 ln] eqn:E.
  assert (F4 : framing s4 = framing s3) by (unfold noteMinute in E; injection E as <- <-; done).
  destruct (certify_spec s4 st (l_locked (lockVerdict cfg (voter s3))) sus ln (skeletonOk k)) as (C1 & _).
  set (s5 := certify _ _ _ _ _ _ _) in *. clearbody s5. rewrite F4 in C1. unfold framing in C1. cbn in C1.
  injection C1 as C1 C2 C3 C4. cbn [turnOk nextFrame withAnchor recs recBase secIndex anchor anchored nextFrameStartK].
  rewrite C1, C2, C3, C4, G1, G2, G3, G4. done.
Qed.

(** The loop over frames ends, reads records that are there, and catches up. *)
Lemma feed_total st fuel : forall s,
  recBase s + Z.of_nat (length (recs s)) = secIndex s ->
  2 * (secIndex s - nextFrameStartK (anchor s)) +
    (if nextFrameStartK (anchor s) =? lastRealignK (slip s) then 0 else 3) < Z.of_nat fuel ->
  (0 < fuel)%nat ->
  exists t, feed cfg fuel st s = Some t /\ turnOk s t /\
    match t with Onward s' => secIndex s' - nextFrameStartK (anchor s') < 60 | Reacquired _ => True end.
Proof.
  induction fuel as [|fuel IH]; intros s R M F; [lia|]. cbn [feed]. cbv zeta. unfold kFrameSecs.
  destruct (Z.leb_spec (nextFrameStartK (anchor s) + (60 - 1)) (secIndex s - 1)) as [C|C].
  2: { exists (Onward s). split; [done|]. split; [done|lia]. }
  assert (N : forall s', turnOk s (Onward s') ->
    2 * (secIndex s' - nextFrameStartK (anchor s')) +
      (if nextFrameStartK (anchor s') =? lastRealignK (slip s') then 0 else 3) < Z.of_nat fuel ->
    exists t, feed cfg fuel st s' = Some t /\ turnOk s t /\
      match t with Onward s' => secIndex s' - nextFrameStartK (anchor s') < 60 | Reacquired _ => True end).
  { intros s' (T1 & T2 & T3 & T4) M'. destruct (IH s') as (t & E & T & P); [by rewrite T1, T2, T3|done|..].
    { destruct (_ =? lastRealignK (slip s)) in M; lia. }
    exists t. split; [done|]. split; [|done]. destruct t; cbn [turnOk] in *; rewrite T3 in T; rewrite ?T1, ?T2, ?T4 in T; done. }
  destruct (Z.ltb_spec (nextFrameStartK (anchor s)) (recBase s)) as [B|B].
  { apply N; [done|]. cbn. destruct (_ =? _) in M; destruct (_ =? _); lia. }
  rewrite frameAt_length by lia. cbn [Nat.eqb negb].
  set (f := frameAt _ _). set (k := skeleton _).
  destruct (slipped k).
  - destruct (realign_turn s k) as (T & P). destruct (realign s k) as [s'|s'].
    + apply N; [exact T|]. destruct T as (_ & _ & -> & _). destruct P as (P1 & P2 & P3 & P4). rewrite P3, Z.eqb_refl.
      destruct (Z.eqb_spec (nextFrameStartK (anchor s)) (lastRealignK (slip s))); [done|lia].
    + eexists. split; [done|]. by split.
  - destruct (takeFrame_turn s st f k) as (T & P). destruct (takeFrame cfg s st f k) as [s'|s'].
    + apply N; [exact T|]. destruct T as (_ & _ & -> & _). rewrite P.
      destruct (_ =? lastRealignK (slip s)) in M; destruct (_ =? _); lia.
    + eexists. split; [done|]. by split.
Qed.
End Feed.

(** *** A second's record *)

Section Record.
Context `{Pow} (cfg : Config).

Lemma tryAnchor_spec s :
  let s' := tryAnchor s in
  recs s' = recs s /\ recBase s' = recBase s /\ secIndex s' = secIndex s /\ slip s' = slip s /\ last s' = last s /\
  voter s' = voter s /\ calls s' = calls s /\ lockState s' = lockState s.
Proof. cbv zeta. unfold tryAnchor. destruct (_ <? _)%nat; [done|]. by destruct (gate _). Qed.

(** The second recorded, before the frames are looked at. *)
Definition pushed (s : Impl) (r : Sec) : Impl :=
  let k := secIndex s in
  let sof := secondOfFrame s in
  let s := if contradicts s sof r then demote (withSlip s (setSuspect (slip s) k)) else s in
  let s := withLast s (MkLast (edgeSample r) (edgeExact r) sof) in
  let s := call s (OnSecond r sof) in
  let l := (recs s ++ [MkRec k (edgeSample r) (sym r) (conf r) (fround (energy r))])%list in
  let s := if (kRecCap <? length l)%nat then withRecs s (drop 1 l) (recBase s + 1) (k + 1)
           else withRecs s l (recBase s) (k + 1) in
  if anchored (anchor s) then s else tryAnchor s.
Lemma record_pushed st s r : recordSecond cfg st s r = feedPendingFrames cfg st (pushed s r).
Proof. reflexivity. Qed.

Lemma pushed_recs s r : recsOk s -> recsOk (pushed s r) /\ secIndex (pushed s r) = secIndex s + 1.
Proof.
  intros [R L]. unfold pushed. cbv zeta.
  match goal with |- context [call (withLast ?x ?l) ?c] => set (s1 := call (withLast x l) c) end.
  assert (E : recs s1 = recs s /\ recBase s1 = recBase s /\ secIndex s1 = secIndex s).
  { unfold s1. destruct (contradicts _ _ _); [|done].
    match goal with |- context [demote ?x] => destruct (wwv_demote_spec x) as (E & _) end.
    unfold framing in E. injection E as E1 E2 E3 E4. cbn. by rewrite E1, E2, E3. }
  destruct E as (E1 & E2 & E3). clearbody s1. rewrite E1, E2.
  set (l := (recs s ++ [_])%list). assert (Ll : length l = S (length (recs s))) by (unfold l; rewrite length_app; cbn; lia).
  clearbody l.
  match goal with |- context [if anchored (anchor ?x) then _ else _] => set (s2 := x) end.
  assert (K : recsOk s2 /\ secIndex s2 = secIndex s + 1).
  { unfold s2. destruct (Nat.ltb_spec kRecCap (length l)); (split; [split|]); cbn [recs recBase secIndex withRecs];
      rewrite ?length_drop; unfold kRecCap in *; lia. }
  clearbody s2. destruct (anchored _); [done|]. destruct (tryAnchor_spec s2) as (A1 & A2 & A3 & _).
  unfold recsOk. by rewrite A1, A2, A3.
Qed.

(** A second is always recorded, and the frames are then caught up with. *)
Lemma record_total st s r :
  recsOk s -> exists t, recordSecond cfg st s r = Some t /\ recsOk (turned t) /\ secIndex (turned t) = secIndex s + 1 /\
    (anchored (anchor (turned t)) = true -> secIndex (turned t) - nextFrameStartK (anchor (turned t)) < 60).
Proof.
  intros R. rewrite record_pushed. destruct (pushed_recs s r R) as [[R1 R2] E]. unfold feedPendingFrames.
  set (s1 := pushed s r) in *. clearbody s1. destruct (anchored (anchor s1)) eqn:A.
  2: { eexists. split; [done|]. split; [by split|]. split; [done|]. cbn. by rewrite A. }
  destruct (feed_total cfg st (feedFuel s1) s1 R1) as (t & F & T & P).
  { unfold feedFuel. destruct (_ =? _); lia. }
  { unfold feedFuel. lia. }
  eexists. split; [done|]. destruct t as [s'|s']; cbn [turned turnOk] in *.
  - destruct T as (T1 & T2 & T3 & T4). split; [split; [by rewrite T1, T2, T3|by rewrite T1]|]. split; [by rewrite T3|done].
  - destruct T as (T1 & T2 & T3 & T4). split; [split; [rewrite T1, T2, T3; cbn; lia|rewrite T1; cbn; unfold kRecCap; lia]|].
    split; [by rewrite T3|]. by rewrite T4.
Qed.
End Record.

(** ** Lemmas: the labels *)

(** The labels among some calls, each with the frame last reported before it. *)
Fixpoint stated (fi : option FrameInfo) (cs : list Call) : list (option FrameInfo * TimeInfo) :=
  match cs with
  | [] => []
  | OnFrame f :: cs => stated (Some f) cs
  | OnTime t :: cs => (fi, t) :: stated fi cs
  | _ :: cs => stated fi cs
  end.
Fixpoint lastFrame (fi : option FrameInfo) (cs : list Call) : option FrameInfo :=
  match cs with
  | [] => fi
  | OnFrame f :: cs => lastFrame (Some f) cs
  | _ :: cs => lastFrame fi cs
  end.
Lemma stated_app a b : forall fi, stated fi (a ++ b) = (stated fi a ++ stated (lastFrame fi a) b)%list.
Proof. induction a as [|c a IH]; intros fi; [done|]. destruct c; cbn; by rewrite ?IH. Qed.
Lemma lastFrame_app a b : forall fi, lastFrame fi (a ++ b) = lastFrame (lastFrame fi a) b.
Proof. induction a as [|c a IH]; intros fi; [done|]. destruct c; cbn; by rewrite ?IH. Qed.

(** Whatever happens can happen to any frame, and leaves the records right. *)
Lemma wwv_step_total `{Pow} (cfg : Config) e s : recsOk s -> exists s', step cfg s e = Some s' /\ recsOk s'.
Proof.
  intros R. destruct e as [|st r| |]; cbn [step].
  - eexists. split; [done|]. destruct (setState_spec s LockAcquiring) as (E & _). unfold framing in E. injection E as E1 E2 E3 _.
    unfold recsOk. by rewrite E1, E2, E3.
  - destruct (record_total cfg st s r R) as (t & -> & R' & _). by exists (turned t).
  - eexists. split; [done|]. destruct (softReacquire_turn s) as (T1 & T2 & T3 & _). unfold recsOk. rewrite T1, T2, T3.
    cbn. unfold kRecCap. lia.
  - eexists. split; [done|]. unfold resetFrames. match goal with |- context [setState ?x ?l] => destruct (setState_spec x l) as (E & _) end.
    unfold framing in E. injection E as E1 E2 E3 _. unfold recsOk. rewrite E1, E2, E3. cbn. unfold kRecCap. lia.
Qed.
Lemma wwv_run_total `{Pow} (cfg : Config) es : forall s, recsOk s -> exists s', run cfg s es = Some s' /\ recsOk s'.
Proof.
  induction es as [|e es IH]; intros s R; [by exists s|]. cbn [run].
  destruct (wwv_step_total cfg e s R) as (s' & -> & R'). by apply IH.
Qed.
Lemma wwv_run_app `{Pow} (cfg : Config) a b : forall s, run cfg s (a ++ b) = (s ← run cfg s a; run cfg s b).
Proof. induction a as [|e a IH]; intros s; [done|]. cbn. destruct (step cfg s e); [apply IH|done]. Qed.
Lemma fresh_records : recsOk fresh.
Proof. unfold recsOk, kRecCap. cbn. lia. Qed.

(** ** Lemmas: a minute as it is sent *)

Fixpoint recsFrom (k : Z) (secs : list Sec) : list Rec :=
  match secs with
  | [] => []
  | r :: secs => MkRec k (edgeSample r) (sym r) (conf r) (fround (energy r)) :: recsFrom (k + 1) secs
  end.
Lemma recsFrom_length secs : forall k, length (recsFrom k secs) = length secs.
Proof. induction secs as [|r secs IH]; intros k; cbn; [done|]. by rewrite IH. Qed.
Lemma recsFrom_app a b : forall k, recsFrom k (a ++ b) = (recsFrom k a ++ recsFrom (k + Z.of_nat (length a)) b)%list.
Proof.
  induction a as [|r a IH]; intros k; cbn; [by rewrite Z.add_0_r|]. rewrite IH. do 3 f_equal. lia.
Qed.
Lemma recsFrom_map secs : forall k, map r_sym (recsFrom k secs) = map sym secs /\ map r_conf (recsFrom k secs) = map conf secs.
Proof. induction secs as [|r secs IH]; intros k; [done|]. cbn. by destruct (IH (k + 1)) as [-> ->]. Qed.
Lemma recsFrom_drop n : forall secs k, drop n (recsFrom k secs) = recsFrom (k + Z.of_nat n) (drop n secs).
Proof.
  induction n as [|n IH]; intros secs k; [by rewrite !drop_0, Z.add_0_r|]. destruct secs as [|r secs]; [done|].
  cbn [recsFrom drop]. rewrite IH. f_equal. lia.
Qed.
Lemma recsFrom_take n : forall secs k, take n (recsFrom k secs) = recsFrom k (take n secs).
Proof. induction n as [|n IH]; intros [|r secs] k; [done..|]. cbn. by rewrite IH. Qed.
Lemma frameAt_recsFrom secs k b : frameAt (recsFrom k secs) b = recsFrom (k + Z.of_nat b) (take 60 (drop b secs)).
Proof. unfold frameAt. by rewrite recsFrom_drop, recsFrom_take. Qed.

Lemma sumField_decodes syms confs m :
  forallb (fun bw => inFrame (bw_second bw)) m = true -> sumField syms m = decodeMap m (MkFrame syms confs).
Proof.
  unfold sumField, decodeMap, bit, symAt. cbn [f_symbols]. generalize 0. induction m as [|bw m IH]; intros v F; [done|].
  cbn in *. apply andb_true_iff in F as [F1 F]. rewrite F1. cbn [andb]. by apply IH.
Qed.

(** A minute as it is sent and heard: its sixty seconds, and the leap second after
    them when there is one. *)
Record Minute := MkMinute { m_time : TimeFields; m_secs : list Sec; m_leap : option Sec }.
Definition heard (m : Minute) : list Sec := (m_secs m ++ from_option (fun r => [r]) [] (m_leap m))%list.
Definition startOf (m : Minute) : Z := from_option edgeSample 0 (m_secs m !! 0%nat).
Definition endsMonth (t : TimeFields) : bool := leapSecondPossible (MkSlip 0 0 0 (Some t) false).

(** Read right: markers where they belong and nowhere else, the time, and a
    second 1 no quieter than half the hole before it; the other bits may be
    anything. A leap second is no marker, and the minute it ends has announced it. *)
Definition sendsMinute (cfg : Config) (t : TimeFields) (secs : list Sec) : Prop :=
  rangeValid t = true /\ length secs = 60%nat /\
  (forall k, (k < 60)%nat -> symb_eqb (nth k (map sym secs) SymUnknown) SymMarker = isMarkerSec (Z.of_nat k)) /\
  frameOk (MkFrame (map sym secs) (map conf secs)) /\
  transmits cfg (MkFrame (map sym secs) (map conf secs)) t /\
  (forall h r, secs !! 0%nat = Some h -> secs !! 1%nat = Some r -> (energy r <? 0.5 * fround (energy h))%D = false).
Definition cleanMinute (cfg : Config) (m : Minute) : Prop :=
  sendsMinute cfg (m_time m) (m_secs m) /\
  match m_leap m with
  | None => True
  | Some r => symb_eqb (sym r) SymMarker = false /\ bit (map sym (m_secs m)) 3 = true /\ endsMonth (m_time m) = true
  end.

(** The labels given, each with the start of the frame reported before it. *)
Definition said (s : Impl) : list (option Z * TimeFields) :=
  map (fun p => (fi_start <$> fst p, ti_fields (snd p))) (stated None (calls s)).
Definition grewBy (s s' : Impl) (new : list (option Z * TimeFields)) : Prop :=
  exists cs, calls s' = (calls s ++ cs)%list /\
    forall fi, map (fun p => (fi_start <$> fst p, ti_fields (snd p))) (stated fi cs) = new.
Lemma grewBy_said s s' new : grewBy s s' new -> said s' = (said s ++ new)%list.
Proof. intros (cs & E & F). unfold said. by rewrite E, stated_app, map_app, F. Qed.
Lemma grewBy_refl s s' : calls s' = calls s -> grewBy s s' [].
Proof. intros E. exists []. by rewrite app_nil_r. Qed.
Lemma grewBy_trans s1 s2 s3 a b : grewBy s1 s2 a -> grewBy s2 s3 b -> grewBy s1 s3 (a ++ b).
Proof.
  intros (c1 & E1 & F1) (c2 & E2 & F2). exists (c1 ++ c2)%list. rewrite E2, E1, app_assoc. split; [done|].
  intros fi. by rewrite stated_app, map_app, F1, F2.
Qed.
Lemma grewBy_state s s' l : calls s' = calls s \/ calls s' = (calls s ++ [OnState l])%list -> grewBy s s' [].
Proof. intros [E|E]; [by apply grewBy_refl|]. by exists [OnState l]. Qed.

(** *** Seconds held since the frame began *)

(** [h] has been heard since the frame began at [nextFrameStartK]. *)
Definition held (h : list Sec) (s : Impl) : Prop :=
  recsOk s /\ anchored (anchor s) = true /\
  (nextFrameStartK (anchor s) - anchorSec0 (anchor s)) mod 60 = 0 /\
  exists pre, recs s = (pre ++ recsFrom (nextFrameStartK (anchor s)) h)%list /\
    recBase s + Z.of_nat (length pre) = nextFrameStartK (anchor s).

Lemma held_index h s : held h s -> secIndex s = nextFrameStartK (anchor s) + Z.of_nat (length h).
Proof. intros ([R _] & _ & _ & pre & E & B). rewrite E, length_app, recsFrom_length in R. lia. Qed.
Lemma held_eq h s s' : framing s' = framing s -> held h s -> held h s'.
Proof. unfold framing, held, recsOk. intros E. injection E as -> -> -> ->. done. Qed.
Lemma held_second h s : held h s -> (length h < 60)%nat -> secondOfFrame s = Z.of_nat (length h).
Proof.
  intros Hd L. pose proof (held_index h s Hd) as E. destruct Hd as (_ & A & M & _). unfold secondOfFrame. rewrite A, E.
  unfold kFrameSecs, cmod. set (n := nextFrameStartK _) in *. set (a := anchorSec0 _) in *.
  assert (M' : exists q, n - a = 60 * q) by (exists ((n - a) / 60); dlia). destruct M' as [q Q].
  replace (n + Z.of_nat (length h) - a) with (60 * q + Z.of_nat (length h)) by lia. dlia.
Qed.

Lemma pushed_held h s r : held h s -> (length h < 60)%nat ->
  let s' := pushed s r in
  held (h ++ [r]) s' /\ anchor s' = anchor s /\ secIndex s' = secIndex s + 1 /\ voter s' = voter s /\ grewBy s s' [] /\
  if contradicts s (Z.of_nat (length h)) r
  then slip s' = setSuspect (slip s) (secIndex s) /\ lockState s' <> LockLocked
  else slip s' = slip s /\ lockState s' = lockState s.
Proof.
  intros Hd L. cbv zeta. pose proof (held_second h s Hd L) as SF.
  unfold pushed. cbv zeta. rewrite SF.
  match goal with |- context [call (withLast ?x ?l) ?c] => set (s0 := x); set (s1 := call (withLast s0 l) c) end.
  assert (B0 : framing s0 = framing s /\ voter s0 = voter s /\ grewBy s s0 [] /\
    if contradicts s (Z.of_nat (length h)) r
    then slip s0 = setSuspect (slip s) (secIndex s) /\ lockState s0 <> LockLocked
    else slip s0 = slip s /\ lockState s0 = lockState s).
  { unfold s0. destruct (contradicts _ _ _); [|repeat (split; [done|]); split; [by apply grewBy_refl|done]].
    match goal with |- context [demote ?x] => destruct (wwv_demote_spec x) as (E1 & E2 & _ & E4 & E5 & E6) end.
    rewrite E1, E2, E4. repeat (split; [done|]). split; [|done]. by apply (grewBy_state s _ LockAcquiring). }
  destruct B0 as (B1 & B2 & B3 & B4).
  assert (C : framing s1 = framing s /\ voter s1 = voter s /\ grewBy s s1 [] /\ slip s1 = slip s0 /\ lockState s1 = lockState s0).
  { repeat (split; [done|]). split; [|done]. change (@nil (option Z * TimeFields)) with (@nil (option Z * TimeFields) ++ []).
    eapply grewBy_trans; [exact B3|]. by eexists [_]. }
  clearbody s1. destruct C as (C1 & C2 & C3 & C4 & C5). rewrite <- C4, <- C5 in B4. clear s0 B1 B2 B3 C4 C5.
  pose proof (held_eq h s s1 C1 Hd) as H1. pose proof (held_index h s1 H1) as I1.
  unfold framing in C1. injection C1 as F1 F2 F3 F4.
  destruct H1 as ([R1 R2] & A & M & pre & E & B). rewrite F3 in I1.
  assert (Ep : recs s1 ++ [MkRec (secIndex s) (edgeSample r) (sym r) (conf r) (fround (energy r))] =
               (pre ++ recsFrom (nextFrameStartK (anchor s1)) (h ++ [r]))%list).
  { rewrite recsFrom_app, app_assoc, E, I1. cbn. done. }
  rewrite Ep. clear Ep. set (l := (pre ++ _)%list).
  assert (Ll : length l = S (length (recs s1))).
  { unfold l. rewrite E, !length_app, !recsFrom_length, length_app. cbn. lia. }
  match goal with |- context [if anchored (anchor ?x) then _ else _] => set (s2 := x) end.
  assert (G : anchor s2 = anchor s1 /\ secIndex s2 = secIndex s + 1 /\ voter s2 = voter s1 /\ calls s2 = calls s1 /\
    slip s2 = slip s1 /\ lockState s2 = lockState s1) by (unfold s2; by destruct (_ <? _)%nat).
  destruct G as (G1 & G2 & G3 & G4 & G5 & G6). rewrite G1, A. rewrite G1, G2, G3, G5, G6.
  split; [|repeat (split; [congruence|]); split; [|exact B4]].
  2: { destruct C3 as (cs & C3 & C3'). exists cs. by rewrite G4. }
  unfold held. rewrite G1. split; [|split; [done|split; [done|]]].
  - unfold recsOk, s2. unfold kRecCap in *. destruct (Nat.ltb_spec 720 (length l)); cbn [recs recBase secIndex withRecs];
      rewrite ?length_drop; lia.
  - unfold s2. destruct (Nat.ltb_spec kRecCap (length l)); cbn [recs recBase withRecs]; [|by exists pre].
    destruct pre as [|p pre].
    { unfold l in *. cbn [app] in *. rewrite recsFrom_length, length_app in *. unfold kRecCap in *. cbn in *. lia. }
    exists pre. split; [done|]. cbn in *. lia.
Qed.

Lemma held_frame h s : held h s -> (60 <= length h)%nat ->
  (nextFrameStartK (anchor s) <? recBase s) = false /\
  frameAt (recs s) (Z.to_nat (nextFrameStartK (anchor s) - recBase s)) =
    recsFrom (nextFrameStartK (anchor s)) (take 60 h).
Proof.
  intros (_ & _ & _ & pre & E & B) L. split; [apply Z.ltb_ge; lia|].
  replace (Z.to_nat _) with (length pre) by lia. unfold frameAt. by rewrite E, drop_app_length, recsFrom_take.
Qed.

Section Clean.
Context `{Pow} (cfg : Config).
Hypotheses (Fields : fields cfg = wwvFields) (Win : (0 < window cfg)%nat)
           (Maps : mapsOk cfg = true) (Pows : powOk cfg (Z.of_nat (window cfg))).

Definition votedEnds (prev : option TimeFields) (s : Impl) : Prop :=
  match prev with
  | None => voter s = []
  | Some t => windowEnds cfg (voter s) t
  end.
Definition nextAfter (prev : option TimeFields) (t : TimeFields) : Prop :=
  match prev with Some p => t = advanceMinutes p 1 | None => True end.

(** Nothing is held against the frame that is being heard. *)
Definition calm (s : Impl) : Prop :=
  0 <= nextFrameStartK (anchor s) /\ suspectSec (slip s) < nextFrameStartK (anchor s) /\ lastRealignK (slip s) <= nextFrameStartK (anchor s).

Section Frame.
Context (t : TimeFields) (secs : list Sec) (Sends : sendsMinute cfg t secs).

Lemma sends_symbols k : (k < 60)%nat ->
  symb_eqb (nth k (map sym secs) SymUnknown) SymMarker = isMarkerSec (Z.of_nat k).
Proof. destruct Sends as (_ & _ & M & _). apply M. Qed.

Lemma skeleton_fold (syms : list ClockSymbol) (g : nat -> bool) l :
  (forall s, In s l -> symb_eqb (nth s syms SymUnknown) SymMarker = g s) -> forall k0,
  fold_left (fun '(MkSkel ok fa la ea) s =>
    let z := Z.of_nat s in
    if symb_eqb (nth s syms SymUnknown) SymMarker
    then MkSkel (if isMarkerSec z then ok + 1 else ok) (if isMarkerSec z then fa else fa + 1)
                (if cmod z 10 =? 0 then la + 1 else la) (if cmod z 10 =? 8 then ea + 1 else ea)
    else MkSkel ok fa la ea) l k0 =
  fold_left (fun '(MkSkel ok fa la ea) s =>
    let z := Z.of_nat s in
    if g s
    then MkSkel (if isMarkerSec z then ok + 1 else ok) (if isMarkerSec z then fa else fa + 1)
                (if cmod z 10 =? 0 then la + 1 else la) (if cmod z 10 =? 8 then ea + 1 else ea)
    else MkSkel ok fa la ea) l k0.
Proof.
  induction l as [|s l IH]; intros E k0; [done|]. cbn [fold_left]. destruct k0 as [a b c d]. cbv zeta.
  rewrite (E s (or_introl eq_refl)). apply IH. intros s' Hs. apply E. by right.
Qed.
Lemma sends_skeleton : skeleton (map sym secs) = MkSkel 6 0 0 0.
Proof.
  unfold skeleton. rewrite (skeleton_fold _ (fun s => isMarkerSec (Z.of_nat s))); [reflexivity|].
  intros s Hs. apply in_seq in Hs. apply sends_symbols. lia.
Qed.
(** A second late: the minute's first 59 seconds after a second that is no marker. *)
Lemma late_skeleton x : symb_eqb x SymMarker = false ->
  skeleton (x :: take 59 (map sym secs)) = MkSkel 0 5 5 0.
Proof.
  intros X. unfold skeleton. rewrite (skeleton_fold _ (fun s => if (s =? 0)%nat then false else isMarkerSec (Z.of_nat s - 1))); [reflexivity|].
  intros s Hs. apply in_seq in Hs. destruct s as [|s]; [exact X|]. cbn [nth Nat.eqb].
  replace (Z.of_nat (S s) - 1) with (Z.of_nat s) by lia. rewrite <- sends_symbols by lia. f_equal.
  rewrite !nth_lookup, lookup_take_lt by lia. done.
Qed.

Lemma sends_time st start :
  fi_fields (decodeFrame st (map sym secs) (map conf secs) start) = t /\
  fi_leapPending (decodeFrame st (map sym secs) (map conf secs) start) = bit (map sym secs) 3.
Proof.
  destruct Sends as (V & _ & _ & _ & T & _). split; [|done].
  pose proof (transmits_raw cfg _ t Maps V T) as R. unfold rawFields, decodeField in R. rewrite Fields in R.
  cbn [fi_fields decodeFrame]. rewrite !(sumField_decodes _ (map conf secs)); [exact R|..]; reflexivity.
Qed.

Lemma wwv_window_next prev fs :
  nextAfter prev t -> match prev with None => fs = [] | Some p => windowEnds cfg fs p end ->
  windowEnds cfg (addFrame cfg fs (MkFrame (map sym secs) (map conf secs))) t.
Proof.
  intros N W. destruct Sends as (V & _ & _ & Ok & T & _). destruct prev as [p|].
  - cbn in N. rewrite N in T |- *. by apply window_next.
  - subst fs. by apply window_first.
Qed.

(** What a clean minute's frame comes to. *)
Lemma takeFrame_clean prev st s k0 :
  votedEnds prev s -> nextAfter prev t -> suspectSec (slip s) < nextFrameStartK (anchor s) ->
  let f := recsFrom k0 secs in
  exists s', takeFrame cfg s st f (skeleton (map r_sym f)) = Onward s' /\
    framing s' = framing (nextFrame s 60) /\ windowEnds cfg (voter s') t /\ lastFields (slip s') = Some t /\
    suspectSec (slip s') = suspectSec (slip s) /\ lastRealignK (slip s') = lastRealignK (slip s) /\
    (bit (map sym secs) 3 = true -> endsMonth t = true -> lockState s' <> LockLocked) /\
    exists new, grewBy s s' new /\ new `sublist_of` [(edgeSample <$> secs !! 0%nat, t)] /\
      (bit (map sym secs) 3 = true -> endsMonth t = true -> new = []).
Proof.
  intros V N Su. cbv zeta. unfold takeFrame. cbv zeta. destruct (recsFrom_map secs k0) as [-> ->]. rewrite sends_skeleton.
  unfold kFrameSecs. destruct (Z.leb_spec (nextFrameStartK (anchor s)) (suspectSec (slip s))) as [|_]; [lia|]. cbn [andb].
  destruct (sends_time st (r_edge (nth 0 (recsFrom k0 secs) noRec))) as [D1 D2].
  set (fi := decodeFrame _ _ _ _) in *.
  assert (D3 : edgeSample <$> secs !! 0%nat = Some (fi_start fi)).
  { destruct Sends as (_ & L & _). unfold fi. by destruct secs. }
  clearbody fi. set (s1 := call s (OnFrame fi)).
  change (skeletonOk (MkSkel 6 0 0 0)) with true. cbn match. change (3 <=? 0) with false. cbn match.
  set (s2 := withSlip s1 (setStreak (slip s1) 0)).
  assert (E2 : framing s2 = framing s /\ voter s2 = voter s /\ slip s2 = setStreak (slip s) 0 /\
    calls s2 = (calls s ++ [OnFrame fi])%list /\ anchor s2 = anchor s) by done.
  destruct E2 as (E2 & E3 & E4 & E5 & E6). clearbody s2.
  set (s3 := vote cfg s2 _). assert (W : windowEnds cfg (voter s3) t).
  { apply (wwv_window_next prev); [done|]. by rewrite E3. }
  set (c := l_locked (lockVerdict cfg (voter s3))).
  assert (VT : votedNow cfg (voter s3) = t).
  { unfold votedNow. rewrite votedFields_timestamp. by apply windowEnds_voted. }
  destruct (noteMinute cfg s3 fi false c) as [s4 ln] eqn:E.
  unfold noteMinute in E. rewrite VT, D1 in E. replace (if c then t else t) with t in E by (by destruct c).
  cbv zeta in E. cbn [negb andb] in E. injection E as <- <-.
  set (ln := _ && _). match goal with |- context [certify _ ?x _ _ _ _ _] => set (s4 := x) end.
  assert (F : framing s4 = framing s2 /\ voter s4 = voter s3 /\ calls s4 = calls s2) by done.
  assert (G : lastFields (slip s4) = Some t /\ suspectSec (slip s4) = suspectSec (slip s) /\
    lastRealignK (slip s4) = lastRealignK (slip s)). { unfold s4. cbn. by rewrite E4. }
  destruct F as (F1 & F2 & F3). destruct G as (G1 & G2 & G3).
  destruct (certify_spec cfg s4 st c false ln true) as (C1 & C2 & _ & C4 & new & C5 & C7 & C6).
  set (s5 := certify _ _ _ _ _ _ _) in *.
  assert (LS : ln = true -> lockState s5 <> LockLocked).
  { intros El. unfold s5, certify. rewrite El, andb_true_r. destruct c; cbn [andb orb negb]; apply wwv_demote_spec. }
  exists (nextFrame s5 60). split; [done|].
  split. { unfold framing in C1, F1, E2. cbn in F1. injection C1 as C11 C12 C13 C14.
    injection E2 as E21 E22 E23 _. unfold framing. cbn. by rewrite C11, C12, C13, C14, <- E21, <- E22, <- E23, <- E6. }
  change (slip (nextFrame s5 60)) with (slip s5). change (voter (nextFrame s5 60)) with (voter s5).
  change (lockState (nextFrame s5 60)) with (lockState s5). rewrite C2, C4, F2. split; [exact W|].
  repeat (split; [done|]). split.
  - intros B EM. apply LS. unfold ln. rewrite D2, B. cbn [orb andb]. exact EM.
  - exists (map (fun p => (fi_start <$> fst p, ti_fields (snd p))) (stated (Some fi) new)). split.
    + exists (OnFrame fi :: new). split; [change (calls (nextFrame s5 60)) with (calls s5); rewrite C5, F3, E5, <- app_assoc; done|done].
    + split.
      2: { intros B EM. assert (El : ln = true) by (unfold ln; rewrite D2, B; exact EM). rewrite El in C6. clear - C6.
        induction C6 as [|x l P F IH]; [done|]. destruct x; cbn in *; try done. by destruct P as (_ & _ & ? & _). }
      rewrite D3. rewrite F2, VT in C6. clear - C6 C7.
      assert (One : forall l, Forall (fun c => match c with OnTime x => ti_fields x = t | OnState _ => True | _ => False end) l ->
        map (fun p => (fi_start <$> fst p, ti_fields (snd p))) (stated (Some fi) l) =
        map (fun _ => (Some (fi_start fi), t)) (omap (fun c => match c with OnTime t => Some t | _ => None end) l)).
      { intros l F. induction F as [|x l P F IH]; [done|]. destruct x; cbn in *; try done. by rewrite P, IH. }
      rewrite One. { destruct (omap _ new) as [|x [|]]; cbn in *; [apply sublist_nil_l|done|lia]. }
      eapply Forall_impl; [exact C6|]. intros [] P; try done. destruct P as (_ & _ & _ & _ & _ & ->). done.
Qed.

Lemma feed_idle st fuel s :
  (0 < fuel)%nat -> secIndex s - nextFrameStartK (anchor s) < 60 -> feed cfg fuel st s = Some (Onward s).
Proof using Type.
  clear Win Pows. intros F I. destruct fuel as [|fuel]; [lia|]. cbn [feed]. cbv zeta. unfold kFrameSecs.
  by destruct (Z.leb_spec (nextFrameStartK (anchor s) + (60 - 1)) (secIndex s - 1)); [lia|].
Qed.

(** [h] of a frame is heard, after the minute [prev]. *)
Definition into (prev : option TimeFields) (h : list Sec) (s : Impl) : Prop :=
  held h s /\ calm s /\ votedEnds prev s.
(** The last second was a leap second, and the count is one behind since. *)
Definition late (prev : option TimeFields) (h : list Sec) (s : Impl) : Prop :=
  held h s /\ 0 <= nextFrameStartK (anchor s) /\ lastRealignK (slip s) < nextFrameStartK (anchor s) /\
  votedEnds prev s /\ lockState s <> LockLocked.

Lemma record_short st s r h : held h s -> (length h < 59)%nat ->
  recordSecond cfg st s r = Some (Onward (pushed s r)).
Proof.
  intros Hd L. rewrite record_pushed. destruct (pushed_held h s r Hd ltac:(lia)) as (H' & Ea & _).
  pose proof (held_index _ _ H') as I. rewrite length_app in I. cbn in I. unfold feedPendingFrames.
  destruct (anchored _); [|done]. apply feed_idle; [unfold feedFuel; lia|lia].
Qed.

Lemma last_record s pre n h p :
  recs s = (pre ++ recsFrom n (h ++ [p]))%list ->
  List.last (map Some (recs s)) None =
  Some (MkRec (n + Z.of_nat (length h)) (edgeSample p) (sym p) (conf p) (fround (energy p))).
Proof.
  intros ->. rewrite recsFrom_app. cbn [recsFrom]. rewrite app_assoc, map_app. cbn [map]. by rewrite last_last.
Qed.

Lemma clean_agrees prev s r k :
  into prev (take k secs) s -> secs !! k = Some r -> (k < 60)%nat -> contradicts s (Z.of_nat k) r = false.
Proof.
  intros ((_ & _ & _ & pre & E & _) & _) Er K. destruct Sends as (_ & L & _ & _ & _ & Q).
  unfold contradicts. destruct k as [|k].
  { destruct (List.last _ _); [|done]. change (0 <? Z.of_nat 0) with false. by rewrite andb_false_r. }
  destruct (lookup_lt_is_Some_2 secs k ltac:(lia)) as [p Ep].
  rewrite (take_S_r secs k p Ep) in E. rewrite (last_record s pre _ _ p E). unfold isMark. cbn [rk r_sym r_conf r_energy].
  pose proof (sends_symbols (S k) K) as Mr. pose proof (sends_symbols k ltac:(lia)) as Mp.
  rewrite nth_lookup, list_lookup_fmap, Er in Mr. rewrite nth_lookup, list_lookup_fmap, Ep in Mp. cbn in Mr, Mp.
  rewrite Mr, Mp. set (sure := (kStructConf <=? conf r)%D).
  assert (M : isMarkerSec (Z.of_nat (S k)) && (cmod (Z.of_nat (S k)) 10 =? 0) = false).
  { unfold isMarkerSec. destruct (Z.eqb_spec (cmod (Z.of_nat (S k)) 10) 9) as [->|]; done. }
  assert (M' : negb (isMarkerSec (Z.of_nat (S k))) && isMarkerSec (Z.of_nat (S k)) = false) by (by destruct (isMarkerSec _)).
  assert (T : (Z.of_nat (S k) =? 1) && (energy r <? 0.5 * fround (energy p))%D = false).
  { destruct (Z.eqb_spec (Z.of_nat (S k)) 1) as [K1|]; [|done]. assert (k = 0)%nat as -> by lia. by apply Q. }
  destruct sure; cbn [andb orb].
  - rewrite M. cbn [andb orb]. rewrite M'. cbn [andb orb].
    destruct (Z.of_nat (S k) =? 1); cbn [andb] in T |- *; rewrite ?T, ?andb_false_r; done.
  - destruct (Z.of_nat (S k) =? 1); cbn [andb] in T |- *; rewrite ?T, ?andb_false_r; done.
Qed.

Lemma second_clean prev st s r k :
  into prev (take k secs) s -> secs !! k = Some r -> (k < 59)%nat ->
  exists s', recordSecond cfg st s r = Some (Onward s') /\ into prev (take (S k) secs) s' /\ grewBy s s' [] /\
    lastRealignK (slip s') = lastRealignK (slip s) /\ anchor s' = anchor s.
Proof.
  intros In Er K. pose proof (clean_agrees prev s r k In Er ltac:(lia)) as C. destruct In as (Hd & Cm & V).
  assert (L : length (take k secs) = k). { rewrite length_take. pose proof (lookup_lt_Some _ _ _ Er). lia. }
  exists (pushed s r). split; [apply (record_short st s r _ Hd); lia|].
  destruct (pushed_held _ s r Hd ltac:(lia)) as (H' & Ea & Ei & Ev & G & Sl). rewrite L, C in Sl. destruct Sl as [Sl Lk].
  rewrite <- (take_S_r secs k r Er) in H'. split; [|by rewrite Sl].
  split; [exact H'|]. unfold calm. rewrite Sl, Ea. split; [exact Cm|]. destruct prev; cbn in *; by rewrite Ev.
Qed.

(** The minute ends. *)
Lemma feed_minute prev st s fuel h :
  into prev (secs ++ h) s -> nextAfter prev t -> (0 < fuel)%nat ->
  exists s' new, feed cfg (S fuel) st s = feed cfg fuel st s' /\ into (Some t) h s' /\
    lastRealignK (slip s') < nextFrameStartK (anchor s') /\ lastFields (slip s') = Some t /\
    (bit (map sym secs) 3 = true -> endsMonth t = true -> lockState s' <> LockLocked) /\
    grewBy s s' new /\ new `sublist_of` [(edgeSample <$> secs !! 0%nat, t)] /\
      (bit (map sym secs) 3 = true -> endsMonth t = true -> new = []).
Proof.
  intros (Hd & (C0 & C1 & C2) & V) N F. pose proof (held_index _ _ Hd) as I. destruct Sends as (_ & L & _).
  rewrite length_app in I. destruct (held_frame _ s Hd) as [B Fr]; [rewrite length_app; lia|].
  rewrite (take_app_length' secs h 60) in Fr by done.
  cbn [feed]. cbv zeta. unfold kFrameSecs. destruct (Z.leb_spec (nextFrameStartK (anchor s) + (60 - 1)) (secIndex s - 1)); [|lia].
  rewrite B, Fr, recsFrom_length, L. cbn [Nat.eqb negb].
  pose proof (takeFrame_clean prev st s (nextFrameStartK (anchor s)) V N C1) as T. cbv zeta in T.
  destruct T as (s' & T & T1 & T2 & T3 & T4 & T5 & T6 & new & T7 & T8 & T9).
  destruct (recsFrom_map secs (nextFrameStartK (anchor s))) as [Ms _]. rewrite T, Ms, sends_skeleton.
  change (slipped (MkSkel 6 0 0 0)) with false. cbn match. exists s', new. split; [done|].
  unfold framing in T1. cbn in T1. injection T1 as T11 T12 T13 T14.
  assert (E : nextFrameStartK (anchor s') = nextFrameStartK (anchor s) + 60) by (by rewrite T14).
  split; [|split; [rewrite T5, E; lia|by repeat (split; [done|])]].
  split; [|split; [unfold calm; rewrite T4, T5, E; lia|exact T2]].
  destruct Hd as (R & A & M & pre & Er & Eb). unfold held, recsOk. rewrite T11, T12, T13, T14. cbn.
  split; [exact R|]. split; [exact A|]. split; [dlia|].
  exists (pre ++ recsFrom (nextFrameStartK (anchor s)) secs)%list. rewrite Er, recsFrom_app, app_assoc, L.
  split; [done|]. rewrite length_app, recsFrom_length, L. lia.
Qed.

Lemma second_last prev st s r :
  into prev (take 59 secs) s -> nextAfter prev t -> secs !! 59%nat = Some r ->
  exists s' new, recordSecond cfg st s r = Some (Onward s') /\ into (Some t) [] s' /\
    lastRealignK (slip s') < nextFrameStartK (anchor s') /\
    (bit (map sym secs) 3 = true -> endsMonth t = true -> lockState s' <> LockLocked) /\
    grewBy s s' new /\ new `sublist_of` [(edgeSample <$> secs !! 0%nat, t)] /\
      (bit (map sym secs) 3 = true -> endsMonth t = true -> new = []).
Proof.
  intros In N Er. pose proof (clean_agrees prev s r 59 In Er ltac:(lia)) as C. destruct In as (Hd & Cm & V).
  assert (Lk : length secs = 60%nat) by (by destruct Sends as (_ & ? & _)).
  assert (L : length (take 59 secs) = 59%nat) by (rewrite length_take; lia).
  destruct (pushed_held _ s r Hd ltac:(lia)) as (H' & Ea & Ei & Ev & G & Sl). rewrite L, C in Sl. destruct Sl as [Sl _].
  rewrite <- (take_S_r secs 59 r Er), take_ge in H' by lia. rewrite record_pushed. unfold feedPendingFrames.
  assert (A : anchored (anchor (pushed s r)) = true) by apply H'. rewrite A.
  unfold feedFuel. set (fuel := Z.to_nat _). assert (Fu : (0 < fuel)%nat).
  { unfold fuel. pose proof (held_index _ _ H'). lia. }
  clearbody fuel. destruct (feed_minute prev st (pushed s r) fuel []) as (s' & new & F & I' & R1 & _ & R2 & G' & S' & Q').
  { rewrite app_nil_r. split; [exact H'|]. unfold calm. rewrite Sl, Ea. split; [exact Cm|].
    destruct prev; cbn in *; by rewrite Ev. }
  { done. } { done. }
  exists s', new. rewrite F. split.
  { apply feed_idle; [done|]. destruct I' as (Hd' & _). pose proof (held_index _ _ Hd') as X. cbn in X. lia. }
  repeat (split; [done|]). split; [|done]. exact (grewBy_trans _ _ _ _ _ G G').
Qed.

(** *** After a leap second *)

Lemma late_second prev st s r h :
  late prev h s -> (1 <= length h < 59)%nat ->
  exists s', recordSecond cfg st s r = Some (Onward s') /\ late prev (h ++ [r]) s' /\ grewBy s s' [].
Proof.
  intros (Hd & C0 & C1 & V & Lk) K. exists (pushed s r). split; [apply (record_short st s r _ Hd); lia|].
  destruct (pushed_held _ s r Hd ltac:(lia)) as (H' & Ea & Ei & Ev & G & Sl). split; [|done].
  split; [exact H'|]. rewrite Ea. split; [exact C0|].
  destruct (contradicts _ _ _); destruct Sl as [Sl L']; rewrite Sl; (split; [exact C1|]);
    (split; [destruct prev; cbn in *; by rewrite Ev|]); [done|congruence].
Qed.

(** Sixty seconds on, the skeleton is a second late: the frame begins again a
    second later, and nothing is said. *)
Lemma late_realigned prev st s x r :
  late prev (x :: take 58 secs) s -> symb_eqb (sym x) SymMarker = false -> secs !! 58%nat = Some r ->
  exists s', recordSecond cfg st s r = Some (Onward s') /\ into prev (take 59 secs) s' /\ grewBy s s' [].
Proof.
  intros (Hd & C0 & C1 & V & Lk) X Er. assert (L : length secs = 60%nat) by (by destruct Sends as (_ & ? & _)).
  assert (Lh : length (x :: take 58 secs) = 59%nat) by (cbn; rewrite length_take; lia).
  destruct (pushed_held _ s r Hd ltac:(lia)) as (H' & Ea & Ei & Ev & G & Sl).
  cbn [app] in H'. rewrite <- (take_S_r secs 58 r Er) in H'. rewrite record_pushed.
  set (s1 := pushed s r) in *.
  assert (K : lastRealignK (slip s1) < nextFrameStartK (anchor s1) /\ 0 <= nextFrameStartK (anchor s1) /\
    lockState s1 <> LockLocked /\ votedEnds prev s1).
  { rewrite Ea. destruct (contradicts _ _ _); destruct Sl as [Sl L']; rewrite Sl; (split; [exact C1|]); (split; [exact C0|]);
      (split; [congruence|destruct prev; cbn in *; by rewrite Ev]). }
  destruct K as (K1 & K2 & K3 & K4). clearbody s1. clear Sl Ea Ei Ev Hd C0 C1 V Lk.
  pose proof (held_index _ _ H') as I. cbn [length] in I. rewrite length_take in I.
  unfold feedPendingFrames. assert (A : anchored (anchor s1) = true) by apply H'. rewrite A.
  unfold feedFuel. set (fuel := Z.to_nat _). assert (Fu : (0 < fuel)%nat) by (unfold fuel; lia). clearbody fuel.
  destruct (held_frame _ s1 H') as [B Fr]; [cbn; rewrite length_take; lia|].
  cbn [feed]. cbv zeta. unfold kFrameSecs. destruct (Z.leb_spec (nextFrameStartK (anchor s1) + (60 - 1)) (secIndex s1 - 1)); [|lia].
  rewrite B, Fr. change (take 60 (x :: take 59 secs)) with (x :: take 59 (take 59 secs)). rewrite take_take, Nat.min_id.
  rewrite recsFrom_length. cbn [length]. rewrite length_take, L. cbn [Nat.min Nat.eqb negb].
  destruct (recsFrom_map (x :: take 59 secs) (nextFrameStartK (anchor s1))) as [Ms _]. rewrite Ms. cbn [map].
  replace (map sym (take 59 secs)) with (take 59 (map sym secs)) by (symmetry; exact (fmap_take sym 59 secs)).
  rewrite late_skeleton by done. change (slipped (MkSkel 0 5 5 0)) with true. cbn match.
  unfold realign. cbv zeta. destruct (Z.eqb_spec (nextFrameStartK (anchor s1)) (lastRealignK (slip s1))); [lia|].
  cbn [mkEarly mkLate]. change (0 <=? 5) with true. cbn match.
  match goal with |- context [demote ?y] => set (s2 := y) end.
  destruct (wwv_demote_spec s2) as (D1 & D2 & D3 & D4 & D5 & D6).
  assert (H2 : held (take 59 secs) s2).
  { destruct H' as (R & _ & M & pre & E & Eb). unfold held, s2, recsOk. cbn.
    split; [exact R|]. split; [exact A|]. split; [dlia|].
    exists (pre ++ [MkRec (nextFrameStartK (anchor s1)) (edgeSample x) (sym x) (conf x) (fround (energy x))])%list.
    rewrite E, <- app_assoc. split; [done|]. rewrite length_app. cbn. lia. }
  exists (demote s2). split.
  { apply feed_idle; [done|]. pose proof (held_index _ _ (held_eq _ s2 _ D1 H2)) as X2. rewrite length_take in X2. lia. }
  split; [|].
  - split; [by apply (held_eq _ s2)|]. unfold calm. unfold framing in D1. injection D1 as _ _ _ ->. rewrite D2.
    unfold votedEnds in *. rewrite D4. split; [unfold s2; cbn; lia|exact K4].
  - change (@nil (option Z * TimeFields)) with (@nil (option Z * TimeFields) ++ []). eapply grewBy_trans; [exact G|].
    by apply (grewBy_state _ _ LockAcquiring).
Qed.

(** *** Whole minutes *)

Definition hear (st : ClockStation) (s : Impl) (l : list Sec) : option Impl := run cfg s (map (ESecond st) l).
Lemma hear_app st a b s : hear st s (a ++ b) = (s' ← hear st s a; hear st s' b).
Proof.
  unfold hear. rewrite map_app. revert s. induction a as [|r a IH]; intros s; [done|]. cbn [map app run].
  destruct (step cfg s (ESecond st r)); cbn [mbind option_bind]; [apply IH|done].
Qed.
Lemma hear_one st s r s' : recordSecond cfg st s r = Some (Onward s') -> hear st s [r] = Some s'.
Proof. intros E. unfold hear. cbn [map run step]. by rewrite E. Qed.

Lemma hear_prefix prev st s j : into prev [] s -> lastRealignK (slip s) < nextFrameStartK (anchor s) -> (j <= 59)%nat ->
  exists s', hear st s (take j secs) = Some s' /\ into prev (take j secs) s' /\ grewBy s s' [].
Proof.
  intros I0 C J. induction j as [|j IH]; [exists s; split; [done|]; split; [done|by apply grewBy_refl]|].
  destruct IH as (s1 & E1 & I1 & G1); [lia|]. destruct Sends as (_ & L & _).
  destruct (lookup_lt_is_Some_2 secs j ltac:(lia)) as [r Er].
  destruct (second_clean prev st s1 r j I1 Er ltac:(lia)) as (s2 & E2 & I2 & G2 & _).
  exists s2. rewrite (take_S_r secs j r Er) at 1. rewrite hear_app, E1. cbn [mbind option_bind].
  split; [by apply hear_one|]. split; [done|]. exact (grewBy_trans _ _ _ _ _ G1 G2).
Qed.
Lemma hear_late prev st s x j : late prev [x] s -> (j <= 58)%nat ->
  exists s', hear st s (take j secs) = Some s' /\ late prev (x :: take j secs) s' /\ grewBy s s' [].
Proof.
  intros I0 J. induction j as [|j IH]; [exists s; split; [done|]; split; [done|by apply grewBy_refl]|].
  destruct IH as (s1 & E1 & I1 & G1); [lia|]. destruct Sends as (_ & L & _).
  destruct (lookup_lt_is_Some_2 secs j ltac:(lia)) as [r Er].
  destruct (late_second prev st s1 r _ I1) as (s2 & E2 & I2 & G2); [cbn; rewrite length_take; lia|].
  exists s2. rewrite (take_S_r secs j r Er) at 1. rewrite hear_app, E1. cbn [mbind option_bind].
  split; [by apply hear_one|]. split; [|exact (grewBy_trans _ _ _ _ _ G1 G2)].
  by rewrite (take_S_r secs j r Er).
Qed.

(** Where a minute ends: [leapt] when a leap second has been heard since. *)
Definition boundary (prev : option TimeFields) (leapt : bool) (s : Impl) : Prop :=
  if leapt then exists x, symb_eqb (sym x) SymMarker = false /\ late prev [x] s
  else into prev [] s /\ lastRealignK (slip s) < nextFrameStartK (anchor s).

Lemma hear_59 prev leapt st s : boundary prev leapt s ->
  exists s', hear st s (take 59 secs) = Some s' /\ into prev (take 59 secs) s' /\ grewBy s s' [].
Proof.
  intros B. destruct leapt; [|destruct B; by apply hear_prefix]. destruct B as (x & X & Lt).
  destruct (hear_late prev st s x 58 Lt ltac:(lia)) as (s1 & E1 & L1 & G1). destruct Sends as (_ & L & _).
  destruct (lookup_lt_is_Some_2 secs 58 ltac:(lia)) as [r Er].
  destruct (late_realigned prev st s1 x r L1 X Er) as (s2 & E2 & I2 & G2).
  exists s2. rewrite (take_S_r secs 58 r Er) at 1. rewrite hear_app, E1. cbn [mbind option_bind].
  split; [by apply hear_one|]. split; [done|]. exact (grewBy_trans _ _ _ _ _ G1 G2).
Qed.

Lemma hear_minute prev leapt st s : boundary prev leapt s -> nextAfter prev t ->
  exists s' new, hear st s secs = Some s' /\ boundary (Some t) false s' /\
    (bit (map sym secs) 3 = true -> endsMonth t = true -> lockState s' <> LockLocked) /\
    grewBy s s' new /\ new `sublist_of` [(edgeSample <$> secs !! 0%nat, t)] /\
      (bit (map sym secs) 3 = true -> endsMonth t = true -> new = []).
Proof.
  intros B N. destruct (hear_59 prev leapt st s B) as (s1 & E1 & I1 & G1). assert (L : length secs = 60%nat) by apply Sends.
  destruct (lookup_lt_is_Some_2 secs 59 ltac:(lia)) as [r Er].
  destruct (second_last prev st s1 r I1 N Er) as (s2 & new & E2 & I2 & R2 & Lk & G2 & S2 & Q2).
  exists s2, new. rewrite <- (take_ge secs 60) at 1 by lia. rewrite (take_S_r secs 59 r Er), hear_app, E1.
  cbn [mbind option_bind]. split; [by apply hear_one|]. repeat (split; [done|]).
  split; [exact (grewBy_trans _ _ _ _ _ G1 G2)|done].
Qed.
End Frame.

Lemma hear_leap t st s x : boundary (Some t) false s -> lockState s <> LockLocked -> symb_eqb (sym x) SymMarker = false ->
  exists s', hear st s [x] = Some s' /\ boundary (Some t) true s' /\ grewBy s s' [].
Proof.
  intros [(Hd & (C0 & C1 & C2) & V) R] Lk X. exists (pushed s x).
  destruct (pushed_held _ s x Hd ltac:(cbn; lia)) as (H' & Ea & Ei & Ev & G & Sl).
  split; [apply hear_one, (record_short st s x _ Hd); cbn; lia|]. split; [|done]. exists x. split; [done|].
  split; [exact H'|]. rewrite Ea. split; [done|].
  destruct (contradicts _ _ _); destruct Sl as [Sl L']; rewrite Sl; (split; [exact R|]); unfold votedEnds in *; rewrite Ev;
    (split; [exact V|congruence]).
Qed.

(** *** A run of minutes *)

Definition cleanRun (t : TimeFields) (ms : list Minute) : Prop :=
  forall i m, ms !! i = Some m -> m_time m = advanceMinutes t (Z.of_nat i) /\ cleanMinute cfg m.
Definition sent (ms : list Minute) : list (option Z * TimeFields) :=
  map (fun m => (edgeSample <$> m_secs m !! 0%nat, m_time m)) ms.
(** What may be said: not the minute a leap second ends. *)
Definition plain (m : Minute) : bool := negb (bool_decide (is_Some (m_leap m))).
Definition truth (ms : list Minute) : list (option Z * TimeFields) := sent (List.filter plain ms).

Lemma cleanRun_tail t m ms : rangeValid t = true -> cleanRun t (m :: ms) ->
  m_time m = t /\ cleanMinute cfg m /\ cleanRun (advanceMinutes t 1) ms.
Proof using Type.
  clear Win Pows. intros V C. destruct (C 0%nat m eq_refl) as [Tm Cm]. rewrite advanceMinutes_0 in Tm by done. split; [done|]. split; [done|].
  intros i m' Hi. destruct (C (S i) m' Hi) as [T' C']. split; [|done]. rewrite T', advanceMinutes_add by (done || lia).
  f_equal. lia.
Qed.

Lemma hear_run st ms : forall t prev leapt s,
  rangeValid t = true -> cleanRun t ms -> boundary prev leapt s -> nextAfter prev t ->
  exists s' new, hear st s (concat (map heard ms)) = Some s' /\ grewBy s s' new /\ new `sublist_of` truth ms.
Proof.
  induction ms as [|m ms IH]; intros t prev leapt s V C B N.
  { exists s, []. split; [done|]. split; [by apply grewBy_refl|apply sublist_nil_l]. }
  destruct (cleanRun_tail t m ms V C) as (Tm & [Sd Lp] & C'). rewrite Tm in Sd, Lp.
  destruct (hear_minute t (m_secs m) Sd prev leapt st s B N) as (s1 & n1 & E1 & B1 & Lk & G1 & S1 & Q1).
  assert (X : exists s2, hear st s (heard m) = Some s2 /\ boundary (Some t) (bool_decide (is_Some (m_leap m))) s2 /\ grewBy s s2 n1).
  { unfold heard. destruct (m_leap m) as [x|]; cbn [from_option]; [|rewrite app_nil_r; by exists s1].
    destruct Lp as (Mk & Bt & EM). destruct (hear_leap t st s1 x B1 (Lk Bt EM) Mk) as (s2 & E2 & B2 & G2).
    exists s2. rewrite hear_app, E1. split; [exact E2|]. split; [exact B2|].
    rewrite <- (app_nil_r n1). exact (grewBy_trans _ _ _ _ _ G1 G2). }
  destruct X as (s2 & E2 & B2 & G2).
  destruct (IH (advanceMinutes t 1) (Some t) _ s2 (advanceMinutes_valid t 1 V ltac:(lia)) C' B2 eq_refl) as (s3 & n3 & E3 & G3 & S3).
  exists s3, (n1 ++ n3)%list. cbn [map concat]. rewrite hear_app, E2. split; [exact E3|].
  split; [exact (grewBy_trans _ _ _ _ _ G2 G3)|]. unfold truth, plain in *. cbn [List.filter].
  destruct (m_leap m) as [x|].
  - destruct Lp as (_ & Bt & EM). rewrite (Q1 Bt EM). exact S3.
  - rewrite bool_decide_eq_false_2 by (by intros []). cbn [negb sent map]. rewrite Tm. exact (sublist_app _ _ _ _ S1 S3).
Qed.
End Clean.

(** ** Lemmas: finding the minute *)

Definition nfAt (rs : list Rec) (off : nat) : nat := ((length rs - off) / 60)%nat.
Definition pickFit (rs : list Rec) (best : Fit) (off : nat) : Fit :=
  if ((length rs - off) / 60 <? 2)%nat then best
  else let f := fitAt rs off in if f_score best <? f_score f then f else best.

Lemma bestFit_eq rs : bestFit rs = fold_left (pickFit rs) (seq 0 60) noFit.
Proof. reflexivity. Qed.
Lemma pick_cases rs l : forall b,
  fold_left (pickFit rs) l b = b \/
  exists off, In off l /\ (2 <= nfAt rs off)%nat /\ fold_left (pickFit rs) l b = fitAt rs off.
Proof.
  induction l as [|off l IH]; intros b; [by left|]. cbn [fold_left]. destruct (IH (pickFit rs b off)) as [E|(o' & I' & N' & E)].
  2: { right. exists o'. split; [by right|done]. }
  rewrite E. unfold pickFit. destruct (Nat.ltb_spec ((length rs - off) / 60) 2); [by left|]. cbv zeta.
  destruct (_ <? _); [|by left]. right. exists off. split; [by left|done].
Qed.
(** An alignment that beats every other is the one chosen. *)
Lemma pick_winner rs o l : forall b,
  f_score b < f_score (fitAt rs o) \/ b = fitAt rs o ->
  (2 <= nfAt rs o)%nat ->
  (forall off, In off l -> (2 <= nfAt rs off)%nat -> off = o \/ f_score (fitAt rs off) < f_score (fitAt rs o)) ->
  In o l \/ b = fitAt rs o -> fold_left (pickFit rs) l b = fitAt rs o.
Proof.
  induction l as [|off l IH]; intros b B N W I; [by destruct I|]. cbn [fold_left].
  assert (P : (f_score (pickFit rs b off) < f_score (fitAt rs o) \/ pickFit rs b off = fitAt rs o) /\
    (off = o -> pickFit rs b off = fitAt rs o) /\ (b = fitAt rs o -> pickFit rs b off = fitAt rs o)).
  { unfold pickFit. fold (nfAt rs off). destruct (Nat.ltb_spec (nfAt rs off) 2) as [S|S].
    { split; [done|]. split; [intros ->; lia|done]. }
    cbv zeta. specialize (W off (or_introl eq_refl) S).
    destruct (Z.ltb_spec (f_score b) (f_score (fitAt rs off))) as [Lt|Le].
    - split; [destruct W as [->|W]; auto|]. split; [by intros ->|]. intros ->. destruct W as [->|W]; [done|lia].
    - split; [done|]. split; [|done]. intros ->. destruct B as [B| ->]; [lia|done]. }
  destruct P as (P1 & P2 & P3). apply IH; [exact P1|done| |].
  - intros o' I'. apply W. by right.
  - destruct I as [[->|I]|I]; auto.
Qed.

Lemma framesFrom_In rs off f : In f (framesFrom rs off) ->
  exists t, (t < nfAt rs off)%nat /\ (off + 60 * t + 60 <= length rs)%nat /\ f = frameAt rs (off + 60 * t).
Proof.
  unfold framesFrom. fold (nfAt rs off). rewrite in_map_iff. intros (t & <- & I). apply in_seq in I. exists t.
  assert (T : (t < nfAt rs off)%nat) by lia. split; [done|]. split; [|done]. unfold nfAt in T.
  pose proof (Nat.div_mod_eq (length rs - off) 60). lia.
Qed.
Lemma framesFrom_length rs off : length (framesFrom rs off) = nfAt rs off.
Proof. unfold framesFrom. by rewrite length_map, length_seq. Qed.

Lemma fold_sum (g : list Rec -> Z) (c : Z) l : (forall f, In f l -> g f = c) -> forall a,
  fold_left (fun v f => v + g f) l a = a + c * Z.of_nat (length l).
Proof.
  induction l as [|f l IH]; intros E a; cbn [fold_left length]; [lia|]. rewrite IH; [|intros; apply E; by right].
  rewrite (E f (or_introl eq_refl)). lia.
Qed.
Lemma increments_le ms : minuteSteps ms <= Z.max 0 (Z.of_nat (length ms) - 1).
Proof.
  induction ms as [|a ms IH]; [done|]. destruct ms as [|b ms]; [done|].
  change (minuteSteps (a :: b :: ms)) with ((if b - a =? 1 then 1 else 0) + minuteSteps (b :: ms)).
  cbn [length] in *. destruct (_ =? 1); lia.
Qed.

(** The markers' score of a frame that begins [d] seconds into the minute. *)
Definition markPattern (d : nat) : Z :=
  fold_left (fun v s => if isMarkerSec (Z.of_nat ((s + d) mod 60)) then v + (if isMarkerSec (Z.of_nat s) then 2 else -1) else v)
    (seq 0 60) 0.
Lemma markPattern_cases d : (d < 60)%nat -> markPattern d = if (d mod 10 =? 0)%nat then 12 else -6.
Proof.
  intros D. apply Z.eqb_eq.
  assert (A : forallb (fun d => markPattern d =? if (d mod 10 =? 0)%nat then 12 else -6) (seq 0 60) = true) by (vm_compute; reflexivity).
  rewrite forallb_forall in A. apply A, in_seq. lia.
Qed.
Lemma markerScore_pattern f d :
  (forall s, (s < 60)%nat -> isMark (nth s f noRec) = isMarkerSec (Z.of_nat ((s + d) mod 60))) -> markerScore f = markPattern d.
Proof.
  intros E. unfold markerScore, markPattern.
  assert (G : forall l, (forall s, In s l -> (s < 60)%nat) -> forall v,
    fold_left (fun v s => if isMark (nth s f noRec) then v + (if isMarkerSec (Z.of_nat s) then 2 else -1) else v) l v =
    fold_left (fun v s => if isMarkerSec (Z.of_nat ((s + d) mod 60)) then v + (if isMarkerSec (Z.of_nat s) then 2 else -1) else v) l v).
  { induction l as [|s l IH]; intros Hl v; [done|]. cbn [fold_left]. rewrite E by (apply Hl; by left). apply IH.
    intros s' I. apply Hl. by right. }
  apply G. intros s I. apply in_seq in I. lia.
Qed.

(** *** A stream with the minute at the [o]th second *)

Section Stream.
Context (o : nat) (coldStream : list Sec) (O : (o < 60)%nat).
Definition marksAt : Prop := forall i r, coldStream !! i = Some r ->
  symb_eqb (sym r) SymMarker = isMarkerSec (Z.of_nat ((i + 60 - o) mod 60)).
(** The hole shows in the frames that begin with the minute, and in no other. *)
Definition holesAt : Prop := forall b, (b + 60 <= length coldStream)%nat ->
  isHole (frameAt (recsFrom 0 coldStream) b) = (b mod 60 =? o)%nat.
Hypotheses (Marks : marksAt) (Holes : holesAt).

Context (l : list Sec) (Pre : l `prefix_of` coldStream).

Lemma prefix_frame b : (b + 60 <= length l)%nat -> frameAt (recsFrom 0 l) b = frameAt (recsFrom 0 coldStream) b.
Proof.
  intros L. destruct Pre as [l' ->]. rewrite !frameAt_recsFrom. f_equal.
  rewrite drop_app_le by lia. by rewrite take_app_le by (rewrite length_drop; lia).
Qed.
Lemma recs_length : length (recsFrom 0 l) = length l.
Proof. apply recsFrom_length. Qed.

Lemma frame_marks b : (b + 60 <= length l)%nat ->
  markerScore (frameAt (recsFrom 0 l) b) = markPattern ((b + 60 - o) mod 60).
Proof.
  intros L. apply markerScore_pattern. intros s Hs. rewrite frameAt_recsFrom.
  destruct (lookup_lt_is_Some_2 l (b + s) ltac:(lia)) as [r Er].
  assert (N : nth s (recsFrom (0 + Z.of_nat b) (take 60 (drop b l))) noRec =
    MkRec (Z.of_nat b + Z.of_nat s) (edgeSample r) (sym r) (conf r) (fround (energy r))).
  { rewrite nth_lookup. replace (take 60 (drop b l)) with (take s (drop b l) ++ r :: drop (S s) (take 60 (drop b l)))%list.
    - rewrite recsFrom_app, lookup_app_r; rewrite recsFrom_length, length_take, length_drop; [|lia].
      replace (s - s `min` (length l - b))%nat with 0%nat by lia. cbn. f_equal. lia.
    - symmetry. rewrite <- (take_drop_middle (take 60 (drop b l)) s r) at 1.
      + f_equal. rewrite take_take. f_equal. lia.
      + rewrite lookup_take_lt by lia. by rewrite lookup_drop. }
  rewrite N. unfold isMark. cbn [r_sym]. destruct Pre as [l' Ef].
  rewrite (Marks (b + s)%nat r); [|rewrite Ef; by apply lookup_app_l_Some].
  do 2 f_equal. rewrite Nat.Div0.add_mod_idemp_r. f_equal. lia.
Qed.

Lemma fit_holes off : (off < 60)%nat -> off <> o -> f_hole (fitAt (recsFrom 0 l) off) = 0.
Proof.
  intros F N. unfold fitAt. cbv zeta. cbn [f_hole].
  rewrite (fold_sum (fun f => if isHole f then 1 else 0) 0); [lia|]. intros f I.
  apply framesFrom_In in I as (t & T & L & ->). rewrite recs_length in L. rewrite prefix_frame by lia.
  destruct Pre as [l' Ef]. rewrite Holes by (rewrite Ef, length_app; lia).
  destruct (Nat.eqb_spec ((off + 60 * t) mod 60) o) as [E|]; [|done]. exfalso. apply N. rewrite <- E.
  rewrite Nat.mul_comm, Nat.Div0.mod_add. by rewrite Nat.mod_small.
Qed.
Lemma fit_markers off : (off < 60)%nat ->
  f_marker (fitAt (recsFrom 0 l) off) =
  (if (((off + 60 - o) mod 60) mod 10 =? 0)%nat then 12 else -6) * Z.of_nat (nfAt (recsFrom 0 l) off).
Proof.
  intros F. unfold fitAt. cbv zeta. cbn [f_marker].
  rewrite (fold_sum markerScore (if (((off + 60 - o) mod 60) mod 10 =? 0)%nat then 12 else -6)).
  { rewrite framesFrom_length. lia. }
  intros f I. apply framesFrom_In in I as (t & T & L & ->). rewrite recs_length in L. rewrite frame_marks by lia.
  replace ((off + 60 * t + 60 - o) mod 60)%nat with ((off + 60 - o) mod 60)%nat.
  - apply markPattern_cases, Nat.mod_upper_bound. lia.
  - replace (off + 60 * t + 60 - o)%nat with ((off + 60 - o) + t * 60)%nat by lia. by rewrite Nat.Div0.mod_add.
Qed.
Lemma fit_other off : (off < 60)%nat -> off <> o -> (1 <= nfAt (recsFrom 0 l) off)%nat ->
  f_score (fitAt (recsFrom 0 l) off) <= 16 * Z.of_nat (nfAt (recsFrom 0 l) off) - 4.
Proof.
  intros F N K. pose proof (fit_holes off F N) as H0. pose proof (fit_markers off F) as M0.
  unfold fitAt in *. cbv zeta in *. cbn [f_score f_hole f_marker] in *. rewrite H0, M0.
  pose proof (increments_le (map minuteRead (framesFrom (recsFrom 0 l) off))) as I. rewrite length_map, framesFrom_length in I.
  destruct (_ =? 0)%nat; lia.
Qed.
(** The true alignment's score, when its frames give the minutes [ms]. *)
Lemma fit_true ms : map minuteRead (framesFrom (recsFrom 0 l) o) = ms ->
  fitAt (recsFrom 0 l) o =
  MkFit (15 * Z.of_nat (length ms) + 4 * minuteSteps ms) (Z.of_nat o) (12 * Z.of_nat (length ms)) (minuteSteps ms)
        (Z.of_nat (length ms)).
Proof.
  intros E. pose proof (fit_markers o O) as M0. unfold fitAt in *. cbv zeta in *. cbn [f_marker] in M0. rewrite M0, E.
  replace ((o + 60 - o) mod 60)%nat with 0%nat by (replace (o + 60 - o)%nat with (0 + 1 * 60)%nat by lia; by rewrite Nat.Div0.mod_add).
  change ((0 mod 10 =? 0)%nat) with true. cbn match. rewrite (fold_sum (fun f => if isHole f then 1 else 0) 1).
  - assert (Ln : length ms = nfAt (recsFrom 0 l) o) by (by rewrite <- E, length_map, framesFrom_length).
    rewrite framesFrom_length, <- Ln. f_equal; lia.
  - intros f I. apply framesFrom_In in I as (t & T & L & ->). rewrite recs_length in L. rewrite prefix_frame by lia.
    destruct Pre as [l' Ef]. rewrite Holes by (rewrite Ef, length_app; lia).
    rewrite Nat.mul_comm, Nat.Div0.mod_add, Nat.mod_small by lia. by rewrite Nat.eqb_refl.
Qed.

(** An anchor is only found at the true minute. *)
Lemma gate_true : gate (bestFit (recsFrom 0 l)) = true ->
  bestFit (recsFrom 0 l) = fitAt (recsFrom 0 l) o /\ (2 <= nfAt (recsFrom 0 l) o)%nat.
Proof.
  intros G. destruct (pick_cases (recsFrom 0 l) (seq 0 60) noFit) as [E|(off & I & N & E)]; rewrite <- bestFit_eq in E.
  { rewrite E in G. discriminate G. }
  rewrite E in G |- *. apply in_seq in I.
  destruct (decide (off = o)) as [->|D]; [by split|]. unfold gate in G. rewrite (fit_holes off) in G by lia.
  by rewrite andb_false_r in G.
Qed.
Lemma bestFit_true ms : map minuteRead (framesFrom (recsFrom 0 l) o) = ms ->
  (length l < 240)%nat -> (2 <= length ms)%nat -> 1 <= minuteSteps ms ->
  (forall off, (off < 60)%nat -> (nfAt (recsFrom 0 l) off <= length ms)%nat) ->
  bestFit (recsFrom 0 l) = fitAt (recsFrom 0 l) o.
Proof.
  intros E L N I Mx. pose proof (fit_true ms E) as Ft.
  assert (Ln : nfAt (recsFrom 0 l) o = length ms) by (by rewrite <- E, length_map, framesFrom_length).
  assert (L3 : (nfAt (recsFrom 0 l) o <= 3)%nat). { unfold nfAt. rewrite recs_length. apply Nat.lt_succ_r, Nat.Div0.div_lt_upper_bound. lia. }
  rewrite bestFit_eq. apply pick_winner.
  - left. rewrite Ft. cbn [f_score noFit]. lia.
  - lia.
  - intros off Io K. apply in_seq in Io. destruct (decide (off = o)) as [->|D]; [by left|]. right.
    pose proof (fit_other off ltac:(lia) D ltac:(lia)). specialize (Mx off ltac:(lia)). rewrite Ft. cbn [f_score]. lia.
  - left. apply in_seq. lia.
Qed.
End Stream.

(** *** From cold *)

(** Looking for the minute, with [l] heard. *)
Definition looking (l : list Sec) (s : Impl) : Prop :=
  recs s = recsFrom 0 l /\ recBase s = 0 /\ secIndex s = Z.of_nat (length l) /\ anchor s = noAnchor /\ slip s = noSlip /\
  voter s = [].

Lemma pushed_looking l s r : looking l s -> (length l < 720)%nat ->
  exists s1, looking (l ++ [r]) s1 /\ pushed s r = tryAnchor s1 /\ grewBy s s1 [].
Proof.
  intros (R & B & K & A & P & V) L. unfold pushed. cbv zeta.
  assert (C : contradicts s (secondOfFrame s) r = false).
  { unfold contradicts. rewrite A. cbn [anchored noAnchor]. by destruct (List.last _ _). }
  rewrite C. cbn [recs withLast call]. rewrite R.
  assert (E : (recsFrom 0 l ++ [MkRec (secIndex s) (edgeSample r) (sym r) (conf r) (fround (energy r))])%list = recsFrom 0 (l ++ [r])).
  { rewrite recsFrom_app, K. done. }
  rewrite E, recsFrom_length, length_app. cbn [length].
  destruct (Nat.ltb_spec kRecCap (length l + 1)); [unfold kRecCap in *; lia|].
  cbn [anchor withRecs call withLast]. rewrite A. cbn [anchored noAnchor]. eexists. split; [|split; [reflexivity|]].
  - unfold looking. cbn. rewrite length_app, B, K, A. cbn. repeat (split; [done || lia|]). done.
  - by eexists [_].
Qed.

Section Cold.
Context `{Pow} (cfg : Config).
Hypotheses (Fields : fields cfg = wwvFields) (Win : (0 < window cfg)%nat)
           (Maps : mapsOk cfg = true) (Pows : powOk cfg (Z.of_nat (window cfg))).

Lemma minuteOf_sends t secs k0 : sendsMinute cfg t secs -> minuteRead (recsFrom k0 secs) = tf_minute t.
Proof.
  intros (V & _ & _ & _ & T & _). pose proof (transmits_raw cfg _ t Maps V T) as R.
  apply (f_equal tf_minute) in R. cbn [rawFields tf_minute] in R. rewrite <- R. unfold decodeField. rewrite Fields.
  rewrite <- (sumField_decodes (map sym secs) (map conf secs)) by reflexivity.
  unfold minuteRead, sumField, bit. destruct (recsFrom_map secs k0) as [E _]. rewrite <- E.
  generalize (wwvFields FieldMinutes), 0. induction l as [|bw l IH]; intros v; [done|]. cbn [fold_left].
  change SymUnknown with (r_sym noRec) at 2. rewrite map_nth. apply IH.
Qed.

Definition secsOf (ms : list Minute) : list Sec := concat (map m_secs ms).
Definition eachSends (ms : list Minute) : Prop := Forall (fun m => sendsMinute cfg (m_time m) (m_secs m)) ms.
Lemma secsOf_length ms : eachSends ms -> length (secsOf ms) = (60 * length ms)%nat.
Proof.
  induction 1 as [|m ms S F IH]; [done|]. unfold secsOf in *. cbn [map concat]. rewrite length_app, IH. destruct S as (_ & -> & _).
  cbn. lia.
Qed.
Lemma secsOf_frame ms n m rest : eachSends ms -> ms !! n = Some m ->
  take 60 (drop (60 * n) (secsOf ms ++ rest)) = m_secs m.
Proof.
  intros F E. rewrite <- (take_drop_middle ms n m E) in F |- *. apply Forall_app in F as [F1 F2].
  apply Forall_cons in F2 as [(_ & Lm & _) _].
  assert (Ln : length (take n ms) = n) by (rewrite length_take; apply lookup_lt_Some in E; lia).
  pose proof (secsOf_length _ F1) as L1. rewrite Ln in L1.
  unfold secsOf in *. rewrite map_app, concat_app. cbn [map concat].
  rewrite <- !app_assoc, drop_app_length' by done. by rewrite take_app_length'.
Qed.

(** The minutes the true alignment reads. *)
Lemma true_minutes tl ms rest l :
  eachSends ms -> l `prefix_of` (tl ++ secsOf ms ++ rest) -> (nfAt (recsFrom 0 l) (length tl) <= length ms)%nat ->
  map minuteRead (framesFrom (recsFrom 0 l) (length tl)) =
  map (fun m => tf_minute (m_time m)) (take (nfAt (recsFrom 0 l) (length tl)) ms).
Proof.
  intros F Pre Le. apply list_eq. intros i. rewrite !list_lookup_fmap. unfold framesFrom. rewrite list_lookup_fmap.
  fold (nfAt (recsFrom 0 l) (length tl)). set (nf := nfAt _ _) in *.
  destruct (decide (i < nf)%nat) as [Hi|Hi].
  2: { rewrite (proj2 (lookup_ge_None _ _)), (proj2 (lookup_ge_None (take _ _) _)); [done|rewrite length_take; lia|rewrite length_seq; lia]. }
  rewrite (proj2 (lookup_seq _ _ i _)) by (split; [reflexivity|lia]). cbn [fmap option_fmap option_map].
  destruct (lookup_lt_is_Some_2 ms i ltac:(lia)) as [m Em]. rewrite lookup_take_lt, Em by done.
  cbn [fmap option_fmap option_map]. f_equal. rewrite frameAt_recsFrom. assert (S : take 60 (drop (length tl + 60 * (0 + i)) l) = m_secs m).
  2: { cbn [Nat.add] in S |- *. rewrite S. apply minuteOf_sends. unfold eachSends in F. rewrite Forall_lookup in F. by apply (F i). }
  rewrite <- (secsOf_frame ms i m rest F Em). destruct Pre as [l' E].
  assert (Lb : (length tl + 60 * i + 60 <= length l)%nat).
  { unfold nf, nfAt in Hi. rewrite recsFrom_length in Hi. pose proof (Nat.div_mod_eq (length l - length tl) 60). lia. }
  cbn [Nat.add]. transitivity (take 60 (drop (length tl + 60 * i) (l ++ l'))).
  - rewrite drop_app_le by lia. by rewrite take_app_le by (rewrite length_drop; lia).
  - rewrite <- E, <- drop_drop, drop_app_length. done.
Qed.

(** How many minutes it takes: two, and a third when the first ends an hour. *)
Definition needed (t : TimeFields) : nat := if tf_minute t =? 59 then 3 else 2.

Context (t : TimeFields) (V : rangeValid t = true) (tl : list Sec) (O : (length tl < 60)%nat) (ms : list Minute).
Definition firstMinutes : list Minute := take (needed t) ms.
Definition coldStream : list Sec := (tl ++ secsOf firstMinutes)%list.
Hypotheses (Run : cleanRun cfg t ms) (Enough : (needed t <= length ms)%nat)
  (Tail : forall i r, tl !! i = Some r -> symb_eqb (sym r) SymMarker = isMarkerSec (Z.of_nat (i + 60 - length tl)))
  (Holes : holesAt (length tl) coldStream).

Lemma needed_cases : (needed t = 2%nat /\ tf_minute t <> 59) \/ (needed t = 3%nat /\ tf_minute t = 59).
Proof. unfold needed. destruct (Z.eqb_spec (tf_minute t) 59); auto. Qed.
Lemma first_sends : eachSends firstMinutes.
Proof.
  apply Forall_lookup. intros i m E. unfold firstMinutes in E. apply lookup_take_Some in E as [E _]. destruct (Run i m E) as [_ [S _]]. exact S.
Qed.
Lemma first_length : length firstMinutes = needed t.
Proof. unfold firstMinutes. rewrite length_take. lia. Qed.
Lemma full_length : length coldStream = (length tl + 60 * needed t)%nat.
Proof. unfold coldStream. by rewrite length_app, (secsOf_length firstMinutes first_sends), first_length. Qed.
Lemma first_minutes n : (n <= needed t)%nat ->
  map (fun m => tf_minute (m_time m)) (take n firstMinutes) = map (fun i => (tf_minute t + Z.of_nat i) mod 60) (seq 0 n).
Proof.
  intros N. apply list_eq. intros i. rewrite !list_lookup_fmap. destruct (decide (i < n)%nat) as [Hi|Hi].
  2: { rewrite (proj2 (lookup_ge_None (take _ _) _)), (proj2 (lookup_ge_None (seq _ _) _)); [done|rewrite length_seq; lia|rewrite length_take; lia]. }
  rewrite (proj2 (lookup_seq _ _ i _)) by (split; [reflexivity|lia]). rewrite lookup_take_lt by done.
  unfold firstMinutes. rewrite lookup_take_lt by lia. destruct (lookup_lt_is_Some_2 ms i ltac:(lia)) as [m E].
  rewrite E. cbn [fmap option_fmap option_map]. f_equal. destruct (Run i m E) as [-> _]. cbn [Nat.add].
  apply rangeValid_spec in V. unfold advanceMinutes. cbv zeta. destruct (wrapDoy _ _ _). cbn [tf_minute].
  unfold cmod. by rewrite Z.rem_mod_nonneg by lia.
Qed.
Lemma full_marks : marksAt (length tl) coldStream.
Proof.
  intros i r E. unfold coldStream in E. destruct (decide (i < length tl)%nat) as [Hi|Hi].
  - rewrite lookup_app_l in E by done. rewrite (Tail i r E). by rewrite Nat.mod_small by lia.
  - rewrite lookup_app_r in E by lia. set (j := (i - length tl)%nat) in *.
    pose proof (lookup_lt_Some _ _ _ E) as Lj. rewrite (secsOf_length firstMinutes first_sends) in Lj.
    destruct (lookup_lt_is_Some_2 firstMinutes (j / 60)) as [m Em].
    { apply Nat.Div0.div_lt_upper_bound. lia. }
    pose proof (secsOf_frame firstMinutes (j / 60) m [] first_sends Em) as F. rewrite app_nil_r in F.
    pose proof (Nat.div_mod_eq j 60) as D. pose proof (Nat.mod_upper_bound j 60 ltac:(lia)) as U.
    assert (Er : m_secs m !! (j mod 60)%nat = Some r).
    { rewrite <- F, lookup_take_lt by lia. rewrite lookup_drop, <- D. exact E. }
    pose proof first_sends as S. unfold eachSends in S. rewrite Forall_lookup in S. specialize (S _ _ Em).
    pose proof (sends_symbols cfg _ _ S (j mod 60) U) as M. rewrite nth_lookup, list_lookup_fmap, Er in M. cbn in M. rewrite M.
    do 2 f_equal. replace (i + 60 - length tl)%nat with (j + 1 * 60)%nat by lia. by rewrite Nat.Div0.mod_add.
Qed.

Lemma prefix_minutes j : (j <= length coldStream)%nat ->
  let nf := nfAt (recsFrom 0 (take j coldStream)) (length tl) in
  nf = ((j - length tl) / 60)%nat /\ (nf <= needed t)%nat /\
  map minuteRead (framesFrom (recsFrom 0 (take j coldStream)) (length tl)) =
    map (fun i => (tf_minute t + Z.of_nat i) mod 60) (seq 0 nf).
Proof.
  intros J. cbv zeta. pose proof full_length as FL.
  assert (N : nfAt (recsFrom 0 (take j coldStream)) (length tl) = ((j - length tl) / 60)%nat).
  { unfold nfAt. rewrite recsFrom_length, length_take. f_equal. lia. }
  assert (N2 : ((j - length tl) / 60 <= needed t)%nat) by (apply Nat.Div0.div_le_upper_bound; lia).
  rewrite N. split; [done|]. split; [done|]. rewrite (true_minutes tl firstMinutes []).
  - rewrite N. by apply first_minutes.
  - exact first_sends.
  - rewrite app_nil_r. apply prefix_take.
  - rewrite N, first_length. done.
Qed.

(** Until then nothing is anchored. *)
Lemma not_yet j : (j < length coldStream)%nat -> (length (take j coldStream) < 120)%nat \/ gate (bestFit (recsFrom 0 (take j coldStream))) = false.
Proof.
  intros J. pose proof full_length as FL. destruct (gate _) eqn:G; [|by right]. left.
  destruct (gate_true (length tl) coldStream O Holes (take j coldStream) (prefix_take _ _) G) as [E N].
  destruct (prefix_minutes j ltac:(lia)) as (N1 & N2 & M). set (nf := nfAt _ _) in *.
  assert (Up : (nf < needed t)%nat). { rewrite N1. apply Nat.Div0.div_lt_upper_bound. lia. }
  destruct needed_cases as [[K _]|[K K59]]; [lia|]. assert (nf = 2%nat) as N3 by lia.
  rewrite E in G. rewrite (fit_true (length tl) coldStream O full_marks Holes (take j coldStream) (prefix_take _ _) _ M) in G.
  rewrite N3, K59 in G. unfold gate in G. cbn [f_inc] in G. rewrite !andb_true_iff in G. destruct G as [[_ G] _]. discriminate G.
Qed.
Lemma at_last : bestFit (recsFrom 0 coldStream) = fitAt (recsFrom 0 coldStream) (length tl) /\
  gate (fitAt (recsFrom 0 coldStream) (length tl)) = true /\ f_off (fitAt (recsFrom 0 coldStream) (length tl)) = Z.of_nat (length tl).
Proof.
  pose proof full_length as FL. destruct (prefix_minutes (length coldStream) ltac:(lia)) as (N1 & N2 & M). cbv zeta in *.
  rewrite (take_ge coldStream (length coldStream)) in * by lia. set (nf := nfAt _ _) in *.
  assert (N3 : nf = needed t). { rewrite N1, FL. replace (length tl + 60 * needed t - length tl)%nat with (needed t * 60)%nat by lia. by apply Nat.div_mul. }
  rewrite N3 in M.
  assert (I : minuteSteps (map (fun i => (tf_minute t + Z.of_nat i) mod 60) (seq 0 (needed t))) = 1).
  { apply rangeValid_spec in V. destruct needed_cases as [[-> K]|[-> ->]]; [|reflexivity]. cbn [seq map minuteSteps].
    destruct (Z.eqb_spec ((tf_minute t + Z.of_nat 1) mod 60 - (tf_minute t + Z.of_nat 0) mod 60) 1); [done|dlia]. }
  pose proof (fit_true (length tl) coldStream O full_marks Holes coldStream (reflexivity coldStream) _ M) as Ft.
  rewrite length_map, length_seq, I in Ft. split; [|rewrite Ft; split; [|done]].
  - apply (bestFit_true (length tl) coldStream O full_marks Holes coldStream (reflexivity coldStream) _ M).
    + rewrite FL. destruct needed_cases as [[-> _]|[-> _]]; lia.
    + rewrite length_map, length_seq. destruct needed_cases as [[-> _]|[-> _]]; lia.
    + rewrite I. done.
    + intros off Hf. rewrite length_map, length_seq. unfold nfAt. rewrite recsFrom_length, FL.
      apply Nat.lt_succ_r, Nat.Div0.div_lt_upper_bound. lia.
  - unfold gate. cbn [f_off f_marker f_inc f_hole]. rewrite (proj2 (Z.leb_le 0 (Z.of_nat (length tl))) ltac:(lia)).
    by destruct needed_cases as [[-> _]|[-> _]].
Qed.

Lemma hear_looking st j : (j < length coldStream)%nat ->
  exists s, hear cfg st fresh (take j coldStream) = Some s /\ looking (take j coldStream) s /\ grewBy fresh s [].
Proof.
  induction j as [|j IH]; intros J; [exists fresh; split; [done|]; split; [done|by apply grewBy_refl]|].
  destruct IH as (s & E & L & G); [lia|]. destruct (lookup_lt_is_Some_2 coldStream j ltac:(lia)) as [r Er].
  pose proof full_length as FL. assert (Lj : length (take j coldStream) = j) by (rewrite length_take; lia).
  destruct (pushed_looking _ s r L) as (s1 & L1 & P1 & G1).
  { rewrite Lj. destruct needed_cases as [[? _]|[? _]]; lia. }
  rewrite <- (take_S_r coldStream j r Er) in L1. exists s1. split; [|split; [done|exact (grewBy_trans _ _ _ _ _ G G1)]].
  rewrite (take_S_r coldStream j r Er), hear_app, E. cbn [mbind option_bind]. apply hear_one. rewrite record_pushed, P1.
  destruct L1 as (R1 & _ & _ & A1 & _ & _). unfold tryAnchor. rewrite R1, recsFrom_length.
  destruct (Nat.ltb_spec (length (take (S j) coldStream)) 120).
  - unfold feedPendingFrames. by rewrite A1.
  - destruct (not_yet (S j) ltac:(lia)) as [|Gt]; [lia|]. rewrite Gt. unfold feedPendingFrames. by rewrite A1.
Qed.

Lemma feed_minutes st l : forall u prev s fuel,
  rangeValid u = true -> cleanRun cfg u l -> l <> [] -> into cfg prev (secsOf l) s -> nextAfter prev u ->
  (length l < fuel)%nat ->
  exists s' new, feed cfg fuel st s = Some (Onward s') /\
    boundary cfg (Some (advanceMinutes u (Z.of_nat (length l) - 1))) false s' /\
    grewBy s s' new /\ new `sublist_of` sent l.
Proof.
  induction l as [|m l IH]; intros u prev s fuel Vu C Ne I N Fu; [done|].
  destruct (cleanRun_tail cfg u m l Vu C) as (Tm & [Sd _] & C'). rewrite Tm in Sd.
  destruct fuel as [|fuel]; [lia|]. cbn [length] in *.
  destruct (feed_minute cfg Fields Win Maps Pows u (m_secs m) Sd prev st s fuel (secsOf l) I N ltac:(lia))
    as (s1 & n1 & E1 & I1 & R1 & _ & _ & G1 & S1 & Q1).
  assert (T1 : sent (m :: l) = ([(edgeSample <$> m_secs m !! 0%nat, u)] ++ sent l)%list) by (cbn; by rewrite Tm).
  destruct l as [|m2 l].
  - exists s1, n1. rewrite E1. split.
    { apply feed_idle; [lia|]. destruct I1 as (Hd & _). pose proof (held_index _ _ Hd) as X. cbn in X. lia. }
    split; [|split; [done|]].
    + change (Z.of_nat 1 - 1) with 0. rewrite advanceMinutes_0 by done. by split.
    + rewrite T1. by rewrite app_nil_r.
  - destruct (IH (advanceMinutes u 1) (Some u) s1 fuel (advanceMinutes_valid u 1 Vu ltac:(lia)) C' ltac:(done) I1 eq_refl ltac:(lia))
      as (s2 & n2 & E2 & B2 & G2 & S2).
    exists s2, (n1 ++ n2)%list. rewrite E1. split; [done|].
    split; [|split; [exact (grewBy_trans _ _ _ _ _ G1 G2)|rewrite T1; by apply sublist_app]].
    rewrite advanceMinutes_add in B2 by (cbn [length]; done || lia).
    replace (Z.of_nat (S (length (m2 :: l))) - 1) with (1 + (Z.of_nat (length (m2 :: l)) - 1)) by lia. exact B2.
Qed.

Lemma first_run : cleanRun cfg t firstMinutes.
Proof. intros i m E. unfold firstMinutes in E. apply lookup_take_Some in E as [E _]. by apply Run. Qed.

(** The anchor is found with the last second of the last of [firstMinutes], and those
    minutes are read. *)
Lemma hear_first st :
  exists s s0 new, hear cfg st fresh coldStream = Some s /\
    boundary cfg (Some (advanceMinutes t (Z.of_nat (needed t) - 1))) false s /\
    grewBy fresh s new /\ new `sublist_of` sent firstMinutes /\
    hear cfg st fresh (take (length coldStream - 1) coldStream) = Some s0 /\ anchored (anchor s0) = false.
Proof.
  pose proof full_length as FL. assert (N2 : (2 <= needed t <= 3)%nat) by (destruct needed_cases as [[-> _]|[-> _]]; lia).
  set (j := (length coldStream - 1)%nat). destruct (hear_looking st j ltac:(lia)) as (s & E & L & G).
  destruct (lookup_lt_is_Some_2 coldStream j ltac:(lia)) as [r Er].
  assert (Lj : length (take j coldStream) = j) by (rewrite length_take; lia).
  destruct (pushed_looking _ s r L) as (s1 & L1 & P1 & G1); [lia|].
  rewrite <- (take_S_r coldStream j r Er), (take_ge coldStream (S j)) in L1 by lia.
  destruct at_last as (B & Gt & Of). destruct L1 as (R1 & B1 & K1 & A1 & Sl1 & V1).
  set (s2 := withAnchor s1 (MkAnchor true (Z.of_nat (length tl)) (Z.of_nat (length tl)))).
  assert (P2 : pushed s r = s2).
  { rewrite P1. unfold tryAnchor. rewrite R1, recsFrom_length. destruct (Nat.ltb_spec (length coldStream) 120); [lia|].
    rewrite B, Gt, Of, B1. done. }
  assert (I2 : into cfg None (secsOf firstMinutes) s2).
  { split; [|split; [unfold calm, s2; cbn; rewrite Sl1; cbn; lia|exact V1]].
    unfold held, s2, recsOk. cbn. rewrite R1, B1, K1, recsFrom_length. split; [unfold kRecCap; lia|]. split; [done|].
    split; [by rewrite Z.sub_diag|]. exists (recsFrom 0 tl). unfold coldStream. rewrite recsFrom_app, recsFrom_length. split; [done|lia]. }
  destruct (feed_minutes st firstMinutes t None s2 (feedFuel s2) V first_run) as (s3 & new & F3 & B3 & G3 & S3).
  { intros X. pose proof first_length as Y. rewrite X in Y. cbn in Y. lia. }
  { exact I2. } { done. }
  { rewrite first_length. unfold feedFuel, s2. cbn [secIndex withAnchor anchor nextFrameStartK]. rewrite K1. lia. }
  rewrite first_length in B3. exists s3, s, new. split; [|split; [exact B3|split; [|split; [exact S3|split; [exact E|]]]]].
  - rewrite <- (take_ge coldStream (S j)) by lia. rewrite (take_S_r coldStream j r Er), hear_app, E. cbn [mbind option_bind].
    apply hear_one. rewrite record_pushed, P2. unfold feedPendingFrames. exact F3.
  - exact (grewBy_trans _ _ _ _ _ G (grewBy_trans _ _ _ _ _ G1 G3)).
  - destruct L as (_ & _ & _ & A & _). by rewrite A.
Qed.
End Cold.

(** ** Properties *)

(** C20: WWV finds the minute, and tells it truly from then on, leap seconds
    included. Started cold anywhere in a minute, over seconds that read right, the
    decoder anchors exactly with the last second of the second whole minute - the
    third, when the first ended an hour, as minutes 59 and 0 prove nothing - and
    not before. From the first second on, every label it gives names a minute that
    was sent, with the frame reported before it beginning on that minute's first
    second: the two things a source composes a time from. The labels come in order
    and once. A leap second after any later minute, announced by it, changes
    nothing: that minute is not labelled, as a source would count on through the
    leap second, and the minutes after are labelled truly again. The other bits and every confidence may be anything; that the hole shows
    in the minutes searched where it is, and only there, is assumed. *)
Theorem wwv_clean_labels `{Pow} (cfg : Config) (st : ClockStation) (t : TimeFields) (tl : list Sec) (ms : list Minute) :
  fields cfg = wwvFields -> (0 < window cfg)%nat -> mapsOk cfg = true -> powOk cfg (Z.of_nat (window cfg)) ->
  rangeValid t = true -> (length tl < 60)%nat -> cleanRun cfg t ms -> (needed t <= length ms)%nat ->
  (forall i r, tl !! i = Some r -> symb_eqb (sym r) SymMarker = isMarkerSec (Z.of_nat (i + 60 - length tl))) ->
  holesAt (length tl) (coldStream t tl ms) -> forallb plain (take (needed t) ms) = true ->
  (exists s0, hear cfg st fresh (take (length (coldStream t tl ms) - 1) (coldStream t tl ms)) = Some s0 /\ anchored (anchor s0) = false) /\
  (exists s1, hear cfg st fresh (coldStream t tl ms) = Some s1 /\ anchored (anchor s1) = true) /\
  (length (coldStream t tl ms) = length tl + 60 * needed t)%nat /\
  exists s, hear cfg st fresh (coldStream t tl ms ++ concat (map heard (drop (needed t) ms))) = Some s /\
    said s `sublist_of` truth ms.
Proof.
  intros F W M P V O C N Tl Hs Pl.
  destruct (hear_first cfg F W M P t V tl O ms C N Tl Hs st) as (s1 & s0 & n1 & E1 & B1 & G1 & S1 & E0 & A0).
  split; [by exists s0|]. split; [exists s1; split; [done|]; apply B1|].
  split; [by eapply (full_length cfg)|].
  destruct (hear_run cfg F W M P st (drop (needed t) ms) (advanceMinutes t (Z.of_nat (needed t)))
    (Some (advanceMinutes t (Z.of_nat (needed t) - 1))) false s1) as (s2 & n2 & E2 & G2 & S2).
  - apply advanceMinutes_valid; [done|lia].
  - intros i m E. rewrite lookup_drop in E. destruct (C _ _ E) as [T1 T2]. split; [|done].
    rewrite advanceMinutes_add, T1 by (done || lia). f_equal. lia.
  - exact B1.
  - cbn. rewrite advanceMinutes_add; [f_equal; lia|done|unfold needed; destruct (_ =? _); lia|lia].
  - exists s2. rewrite hear_app, E1. split; [exact E2|].
    rewrite (grewBy_said _ _ _ (grewBy_trans _ _ _ _ _ G1 G2)). cbn [app said fresh calls stated map].
    rewrite <- (take_drop (needed t) ms). unfold truth, sent. rewrite List.filter_app, map_app. apply sublist_app; [|exact S2].
    assert (E : List.filter plain (take (needed t) ms) = take (needed t) ms).
    { clear - Pl. induction (take (needed t) ms) as [|m l IH]; [done|]. cbn in *. apply andb_true_iff in Pl as [-> Pl]. by rewrite IH. }
    rewrite E. exact S1.
Qed.

(** The tag changes on evidence only. From any tag with nothing counted against
    it - none, or one the source presets - however the seconds are judged after: a
    first tag is what the last ten judgements that counted all say; it becomes the
    other station only after thirty in a row that were decisive and did not support
    it, the last of them for the new one; and it is let go only after a hundred and
    twenty in a row without support. *)
Lemma tag_evidence (t0 : Tag.Tag) (js : list judgement) (j : judgement) :
  Tag.pinned t0 = false -> Tag.pendingCount t0 = 0 -> Tag.contrary t0 = 0 -> Tag.unsupported t0 = 0 ->
  let t := fold_left judged js t0 in
  let t' := judged t j in
  Tag.station t' <> Tag.station t -> evidence (Tag.station t) (Tag.station t') (history (js ++ [j])).
Proof.
  intros Pn P0 C0 U0. cbv zeta. intros D.
  destruct (judged_counted js t0 []) as [P1 C1]; [|done|].
  { unfold counted. rewrite P0, C0, U0. case_bool_decide; [apply recent_0|]. split; apply recent_0. }
  rewrite app_nil_r in C1. set (t := fold_left judged js t0) in *. destruct j as [[[] eV] eH].
  { exfalso. apply D. unfold judged, Tag.judgeSecond. by rewrite orb_true_r. }
  destruct (judge_counted t _ eV eH C1 P1) as (_ & _ & Ev). cbv zeta in Ev. specialize (Ev D).
  unfold history in *. rewrite List.filter_app, List.rev_app_distr. exact Ev.
Qed.

(** ** Witnesses *)

(** A minute as Fort Collins sends it on 100 Hz, no pulse in its first second. *)
Definition sendMinute (t : TimeFields) (warn : bool) (start : Z) : list Sec :=
  let on fld := combine (map (fun bw => Z.to_nat (bw_second bw)) (wwvFields fld)) (encodeField (wwvFields fld) (fieldOf t fld)) in
  let ones := omap (fun p => match snd p with SymOne => Some (fst p) | _ => None end) (concat (map on allFields)) in
  let sent k := if isMarkerSec (Z.of_nat k) then SymMarker
                else if (k =? 3)%nat then (if warn then SymOne else SymZero)
                else if existsb (Nat.eqb k) ones then SymOne else SymZero in
  map (fun k => let e := start + 12000 * Z.of_nat k in
    MkSec e (d_of_Z e) true true (sent k) 0.75
      (if (k =? 0)%nat then 0 else match sent k with SymMarker => 0.75 | SymOne => 0.5 | _ => 0.125 end)%D) (seq 0 60).

(** 23:56 UTC of 31 December 2016, joined seven seconds early; its last second is
    :60. *)
Definition demoTail : list Sec := drop 53 (sendMinute (TF 55 23 366 16) true (-720000)).
Definition demoMinute : TimeFields := TF 56 23 366 16.
Definition demoMinutes : list Minute :=
  map (fun i =>
    let t := advanceMinutes demoMinute (Z.of_nat i) in
    let start := 12000 * (60 * Z.of_nat i + (if (4 <=? i)%nat then 1 else 0)) in
    MkMinute t (sendMinute t (i <? 4)%nat start)
      (if (i =? 3)%nat then Some (MkSec (12000 * 240) (d_of_Z (12000 * 240)) true true SymZero 0.75 0.125) else None))
    (seq 0 7).

Definition cleanb (cfg : Config) (m : Minute) : bool :=
  let t := m_time m in let l := m_secs m in
  rangeValid t && (length l =? 60)%nat &&
  forallb (fun k => Bool.eqb (symb_eqb (nth k (map sym l) SymUnknown) SymMarker) (isMarkerSec (Z.of_nat k))) (seq 0 60) &&
  forallb (fun r => negb (dnan (conf r))) l &&
  forallb (fun fld => bool_decide (map (fun bw => symAt (MkFrame (map sym l) (map conf l)) (bw_second bw)) (fields cfg fld) =
                                   encodeField (fields cfg fld) (fieldOf t fld))) allFields &&
  match l with h :: r :: _ => negb (energy r <? 0.5 * fround (energy h))%D | _ => false end &&
  match m_leap m with
  | None => true
  | Some r => negb (symb_eqb (sym r) SymMarker) && bit (map sym l) 3 && endsMonth t
  end.
Lemma wwv_cleanb_ok cfg m : cleanb cfg m = true -> cleanMinute cfg m.
Proof.
  unfold cleanb. cbv zeta. rewrite !andb_true_iff. intros ((((((V & L) & M) & N) & T) & Q) & Lp).
  split.
  - split; [done|]. split; [by apply Nat.eqb_eq|]. split; [|split; [|split]].
    + intros k K. rewrite forallb_forall in M. apply eqb_prop, M. apply in_seq. lia.
    + unfold frameOk. cbn [f_confidence]. apply Forall_forall. intros c Hc.
      apply list_elem_of_In, in_map_iff in Hc as (r & <- & Hr). rewrite forallb_forall in N. by apply negb_true_iff, N.
    + intros fld. rewrite forallb_forall in T. specialize (T fld). apply bool_decide_eq_true in T; [exact T|].
      destruct fld; cbn; tauto.
    + intros h r Eh Er. destruct (m_secs m) as [|h' [|r' l]]; try done. injection Eh as ->. injection Er as ->.
      by apply negb_true_iff.
  - destruct (m_leap m); [|done]. rewrite !andb_true_iff, negb_true_iff in Lp. tauto.
Qed.

Lemma wwv_demo_run : cleanRun wwvVoter demoMinute demoMinutes.
Proof.
  intros i m E. unfold demoMinutes in E. apply list_lookup_fmap_Some in E as (j & -> & E).
  apply lookup_seq in E as [-> Hj]. split; [done|]. apply wwv_cleanb_ok.
  do 7 (destruct i as [|i]; [vm_compute; reflexivity|]). lia.
Qed.
Lemma wwv_demo_tail i r : demoTail !! i = Some r ->
  symb_eqb (sym r) SymMarker = isMarkerSec (Z.of_nat (i + 60 - length demoTail)).
Proof.
  intros E. pose proof (lookup_lt_Some _ _ _ E) as L. change (length demoTail) with 7%nat in *.
  do 7 (destruct i as [|i]; [injection E as <-; vm_compute; reflexivity|]). lia.
Qed.
Lemma wwv_demo_holes : holesAt (length demoTail) (coldStream demoMinute demoTail demoMinutes).
Proof.
  intros b L. apply eqb_prop. assert (A : forallb (fun b => Bool.eqb
    (isHole (frameAt (recsFrom 0 (coldStream demoMinute demoTail demoMinutes)) b)) (b mod 60 =? length demoTail)%nat) (seq 0 68) = true)
    by (vm_compute; reflexivity).
  rewrite forallb_forall in A. apply A, in_seq. change (length (coldStream demoMinute demoTail demoMinutes)) with 127%nat in L. lia.
Qed.
Lemma wwv_powOk : @powOk demoPow wwvVoter 8.
Proof. exact wwvb_powOk. Qed.

Lemma wwv_clean_labels_witness :
  exists s, hear (H := demoPow) wwvVoter StWwv fresh
    (coldStream demoMinute demoTail demoMinutes ++ concat (map heard (drop (needed demoMinute) demoMinutes))) = Some s /\
    said s `sublist_of` truth demoMinutes.
Proof.
  exact (proj2 (proj2 (proj2 (@wwv_clean_labels demoPow wwvVoter StWwv demoMinute demoTail demoMinutes eq_refl
    ltac:(vm_compute; lia) ltac:(vm_compute; reflexivity) wwv_powOk eq_refl ltac:(vm_compute; lia) wwv_demo_run
    ltac:(vm_compute; lia) wwv_demo_tail wwv_demo_holes eq_refl)))).
Defined.

(** Anchored 127 seconds in, labelled from the second minute on; 23:59 and the
    leap second after it are not labelled, and the next minute is. *)
Example wwv_leap_labels :
  (s ← @hear demoPow wwvVoter StWwv fresh (demoTail ++ concat (map heard demoMinutes)); Some (said s)) =
  Some [(Some 720000, TF 57 23 366 16); (Some 1440000, TF 58 23 366 16); (Some 2892000, TF 0 0 1 17);
        (Some 3612000, TF 1 0 1 17); (Some 4332000, TF 2 0 1 17)].
Proof. vm_compute. reflexivity. Qed.

(** WWV preset; then thirty seconds of WWVH. *)
Lemma tag_evidence_witness :
  let js := replicate 29 (false, 0.5%D, 2%D) in
  evidence StWwv StWwvh (history (js ++ [(false, 0.5%D, 2%D)])).
Proof.
  exact (tag_evidence (Tag.presetStation Tag.untagged StWwv) (replicate 29 (false, 0.5%D, 2%D)) (false, 0.5%D, 2%D)
    eq_refl eq_refl eq_refl eq_refl ltac:(vm_compute; discriminate)).
Defined.
