(* ===== verification/WwvLabels.v ===== *)
(** * What a WWV label rests on (src/clock/WwvDecoder.cpp)
    An account is kept beside a run of the decoder of seconds (Wwv): the seconds
    recorded and the frames reported since the seconds last began again. A label is
    what the voter, locked, votes on the frames handed to it since then, and every
    one of those is sixty seconds of the account, in turn, or a blank for a frame
    with a suspect second in it. *)

From Stdlib Require Import ZArith Lia List Bool Floats.
From stdpp Require Import base list.
From S2P Require Import Prelude Doubles Rounding ClockTypes CivilTime TimeFrameVoter TimeCode Wwv.

#[local] Open Scope Z_scope.

(** ** The account *)

Fixpoint framesIn (cs : list Call) : list FrameInfo :=
  match cs with [] => [] | OnFrame f :: cs => f :: framesIn cs | _ :: cs => framesIn cs end.
(** The labels among some calls, each with the frames reported before it. *)
Fixpoint labelled (fis : list FrameInfo) (cs : list Call) : list (list FrameInfo * TimeInfo) :=
  match cs with
  | [] => []
  | OnFrame f :: cs => labelled (fis ++ [f]) cs
  | OnTime t :: cs => (fis, t) :: labelled fis cs
  | _ :: cs => labelled fis cs
  end.

Record Account := MkAccount { a_secs : list Sec; a_frames : list FrameInfo }.
Definition noAccount : Account := MkAccount [] [].
Definition note (a : Account) (r : Sec) (s : Impl) (t : Turn) : Account :=
  match t with
  | Onward s' => MkAccount (a_secs a ++ [r]) (a_frames a ++ framesIn (drop (length (calls s)) (calls s')))
  | Reacquired _ => noAccount
  end.
Fixpoint follow `{Pow} (cfg : Config) (s : Impl) (a : Account) (es : list Event) : option (Impl * Account) :=
  match es with
  | [] => Some (s, a)
  | e :: es =>
      match e with
      | ESecond st r => t ← recordSecond cfg st s r; follow cfg (turned t) (note a r s t) es
      | EAcquire => s' ← step cfg s e; follow cfg s' a es
      | EReacquire | EReset => s' ← step cfg s e; follow cfg s' noAccount es
      end
  end.

(** ** Frames of the account *)

(** A frame handed to the voter: where it begins, and whether it is a blank. *)
Record Fed := MkFed { fd_at : nat; fd_suspect : bool }.
Definition secsAt (l : list Sec) (b : nat) : list Sec := take 60 (drop b l).
Definition frameOf (l : list Sec) (p : Fed) : Frame :=
  if fd_suspect p then blankFrame else MkFrame (map sym (secsAt l (fd_at p))) (map conf (secsAt l (fd_at p))).
Definition reports (l : list Sec) (p : Fed) (fi : FrameInfo) : Prop :=
  exists st, fi = decodeFrame st (map sym (secsAt l (fd_at p))) (map conf (secsAt l (fd_at p))) (hd 0 (map edgeSample (secsAt l (fd_at p)))).
(** Each frame follows the one before, a second off at most. *)
Fixpoint inTurn (ps : list Fed) : Prop :=
  match ps with
  | p :: (q :: _) as ps' => (fd_at p + 59 <= fd_at q <= fd_at p + 61)%nat /\ inTurn ps'
  | _ => True
  end.
Definition unsuspected (ps : list Fed) : list Fed := List.filter (fun q => negb (fd_suspect q)) ps.
Definition fedWindow (cfg : Config) (l : list Sec) (fed : list Fed) : list Frame := keep_last (window cfg) (map (frameOf l) fed).
Definition within (l : list Sec) (q : Fed) : Prop := (fd_at q + 60 <= length l)%nat.

(** What a label rests on: [l] are the seconds recorded, [x] the frames reported and
    the label, [at0] the second it is given at. *)
Definition backed `{Pow} (cfg : Config) (l : list Sec) (st : ClockStation) (at0 : Last) (x : list FrameInfo * TimeInfo) : Prop :=
  exists (fed : list Fed) (p : Fed),
    let all := (fed ++ [p])%list in
    let k := skeleton (map sym (secsAt l (fd_at p))) in
    inTurn all /\ Forall (within l) all /\ Forall2 (reports l) (unsuspected all) (fst x) /\
    fd_suspect p = false /\ slipped k = false /\ skeletonOk k = true /\
    l_locked (lockVerdict cfg (fedWindow cfg l all)) = true /\
    snd x = MkTimeInfo (votedTimestamp cfg (fedWindow cfg l all)) (lockConfidence cfg (fedWindow cfg l all))
              (lastEdgeSample at0) (lastEdgeSampleExact at0) (lastEdgeSecondOfFrame at0) st.

(** ** Lemmas: lists *)

Lemma framesIn_app a b : framesIn (a ++ b) = (framesIn a ++ framesIn b)%list.
Proof. induction a as [|[] a IH]; cbn; by rewrite ?IH. Qed.
Lemma labelled_app a b : forall fis, labelled fis (a ++ b) = (labelled fis a ++ labelled (fis ++ framesIn a) b)%list.
Proof. induction a as [|[] a IH]; intros fis; cbn; rewrite ?app_nil_r, ?IH, <- ?app_assoc; done. Qed.

(** Calls that say nothing of frames or the time. *)
Definition quiet (c : Call) : Prop := match c with OnState _ | OnSecond _ _ => True | _ => False end.
Lemma quiet_calls cs : Forall quiet cs -> framesIn cs = [] /\ forall fis, labelled fis cs = [].
Proof. induction 1 as [|[] cs Q _ IH]; done. Qed.

Lemma timed_calls (P : TimeInfo -> Prop) cs :
  Forall (fun c => match c with OnTime t => P t | OnState _ => True | _ => False end) cs ->
  framesIn cs = [] /\ forall fis, Forall (fun x => fst x = fis /\ P (snd x)) (labelled fis cs).
Proof. induction 1 as [|[] cs Q _ [IH1 IH2]]; try done. split; [done|]. intros fis. by constructor. Qed.

Lemma keep_last_snoc {A} n (l : list A) x : keep_last n (keep_last n l ++ [x]) = keep_last n (l ++ [x]).
Proof.
  unfold keep_last. rewrite !length_app, length_drop. cbn [length].
  destruct (Nat.le_gt_cases n (length l)) as [L|L].
  - rewrite <- (drop_app_le l [x] (length l - n)) by lia. rewrite drop_drop. f_equal. lia.
  - replace (length l - n)%nat with 0%nat by lia. rewrite drop_0. f_equal. lia.
Qed.
Lemma inTurn_snoc ps p q : inTurn (ps ++ [p]) -> (fd_at p + 59 <= fd_at q <= fd_at p + 61)%nat -> inTurn ((ps ++ [p]) ++ [q]).
Proof.
  intros T L. induction ps as [|a ps IH]; [by split|]. destruct ps as [|b ps].
  - cbn [app inTurn] in *. destruct T as [T _]. by split.
  - cbn [app inTurn] in T, IH |- *. destruct T as [T1 T2]. split; [exact T1|]. by apply IH.
Qed.

Lemma secsAt_snoc l r b : (b + 60 <= length l)%nat -> secsAt (l ++ [r]) b = secsAt l b.
Proof.
  intros L. unfold secsAt. rewrite drop_app_le by lia. apply take_app_le. rewrite length_drop. lia.
Qed.
Lemma frameOf_snoc l r p : within l p -> frameOf (l ++ [r]) p = frameOf l p.
Proof. intros W. unfold frameOf. by rewrite secsAt_snoc. Qed.
Lemma fedWindow_snoc cfg l r fed : Forall (within l) fed -> fedWindow cfg (l ++ [r]) fed = fedWindow cfg l fed.
Proof.
  intros F. unfold fedWindow. f_equal. apply map_ext_Forall. eapply Forall_impl; [exact F|]. intros p. apply frameOf_snoc.
Qed.
Lemma reports_snoc l r ps fis : Forall (within l) ps -> Forall2 (reports l) (unsuspected ps) fis ->
  Forall2 (reports (l ++ [r])) (unsuspected ps) fis.
Proof.
  intros W. assert (W' : Forall (within l) (unsuspected ps)).
  { rewrite List.Forall_forall in *. intros q I. apply W. by apply List.filter_In in I as [I _]. }
  intros F. induction F as [|p fi ps' fis' R _ IH]; [constructor|]. apply Forall_cons in W' as [Wp W']. constructor; [|by apply IH].
  unfold reports in *. by rewrite secsAt_snoc.
Qed.

(** ** The account of a state *)

Definition heardRec (r : Rec) : Z * ClockSymbol * double := (r_edge r, r_sym r, r_conf r).
Definition heardSec (r : Sec) : Z * ClockSymbol * double := (edgeSample r, sym r, conf r).

Record Told (cfg : Config) (l : list Sec) (s : Impl) (fis : list FrameInfo) (fed : list Fed) : Prop := {
  td_ok : recsOk s;
  td_short : (length (recs s) <= length l)%nat;
  td_recs : map heardRec (recs s) = drop (length l - length (recs s)) (map heardSec l);
  td_voter : voter s = fedWindow cfg l fed;
  td_in : Forall (within l) fed;
  td_reports : Forall2 (reports l) (unsuspected fed) fis;
  td_turn : inTurn fed;
  td_next : forall fed' p, fed = (fed' ++ [p])%list ->
    let next := nextFrameStartK (anchor s) in
    let j := next - (secIndex s - Z.of_nat (length l)) in
    anchored (anchor s) = true /\
    ((j = Z.of_nat (fd_at p) + 60 /\ recBase s + 60 <= next) \/
     (lastRealignK (slip s) = next /\ Z.of_nat (fd_at p) + 59 <= j <= Z.of_nat (fd_at p) + 61 /\ recBase s + 59 <= next))
}.

Section Account.
Context `{Pow} (cfg : Config).

Lemma told_same l s s' fis fed : framing s' = framing s -> voter s' = voter s -> lastRealignK (slip s') = lastRealignK (slip s) ->
  Told cfg l s fis fed -> Told cfg l s' fis fed.
Proof.
  intros F V R [A1 A2 A3 A4 A5 A6 A7 A8]. unfold framing in F. injection F as F1 F2 F3 F4.
  split; rewrite ?F1, ?F2, ?F3, ?F4, ?V, ?R; try done. unfold recsOk in *. by rewrite F1, F2, F3.
Qed.
Lemma told_nothing s : recs s = [] -> recBase s = secIndex s -> voter s = [] -> Told cfg [] s [] [].
Proof.
  intros E1 E2 E3. split; rewrite ?E1; try done.
  - unfold recsOk, kRecCap. rewrite E1, E2. cbn. lia.
  - intros [|? ?] p E; done.
Qed.
Lemma told_reacquired s : Told cfg [] (softReacquire s) [] [].
Proof.
  unfold softReacquire. case_bool_decide; [by apply told_nothing|].
  match goal with |- context [setState ?x ?l] => destruct (setState_spec x l) as (F & _ & _ & V & _) end.
  unfold framing in F. injection F as F1 F2 F3 F4. apply told_nothing; [by rewrite F1|by rewrite F2, F3|by rewrite V].
Qed.
Lemma told_reset s : Told cfg [] (resetFrames s) [] [].
Proof.
  unfold resetFrames. match goal with |- context [setState ?x ?l] => destruct (setState_spec x l) as (F & _ & _ & V & _) end.
  unfold framing in F. injection F as F1 F2 F3 F4. apply told_nothing; [by rewrite F1|by rewrite F2, F3|by rewrite V].
Qed.
Lemma reacquire_quiet s : exists new, calls (softReacquire s) = (calls s ++ new)%list /\ Forall quiet new.
Proof.
  unfold softReacquire. case_bool_decide; [exists []; by rewrite app_nil_r|].
  match goal with |- context [setState ?x ?l] => destruct (setState_spec x l) as (_ & _ & _ & _ & _ & [->| ->]) end;
    [exists []; by rewrite app_nil_r|]. eexists. split; [done|]. by repeat constructor.
Qed.
Lemma demote_quiet s : exists new, calls (demote s) = (calls s ++ new)%list /\ Forall quiet new.
Proof.
  destruct (wwv_demote_spec s) as (_ & _ & _ & _ & _ & [->| ->]); [exists []; by rewrite app_nil_r|].
  eexists. split; [done|]. by repeat constructor.
Qed.

(** The sixty records from [next] on are those seconds of the account. *)
Lemma told_frame l s fis fed : Told cfg l s fis fed ->
  recBase s <= nextFrameStartK (anchor s) -> nextFrameStartK (anchor s) + 60 <= secIndex s ->
  let f := frameAt (recs s) (Z.to_nat (nextFrameStartK (anchor s) - recBase s)) in
  let b := Z.to_nat (nextFrameStartK (anchor s) - (secIndex s - Z.of_nat (length l))) in
  Z.of_nat b = nextFrameStartK (anchor s) - (secIndex s - Z.of_nat (length l)) /\ (b + 60 <= length l)%nat /\
  map heardRec f = map heardSec (secsAt l b).
Proof.
  intros T L U. cbv zeta. destruct (td_ok _ _ _ _ _ T) as [O _]. pose proof (td_short _ _ _ _ _ T) as S.
  set (next := nextFrameStartK (anchor s)) in *. split; [lia|]. split; [lia|].
  unfold frameAt, secsAt. rewrite <- !firstn_map, <- !skipn_map, (td_recs _ _ _ _ _ T).
  change (@skipn) with (@drop). rewrite drop_drop. do 2 f_equal. lia.
Qed.
Lemma heard_frame f ss : map heardRec f = map heardSec ss ->
  map r_sym f = map sym ss /\ map r_conf f = map conf ss /\ r_edge (nth 0 f noRec) = hd 0 (map edgeSample ss).
Proof.
  intros E. split; [|split].
  - apply (f_equal (map (fun x => snd (fst x)))) in E. by rewrite !map_map in E.
  - apply (f_equal (map snd)) in E. by rewrite !map_map in E.
  - destruct f, ss; try done. by injection E.
Qed.

Lemma told_take l s fis fed st b :
  let next := nextFrameStartK (anchor s) in
  let f := frameAt (recs s) (Z.to_nat (next - recBase s)) in
  let k := skeleton (map r_sym f) in
  Told cfg l s fis fed -> anchored (anchor s) = true -> recBase s <= next -> next + 60 <= secIndex s -> slipped k = false ->
  b = Z.to_nat (next - (secIndex s - Z.of_nat (length l))) ->
  exists new, calls (turned (takeFrame cfg s st f k)) = (calls s ++ new)%list /\
    Forall (backed cfg l st (last s)) (labelled fis new) /\
    match takeFrame cfg s st f k with
    | Onward s' => exists fed', Told cfg l s' (fis ++ framesIn new) fed' /\ anchored (anchor s') = true /\ last s' = last s
    | Reacquired s' => Told cfg [] s' [] []
    end.
Proof.
  cbv zeta. intros T An L U Sl Eb. destruct (told_frame l s fis fed T L U) as (Zb & Wb & Ef). rewrite <- Eb in Zb, Wb, Ef.
  set (f := frameAt _ _) in *. set (k := skeleton _) in *. destruct (heard_frame _ _ Ef) as (Es & Ec & Ee).
  unfold takeFrame. cbv zeta. set (sus := _ && _). set (fi := decodeFrame _ _ _ _). set (fc := if sus then [] else [OnFrame fi]).
  set (s1 := if sus then s else call s (OnFrame fi)).
  assert (F1 : calls s1 = (calls s ++ fc)%list /\ framing s1 = framing s /\ voter s1 = voter s /\ last s1 = last s).
  { unfold s1, fc. destruct sus; [by rewrite app_nil_r|done]. }
  clearbody s1. set (n := if skeletonOk k then 0 else _). set (s2 := withSlip s1 (setStreak (slip s1) n)).
  assert (F2 : calls s2 = (calls s ++ fc)%list /\ framing s2 = framing s /\ voter s2 = voter s /\ last s2 = last s) by exact F1.
  clearbody s2 n. clear F1. destruct F2 as (C2 & G2 & V2 & L2).
  assert (Q2 : forall new, Forall quiet new -> labelled fis (fc ++ new) = []).
  { intros new Q. rewrite labelled_app. destruct (quiet_calls new Q) as [_ ->]. unfold fc. by destruct sus. }
  destruct (3 <=? n).
  { destruct (reacquire_quiet s2) as (new & C & Q). exists (fc ++ new)%list. cbn [turned]. rewrite C, C2, app_assoc.
    split; [done|]. rewrite Q2 by done. split; [constructor|]. apply told_reacquired. }
  set (s3 := vote cfg s2 _). set (q := MkFed b sus).
  assert (V3 : voter s3 = fedWindow cfg l (fed ++ [q])).
  { unfold s3, vote, addFrame, fedWindow. cbn [voter withVoter]. rewrite V2, (td_voter _ _ _ _ _ T). unfold fedWindow.
    rewrite keep_last_snoc, map_app. cbn [map]. do 3 f_equal. unfold frameOf, q. cbn [fd_suspect fd_at]. by rewrite Es, Ec. }
  destruct (noteMinute cfg s3 fi sus _) as [s4 ln] eqn:E.
  assert (F4 : framing s4 = framing s /\ calls s4 = calls s2 /\ voter s4 = voter s3 /\ last s4 = last s).
  { unfold noteMinute in E. injection E as <- <-. split; [exact G2|]. split; [done|]. by split. }
  destruct F4 as (G4 & C4 & V4 & L4).
  destruct (certify_spec cfg s4 st (l_locked (lockVerdict cfg (voter s3))) sus ln (skeletonOk k)) as (G5 & _ & L5 & V5 & new & C & _ & Q).
  set (s5 := certify _ _ _ _ _ _ _) in *. clearbody s5. cbn [turned]. exists (fc ++ new)%list.
  rewrite G4 in G5. unfold framing in G5. injection G5 as R1 R2 R3 R4.
  split; [change (calls (nextFrame s5 kFrameSecs)) with (calls s5); by rewrite C, C4, C2, app_assoc|].
  assert (Ti : inTurn (fed ++ [q])).
  { clear -T Zb. destruct fed as [|p0 fed0 _] using rev_ind; [done|]. apply inTurn_snoc; [apply T|].
    destruct (td_next _ _ _ _ _ T fed0 p0 eq_refl) as (_ & [[J _]|(_ & J & _)]); unfold q; cbn [fd_at]; lia. }
  assert (Wi : Forall (within l) (fed ++ [q])) by (apply Forall_app; split; [apply T|by repeat constructor]).
  assert (Rp : Forall2 (reports l) (unsuspected (fed ++ [q])) (fis ++ framesIn fc)).
  { unfold unsuspected. rewrite List.filter_app. apply Forall2_app; [apply T|]. unfold fc, q. cbn [List.filter fd_suspect].
    destruct sus; [constructor|]. repeat constructor. exists st. cbn [fd_at]. unfold fi. by rewrite Es, Ec, Ee. }
  split.
  - apply timed_calls in Q as [_ Q]. rewrite labelled_app. apply Forall_app. split; [unfold fc; by destruct sus|].
    eapply Forall_impl; [apply Q|]. cbn beta. intros [fis' ti] [Ef0 (P1 & P2 & _ & P4 & _ & P6)]. cbn [fst snd] in Ef0, P6. subst fis'.
    exists fed, q. cbv zeta. cbn [fst snd]. fold q. split; [exact Ti|]. split; [exact Wi|]. split; [exact Rp|].
    split; [exact P2|]. cbn [fd_at q]. rewrite <- Es. fold k. split; [exact Sl|]. split; [exact P4|]. rewrite <- V3.
    split; [exact P1|]. rewrite P6, V4, L4. f_equal. unfold votedNow. by rewrite votedFields_timestamp.
  - exists (fed ++ [q])%list. apply timed_calls in Q as [Q _]. rewrite framesIn_app, Q, app_nil_r.
    split; [|split; [cbn; by rewrite R4|cbn; by rewrite L5]]. split; try assumption.
    + unfold recsOk. cbn. rewrite R1, R2, R3. apply T.
    + cbn. rewrite R1. apply T.
    + cbn. rewrite R1. apply T.
    + cbn. by rewrite V5, V4.
    + intros fed' p Ep. apply app_inj_tail in Ep as [_ <-]. cbn. rewrite R2, R3, R4. split; [exact An|]. left. unfold kFrameSecs. lia.
Qed.

(** A skeleton a second off moves the next frame, or begins the seconds again. *)
Lemma told_realign l s fis fed k :
  Told cfg l s fis fed -> anchored (anchor s) = true ->
  exists new, calls (turned (realign s k)) = (calls s ++ new)%list /\ Forall quiet new /\
    match realign s k with
    | Onward s' => Told cfg l s' fis fed /\ anchored (anchor s') = true /\ last s' = last s
    | Reacquired s' => Told cfg [] s' [] []
    end.
Proof.
  intros T An. unfold realign. destruct (Z.eqb_spec (nextFrameStartK (anchor s)) (lastRealignK (slip s))) as [E|E].
  { destruct (reacquire_quiet s) as (new & C & Q). exists new. split; [done|]. split; [done|]. apply told_reacquired. }
  cbv zeta. match goal with |- context [demote ?x] => set (s1 := x); destruct (demote_quiet s1) as (new & C & Q);
    destruct (wwv_demote_spec s1) as (G & Sp & L & V & _) end.
  cbn [turned]. exists new. split; [exact C|]. split; [exact Q|]. unfold framing in G. injection G as R1 R2 R3 R4.
  split; [|split; [by rewrite R4|by rewrite L]]. destruct T as [T1 T2 T3 T4 T5 T6 T7 T8].
  split; try assumption; rewrite ?R1, ?R2, ?R3, ?R4, ?Sp, ?V; try assumption.
  - unfold recsOk. by rewrite R1, R2, R3.
  - intros fed' p Ep. destruct (T8 fed' p Ep) as (_ & [[J B]|(J & _)]); [|congruence]. cbn. split; [exact An|]. right.
    destruct (mkEarly k <=? mkLate k); split; try done; lia.
Qed.

(** The loop over frames. *)
Lemma told_feed st fuel : forall l s t fis fed,
  feed cfg fuel st s = Some t -> Told cfg l s fis fed -> anchored (anchor s) = true ->
  exists new, calls (turned t) = (calls s ++ new)%list /\ Forall (backed cfg l st (last s)) (labelled fis new) /\
    match t with
    | Onward s' => exists fed', Told cfg l s' (fis ++ framesIn new) fed' /\ anchored (anchor s') = true
    | Reacquired s' => Told cfg [] s' [] []
    end.
Proof.
  induction fuel as [|fuel IH]; intros l s t fis fed E T An; [done|]. cbn [feed] in E. cbv zeta in E.
  destruct (Z.leb_spec (nextFrameStartK (anchor s) + (kFrameSecs - 1)) (secIndex s - 1)) as [U|U].
  2: { injection E as <-. exists []. cbn. rewrite !app_nil_r. split; [done|]. split; [constructor|]. by exists fed. }
  unfold kFrameSecs in U.
  destruct (Z.ltb_spec (nextFrameStartK (anchor s)) (recBase s)) as [B|B].
  { assert (N : Told cfg l (nextFrame s kFrameSecs) fis fed); [|exact (IH _ _ _ _ _ E N An)].
    destruct T as [T1 T2 T3 T4 T5 T6 T7 T8]. split; try assumption.
    intros fed' p Ep. destruct (T8 fed' p Ep) as (_ & [[_ ?]|(_ & _ & ?)]); lia. }
  destruct (told_frame l s fis fed T B) as (Zb & Wb & Ef); [lia|].
  set (f := frameAt _ _) in *. set (b := Z.to_nat (_ - (_ - _))) in *. set (k := skeleton _) in *.
  destruct (negb (length f =? 60)%nat); [done|]. destruct (slipped k) eqn:Sl.
  - destruct (told_realign l s fis fed k T An) as (n1 & C1 & Q1 & P). destruct (quiet_calls n1 Q1) as [Fn Ln].
    destruct (realign s k) as [s1|s1].
    + destruct P as (T1 & An1 & L1). destruct (IH _ _ _ _ _ E T1 An1) as (n2 & C2 & B2 & P2). rewrite L1 in B2.
      exists (n1 ++ n2)%list. cbn [turned] in C1. rewrite C2, C1, app_assoc, labelled_app, framesIn_app, Fn, Ln, app_nil_r. done.
    + injection E as <-. exists n1. split; [exact C1|]. rewrite Ln. split; [constructor|exact P].
  - destruct (told_take l s fis fed st b T An B) as (n1 & C1 & B1 & P); [lia|exact Sl|done|]. fold f k in C1, P.
    destruct (takeFrame cfg s st f k) as [s1|s1].
    + destruct P as (fed1 & T1 & An1 & L1). destruct (IH _ _ _ _ _ E T1 An1) as (n2 & C2 & B2 & P2). rewrite L1 in B2.
      exists (n1 ++ n2)%list. cbn [turned] in C1. rewrite C2, C1, app_assoc, labelled_app, framesIn_app, app_assoc.
      split; [done|]. split; [by apply Forall_app|exact P2].
    + injection E as <-. by exists n1.
Qed.

(** A second recorded. *)
Lemma told_pushed l s r fis fed : Told cfg l s fis fed ->
  (anchored (anchor s) = true -> secIndex s - nextFrameStartK (anchor s) < 60) ->
  exists new, calls (pushed s r) = (calls s ++ new)%list /\ Forall quiet new /\ Told cfg (l ++ [r]) (pushed s r) fis fed /\
    last (pushed s r) = MkLast (edgeSample r) (edgeExact r) (secondOfFrame s).
Proof.
  intros T Cu. unfold pushed. cbv zeta. set (sof := secondOfFrame s).
  match goal with |- context [call (withLast ?x ?y) ?c] => set (s0 := x); set (s1 := call (withLast s0 y) c) end.
  assert (F0 : (exists new, calls s0 = (calls s ++ new)%list /\ Forall quiet new) /\ framing s0 = framing s /\ voter s0 = voter s /\
    lastRealignK (slip s0) = lastRealignK (slip s)).
  { unfold s0. destruct (contradicts _ _ _); [|split; [exists []; by rewrite app_nil_r|done]].
    match goal with |- context [demote ?x] => destruct (demote_quiet x) as (new & C & Q); destruct (wwv_demote_spec x) as (G & Sp & _ & V & _) end.
    split; [by exists new|]. rewrite G, Sp, V. done. }
  destruct F0 as ((n0 & C0 & Q0) & G0 & V0 & R0).
  exists (n0 ++ [OnSecond r sof])%list.
  assert (T1 : Told cfg l s1 fis fed) by (apply (told_same l s); assumption).
  assert (C1 : calls s1 = (calls s ++ (n0 ++ [OnSecond r sof]))%list) by (unfold s1; cbn; by rewrite C0, app_assoc).
  assert (A1 : anchor s1 = anchor s /\ secIndex s1 = secIndex s) by (unfold framing in G0; injection G0 as _ _ <- <-; done).
  assert (L1 : last s1 = MkLast (edgeSample r) (edgeExact r) sof) by done. destruct A1 as [A1 K1]. rewrite <- K1, <- A1 in Cu. rewrite <- K1.
  clearbody s1. clear s0 C0 G0 V0 R0.
  set (rec := MkRec _ _ _ _ _). set (s2 := if (kRecCap <? _)%nat then _ else _).
  assert (F2 : calls s2 = calls s1 /\ anchor s2 = anchor s1 /\ last s2 = last s1 /\ voter s2 = voter s1 /\ slip s2 = slip s1 /\
    secIndex s2 = secIndex s1 + 1 /\ exists n, recs s2 = drop n (recs s1 ++ [rec]) /\ recBase s2 = recBase s1 + Z.of_nat n /\
      (n = 0%nat /\ (length (recs s1) < kRecCap)%nat \/ n = 1%nat /\ (kRecCap <= length (recs s1))%nat)).
  { unfold s2. rewrite length_app. cbn [length]. destruct (Nat.ltb_spec kRecCap (length (recs s1) + 1)); repeat (split; [done|]);
      [exists 1%nat; split; [done|]; split; [done|]; right; lia|exists 0%nat; split; [done|]; split; [cbn; lia|]; left; lia]. }
  clearbody s2. destruct F2 as (C2 & A2 & L2 & V2 & S2 & K2 & n & E2 & B2 & N). rewrite <- C2 in C1. rewrite <- L2 in L1.
  assert (T2 : Told cfg (l ++ [r]) s2 fis fed).
  { destruct T1 as [[T1 T1'] U1 U2 U3 U4 U5 U6 U7].
    assert (Ln : length (recs s2) = (length (recs s1) + 1 - n)%nat) by (rewrite E2, length_drop, length_app; done).
    split.
    - split; [lia|]. unfold kRecCap in *. lia.
    - rewrite Ln, length_app. cbn. lia.
    - rewrite Ln, E2, length_app. cbn [length]. rewrite <- skipn_map, !map_app, U2. change (@skipn) with (@drop). cbn [map].
      replace (heardRec rec) with (heardSec r) by done. rewrite <- drop_app_le by (rewrite length_map; lia). rewrite drop_drop.
      f_equal. lia.
    - by rewrite V2, fedWindow_snoc.
    - eapply Forall_impl; [exact U4|]. intros q W. unfold within in *. rewrite length_app. lia.
    - by apply reports_snoc.
    - done.
    - intros fed' p Ep. destruct (U7 fed' p Ep) as (An & J). specialize (Cu An). cbv zeta. rewrite A2, S2, K2, B2, length_app. cbn [length].
      split; [exact An|]. unfold kRecCap in *. destruct J as [[J B]|(J1 & J2 & B)]; [left|right; split; [exact J1|]]; lia. }
  assert (Q : Forall quiet (n0 ++ [OnSecond r sof])) by (apply Forall_app; split; [exact Q0|by repeat constructor]).
  destruct (anchored (anchor s2)) eqn:An; [done|].
  destruct (tryAnchor_spec s2) as (R1 & R2 & R3 & R4 & R5 & R6 & R7 & _). rewrite R7, R5. split; [exact C1|]. split; [exact Q|]. split; [|exact L1].
  destruct T2 as [[O1 O2] U1 U2 U3 U4 U5 U6 U7]. split; rewrite ?R1, ?R6; try assumption.
  - split; [by rewrite R1, R2, R3|by rewrite R1].
  - intros fed' p Ep. destruct (U7 fed' p Ep) as [An' _]. congruence.
Qed.

Definition caughtUp (s : Impl) : Prop := anchored (anchor s) = true -> secIndex s - nextFrameStartK (anchor s) < 60.
Lemma told_record st l s r fis fed : Told cfg l s fis fed -> caughtUp s ->
  exists t new, recordSecond cfg st s r = Some t /\ recsOk (turned t) /\ caughtUp (turned t) /\
    calls (turned t) = (calls s ++ new)%list /\
    Forall (backed cfg (l ++ [r]) st (MkLast (edgeSample r) (edgeExact r) (secondOfFrame s))) (labelled fis new) /\
    match t with
    | Onward s' => exists fed', Told cfg (l ++ [r]) s' (fis ++ framesIn new) fed'
    | Reacquired s' => Told cfg [] s' [] []
    end.
Proof.
  intros T Cu. destruct (record_total cfg st s r (td_ok _ _ _ _ _ T)) as (t & E & R & _ & C). exists t.
  rewrite record_pushed in E |- *. destruct (told_pushed l s r fis fed T Cu) as (n0 & C0 & Q0 & T0 & L0).
  destruct (quiet_calls n0 Q0) as [Fn Ln]. unfold feedPendingFrames in E |- *.
  destruct (anchored (anchor (pushed s r))) eqn:An.
  - destruct (told_feed st _ _ _ _ _ _ E T0 An) as (n1 & C1 & B1 & P). rewrite L0 in B1. exists (n0 ++ n1)%list.
    rewrite C1, C0, app_assoc, labelled_app, framesIn_app, Fn, Ln, app_nil_r. repeat (split; [done|]).
    destruct t; [destruct P as (fed' & P & _); by exists fed'|exact P].
  - injection E as <-. exists n0. rewrite Ln, Fn, app_nil_r. repeat (split; [done|]). by exists fed.
Qed.

Lemma told_follow es : forall s a fed, Told cfg (a_secs a) s (a_frames a) fed -> caughtUp s ->
  exists s' a' fed', run cfg s es = Some s' /\ follow cfg s a es = Some (s', a') /\
    Told cfg (a_secs a') s' (a_frames a') fed' /\ caughtUp s'.
Proof.
  induction es as [|e es IH]; intros s a fed T Cu; [by exists s, a, fed|].
  assert (Reset : forall s1, recs s1 = [] -> step cfg s e = Some s1 -> anchored (anchor s1) = false -> Told cfg [] s1 [] [] ->
    exists s' a' fed', run cfg s1 es = Some s' /\ follow cfg s1 noAccount es = Some (s', a') /\
      Told cfg (a_secs a') s' (a_frames a') fed' /\ caughtUp s').
  { intros s1 _ _ An T1. apply (IH s1 noAccount [] T1). unfold caughtUp. congruence. }
  destruct e as [|st r| |]; cbn [run follow step mbind option_bind].
  - destruct (setState_spec s LockAcquiring) as (G & Sp & _ & V & _). apply (IH _ _ fed).
    + apply (told_same _ s); [done|done|by rewrite Sp|done].
    + unfold framing in G. injection G as G1 G2 G3 G4. unfold caughtUp. by rewrite G3, G4.
  - destruct (told_record st _ s r _ fed T Cu) as (t & new & -> & _ & Cu' & C & _ & P). cbn [mbind option_bind].
    destruct t as [s1|s1]; cbn [turned note] in *.
    + destruct P as (fed' & P). apply (IH s1 _ fed'); [|done]. rewrite C. cbn [a_secs a_frames].
      by rewrite drop_app_length.
    + by apply (IH s1 _ []).
  - destruct (softReacquire_turn s) as (R & _ & _ & An). apply (Reset _ R); [done|exact An|apply told_reacquired].
  - assert (X : recs (resetFrames s) = [] /\ anchored (anchor (resetFrames s)) = false).
    { unfold resetFrames. match goal with |- context [setState ?x ?y] => destruct (setState_spec x y) as (G & _) end.
      unfold framing in G. by injection G as -> _ _ ->. }
    destruct X as [R An]. apply (Reset _ R); [done|exact An|apply told_reset].
Qed.
End Account.

(** ** Properties *)

(** C21: Every second is taken, and every label is backed. Whatever has happened to
    the decoder since it was made, the next second is recorded: the loop over frames
    ends, every record it reads is there, the records stay within their limit, and
    afterwards no complete frame is left waiting. And with the account kept of the
    run - the seconds recorded and the frames reported since the seconds last began
    again, this second included - every label given on the way is what the locked
    voter votes, with its confidence, at this second, on its window of the frames
    handed to it since then and on nothing else: each one sixty of those seconds,
    following the one before to within a second, as it was reported, or a blank where
    nothing was reported; the newest one reported, with its markers where they
    belong. *)
Theorem wwv_labels_backed `{Pow} (cfg : Config) (es : list Event) (st : ClockStation) (r : Sec) :
  exists s a t new, run cfg fresh es = Some s /\ follow cfg fresh noAccount es = Some (s, a) /\
    recordSecond cfg st s r = Some t /\ recsOk (turned t) /\
    (anchored (anchor (turned t)) = true -> secIndex (turned t) - nextFrameStartK (anchor (turned t)) < 60) /\
    calls (turned t) = (calls s ++ new)%list /\
    Forall (backed cfg (a_secs a ++ [r]) st (MkLast (edgeSample r) (edgeExact r) (secondOfFrame s))) (labelled (a_frames a) new).
Proof.
  destruct (told_follow cfg es fresh noAccount []) as (s & a & fed & R & F & T & Cu); [by apply told_nothing|done|].
  destruct (told_record cfg st _ s r _ fed T Cu) as (t & new & E & Ok & Cu' & C & B & _).
  exists s, a, t, new. repeat (split; [done|]). exact B.
Qed.

(** Anchored after two minutes; with the third second of gap in the account, the
    minutes before it are no longer in it, and nothing is labelled. *)
Definition afterMinutes (gap : list Event) : list Event :=
  (map (ESecond StWwv) demoTail ++ map (ESecond StWwv) (sendMinute demoMinute true 0) ++ gap ++
   map (ESecond StWwv) (take 59 (sendMinute (advanceMinutes demoMinute 1) true 720000)))%list.
Definition lastSecond : Sec := nth 59 (sendMinute (advanceMinutes demoMinute 1) true 720000) (MkSec 0 0 false false SymUnknown 0 0).
Definition labelsAfter `{Pow} (gap : list Event) : option (nat * list (list Z * TimeFields)) :=
  '(s, a) ← follow wwvVoter fresh noAccount (afterMinutes gap);
  t ← recordSecond wwvVoter StWwv s lastSecond;
  Some (length (a_secs a), map (fun x => (map fi_start (fst x), ti_fields (snd x))) (labelled (a_frames a) (drop (length (calls s)) (calls (turned t))))).
Example wwv_gap_forgets :
  @labelsAfter demoPow [] = Some (126%nat, [([0; 720000], TF 57 23 366 16)]) /\
  @labelsAfter demoPow [EReacquire] = Some (59%nat, []).
Proof. vm_compute. split; reflexivity. Qed.
