(* ===== verification/WwvTick.v ===== *)
(** * The seconds tick of WWV and WWVH (src/clock/WwvDecoder.cpp, TickTimer and timeTick)
    One station's tick, timed: each second's correlation with the burst, averaged
    coherently over seconds at a prediction that follows it; the apex of the
    average's triangle; the lock; and the slope of where the tick has been. Every
    read of the ring of samples and of a profile is checked. *)

From Stdlib Require Import ZArith Lia List Bool Floats.
From stdpp Require Import base list.
From S2P Require Import Prelude Doubles Rounding Signals.

#[local] Open Scope Z_scope.

(** ** Complex numbers
    [std::complex<double>]. A product both of whose parts come out NaN is looked at
    again by the compiler's library, which may make an infinity of it: that is
    [cm_nan]. *)

Record C := MkC { re : double; im : double }.
Class CMul := { cm_nan : C -> C -> C }.
Definition c0 : C := MkC 0 0.
Definition cadd (a b : C) : C := MkC (re a + re b)%D (im a + im b)%D.
Definition csub (a b : C) : C := MkC (re a - re b)%D (im a - im b)%D.
Definition cscale (k : double) (a : C) : C := MkC (k * re a)%D (k * im a)%D.
Definition cconj (a : C) : C := MkC (re a) (- im a)%D.
Definition cnorm (a : C) : double := (re a * re a + im a * im a)%D.
Definition cmul `{CMul} (a b : C) : C :=
  let x := (re a * re b - im a * im b)%D in
  let y := (re a * im b + im a * re b)%D in
  if dnan x && dnan y then cm_nan a b else MkC x y.
Definition cabs `{Libm} (a : C) : double := lm_hypot (re a) (im a).
Definition carg `{Libm} (a : C) : double := lm_atan2 (im a) (re a).
(** [std::polar(1.0, theta)]. *)
Definition polar1 `{Libm} (theta : double) : C := MkC (lm_cos theta) (lm_sin theta).

(** [static_cast<int>] of a [long long], and of a double, with the value x86-64
    gives out of range. *)
Definition d2int (x : double) : Z :=
  let z := d2ll x in
  if (-2147483648 <=? z) && (z <? 2147483648) then z else -2147483648.
Definition lround32 (x : double) : Z := i32 (dllround x).

(** ** Constants *)

Definition kTickSec : double := 0.005%D.
Definition kTickTrackSec : double := 0.015%D.
Definition kTickAcqSec : double := 0.030%D.
Definition kTickAlpha : double := (1 / 16)%D.
Definition kTickLockSnr : double := 25%D.
Definition kTickHoldSnr : double := 10%D.
Definition kTickMissLimit : Z := 10.
Definition kTickMinSecs : Z := 8.
Definition kTickRateSecs : nat := 120.
Definition kTickRateMin : nat := 10.
Definition kTickMaxStep : double := 3%D.
Definition kTickStepAlpha : double := 0.5%D.
Definition kTickMaxPpm : double := 200%D.
Definition kToneRatio : double := 0.3%D.
Definition kTickIsolation : double := 4%D.

(** ** The timer *)

(** What [init] sets for good: the two bursts' angular steps, the lengths, the
    templates and the samples of a second. *)
Record Shape := MkShape {
  w : double; wo : double; L : Z; W : Z; Wacq : Z; tpl : list C; tplO : list C; nominal : double
}.
(** [hist] is the second and the edge of each of the last two minutes' locked
    seconds. The profiles of the second itself, [cur] and [curO], are values of
    [timeTick]: it writes them before it reads them. *)
Record Timer := MkTimer {
  avg : list C; avgO : list C; varAvg : double; n : Z; active : bool; x : double; period : double;
  locked : bool; miss : Z; stepRef : double; tickCount : Z; hist : list (double * double); snr : double; edge : double
}.
Definition withMean (t : Timer) (a o : list C) (v : double) (k : Z) : Timer :=
  MkTimer a o v k (active t) (x t) (period t) (locked t) (miss t) (stepRef t) (tickCount t) (hist t) (snr t) (edge t).
Definition withX (t : Timer) (v : double) : Timer :=
  MkTimer (avg t) (avgO t) (varAvg t) (n t) (active t) v (period t) (locked t) (miss t) (stepRef t) (tickCount t) (hist t) (snr t) (edge t).
Definition withSnr (t : Timer) (v : double) : Timer :=
  MkTimer (avg t) (avgO t) (varAvg t) (n t) (active t) (x t) (period t) (locked t) (miss t) (stepRef t) (tickCount t) (hist t) v (edge t).
Definition withEdge (t : Timer) (v : double) : Timer :=
  MkTimer (avg t) (avgO t) (varAvg t) (n t) (active t) (x t) (period t) (locked t) (miss t) (stepRef t) (tickCount t) (hist t) (snr t) v.
Definition withHist (t : Timer) (h : list (double * double)) (p : double) : Timer :=
  MkTimer (avg t) (avgO t) (varAvg t) (n t) (active t) (x t) p (locked t) (miss t) (stepRef t) (tickCount t) h (snr t) (edge t).
Definition withLock (t : Timer) (p : double) (l : bool) (m : Z) (sr : double) (h : list (double * double)) : Timer :=
  MkTimer (avg t) (avgO t) (varAvg t) (n t) (active t) (x t) p l m sr (tickCount t) h (snr t) (edge t).

Section Tick.
Context `{Libm} `{CMul} (fs : Z).

Definition burst (ang : double) (len : Z) : list C :=
  map (fun t => polar1 (- ang * d_of_Z (Z.of_nat t))%D) (seq 0 (Z.to_nat (len + 1))).
Definition shapeOf (f other : double) : Shape :=
  let w := (2 * kPi * f / d_of_Z fs)%D in
  let wo := (2 * kPi * other / d_of_Z fs)%D in
  let L := lround32 (kTickSec * d_of_Z fs)%D in
  MkShape w wo L (lround32 (kTickTrackSec * d_of_Z fs)%D) (lround32 (kTickAcqSec * d_of_Z fs)%D)
    (burst w L) (burst wo L) (d_of_Z fs).
Definition blank (c : Shape) : list C := replicate (Z.to_nat (2 * Wacq c + 1)) c0.
Definition newTimer (c : Shape) : Timer :=
  MkTimer (blank c) (blank c) 0 0 false 0 (nominal c) false 0 0 0 [] 0 0.
(** [TickTimer::reset] keeps the prediction, the edge and the count of seconds. *)
Definition reset (c : Shape) (t : Timer) : Timer :=
  MkTimer (blank c) (blank c) 0 0 false (x t) (nominal c) false 0 0 (tickCount t) [] 0 (edge t).

(** A profile at a lag, when it has it. *)
Definition at_ (c : Shape) (v : list C) (lag : Z) : option C :=
  if (- Wacq c <=? lag) && (lag <=? Wacq c) then v !! Z.to_nat (lag + Wacq c) else None.
Definition lags (lo hi : Z) : list Z := map (fun i => lo + Z.of_nat i) (seq 0 (Z.to_nat (hi - lo + 1))).

(** *** Moving the average by [e] samples *)
Definition shiftLag (c : Shape) (v : list C) (wr e : double) (l : Z) : option C :=
  let s := (d_of_Z l + e)%D in
  let i0 := d2int (dfloor s) in
  let f := (s - d_of_Z i0)%D in
  if (i0 <? - Wacq c) || (Wacq c <? i0 + 1) then Some c0
  else
    a ← at_ c v i0;
    b ← at_ c v (i0 + 1);
    let b0 := cmul a (polar1 (- wr * d_of_Z i0)%D) in
    let b1 := cmul b (polar1 (- wr * d_of_Z (i0 + 1))%D) in
    Some (cmul (cadd (cscale (1 - f) b0) (cscale f b1)) (polar1 (wr * s)%D)).
Definition shiftOne (c : Shape) (v : list C) (wr e : double) : option (list C) :=
  mapM (shiftLag c v wr e) (lags (- Wacq c) (Wacq c)).
Definition shift (c : Shape) (t : Timer) (e : double) : option Timer :=
  if (e =? 0)%D then Some t
  else
    a ← shiftOne c (avg t) (w c) e;
    o ← shiftOne c (avgO t) (wo c) e;
    Some (withMean t a o (varAvg t) (n t)).

(** *** This second's profile *)

(** The burst against the samples from [s] on, which [ms] are. *)
Definition correlate (c : Shape) (tp : list C) (g : double) (turn : C) (ms : list double) : option C :=
  let len := Z.to_nat (L c) in
  v0 ← ms !! 0%nat;
  vL ← ms !! len;
  tL ← tp !! len;
  let acc := fold_left (fun a '(p, v) => cadd a (cscale v p)) (combine (take len tp) (take len ms)) c0 in
  let ends := cscale (0.5 + g)%D (csub (cscale vL tL) (MkC v0 0)) in
  Some (cmul (cadd acc ends) turn).
(** The profile over all lags: [ms] are the samples from [R - Wacq] to
    [R + Wacq + L]. *)
Definition profile (c : Shape) (tp : list C) (g : double) (turn : C) (ms : list double) : option (list C) :=
  mapM (fun i => correlate c tp g turn (take (Z.to_nat (L c) + 1) (drop i ms))) (seq 0 (Z.to_nat (2 * Wacq c + 1))).

(** How much better this station's tick explains a lag than the other's does. *)
Definition margin (c : Shape) (v o : list C) (l : Z) : option double :=
  a ← at_ c v l; b ← at_ c o l; Some (cnorm a - cnorm b)%D.
Definition own (c : Shape) (v o : list C) (l : Z) : option double := d ← margin c v o l; Some (dmax 0 d).
(** The first of the greatest of [f] over [lo] to [hi], above [b]. *)
Definition strongest (f : Z -> option double) (b : double) (lo hi : Z) : option (Z * double) :=
  foldl (fun acc l => '(lp, best) ← acc; v ← f l; Some (if (v >? best)%D then (l, v) else (lp, best)))
    (Some (0, b)) (lags lo hi).

(** Not a tick: a second that has none, or whose tone carries on into the
    protected zone. *)
Definition isTone (c : Shape) (t : Timer) (v o : list C) (lagNoise : double) : option bool :=
  l0 ← (if locked t then Some 0
        else p ← strongest (own c v o) (-1)%D (- Wacq c) (Wacq c - 3 * L c); Some (fst p));
  at0 ← own c v o l0;
  a2 ← own c v o (Z.min (Wacq c) (l0 + 2 * L c));
  a3 ← own c v o (Z.min (Wacq c) (l0 + 3 * L c));
  let after := (0.5 * (a2 + a3))%D in
  Some ((at0 >? 4 * lagNoise)%D && (after >? kToneRatio * at0)%D).

Definition mixIn (a : double) (l cur : list C) : list C :=
  zip_with (fun m v => cadd m (cscale a (csub v m))) l cur.
Definition absorb (t : Timer) (cur curO : list C) (lagNoise : double) : Timer :=
  let k := n t + 1 in
  let a := dmax (1 / d_of_Z k)%D kTickAlpha in
  withMean t (mixIn a (avg t) cur) (mixIn a (avgO t) curO)
    ((1 - a) * (1 - a) * varAvg t + a * a * lagNoise)%D k.

(** *** The apex *)

(** The average at a lag, projected onto the phase [theta]. *)
Definition y (c : Shape) (t : Timer) (theta : double) (l : Z) : option double :=
  a ← at_ c (avg t) l; Some (re (cmul a (polar1 (- (w c * d_of_Z l + theta))%D))).
(** The line through the lags [from] to [to]: its height at 0 and its slope. *)
Definition fit (c : Shape) (t : Timer) (theta : double) (from to_ : Z) : option (option (double * double)) :=
  vs ← mapM (fun l => v ← y c t theta l; Some (d_of_Z l, v)) (lags from to_);
  let '(sx, sy, sxx, sxy) :=
    fold_left (fun '(sx, sy, sxx, sxy) '(l, v) => (sx + l, sy + v, sxx + l * l, sxy + l * v)%D) vs (0, 0, 0, 0)%D in
  let cnt := Z.of_nat (length vs) in
  let den := (d_of_Z cnt * sxx - sx * sx)%D in
  Some (if (cnt <? 2) || (den =? 0)%D then None
        else let b := ((d_of_Z cnt * sxy - sx * sy) / den)%D in Some (((sy - b * sx) / d_of_Z cnt)%D, b)).

(** Where the lines of the two sides meet, when they are a triangle's. *)
Definition meet (c : Shape) (t : Timer) (theta : double) (lp span : Z) : option (option double) :=
  l ← fit c t theta (lp - span) (lp - 2);
  match l with
  | None => Some None
  | Some (aL, bL) =>
      r ← fit c t theta (lp + 2) (lp + span);
      Some (match r with
            | None => None
            | Some (aR, bR) => if (bL >? 0)%D && (bR <? 0)%D then Some ((aR - aL) / (bL - bR))%D else None
            end)
  end.

Definition spanOfApex (c : Shape) : Z := d2int (0.8 * d_of_Z (L c))%D.
Definition phaseAt (c : Shape) (t : Timer) (lp : Z) : option double :=
  a ← at_ c (avg t) lp; Some (carg a - w c * d_of_Z lp)%D.
(** The strongest lag as it is left, the phase it is judged on, and the apex. *)
Definition findApex (c : Shape) (t : Timer) (reach lp : Z) : option (Z * double * double) :=
  let span := spanOfApex c in
  theta ← phaseAt c t lp;
  m ← meet c t theta lp span;
  match m with
  | None => Some (lp, theta, d_of_Z lp)
  | Some p =>
      if (dabs (p - d_of_Z lp) <=? 2)%D then Some (lp, theta, p)
      else if (dabs (p - d_of_Z lp) >? d_of_Z span / 3)%D then Some (lp, theta, d_of_Z lp)
      else
        let lp' := lround32 p in
        if reach <? Z.abs lp' then Some (lp', theta, d_of_Z lp)
        else
          theta ← phaseAt c t lp';
          m ← meet c t theta lp' span;
          match m with
          | Some p => Some (lp', theta, if (dabs (p - d_of_Z lp') <=? 2)%D then p else d_of_Z lp')
          | None => Some (lp', theta, d_of_Z lp')
          end
  end.

(** The signal to noise ratio at the apex, nought when it has a rival. *)
Definition judgeApex (c : Shape) (t : Timer) (lp : Z) (theta : double) : option double :=
  peak ← y c t theta lp;
  a ← at_ c (avg t) lp;
  o ← at_ c (avgO t) lp;
  let r := (dmax 0 (peak * peak - cnorm o) / (0.5 * varAvg t))%D in
  rival ← foldl (fun acc l => m ← acc;
      if cdiv (3 * L c) 2 <? Z.abs (l - lp) then v ← margin c (avg t) (avgO t) l; Some (dmax m v) else Some m)
    (Some 0%D) (lags (- Wacq c) (Wacq c));
  Some (if (cnorm a <? kTickIsolation * rival)%D then 0%D else r).

(** *** The lock *)

Definition letGo (c : Shape) (t : Timer) : Timer :=
  let m := miss t + 1 in
  if kTickMissLimit <=? m then withLock t (nominal c) false m (stepRef t) []
  else withLock t (period t) (locked t) m (stepRef t) (hist t).
Definition trackLock (c : Shape) (t : Timer) (apex : double) : Timer * double :=
  if negb (locked t) then
    (if (kTickLockSnr <=? snr t)%D && (kTickMinSecs <=? n t)
     then withLock t (period t) true 0 0 [] else t, apex)
  else if (snr t <? kTickHoldSnr)%D then (letGo c t, 0%D)
  else if (dabs (apex - stepRef t) >? kTickMaxStep)%D then
    (letGo c t, (stepRef t + dclamp (apex - stepRef t) (- kTickMaxStep) kTickMaxStep)%D)
  else (withLock t (period t) (locked t) 0 (stepRef t + kTickStepAlpha * (apex - stepRef t))%D (hist t), apex).

(** The slope of the edges, when there are enough of them. *)
Definition slopePeriod (c : Shape) (h : list (double * double)) (p : double) : double :=
  match h with
  | [] => p
  | (s0, x0) :: _ =>
      let '(sx, sy, sxx, sxy) :=
        fold_left (fun '(sx, sy, sxx, sxy) '(s, e) =>
          let u := (s - s0)%D in let v := (e - x0)%D in (sx + u, sy + v, sxx + u * u, sxy + u * v)%D) h (0, 0, 0, 0)%D in
      let nn := d_of_Z (Z.of_nat (length h)) in
      let den := (nn * sxx - sx * sx)%D in
      if (den >? 0)%D then
        let lim := (nominal c * kTickMaxPpm * 1e-6)%D in
        dclamp ((nn * sxy - sx * sy) / den) (nominal c - lim) (nominal c + lim)
      else p
  end.
Definition follow (c : Shape) (t : Timer) : Timer :=
  if locked t && (miss t =? 0) then
    let h := keep_last kTickRateSecs (hist t ++ [(d_of_Z (tickCount t), x t)]) in
    withHist t h (if (kTickRateMin <=? length h)%nat then slopePeriod c h (period t) else period t)
  else t.

(** *** A second *)

(** The apex of the average, and what follows from it. *)
Definition settle (c : Shape) (t : Timer) : option Timer :=
  if (n t =? 0) || negb (varAvg t >? 0)%D then Some (withEdge t (x t))
  else
    let reach := (if locked t then W c else Wacq c) - L c in
    '(lp, _) ← strongest (margin c (avg t) (avgO t)) neg_infinity%float (- reach) reach;
    '(lp, theta, apex) ← findApex c t reach lp;
    s ← judgeApex c t lp theta;
    let '(t, apex) := trackLock c (withSnr t s) apex in
    t ← (if locked t || ((kTickLockSnr <=? snr t)%D && (kTickMinSecs <=? n t))
         then t ← shift c t apex; Some (withX t (x t + apex)%D) else Some t);
    let t := follow c t in
    Some (withEdge t (x t)).

(** The prediction: where the last second's leads, or the window's when that has
    been lost. *)
Definition predict (c : Shape) (t : Timer) (windowStart : double) : Timer :=
  let t :=
    if negb (active t) || (dabs (x t + period t - windowStart) >? 0.25 * d_of_Z fs)%D
    then let t := reset c t in
         MkTimer (avg t) (avgO t) (varAvg t) (n t) true windowStart (period t) (locked t) (miss t) (stepRef t)
           (tickCount t) (hist t) (snr t) (edge t)
    else withX t (x t + period t)%D in
  MkTimer (avg t) (avgO t) (varAvg t) (n t) (active t) (x t) (period t) (locked t) (miss t) (stepRef t)
    (tickCount t + 1) (hist t) (snr t) (edge t).

(** [mHead] is the newest sample of [mRing]; [silent] says the second has no tick. *)
Definition timeTick (c : Shape) (mRing : list double) (mHead : Z) (qVar : double) (t : Timer) (windowStart : double)
    (silent : bool) : option Timer :=
  let t := predict c t windowStart in
  let mMask := Z.of_nat (length mRing) - 1 in
  let R := dllround (x t) in
  let g := (x t - d_of_Z R)%D in
  if (R - Wacq c <? mHead - mMask) || (mHead <? R + Wacq c + L c + 1) then Some t
  else
    ms ← ringFrom (mHead - mMask) mHead mRing (R - Wacq c) (R + Wacq c + L c);
    cur ← profile c (tpl c) g (polar1 (w c * g)%D) ms;
    curO ← profile c (tplO c) g (polar1 (wo c * g)%D) ms;
    let lagNoise := (d_of_Z (L c) * qVar)%D in
    exclude ← (if silent then Some true else isTone c t cur curO lagNoise);
    settle c (if (exclude : bool) then t else absorb t cur curO lagNoise).
End Tick.

(** ** Lemmas: reads *)

(** The lengths fit each other, and the period's limits are about the nominal one:
    true of the rates in use. *)
Definition limit (c : Shape) : double := (nominal c * kTickMaxPpm * 1e-6)%D.
Definition shapeOk (c : Shape) : bool :=
  let span := spanOfApex c in
  let q := span / 3 + 1 in
  (0 <? L c) && (W c <=? Wacq c) && (L c <=? Wacq c) && (Wacq c <? 2 ^ 28) &&
  (0 <=? span) && (span <=? L c) && (q + 1 <=? L c) && (d_of_Z span / 3 <=? d_of_Z q)%D &&
  (length (tpl c) =? Z.to_nat (L c + 1))%nat && (length (tplO c) =? Z.to_nat (L c + 1))%nat &&
  negb (nominal c <? nominal c - limit c)%D && negb (nominal c + limit c <? nominal c)%D &&
  negb (nominal c + limit c <? nominal c - limit c)%D.

Lemma lags_In lo hi l : In l (lags lo hi) <-> lo <= l <= hi.
Proof.
  unfold lags. rewrite in_map_iff. split.
  - intros (i & <- & I). apply in_seq in I. lia.
  - intros R. exists (Z.to_nat (l - lo)). split; [lia|]. apply in_seq. lia.
Qed.
Lemma lags_length lo hi : length (lags lo hi) = Z.to_nat (hi - lo + 1).
Proof. unfold lags. by rewrite length_map, length_seq. Qed.
Lemma mapM_total {A B} (f : A -> option B) l : (forall a, In a l -> is_Some (f a)) ->
  exists bs, mapM f l = Some bs /\ length bs = length l.
Proof.
  intros F. assert (S : is_Some (mapM f l)).
  { apply mapM_is_Some, Forall_forall. intros a Ha. apply F. by apply list_elem_of_In. }
  destruct S as [bs E]. exists bs. split; [done|]. apply mapM_Some_1 in E. symmetry. by eapply Forall2_length.
Qed.
Lemma strongest_total f b lo hi : (forall l, lo <= l <= hi -> is_Some (f l)) ->
  exists lp best, strongest f b lo hi = Some (lp, best) /\ (lp = 0 \/ lo <= lp <= hi).
Proof.
  intros F. unfold strongest. assert (G : forall ls, (forall l, In l ls -> lo <= l <= hi) -> forall lp b,
    (lp = 0 \/ lo <= lp <= hi) -> exists lp' b', foldl (fun acc l => '(lp, best) ← acc; v ← f l;
      Some (if (v >? best)%D then (l, v) else (lp, best))) (Some (lp, b)) ls = Some (lp', b') /\ (lp' = 0 \/ lo <= lp' <= hi)).
  { induction ls as [|l ls IH]; intros Hl lp b0 P; cbn [foldl]; [eauto|]. cbn [mbind option_bind].
    destruct (F l (Hl l (or_introl eq_refl))) as [v ->]. cbn [mbind option_bind].
    destruct (v >? b0)%D; apply IH; try (intros; apply Hl; by right); [|done]. right. apply Hl. by left. }
  apply G; [|by left]. intros l. apply lags_In.
Qed.

Section Total.
Context `{Libm} `{CMul} (fs : Z) (c : Shape) (Ok : shapeOk c = true).

Definition profileOk (v : list C) : Prop := Z.of_nat (length v) = 2 * Wacq c + 1.
(** The averages have a place for every lag, and the period is within 200 parts in
    a million of the nominal one. *)
Definition timerOk (t : Timer) : Prop :=
  profileOk (avg t) /\ profileOk (avgO t) /\
  (period t <? nominal c - limit c)%D = false /\ (nominal c + limit c <? period t)%D = false.

Ltac shape := let S := fresh in pose proof Ok as S; unfold shapeOk in S; cbv zeta in S; rewrite !andb_true_iff in S;
  destruct S as ((((((((((((S1 & S2) & S3) & S4) & S5) & S6) & S7) & S8) & S9) & S10) & S11) & S12) & S13); zbool.

Lemma at_total v l : profileOk v -> - Wacq c <= l <= Wacq c -> is_Some (at_ c v l).
Proof.
  intros P R. unfold at_. destruct (Z.leb_spec (- Wacq c) l); [|lia]. destruct (Z.leb_spec l (Wacq c)); [|lia]. cbn [andb].
  apply lookup_lt_is_Some_2. unfold profileOk in P. lia.
Qed.
Lemma shiftOne_total v wr e : profileOk v -> exists v', shiftOne c v wr e = Some v' /\ profileOk v'.
Proof.
  intros P. destruct (mapM_total (shiftLag c v wr e) (lags (- Wacq c) (Wacq c))) as (v' & E & Ln).
  - intros l Hl. unfold shiftLag. cbv zeta. set (i0 := d2int _). destruct ((i0 <? - Wacq c) || (Wacq c <? i0 + 1)) eqn:B; [by eexists|].
    zbool. destruct (at_total v i0 P ltac:(lia)) as [a ->]. destruct (at_total v (i0 + 1) P ltac:(lia)) as [b ->]. by eexists.
  - exists v'. split; [exact E|]. unfold profileOk in *. rewrite Ln, lags_length. lia.
Qed.
Lemma shift_total t e : timerOk t -> exists t', shift c t e = Some t' /\ timerOk t'.
Proof.
  intros (A & O & P). unfold shift. destruct (e =? 0)%D; [by exists t|].
  destruct (shiftOne_total (avg t) (w c) e A) as (a & -> & A'). destruct (shiftOne_total (avgO t) (wo c) e O) as (o & -> & O').
  eexists. split; [done|]. by split.
Qed.

Lemma correlate_total tp g turn ms :
  length tp = Z.to_nat (L c + 1) -> length ms = Z.to_nat (L c + 1) -> is_Some (correlate c tp g turn ms).
Proof.
  intros T M. shape. unfold correlate. cbv zeta.
  destruct (lookup_lt_is_Some_2 ms 0 ltac:(lia)) as [v0 ->]. destruct (lookup_lt_is_Some_2 ms (Z.to_nat (L c)) ltac:(lia)) as [vL ->].
  destruct (lookup_lt_is_Some_2 tp (Z.to_nat (L c)) ltac:(lia)) as [tL ->]. by eexists.
Qed.
Lemma profile_total tp g turn ms :
  length tp = Z.to_nat (L c + 1) -> Z.of_nat (length ms) = 2 * Wacq c + L c + 1 ->
  exists v, profile c tp g turn ms = Some v /\ profileOk v.
Proof.
  intros T M. shape.
  destruct (mapM_total (fun i => correlate c tp g turn (take (Z.to_nat (L c) + 1) (drop i ms))) (seq 0 (Z.to_nat (2 * Wacq c + 1))))
    as (v & E & Ln).
  - intros i Hi. apply in_seq in Hi. apply correlate_total; [done|]. rewrite length_take, length_drop. lia.
  - exists v. split; [exact E|]. unfold profileOk. rewrite Ln, length_seq. lia.
Qed.

Lemma margin_total v o l : profileOk v -> profileOk o -> - Wacq c <= l <= Wacq c -> is_Some (margin c v o l).
Proof.
  intros P Q R. unfold margin. destruct (at_total v l P R) as [a ->]. destruct (at_total o l Q R) as [b ->]. by eexists.
Qed.
Lemma own_total v o l : profileOk v -> profileOk o -> - Wacq c <= l <= Wacq c -> is_Some (own c v o l).
Proof. intros P Q R. unfold own. destruct (margin_total v o l P Q R) as [d ->]. by eexists. Qed.
Lemma isTone_total t v o lagNoise : profileOk v -> profileOk o -> is_Some (isTone c t v o lagNoise).
Proof.
  intros P Q. shape. unfold isTone.
  assert (E : exists l0, (if locked t then Some 0
    else p ← strongest (own c v o) (-1)%D (- Wacq c) (Wacq c - 3 * L c); Some (fst p)) = Some l0 /\ - Wacq c <= l0 <= Wacq c).
  { destruct (locked t); [exists 0; split; [done|lia]|].
    destruct (strongest_total (own c v o) (-1)%D (- Wacq c) (Wacq c - 3 * L c)) as (lp & b & -> & B).
    { intros l Hl. apply own_total; [done..|lia]. }
    exists lp. split; [done|]. lia. }
  destruct E as (l0 & -> & R). cbn [mbind option_bind].
  destruct (own_total v o l0 P Q R) as [x1 ->]. cbn [mbind option_bind].
  destruct (own_total v o (Z.min (Wacq c) (l0 + 2 * L c)) P Q ltac:(lia)) as [x2 ->]. cbn [mbind option_bind].
  destruct (own_total v o (Z.min (Wacq c) (l0 + 3 * L c)) P Q ltac:(lia)) as [x3 ->]. by eexists.
Qed.

Lemma y_total t theta l : profileOk (avg t) -> - Wacq c <= l <= Wacq c -> is_Some (y c t theta l).
Proof. intros P R. unfold y. destruct (at_total (avg t) l P R) as [a ->]. by eexists. Qed.
Lemma fit_total t theta lo hi : profileOk (avg t) -> - Wacq c <= lo -> hi <= Wacq c -> is_Some (fit c t theta lo hi).
Proof.
  intros P R1 R2. unfold fit.
  destruct (mapM_total (fun l => v ← y c t theta l; Some (d_of_Z l, v)) (lags lo hi)) as (vs & -> & _).
  { intros l Hl. apply lags_In in Hl. destruct (y_total t theta l P ltac:(lia)) as [v ->]. by eexists. }
  cbn [mbind option_bind]. destruct (fold_left _ _ _) as [[[sx sy] sxx] sxy]. by eexists.
Qed.
Lemma meet_total t theta lp span :
  profileOk (avg t) -> 0 <= span -> - Wacq c <= lp - span -> lp + span <= Wacq c -> is_Some (meet c t theta lp span).
Proof.
  intros P Sp R1 R2. unfold meet. destruct (fit_total t theta (lp - span) (lp - 2) P R1 ltac:(lia)) as [l ->]. cbn [mbind option_bind].
  destruct l as [[aL bL]|]; [|by eexists].
  destruct (fit_total t theta (lp + 2) (lp + span) P ltac:(lia) R2) as [r ->]. by eexists.
Qed.
Lemma phaseAt_total t lp : profileOk (avg t) -> - Wacq c <= lp <= Wacq c -> is_Some (phaseAt c t lp).
Proof. intros P R. unfold phaseAt. destruct (at_total (avg t) lp P R) as [a ->]. by eexists. Qed.

(** The apex is looked for inside the profile, and so is what it is judged on: the
    lines meet no further out than a third of their span. *)
Lemma findApex_total t reach lp :
  profileOk (avg t) -> reach <= Wacq c - L c -> (lp = 0 \/ - reach <= lp <= reach) ->
  exists lp' theta apex, findApex c t reach lp = Some (lp', theta, apex) /\ - Wacq c <= lp' <= Wacq c.
Proof.
  intros P R Hl. shape. unfold findApex. cbv zeta. set (span := spanOfApex c) in *.
  assert (B : - Wacq c <= lp - span /\ lp + span <= Wacq c) by lia.
  destruct (phaseAt_total t lp P ltac:(lia)) as [theta ->]. cbn [mbind option_bind].
  destruct (meet_total t theta lp span P ltac:(lia) (proj1 B) (proj2 B)) as [m ->]. cbn [mbind option_bind].
  destruct m as [p|]; [|repeat eexists; lia]. destruct (_ <=? 2)%D; [repeat eexists; lia|].
  destruct (dabs (p - d_of_Z lp) >? d_of_Z span / 3)%D eqn:G; [repeat eexists; lia|].
  assert (Near : Z.abs (lround32 p) <= Z.abs lp + (span / 3 + 1) + 1).
  { apply lround_near; [lia|dlia|]. revert G S8. clear. generalize (d_of_Z (span / 3 + 1)), (d_of_Z span / 3)%D, (dabs (p - d_of_Z lp)).
    intros u v z G N. destruct (u <? z)%D eqn:E; [|done]. exfalso. revert G N E. dorder. }
  set (lp' := lround32 p) in *. clearbody lp'. destruct (Z.ltb_spec reach (Z.abs lp')) as [X|X]; [repeat eexists; lia|].
  destruct (phaseAt_total t lp' P ltac:(lia)) as [th ->]. cbn [mbind option_bind].
  destruct (meet_total t th lp' span P ltac:(lia) ltac:(lia) ltac:(lia)) as [m ->]. cbn [mbind option_bind].
  destruct m; repeat eexists; lia.
Qed.

Lemma judgeApex_total t lp theta : profileOk (avg t) -> profileOk (avgO t) -> - Wacq c <= lp <= Wacq c ->
  is_Some (judgeApex c t lp theta).
Proof.
  intros P Q R. unfold judgeApex. destruct (y_total t theta lp P R) as [peak ->]. cbn [mbind option_bind].
  destruct (at_total (avg t) lp P R) as [a ->]. cbn [mbind option_bind].
  destruct (at_total (avgO t) lp Q R) as [o ->]. cbn [mbind option_bind]. cbv zeta.
  assert (G : forall ls m0, (forall l, In l ls -> - Wacq c <= l <= Wacq c) -> is_Some (foldl (fun acc l => m ← acc;
      if cdiv (3 * L c) 2 <? Z.abs (l - lp) then v ← margin c (avg t) (avgO t) l; Some (dmax m v) else Some m) (Some m0) ls)).
  { induction ls as [|l ls IH]; intros m0 Hl; cbn [foldl]; [by eexists|]. cbn [mbind option_bind].
    destruct (margin_total (avg t) (avgO t) l P Q (Hl l (or_introl eq_refl))) as [v ->]. cbn [mbind option_bind].
    destruct (_ <? _); apply IH; intros; apply Hl; by right. }
  destruct (G (lags (- Wacq c) (Wacq c)) 0%D (fun l => proj1 (lags_In _ _ l))) as [rival ->]. by eexists.
Qed.

(** The period: what the slope gives is clamped, and letting go puts the nominal
    one back. *)
Definition steady (p : double) : Prop := (p <? nominal c - limit c)%D = false /\ (nominal c + limit c <? p)%D = false.
Lemma nominal_steady : steady (nominal c).
Proof. shape. by split. Qed.
Lemma clamp_steady v : steady (dclamp v (nominal c - limit c)%D (nominal c + limit c)%D).
Proof.
  shape. unfold steady, dclamp. revert S11 S12 S13. generalize (nominal c - limit c)%D, (nominal c + limit c)%D. clear.
  intros lo hi _ _ X. destruct (v <? lo)%D eqn:A; [split; [apply dltb_irrefl|done]|].
  destruct (hi <? v)%D eqn:B; [split; [done|apply dltb_irrefl]|done].
Qed.
Lemma slopePeriod_steady h p : steady p -> steady (slopePeriod c h p).
Proof.
  intros P. unfold slopePeriod. destruct h as [|[s0 x0] h]; [done|]. destruct (fold_left _ _ _) as [[[sx sy] sxx] sxy].
  cbv zeta. destruct (_ >? 0)%D; [apply clamp_steady|done].
Qed.
Lemma letGo_ok t : timerOk t -> timerOk (letGo c t).
Proof. intros (A & O & P). unfold letGo. destruct (_ <=? _); (split; [done|]); (split; [done|]); [apply nominal_steady|done]. Qed.
Lemma trackLock_ok t apex : timerOk t -> timerOk (fst (trackLock c t apex)).
Proof.
  intros T. unfold trackLock. destruct (negb _); [by destruct (_ && _)|]. destruct (_ <? _)%D; [by apply letGo_ok|].
  by destruct (_ >? _)%D; [apply letGo_ok|].
Qed.
Lemma follow_ok t : timerOk t -> timerOk (follow c t).
Proof.
  intros (A & O & P). unfold follow. destruct (_ && _); [|done]. cbv zeta. split; [done|]. split; [done|].
  cbn [period withHist]. destruct (_ <=? _)%nat; [by apply slopePeriod_steady|done].
Qed.
Lemma predict_ok t ws : timerOk t -> timerOk (predict fs c t ws).
Proof.
  intros (A & O & P). shape. unfold predict. cbv zeta. destruct (_ || _); [|done].
  assert (B : profileOk (blank c)) by (unfold profileOk, blank; rewrite length_replicate; lia).
  split; [done|]. split; [done|]. apply nominal_steady.
Qed.
Lemma absorb_ok t v o lagNoise : profileOk v -> profileOk o -> timerOk t -> timerOk (absorb t v o lagNoise).
Proof.
  intros V O (A & B & P). unfold absorb, mixIn. cbv zeta. unfold profileOk in *. split; [|split; [|done]];
    cbn [avg avgO withMean]; unfold profileOk; rewrite length_zip_with; lia.
Qed.
Lemma settle_total t : timerOk t -> exists t', settle c t = Some t' /\ timerOk t'.
Proof.
  intros T. pose proof T as (A & B & P). shape. unfold settle. destruct (_ || _); [by exists (withEdge t (x t))|]. cbv zeta.
  set (reach := (if locked t then W c else Wacq c) - L c).
  assert (R : reach <= Wacq c - L c) by (subst reach; destruct (locked t); lia).
  destruct (strongest_total (margin c (avg t) (avgO t)) neg_infinity%float (- reach) reach) as (lp & b & -> & X).
  { intros l Hl. apply margin_total; [done..|lia]. }
  cbn [mbind option_bind]. destruct (findApex_total t reach lp A R X) as (lp' & theta & apex & -> & Y). cbn [mbind option_bind].
  destruct (judgeApex_total t lp' theta A B Y) as [s ->]. cbn [mbind option_bind].
  pose proof (trackLock_ok (withSnr t s) apex T) as T1. destruct (trackLock c (withSnr t s) apex) as [t1 apex1]. cbn [fst] in T1.
  destruct (_ || _); [destruct (shift_total t1 apex1 T1) as (t2 & -> & T2)|]; cbn [mbind option_bind];
    (eexists; split; [reflexivity|]); by apply follow_ok.
Qed.
End Total.

(** ** A second is timed *)

Section Props.
Context `{Libm} `{CMul}.

(** The timer a station starts with is a good one. *)
Lemma newTimer_ok c : shapeOk c = true -> timerOk c (newTimer c).
Proof.
  intros Ok. pose proof (nominal_steady c Ok) as N. unfold shapeOk in Ok. cbv zeta in Ok. rewrite !andb_true_iff in Ok.
  assert (B : profileOk c (blank c)) by (unfold profileOk, blank; rewrite length_replicate; zbool; lia).
  by split; [|split].
Qed.

(** Timing a second never fails. Whatever the samples, the station's noise, the
    window and the timer's state, every sample the two templates are run over is one
    the ring holds, and every lag looked at -- under the tone's tail, in the search
    for the strongest, along the two lines of each pass, at the apex and among its
    rivals -- is a lag the profiles have. And the timer is left as it was found:
    a place for every lag, and a period within 200 parts in a million of the rate. *)
Lemma timeTick_total fs c mRing mHead qVar t windowStart silent :
  shapeOk c = true -> timerOk c t -> (0 < length mRing)%nat ->
  exists t', timeTick fs c mRing mHead qVar t windowStart silent = Some t' /\ timerOk c t'.
Proof.
  intros Ok T Ln. unfold timeTick. cbv zeta. pose proof (predict_ok fs c Ok t windowStart T) as T1.
  set (t1 := predict fs c t windowStart) in *. clearbody t1. pose proof Ok as S. unfold shapeOk in S. cbv zeta in S. rewrite !andb_true_iff in S.
  destruct S as ((((((((((((S1 & S2) & S3) & S4) & S5) & S6) & S7) & S8) & S9) & S10) & S11) & S12) & S13). zbool.
  set (R := dllround (x t1)). destruct ((R - Wacq c <? _) || _) eqn:G; [by exists t1|]. zbool.
  edestruct (ringFrom_some (mHead - (Z.of_nat (length mRing) - 1)) mHead mRing (R - Wacq c) (R + Wacq c + L c)) as (ms & -> & Lm);
    [done|lia..|]. cbn [mbind option_bind].
  edestruct (profile_total c Ok (tpl c)) as (cur & -> & P); [by apply Nat.eqb_eq|rewrite Lm; lia|]. cbn [mbind option_bind].
  edestruct (profile_total c Ok (tplO c)) as (curO & -> & Q); [by apply Nat.eqb_eq|rewrite Lm; lia|]. cbn [mbind option_bind].
  destruct silent; cbn [mbind option_bind]; [by apply settle_total|].
  edestruct (isTone_total c Ok t1 cur curO) as [e ->]; [done..|]. cbn [mbind option_bind].
  apply settle_total; [done|]. destruct e; [done|]. by apply absorb_ok.
Qed.

End Props.

(** A product of complex numbers for the examples. *)
Definition demoCMul : CMul := {| cm_nan := fun _ _ => c0 |}.

(** WWV's timer at 12 kHz: 5 ms of a tick over 30 ms to each side, of which 15 are
    searched once it is locked. *)
Example wwv_timer_shape :
  let c := @shapeOf demoLibm 12000 1000 1200 in
  shapeOk c = true /\ (L c, W c, Wacq c) = (60, 180, 360).
Proof. vm_compute. repeat split. Qed.
