(* ===== verification/WwvSignal.v ===== *)
(** * The WWV and WWVH signal chain (src/clock/WwvDecoder.cpp)
    Samples to classified seconds: the carrier search, the mixer and the carrier's
    own phase, the amplitude modulation, the 100 Hz subcarrier and the two tick
    bands, the fold that finds the tick and judges the station, the seconds cut and
    classified, and the second's edge from the tick's timer (WwvTick) or from the
    pulse; the seconds go to Wwv. Every read of a ring is checked. *)

From Stdlib Require Import ZArith Lia List Bool Floats.
From stdpp Require Import base list sorting.
From S2P Require Import Prelude Doubles Rounding ClockTypes TimeFrameVoter Signals EnvelopeRing Wwv WwvTick.

#[local] Open Scope Z_scope.

(** ** Constants *)

Definition kSeriesRate : Z := 200.
Definition kSecLen : Z := 200.
Definition kWindowLead : Z := 10.
Definition kNominalDelaySamples : Z := 14.
Definition kBcdEdgeDelaySamples : double := 3.52%D.
Definition kMaxShift : Z := 40.
Definition kFoldDecay : double := 0.99%D.
Definition kFoldZ : double := 10%D.
Definition kFoldZMinSecs : Z := 10.
Definition kEdgeDelayAlpha : double := (1 / 16)%D.
Definition kEdgeDelayWarm : Z := 8.
Definition kEdgeDelayGate : double := 3%D.
Definition kPulseEnergyFrac : double := 0.05%D.
Definition kPullHz : double := 50%D.
Definition kSearchStep : double := 0.25%D.
Definition kSearchRate : Z := 600.
Definition kSearchSec : double := 2%D.
Definition kToneGate : double := 12%D.
Definition kResearchSec : double := 60%D.
Definition kRefHz : double := 15%D.
Definition kFreqGain : double := 0.2%D.
Definition kLevelSec : double := 10%D.
Definition kNoiseSec : double := 10%D.
Definition kDcSec : double := 1%D.
Definition kBcdPhaseSec : double := 20%D.
Definition kBcdCheckAlpha : double := (1 / 32)%D.

(** ** Filters *)

Definition designBandpass `{Libm} (f0 q fs : double) : Biquad :=
  let w0 := (2 * kPi * f0 / fs)%D in
  let c := lm_cos w0 in
  let s := lm_sin w0 in
  let alpha := (s / (2 * q))%D in
  let a0 := (1 + alpha)%D in
  MkBq (alpha / a0) 0 (- alpha / a0) (-(2) * c / a0) ((1 - alpha) / a0) 0 0.
Definition designLowpass `{Libm} (fc q fs : double) : Biquad :=
  let w0 := (2 * kPi * fc / fs)%D in
  let c := lm_cos w0 in
  let s := lm_sin w0 in
  let alpha := (s / (2 * q))%D in
  let a0 := (1 + alpha)%D in
  MkBq ((1 - c) / 2 / a0) ((1 - c) / a0) ((1 - c) / 2 / a0) (-(2) * c / a0) ((1 - alpha) / a0) 0 0.

(** Two sections in a row. *)
Definition Pair : Type := Biquad * Biquad.
Definition thru (p : Pair) (x : double) : Pair * double :=
  let '(a, x) := bqProcess (fst p) x in
  let '(b, x) := bqProcess (snd p) x in
  ((a, b), x).
Definition pairReset (p : Pair) : Pair := (bqReset (fst p), bqReset (snd p)).

(** ** Data *)

(** The carrier search. *)
Record Carrier := MkCarrier {
  carrierFound : bool; carrierFoundAt : Z; sAcc : C; sAccN : Z; sOsc : C; sRenorm : Z; searchBuf : list C;
  carrierSnrDb : double
}.
(** The mixer, the carrier reference and the modulation. [qRing] is written and not
    read, and left out. *)
Record Mixer := MkMixer {
  f0 : double; osc : C; step : C; oscRenormZ : Z; refI : Pair; refQ : Pair; zLine : list C; level : double;
  qVar : double; mDc : double; freqCount : Z; freqPrev : C; mRing : list double; mHead : Z
}.
(** The subcarrier and the tick rails, down to the 200 Hz series. *)
Record Rails := MkRails {
  lpI : Pair; lpQ : Pair; bpTickV : Pair; bpTickH : Pair; sub : C; oscRenorm : Z; bcdPhase : C; accB : C;
  accTickV : double; accTickH : double; decCount : Z; n200 : Z
}.
Record Fold := MkFold {
  foldV : list double; foldH : list double; tickLocked : bool; tickPhase : Z; tickLockJ : Z; tickExcessRatio : double
}.
(** [curSec] is what the second has so far: [curFill] is its length. *)
Record Window := MkWindow { curSec : list C; secStarted : bool; secStartJ : Z; aScale : double }.
Record Delay := MkDelay {
  delayEst : double; delayLocked : bool; delayCount : Z;
  edgeDelayEst : double; edgeDelayCount : Z; edgeDelayRejects : Z
}.
Record Ticks := MkTicks {
  timerV : Timer; timerH : Timer; tickTiming : bool; bcdMinusTick : double; bcdCheckN : Z
}.
(** [tail] is what Wwv keeps. *)
Record Sig := MkSig {
  samplesConsumed : Z; carrier : Carrier; mixer : Mixer; rails : Rails; fold : Fold; window : Window; delay : Delay;
  ticks : Ticks; tag : Tag.Tag; tail : Impl
}.
Definition withCarrier (s : Sig) (c : Carrier) : Sig :=
  MkSig (samplesConsumed s) c (mixer s) (rails s) (fold s) (window s) (delay s) (ticks s) (tag s) (tail s).
Definition withMixer (s : Sig) (m : Mixer) : Sig :=
  MkSig (samplesConsumed s) (carrier s) m (rails s) (fold s) (window s) (delay s) (ticks s) (tag s) (tail s).
Definition withRails (s : Sig) (r : Rails) : Sig :=
  MkSig (samplesConsumed s) (carrier s) (mixer s) r (fold s) (window s) (delay s) (ticks s) (tag s) (tail s).
Definition withFold (s : Sig) (f : Fold) : Sig :=
  MkSig (samplesConsumed s) (carrier s) (mixer s) (rails s) f (window s) (delay s) (ticks s) (tag s) (tail s).
Definition withWindow (s : Sig) (w : Window) : Sig :=
  MkSig (samplesConsumed s) (carrier s) (mixer s) (rails s) (fold s) w (delay s) (ticks s) (tag s) (tail s).
Definition withDelay (s : Sig) (d : Delay) : Sig :=
  MkSig (samplesConsumed s) (carrier s) (mixer s) (rails s) (fold s) (window s) d (ticks s) (tag s) (tail s).
Definition withTicks (s : Sig) (t : Ticks) : Sig :=
  MkSig (samplesConsumed s) (carrier s) (mixer s) (rails s) (fold s) (window s) (delay s) t (tag s) (tail s).
Definition withTag (s : Sig) (t : Tag.Tag) : Sig :=
  MkSig (samplesConsumed s) (carrier s) (mixer s) (rails s) (fold s) (window s) (delay s) (ticks s) t (tail s).
Definition withTail (s : Sig) (t : Impl) : Sig :=
  MkSig (samplesConsumed s) (carrier s) (mixer s) (rails s) (fold s) (window s) (delay s) (ticks s) (tag s) t.
Definition withCount (s : Sig) (n : Z) : Sig :=
  MkSig n (carrier s) (mixer s) (rails s) (fold s) (window s) (delay s) (ticks s) (tag s) (tail s).

Definition zeros : list double := replicate 200 0%D.
Definition noCarrier : Carrier := MkCarrier false 0 c0 0 (MkC 1 0) 0 [] nan.
Definition noFold : Fold := MkFold zeros zeros false 0 0 0.
Definition noWindow : Window := MkWindow [] false 0 1e-6.
Definition noDelay : Delay :=
  MkDelay (d_of_Z kNominalDelaySamples) false 0 (d_of_Z kNominalDelaySamples) 0 0.

(** ** Phasors *)

Definition turn (a b : C) : C := MkC (re a * re b - im a * im b)%D (re a * im b + im a * re b)%D.
Definition over (a : C) (k : double) : C := MkC (re a / k)%D (im a / k)%D.
(** An oscillator goes on a step; every 1024th its length is put right. *)
Definition advanceOsc (len : C -> double) (o st : C) (n : Z) : C * Z :=
  let o := turn o st in
  if 1024 <=? n + 1 then ((if (0 <? len o)%D then over o (len o) else o), 0) else (o, n + 1).

(** ** The tick fold *)

(** The peak to mean ratio and the first greatest bin. *)
Definition stats (f : list double) : double * nat :=
  let '(peak, sum, arg) :=
    fold_left (fun '(peak, sum, arg) p =>
      let v := nth p f 0%D in
      if (v >? peak)%D then (v, (sum + v)%D, p) else (peak, (sum + v)%D, arg)) (seq 0 200) (0%D, 0%D, 0%nat) in
  let mean := (sum / d_of_Z kSecLen)%D in
  ((if (0 <? mean)%D then peak / mean else 0)%D, arg).
Definition middle (f : list double) : double := nthSmallest 100 f.
Definition tickExcess (f : list double) (arg : nat) : double :=
  let m := middle f in
  let e := fold_left (fun e d => e + (nth ((arg + d + 199) mod 200) f 0 - m))%D [0; 1; 2]%nat 0%D in
  dmax 0 e.
Definition foldZ (f : list double) (arg : nat) : double :=
  let m := middle f in
  let mad := (1.4826 * middle (map (fun v => dabs (v - m)) f))%D in
  if (0 <? mad)%D then ((nth arg f 0 - m) / mad)%D else 0%D.

Definition folded (f : list double) (phase : nat) (v : double) : list double :=
  <[phase := (nth phase f 0 * kFoldDecay + v)%D]> f.

(** ** The matched filter *)

Definition mean200 (l : list double) : double := (total l / d_of_Z kSecLen)%D.
Definition pulseAt : nat := Z.to_nat (lround32 (0.030 * d_of_Z kSeriesRate)%D).
Definition pulseLen (ms : Z) : nat := Z.to_nat (lround32 (d_of_Z ms / 1000 * d_of_Z kSeriesRate)%D).
Definition template (ms : Z) : list double :=
  let raw := map (fun i => if ((pulseAt <=? i) && (i <? pulseAt + pulseLen ms))%nat then 1%D else 0%D) (seq 0 200) in
  map (fun v => fsub v (fround (mean200 raw))) raw.
Definition energyOf (l : list double) : double := fold_left (fun a v => a + v * v)%D l 0%D.
Definition tplNorm (t : list double) : double := fround (PrimFloat.sqrt (energyOf t)).
Definition symbolMs : list Z := [170; 470; 770].
Definition symbolOf (k : nat) : ClockSymbol :=
  match k with O => SymZero | 1%nat => SymOne | _ => SymMarker end.

(** The template [t] against [v] from [d] on. *)
Definition score (v : list double) (invn : double) (t : list double) (d : nat) : double :=
  (dot (drop d v) t * invn / (tplNorm t + 1e-12))%D.
Definition scores (v : list double) (invn : double) (d : nat) : list double :=
  map (fun ms => score v invn (template ms) d) symbolMs.

(** The band searched: all of it, until the delay is known. *)
Definition shiftBand (y : Delay) : Z * Z :=
  if delayLocked y then
    let c := lround32 (delayEst y) in (Z.max 0 (c - 3), Z.min kMaxShift (c + 3))
  else (0, kMaxShift).
(** The shift that explains the second best, and the scores there. *)
Definition bestShift (v : list double) (invn : double) (lo hi : Z) : Z * list double :=
  let '(_, shift, sc) :=
    fold_left (fun '(best, shift, sc) d =>
      let s := scores v invn (Z.to_nat d) in
      let m := (dmax (dmax (nth 0 s 0) (nth 1 s 0)) (nth 2 s 0))%D in
      if (m >? best)%D then (m, d, s) else (best, shift, sc)) (lags lo hi) ((-1e30)%D, lo, [0; 0; 0]%D) in
  (shift, sc).
(** The symbol, its margin, the shift and the part of a sample past it. *)
Definition classify (y : Delay) (w : list double) : ClockSymbol * double * Z * double :=
  let mean := mean200 w in
  let v := map (fun x => x - mean)%D w in
  let invn := (1 / (PrimFloat.sqrt (energyOf v) + 1e-12))%D in
  let '(lo, hi) := shiftBand y in
  let '(shift, sc) := bestShift v invn lo hi in
  let c k := nth k sc 0%D in
  let best := if (c 1%nat >? c 0%nat)%D then 1%nat else 0%nat in
  let best := if (c 2%nat >? c best)%D then 2%nat else best in
  let runner := fold_left (fun r k => if negb (k =? best)%nat && (c k >? r)%D then c k else r) [0; 1; 2]%nat (-1e30)%D in
  let t := template (nth best symbolMs 0) in
  let frac :=
    if (0 <? shift) && (shift <? kSecLen - 1) then
      let sm := score v invn t (Z.to_nat (shift - 1)) in
      let sp := score v invn t (Z.to_nat (shift + 1)) in
      let den := (sm - 2 * c best + sp)%D in
      if (den <? 0)%D then dclamp (0.5 * (sm - sp) / den) (-0.5) 0.5 else 0%D
    else 0%D in
  (symbolOf best, fround (dmax 0 (c best - runner))%D, shift, frac).

(** ** The delay *)

Definition noteShift (y : Delay) (conf : double) (shift : Z) : Delay :=
  if (conf >? fround 0.12)%D then
    MkDelay (0.85 * delayEst y + 0.15 * d_of_Z shift)%D (delayLocked y || (4 <=? delayCount y + 1)) (delayCount y + 1)
      (edgeDelayEst y) (edgeDelayCount y) (edgeDelayRejects y)
  else y.
Definition drifted (y : Delay) : bool :=
  delayLocked y && ((delayEst y <? 1.5)%D || (delayEst y >? d_of_Z kMaxShift - 1.5)%D).
(** The smoothed shift the pulse's edge is built on. *)
Definition noteEdge (y : Delay) (shift : double) : Delay :=
  if (edgeDelayCount y <? kEdgeDelayWarm) || (dabs (shift - edgeDelayEst y) <=? kEdgeDelayGate)%D then
    let n := edgeDelayCount y + 1 in
    let alpha := dmax (1 / d_of_Z n) kEdgeDelayAlpha in
    MkDelay (delayEst y) (delayLocked y) (delayCount y) (edgeDelayEst y + alpha * (shift - edgeDelayEst y))%D n 0
  else
    let r := edgeDelayRejects y + 1 in
    if kEdgeDelayWarm <=? r then MkDelay (delayEst y) (delayLocked y) (delayCount y) shift 1 0
    else MkDelay (delayEst y) (delayLocked y) (delayCount y) (edgeDelayEst y) (edgeDelayCount y) r.
Definition reportDelay (y : Delay) : double := if 0 <? edgeDelayCount y then edgeDelayEst y else delayEst y.

(** ** The chain *)

Section Chain.
Context `{Libm} `{CMul} `{Pow} (cfg : Config) (fs : Z) (fNominal : double).

Definition decim : Z := Z.max 1 (cdiv fs kSeriesRate).
Definition searchDecim : Z := Z.max 1 (cdiv fs kSearchRate).
Definition aLevel : double := (1 / (kLevelSec * d_of_Z fs))%D.
Definition aNoise : double := (1 / (kNoiseSec * d_of_Z fs))%D.
Definition aDc : double := (1 / (kDcSec * d_of_Z fs))%D.
Definition aBcdPhase : double := (1 / (kBcdPhaseSec * d_of_Z kSeriesRate))%D.
Definition sStep : C :=
  let sdth := (-(2) * kPi * fNominal / d_of_Z fs)%D in MkC (lm_cos sdth) (lm_sin sdth).
Definition rot100 : C := let dth := (2 * kPi * 100 / d_of_Z fs)%D in MkC (lm_cos dth) (lm_sin dth).
Definition refPair : Pair :=
  (designLowpass kRefHz 0.54119610014619698 (d_of_Z fs), designLowpass kRefHz 1.3065629648763766 (d_of_Z fs))%D.
Definition refDelay : Z := lround32 (0 + groupDelay (fst refPair) + groupDelay (snd refPair))%D.
Definition lowPair : Pair := let b := designLowpass 25 0.70710678 (d_of_Z fs) in (b, b).
Definition tickPair (f q : double) : Pair := let b := designBandpass f q (d_of_Z fs) in (b, b).
Definition shapeV : Shape := shapeOf fs 1000 1200.
Definition shapeH : Shape := shapeOf fs 1200 1000.

(** [setMixer]: the carrier, and the step that takes it to 0 Hz. *)
Definition setMixer (m : Mixer) (f : double) : Mixer :=
  let f := dclamp f (fNominal - kPullHz) (fNominal + kPullHz) in
  let w := (-(2) * kPi * f / d_of_Z fs)%D in
  MkMixer f (osc m) (MkC (lm_cos w) (lm_sin w)) (oscRenormZ m) (refI m) (refQ m) (zLine m) (level m) (qVar m) (mDc m)
    (freqCount m) (freqPrev m) (mRing m) (mHead m).

Definition newMixer : Mixer :=
  setMixer (MkMixer 0 (MkC 1 0) (MkC 1 0) 0 refPair refPair (replicate (Z.to_nat (capOf (refDelay + 2))) c0) 0 0 0 0 c0
    (replicate (Z.to_nat (capOf (d2ll (2.5 * d_of_Z fs)%D))) 0%D) (-1)) fNominal.
Definition newRails : Rails :=
  MkRails lowPair lowPair (tickPair 1000 6) (tickPair 1200 7.2) (MkC 1 0) 0 c0 c0 0 0 0 0.
Definition construct : Sig :=
  MkSig 0 noCarrier newMixer newRails noFold noWindow noDelay
    (MkTicks (newTimer shapeV) (newTimer shapeH) false nan 0) Tag.untagged fresh.

(** *** The carrier search *)

Definition binFreq (b : nat) : double := (- kPullHz + d_of_Z (Z.of_nat b) * kSearchStep)%D.
Definition binCount : nat := S (Z.to_nat (lround32 (2 * kPullHz / kSearchStep)%D)).
Definition binPowerAt (buf : list C) (b : nat) : double :=
  let rate := (d_of_Z fs / d_of_Z searchDecim)%D in
  let st := polar1 (-(2) * kPi * binFreq b / rate)%D in
  cnorm (fst (fold_left (fun '(acc, rot) v => (cadd acc (cmul v rot), cmul rot st)) buf (c0, MkC 1 0))).
(** [finishSearch]; [n] is how many samples there have been. *)
Definition finishSearch (c : Carrier) (m : Mixer) (n : Z) : Carrier * Mixer :=
  let pw := map (binPowerAt (searchBuf c)) (seq 0 binCount) in
  let peak := argmax pw in
  let at_ k := nth k pw 0%D in
  let median := nthSmallest (binCount / 2) pw in
  let snr := if (0 <? median)%D then fround (10 * lm_log10 (at_ peak / median))%D else carrierSnrDb c in
  let ended found n := MkCarrier found n (sAcc c) (sAccN c) (sOsc c) (sRenorm c) [] snr in
  if negb (0 <? median)%D || (at_ peak <? kToneGate * median)%D then (ended (carrierFound c) (carrierFoundAt c), m)
  else
    let f := (- kPullHz + d_of_Z (Z.of_nat peak) * kSearchStep)%D in
    let f :=
      if (0 <? peak)%nat && (peak + 1 <? binCount)%nat then
        let a := PrimFloat.sqrt (at_ (peak - 1)%nat) in
        let b := PrimFloat.sqrt (at_ peak) in
        let d := PrimFloat.sqrt (at_ (peak + 1)%nat) in
        let den := (a - 2 * b + d)%D in
        if (den <? 0)%D then (f + kSearchStep * dclamp (0.5 * (a - d) / den) (-0.5) 0.5)%D else f
      else f in
    (ended true n, setMixer m (fNominal + f)%D).

(** A sample of the search: mixed from where the dial puts the carrier, and its mean
    over [searchDecim]. *)
Definition searchStep (c : Carrier) (m : Mixer) (n : Z) (x : C) : Carrier * Mixer :=
  let z := turn x (sOsc c) in
  let '(o, k) := advanceOsc cabs (sOsc c) sStep (sRenorm c) in
  let acc := cadd (sAcc c) z in
  let an := sAccN c + 1 in
  if an <? searchDecim
  then (MkCarrier (carrierFound c) (carrierFoundAt c) acc an o k (searchBuf c) (carrierSnrDb c), m)
  else
    let c := MkCarrier (carrierFound c) (carrierFoundAt c) c0 0 o k
               (searchBuf c ++ [over acc (d_of_Z an)]) (carrierSnrDb c) in
    if d2ll (kSearchSec * d_of_Z kSearchRate)%D <=? Z.of_nat (length (searchBuf c)) then finishSearch c m n else (c, m).

(** *** The mixer *)

(** What [processSample] does to the mixer with the search's sample done: the
    baseband put in its ring, the reference, the carrier followed. *)
Definition mixed (m : Mixer) (n : Z) (x : C) : Mixer * C :=
  let z := turn x (osc m) in
  let '(o, k) := advanceOsc cabs (osc m) (step m) (oscRenormZ m) in
  let '(pI, cr) := thru (refI m) (re z) in
  let '(pQ, ci) := thru (refQ m) (im z) in
  let c := MkC cr ci in
  let fc := freqCount m + 1 in
  let m' := MkMixer (f0 m) o (step m) k pI pQ (ringPut (zLine m) n z) (level m) (qVar m) (mDc m)
              (if fs <=? fc then 0 else fc) (if fs <=? fc then c else freqPrev m) (mRing m) (mHead m) in
  (if (fs <=? fc) && (0 <? cnorm (freqPrev m))%D && (0 <? cnorm c)%D
   then setMixer m' (f0 m + kFreqGain * carg (cmul c (cconj (freqPrev m))) / (2 * kPi))%D else m', c).

Definition ease (a : double) (k : Z) (v to_ : double) : double := (v + dmax a (1 / d_of_Z (k + 1)) * (to_ - v))%D.
(** The modulation on the carrier's own phase, [c], of the sample [k], which [zd] is. *)
Definition detect (mx : Mixer) (k : Z) (zd c : C) : Mixer * double :=
  let p := (re c * re c + im c * im c)%D in
  let lv := ease aLevel k (level mx) p in
  let inv := if (lv >? 1e-30)%D then (1 / lv)%D else 0%D in
  let m := ((re zd * re c + im zd * im c) * inv)%D in
  let q := ((im zd * re c - re zd * im c) * inv)%D in
  (MkMixer (f0 mx) (osc mx) (step mx) (oscRenormZ mx) (refI mx) (refQ mx) (zLine mx) lv (ease aNoise k (qVar mx) (q * q)%D)
     (mDc mx) (freqCount mx) (freqPrev mx) (ringPut (mRing mx) k (fround m)) k, m).

(** *** Seconds *)

(** [softReacquire]: the filters, the fold, the tag and the timers go on. *)
Definition loosened (s : Sig) (t : Impl) : Sig :=
  let f := fold s in
  let w := window s in
  withTail (withDelay (withWindow (withFold s
      (MkFold (foldV f) (foldH f) false (tickPhase f) (tickLockJ f) (tickExcessRatio f)))
    (MkWindow [] false 0 (aScale w))) noDelay) t.
Definition softReacquire (s : Sig) : Sig := loosened s (Wwv.softReacquire (tail s)).

(** The second read on its own phase of the subcarrier, steadied by the long-run one. *)
Definition pulseOf (r : Rails) (b : list C) : list double :=
  let sum := fold_left cadd b c0 in
  let ref := cadd (over sum (d_of_Z kSecLen)) (bcdPhase r) in
  let rot := if (cabs ref >? 0)%D then over (cconj ref) (cabs ref) else MkC 1 0 in
  map (fun v => fround (re (cmul v rot))) b.

(** The two timers on the second whose window starts at [startJ]. *)
Definition tickTimes (s : Sig) (startJ : Z) (silent : bool) : option (Timer * Timer) :=
  let ws := (d_of_Z (startJ + kWindowLead) * d_of_Z decim)%D in
  let m := mixer s in
  v ← timeTick fs shapeV (mRing m) (mHead m) (qVar m) (timerV (ticks s)) ws silent;
  h ← timeTick fs shapeH (mRing m) (mHead m) (qVar m) (timerH (ticks s)) ws silent;
  Some (v, h).
(** The pulse's edge less the tick's, averaged. *)
Definition checkBcd (t : Ticks) (v h : Timer) (timing compare : bool) (d : double) : Ticks :=
  if compare && (dabs d <? 0.1 * d_of_Z fs)%D then
    let n := bcdCheckN t + 1 in
    let a := dmax (1 / d_of_Z n) kBcdCheckAlpha in
    MkTicks v h timing (if (n =? 1)%Z then d else bcdMinusTick t + a * (d - bcdMinusTick t))%D n
  else MkTicks v h timing (bcdMinusTick t) (bcdCheckN t).

Definition processSecond (s : Sig) (startJ : Z) (b : list C) : option Sig :=
  let w := pulseOf (rails s) b in
  let '(sy, cf, winShift, frac) := classify (delay s) w in
  let s := withDelay s (noteShift (delay s) cf winShift) in
  if drifted (delay s) then Some (softReacquire s)
  else
    let emean := mean200 w in
    let sof := secondOfFrame (tail s) in
    let known := anchored (anchor (tail s)) in
    let timed := (cf >? fround 0.12)%D && negb (known && (sof =? 0)) && (emean >? kPulseEnergyFrac * aScale (window s))%D in
    let s := if timed then withDelay s (noteEdge (delay s) (d_of_Z winShift + frac)%D) else s in
    let bcdEdge := ((d_of_Z startJ + reportDelay (delay s) - kBcdEdgeDelaySamples) * d_of_Z decim)%D in
    let silent := known && ((sof =? 0) || (sof =? 29) || (sof =? 59)) in
    '(v, h) ← tickTimes s startJ silent;
    let tt := if bool_decide (Tag.station (tag s) = StWwvh) then h else v in
    let timing := locked tt in
    let edgeExact := if timing then edge tt else bcdEdge in
    let s := withTicks s (checkBcd (ticks s) v h timing (timing && timed && negb silent) (bcdEdge - edge tt)%D) in
    let r := MkSec (dllround edgeExact) edgeExact (if timing then negb silent else timed) timing sy cf emean in
    t ← recordSecond cfg (Tag.station (tag s)) (tail s) r;
    Some (match t with Onward t => withTail s t | Reacquired t => loosened s t end).

(** *** The 200 Hz series *)

(** The tick's phase, once a band folds to an impulse. *)
Definition seekTick (s : Sig) (j : Z) : Sig :=
  let f := fold s in
  if tickLocked f || (j <? 5 * kSecLen) then s
  else
    let '(rV, argV) := stats (foldV f) in
    let '(rH, argH) := stats (foldH f) in
    if (dmax rV rH >? 2.5)%D ||
       ((kFoldZMinSecs * kSecLen <=? j) && (dmax (foldZ (foldV f) argV) (foldZ (foldH f) argH) >? kFoldZ)%D) then
      let eV := tickExcess (foldV f) argV in
      let eH := tickExcess (foldH f) argH in
      let arg := if (eH <=? eV)%D then argV else argH in
      withTail (withFold s (MkFold (foldV f) (foldH f) true (Z.of_nat arg) j (tickExcessRatio f)))
        (setState (tail s) LockAcquiring)
    else s.
(** The station, judged as each second of the series begins. *)
Definition judgeStation (s : Sig) (j : Z) : Sig :=
  let f := fold s in
  if tickLocked f && (cmod j kSecLen =? 0) then
    let eV := tickExcess (foldV f) (snd (stats (foldV f))) in
    let eH := tickExcess (foldH f) (snd (stats (foldH f))) in
    let ratio := if (eH >? 0)%D then (eV / eH)%D else infinity in
    withTag (withFold s (MkFold (foldV f) (foldH f) (tickLocked f) (tickPhase f) (tickLockJ f) ratio))
      (Tag.judgeSecond (tag s) (j - tickLockJ f <? kStationWarmSecs * kSecLen) eV eH)
  else s.

(** A full window is a second; the next one begins. *)
Definition cutSecond (s : Sig) (j : Z) : option Sig :=
  let p := tickPhase (fold s) in
  if (cmod (j - p + kWindowLead) kSecLen =? 0) && (p <=? j + kWindowLead) then
    let w := window s in
    s ← (if secStarted w && (length (curSec w) =? 200)%nat then processSecond s (secStartJ w) (curSec w) else Some s);
    Some (withWindow s (MkWindow [] true j (aScale (window s))))
  else Some s.
Definition fillSecond (s : Sig) (b : C) : Sig :=
  let w := window s in
  if secStarted w && (length (curSec w) <? 200)%nat
  then withWindow s (MkWindow (curSec w ++ [b]) (secStarted w) (secStartJ w) (aScale w)) else s.

Definition onSeriesSample (s : Sig) (b : C) (tickV tickH : double) : option Sig :=
  let a := cabs b in
  let r := rails s in
  let j := n200 r in
  let s := withRails s (MkRails (lpI r) (lpQ r) (bpTickV r) (bpTickH r) (sub r) (oscRenorm r) (bcdPhase r) (accB r)
                          (accTickV r) (accTickH r) (decCount r) (j + 1)) in
  let phase := Z.to_nat (cmod j kSecLen) in
  let f := fold s in
  let s := withFold s (MkFold (folded (foldV f) phase tickV) (folded (foldH f) phase tickH)
                         (tickLocked f) (tickPhase f) (tickLockJ f) (tickExcessRatio f)) in
  let s := judgeStation (seekTick s j) j in
  let w := window s in
  let top := if (a >? aScale w)%D then a else aScale w in
  let s := withWindow s (MkWindow (curSec w) (secStarted w) (secStartJ w) (top * 0.99999)%D) in
  if negb (tickLocked (fold s)) then Some s
  else s ← cutSecond s j; Some (fillSecond s b).

(** *** Samples *)

(** The rails on the modulation [m]; a value of the series when it is complete. *)
Definition railStep (r : Rails) (mb m : double) : Rails * option (C * double * double) :=
  let '(pI, i) := thru (lpI r) (mb * re (sub r))%D in
  let '(pQ, q) := thru (lpQ r) (mb * im (sub r))%D in
  let '(o, k) := advanceOsc (fun o => PrimFloat.sqrt (re o * re o + im o * im o)%D) (sub r) rot100 (oscRenorm r) in
  let '(pV, tv) := thru (bpTickV r) m in
  let '(pH, th) := thru (bpTickH r) m in
  let acc := cadd (accB r) (MkC i q) in
  let aV := (accTickV r + dabs tv)%D in
  let aH := (accTickH r + dabs th)%D in
  let n := decCount r + 1 in
  if n <? decim then (MkRails pI pQ pV pH o k (bcdPhase r) acc aV aH n (n200 r), None)
  else
    let invd := (1 / d_of_Z decim)%D in
    let b := MkC (re acc * invd) (im acc * invd)%D in
    let phase := cadd (bcdPhase r) (cscale aBcdPhase (csub b (bcdPhase r))) in
    (MkRails pI pQ pV pH o k phase c0 0 0 0 (n200 r), Some (b, (aV * invd)%D, (aH * invd)%D)).
Definition processM (s : Sig) (k : Z) (m : double) : option Sig :=
  let mx := mixer s in
  let dc := ease aDc k (mDc mx) m in
  let s := withMixer s (MkMixer (f0 mx) (osc mx) (step mx) (oscRenormZ mx) (refI mx) (refQ mx) (zLine mx) (level mx)
                          (qVar mx) dc (freqCount mx) (freqPrev mx) (mRing mx) (mHead mx)) in
  let '(r, out) := railStep (rails s) (m - dc)%D m in
  let s := withRails s r in
  match out with
  | None => Some s
  | Some (b, tv, th) => onSeriesSample s b tv th
  end.

Definition seekCarrier (s : Sig) (n : Z) (x : C) : Sig :=
  let c := carrier s in
  if negb (carrierFound c) then
    let '(c, m) := searchStep c (mixer s) (n + 1) x in withMixer (withCarrier s c) m
  else if negb (locked (timerV (ticks s))) && negb (locked (timerH (ticks s))) && negb (tickLocked (fold s)) &&
          (d2ll (kResearchSec * d_of_Z fs)%D <? n - carrierFoundAt c)
  then withCarrier s (MkCarrier false (carrierFoundAt c) (sAcc c) (sAccN c) (sOsc c) (sRenorm c) (searchBuf c) (carrierSnrDb c))
  else s.

(** One sample. [None] is a read of what a ring does not hold. *)
Definition processSample (s : Sig) (x : C) : option Sig :=
  let n := samplesConsumed s in
  let s := seekCarrier (withCount s (n + 1)) n x in
  let '(m, c) := mixed (mixer s) n x in
  let s := withMixer s m in
  if n <? refDelay then Some s
  else
    let k := n - refDelay in
    zd ← ringAt (n - (Z.of_nat (length (zLine m)) - 1)) n (zLine m) k;
    let '(m, v) := detect m k zd c in
    processM (withMixer s m) k v.

(** *** The public surface *)

Definition reset (s : Sig) : Sig :=
  let m := mixer s in
  let r := rails s in
  let t := ticks s in
  MkSig 0 noCarrier
    (setMixer (MkMixer (f0 m) (MkC 1 0) (step m) 0 (pairReset (refI m)) (pairReset (refQ m))
                 (replicate (length (zLine m)) c0) 0 0 0 0 c0 (replicate (length (mRing m)) 0%D) (-1)) fNominal)
    (MkRails (pairReset (lpI r)) (pairReset (lpQ r)) (pairReset (bpTickV r)) (pairReset (bpTickH r)) (MkC 1 0) 0 c0 c0 0 0 0 0)
    noFold noWindow noDelay
    (MkTicks (WwvTick.reset shapeV (timerV t)) (WwvTick.reset shapeH (timerH t)) false nan 0)
    (Tag.reset (tag s)) (resetFrames (tail s)).

(** What is asked of the decoder. *)
Inductive Op := Process (iq : list C) | Reset | PresetStation (st : ClockStation) | PinStation (st : ClockStation).
Fixpoint process (s : Sig) (iq : list C) : option Sig :=
  match iq with [] => Some s | x :: iq => s ← processSample s x; process s iq end.
Definition perform (s : Sig) (o : Op) : option Sig :=
  match o with
  | Process iq => process s iq
  | Reset => Some (reset s)
  | PresetStation st => Some (withTag s (Tag.presetStation (tag s) st))
  | PinStation st => Some (withTag s (Tag.pinStation (tag s) st))
  end.
Fixpoint performAll (s : Sig) (os : list Op) : option Sig :=
  match os with [] => Some s | o :: os => s ← perform s o; performAll s os end.
End Chain.

(** ** Lemmas: the matched filter's shift *)

Lemma lags_shift v invn lo hi : lo = fst (bestShift v invn lo hi) \/ lo <= fst (bestShift v invn lo hi) <= hi.
Proof.
  unfold bestShift. assert (G : forall ls best shift sc, (forall d, In d ls -> lo <= d <= hi) -> (lo = shift \/ lo <= shift <= hi) ->
    let '(_, shift', _) := fold_left (fun '(best, shift, sc) d =>
      let s := scores v invn (Z.to_nat d) in
      let m := (dmax (dmax (nth 0 s 0) (nth 1 s 0)) (nth 2 s 0))%D in
      if (m >? best)%D then (m, d, s) else (best, shift, sc)) ls (best, shift, sc) in lo = shift' \/ lo <= shift' <= hi).
  { induction ls as [|d ls IH]; intros best shift sc In_ B; [exact B|]. cbn [fold_left]. cbv zeta. destruct (_ >? best)%D.
    - apply IH; [intros; apply In_; by right|]. right. apply In_. by left.
    - apply IH; [intros; apply In_; by right|exact B]. }
  specialize (G (lags lo hi) (-1e30)%D lo [0; 0; 0]%D (fun d => proj1 (lags_In lo hi d)) (or_introl eq_refl)). cbv zeta in G.
  destruct (fold_left _ _ _) as [[b s] sc]. exact G.
Qed.

(** A delay that has not drifted off is searched for inside the range. *)
Definition shiftOf (y : Delay) (w : list double) : Z := let '(_, _, sh, _) := classify y w in sh.
Lemma shift_in_range y w : drifted y = false -> 0 <= shiftOf y w <= kMaxShift.
Proof.
  intros N. assert (B : 0 <= fst (shiftBand y) <= 40 /\ snd (shiftBand y) <= 40).
  { unfold shiftBand, drifted in *. destruct (delayLocked y); [|cbn; unfold kMaxShift; lia]. cbn [andb fst snd] in *.
    apply orb_false_iff in N as [N1 N2].
    assert (C : 0 <= lround32 (delayEst y) <= 39 + 1); [|unfold kMaxShift; lia].
    apply lround_within; [lia| |].
    - revert N1. clear. assert (X : (0 <? 1.5)%D = true) by reflexivity. revert X. generalize 0%D, 1.5%D, (delayEst y). dorder.
    - revert N2. clear. assert (X : (d_of_Z kMaxShift - 1.5 <? d_of_Z 39)%D = true) by (vm_compute; reflexivity).
      revert X. generalize (d_of_Z kMaxShift - 1.5)%D, (d_of_Z 39), (delayEst y). dorder. }
  unfold shiftOf, classify. cbv zeta. destruct (shiftBand y) as [lo hi]. cbn [fst snd] in B.
  match goal with |- context [bestShift ?v ?i lo hi] => pose proof (lags_shift v i lo hi) as L; destruct (bestShift v i lo hi) as [sh sc] end.
  cbn [fst] in L. unfold kMaxShift. lia.
Qed.

(** ** Lemmas: every read is held *)

Section Reads.
Context `{Libm} `{CMul} `{Pow} (cfg : Config) (fs : Z) (fNominal : double).

(** The timers' shapes fit, and the carrier reference is not ahead of its input:
    evaluated for a rate. *)
Definition geometryOk : bool := shapeOk (shapeV fs) && shapeOk (shapeH fs) && (0 <=? refDelay fs).

Definition mixerOk (m : Mixer) : Prop := refDelay fs < Z.of_nat (length (zLine m)) /\ (0 < length (mRing m))%nat.
Definition ticksOk (t : Ticks) : Prop := timerOk (shapeV fs) (timerV t) /\ timerOk (shapeH fs) (timerH t).
(** What Wwv keeps is what it makes of a list of seconds, and nothing else. *)
Definition heardBy (t : Impl) : Prop := exists es, run cfg fresh es = Some t.
Definition windowOk (w : Window) : Prop := (length (curSec w) <= 200)%nat.
Definition good (s : Sig) : Prop :=
  mixerOk (mixer s) /\ ticksOk (ticks s) /\ heardBy (tail s) /\ drifted (delay s) = false /\ windowOk (window s).

Lemma heard_records t : heardBy t -> recsOk t.
Proof. intros [es E]. destruct (wwv_run_total cfg es fresh fresh_records) as (t' & E' & R). congruence. Qed.
Lemma heard_step t e t' : heardBy t -> Wwv.step cfg t e = Some t' -> heardBy t'.
Proof. intros [es E] S. exists (es ++ [e])%list. rewrite wwv_run_app, E. cbn. by rewrite S. Qed.

Lemma noDelay_steady : drifted noDelay = false.
Proof. done. Qed.
Lemma loosened_good s t : mixerOk (mixer s) -> ticksOk (ticks s) -> heardBy t -> good (loosened s t).
Proof. intros M T D. repeat (split; [done|]). unfold windowOk. cbn. lia. Qed.
Lemma good_delay s y : good s -> drifted y = false -> good (withDelay s y).
Proof. intros (M & T & D & _ & W) N. exact (conj M (conj T (conj D (conj N W)))). Qed.
Lemma noteEdge_drift y x : drifted (noteEdge y x) = drifted y.
Proof. unfold noteEdge. destruct (_ || _); [done|]. by destruct (_ <=? _). Qed.
Lemma checkBcd_timers t v h timing cmp d : timerV (checkBcd fs t v h timing cmp d) = v /\ timerH (checkBcd fs t v h timing cmp d) = h.
Proof. unfold checkBcd. by destruct (_ && _). Qed.

Context (Geo : geometryOk = true).

Lemma tickTimes_total s startJ silent : mixerOk (mixer s) -> ticksOk (ticks s) ->
  exists v h, tickTimes fs s startJ silent = Some (v, h) /\ timerOk (shapeV fs) v /\ timerOk (shapeH fs) h.
Proof.
  intros [_ M] [V Hh]. pose proof Geo as G. unfold geometryOk in G. rewrite !andb_true_iff in G. destruct G as ((G1 & G2) & _).
  unfold tickTimes. cbv zeta.
  edestruct (timeTick_total fs (shapeV fs)) as (v & -> & V'); [exact G1|exact V|exact M|]. cbn [mbind option_bind].
  edestruct (timeTick_total fs (shapeH fs)) as (h & -> & H'); [exact G2|exact Hh|exact M|]. cbn [mbind option_bind]. eauto.
Qed.

(** A second is always processed. *)
Lemma processSecond_total s startJ b : good s -> exists s', processSecond cfg fs s startJ b = Some s' /\ good s'.
Proof.
  intros G. pose proof G as (M & T & D & N & W). unfold processSecond. cbv zeta.
  destruct (classify (delay s) (pulseOf (rails s) b)) as [[[sy cf] sh] frac].
  set (s1 := withDelay s (noteShift (delay s) cf sh)). destruct (drifted (delay s1)) eqn:Dr.
  { eexists. split; [done|]. by apply loosened_good, (heard_step _ EReacquire _ D). }
  set (s2 := if (_ && _ && _ : bool) then withDelay s1 _ else s1).
  assert (G1 : good s1) by exact (conj M (conj T (conj D (conj Dr W)))).
  assert (G2 : good s2) by (unfold s2; destruct (_ && _); [apply good_delay; [done|]; by rewrite noteEdge_drift|done]).
  clearbody s2. destruct G2 as (M2 & T2 & D2 & N2 & W2).
  match goal with |- context [tickTimes fs s2 startJ ?x] => destruct (tickTimes_total s2 startJ x M2 T2) as (v & h & -> & Tv & Th) end.
  cbn [mbind option_bind]. set (s3 := withTicks s2 _).
  assert (G3 : good s3).
  { split; [done|]. split; [|done]. unfold ticksOk, s3. cbn [ticks withTicks].
    match goal with |- context [checkBcd fs ?t v h ?x ?y ?d] => destruct (checkBcd_timers t v h x y d) as [-> ->] end. done. }
  match goal with |- context [recordSecond cfg ?st (tail s3) ?r] =>
    destruct (record_total cfg st (tail s3) r (heard_records _ D2)) as (t & E & _);
    pose proof (heard_step (tail s3) (ESecond st r) (turned t) D2) as Ht; cbn [Wwv.step] in Ht; rewrite E in Ht |- * end.
  specialize (Ht eq_refl). cbn [mbind option_bind]. eexists. split; [done|].
  destruct G3 as (M3 & T3 & _ & N3). destruct t as [t|t]; cbn [turned] in Ht; [by repeat (split; [done|])|by apply loosened_good].
Qed.

(** A value of the series. *)
Lemma seekTick_good s j : good s -> good (seekTick s j).
Proof.
  intros G. pose proof G as (M & T & D & N & W). unfold seekTick. cbv zeta. destruct (_ || _); [done|].
  destruct (stats (foldV (fold s))) as [rV aV]. destruct (stats (foldH (fold s))) as [rH aH]. destruct (_ || _); [|done].
  split; [done|]. split; [done|]. split; [|done]. by apply (heard_step _ EAcquire _ D).
Qed.
Lemma judgeStation_good s j : good s -> good (judgeStation s j).
Proof. unfold judgeStation. by destruct (_ && _). Qed.
Lemma cutSecond_total s j : good s -> exists s', cutSecond cfg fs s j = Some s' /\ good s'.
Proof.
  intros G. unfold cutSecond. cbv zeta. destruct (_ && _); [|by exists s].
  assert (E : exists s1, (if secStarted (window s) && (length (curSec (window s)) =? 200)%nat
    then processSecond cfg fs s (secStartJ (window s)) (curSec (window s)) else Some s) = Some s1 /\ good s1).
  { destruct (_ && _); [by apply processSecond_total|by exists s]. }
  destruct E as (s1 & -> & (M & T & D & N & _)). cbn [mbind option_bind]. eexists. split; [done|].
  repeat (split; [done|]). unfold windowOk. cbn. lia.
Qed.
Lemma fillSecond_good s b : good s -> good (fillSecond s b).
Proof.
  intros G. pose proof G as (M & T & D & N & W). unfold fillSecond. cbv zeta. destruct (_ && _) eqn:B; [|done].
  repeat (split; [done|]). apply andb_true_iff in B as [_ B]. apply Nat.ltb_lt in B. unfold windowOk. cbn. rewrite length_app. cbn. lia.
Qed.
Lemma series_total s b tv th : good s -> exists s', onSeriesSample cfg fs s b tv th = Some s' /\ good s'.
Proof.
  intros G. unfold onSeriesSample. cbv zeta. set (s1 := withFold _ _).
  assert (G1 : good s1) by exact G. clearbody s1. pose proof (judgeStation_good _ (n200 (rails s)) (seekTick_good s1 (n200 (rails s)) G1)) as G2.
  set (s2 := judgeStation _ _) in *. clearbody s2. set (s3 := withWindow _ _). assert (G3 : good s3) by exact G2. clearbody s3.
  destruct (negb _); [by exists s3|]. destruct (cutSecond_total s3 (n200 (rails s)) G3) as (s4 & -> & G4). cbn [mbind option_bind].
  eexists. split; [done|]. by apply fillSecond_good.
Qed.

(** A sample. *)
Lemma setMixer_ok m f : mixerOk m -> mixerOk (setMixer fs fNominal m f).
Proof. done. Qed.
Lemma finishSearch_ok c m n : mixerOk m -> mixerOk (snd (finishSearch fs fNominal c m n)).
Proof. intros M. unfold finishSearch. cbv zeta. by destruct (_ || _). Qed.
Lemma searchStep_ok c m n x : mixerOk m -> mixerOk (snd (searchStep fs fNominal c m n x)).
Proof.
  intros M. unfold searchStep. cbv zeta. destruct (advanceOsc _ _ _ _) as [o k]. destruct (_ <? _); [done|].
  destruct (_ <=? _); [by apply finishSearch_ok|done].
Qed.
Lemma seekCarrier_good s n x : good s -> good (seekCarrier fs fNominal s n x) /\
  samplesConsumed (seekCarrier fs fNominal s n x) = samplesConsumed s.
Proof.
  intros G. pose proof G as (M & T & D & N & W). unfold seekCarrier. cbv zeta. destruct (negb (carrierFound _)).
  - pose proof (searchStep_ok (carrier s) (mixer s) (n + 1) x M) as M'. destruct (searchStep _ _ _ _ _ _) as [c m]. by split.
  - by destruct (_ && _).
Qed.
Lemma mixed_ok m n x : mixerOk m -> mixerOk (fst (mixed fs fNominal m n x)).
Proof.
  intros [M R]. unfold mixed. cbv zeta. destruct (advanceOsc _ _ _ _) as [o k]. destruct (thru _ _) as [pI cr].
  destruct (thru (refQ m) _) as [pQ ci]. destruct (_ && _); cbn [fst]; unfold mixerOk; cbn; by rewrite length_ringPut.
Qed.
Lemma detect_ok m k zd c : mixerOk m -> mixerOk (fst (detect fs m k zd c)).
Proof. intros [M R]. unfold detect. cbv zeta. cbn [fst]. unfold mixerOk. cbn. by rewrite length_ringPut. Qed.
Lemma seekTick_count s j : samplesConsumed (seekTick s j) = samplesConsumed s.
Proof. unfold seekTick. cbv zeta. destruct (_ || _); [done|]. destruct (stats _), (stats _). by destruct (_ || _). Qed.
Lemma judgeStation_count s j : samplesConsumed (judgeStation s j) = samplesConsumed s.
Proof. unfold judgeStation. by destruct (_ && _). Qed.
Lemma processSecond_count s j b s' : processSecond cfg fs s j b = Some s' -> samplesConsumed s' = samplesConsumed s.
Proof.
  unfold processSecond. cbv zeta. destruct (classify _ _) as [[[sy cf] sh] frac]. destruct (drifted _); [by intros [= <-]|].
  intros E. apply bind_Some in E as ([v h] & _ & E). apply bind_Some in E as (t & _ & E). injection E as <-.
  destruct t; cbn; by destruct (_ && _ && _).
Qed.
Lemma series_count s b tv th s' : onSeriesSample cfg fs s b tv th = Some s' -> samplesConsumed s' = samplesConsumed s.
Proof.
  unfold onSeriesSample. cbv zeta. destruct (negb _); [intros [= <-]; cbn; by rewrite judgeStation_count, seekTick_count|].
  intros E. apply bind_Some in E as (s4 & E & [= <-]). unfold cutSecond in E. cbv zeta in E.
  assert (F : samplesConsumed s4 = samplesConsumed s).
  { destruct (_ && _) in E; [|injection E as <-; cbn; by rewrite judgeStation_count, seekTick_count].
    apply bind_Some in E as (s5 & E & [= <-]). cbn. destruct (_ && _) in E; [|injection E as <-; cbn; by rewrite judgeStation_count, seekTick_count].
    apply processSecond_count in E. rewrite E. cbn. by rewrite judgeStation_count, seekTick_count. }
  rewrite <- F. clear. unfold fillSecond. cbv zeta. destruct (_ && _); reflexivity.
Qed.

Lemma sample_total s x : good s -> exists s', processSample cfg fs fNominal s x = Some s' /\ good s' /\
  samplesConsumed s' = samplesConsumed s + 1.
Proof.
  intros G. unfold processSample. cbv zeta. set (n := samplesConsumed s).
  destruct (seekCarrier_good (withCount s (n + 1)) n x G) as [G1 C1]. set (s1 := seekCarrier _ _ _ _ _) in *. clearbody s1.
  pose proof G1 as (M1 & T1 & D1 & N1 & W1). pose proof (mixed_ok (mixer s1) n x M1) as M2.
  destruct (mixed fs fNominal (mixer s1) n x) as [m c]. cbn [fst] in M2. destruct (Z.ltb_spec n (refDelay fs)); [by exists (withMixer s1 m)|].
  assert (Rd : exists zd, ringAt (n - (Z.of_nat (length (zLine m)) - 1)) n (zLine m) (n - refDelay fs) = Some zd).
  { pose proof Geo as Ge. unfold geometryOk in Ge. rewrite !andb_true_iff in Ge. destruct Ge as (_ & Ge). destruct M2 as [L _].
    unfold ringAt. zbool. destruct (Z.leb_spec (n - (Z.of_nat (length (zLine m)) - 1)) (n - refDelay fs)); [|lia].
    destruct (Z.leb_spec (n - refDelay fs) n); [|lia]. cbn [andb].
    destruct (lookup_lt_is_Some_2 (zLine m) (ringSlot (zLine m) (n - refDelay fs))) as [zd ->]; [apply ringSlot_lt; lia|by exists zd]. }
  cbn [mixer withMixer]. destruct Rd as [zd ->]. cbn [mbind option_bind]. pose proof (detect_ok m (n - refDelay fs) zd c M2) as M3.
  destruct (detect fs m (n - refDelay fs) zd c) as [m' v]. cbn [fst] in M3. unfold processM. cbv zeta.
  destruct (railStep _ _ _ _) as [r [[[b tv] th]|]]; [|by eexists].
  match goal with |- context [onSeriesSample cfg fs ?s b tv th] => destruct (series_total s b tv th) as (s' & E & G'); [by repeat (split; [done|])|];
    exists s'; split; [exact E|]; split; [done|]; apply series_count in E end.
  rewrite E. cbn. rewrite C1. done.
Qed.
Lemma process_total iq : forall s, good s -> exists s', process cfg fs fNominal s iq = Some s' /\ good s' /\
  samplesConsumed s' = samplesConsumed s + Z.of_nat (length iq).
Proof.
  induction iq as [|x iq IH]; intros s G; [exists s; split; [done|]; split; [done|]; cbn; lia|]. cbn [process].
  destruct (sample_total s x G) as (s1 & -> & G1 & C1). cbn [mbind option_bind].
  destruct (IH s1 G1) as (s2 & E & G2 & C2). exists s2. cbn [length]. split; [exact E|]. split; [done|]. lia.
Qed.

Lemma shapes_ok : shapeOk (shapeV fs) = true /\ shapeOk (shapeH fs) = true /\ 0 <= refDelay fs.
Proof. pose proof Geo as G. unfold geometryOk in G. rewrite !andb_true_iff in G. destruct G as ((G1 & G2) & G3). by zbool. Qed.
Lemma wwv_construct_good : good (construct fs fNominal).
Proof.
  destruct shapes_ok as (V & Hh & R). split; [|split; [|split; [|split; [done|]]]].
  - unfold mixerOk, construct, newMixer, setMixer. cbn [mixer zLine mRing]. rewrite !length_replicate.
    pose proof (capOf_pos (d2ll (2.5 * d_of_Z fs))). assert (B : refDelay fs < 2147483648) by (unfold refDelay, lround32; apply i32_range).
    assert (K : refDelay fs + 2 <= 2 ^ 40) by (change (2 ^ 40) with 1099511627776; lia).
    pose proof (capOf_ge (refDelay fs + 2) K). lia.
  - split; by apply newTimer_ok.
  - by exists [].
  - unfold windowOk. cbn. lia.
Qed.
Lemma resetTimer_ok c t : shapeOk c = true -> timerOk c (WwvTick.reset c t).
Proof. intros Ok. exact (newTimer_ok c Ok). Qed.
Lemma reset_good s : good s -> good (reset fs fNominal s).
Proof.
  intros ((Z1 & Z2) & T & D & _). destruct shapes_ok as (V & Hh & R). split; [|split; [|split; [|split; [done|]]]].
  - split; cbn; by rewrite length_replicate.
  - split; by apply resetTimer_ok.
  - by apply (heard_step _ EReset _ D).
  - unfold windowOk. cbn. lia.
Qed.
Definition countAfter (n : Z) (o : Op) : Z :=
  match o with Process iq => n + Z.of_nat (length iq) | Reset => 0 | _ => n end.
Lemma perform_total o s : good s -> exists s', perform cfg fs fNominal s o = Some s' /\ good s' /\
  samplesConsumed s' = countAfter (samplesConsumed s) o.
Proof.
  intros G. destruct o as [iq| |st|st]; cbn [perform countAfter].
  - by apply process_total.
  - eexists. split; [done|]. split; [by apply reset_good|done].
  - by eexists.
  - by eexists.
Qed.
Lemma performAll_total os : forall s, good s -> exists s', performAll cfg fs fNominal s os = Some s' /\ good s' /\
  samplesConsumed s' = fold_left countAfter os (samplesConsumed s).
Proof.
  induction os as [|o os IH]; intros s G; [by exists s|]. cbn [performAll fold_left].
  destruct (perform_total o s G) as (s1 & -> & G1 & C1). cbn [mbind option_bind]. rewrite <- C1. by apply IH.
Qed.
End Reads.

(** ** Properties *)

(** C22: The WWV signal chain reads only what its rings hold, at a sample rate at
    which both ticks' shapes lie within what is searched for them, and with functions
    of the C++ library by which the reference's low passes do not run ahead of their
    input (the hypothesis, evaluated at 12 kHz). Then whatever samples the decoder is
    given, and whenever it is reset, told a station or pinned to one: the delayed
    baseband and the modulation under both ticks are read where they were written,
    every second cut is classified, timed and recorded, and nothing is left undone.
    The samples are counted; the decoder of seconds is where some sequence of its
    events (the tick found, seconds, reacquisitions, resets) takes it from its start;
    both timers have their profiles whole and a period within 200 parts in a million
    of the rate; a window never has more than its second; and every second's pulse is
    found within the 200 ms searched. *)
Theorem wwv_reads_held `{Libm} `{CMul} `{Pow} (cfg : Config) (fs : Z) (fNominal : double) (os : list Op) :
  geometryOk fs = true ->
  exists s, performAll cfg fs fNominal (construct fs fNominal) os = Some s /\
    samplesConsumed s = fold_left countAfter os 0 /\
    (exists es, run cfg fresh es = Some (tail s)) /\
    timerOk (shapeV fs) (timerV (ticks s)) /\ timerOk (shapeH fs) (timerH (ticks s)) /\
    (length (curSec (window s)) <= 200)%nat /\
    forall w, 0 <= shiftOf (delay s) w <= kMaxShift.
Proof.
  intros Geo. destruct (performAll_total cfg fs fNominal Geo os _ (wwv_construct_good cfg fs fNominal Geo)) as (s & E & G & Cn).
  exists s. split; [exact E|]. split; [exact Cn|]. destruct G as (_ & [V Hh] & D & N & W).
  split; [exact D|]. split; [exact V|]. split; [exact Hh|]. split; [exact W|]. intros w. by apply shift_in_range.
Qed.

(** *** Witnesses *)

(** A pulse of each kind, 65 ms late, is told apart at its delay, and found there
    to a part of a sample. *)
Definition heardPulse (ms : Z) : list double := (replicate 3 0 ++ take 197 (map (fun v => v + 0.5)%D (template ms)))%list%D.
Definition settled : Delay := MkDelay 3 true 20 3 20 0.
Example wwv_pulses_read :
  map (fun ms => let '(sy, _, sh, _) := classify settled (heardPulse ms) in (sy, sh)) symbolMs =
  [(SymZero, 3); (SymOne, 3); (SymMarker, 3)].
Proof. vm_compute. reflexivity. Qed.

Lemma wwv_reads_held_witness :
  let os := [PresetStation StWwvh; Process [MkC 1 0; MkC 0 1]; Reset; PinStation StWwv; Process [MkC 1 0; MkC 0 1; MkC 1 1]] in
  @geometryOk demoLibm 12000 = true /\
  exists s, @performAll demoLibm demoCMul demoPow wwvVoter 12000 0%D (@construct demoLibm 12000 0%D) os = Some s /\ samplesConsumed s = 3.
Proof.
  intros os. assert (Geo : @geometryOk demoLibm 12000 = true) by (vm_compute; reflexivity). split; [exact Geo|].
  destruct (@wwv_reads_held demoLibm demoCMul demoPow wwvVoter 12000 0%D os Geo) as (s & E & Cn & _).
  exists s. split; [exact E|]. rewrite Cn. reflexivity.
Defined.
