(* ===== verification/Wwvb.v ===== *)
(** * The WWVB frame (src/clock/WwvbDecoder.cpp)
    What the 60 kHz Fort Collins decoder makes of its classified seconds: where the
    minute is (two markers in a row), the leap second (three), the frame and its
    fields, the vote, the lock and the labels. The seconds come from WwvbSignal. *)

From Stdlib Require Import ZArith Lia List Bool Floats.
From stdpp Require Import base list.
From S2P Require Import Prelude Doubles Rounding ClockTypes CivilTime TimeFrameVoter TimeCode Signals EnvelopeRing.

#[local] Open Scope Z_scope.

(** ** Constants *)

Definition kStructConf : double := fround 0.1.
Definition kMarkerSeconds : list Z := [0; 9; 19; 29; 39; 49; 59].
Definition isWwvbMarkerSecond (s : Z) : bool := existsb (Z.eqb s) kMarkerSeconds.
Definition buildVoterConfig : Config := voterConfig wwvbFields.

(** ** Data *)

(** A classified second. *)
Record Sec := MkSec {
  edgeSample : Z; edgeExact : double; measured : bool; sym : ClockSymbol; conf : double
}.

Record FrameInfo := MkFrameInfo {
  fi_fields : TimeFields; fi_dut1Tenths : Z; fi_leapYear : bool; fi_leapPending : bool;
  fi_dst1 : bool; fi_dst2 : bool; fi_confidence : double; fi_start : Z
}.
Record TimeInfo := MkTimeInfo {
  ti_fields : TimeFields; ti_quality : double; ti_edge : Z; ti_edgeExact : double; ti_second : Z
}.
Inductive Call :=
  | OnState (s : ClockLockState)
  | OnFrame (f : FrameInfo)
  | OnSecond (r : Sec) (sof : Z)
  | OnTime (t : TimeInfo).

Record Sync := MkSync {
  anchored : bool; sofNext : Z; prevSym : ClockSymbol; prevPrevSym : ClockSymbol; havePrev : bool
}.
(** The frame being filled; [lastS0] is the envelope index of the last one's
    start, when there is one. *)
Record Frm := MkFrm {
  frSym : list ClockSymbol; frConf : list double; frFilled : Z; frStart : Z; lastS0 : option Z
}.
(** [lastFields] is the last minute finalised, when there is one. *)
Record Leap := MkLeap { leapInserted : bool; lastFields : option TimeFields; lastLeapWarn : bool }.
Record Voted := MkVoted { haveVoted : bool; votedTime : TimeFields; votedQuality : double }.

Record Impl := MkImpl {
  lockState : ClockLockState; sync : Sync; frm : Frm; leap : Leap; voted : Voted;
  voter : list Frame; calls : list Call
}.

Definition withSync (s : Impl) (y : Sync) : Impl :=
  MkImpl (lockState s) y (frm s) (leap s) (voted s) (voter s) (calls s).
Definition withFrm (s : Impl) (f : Frm) : Impl :=
  MkImpl (lockState s) (sync s) f (leap s) (voted s) (voter s) (calls s).
Definition withLeap (s : Impl) (l : Leap) : Impl :=
  MkImpl (lockState s) (sync s) (frm s) l (voted s) (voter s) (calls s).
Definition withVoted (s : Impl) (v : Voted) : Impl :=
  MkImpl (lockState s) (sync s) (frm s) (leap s) v (voter s) (calls s).
Definition withVoter (s : Impl) (fs : list Frame) : Impl :=
  MkImpl (lockState s) (sync s) (frm s) (leap s) (voted s) fs (calls s).
Definition withLock (s : Impl) (l : ClockLockState) : Impl :=
  MkImpl l (sync s) (frm s) (leap s) (voted s) (voter s) (calls s).
Definition call (s : Impl) (c : Call) : Impl :=
  MkImpl (lockState s) (sync s) (frm s) (leap s) (voted s) (voter s) (calls s ++ [c])%list.
Definition setLockState (s : Impl) (l : ClockLockState) : Impl :=
  if bool_decide (l = lockState s) then s else call (withLock s l) (OnState l).

Definition blankSym : list ClockSymbol := replicate 60 SymUnknown.
Definition blankConf : list double := replicate 60 0%D.
Definition noSync : Sync := MkSync false 0 SymUnknown SymUnknown false.
Definition noLeap : Leap := MkLeap false None false.
Definition noVote : Voted := MkVoted false TimeFields_none 0.
(** The decoder as made, and once it has found its carrier. *)
Definition fresh (l : ClockLockState) : Impl :=
  MkImpl l noSync (MkFrm blankSym blankConf 0 0 None) noLeap noVote [] [].
Definition running : Impl := setLockState (fresh LockNoSignal) LockAcquiring.

Definition unvoted (v : Voted) : Voted := MkVoted false (votedTime v) (votedQuality v).
(** [haveVoted] down, and a standing lock given up; [stopCertifying] does both
    only when there is a lock. *)
Definition demote (s : Impl) : Impl :=
  let s := withVoted s (unvoted (voted s)) in
  if bool_decide (lockState s = LockLocked) then setLockState s LockAcquiring else s.
Definition stopCertifying (s : Impl) : Impl :=
  if bool_decide (lockState s = LockLocked)
  then setLockState (withVoted s (unvoted (voted s))) LockAcquiring else s.

(** ** Frame synchronisation *)

(** A leap second can only end the UTC month; with no minute to judge by it
    cannot be ruled out. *)
Definition leapSecondPossible (l : Leap) : bool :=
  match lastFields l with
  | None => true
  | Some f =>
      if negb (tf_minute f =? 59) || negb (tf_hour f =? 23) then false
      else if (tf_doy f <? 1) || (366 <? tf_doy f) || (tf_year2 f <? 0) || (99 <? tf_year2 f) then false
      else isLastDayOfMonth (utcMsFromFields (tf_year2 f) (tf_doy f) (tf_hour f) (tf_minute f))
  end.

Definition beginFrame (s : Impl) (s0edge : Z) : Impl :=
  withFrm s (MkFrm blankSym blankConf 0 s0edge (lastS0 (frm s))).

Definition setCount (s : Impl) (an : bool) (next : Z) : Impl :=
  let y := sync s in withSync s (MkSync an next (prevSym y) (prevPrevSym y) (havePrev y)).
Definition notePrev (s : Impl) (y : Sync) (sm : ClockSymbol) : Impl :=
  let y' := sync s in
  withSync s (MkSync (anchored y') (sofNext y') sm (if havePrev y then prevSym y else SymUnknown) true).

(** The second of the minute this is, [-1] when nobody knows. *)
Definition updateSync (s : Impl) (r : Sec) : Impl * Z :=
  let y := sync s in
  let marker := symb_eqb (sym r) SymMarker in
  let '(s', sof) :=
    if negb (anchored y) then
      if havePrev y && symb_eqb (prevSym y) SymMarker && marker
      then (beginFrame (setCount s true 1) (edgeSample r), 0) else (s, -1)
    else if (sofNext y =? 1) && marker && symb_eqb (prevSym y) SymMarker &&
            symb_eqb (prevPrevSym y) SymMarker && leapSecondPossible (leap s) then
      let s := stopCertifying s in
      let l := leap s in
      (beginFrame (setCount (withLeap s (MkLeap true (lastFields l) (lastLeapWarn l))) (anchored y) 1) (edgeSample r), 0)
    else
      let sof := sofNext y in
      let s := if sof =? 0 then beginFrame s (edgeSample r) else s in
      let s := setCount s (anchored y) (cmod (sof + 1) 60) in
      ((if (kStructConf <=? conf r)%D && negb (Bool.eqb marker (isWwvbMarkerSecond sof))
        then stopCertifying s else s), sof) in
  (notePrev s' y (sym r), sof).

(** ** Frame decode and vote *)

Definition bit (syms : list ClockSymbol) (s : Z) : bool := symb_eqb (nth (Z.to_nat s) syms SymUnknown) SymOne.
Definition field (syms : list ClockSymbol) (m : ClockFieldMap) : Z :=
  fold_left (fun v bw => if bit syms (bw_second bw) then v + bw_weight bw else v) m 0.
Definition dut1Map : ClockFieldMap := [BW 40 8; BW 41 4; BW 42 2; BW 43 1].
Definition frameConfidence (confs : list double) : double :=
  let '(sum, cnt) :=
    fold_left (fun '(sum, cnt) s =>
      if isWwvbMarkerSecond (Z.of_nat s) then (sum, cnt)
      else ((sum + nth s confs 0)%D, cnt + 1)) (seq 0 60) (0%D, 0) in
  if cnt =? 0 then 0%D else fround (dmin 1 (dmax 0 (sum / d_of_Z cnt)))%D.
Definition decodeFrame (f : Frm) : FrameInfo :=
  let b := bit (frSym f) in
  let v fld := field (frSym f) (wwvbFields fld) in
  MkFrameInfo (TF (v FieldMinutes) (v FieldHours) (v FieldDoy) (v FieldYear))
    ((if b 37 then -1 else 1) * field (frSym f) dut1Map) (b 55) (b 56) (b 58) (b 57)
    (frameConfidence (frConf f)) (frStart f).

Section Decoder.
(** [cfg] is the voter's configuration, with the plausibility reference set;
    envelope index 0 begins at sample [base], and each is [decim] samples. *)
Context `{Pow} (cfg : Config) (base decim : Z).

Definition vote (s : Impl) (f : Frame) (keep : bool) : Impl :=
  let fs := addFrame cfg (if keep then voter s else reset (voter s)) f in
  let s := withVoter s fs in
  if l_locked (lockVerdict cfg fs)
  then withVoted s (MkVoted (haveVoted (voted s))
         (TF (votedField cfg fs FieldMinutes) (votedField cfg fs FieldHours)
             (votedField cfg fs FieldDoy) (votedField cfg fs FieldYear))
         (lockConfidence cfg fs))
  else s.

Definition frameOkay (f : Frm) : bool :=
  (60 <=? frFilled f) && forallb (fun m => symb_eqb (nth (Z.to_nat m) (frSym f) SymUnknown) SymMarker) kMarkerSeconds.

Definition loseMinute (s : Impl) : Impl :=
  let y := sync s in
  let f := frm s in
  let s := withSync s (MkSync false (sofNext y) (prevSym y) (prevPrevSym y) false) in
  let s := withFrm s (MkFrm (frSym f) (frConf f) (frFilled f) (frStart f) None) in
  let s := withVoted (withLeap s noLeap) (unvoted (voted s)) in
  setLockState (withVoter s (reset (voter s))) LockAcquiring.

Definition s0env (start : Z) : Z := cdiv (start - base) decim.
Definition consecutive (s : Impl) : bool :=
  match lastS0 (frm s) with
  | None => false
  | Some last =>
      let gap := if leapInserted (leap s) then 61 else 60 in
      Z.abs (s0env (frStart (frm s)) - last - gap * kEnvRateHz) <=? 2 * kEdgeTol
  end.

Definition finalizeFrame (s : Impl) : Impl :=
  let f := frm s in
  if negb (frameOkay f) then loseMinute s
  else
    let fi := decodeFrame f in
    let s := call s (OnFrame fi) in
    let keep := consecutive s in
    let warned := lastLeapWarn (leap s) in
    let s := withFrm s (MkFrm (frSym f) (frConf f) (frFilled f) (frStart f) (Some (s0env (frStart f)))) in
    let s := vote s (MkFrame (frSym f) (frConf f)) keep in
    let certified := l_locked (lockVerdict cfg (voter s)) in
    let fields := if certified then votedTime (voted s) else fi_fields fi in
    let l := MkLeap false (Some fields) (fi_leapPending fi) in
    let leapNext := (fi_leapPending fi || warned) && leapSecondPossible l in
    let s := withLeap s l in
    if certified && negb leapNext
    then setLockState (withVoted s (MkVoted true (votedTime (voted s)) (votedQuality (voted s)))) LockLocked
    else demote s.

Definition recordFrameSecond (s : Impl) (sof : Z) (r : Sec) : Impl :=
  let f := frm s in
  let s := withFrm s (MkFrm (<[Z.to_nat sof := sym r]> (frSym f)) (<[Z.to_nat sof := conf r]> (frConf f))
                        (frFilled f + 1) (frStart f) (lastS0 f)) in
  if sof =? 59 then finalizeFrame s else s.

(** The second half of [classifyAndAdvance]: what is done with a second. *)
Definition handleSecond (s : Impl) (r : Sec) : Impl :=
  let '(s, sof) := updateSync s r in
  let s := call s (OnSecond r sof) in
  let s := if anchored (sync s) && (0 <=? sof) then recordFrameSecond s sof r else s in
  if bool_decide (lockState s = LockLocked) && haveVoted (voted s)
  then call s (OnTime (MkTimeInfo (votedTime (voted s)) (votedQuality (voted s)) (edgeSample r) (edgeExact r) sof))
  else s.

Definition run (s : Impl) (secs : list Sec) : Impl := fold_left handleSecond secs s.

End Decoder.

(** ** Lemmas: the decoder's state *)

(** The labels given so far. *)
Definition labels (s : Impl) : list TimeInfo :=
  omap (fun c => match c with OnTime t => Some t | _ => None end) (calls s).

Lemma labels_call s c :
  labels (call s c) = (labels s ++ match c with OnTime t => [t] | _ => [] end)%list.
Proof. unfold labels, call. cbn [calls]. rewrite omap_app. by destruct c. Qed.

Lemma setLock_fields s l :
  let s' := setLockState s l in
  sync s' = sync s /\ frm s' = frm s /\ leap s' = leap s /\ voted s' = voted s /\ voter s' = voter s /\
  lockState s' = l /\ labels s' = labels s.
Proof.
  cbv zeta. unfold setLockState. case_bool_decide as D; [by subst|]. rewrite labels_call, app_nil_r. done.
Qed.

(** Giving up the lock: nothing else changes. *)
Definition unlockedFrom (s s' : Impl) : Prop :=
  sync s' = sync s /\ frm s' = frm s /\ leap s' = leap s /\ voter s' = voter s /\ labels s' = labels s /\
  votedTime (voted s') = votedTime (voted s).
Lemma wwvb_demote_fields s :
  unlockedFrom s (demote s) /\ haveVoted (voted (demote s)) = false /\ lockState (demote s) <> LockLocked.
Proof.
  unfold demote. set (s1 := withVoted s _). assert (U : unlockedFrom s s1) by done.
  assert (V : haveVoted (voted s1) = false) by done. clearbody s1. case_bool_decide as D; [|done].
  destruct (setLock_fields s1 LockAcquiring) as (E1 & E2 & E3 & E4 & E5 & E6 & E7).
  unfold unlockedFrom in *. rewrite E1, E2, E3, E4, E5, E6, E7. done.
Qed.
Lemma stopCertifying_fields s :
  unlockedFrom s (stopCertifying s) /\ lockState (stopCertifying s) <> LockLocked /\
  (lockState s <> LockLocked -> stopCertifying s = s) /\
  (lockState s = LockLocked -> haveVoted (voted (stopCertifying s)) = false).
Proof.
  unfold stopCertifying. case_bool_decide as D; [|done].
  destruct (setLock_fields (withVoted s (unvoted (voted s))) LockAcquiring) as (E1 & E2 & E3 & E4 & E5 & E6 & E7).
  unfold unlockedFrom. rewrite E1, E2, E3, E4, E5, E6, E7. done.
Qed.

(** The frame's index stays inside its 60 slots. *)
Definition countOk (s : Impl) : Prop :=
  0 <= sofNext (sync s) <= 59 /\ length (frSym (frm s)) = 60%nat /\ length (frConf (frm s)) = 60%nat.
(** Without the minute there is neither a lock nor anything to vote with. *)
Definition placed (s : Impl) : Prop := anchored (sync s) = false -> lockState s <> LockLocked /\ voter s = [].

Section Labels.
Context `{Pow} (cfg : Config) (base decim : Z).

Definition labelOk (s : Impl) : Prop :=
  if haveVoted (voted s) then
    lockState s = LockLocked /\ l_locked (lockVerdict cfg (voter s)) = true /\
    votedTime (voted s) = votedTimestamp cfg (voter s)
  else lockState s <> LockLocked.
Definition Inv (s : Impl) : Prop := countOk s /\ labelOk s /\ placed s.

Lemma stopCertifying_label s : labelOk s -> labelOk (stopCertifying s) /\ haveVoted (voted (stopCertifying s)) = false.
Proof.
  intros L. destruct (stopCertifying_fields s) as (U & N & Same & V).
  destruct (decide (lockState s = LockLocked)) as [D|D].
  - split; [|by apply V]. unfold labelOk. by rewrite V.
  - rewrite Same by done. split; [done|]. unfold labelOk in L.
    destruct (haveVoted (voted s)); [|done]. by destruct L.
Qed.

Lemma stopCertifying_inv s : Inv s -> Inv (stopCertifying s) /\ labels (stopCertifying s) = labels s.
Proof.
  intros (C & L & P). destruct (stopCertifying_fields s) as ((U1 & U2 & U3 & U4 & U5 & U6) & N & _).
  split; [|done]. unfold Inv, countOk, placed. rewrite U1, U2, U4. split; [exact C|].
  split; [by apply stopCertifying_label|]. intros A. split; [done|]. by apply P.
Qed.

(** [updateSync] keeps the invariant, gives no label, and says where it is only
    when it is somewhere. *)
Lemma updateSync_inv s r : Inv s -> let '(s', sof) := updateSync s r in
  Inv s' /\ labels s' = labels s /\ (anchored (sync s') = true -> 0 <= sof <= 59) /\
  (anchored (sync s') = false -> sof = -1).
Proof.
  intros I. pose proof I as (C & L & P). unfold updateSync. cbv zeta.
  assert (N : forall st y sm, Inv st -> Inv (notePrev st y sm) /\ labels (notePrev st y sm) = labels st /\
                anchored (sync (notePrev st y sm)) = anchored (sync st)).
  { intros st y sm (C1 & L1 & P1). by split. }
  assert (B : forall st an n e, countOk st -> labelOk st -> (an = false -> lockState st <> LockLocked /\ voter st = []) ->
                0 <= n <= 59 -> Inv (beginFrame (setCount st an n) e)).
  { intros st an n e C1 L1 P1 Hn. split; [|by split]. by split. }
  destruct (anchored (sync s)) eqn:An; cbn [negb].
  - destruct (_ && _ && _ && _ && _).
    + destruct (stopCertifying_inv s I) as [(C1 & L1 & P1) E1].
      set (s1 := stopCertifying s) in *. clearbody s1. set (s2 := withLeap s1 _).
      destruct (N (beginFrame (setCount s2 true 1) (edgeSample r)) (sync s) (sym r)) as (N1 & N2 & N3).
      { apply B; done || lia. }
      split; [exact N1|]. rewrite N3. split; [by rewrite N2|]. split; [lia|done].
    + set (s1 := if sofNext (sync s) =? 0 then _ else s).
      assert (I1 : Inv s1 /\ labels s1 = labels s).
      { unfold s1. destruct (sofNext (sync s) =? 0); [|done]. split; [|done]. split; [|by split]. by split; [apply C|]. }
      destruct I1 as [(C1 & L1 & P1) E1]. clearbody s1.
      set (s2 := setCount s1 true _). assert (I2 : Inv s2).
      { split; [|by split]. split; [|apply C1]. unfold s2. cbn. unfold cmod. destruct C as [C _].
        rewrite Z.rem_mod_nonneg by lia. dlia. }
      assert (A2 : anchored (sync s2) = true /\ labels s2 = labels s) by done. destruct A2 as [A2 E2]. clearbody s2.
      destruct (stopCertifying_inv s2 I2) as [I3 E3]. destruct (stopCertifying_fields s2) as ((U & _) & _).
      match goal with |- context [notePrev ?st ?y ?sm] =>
        assert (K : Inv st /\ labels st = labels s /\ anchored (sync st) = true) end.
      { destruct (_ && _); [|done]. by rewrite E3, U. }
      destruct K as (K1 & K2 & K3). destruct (N _ (sync s) (sym r) K1) as (N1 & N2 & N3).
      split; [exact N1|]. rewrite N2, N3, K2, K3. split; [done|]. split; [intros _; apply C|done].
  - destruct (_ && _ && _).
    + destruct (N (beginFrame (setCount s true 1) (edgeSample r)) (sync s) (sym r)) as (N1 & N2 & N3).
      { apply B; done || lia. }
      split; [exact N1|]. rewrite N3. split; [by rewrite N2|]. split; [lia|done].
    + destruct (N s (sync s) (sym r) I) as (N1 & N2 & N3). split; [exact N1|]. rewrite N3, An. done.
Qed.

Lemma wwvb_vote_fields (s : Impl) (f : Frame) (keep : bool) :
  let fs := addFrame cfg (if keep then voter s else reset (voter s)) f in
  let s' := vote cfg s f keep in
  voter s' = fs /\ sync s' = sync s /\ frm s' = frm s /\ leap s' = leap s /\ labels s' = labels s /\
  (l_locked (lockVerdict cfg fs) = true -> votedTime (voted s') = votedTimestamp cfg fs).
Proof.
  cbv zeta. unfold vote. destruct (l_locked _) eqn:E; cbn; rewrite ?E; repeat split; try done.
  intros _. apply votedFields_timestamp.
Qed.

Lemma loseMinute_inv s : countOk s -> Inv (loseMinute s) /\ labels (loseMinute s) = labels s.
Proof.
  intros C. unfold loseMinute. cbv zeta. match goal with |- Inv (setLockState ?st _) /\ _ => set (s1 := st) end.
  assert (K : countOk s1 /\ haveVoted (voted s1) = false /\ voter s1 = [] /\ labels s1 = labels s) by done.
  destruct K as (K1 & K2 & K3 & K4). clearbody s1.
  destruct (setLock_fields s1 LockAcquiring) as (E1 & E2 & E3 & E4 & E5 & E6 & E7).
  split; [|congruence]. unfold Inv, countOk, labelOk, placed. rewrite E1, E2, E4, E5, E6, K2, K3. done.
Qed.

Lemma wwvb_finalize_inv s :
  countOk s -> anchored (sync s) = true ->
  Inv (finalizeFrame cfg base decim s) /\ labels (finalizeFrame cfg base decim s) = labels s.
Proof.
  intros C An. unfold finalizeFrame. cbv zeta. destruct (negb (frameOkay _)); [by apply loseMinute_inv|].
  set (s1 := call s _). set (keep := consecutive _ _ s1). clearbody keep.
  set (s2 := withFrm s1 _).
  assert (K : countOk s2 /\ anchored (sync s2) = true /\ labels s2 = labels s).
  { split; [exact C|]. split; [exact An|]. change (labels s1 = labels s). unfold s1. by rewrite labels_call, app_nil_r. }
  destruct K as (K1 & K2 & K3). clearbody s2.
  set (f := MkFrame _ _). destruct (wwvb_vote_fields s2 f keep) as (V1 & V2 & V3 & _ & V5 & V6).
  set (s3 := vote _ _ _ _) in *. rewrite <- V1 in V6. clearbody s3.
  set (s4 := withLeap s3 _).
  assert (F : countOk s4 /\ anchored (sync s4) = true /\ labels s4 = labels s /\ voter s4 = voter s3 /\ voted s4 = voted s3).
  { unfold s4, countOk. cbn. rewrite V2, V3. repeat split; try apply K1; try done. change (labels s3 = labels s). congruence. }
  destruct F as (F1 & F2 & F3 & F4 & F5). clearbody s4.
  destruct (l_locked _ && _) eqn:Lk.
  - apply andb_true_iff in Lk as [Lk _].
    destruct (setLock_fields (withVoted s4 (MkVoted true (votedTime (voted s4)) (votedQuality (voted s4)))) LockLocked)
      as (E1 & E2 & E3 & E4 & E5 & E6 & E7).
    split; [|rewrite E7; exact F3]. unfold Inv, countOk, labelOk, placed. rewrite E1, E2, E4, E5, E6. cbn.
    split; [exact F1|]. rewrite F4, F5, F2. split; [|done]. by split; [|split; [|apply V6]].
  - destruct (wwvb_demote_fields s4) as ((U1 & U2 & U3 & U4 & U5 & _) & D1 & D2).
    split; [|congruence]. unfold Inv, countOk, labelOk, placed. rewrite U1, U2, D1, F2. done.
Qed.

Lemma wwvb_record_inv s sof r : Inv s -> anchored (sync s) = true ->
  Inv (recordFrameSecond cfg base decim s sof r) /\ labels (recordFrameSecond cfg base decim s sof r) = labels s.
Proof.
  intros (C & L & P) An. unfold recordFrameSecond. cbv zeta. set (s1 := withFrm s _).
  assert (C1 : countOk s1). { split; [apply C|]. cbn. rewrite !length_insert. apply C. }
  assert (K : labelOk s1 /\ placed s1 /\ anchored (sync s1) = true /\ labels s1 = labels s) by done.
  destruct K as (K1 & K2 & K3 & K4). clearbody s1. destruct (sof =? 59); [|done].
  destruct (wwvb_finalize_inv s1 C1 K3) as [I E]. split; [exact I|congruence].
Qed.

(** A label given by [handleSecond] is the locked voter's. *)
Definition backed (s : Impl) (t : TimeInfo) : Prop :=
  0 <= ti_second t < 60 /\ l_locked (lockVerdict cfg (voter s)) = true /\
  ti_fields t = votedTimestamp cfg (voter s).

Lemma wwvb_handle_inv s r :
  Inv s -> let s' := handleSecond cfg base decim s r in
  Inv s' /\ exists new, labels s' = (labels s ++ new)%list /\ Forall (backed s') new.
Proof.
  intros I. cbv zeta. unfold handleSecond. pose proof (updateSync_inv s r I) as U.
  destruct (updateSync s r) as [s1 sof]. destruct U as (I1 & E1 & A1 & A2). cbv zeta.
  set (s2 := call s1 _). assert (E2 : labels s2 = labels s).
  { unfold s2. by rewrite labels_call, app_nil_r. }
  assert (I2 : Inv s2) by exact I1. assert (Y2 : sync s2 = sync s1) by done. clearbody s2. rewrite Y2.
  set (s3 := if anchored (sync s1) && _ then _ else s2).
  assert (K : Inv s3 /\ labels s3 = labels s /\ (lockState s3 = LockLocked -> 0 <= sof <= 59)).
  { unfold s3. destruct (anchored (sync s1)) eqn:An; cbn [andb].
    - specialize (A1 eq_refl). destruct (0 <=? sof); [|done].
      destruct (wwvb_record_inv s2 sof r I2 ltac:(congruence)) as [I3 E3].
      split; [exact I3|]. split; [congruence|done].
    - split; [exact I2|]. split; [done|]. intros Lk. destruct I2 as (_ & _ & P). exfalso.
      apply P; [congruence|exact Lk]. }
  destruct K as (I3 & E3 & S3). clearbody s3.
  destruct (bool_decide _ && _) eqn:Lab.
  - split; [exact I3|]. eexists [_]. split; [by rewrite labels_call, E3|].
    zbool. destruct I3 as (_ & L3 & _). unfold labelOk in L3. constructor; [|done].
    destruct (haveVoted (voted s3)); [|done]. destruct L3 as (L31 & L32 & L33). specialize (S3 L31).
    split; [cbn; lia|]. by split.
  - split; [exact I3|]. exists []. by rewrite app_nil_r.
Qed.

Lemma wwvb_run_inv secs : forall s, Inv s -> Inv (run cfg base decim s secs).
Proof. induction secs as [|r secs IH]; intros s I; [done|]. cbn. apply IH. by apply wwvb_handle_inv. Qed.
Lemma wwvb_running_inv : Inv running.
Proof. split; [by repeat split|]. by split. Qed.
End Labels.

(** ** Lemmas: a minute as it is sent *)

Lemma field_decodes syms confs m :
  forallb (fun bw => inFrame (bw_second bw)) m = true -> field syms m = decodeMap m (MkFrame syms confs).
Proof.
  unfold field, decodeMap, bit, symAt. cbn [f_symbols]. generalize 0. induction m as [|bw m IH]; intros v F; [done|].
  cbn in *. apply andb_true_iff in F as [F1 F]. rewrite F1. cbn [andb]. by apply IH.
Qed.

Lemma decode_time cfg f t :
  fields cfg = wwvbFields -> mapsOk cfg = true -> rangeValid t = true ->
  transmits cfg (MkFrame (frSym f) (frConf f)) t -> fi_fields (decodeFrame f) = t.
Proof.
  intros C M V T. pose proof (transmits_raw cfg _ t M V T) as R. unfold rawFields, decodeField in R. rewrite C in R.
  cbn [fi_fields decodeFrame]. rewrite !(field_decodes _ (frConf f)); [exact R|..]; reflexivity.
Qed.

(** The last minute of a UTC month. *)
Definition endsMonth (t : TimeFields) : bool := leapSecondPossible (MkLeap false (Some t) false).

(** A minute as it is sent and heard: its sixty seconds, and the leap second after
    them when there is one. *)
Record Minute := MkMinute { m_time : TimeFields; m_secs : list Sec; m_leap : option Sec }.

(** Read right: markers where they belong and nowhere else, and the time; the
    other bits may be anything. A leap second is a third marker, and the minute
    it ends has announced it. *)
Definition sendsMinute (cfg : Config) (t : TimeFields) (secs : list Sec) : Prop :=
  rangeValid t = true /\ length secs = 60%nat /\
  (forall k, (k < 60)%nat -> symb_eqb (nth k (map sym secs) SymUnknown) SymMarker = isWwvbMarkerSecond (Z.of_nat k)) /\
  frameOk (MkFrame (map sym secs) (map conf secs)) /\
  transmits cfg (MkFrame (map sym secs) (map conf secs)) t.
Definition cleanMinute (cfg : Config) (m : Minute) : Prop :=
  sendsMinute cfg (m_time m) (m_secs m) /\
  match m_leap m with
  | None => True
  | Some r => symb_eqb (sym r) SymMarker = true /\ bit (map sym (m_secs m)) 56 = true /\ endsMonth (m_time m) = true
  end.
Definition heard (m : Minute) : list Sec := (m_secs m ++ from_option (fun r => [r]) [] (m_leap m))%list.

(** The labels that are true of a run of minutes: on a second before :59 the
    minute before, when it had no leap second, and on :59 the minute itself. *)
Fixpoint truth (prev : option TimeFields) (ms : list Minute) : list (TimeFields * Z) :=
  match ms with
  | [] => []
  | m :: ms =>
      (from_option (fun p => map (fun k => (p, Z.of_nat k)) (seq 0 59)) [] prev ++ [(m_time m, 59)%Z] ++
       truth (match m_leap m with Some _ => None | None => Some (m_time m) end) ms)%list
  end.

(** The first [k] seconds of a frame, the others not heard yet. *)
Definition filledWith {A} (l : list A) (k : nat) (d : A) : list A := (take k l ++ replicate (60 - k) d)%list.
Lemma filledWith_S {A} (l : list A) k d x :
  (k < 60)%nat -> length l = 60%nat -> l !! k = Some x -> <[k := x]> (filledWith l k d) = filledWith l (S k) d.
Proof.
  intros K L E. unfold filledWith. assert (Lk : length (take k l) = k) by (rewrite length_take; lia).
  replace (60 - k)%nat with (S (60 - S k)) by lia. cbn [replicate].
  rewrite <- (Nat.add_0_r k) at 1. rewrite <- Lk at 1. rewrite insert_app_r. cbn.
  rewrite (take_S_r l k x E), <- app_assoc. done.
Qed.
Lemma filledWith_60 {A} (l : list A) d : length l = 60%nat -> filledWith l 60 d = l.
Proof. intros L. unfold filledWith. by rewrite take_ge, Nat.sub_diag, app_nil_r by lia. Qed.
Lemma filledWith_length {A} (l : list A) k d : (k <= 60)%nat -> length l = 60%nat -> length (filledWith l k d) = 60%nat.
Proof. intros K L. unfold filledWith. rewrite length_app, length_take, length_replicate. lia. Qed.

Section Clean.
Context `{Pow} (cfg : Config) (base decim : Z).
Hypotheses (Fields : fields cfg = wwvbFields) (Win : (0 < window cfg)%nat)
           (Maps : mapsOk cfg = true) (Pows : powOk cfg (Z.of_nat (window cfg))).

Definition isMarker (r : Sec) : bool := symb_eqb (sym r) SymMarker.

(** A second that is where the count puts it and looks as it should there. *)
Lemma updateSync_normal s r k :
  anchored (sync s) = true -> sofNext (sync s) = k -> isMarker r = isWwvbMarkerSecond k ->
  updateSync s r =
  (notePrev (setCount (if k =? 0 then beginFrame s (edgeSample r) else s) true (cmod (k + 1) 60)) (sync s) (sym r), k).
Proof.
  intros A K M. unfold updateSync. cbv zeta. rewrite A, K. cbn [negb]. unfold isMarker in M. rewrite M.
  destruct (Z.eqb_spec k 1) as [->|N]; cbn [andb]; [change (isWwvbMarkerSecond 1) with false; cbn [andb]|];
    rewrite ?eqb_reflx; cbn [negb]; rewrite andb_false_r; done.
Qed.

(** The minute [prev] has just ended, with a leap second or without; or nothing
    is known but that the last second was a marker. *)
Definition boundary (prev : option (TimeFields * bool)) (s : Impl) : Prop :=
  Inv cfg s /\ havePrev (sync s) = true /\ prevSym (sync s) = SymMarker /\
  match prev with
  | None => anchored (sync s) = false
  | Some (t, leapt) =>
      anchored (sync s) = true /\ windowEnds cfg (voter s) t /\ lastFields (leap s) = Some t /\
      if (leapt : bool)
      then sofNext (sync s) = 1 /\ prevPrevSym (sync s) = SymMarker /\ lockState s <> LockLocked /\ endsMonth t = true
      else sofNext (sync s) = 0
  end.

Definition votedEnds (prev : option (TimeFields * bool)) (s : Impl) : Prop :=
  match prev with
  | None => voter s = []
  | Some (t, _) => windowEnds cfg (voter s) t
  end.
(** A label may stand only on a minute that ended without a leap second. *)
Definition quietAfter (prev : option (TimeFields * bool)) (s : Impl) : Prop :=
  match prev with Some (_, false) => True | _ => lockState s <> LockLocked end.

(** [k] seconds into a minute. *)
Definition into (prev : option (TimeFields * bool)) (secs : list Sec) (k : nat) (s : Impl) : Prop :=
  Inv cfg s /\ anchored (sync s) = true /\ sofNext (sync s) = Z.of_nat k /\
  frSym (frm s) = filledWith (map sym secs) k SymUnknown /\ frConf (frm s) = filledWith (map conf secs) k 0%D /\
  frFilled (frm s) = Z.of_nat k /\ votedEnds prev s /\ quietAfter prev s.

(** The label of a second after the minute [prev], if one stands. *)
Definition labelOf (prev : option (TimeFields * bool)) (sof : Z) : list (TimeFields * Z) :=
  match prev with Some (t, false) => [(t, sof)] | _ => [] end.
Definition said (s : Impl) : list (TimeFields * Z) := map (fun t => (ti_fields t, ti_second t)) (labels s).

(** What is left of [handleSecond] once the second is placed and recorded. *)
Definition labelled (s : Impl) (r : Sec) (sof : Z) : Impl :=
  if bool_decide (lockState s = LockLocked) && haveVoted (voted s)
  then call s (OnTime (MkTimeInfo (votedTime (voted s)) (votedQuality (voted s)) (edgeSample r) (edgeExact r) sof))
  else s.
Lemma said_labelled s r sof (prev : option (TimeFields * bool)) :
  labelOk cfg s -> votedEnds prev s -> quietAfter prev s ->
  exists new, said (labelled s r sof) = (said s ++ new)%list /\ new `sublist_of` labelOf prev sof.
Proof.
  intros L V Q. unfold labelled. destruct (bool_decide _ && _) eqn:E.
  - zbool. unfold labelOk in L. destruct (haveVoted (voted s)); [|done]. destruct L as (L1 & _ & L3).
    destruct prev as [[t []]|]; unfold votedEnds, quietAfter in V, Q; try done. exists [(t, sof)]. split; [|done].
    unfold said. rewrite labels_call, map_app. cbn [map ti_fields ti_second]. by rewrite L3, (windowEnds_voted cfg _ t).
  - exists []. rewrite app_nil_r. split; [done|apply sublist_nil_l].
Qed.

Lemma labelled_same s r sof :
  let s' := labelled s r sof in
  sync s' = sync s /\ frm s' = frm s /\ leap s' = leap s /\ voted s' = voted s /\ voter s' = voter s /\
  lockState s' = lockState s.
Proof. cbv zeta. unfold labelled. by destruct (_ && _). Qed.
Lemma said_call s c : match c with OnTime _ => False | _ => True end -> said (call s c) = said s.
Proof. intros N. unfold said. rewrite labels_call. destruct c; try done; by rewrite app_nil_r. Qed.

Lemma votedEnds_eq prev s s' : voter s' = voter s -> votedEnds prev s -> votedEnds prev s'.
Proof. unfold votedEnds. by intros ->. Qed.
Lemma quietAfter_eq prev s s' : lockState s' = lockState s -> quietAfter prev s -> quietAfter prev s'.
Proof. unfold quietAfter. by intros ->. Qed.

(** A second that does not end the minute. *)
Lemma step_within prev s r s1 k :
  Inv cfg s -> updateSync s r = (s1, Z.of_nat k) -> (k < 59)%nat -> anchored (sync s1) = true ->
  votedEnds prev s1 -> quietAfter prev s1 ->
  let s' := handleSecond cfg base decim s r in
  Inv cfg s' /\ sync s' = sync s1 /\ leap s' = leap s1 /\ voter s' = voter s1 /\ lockState s' = lockState s1 /\
  frSym (frm s') = <[k := sym r]> (frSym (frm s1)) /\ frConf (frm s') = <[k := conf r]> (frConf (frm s1)) /\
  frFilled (frm s') = frFilled (frm s1) + 1 /\
  exists new, said s' = (said s ++ new)%list /\ new `sublist_of` labelOf prev (Z.of_nat k).
Proof.
  intros I U K A V Q. cbv zeta. pose proof (wwvb_handle_inv cfg base decim s r I) as [I' _].
  pose proof (updateSync_inv cfg s r I) as UI. rewrite U in UI. destruct UI as (I1 & E1 & _).
  split; [exact I'|]. clear I'. unfold handleSecond. rewrite U. cbv zeta.
  change (anchored (sync (call s1 (OnSecond r (Z.of_nat k))))) with (anchored (sync s1)). rewrite A.
  destruct (Z.leb_spec 0 (Z.of_nat k)); [|lia]. cbn [andb].
  set (s2 := recordFrameSecond _ _ _ _ _ _). fold (labelled s2 r (Z.of_nat k)).
  assert (R : sync s2 = sync s1 /\ leap s2 = leap s1 /\ voter s2 = voter s1 /\ lockState s2 = lockState s1 /\
    voted s2 = voted s1 /\ said s2 = said s1 /\
    frSym (frm s2) = <[k := sym r]> (frSym (frm s1)) /\ frConf (frm s2) = <[k := conf r]> (frConf (frm s1)) /\
    frFilled (frm s2) = frFilled (frm s1) + 1).
  { unfold s2, recordFrameSecond. cbv zeta. destruct (Z.eqb_spec (Z.of_nat k) 59); [lia|]. cbn. rewrite Nat2Z.id.
    repeat split; try done. apply (said_call s1 (OnSecond r (Z.of_nat k))). done. }
  destruct R as (R1 & R2 & R3 & R4 & R5 & R6 & R7 & R8 & R9). clearbody s2.
  destruct (labelled_same s2 r (Z.of_nat k)) as (L1 & L2 & L3 & L4 & L5 & L6).
  rewrite L1, L2, L3, L5, L6, R1, R2, R3, R4, R7, R8, R9. repeat (split; [done|]).
  destruct (said_labelled s2 r (Z.of_nat k) prev) as (new & E & S).
  - destruct I1 as (_ & Lb & _). unfold labelOk in *. by rewrite R4, R5, R3.
  - by eapply votedEnds_eq.
  - by eapply quietAfter_eq.
  - exists new. split; [|exact S]. rewrite E, R6. unfold said. by rewrite E1.
Qed.

Context (t : TimeFields) (secs : list Sec) (Sends : sendsMinute cfg t secs).

Lemma sends_marker k r : secs !! k = Some r -> isMarker r = isWwvbMarkerSecond (Z.of_nat k).
Proof.
  intros E. destruct Sends as (_ & L & M & _). pose proof (lookup_lt_Some _ _ _ E) as K. rewrite <- M by lia.
  unfold isMarker. rewrite nth_lookup, list_lookup_fmap, E. done.
Qed.

Lemma into_next prev s' r k :
  secs !! k = Some r -> (k < 59)%nat -> anchored (sync s') = true -> sofNext (sync s') = cmod (Z.of_nat k + 1) 60 ->
  Inv cfg s' -> votedEnds prev s' -> quietAfter prev s' ->
  frSym (frm s') = <[k := sym r]> (filledWith (map sym secs) k SymUnknown) ->
  frConf (frm s') = <[k := conf r]> (filledWith (map conf secs) k 0%D) ->
  frFilled (frm s') = Z.of_nat k + 1 -> into prev secs (S k) s'.
Proof.
  intros E K A N I V Q F1 F2 F3. destruct Sends as (_ & L & _). unfold cmod in N. rewrite Z.rem_small in N by lia.
  split; [exact I|]. split; [exact A|]. split; [lia|].
  rewrite F1, F2, F3, !filledWith_S by (rewrite ?length_map, ?list_lookup_fmap, ?E; done || lia).
  split; [done|]. split; [done|]. split; [lia|done].
Qed.

Lemma wwvb_middle_second prev s r k :
  into prev secs k s -> secs !! k = Some r -> (1 <= k < 59)%nat ->
  into prev secs (S k) (handleSecond cfg base decim s r) /\
  exists new, said (handleSecond cfg base decim s r) = (said s ++ new)%list /\
    new `sublist_of` labelOf prev (Z.of_nat k).
Proof.
  intros (I & A & N & F1 & F2 & F3 & V & Q) E K.
  pose proof (updateSync_normal s r _ A N (sends_marker k r E)) as U.
  destruct (Z.eqb_spec (Z.of_nat k) 0); [lia|].
  destruct (step_within prev s r _ k I U ltac:(lia) eq_refl V Q) as (I' & Y & Lp & Vt & Lk & G1 & G2 & G3 & Sd).
  split; [|exact Sd]. cbn in Y, G1, G2, G3, Vt, Lk. rewrite F1 in G1. rewrite F2 in G2. rewrite F3 in G3.
  apply (into_next prev _ r k); try done; try lia; try (by rewrite Y);
    [by apply (votedEnds_eq prev s)|by apply (quietAfter_eq prev s)].
Qed.

(** The first second, after whatever the last minute was. *)
Lemma wwvb_first_second prev s r :
  boundary prev s -> secs !! 0%nat = Some r ->
  into prev secs 1 (handleSecond cfg base decim s r) /\
  exists new, said (handleSecond cfg base decim s r) = (said s ++ new)%list /\
    new `sublist_of` labelOf prev 0.
Proof.
  intros (I & HP & PS & B) E. pose proof (sends_marker 0 r E) as M. change (isWwvbMarkerSecond _) with true in M.
  assert (F : exists s1, updateSync s r = (s1, Z.of_nat 0) /\ anchored (sync s1) = true /\ sofNext (sync s1) = 1 /\
    votedEnds prev s1 /\ quietAfter prev s1 /\ frSym (frm s1) = blankSym /\ frConf (frm s1) = blankConf /\ frFilled (frm s1) = 0).
  { destruct prev as [[p [|]]|]; [|..].
    - destruct B as (A & W & LF & N & PP & NL & EM).
      unfold updateSync. cbv zeta. unfold isMarker in M. rewrite A, N, PS, PP, M. cbn [negb Z.eqb Pos.eqb andb].
      change (symb_eqb SymMarker SymMarker) with true. cbn [andb].
      assert (LP : leapSecondPossible (leap s) = true). { unfold endsMonth, leapSecondPossible in *. by rewrite LF. }
      rewrite LP. destruct (stopCertifying_fields s) as ((U1 & U2 & U3 & U4 & U5 & U6) & NL' & _).
      eexists. split; [reflexivity|]. cbn. rewrite U4. done.
    - destruct B as (A & W & LF & N). rewrite (updateSync_normal s r 0 A N M). eexists. split; [reflexivity|]. done.
    - unfold updateSync. cbv zeta. unfold isMarker in M. rewrite B, HP, PS, M. change (symb_eqb SymMarker SymMarker) with true.
      destruct I as (_ & _ & P). destruct (P B) as [P1 P2]. eexists. split; [reflexivity|]. done. }
  destruct F as (s1 & U & A & N & V & Q & F1 & F2 & F3).
  destruct (step_within prev s r s1 0 I U ltac:(lia) A V Q) as (I' & Y & Lp & Vt & Lk & G1 & G2 & G3 & Sd).
  split; [|exact Sd]. rewrite F1 in G1. rewrite F2 in G2. rewrite F3 in G3.
  apply (into_next prev _ r 0); try done; try lia; try (by rewrite Y);
    [by apply (votedEnds_eq prev s1)|by apply (quietAfter_eq prev s1)].
Qed.

(** The minute ends: it is voted, and labelled if that locked. *)
Definition nextAfter (prev : option (TimeFields * bool)) : Prop :=
  match prev with Some (p, _) => t = advanceMinutes p 1 | None => True end.

Lemma clean_window_next prev fs (keep : bool) :
  nextAfter prev -> match prev with None => fs = [] | Some (p, _) => windowEnds cfg fs p end ->
  windowEnds cfg (addFrame cfg (if keep then fs else reset fs) (MkFrame (map sym secs) (map conf secs))) t.
Proof.
  intros N W. destruct Sends as (V & _ & _ & Ok & T). destruct prev as [[p lp]|].
  - destruct keep; [|by apply window_first]. cbn in N. rewrite N in T |- *. by apply window_next.
  - subst fs. by destruct keep; apply window_first.
Qed.

Lemma sends_frameOkay f : frSym f = map sym secs -> frFilled f = 60 -> frameOkay f = true.
Proof.
  intros E F. destruct Sends as (_ & L & M & _). unfold frameOkay. rewrite E, F. cbn [andb Z.leb Z.compare Pos.compare Pos.compare_cont].
  apply forallb_forall. intros m Hm.
  assert (K : 0 <= m < 60 /\ isWwvbMarkerSecond m = true).
  { cbn in Hm. repeat (destruct Hm as [<-|Hm]; [by split|]). done. }
  destruct K as [K1 K2]. rewrite M by lia. by rewrite Z2Nat.id by lia.
Qed.

Lemma wwvb_finalize_clean prev s :
  anchored (sync s) = true -> nextAfter prev -> votedEnds prev s ->
  frSym (frm s) = map sym secs -> frConf (frm s) = map conf secs -> frFilled (frm s) = 60 ->
  let s' := finalizeFrame cfg base decim s in
  sync s' = sync s /\ windowEnds cfg (voter s') t /\ lastFields (leap s') = Some t /\ labels s' = labels s /\
  (bit (map sym secs) 56 = true -> endsMonth t = true -> lockState s' <> LockLocked).
Proof.
  intros A Nx V F1 F2 F3. cbv zeta. unfold finalizeFrame. cbv zeta. rewrite sends_frameOkay by done. cbn [negb].
  destruct Sends as (R & _ & _ & _ & T).
  pose proof (decode_time cfg (frm s) t Fields Maps R) as D. rewrite F1, F2 in D. specialize (D T).
  assert (W56 : fi_leapPending (decodeFrame (frm s)) = bit (map sym secs) 56) by (cbn; by rewrite F1).
  set (fi := decodeFrame (frm s)) in *. clearbody fi.
  set (s1 := call s _). set (keep := consecutive _ _ s1). clearbody keep.
  set (s2 := withFrm s1 _).
  assert (K : sync s2 = sync s /\ voter s2 = voter s /\ labels s2 = labels s).
  { repeat split. change (labels s1 = labels s). unfold s1. by rewrite labels_call, app_nil_r. }
  destruct K as (K1 & K2 & K3). set (warned := lastLeapWarn _). clearbody s2 warned.
  rewrite F1, F2. set (f := MkFrame _ _).
  destruct (wwvb_vote_fields cfg s2 f keep) as (V1 & V2 & V3 & _ & V5 & V6).
  set (s3 := vote _ _ _ _) in *. rewrite <- V1 in V6.
  assert (W : windowEnds cfg (voter s3) t).
  { rewrite V1. apply (clean_window_next prev); [done|]. rewrite K2. exact V. }
  clearbody s3. assert (VT : l_locked (lockVerdict cfg (voter s3)) = true -> votedTime (voted s3) = t).
  { intros Lk. rewrite V6 by done. by apply windowEnds_voted. }
  set (l := MkLeap false _ _). assert (Hl : l = MkLeap false (Some t) (fi_leapPending fi)).
  { unfold l. f_equal. f_equal. by destruct (l_locked _); [apply VT|]. }
  rewrite Hl. clear Hl l. set (s4 := withLeap s3 _).
  assert (F : sync s4 = sync s /\ voter s4 = voter s3 /\ lastFields (leap s4) = Some t /\ labels s4 = labels s /\ voted s4 = voted s3).
  { unfold s4. cbn. repeat split; [congruence|]. change (labels s3 = labels s). congruence. }
  destruct F as (E1 & E2 & E3 & E4 & E5). clearbody s4.
  destruct (l_locked _ && _) eqn:Lk.
  - destruct (setLock_fields (withVoted s4 (MkVoted true (votedTime (voted s4)) (votedQuality (voted s4)))) LockLocked)
      as (G1 & G2 & G3 & G4 & G5 & G6 & G7).
    rewrite G1, G3, G5, G7. cbn [sync leap voter withVoted]. rewrite E1, E2, E3. repeat (split; [done|]).
    intros B EM. zbool. unfold endsMonth, leapSecondPossible in *. cbn [lastFields] in *. rewrite W56, B in *.
    match goal with Hn : _ && _ = false |- _ => cbn [orb andb] in Hn; rewrite EM in Hn; discriminate Hn end.
  - destruct (wwvb_demote_fields s4) as ((U1 & U2 & U3 & U4 & U5 & _) & D1 & D2).
    rewrite U1, U3, U4, U5, E1, E2, E3, E4. done.
Qed.

Lemma wwvb_last_second prev s r :
  nextAfter prev -> into prev secs 59 s -> secs !! 59%nat = Some r ->
  let s' := handleSecond cfg base decim s r in
  boundary (Some (t, false)) s' /\
  (bit (map sym secs) 56 = true -> endsMonth t = true -> lockState s' <> LockLocked) /\
  exists new, said s' = (said s ++ new)%list /\ new `sublist_of` [(t, 59)].
Proof.
  intros Nx (I & A & N & F1 & F2 & F3 & V & Q) E. cbv zeta. pose proof (sends_marker 59 r E) as M.
  change (isWwvbMarkerSecond _) with true in M.
  pose proof (wwvb_handle_inv cfg base decim s r I) as [I' _].
  pose proof (updateSync_normal s r 59 A N M) as U. change (59 =? 0) with false in U. cbn match in U.
  change (cmod (59 + 1) 60) with 0 in U.
  pose proof (updateSync_inv cfg s r I) as UI. rewrite U in UI. destruct UI as (I1 & E1 & _).
  destruct Sends as (_ & L & _).
  unfold handleSecond in *. rewrite U in *. cbv zeta in *. cbn [anchored sync setCount notePrev withSync call andb Z.leb Z.compare] in *.
  change (0 <=? 59) with true in *. cbn match in *.
  unfold recordFrameSecond in *. cbv zeta in *. change (59 =? 59) with true in *. cbn match in *.
  match goal with |- context [finalizeFrame cfg base decim ?st] => set (s2 := st) in * end.
  assert (K : anchored (sync s2) = true /\ sofNext (sync s2) = 0 /\ havePrev (sync s2) = true /\ prevSym (sync s2) = SymMarker /\
    votedEnds prev s2 /\ frSym (frm s2) = map sym secs /\ frConf (frm s2) = map conf secs /\ frFilled (frm s2) = 60).
  { unfold s2. cbn. rewrite F1, F2, F3.
    rewrite (filledWith_S (map sym secs) 59), (filledWith_S (map conf secs) 59), !filledWith_60
      by (rewrite ?length_map, ?list_lookup_fmap, ?E; done || lia).
    unfold isMarker, symb_eqb in M. apply bool_decide_eq_true in M. rewrite M. repeat (split; [done|]). done. }
  destruct K as (K1 & K2 & K3 & K4 & K5 & K6 & K7 & K8).
  assert (K9 : said s2 = said s) by exact (said_call (notePrev (setCount s true 0) (sync s) (sym r)) (OnSecond r 59) Logic.I).
  clearbody s2.
  destruct (wwvb_finalize_clean prev s2 K1 Nx K5 K6 K7 K8) as (C1 & C2 & C3 & C4 & C5).
  set (s3 := finalizeFrame _ _ _ _) in *. fold (labelled s3 r 59) in *.
  destruct (labelled_same s3 r 59) as (L1 & L2 & L3 & L4 & L5 & L6).
  rewrite L6. split; [|split; [exact C5|]].
  - split; [exact I'|]. rewrite L1, L3, L5, C1. done.
  - destruct I' as (_ & Lb & _). destruct (said_labelled s3 r 59 (Some (t, false))) as (new & Es & Sn).
    + unfold labelOk in *. by rewrite L4, L5, L6 in Lb.
    + exact C2.
    + exact Logic.I.
    + exists new. split; [|exact Sn]. rewrite Es. f_equal. unfold said. rewrite C4. exact K9.
Qed.

(** The leap second: counted as a new minute's :00, and not labelled. *)
Lemma leap_second s r :
  boundary (Some (t, false)) s -> lockState s <> LockLocked -> isMarker r = true -> endsMonth t = true ->
  let s' := handleSecond cfg base decim s r in boundary (Some (t, true)) s' /\ said s' = said s.
Proof.
  intros (I & HP & PS & A & W & LF & N) NL M EM. cbv zeta.
  pose proof (updateSync_normal s r 0 A N M) as U. cbn [Z.eqb] in U.
  destruct (step_within (Some (t, true)) s r _ 0 I U ltac:(lia) eq_refl W NL) as (I' & Y & Lp & Vt & Lk & _ & _ & _ & new & Es & Sn).
  apply sublist_nil_r in Sn. subst new. rewrite app_nil_r in Es. split; [|exact Es].
  split; [exact I'|]. rewrite Y, Lp, Vt, Lk. unfold isMarker, symb_eqb in M. apply bool_decide_eq_true in M.
  split; [reflexivity|]. split; [exact M|]. split; [reflexivity|]. split; [exact W|]. split; [exact LF|].
  split; [reflexivity|]. split; [cbn; by rewrite HP|]. split; [exact NL|exact EM].
Qed.

Definition before (prev : option (TimeFields * bool)) : list (TimeFields * Z) :=
  match prev with Some (p, false) => map (fun k => (p, Z.of_nat k)) (seq 0 59) | _ => [] end.
Lemma before_seq prev : before prev = concat (map (fun k => labelOf prev (Z.of_nat k)) (seq 0 59)).
Proof. destruct prev as [[p []]|]; reflexivity. Qed.

Lemma wwvb_run_app a b s : run cfg base decim s (a ++ b) = run cfg base decim (run cfg base decim s a) b.
Proof. apply fold_left_app. Qed.

Lemma middle_run prev j : forall k s, into prev secs k s -> (1 <= k)%nat -> (k + j <= 59)%nat ->
  let s' := run cfg base decim s (take j (drop k secs)) in
  into prev secs (k + j) s' /\
  exists new, said s' = (said s ++ new)%list /\
    new `sublist_of` concat (map (fun i => labelOf prev (Z.of_nat i)) (seq k j)).
Proof.
  induction j as [|j IH]; intros k s In K J; cbv zeta.
  { rewrite Nat.add_0_r. split; [exact In|]. exists []. rewrite app_nil_r. split; [done|apply sublist_nil_l]. }
  destruct Sends as (_ & L & _). destruct (lookup_lt_is_Some_2 secs k ltac:(lia)) as [r E].
  rewrite (drop_S secs r k E). cbn [take run fold_left]. fold (run cfg base decim).
  destruct (wwvb_middle_second prev s r k In E ltac:(lia)) as (In' & n1 & S1 & B1).
  destruct (IH (S k) _ In' ltac:(lia) ltac:(lia)) as (In'' & n2 & S2 & B2). cbv zeta in *.
  replace (k + S j)%nat with (S k + j)%nat by lia. split; [exact In''|].
  exists (n1 ++ n2)%list. unfold run in *. rewrite S2, S1, app_assoc. split; [done|]. cbn [seq map concat].
  by apply sublist_app.
Qed.

(** A whole minute. *)
Lemma minute_run prev s :
  boundary prev s -> nextAfter prev ->
  let s' := run cfg base decim s secs in
  boundary (Some (t, false)) s' /\
  (bit (map sym secs) 56 = true -> endsMonth t = true -> lockState s' <> LockLocked) /\
  exists new, said s' = (said s ++ new)%list /\ new `sublist_of` (before prev ++ [(t, 59)])%list.
Proof.
  intros B Nx. cbv zeta. destruct Sends as (_ & L & _).
  destruct (lookup_lt_is_Some_2 secs 0 ltac:(lia)) as [r0 E0].
  destruct (lookup_lt_is_Some_2 secs 59 ltac:(lia)) as [r59 E59].
  assert (Split : secs = (r0 :: take 58 (drop 1 secs) ++ [r59])%list).
  { rewrite <- (take_drop 1 secs) at 1. rewrite (take_S_r secs 0 r0 E0). cbn [take app]. f_equal.
    rewrite <- (take_drop 58 (drop 1 secs)) at 1. f_equal. rewrite drop_drop. cbn [Nat.add].
    rewrite (drop_S secs r59 59 E59), drop_ge by lia. done. }
  destruct (wwvb_first_second prev s r0 B E0) as (I1 & n1 & S1 & B1).
  destruct (middle_run prev 58 1 _ I1 ltac:(lia) ltac:(lia)) as (I2 & n2 & S2 & B2). cbv zeta in *.
  destruct (wwvb_last_second prev _ r59 Nx I2 E59) as (B3 & Lk & n3 & S3 & Sub3). cbv zeta in *.
  assert (Er : run cfg base decim s secs = handleSecond cfg base decim
    (run cfg base decim (handleSecond cfg base decim s r0) (take 58 (drop 1 secs))) r59).
  { rewrite Split at 1. exact (wwvb_run_app (r0 :: take 58 (drop 1 secs)) [r59] s). }
  rewrite Er.
  split; [exact B3|]. split; [exact Lk|]. exists (n1 ++ n2 ++ n3)%list. split; [by rewrite S3, S2, S1, !app_assoc|].
  rewrite app_assoc. apply sublist_app; [|exact Sub3]. rewrite before_seq. change (seq 0 59) with (0%nat :: seq 1 58).
  cbn [map concat]. by apply sublist_app.
Qed.
End Clean.

(** *** A run of minutes *)

Definition cleanRun (cfg : Config) (t : TimeFields) (ms : list Minute) : Prop :=
  forall i m, ms !! i = Some m -> m_time m = advanceMinutes t (Z.of_nat i) /\ cleanMinute cfg m.

Section Run.
Context `{Pow} (cfg : Config) (base decim : Z).
Hypotheses (Fields : fields cfg = wwvbFields) (Win : (0 < window cfg)%nat)
           (Maps : mapsOk cfg = true) (Pows : powOk cfg (Z.of_nat (window cfg))).

Definition hasLeap (m : Minute) : bool := match m_leap m with Some _ => true | None => false end.

Lemma clean_minute prev m s :
  cleanMinute cfg m -> boundary cfg prev s -> nextAfter (m_time m) prev ->
  let s' := run cfg base decim s (heard m) in
  boundary cfg (Some (m_time m, hasLeap m)) s' /\
  exists new, said s' = (said s ++ new)%list /\ new `sublist_of` (before prev ++ [(m_time m, 59)])%list.
Proof.
  intros [Sd Lp] B Nx. cbv zeta. unfold heard, hasLeap. rewrite wwvb_run_app.
  destruct (minute_run cfg base decim Fields Win Maps Pows (m_time m) (m_secs m) Sd prev s B Nx) as (B' & Lk & new & E & S).
  cbv zeta in *. set (s1 := run cfg base decim s (m_secs m)) in *. clearbody s1.
  destruct (m_leap m) as [r|]; cbn [from_option]; [|by split; [|exists new]].
  destruct Lp as (Mk & Bt & EM). cbn [run fold_left].
  edestruct leap_second as [B'' E'']; [done..|exact B'|exact (Lk Bt EM)|exact Mk|exact EM|].
  split; [exact B''|]. exists new. split; [|exact S]. by rewrite E''.
Qed.

Lemma clean_run ms : forall t prev s,
  rangeValid t = true -> cleanRun cfg t ms -> boundary cfg prev s ->
  match prev with Some (p, _) => t = advanceMinutes p 1 | None => True end ->
  let s' := run cfg base decim s (concat (map heard ms)) in
  exists new, said s' = (said s ++ new)%list /\
    new `sublist_of` truth (match prev with Some (p, false) => Some p | _ => None end) ms.
Proof.
  induction ms as [|m ms IH]; intros t prev s V C B Nx; cbv zeta.
  { exists []. rewrite app_nil_r. split; [done|apply sublist_nil_l]. }
  cbn [map concat]. rewrite wwvb_run_app. destruct (C 0%nat m eq_refl) as [Tm Cm].
  rewrite advanceMinutes_0 in Tm by done.
  destruct (clean_minute prev m s Cm B) as (B' & n1 & E1 & S1).
  { unfold nextAfter. destruct prev as [[p ?]|]; [|done]. congruence. }
  destruct (IH (advanceMinutes t 1) (Some (m_time m, hasLeap m)) (run cfg base decim s (heard m))) as (n2 & E2 & S2).
  - by apply advanceMinutes_valid.
  - intros i m' Hi. destruct (C (S i) m' Hi) as [T' C']. split; [|done]. rewrite T', advanceMinutes_add by (done || lia).
    f_equal. lia.
  - exact B'.
  - by rewrite Tm.
  - cbv zeta in *. exists (n1 ++ n2)%list. split; [by rewrite E2, E1, app_assoc|]. cbn [truth].
    rewrite app_assoc. apply sublist_app.
    + by destruct prev as [[p []]|].
    + unfold hasLeap in S2. by destruct (m_leap m).
Qed.
End Run.

(** ** Properties *)

(** C23: WWVB's labels are true, leap seconds included. Whatever was heard before,
    once the decoder is looking for the minute and has just heard the marker of a
    second :59, then over any run of minutes that read right - the leap second
    that ends a month among them, when the minute before announced it - the labels
    it gives are among the true ones, in their order: on the seconds before :59
    the minute before, and only when no leap second came between, on :59 the
    minute itself, and never one on the leap second. The other bits, every
    confidence and the measured spacing of the seconds may be anything. *)
Theorem wwvb_clean_labels `{Pow} (cfg : Config) (base decim : Z) (past : list Sec) (t : TimeFields) (ms : list Minute) :
  fields cfg = wwvbFields -> (0 < window cfg)%nat -> mapsOk cfg = true -> powOk cfg (Z.of_nat (window cfg)) ->
  rangeValid t = true ->
  let s := run cfg base decim running past in
  anchored (sync s) = false -> havePrev (sync s) = true -> prevSym (sync s) = SymMarker ->
  cleanRun cfg t ms ->
  exists new, said (run cfg base decim s (concat (map heard ms))) = (said s ++ new)%list /\
    new `sublist_of` truth None ms.
Proof.
  intros F W M P V s A HP PS C. apply (clean_run cfg base decim F W M P ms t None s V C); [|done].
  split; [apply wwvb_run_inv, wwvb_running_inv|done].
Qed.

(** No label without a locked vote. Whatever seconds the running decoder has
    been given, the next one gives labels for a second 0 to 59 only, carrying the
    timestamp the voter votes then, while the voter's own verdict is that it is
    locked; and the frame's index stays inside its sixty slots. *)
Lemma wwvb_labels_backed `{Pow} (cfg : Config) (base decim : Z) (past : list Sec) (r : Sec) :
  let s := run cfg base decim running past in
  let s' := handleSecond cfg base decim s r in
  countOk s' /\
  exists new, labels s' = (labels s ++ new)%list /\
    forall ti, In ti new ->
      0 <= ti_second ti < 60 /\ l_locked (lockVerdict cfg (voter s')) = true /\
      ti_fields ti = votedTimestamp cfg (voter s').
Proof.
  cbv zeta. pose proof (wwvb_run_inv cfg base decim past running (wwvb_running_inv cfg)) as I.
  destruct (wwvb_handle_inv cfg base decim _ r I) as ((C & _) & new & E & B). split; [exact C|].
  exists new. split; [exact E|]. intros ti Hi. rewrite Forall_forall in B. apply B. by apply list_elem_of_In.
Qed.

(** ** Witnesses *)

(** A minute as Fort Collins keys it: the time, the leap warning, zeros. *)
Definition sendMinute (t : TimeFields) (warn : bool) (start : Z) : list Sec :=
  let syms := f_symbols (utcFrame (Some (t, fun _ => 0%D))) in
  let sent k := if isWwvbMarkerSecond (Z.of_nat k) then SymMarker
                else if (k =? 56)%nat then (if warn then SymOne else SymZero)
                else match nth k syms SymZero with SymOne => SymOne | _ => SymZero end in
  map (fun k => let e := start + 24000 * Z.of_nat k in MkSec e (d_of_Z e) true (sent k) 0.75%D) (seq 0 60).
Definition markAt (e : Z) : Sec := MkSec e (d_of_Z e) true SymMarker 0.75%D.

(** 23:57 UTC of 31 December 2016; its last second is :60. *)
Definition demoMinute : TimeFields := TF 57 23 366 16.
Definition demoMinutes : list Minute :=
  map (fun i =>
    let t := advanceMinutes demoMinute (Z.of_nat i) in
    let start := 24000 * (60 * Z.of_nat i + (if (3 <=? i)%nat then 1 else 0)) in
    MkMinute t (sendMinute t (i <? 3)%nat start) (if (i =? 2)%nat then Some (markAt (24000 * 180)) else None))
    (seq 0 6).
Definition demoPast : list Sec := [markAt (-24000)].

Definition cleanb (cfg : Config) (m : Minute) : bool :=
  let t := m_time m in let l := m_secs m in
  rangeValid t && (length l =? 60)%nat &&
  forallb (fun k => Bool.eqb (symb_eqb (nth k (map sym l) SymUnknown) SymMarker) (isWwvbMarkerSecond (Z.of_nat k))) (seq 0 60) &&
  forallb (fun r => negb (dnan (conf r))) l &&
  forallb (fun fld => bool_decide (map (fun bw => symAt (MkFrame (map sym l) (map conf l)) (bw_second bw)) (fields cfg fld) =
                                   encodeField (fields cfg fld) (fieldOf t fld))) allFields &&
  match m_leap m with
  | None => true
  | Some r => symb_eqb (sym r) SymMarker && bit (map sym l) 56 && endsMonth t
  end.
Lemma cleanb_ok cfg m : cleanb cfg m = true -> cleanMinute cfg m.
Proof.
  unfold cleanb. cbv zeta. rewrite !andb_true_iff. intros (((((V & L) & M) & N) & T) & Lp).
  split.
  - split; [done|]. split; [by apply Nat.eqb_eq|]. split; [|split].
    + intros k K. rewrite forallb_forall in M. apply eqb_prop, M. apply in_seq. lia.
    + unfold frameOk. cbn [f_confidence]. apply Forall_forall. intros c Hc.
      apply list_elem_of_In, in_map_iff in Hc as (r & <- & Hr). rewrite forallb_forall in N. by apply negb_true_iff, N.
    + intros fld. rewrite forallb_forall in T. specialize (T fld). apply bool_decide_eq_true in T; [exact T|].
      destruct fld; cbn; tauto.
  - destruct (m_leap m); [|done]. rewrite !andb_true_iff in Lp. tauto.
Qed.

Lemma demoMinutes_run : cleanRun buildVoterConfig demoMinute demoMinutes.
Proof.
  intros i m E. unfold demoMinutes in E. apply list_lookup_fmap_Some in E as (j & -> & E).
  apply lookup_seq in E as [-> Hj]. split; [done|]. apply cleanb_ok.
  do 6 (destruct i as [|i]; [vm_compute; reflexivity|]). lia.
Qed.

Lemma wwvb_clean_labels_witness :
  let s := @run demoPow buildVoterConfig 0 240 running demoPast in
  exists new, said (@run demoPow buildVoterConfig 0 240 s (concat (map heard demoMinutes))) = (said s ++ new)%list /\
    new `sublist_of` truth None demoMinutes.
Proof.
  apply (@wwvb_clean_labels demoPow buildVoterConfig 0 240 demoPast demoMinute demoMinutes
    eq_refl ltac:(vm_compute; lia) ltac:(vm_compute; reflexivity) wwvb_powOk eq_refl eq_refl eq_refl eq_refl demoMinutes_run).
Defined.

(** The lock comes with the second minute, is given up over the leap second, and
    comes back with the minute after. *)
Example wwvb_leap_labels :
  said (@run demoPow buildVoterConfig 0 240 running (demoPast ++ concat (map heard demoMinutes))) =
  ([(TF 58 23 366 16, 59)] ++ map (fun k => (TF 58 23 366 16, Z.of_nat k)) (seq 0 59) ++
   [(TF 0 0 1 17, 59)] ++ map (fun k => (TF 0 0 1 17, Z.of_nat k)) (seq 0 59) ++
   [(TF 1 0 1 17, 59)] ++ map (fun k => (TF 1 0 1 17, Z.of_nat k)) (seq 0 59) ++ [(TF 2 0 1 17, 59)])%list.
Proof. vm_compute. reflexivity. Qed.
