(* ===== verification/WwvbSignal.v ===== *)
(** * The WWVB signal chain (src/clock/WwvbDecoder.cpp)
    Samples to classified seconds: the tone search, the mix to baseband, the
    envelope and its ring, the second edges and their tracker, and the matched
    filter; the seconds go to Wwvb. Every read of the ring is checked: an index
    the ring does not hold is [None], which the theorems show never happens. *)

From Stdlib Require Import ZArith Lia List Bool Floats.
From stdpp Require Import base list sorting.
From S2P Require Import Prelude Doubles Rounding ClockTypes TimeFrameVoter Signals EnvelopeRing Wwvb.

#[local] Open Scope Z_scope.

(** ** Constants *)

Definition kMinContrast : double := 1.4%D.
Definition kAcqSeconds : double := 2%D.
Definition kToneLoHz : double := 800%D.
Definition kToneStepHz : double := 2%D.
Definition kToneGate : double := 12%D.
Definition kSymbolLowLen : list nat := [20; 50; 80]%nat.
Definition kTrkAlpha : double := (1 / 8)%D.
Definition kTrkBeta : double := (1 / 128)%D.
Definition kTrkWarm : Z := 8.

(** ** Data *)

(** The tone search: Goertzel states by frequency. *)
Record Search := MkSearch { gS1 : list double; gS2 : list double; acqCount : Z; lastToneSnrDb : double }.
Record Mixer := MkMixer {
  f0 : double; oscRe : double; oscIm : double; stepRe : double; stepIm : double; oscRenorm : Z;
  lpI : Biquad; lpQ : Biquad; lpfDelay : double; magAccum : double; magCount : Z
}.
Record Segment := MkSeg {
  phaseKnown : bool; curStart : Z; scanPos : Z; curEdge : double; curEdgeMeasured : bool
}.
Record Tracker := MkTrk {
  trkValid : bool; trkEdge : double; trkPeriod : double; trkCount : Z; trkOutliers : Z
}.
(** [base] is [envBaseSample]; [tail] what Wwvb keeps. *)
Record Sig := MkSig {
  searching : bool; samplesConsumed : Z; search : Search; mixer : Mixer; base : Z;
  envl : Envelope; seg : Segment; trk : Tracker; tail : Impl
}.
Definition withSearch (s : Sig) (a : Search) : Sig :=
  MkSig (searching s) (samplesConsumed s) a (mixer s) (base s) (envl s) (seg s) (trk s) (tail s).
Definition withMixer (s : Sig) (m : Mixer) : Sig :=
  MkSig (searching s) (samplesConsumed s) (search s) m (base s) (envl s) (seg s) (trk s) (tail s).
Definition withEnv (s : Sig) (e : Envelope) : Sig :=
  MkSig (searching s) (samplesConsumed s) (search s) (mixer s) (base s) e (seg s) (trk s) (tail s).
Definition withSeg (s : Sig) (g : Segment) : Sig :=
  MkSig (searching s) (samplesConsumed s) (search s) (mixer s) (base s) (envl s) g (trk s) (tail s).
Definition withTail (s : Sig) (t : Tracker) (w : Impl) : Sig :=
  MkSig (searching s) (samplesConsumed s) (search s) (mixer s) (base s) (envl s) (seg s) t w.

(** The frequencies searched: 800 to 1200 Hz by 2; the sums are exact. *)
Definition gFreq : list double := map (fun i => (kToneLoHz + d_of_Z (2 * Z.of_nat i))%D) (seq 0 201).
Definition zeros (n : nat) : list double := replicate n 0%D.
Definition noSegment : Segment := MkSeg false 0 0 0 false.
Definition noTracker : Tracker := MkTrk false 0 0 0 0.
Definition freshMixer : Mixer := MkMixer 1000 1 0 1 0 0 passThrough passThrough 0 0 0.

(** ** The envelope *)

(** The shared [updatePercentiles], [haveContrast] and [edgeSampleAt] with WWVB's constants. *)
Definition percentiles : Envelope -> option Envelope := updatePercentiles 0.10%D.
Definition haveContrast : Envelope -> bool := contrastOver kMinContrast 1e-6%D.
Definition dropSample : Envelope -> Z -> Z -> double -> Z -> option double := edgeSampleAt 7 1e-9%D.

(** ** The matched filter *)

Definition dmean100 (l : list double) : double := (total l / d_of_Z kEnvRateHz)%D.
Definition template (low : nat) : list double :=
  let raw := map (fun k => if (k <? low)%nat then 0%D else 1%D) (seq 0 100) in
  map (fun x => fsub x (fround (dmean100 raw))) raw.
Definition energy (l : list double) : double := fold_left (fun a v => a + v * v)%D l 0%D.
Definition tplNorm (t : list double) : double := (PrimFloat.sqrt (energy t) + 1e-12)%D.
Definition dot (a b : list double) : double := fold_left (fun s '(x, y) => s + x * y)%D (combine a b) 0%D.

(** The best template, the first of equals, and its margin over the others. *)
Definition classify (w : list double) : ClockSymbol * double :=
  let v := map (fun x => fsub x (fround (dmean100 w))) w in
  let vnorm := (PrimFloat.sqrt (energy v) + 1e-12)%D in
  let corr := map (fun low => let t := template low in (dot v t / (vnorm * tplNorm t))%D) kSymbolLowLen in
  let c k := nth k corr 0%D in
  let best := if (c 1%nat >? c 0%nat)%D then 1%nat else 0%nat in
  let best := if (c 2%nat >? c best)%D then 2%nat else best in
  let runner := fold_left (fun r k => if negb (k =? best)%nat && (c k >? r)%D then c k else r) [0; 1; 2]%nat (-1e18)%D in
  (match best with O => SymZero | 1%nat => SymOne | _ => SymMarker end,
   fround (dmax 0 (c best - runner))%D).

Section Chain.
Context `{Libm} `{Pow} (cfg : Config) (sr decim : Z).

(** ** The edge tracker *)

Definition trackEdge (t : Tracker) (measured : bool) (raw : double) : Tracker :=
  if negb (trkValid t) then MkTrk measured raw (d_of_Z sr) (if measured then 1 else 0) 0
  else
    let pred := (trkEdge t + trkPeriod t)%D in
    if negb measured then MkTrk true pred (trkPeriod t) (trkCount t) (trkOutliers t)
    else
      let r := (raw - pred)%D in
      if (d_of_Z decim <? dabs r)%D then
        let out := trkOutliers t + 1 in
        if 3 <=? out then MkTrk true raw (d_of_Z sr) 1 0
        else MkTrk true pred (trkPeriod t) (trkCount t) out
      else
        let n := trkCount t + 1 in
        let alpha := dmax (1 / d_of_Z n) kTrkAlpha in
        let period := if kTrkWarm <? n
                      then dclamp (trkPeriod t + kTrkBeta * r) (d_of_Z sr * (1 - 2e-4)) (d_of_Z sr * (1 + 2e-4))
                      else trkPeriod t in
        MkTrk true (pred + alpha * r)%D period n 0.

(** ** Second by second *)

Definition trySeed (s : Sig) : option Sig :=
  let e := envl s in
  let g := seg s in
  if (envCount e <? kWarmEnv) || negb (haveContrast e) then Some s
  else
    '(found, scan) ← scanFrom (isFallingEdge e) (scanStart e (scanPos g)) (scanLength e (scanPos g)) (scanPos g);
    match found with
    | Some i => edge ← dropSample e (base s) decim (lpfDelay (mixer s)) i;
                Some (withSeg s (MkSeg true i scan edge true))
    | None => Some (withSeg s (MkSeg false (curStart g) scan (curEdge g) (curEdgeMeasured g)))
    end.

Definition findFallingEdgeNear (e : Envelope) (pred tol : Z) : option (option Z) :=
  if negb (haveContrast e) then Some None else edgeNear (isFallingEdge e) e pred tol.

Definition classifyAndAdvance (s : Sig) : option Sig :=
  let e := envl s in
  let g := seg s in
  w ← envRange e (curStart g) 100;
  let '(sy, cf) := classify w in
  let t := trackEdge (trk s) (curEdgeMeasured g) (curEdge g) in
  let r := MkSec (dllround (trkEdge t)) (trkEdge t) (curEdgeMeasured g) sy cf in
  let tl := handleSecond cfg (base s) decim (tail s) r in
  let pred := curStart g + kEnvRateHz in
  found ← findFallingEdgeNear e pred kEdgeTol;
  match found with
  | Some i => edge ← dropSample e (base s) decim (lpfDelay (mixer s)) i;
              Some (withSeg (withTail s t tl) (MkSeg true i (scanPos g) edge true))
  | None => Some (withSeg (withTail s t tl) (MkSeg true pred (scanPos g) (curEdge g + d_of_Z sr)%D false))
  end.

Definition secondReady (s : Sig) : bool :=
  phaseKnown (seg s) && (curStart (seg s) + kEnvRateHz + kEdgeTol + kEdgeLook <=? envCount (envl s)).
(** [None] also when the fuel runs out, which is never. *)
Fixpoint secondsLoop (fuel : nat) (s : Sig) : option Sig :=
  if secondReady s then
    match fuel with
    | O => None
    | S fuel => s ← classifyAndAdvance s; secondsLoop fuel s
    end
  else Some s.
Definition processSeconds (s : Sig) : option Sig :=
  s ← (if phaseKnown (seg s) then Some s else trySeed s);
  if phaseKnown (seg s) then secondsLoop (Z.to_nat (envCount (envl s))) s else Some s.

Definition pushEnvelope (s : Sig) (v : double) : option Sig :=
  e ← percentiles (pushed (envl s) v);
  processSeconds (withEnv s e).

(** ** Sample by sample *)

Definition gCoeff (f : double) : double := (2 * lm_cos (2 * kPi * f / d_of_Z sr))%D.
Definition acqTarget : Z := dllround (kAcqSeconds * d_of_Z sr)%D.

Definition setLock (s : Sig) (l : ClockLockState) : Sig := withTail s (trk s) (setLockState (tail s) l).

(** The mixer as it starts at [f] from baseband. *)
Definition tuned (f : double) : Mixer :=
  let w0 := (2 * kPi * f / d_of_Z sr)%D in
  let lp := lowpass (d_of_Z sr) kLpfCutHz in
  MkMixer f 1 0 (lm_cos w0) (- lm_sin w0)%D 0 lp lp (groupDelay lp) 0 0.
Definition startSteady (s : Sig) (f : double) : Sig :=
  setLock (MkSig false (samplesConsumed s) (search s) (tuned f) (samplesConsumed s) (envl s) (seg s) (trk s) (tail s)) LockAcquiring.

Definition tonePower (g : Search) (k : nat) (f : double) : double :=
  let p := nth k (gS1 g) 0%D in
  let q := nth k (gS2 g) 0%D in
  (p * p + q * q - gCoeff f * p * q)%D.
(** The first of the strongest frequencies and its power. *)
Definition peakOf (pw : list double) : nat * double :=
  fold_left (fun '(peak, best) k => if (nth k pw 0 >? best)%D then (k, nth k pw 0%D) else (peak, best))
    (seq 0 (length pw)) (0%nat, (-1)%D).
Definition finalizeAcquisition (s : Sig) : Sig :=
  let g := search s in
  let pw := imap (tonePower g) gFreq in
  let '(peak, peakP) := peakOf pw in
  let median := nthSmallest (length pw / 2) pw in
  let snr := if (0 <? median)%D then fround (10 * lm_log10 (peakP / median))%D else lastToneSnrDb g in
  let g := MkSearch (gS1 g) (gS2 g) (acqCount g) snr in
  if (kToneGate * median <? peakP)%D && (0 <? median)%D
  then startSteady (withSearch s g) (nth peak gFreq 0%D)
  else withSearch s (MkSearch (zeros 201) (zeros 201) 0 snr).

Definition feedAcquisition (s : Sig) (x : double) : Sig :=
  let g := search s in
  let s1 := imap (fun k f => (x + gCoeff f * nth k (gS1 g) 0 - nth k (gS2 g) 0)%D) gFreq in
  let n := acqCount g + 1 in
  let s := withSearch s (MkSearch s1 (gS1 g) n (lastToneSnrDb g)) in
  if acqTarget <=? n then finalizeAcquisition s else s.

(** The baseband phasor goes on one sample, its length put right now and then. *)
Definition advanceOsc (m : Mixer) : Mixer :=
  let nr := (oscRe m * stepRe m - oscIm m * stepIm m)%D in
  let ni := (oscRe m * stepIm m + oscIm m * stepRe m)%D in
  let n := oscRenorm m + 1 in
  let len := PrimFloat.sqrt (nr * nr + ni * ni)%D in
  let '(re, im) := if (1024 <=? n) && (1e-9 <? len)%D then (nr / len, ni / len)%D else (nr, ni) in
  MkMixer (f0 m) re im (stepRe m) (stepIm m) (if 1024 <=? n then 0 else n)
    (lpI m) (lpQ m) (lpfDelay m) (magAccum m) (magCount m).

Definition feedSteady (s : Sig) (x : double) : option Sig :=
  let m := mixer s in
  let '(qi, i) := bqProcess (lpI m) (x * oscRe m)%D in
  let '(qq, q) := bqProcess (lpQ m) (x * oscIm m)%D in
  let acc := (magAccum m + PrimFloat.sqrt (i * i + q * q))%D in
  let n := magCount m + 1 in
  let full := decim <=? n in
  let m := MkMixer (f0 m) (oscRe m) (oscIm m) (stepRe m) (stepIm m) (oscRenorm m) qi qq (lpfDelay m)
             (if full then 0%D else acc) (if full then 0 else n) in
  s ← (if full then pushEnvelope (withMixer s m) (fround (acc / d_of_Z n)%D) else Some (withMixer s m));
  Some (withMixer s (advanceOsc (mixer s))).

Definition processSample (s : Sig) (x : double) : option Sig :=
  let s := MkSig (searching s) (samplesConsumed s + 1) (search s) (mixer s) (base s) (envl s) (seg s) (trk s) (tail s) in
  if searching s then Some (feedAcquisition s x) else feedSteady s x.
Fixpoint process (s : Sig) (xs : list double) : option Sig :=
  match xs with
  | [] => Some s
  | x :: xs => s ← processSample s x; process s xs
  end.

End Chain.

(** The decoder as constructed, and [reset], which keeps the calls made. *)
Definition decimOf (sr : Z) : Z := Z.max 1 (dllround (d_of_Z sr / 100)%D).
Definition construct : Sig :=
  MkSig true 0 (MkSearch (zeros 201) (zeros 201) 0 0) freshMixer 0 noEnvelope noSegment noTracker (fresh LockNoSignal).
Definition reset (s : Sig) : Sig :=
  let m := mixer s in
  let w := tail s in
  let f := frm w in
  let blank := MkImpl (lockState w) noSync (MkFrm (frSym f) (frConf f) 0 0 None) noLeap noVote [] (calls w) in
  MkSig true 0 (MkSearch (zeros 201) (zeros 201) 0 0)
    (MkMixer (f0 m) 1 0 (stepRe m) (stepIm m) 0 (bqReset (lpI m)) (bqReset (lpQ m)) (lpfDelay m) 0 0)
    0 noEnvelope noSegment noTracker (setLockState blank LockNoSignal).

(** ** Lemmas: second by second *)

(** Everything before the segmentation is the same. *)
Definition sameFront (s s' : Sig) : Prop :=
  searching s' = searching s /\ samplesConsumed s' = samplesConsumed s /\ search s' = search s /\
  mixer s' = mixer s /\ base s' = base s /\ envl s' = envl s.
Lemma sameFront_trans s1 s2 s3 : sameFront s1 s2 -> sameFront s2 s3 -> sameFront s1 s3.
Proof. unfold sameFront. intros (-> & -> & -> & -> & -> & ->). tauto. Qed.

(** The second being awaited is one the ring holds, or will. *)
Definition segAhead (s : Sig) : Prop :=
  0 <= curStart (seg s) /\ envCount (envl s) - kEnvCap <= curStart (seg s).
(** Between samples: nothing is left to classify. *)
Definition wf (s : Sig) : Prop :=
  ringOk (envl s) /\ (phaseKnown (seg s) = true -> 0 <= curStart (seg s) /\ envCount (envl s) < curStart (seg s) + 124).

Section Segmentation.
Context `{Libm} `{Pow} (cfg : Config) (sr decim : Z).

(** The same front, and what was done with some more seconds. *)
Definition onward (s s' : Sig) : Prop :=
  sameFront s s' /\ exists secs, tail s' = run cfg (base s) decim (tail s) secs.
Lemma onward_refl s s' : sameFront s s' -> tail s' = tail s -> onward s s'.
Proof. intros S E. split; [done|]. by exists []. Qed.
Lemma onward_trans s1 s2 s3 : onward s1 s2 -> onward s2 s3 -> onward s1 s3.
Proof.
  intros [S1 (a & E1)] [S2 (b & E2)]. split; [by apply (sameFront_trans _ s2)|].
  destruct S1 as (_ & _ & _ & _ & B & _). rewrite B in E2. exists (a ++ b)%list. rewrite wwvb_run_app. congruence.
Qed.
Lemma onward_front s s' : onward s s' -> sameFront s s'.
Proof. by intros []. Qed.

Lemma trySeed_some s : ringOk (envl s) -> phaseKnown (seg s) = false ->
  exists s', trySeed decim s = Some s' /\ onward s s' /\ (phaseKnown (seg s') = true -> segAhead s').
Proof.
  intros R P. unfold trySeed. destruct ((envCount (envl s) <? kWarmEnv) || _).
  { exists s. split; [done|]. split; [by apply onward_refl|]. by rewrite P. }
  destruct (scan_cases (envl s) (isFallingEdge (envl s)) (scanPos (seg s))) as [(found & scan & -> & F)|(_ & j & J & F)].
  2: { destruct (fallingEdge_some _ _ R J) as [f E]. congruence. }
  cbn [mbind option_bind]. destruct found as [i|].
  - specialize (F i eq_refl). unfold dropSample.
    destruct (fallAt_some 7 1e-9%D (envl s) (base s) decim (lpfDelay (mixer s)) i R) as [x ->]; [lia|exact F|].
    eexists. split; [reflexivity|]. split; [by apply onward_refl|]. intros _. unfold segAhead, inReach in *. cbn. lia.
  - eexists. split; [reflexivity|]. split; [by apply onward_refl|done].
Qed.

Lemma findEdge_some e pred tol : ringOk e -> exists b, findFallingEdgeNear e pred tol = Some b /\
  forall i, b = Some i -> inReach e i /\ pred - tol <= i <= pred + tol.
Proof.
  intros R. unfold findFallingEdgeNear. destruct (negb _); [by eexists|].
  destruct (edgeNear_cases e (isFallingEdge e) pred tol) as [?|(_ & j & J & F)]; [done|].
  destruct (fallingEdge_some _ _ R J) as [f E]. congruence.
Qed.

Lemma classify_some s : ringOk (envl s) -> secondReady s = true -> segAhead s ->
  exists s', classifyAndAdvance cfg sr decim s = Some s' /\ onward s s' /\ phaseKnown (seg s') = true /\
    curStart (seg s) + 88 <= curStart (seg s').
Proof.
  intros R G (A1 & A2). unfold secondReady in G. zbool. unfold kEnvRateHz, kEdgeTol, kEdgeLook in *.
  unfold classifyAndAdvance. cbv zeta.
  destruct (envRange_some (envl s) 100 (curStart (seg s)) R) as (w & -> & _); [lia..|]. cbn [mbind option_bind].
  destruct (classify w) as [sy cf].
  destruct (findEdge_some (envl s) (curStart (seg s) + kEnvRateHz) kEdgeTol R) as (b & -> & F). cbn [mbind option_bind]. unfold kEnvRateHz, kEdgeTol in *. destruct b as [i|].
  - destruct (F i eq_refl) as [F1 F2]. unfold dropSample.
    destruct (fallAt_some 7 1e-9%D (envl s) (base s) decim (lpfDelay (mixer s)) i R) as [x ->]; [lia|exact F1|].
    eexists. split; [reflexivity|]. split; [split; [done|eexists [_]; reflexivity]|]. cbn. split; [done|lia].
  - eexists. split; [reflexivity|]. split; [split; [done|eexists [_]; reflexivity]|]. cbn. split; [done|lia].
Qed.

Lemma secondsLoop_some fuel : forall s, ringOk (envl s) -> segAhead s -> phaseKnown (seg s) = true ->
  envCount (envl s) - curStart (seg s) <= Z.of_nat fuel ->
  exists s', secondsLoop cfg sr decim fuel s = Some s' /\ onward s s' /\ wf s'.
Proof.
  induction fuel as [|fuel IH]; intros s R A P Fu; cbn [secondsLoop]; destruct (secondReady s) eqn:G.
  - unfold secondReady, kEnvRateHz, kEdgeTol, kEdgeLook in G. zbool. lia.
  - exists s. split; [done|]. split; [by apply onward_refl|]. split; [done|]. intros _. unfold secondReady in G. rewrite P in G. cbn [andb] in G.
    unfold kEnvRateHz, kEdgeTol, kEdgeLook in G. zbool. destruct A. lia.
  - destruct (classify_some s R G A) as (s1 & -> & S1 & P1 & C1). cbn [mbind option_bind].
    pose proof (onward_front _ _ S1) as (E1 & E2 & E3 & E4 & E5 & E6). destruct A as [A1 A2].
    destruct (IH s1) as (s' & E & S' & W); [by rewrite E6|unfold segAhead; rewrite E6; lia|done|rewrite E6; lia|].
    exists s'. split; [done|]. split; [|done]. by apply (onward_trans _ s1).
  - exists s. split; [done|]. split; [by apply onward_refl|]. split; [done|]. intros _. unfold secondReady in G. rewrite P in G. cbn [andb] in G.
    unfold kEnvRateHz, kEdgeTol, kEdgeLook in G. zbool. destruct A. lia.
Qed.

Lemma processSeconds_some s : ringOk (envl s) -> (phaseKnown (seg s) = true -> segAhead s) ->
  exists s', processSeconds cfg sr decim s = Some s' /\ onward s s' /\ wf s'.
Proof.
  intros R A. unfold processSeconds.
  assert (K : exists s1, (if phaseKnown (seg s) then Some s else trySeed decim s) = Some s1 /\ onward s s1 /\
    (phaseKnown (seg s1) = true -> segAhead s1)).
  { destruct (phaseKnown (seg s)) eqn:P; [exists s; split; [done|]; split; [by apply onward_refl|intros _; by apply A]|]. by apply trySeed_some. }
  destruct K as (s1 & -> & S1 & A1). cbn [mbind option_bind].
  assert (R1 : ringOk (envl s1)) by (destruct S1 as [(_ & _ & _ & _ & _ & ->) _]; done).
  destruct (phaseKnown (seg s1)) eqn:P1.
  - specialize (A1 eq_refl). destruct (secondsLoop_some (Z.to_nat (envCount (envl s1))) s1 R1 A1 P1) as (s' & E & S' & W).
    { destruct A1, R1. lia. }
    exists s'. split; [done|]. split; [|done]. by apply (onward_trans _ s1).
  - exists s1. split; [done|]. split; [done|]. split; [done|]. by rewrite P1.
Qed.

Lemma pushEnvelope_some s v h : wf s -> holds (envl s) h ->
  exists s', pushEnvelope cfg sr decim s v = Some s' /\ wf s' /\ holds (envl s') (h ++ [v]) /\
    searching s' = searching s /\ samplesConsumed s' = samplesConsumed s /\ search s' = search s /\
    mixer s' = mixer s /\ base s' = base s /\
    exists secs, tail s' = run cfg (base s) decim (tail s) secs.
Proof.
  intros (R & W) Hh. unfold pushEnvelope, percentiles.
  destruct (push_some 0.10%D (envl s) h v Hh) as (e & -> & He). cbn [mbind option_bind].
  assert (E2 : envCount e = envCount (envl s) + 1).
  { destruct He as (_ & -> & _), Hh as (_ & -> & _). rewrite length_app. cbn. lia. }
  destruct (processSeconds_some (withEnv s e)) as (s' & -> & ((S1 & S2 & S3 & S4 & S5 & S6) & Td) & W').
  - apply He.
  - intros P. destruct (W P) as [W1 W2]. unfold segAhead. cbn. rewrite E2. cbn. unfold kEnvCap. lia.
  - exists s'. rewrite S1, S2, S3, S4, S5, S6. repeat (split; [done|]). done.
Qed.
End Segmentation.

(** ** Lemmas: sample by sample *)

Lemma advanceOsc_mag m : magCount (advanceOsc m) = magCount m.
Proof. unfold advanceOsc. cbv zeta. by destruct (if _ && _ then _ else _). Qed.

(** *** What is to be pushed, from the samples alone *)

(** The mixer without its sums, one sample on, and the sample's magnitude. *)
Definition withoutSums (m : Mixer) : Mixer :=
  MkMixer (f0 m) (oscRe m) (oscIm m) (stepRe m) (stepIm m) (oscRenorm m) (lpI m) (lpQ m) (lpfDelay m) 0 0.
Definition onePast (m : Mixer) (x : double) : Mixer :=
  advanceOsc (MkMixer (f0 m) (oscRe m) (oscIm m) (stepRe m) (stepIm m) (oscRenorm m)
    (fst (bqProcess (lpI m) (x * oscRe m)%D)) (fst (bqProcess (lpQ m) (x * oscIm m)%D)) (lpfDelay m) 0 0).
Definition magnitude (m : Mixer) (x : double) : double :=
  let i := snd (bqProcess (lpI m) (x * oscRe m)%D) in
  let q := snd (bqProcess (lpQ m) (x * oscIm m)%D) in PrimFloat.sqrt (i * i + q * q)%D.
Fixpoint magnitudes (m : Mixer) (xs : list double) : list double :=
  match xs with [] => [] | x :: xs => magnitude m x :: magnitudes (onePast m x) xs end.
Definition blockMean (decim : Z) (b : list double) : double := fround (total b / d_of_Z decim)%D.

Lemma magnitudes_snoc xs x : forall m, magnitudes m (xs ++ [x]) = (magnitudes m xs ++ [magnitude (fold_left onePast xs m) x])%list.
Proof. induction xs as [|y xs IH]; intros m; [done|]. cbn. by rewrite IH. Qed.
Lemma advanceOsc_sums m : withoutSums (advanceOsc m) = advanceOsc (withoutSums m).
Proof. unfold advanceOsc. cbn [oscRe oscIm stepRe stepIm oscRenorm withoutSums]. by destruct (if _ && _ then _ else _). Qed.
Lemma advanceOsc_rest m : magCount (advanceOsc m) = magCount m /\ magAccum (advanceOsc m) = magAccum m /\ f0 (advanceOsc m) = f0 m.
Proof. unfold advanceOsc. cbv zeta. by destruct (if _ && _ then _ else _). Qed.
Lemma total_snoc l x : total (l ++ [x]) = (total l + x)%D.
Proof. unfold total. by rewrite fold_left_app. Qed.

Section Samples.
Context `{Libm} `{Pow} (cfg : Config) (sr decim : Z) (Decim : 1 <= decim).

(** The samples since the tone was found are mixed as they came, their magnitudes
    summed in blocks of [decim], the last one not full, and [h] is the means of the
    full ones. *)
Definition summed (s : Sig) (past h : list double) : Prop :=
  let since := drop (Z.to_nat (base s)) past in
  0 <= base s <= Z.of_nat (length past) /\
  withoutSums (mixer s) = fold_left onePast since (tuned sr (f0 (mixer s))) /\
  exists blocks rest, magnitudes (tuned sr (f0 (mixer s))) since = (concat blocks ++ rest)%list /\
    Forall (fun b => Z.of_nat (length b) = decim) blocks /\ magCount (mixer s) = Z.of_nat (length rest) /\
    Z.of_nat (length rest) < decim /\ magAccum (mixer s) = total rest /\ h = map (blockMean decim) blocks.
(** What holds between samples. Before the tone is found nothing has been
    pushed; after it the ring's values and the block being summed account for
    every sample since [base], and the frame decoder has run on some seconds. *)
Definition good (s : Sig) (past h : list double) : Prop :=
  wf s /\ holds (envl s) h /\ samplesConsumed s = Z.of_nat (length past) /\
  if searching s then h = [] /\ tail s = fresh LockNoSignal /\ phaseKnown (seg s) = false
  else summed s past h /\ exists secs, tail s = run cfg (base s) decim running secs.

Lemma construct_good : good construct [] [].
Proof.
  split; [split; [apply noEnvelope_holds|done]|]. split; [apply noEnvelope_holds|done].
Qed.

Definition counted (s : Sig) : Sig :=
  MkSig (searching s) (samplesConsumed s + 1) (search s) (mixer s) (base s) (envl s) (seg s) (trk s) (tail s).

Lemma acquisition_good s past x : searching s = true -> good s past [] -> good (feedAcquisition sr (counted s) x) (past ++ [x]) [].
Proof.
  intros Se (W & Hh & C & G). rewrite Se in G. destruct G as (_ & T & P).
  unfold feedAcquisition. cbv zeta. set (s1 := withSearch _ _).
  assert (K : good s1 (past ++ [x]) [] /\ searching s1 = true).
  { split; [|done]. split; [exact W|]. split; [exact Hh|]. split; [cbn; rewrite length_app; cbn; lia|]. cbn. by rewrite Se. }
  destruct K as (K1 & K3). clearbody s1. destruct (acqTarget sr <=? _); [|done].
  unfold finalizeAcquisition. cbv zeta. destruct (peakOf _) as [peak peakP].
  destruct K1 as (W1 & H1 & C1 & G1). rewrite K3 in G1. destruct G1 as (_ & T1 & P1).
  set (g := if (0 <? _)%D then _ else _). clearbody g. destruct ((kToneGate * _ <? peakP)%D && _).
  - generalize (nth peak gFreq 0%D) as f. intros f.
    split; [exact W1|]. split; [exact H1|]. split; [exact C1|]. cbn [searching startSteady setLock withTail].
    split; [|exists []; cbn; by rewrite T1].
    unfold summed. cbn [base mixer startSteady setLock withTail samplesConsumed withSearch].
    change (f0 (tuned sr f)) with f. rewrite C1, Nat2Z.id, drop_all. split; [lia|]. split; [done|].
    exists [], []. repeat (split; [done|]). split; [cbn; lia|done].
  - split; [exact W1|]. split; [exact H1|]. split; [exact C1|]. cbn. by rewrite K3.
Qed.

(** The sums one sample on. *)
Lemma summed_next s past h x : summed s past h -> searching s = false ->
  let m := mixer s in
  let m' := MkMixer (f0 m) (oscRe m) (oscIm m) (stepRe m) (stepIm m) (oscRenorm m)
    (fst (bqProcess (lpI m) (x * oscRe m)%D)) (fst (bqProcess (lpQ m) (x * oscIm m)%D)) (lpfDelay m) in
  let acc := (magAccum m + magnitude m x)%D in
  forall s', base s' = base s ->
    (decim <= magCount m + 1 -> mixer s' = advanceOsc (m' 0%D 0) ->
       summed s' (past ++ [x]) (h ++ [fround (acc / d_of_Z (magCount m + 1))%D])) /\
    (magCount m + 1 < decim -> mixer s' = advanceOsc (m' acc (magCount m + 1)) -> summed s' (past ++ [x]) h).
Proof.
  intros (B & M & blocks & rest & E & Bl & C & L & A & Eh) Se. cbv zeta. intros s' Eb.
  assert (D : drop (Z.to_nat (base s)) (past ++ [x]) = (drop (Z.to_nat (base s)) past ++ [x])%list) by (apply drop_app_le; lia).
  assert (Lb : 0 <= base s <= Z.of_nat (length (past ++ [x]))) by (rewrite length_app; cbn; lia).
  assert (Mg : magnitude (withoutSums (mixer s)) x = magnitude (mixer s) x) by done.
  assert (Ma : forall mm, f0 mm = f0 (mixer s) -> withoutSums mm = onePast (withoutSums (mixer s)) x ->
    withoutSums mm = fold_left onePast (drop (Z.to_nat (base s)) past ++ [x]) (tuned sr (f0 (mixer s)))).
  { intros mm _ Em. rewrite fold_left_app. cbn [fold_left]. by rewrite <- M. }
  split; intros U Em.
  - destruct (advanceOsc_rest (MkMixer (f0 (mixer s)) (oscRe (mixer s)) (oscIm (mixer s)) (stepRe (mixer s)) (stepIm (mixer s)) (oscRenorm (mixer s))
      (fst (bqProcess (lpI (mixer s)) (x * oscRe (mixer s))%D)) (fst (bqProcess (lpQ (mixer s)) (x * oscIm (mixer s))%D)) (lpfDelay (mixer s)) 0 0)) as (R1 & R2 & R3).
    unfold summed. rewrite Eb, D, Em, R1, R2, R3. cbn [f0 magCount magAccum]. split; [exact Lb|].
    split; [apply Ma; [done|by rewrite advanceOsc_sums]|].
    exists (blocks ++ [rest ++ [magnitude (mixer s) x]])%list, []. rewrite magnitudes_snoc, E, <- M, Mg, concat_app. cbn [concat].
    rewrite !app_nil_r, app_assoc. split; [done|]. split; [apply Forall_app; split; [done|]; constructor; [rewrite length_app; cbn; lia|constructor]|].
    split; [done|]. split; [cbn; lia|]. split; [done|]. rewrite map_app. cbn [map]. rewrite Eh. do 2 f_equal. unfold blockMean.
    rewrite total_snoc, <- A. by replace (magCount (mixer s) + 1) with decim by lia.
  - match type of Em with mixer s' = advanceOsc ?m0 => destruct (advanceOsc_rest m0) as (R1 & R2 & R3) end.
    unfold summed. rewrite Eb, D, Em, R1, R2, R3. cbn [f0 magCount magAccum]. split; [exact Lb|].
    split; [apply Ma; [done|by rewrite advanceOsc_sums]|].
    exists blocks, (rest ++ [magnitude (mixer s) x])%list. rewrite magnitudes_snoc, E, <- M, Mg, length_app, total_snoc, app_assoc. cbn [length].
    split; [done|]. split; [done|]. split; [lia|]. split; [lia|]. by rewrite A.
Qed.

Lemma steady_good s past x h : searching s = false -> good s past h ->
  exists s' h', feedSteady cfg sr decim (counted s) x = Some s' /\ good s' (past ++ [x]) h'.
Proof.
  intros Se (W & Hh & C & G). rewrite Se in G. destruct G as (Su & secs & T).
  pose proof (summed_next s past h x Su Se) as N. cbv zeta in N. unfold magnitude in N. unfold feedSteady. cbn [mixer counted]. cbv zeta.
  destruct (bqProcess (lpI (mixer s)) _) as [qi i]. destruct (bqProcess (lpQ (mixer s)) _) as [qq q]. cbn [fst snd] in N.
  set (acc := (magAccum (mixer s) + _)%D) in *.
  destruct (Z.leb_spec decim (magCount (mixer s) + 1)) as [Fu|Fu].
  - set (m := MkMixer _ _ _ _ _ _ _ _ _ _ _). set (s1 := withMixer _ m).
    destruct (pushEnvelope_some cfg sr decim s1 (fround (acc / d_of_Z (magCount (mixer s) + 1))%D) h)
      as (s' & -> & W' & H' & E1 & E2 & E3 & E4 & E5 & new & E6); [exact W|exact Hh|]. cbn [mbind option_bind].
    eexists _, (h ++ [_])%list. split; [reflexivity|].
    split; [exact W'|]. split; [exact H'|]. split; [cbn; rewrite E2, length_app; cbn; lia|].
    cbn [samplesConsumed searching mixer withMixer base tail]. rewrite E1. cbn [searching s1 withMixer counted]. rewrite Se.
    split; [apply N; [exact E5|exact Fu|by rewrite E4]|]. exists (secs ++ new)%list. rewrite E6, E5. cbn. by rewrite wwvb_run_app, T.
  - cbn [mbind option_bind]. eexists _, h. split; [reflexivity|].
    split; [exact W|]. split; [exact Hh|]. split; [cbn; rewrite length_app; cbn; lia|].
    cbn [samplesConsumed searching mixer withMixer base tail counted]. rewrite Se. split; [by apply N|]. by exists secs.
Qed.

Lemma process_good xs : forall s past h, good s past h ->
  exists s' h', process cfg sr decim s xs = Some s' /\ good s' (past ++ xs) h'.
Proof.
  induction xs as [|x xs IH]; intros s past h G; [exists s, h; by rewrite app_nil_r|].
  rewrite (cons_middle x past xs), app_assoc. cbn [process]. unfold processSample. cbv zeta. fold (counted s).
  cbn [searching counted]. destruct (searching s) eqn:Se.
  - assert (h = []) as ->. { destruct G as (_ & _ & _ & G). rewrite Se in G. apply G. }
    pose proof (acquisition_good s past x Se G) as G'. cbn [mbind option_bind]. exact (IH _ _ _ G').
  - destruct (steady_good s past x h Se G) as (s1 & h1 & E1 & G1). rewrite E1. cbn [mbind option_bind].
    exact (IH s1 _ h1 G1).
Qed.
End Samples.

(** ** Properties *)

(** C24: from samples to seconds nothing goes wrong. Whatever samples the decoder
    is given, and whatever the C++ library's cosines and logarithms answer, every
    envelope value it reads is one the ring of 1024 still holds, and the loop over
    ready seconds ends. Until the tone is found nothing is pushed. After it the
    samples since, mixed down at the tone found, fall into blocks of [decim] and one
    that is not full: as many values have been pushed as there are full blocks, at
    every index the ring still holds is the mean of the magnitudes of that block, and
    the last block is what is being summed, so that index [i] begins at sample
    [base + i * decim]; and the frame decoder has run on some list of seconds and
    nothing else. *)
Theorem wwvb_process_total `{Libm} `{Pow} (cfg : Config) (sr : Z) (xs : list double) :
  let decim := decimOf sr in
  exists s, process cfg sr decim construct xs = Some s /\ samplesConsumed s = Z.of_nat (length xs) /\
    if searching s then envCount (envl s) = 0
    else
      0 <= base s <= Z.of_nat (length xs) /\
      (exists blocks rest,
         magnitudes (tuned sr (f0 (mixer s))) (drop (Z.to_nat (base s)) xs) = (concat blocks ++ rest)%list /\
         Forall (fun b => Z.of_nat (length b) = decim) blocks /\ Z.of_nat (length rest) < decim /\
         magCount (mixer s) = Z.of_nat (length rest) /\ magAccum (mixer s) = total rest /\
         envCount (envl s) = Z.of_nat (length blocks) /\
         forall i b, blocks !! i = Some b -> (length blocks <= i + 1024)%nat ->
           envAt (envl s) (Z.of_nat i) = Some (blockMean decim b)) /\
      exists secs, tail s = run cfg (base s) decim running secs.
Proof.
  cbv zeta. destruct (process_good cfg sr (decimOf sr) ltac:(unfold decimOf; lia) xs construct [] [] (construct_good cfg sr _))
    as (s & h & E & (W & (R & N & V) & C & G)).
  exists s. split; [exact E|]. split; [exact C|]. destruct (searching s); [destruct G as (-> & _); exact N|].
  destruct G as ((B & _ & blocks & rest & E1 & Bl & Mc & L & A & ->) & T). split; [exact B|]. split; [|exact T].
  rewrite length_map in N, V. exists blocks, rest. repeat (split; [assumption|]).
  intros i b Ei Li. rewrite V by (done || by apply lookup_lt_Some in Ei).
  change (map (blockMean (decimOf sr)) blocks) with (blockMean (decimOf sr) <$> blocks). by rewrite list_lookup_fmap, Ei.
Qed.

(** Seconds of envelope: carrier down for 0.2, 0.5 or 0.8 s, then up. *)
Definition keyed (lows : list nat) : list double :=
  concat (map (fun low => replicate low 0.15%D ++ replicate (100 - low) 1%D) lows)%list.
Fixpoint pushAll `{Pow} (cfg : Config) (sr decim : Z) (s : Sig) (vs : list double) : option Sig :=
  match vs with
  | [] => Some s
  | v :: vs => s ← pushEnvelope cfg sr decim s v; pushAll cfg sr decim s vs
  end.
Definition secondsOf (s : Sig) : list (ClockSymbol * bool * Z * Z) :=
  omap (fun c => match c with OnSecond r sof => Some (sym r, measured r, edgeSample r, sof) | _ => None end) (calls (tail s)).

(** Two markers in a row and a zero after them are heard as that, at the samples
    where the carrier drops: the second marker is :00. *)
Example wwvb_hears :
  let s := MkSig false 0 (search construct) freshMixer 0 noEnvelope noSegment noTracker running in
  option_map secondsOf (@pushAll demoPow buildVoterConfig 24000 240 s (keyed [20; 80; 80; 20; 50; 20]%nat)) =
  Some [(SymMarker, true, 24000, -1); (SymMarker, true, 48000, 0); (SymZero, true, 72000, 1); (SymOne, true, 96000, 2)].
Proof. vm_compute. reflexivity. Qed.
