(* ===== verification/Allouis.v ===== *)
(** * The ALS162 time code (src/clock/AllouisDecoder.cpp)
    What the 162 kHz Allouis decoder makes of its seconds, each of which names
    itself by its position code: where the minute is, the frame, the bits no second
    told and how the checks fill them in, the vote, the lock and the labels. The
    seconds come from AllouisSignal. *)

From Stdlib Require Import ZArith Lia List Bool Floats.
From stdpp Require Import base list.
From S2P Require Import Prelude Doubles Rounding ClockTypes CivilTime TimeFrameVoter TimeCode.

#[local] Open Scope Z_scope.

(** ** Constants *)

Definition kStructConf : double := 0.5%D.
Definition kBitMinConf : double := fround 0.05.
Definition kMaxUnconfirmedMinutes : Z := 2.
Definition kMaxErasures : nat := 2.
Definition kConfirmMatches : Z := 30.
Definition kMatchSig : double := 3%D.
Definition buildVoterConfig : Config := voterConfig wwvbFields.

(** ** Data *)

(** One second, read. [key] is the second its position code names, [-1] if none
    clearly. *)
Record SecRec := MkSec {
  edge : Z; edgeExact : double; read : bool; marker : bool; markConf : double; bit : Z; bitConf : double;
  key : Z; keySig : double; expSig : double; timeSig : double
}.
Definition noSec : SecRec := MkSec 0 nan false false 0 0 0 (-1) 0 0 0.

Record Decoded := MkDecoded {
  d_minute : Z; d_hour : Z; d_day : Z; d_month : Z; d_year2 : Z; d_cest : bool; d_leapWarn : bool;
  d_utc : TimeFields; d_utcMs : Z
}.

Record FrameInfo := MkFrameInfo {
  fi_fields : TimeFields; fi_leapPending : bool; fi_dst : bool; fi_confidence : double; fi_start : Z
}.
Record TimeInfo := MkTimeInfo {
  ti_fields : TimeFields; ti_quality : double; ti_edge : Z; ti_edgeExact : double; ti_second : Z
}.
(** A second's display: the phase heard and expected, 100 of each. *)
Record Trace := MkTrace { envelope : list double; expected : list double }.
Record SecondInfo := MkSecondInfo {
  si_edge : Z; si_edgeExact : double; si_measured : bool; si_symbol : ClockSymbol; si_conf : double;
  si_second : Z; si_trace : Trace
}.
Inductive Call :=
  | OnState (s : ClockLockState)
  | OnFrame (f : FrameInfo)
  | OnSecond (i : SecondInfo)
  | OnTime (t : TimeInfo).

Record Count := MkCount {
  anchored : bool; sofNext : Z; frame : list SecRec; frFilled : Z; frStart : Z;
  frMatches : Z; frMismatches : Z; slipRun : Z; unconfirmedRun : Z
}.
Definition emptyFrame : list SecRec := replicate 60 noSec.
Definition noCount : Count := MkCount false 0 emptyFrame 0 0 0 0 0 0.

Record Voted := MkVoted { haveVoted : bool; votedTime : TimeFields; votedQuality : double }.
Definition noVote : Voted := MkVoted false TimeFields_none 0.
(** [lastFrame] is the last frame's start, when there is one. *)
Record Carry := MkCarry { lastFrame : option Z; lastLeapWarn : bool; lastFrameFrom : Z }.
Definition noCarry : Carry := MkCarry None false 0.

Record Impl := MkImpl {
  lockState : ClockLockState; hist : list SecRec; count : Count; voted : Voted; carry : Carry;
  voter : list Frame; calls : list Call
}.
Definition withCount (s : Impl) (c : Count) : Impl :=
  MkImpl (lockState s) (hist s) c (voted s) (carry s) (voter s) (calls s).
Definition withVoted (s : Impl) (v : Voted) : Impl :=
  MkImpl (lockState s) (hist s) (count s) v (carry s) (voter s) (calls s).
Definition withHist (s : Impl) (h : list SecRec) : Impl :=
  MkImpl (lockState s) h (count s) (voted s) (carry s) (voter s) (calls s).
Definition withCarry (s : Impl) (k : Carry) : Impl :=
  MkImpl (lockState s) (hist s) (count s) (voted s) k (voter s) (calls s).
Definition withVoter (s : Impl) (fs : list Frame) : Impl :=
  MkImpl (lockState s) (hist s) (count s) (voted s) (carry s) fs (calls s).
Definition withLock (s : Impl) (l : ClockLockState) : Impl :=
  MkImpl l (hist s) (count s) (voted s) (carry s) (voter s) (calls s).
Definition call (s : Impl) (c : Call) : Impl :=
  MkImpl (lockState s) (hist s) (count s) (voted s) (carry s) (voter s) (calls s ++ [c])%list.
Definition setLockState (s : Impl) (l : ClockLockState) : Impl :=
  if bool_decide (l = lockState s) then s else call (withLock s l) (OnState l).
(** The decoder as made, and once it has found the carrier. *)
Definition fresh (l : ClockLockState) : Impl := MkImpl l [] noCount noVote noCarry [] [].
Definition running : Impl := setLockState (fresh LockNoSignal) LockAcquiring.

Definition secAt (fr : list SecRec) (s : nat) : SecRec := nth s fr noSec.

(** ** The minute's bits *)

Definition bitsAt (b : list Z) (s : Z) : Z := nth (Z.to_nat s) b 0.
(** The minute's checks: the fixed bits, exactly one of summer and winter time,
    the three parities, and the count of the ones. *)
Definition checksOut (at_ : Z -> Z) : bool :=
  (at_ 0 =? 0) && (at_ 20 =? 1) && negb (at_ 17 =? at_ 18) &&
  (parityOf at_ 21 28 =? 0) && (parityOf at_ 29 35 =? 0) && (parityOf at_ 36 58 =? 0) &&
  (sumZ (bitsFrom at_ 21 38) =? 2 * at_ 3 + 4 * at_ 4 + 8 * at_ 5 + 16 * at_ 6).
(** What the bits say, if they can be believed. *)
Definition decodeBits (b : list Z) : option Decoded :=
  let at_ := bitsAt b in
  if negb (checksOut at_) then None
  else
    c ← localCode at_;
    let cest := at_ 17 =? 1 in
    let utcMs := codeUtcMs c cest in
    Some (MkDecoded (lc_minute c) (lc_hour c) (lc_day c) (lc_month c) (lc_year2 c) cest
            ((at_ 1 =? 1) || (at_ 2 =? 1)) (hostNowFields utcMs) utcMs).

(** A second's bit, when it was read well enough to be one. *)
Definition bitOf (r : SecRec) : option Z :=
  if marker r || (bitConf r <? kBitMinConf)%D then None else Some (bit r).

(** The bits read, the seconds whose bit was not, and the weakest of those from 17
    on that were. *)
Record Bits := MkBits { b_bits : list Z; b_unread : list nat; b_conf : double }.
Definition readBit (fr : list SecRec) (acc : option Bits) (s : nat) : option Bits :=
  a ← acc;
  let r := secAt fr s in
  if negb (read r) then None
  else match bitOf r with
       | None =>
           let u := (b_unread a ++ [s])%list in
           if (kMaxErasures <? length u)%nat then None else Some (MkBits (b_bits a) u (b_conf a))
       | Some x =>
           Some (MkBits (<[s := x]> (b_bits a)) (b_unread a)
                   (if (17 <=? s)%nat then dmin (b_conf a) (bitConf r) else b_conf a))
       end.
Definition readBits (fr : list SecRec) : option Bits :=
  fold_left (readBit fr) (seq 0 59) (Some (MkBits (replicate 60 0) [] 1)).

(** One value of the unread bits, and all of them. *)
Definition filling (b : list Z) (unread : list nat) (m : Z) : list Z :=
  fold_left (fun b '(i, s) => <[s := Z.land (Z.shiftr m (Z.of_nat i)) 1]> b) (imap pair unread) b.
Definition fillings (b : list Z) (unread : list nat) : list (list Z) :=
  map (fun m => filling b unread (Z.of_nat m)) (seq 0 (2 ^ length unread)).
(** The one that decodes: [None] when none does, or a second one does too. *)
Fixpoint onlyOne (bs : list (list Z)) (found : option Decoded) : option Decoded :=
  match bs with
  | [] => found
  | b :: bs =>
      match decodeBits b with
      | None => onlyOne bs found
      | Some t => match found with None => onlyOne bs (Some t) | Some _ => None end
      end
  end.

Definition decode (fr : list SecRec) : option (Decoded * double) :=
  a ← readBits fr;
  d ← onlyOne (fillings (b_bits a) (b_unread a)) None;
  let conf :=
    match b_unread a with
    | [] => b_conf a
    | [_] => fmul (b_conf a) (fround 0.7)
    | _ => fmul (b_conf a) (fround 0.5)
    end in
  Some (d, conf).

(** ** The minute ends *)

Definition leapSecondPossible (f : TimeFields) : bool :=
  if negb (tf_minute f =? 59) || negb (tf_hour f =? 23) then false
  else isLastDayOfMonth (utcMsFromFields (tf_year2 f) (tf_doy f) (tf_hour f) (tf_minute f)).

Definition unvoted (v : Voted) : Voted := MkVoted false (votedTime v) (votedQuality v).
Definition dropAnchor (s : Impl) : Impl :=
  let k := carry s in
  let s := withVoted s (unvoted (voted s)) in
  withCount (withCarry s (MkCarry (lastFrame k) false (lastFrameFrom k))) noCount.
Definition demote (s : Impl) : Impl :=
  let s := withVoted s (unvoted (voted s)) in
  if bool_decide (lockState s = LockLocked) then setLockState s LockAcquiring else s.
(** Anchored so that the second just read is [sof]. *)
Definition anchorAt (s : Impl) (sof : Z) (r : SecRec) : Impl :=
  let c := count s in
  withCount s (MkCount true sof emptyFrame 0 (if sof =? 0 then edge r else frStart c) 0 0 0 (unconfirmedRun c)).

Definition forgetFrame (s : Impl) : Impl :=
  let k := carry s in withCarry s (MkCarry None (lastLeapWarn k) (lastFrameFrom k)).
Definition recount (s : Impl) (matches_ mismatches run : Z) : Impl :=
  let c := count s in
  withCount s (MkCount (anchored c) (sofNext c) (frame c) (frFilled c) (frStart c) matches_ mismatches
                 (slipRun c) run).

Definition frameInfo (dec : option (Decoded * double)) (start : Z) : FrameInfo :=
  match dec with
  | None => MkFrameInfo TimeFields_none false false 0 start
  | Some (d, conf) => MkFrameInfo (d_utc d) (d_leapWarn d) (d_cest d) conf start
  end.

Section Decoder.
(** [cfg] is the voter's configuration: [buildVoterConfig] with the plausibility
    reference set. [sr] is the sample rate. *)
Context `{Pow} (cfg : Config) (sr : Z).

Definition consecutive (s : Impl) (period : double) : bool :=
  match lastFrame (carry s) with
  | None => false
  | Some start => (dabs (d_of_Z (frStart (count s) - start) - 60 * period) <=? 0.25 * d_of_Z sr)%D
  end.

Definition vote (s : Impl) (f : Frame) (keep : bool) : Impl :=
  let fs := addFrame cfg (if keep then voter s else reset (voter s)) f in
  let s := withVoter s fs in
  if l_locked (lockVerdict cfg fs)
  then withVoted s (MkVoted (haveVoted (voted s))
         (TF (votedField cfg fs FieldMinutes) (votedField cfg fs FieldHours)
             (votedField cfg fs FieldDoy) (votedField cfg fs FieldYear))
         (lockConfidence cfg fs))
  else s.

Definition finalizeFrame (s : Impl) (period : double) : Impl :=
  let c := count s in
  let contradicted := 1 <? frMismatches c in
  let confirmed := (60 <=? frFilled c) && (kConfirmMatches <=? frMatches c) && negb contradicted in
  let run := if contradicted || confirmed then unconfirmedRun c else unconfirmedRun c + 1 in
  if contradicted || (negb confirmed && (kMaxUnconfirmedMinutes <? run))
  then recount (forgetFrame (demote s)) 0 0 run
  else
    let run := if confirmed then 0 else run in
    let dec := if confirmed then decode (frame c) else None in
    let s := call s (OnFrame (frameInfo dec (frStart c))) in
    let keep := consecutive s period in
    let k := carry s in
    let warned := match dec with Some (d, _) => d_leapWarn d | None => false end in
    let s := withCarry s (MkCarry (Some (frStart c)) warned (match dec with Some _ => 2 | None => 0 end)) in
    let s := vote s (utcFrame (match dec with Some (d, conf) => Some (d_utc d, fun _ => conf) | None => None end)) keep in
    let leapNext :=
      match dec with
      | Some (d, _) => (d_leapWarn d || lastLeapWarn k) && leapSecondPossible (d_utc d)
      | None => false
      end in
    let s :=
      if l_locked (lockVerdict cfg (voter s)) && confirmed && negb leapNext
      then setLockState (withVoted s (MkVoted true (votedTime (voted s)) (votedQuality (voted s)))) LockLocked
      else demote s in
    recount s 0 0 run.

(** ** One second *)

(** Before the minute is known: two seconds that name themselves, one after the
    other, or the first of a minute after one without an excursion. The second just
    read is [hist]'s last. *)
Definition findAnchor (s : Impl) (r : SecRec) : Impl :=
  if anchored (count s) || (length (hist s) <? 2)%nat then s
  else
    let p := nth (length (hist s) - 2) (hist s) noSec in
    if (0 <=? key r) && (0 <=? key p) && (key r =? key p + 1) then anchorAt s (key r) r
    else if (key r =? 0) && marker p && (kStructConf <=? markConf p)%D then anchorAt s 0 r
    else s.

(** The count of seconds against the second's own name: two in a row that clearly
    name another are followed. Gives the second this is. *)
Definition checkName (s : Impl) (r : SecRec) (sof : Z) : Impl * Z :=
  let c := count s in
  let tally m mm run :=
    withCount s (MkCount (anchored c) (sofNext c) (frame c) (frFilled c) (frStart c) m mm run (unconfirmedRun c)) in
  if sof <? 59 then
    if (0 <=? key r) && negb (key r =? sof) then
      let run := slipRun c + 1 in
      let s := tally (frMatches c) (frMismatches c + 1) run in
      if 2 <=? run then (anchorAt (forgetFrame (demote s)) (key r) r, key r) else (s, sof)
    else (tally (if (kMatchSig <=? expSig r)%D then frMatches c + 1 else frMatches c) (frMismatches c) 0, sof)
  else if negb (marker r) && (kStructConf <=? markConf r)%D
  then (tally (frMatches c) (frMismatches c + 1) (slipRun c), sof)
  else (s, sof).

Definition beginMinute (s : Impl) (r : SecRec) : Impl :=
  let c := count s in
  withCount s (MkCount (anchored c) (sofNext c) (frame c) 0 (edge r) 0 0 (slipRun c) (unconfirmedRun c)).
Definition fileSecond (s : Impl) (r : SecRec) (sof : Z) : Impl :=
  let c := count s in
  let '(fr, filled) :=
    if (0 <=? sof) && (sof <? 60) then (<[Z.to_nat sof := r]> (frame c), Z.max (frFilled c) (sof + 1))
    else (frame c, frFilled c) in
  withCount s (MkCount (anchored c) (cmod (sof + 1) 60) fr filled (frStart c) (frMatches c) (frMismatches c)
                 (slipRun c) (unconfirmedRun c)).

(** Which second of the minute this is, [-1] when nobody knows. *)
Definition countSecond (s : Impl) (r : SecRec) : Impl * Z :=
  let s := findAnchor s r in
  if anchored (count s) then
    let sof := sofNext (count s) in
    let s := if sof =? 0 then beginMinute s r else s in
    let '(s, sof) := checkName s r sof in
    (fileSecond s r sof, sof)
  else (s, -1).

Definition secondInfo (r : SecRec) (measured : bool) (sof : Z) (trace : Trace) : SecondInfo :=
  MkSecondInfo (edge r) (edgeExact r) measured
    (if negb (read r) then SymUnknown else if marker r then SymMarker else if bit r =? 0 then SymZero else SymOne)
    (if marker r then markConf r else bitConf r) sof trace.

(** A second: [measured] whether its edge was, [trace] its display as the second it
    turns out to be, [period] the tracked second in samples. *)
Definition handleSecond (s : Impl) (r : SecRec) (measured : bool) (trace : Z -> Trace) (period : double) : Impl :=
  let '(s, sof) := countSecond s r in
  let s := call s (OnSecond (secondInfo r measured sof (trace sof))) in
  let s := if anchored (count s) && (sof =? 59) then finalizeFrame s period else s in
  if bool_decide (lockState s = LockLocked) && haveVoted (voted s) && (0 <=? sof)
  then call s (OnTime (MkTimeInfo (votedTime (voted s)) (votedQuality (voted s)) (edge r) (edgeExact r) sof))
  else s.

Definition noteSecond (s : Impl) (r : SecRec) : Impl :=
  let h := (hist s ++ [r])%list in withHist s (if (8 <? length h)%nat then drop 1 h else h).
(** The second has to be looked for again. *)
Definition restart (s : Impl) : Impl :=
  let s := if bool_decide (lockState s = LockLocked) then setLockState s LockAcquiring else s in
  withHist (dropAnchor s) [].

(** All that reaches the running decoder. *)
Inductive Input :=
  | Second (r : SecRec) (measured : bool) (trace : Z -> Trace) (period : double)
  | Lost.
Definition input (s : Impl) (i : Input) : Impl :=
  match i with
  | Second r measured trace period => handleSecond (noteSecond s r) r measured trace period
  | Lost => restart s
  end.
Definition run (s : Impl) (ins : list Input) : Impl := fold_left input ins s.

End Decoder.

(** ** The minute as it is sent
    The minute [t] of ALS162, in summer time or not: the seconds 0 to 58, and
    nothing in 59. [warn1], [warn2] announce a leap second, [free] is seconds 7 to
    16, whose use is not the time code's, and [x19] second 19. *)
Definition als162 (t : TimeFields) (summer : bool) (warn1 warn2 : Z) (free : list Z) (x19 : Z) : list Z :=
  let '(mi, ho, da) := announcedGroups (msOf t) summer in
  let code := withParities mi ho da in
  ([0; warn1; warn2] ++ lsb 4 (sumZ code / 2) ++ free ++
   [if summer then 1 else 0; if summer then 0 else 1; x19; 1] ++ code ++ [0])%list.

(** Whether a check covers the second's bit. *)
Definition checked (s : nat) : bool :=
  negb (((1 <=? s) && (s <=? 2)) || ((7 <=? s) && (s <=? 16)) || (s =? 19))%nat.

(** ** Lemmas: the minute's bits *)

(** No date and time has more than 30 ones, so that four bits count them. *)
Definition popOk (n : nat) (k v : Z) : bool := sumZ (lsb n (bcd v)) <=? k.
Lemma pop_range n k hi v :
  forallb (fun i => popOk n k (Z.of_nat i)) (seq 0 (S hi)) = true -> 0 <= v <= Z.of_nat hi -> sumZ (lsb n (bcd v)) <= k.
Proof. intros F V. pose proof (range_check (popOk n k) hi v F V) as O. unfold popOk in O. by zbool. Qed.

Lemma sumZ_bits l : Forall isBit l -> 0 <= sumZ l <= Z.of_nat (length l).
Proof. induction 1 as [|x l [-> | ->] _ IH]; unfold sumZ in *; cbn in *; lia. Qed.

(** The groups of a minute: bits, of which there are not too many. *)
Definition groupsFit (mi ho da : list Z) : Prop :=
  Forall isBit mi /\ Forall isBit ho /\ Forall isBit da /\ sumZ mi <= 5 /\ sumZ ho <= 4 /\ sumZ da <= 17.
Lemma announcedGroups_fit t summer mi ho da :
  rangeValid t = true -> 2000 <= fst (fst (announcedDate (msOf t) summer)) ->
  announcedGroups (msOf t) summer = (mi, ho, da) ->
  length mi = 7%nat /\ length ho = 6%nat /\ length da = 22%nat /\ groupsFit mi ho da.
Proof.
  intros V Y G. destruct (msOf_minute t summer V) as [_ D]. unfold announcedGroups, announcedDate in *.
  pose proof (days_of_civil _ D) as C. destruct (civilFromDays _) as [[y mo] d]. destruct C as [Vd _].
  pose proof (validDate_day _ _ _ Vd) as [Hmo Hd]. destruct (groupsOf_length _ _ _ _ _ _ _ _ G) as (L1 & L2 & L3).
  split; [done|]. split; [done|]. split; [done|]. unfold groupsOf, cmod in G.
  set (rem := announced (msOf t) summer mod 86400) in *. assert (R : 0 <= rem < 86400) by (unfold rem; dlia). clearbody rem.
  assert (W : 0 <= floorMod (announced (msOf t) summer / 86400 + 3) 7 + 1 <= 7) by (rewrite floorMod_mod by lia; dlia).
  apply pair_equal_spec in G as [G <-]. apply pair_equal_spec in G as [<- <-].
  repeat (split; [repeat apply Forall_app_2; apply lsb_bits|]).
  split; [apply (pop_range 7 5 59); [reflexivity|dlia]|].
  split; [apply (pop_range 6 4 23); [reflexivity|dlia]|]. rewrite !sumZ_app.
  pose proof (pop_range 6 4 31 d eq_refl ltac:(lia)). pose proof (pop_range 5 3 12 mo eq_refl ltac:(lia)).
  pose proof (sumZ_bits _ (lsb_bits 3 (floorMod (announced (msOf t) summer / 86400 + 3) 7 + 1))) as B3. rewrite length_lsb in B3.
  cbn [fst] in Y. pose proof (pop_range 8 6 99 (Z.rem y 100) eq_refl ltac:(rewrite Z.rem_mod_nonneg by lia; dlia)).
  lia.
Qed.

(** The ones of seconds 21 to 58: an even number below 32. *)
Lemma parity_even l : Forall isBit l -> (sumZ l + xors l) mod 2 = 0 /\ 0 <= xors l <= 1.
Proof.
  intros F. rewrite xors_sum by done. rewrite <- Zplus_mod_idemp_l. pose proof (Z.mod_pos_bound (sumZ l) 2 ltac:(lia)).
  assert (sumZ l mod 2 = 0 \/ sumZ l mod 2 = 1) as [-> | ->] by lia; split; (reflexivity || lia).
Qed.
Lemma code_count mi ho da : groupsFit mi ho da ->
  let n := sumZ (withParities mi ho da) in 2 * (n / 2) = n /\ 0 <= n / 2 <= 15.
Proof.
  intros (F1 & F2 & F3 & S1 & S2 & S3). cbv zeta. unfold withParities. rewrite !sumZ_app.
  assert (One : forall x, sumZ [x] = x) by (intros; unfold sumZ; cbn; lia). rewrite !One. clear One.
  destruct (parity_even _ F1), (parity_even _ F2), (parity_even _ F3).
  pose proof (sumZ_bits _ F1). pose proof (sumZ_bits _ F2). pose proof (sumZ_bits _ F3).
  set (a := sumZ mi) in *. set (b := sumZ ho) in *. set (c := sumZ da) in *.
  set (p := xors mi) in *. set (q := xors ho) in *. set (u := xors da) in *. clearbody a b c p q u. dlia.
Qed.
Definition fourOk (v : Z) : bool := unitsOf (lsb 4 v) =? v.
Lemma four_range v : 0 <= v <= 15 -> unitsOf (lsb 4 v) = v.
Proof. intros V. apply Z.eqb_eq. apply (range_check fourOk 15); [reflexivity|exact V]. Qed.

(** What a minute that decodes satisfies. *)
Lemma checksOut_spec at_ : checksOut at_ = true <->
  at_ 0 = 0 /\ at_ 20 = 1 /\ at_ 17 <> at_ 18 /\
  parityOf at_ 21 28 = 0 /\ parityOf at_ 29 35 = 0 /\ parityOf at_ 36 58 = 0 /\
  sumZ (bitsFrom at_ 21 38) = 2 * at_ 3 + 4 * at_ 4 + 8 * at_ 5 + 16 * at_ 6.
Proof. unfold checksOut. rewrite !andb_true_iff, negb_true_iff, Z.eqb_neq, !Z.eqb_eq. tauto. Qed.
Lemma decodeBits_checks b d : decodeBits b = Some d -> checksOut (bitsAt b) = true.
Proof. unfold decodeBits. cbv zeta. by destruct (checksOut (bitsAt b)). Qed.

Section Sent.
Context (t : TimeFields) (summer : bool).
Hypotheses (Valid : rangeValid t = true) (Year : 2000 <= fst (fst (announcedDate (msOf t) summer)) <= 2099).

(** The minute sent decodes, whatever the bits nothing checks. *)
Lemma als162_decodes w1 w2 free x19 : length free = 10%nat ->
  exists d, decodeBits (als162 t summer w1 w2 free x19) = Some d /\ d_utc d = t /\ d_utcMs d = msOf t /\
    d_cest d = summer /\ d_leapWarn d = ((w1 =? 1) || (w2 =? 1)).
Proof.
  intros Lf. unfold als162. destruct (announcedGroups (msOf t) summer) as [[mi ho] da] eqn:G.
  destruct (announcedGroups_fit t summer mi ho da Valid (proj1 Year) G) as (L1 & L2 & L3 & Fit).
  destruct (code_count _ _ _ Fit) as [Even Few]. cbv zeta. set (n := sumZ (withParities mi ho da)) in *.
  pose proof (four_range (n / 2) Few) as Four. pose proof (length_lsb 4 (n / 2)) as L4.
  destruct (lsb 4 (n / 2)) as [|c3 [|c4 [|c5 [|c6 [|? ?]]]]]; try discriminate. clear L4.
  do 10 (destruct free as [|? free]; [discriminate|]). destruct free; [clear Lf|discriminate].
  set (code := withParities mi ho da) in *. set (bits := (_ ++ _)%list).
  assert (At : forall s, bitsAt bits s = nth (Z.to_nat (s - 0)) bits 0) by (intros; unfold bitsAt; by rewrite Z.sub_0_r).
  destruct (parities_sent (bitsAt bits) bits (take 21 bits) mi ho da [0] 0 At) as (P1 & P2 & P3 & S & B); try done; try lia.
  destruct (localCode_announced _ _ _ t summer mi ho da Valid Year G B) as (c & E & U).
  assert (T : hostNowFields (msOf t) = t) by (rewrite <- (Z.add_0_r (msOf t)); by apply hostNow_utcMs).
  assert (C : checksOut (bitsAt bits) = true).
  { apply checksOut_spec. split; [done|]. split; [done|]. split; [by destruct summer|].
    split; [exact P1|]. split; [exact P2|]. split; [exact P3|]. rewrite S. fold code n.
    change (bitsAt bits 3) with c3. change (bitsAt bits 4) with c4. change (bitsAt bits 5) with c5. change (bitsAt bits 6) with c6.
    unfold unitsOf in Four. cbn [nth] in Four. lia. }
  unfold decodeBits. cbv zeta. rewrite C, E. cbn [negb mbind option_bind].
  assert (W : (bitsAt bits 17 =? 1) = summer) by by destruct summer.
  eexists. split; [reflexivity|]. cbn [d_utc d_utcMs d_cest d_leapWarn]. rewrite W, U. done.
Qed.
End Sent.

(** One bit the other way round. *)
Definition flip (s : nat) (b : list Z) : list Z := <[s := 1 - nth s b 0]> b.

Section Flip.
Context (b : list Z) (s : nat).
Hypotheses (Bits : Forall isBit b) (Len : length b = 60%nat) (Low : (s < 59)%nat).

Lemma flip_same j : Z.to_nat j <> s -> bitsAt (flip s b) j = bitsAt b j.
Proof. intros N. unfold bitsAt, flip. rewrite nth_insert_ne; [done|congruence]. Qed.
Lemma flip_other j : Z.to_nat j = s -> bitsAt (flip s b) j = 1 - bitsAt b j.
Proof. intros <-. unfold bitsAt, flip. apply nth_insert_eq. lia. Qed.
Ltac at_second j H := first [rewrite (flip_other j) in H by lia | rewrite (flip_same j) in H by lia].
Lemma bitsAt_bit j : isBit (bitsAt b j).
Proof.
  unfold bitsAt. destruct (nth_in_or_default (Z.to_nat j) b 0) as [I | ->]; [|by left].
  rewrite Forall_forall in Bits. apply Bits. by apply list_elem_of_In.
Qed.
Lemma flip_outside a n : 0 <= a -> Z.of_nat s < a \/ a + Z.of_nat n <= Z.of_nat s ->
  bitsFrom (bitsAt (flip s b)) a n = bitsFrom (bitsAt b) a n.
Proof.
  intros A O. unfold bitsFrom. apply map_ext_in. intros i Hi. apply in_seq in Hi. apply flip_same. lia.
Qed.
Lemma flip_parity a z : 0 <= a <= Z.of_nat s -> Z.of_nat s <= z ->
  parityOf (bitsAt b) a z = 0 -> parityOf (bitsAt (flip s b)) a z = 1.
Proof.
  intros A1 A2. unfold parityOf. set (n := Z.to_nat (z - a + 1)). set (i := (s - Z.to_nat a)%nat).
  assert (A3 : Z.of_nat s < a + Z.of_nat n) by (unfold n; lia). clearbody n.
  assert (E : bitsFrom (bitsAt (flip s b)) a n = <[i := 1 - bitsAt b (Z.of_nat s)]> (bitsFrom (bitsAt b) a n)).
  { unfold bitsFrom. apply list_eq. intros j. destruct (decide (j < n)%nat) as [J|J].
    - rewrite list_lookup_fmap, lookup_seq_lt by done. cbn [fmap option_fmap option_map].
      destruct (decide (j = i)) as [->|N].
      + rewrite list_lookup_insert_eq by (rewrite length_map, length_seq; lia). f_equal.
        replace (a + Z.of_nat (0 + i)) with (Z.of_nat s) by lia. apply flip_other. lia.
      + rewrite list_lookup_insert_ne by done. rewrite list_lookup_fmap, lookup_seq_lt by done. cbn. f_equal.
        apply flip_same. lia.
    - rewrite !lookup_ge_None_2; [done| |]; rewrite ?length_insert, length_map, length_seq; lia. }
  assert (F : forall at_, (forall j, isBit (at_ j)) -> Forall isBit (bitsFrom at_ a n)).
  { intros at_ B. unfold bitsFrom. apply Forall_forall. intros x Hx.
    apply list_elem_of_In, in_map_iff in Hx as (j & <- & _). apply B. }
  assert (L : bitsFrom (bitsAt b) a n !! i = Some (bitsAt b (Z.of_nat s))).
  { unfold bitsFrom. rewrite list_lookup_fmap, lookup_seq_lt by lia. cbn. do 2 f_equal. lia. }
  pose proof (bitsAt_bit (Z.of_nat s)) as X. pose proof (F _ bitsAt_bit) as F1.
  assert (F2 : Forall isBit (<[i := 1 - bitsAt b (Z.of_nat s)]> (bitsFrom (bitsAt b) a n))).
  { apply Forall_insert; [done|]. destruct X as [-> | ->]; [by right|by left]. }
  rewrite E, !xors_sum, (sumZ_insert _ _ _ _ L) by done.
  generalize (sumZ (bitsFrom (bitsAt b) a n)). intros v Hv. destruct X as [-> | ->]; dlia.
Qed.

Lemma flip_checked d : decodeBits b = Some d -> checked s = true -> decodeBits (flip s b) = None.
Proof.
  intros D C. destruct (decodeBits (flip s b)) as [d'|] eqn:D'; [|done]. exfalso.
  apply decodeBits_checks, checksOut_spec in D as (A1 & A2 & A3 & A4 & A5 & A6 & A7).
  apply decodeBits_checks, checksOut_spec in D' as (B1 & B2 & B3 & B4 & B5 & B6 & B7).
  assert (K : (s = 0 \/ s = 3 \/ s = 4 \/ s = 5 \/ s = 6 \/ s = 17 \/ s = 18 \/ s = 20 \/ 21 <= s <= 28 \/ 29 <= s <= 35 \/ 36 <= s <= 58)%nat)
    by (unfold checked in C; destruct (Nat.leb_spec 1 s), (Nat.leb_spec s 2), (Nat.leb_spec 7 s), (Nat.leb_spec s 16),
          (Nat.eqb_spec s 19); cbn in C; (discriminate || lia)).
  pose proof (bitsAt_bit 3) as X3. pose proof (bitsAt_bit 4) as X4. pose proof (bitsAt_bit 5) as X5.
  pose proof (bitsAt_bit 6) as X6. pose proof (bitsAt_bit 17) as X7. pose proof (bitsAt_bit 18) as X8. unfold isBit in *.
  destruct K as [K|[K|[K|[K|[K|[K|[K|[K|K]]]]]]]].
  9: destruct K as [K|[K|K]].
  9: pose proof (flip_parity 21 28 ltac:(lia) ltac:(lia) A4) as Q; rewrite Q in B4; discriminate.
  9: pose proof (flip_parity 29 35 ltac:(lia) ltac:(lia) A5) as Q; rewrite Q in B5; discriminate.
  9: pose proof (flip_parity 36 58 ltac:(lia) ltac:(lia) A6) as Q; rewrite Q in B6; discriminate.
  all: rewrite (flip_outside 21 38) in B7 by lia; rewrite A7 in B7; clear A7 B4 B5 B6 A4 A5 A6 C;
    at_second 0 B1; at_second 20 B2; at_second 17 B3; at_second 18 B3;
    at_second 3 B7; at_second 4 B7; at_second 5 B7; at_second 6 B7; lia.
Qed.
End Flip.

(** *** Reading a frame *)

(** The seconds before [n] whose bit was not read, and all of the frame's. *)
Definition unreadBefore (fr : list SecRec) (n : nat) : list nat :=
  List.filter (fun s => match bitOf (secAt fr s) with None => true | Some _ => false end) (seq 0 n).
Definition unreadOf (fr : list SecRec) : list nat := unreadBefore fr 59.
Definition readSoFar (fr : list SecRec) (n : nat) : list Z := map (fun s => default 0 (bitOf (secAt fr s))) (seq 0 n).

Lemma unread_S fr n : unreadBefore fr (S n) =
  (unreadBefore fr n ++ match bitOf (secAt fr n) with None => [n] | Some _ => [] end)%list.
Proof. unfold unreadBefore. rewrite seq_S, List.filter_app. cbn. by destruct (bitOf _). Qed.

Lemma readBits_upto fr n : (n <= 59)%nat ->
  match fold_left (readBit fr) (seq 0 n) (Some (MkBits (replicate 60 0) [] 1)) with
  | Some a => b_bits a = (readSoFar fr n ++ replicate (60 - n) 0)%list /\ b_unread a = unreadBefore fr n /\
              (length (unreadBefore fr n) <= kMaxErasures)%nat
  | None => (exists s, (s < n)%nat /\ read (secAt fr s) = false) \/ (kMaxErasures < length (unreadBefore fr n))%nat
  end.
Proof.
  induction n as [|n IH]; intros Hn; [repeat split; cbn; lia|].
  specialize (IH ltac:(lia)). rewrite seq_S, fold_left_app. cbn [fold_left plus].
  destruct (fold_left _ _ _) as [a|]; cbn [readBit mbind option_bind].
  - destruct IH as (B & U & L). destruct (read (secAt fr n)) eqn:R; cbn [negb]; [|left; exists n; by split; [lia|]].
    rewrite unread_S. assert (E : replicate (60 - n) 0 = 0 :: replicate (60 - S n) 0).
    { replace (60 - n)%nat with (S (60 - S n)) by lia. done. }
    assert (Ls : length (readSoFar fr n) = n) by (unfold readSoFar; by rewrite length_map, length_seq).
    assert (Sn : readSoFar fr (S n) = (readSoFar fr n ++ [default 0 (bitOf (secAt fr n))])%list).
    { unfold readSoFar. by rewrite seq_S, map_app. }
    destruct (bitOf (secAt fr n)) as [x|].
    + cbn [b_bits b_unread]. rewrite app_nil_r, B, E, Sn, <- app_assoc. split; [|done].
      replace n with (length (readSoFar fr n) + 0)%nat at 1 by lia. by rewrite insert_app_r.
    + rewrite U. destruct (Nat.ltb_spec kMaxErasures (length (unreadBefore fr n ++ [n]))) as [M|M]; [by right|].
      cbn [b_bits b_unread]. rewrite B, E, Sn, <- app_assoc. split; [done|]. split; [done|lia].
  - destruct IH as [(s & Hs & R)|M]; [left; exists s; by split; [lia|]|right]. rewrite unread_S, length_app. lia.
Qed.

Lemma unreadOf_in fr s : In s (unreadOf fr) <-> (s < 59)%nat /\ bitOf (secAt fr s) = None.
Proof.
  unfold unreadOf, unreadBefore. rewrite filter_In, in_seq. destruct (bitOf _); intuition (lia || done).
Qed.

(** Of the fillings, the ones that decode: the minute is taken when it is one. *)
Lemma onlyOne_spec bs : forall found,
  onlyOne bs found = match (option_list found ++ omap decodeBits bs)%list with [t] => Some t | _ => None end.
Proof.
  induction bs as [|b bs IH]; intros found; [by destruct found|]. cbn [onlyOne omap list_omap].
  destruct (decodeBits b) as [t|]; [|apply IH]. destruct found as [f|]; [by cbn|]. by rewrite IH.
Qed.

(** A list and what it is once the seconds of [us] are put right. *)
Definition agree (us : list nat) (b sent : list Z) : Prop :=
  length b = length sent /\ forall s, ~ In s us -> b !! s = sent !! s.
Lemma agree_insert u us b sent x : agree (u :: us) b sent -> sent !! u = Some x -> agree us (<[u := x]> b) sent.
Proof.
  intros [L A] E. split; [by rewrite length_insert|]. intros s Hs. destruct (decide (s = u)) as [->|N].
  - rewrite list_lookup_insert_eq; [done|]. rewrite L. by apply lookup_lt_Some in E.
  - rewrite list_lookup_insert_ne by done. apply A. intros [?|?]; [congruence|done].
Qed.
Lemma agree_nil b sent : agree [] b sent -> b = sent.
Proof. intros [_ A]. apply list_eq. intros s. apply A. intros []. Qed.

Lemma fillings_hold us b sent : (length us <= kMaxErasures)%nat -> agree us b sent -> Forall isBit sent ->
  (forall u, In u us -> (u < length sent)%nat) -> In sent (fillings b us).
Proof.
  unfold kMaxErasures. intros L A F I. destruct us as [|u [|v [|w us]]]; [| | |cbn in L; lia].
  - left. symmetry. by apply agree_nil in A as <-.
  - destruct (lookup_lt_is_Some_2 sent u) as [x E]; [apply I; by left|].
    pose proof (agree_nil _ _ (agree_insert _ _ _ _ _ A E)) as Es.
    destruct (proj1 (Forall_lookup isBit sent) F u x E) as [-> | ->]; rewrite <- Es; [by left|by right; left].
  - destruct (lookup_lt_is_Some_2 sent u) as [x E]; [apply I; by left|].
    destruct (lookup_lt_is_Some_2 sent v) as [y G]; [apply I; by right; left|].
    pose proof (agree_nil _ _ (agree_insert _ _ _ _ _ (agree_insert _ _ _ _ _ A E) G)) as Es.
    destruct (proj1 (Forall_lookup isBit sent) F u x E) as [-> | ->], (proj1 (Forall_lookup isBit sent) F v y G) as [-> | ->];
      rewrite <- Es; cbn; tauto.
Qed.
Lemma fillings_none b : fillings b [] = [b].
Proof. reflexivity. Qed.
Lemma fillings_one u b sent : agree [u] b sent -> (u < length sent)%nat -> Forall isBit sent ->
  fillings b [u] = [sent; flip u sent] \/ fillings b [u] = [flip u sent; sent].
Proof.
  intros A I F. destruct (lookup_lt_is_Some_2 sent u I) as [x E].
  pose proof (agree_nil _ _ (agree_insert _ _ _ _ _ A E)) as Es. unfold flip. rewrite (nth_lookup_Some _ _ _ _ E).
  destruct (proj1 (Forall_lookup isBit sent) F u x E) as [-> | ->]; [left|right];
    rewrite <- Es at 1 2; rewrite ?list_insert_insert_eq; reflexivity.
Qed.

(** What was heard of a minute sent: every second, and its bit or nothing. *)
Definition heard (fr : list SecRec) (sent : list Z) : Prop :=
  forall s, (s < 59)%nat -> read (secAt fr s) = true /\ (bitOf (secAt fr s) = None \/ bitOf (secAt fr s) = sent !! s).

Lemma heard_read fr sent : heard fr sent -> length sent = 60%nat -> sent !! 59%nat = Some 0 ->
  match readBits fr with
  | Some a => b_unread a = unreadOf fr /\ (length (unreadOf fr) <= kMaxErasures)%nat /\ agree (unreadOf fr) (b_bits a) sent
  | None => (kMaxErasures < length (unreadOf fr))%nat
  end.
Proof.
  intros Hh L E. pose proof (readBits_upto fr 59 ltac:(lia)) as R. unfold readBits.
  destruct (fold_left _ _ _) as [a|].
  - destruct R as (B & U & M). split; [done|]. split; [done|]. rewrite B.
    assert (Ls : length (readSoFar fr 59) = 59%nat) by (unfold readSoFar; by rewrite length_map, length_seq).
    split; [rewrite length_app, Ls, L; done|]. intros s Hs. destruct (decide (s < 59)%nat) as [S|S].
    + rewrite lookup_app_l by lia. unfold readSoFar. rewrite list_lookup_fmap, lookup_seq_lt by done. cbn.
      destruct (Hh s S) as [_ [N|N]]; [destruct Hs; by apply unreadOf_in|].
      destruct (lookup_lt_is_Some_2 sent s) as [x X]; [lia|]. by rewrite N, X.
    + destruct (decide (s = 59)%nat) as [->|N]; [rewrite lookup_app_r, Ls by lia; by rewrite E|].
      rewrite !lookup_ge_None_2; [done|lia|]. rewrite length_app, Ls. cbn. lia.
  - destruct R as [(s & S & R)|M]; [|done]. destruct (Hh s S). congruence.
Qed.

Section Erasures.
Context (t : TimeFields) (summer : bool).
Hypotheses (Valid : rangeValid t = true) (Year : 2000 <= fst (fst (announcedDate (msOf t) summer)) <= 2099).

Ltac bits := repeat split; repeat (apply Forall_cons_2; [assumption|]); first [assumption|apply Forall_nil_2].
Lemma als162_shape w1 w2 free x19 : length free = 10%nat -> Forall isBit (w1 :: w2 :: x19 :: free) ->
  let b := als162 t summer w1 w2 free x19 in length b = 60%nat /\ Forall isBit b /\ b !! 59%nat = Some 0.
Proof.
  intros Lf F. cbv zeta. unfold als162. destruct (announcedGroups (msOf t) summer) as [[mi ho] da] eqn:G.
  destruct (announcedGroups_fit t summer mi ho da Valid (proj1 Year) G) as (L1 & L2 & L3 & F1 & F2 & F3 & _).
  assert (Lc : length (withParities mi ho da) = 38%nat).
  { unfold withParities. rewrite !length_app, L1, L2, L3. done. }
  apply Forall_cons in F as [W1 F]. apply Forall_cons in F as [W2 F]. apply Forall_cons in F as [W3 F].
  assert (Z0 : isBit 0) by by left. assert (Z1 : isBit 1) by by right.
  split; [rewrite !length_app, Lc, length_lsb, Lf; done|]. split.
  - assert (Bc : Forall isBit (withParities mi ho da)).
    { unfold withParities. pose proof (xors_bit _ F1). pose proof (xors_bit _ F2). pose proof (xors_bit _ F3).
      rewrite !Forall_app. bits. }
    clear Lc. generalize dependent (withParities mi ho da). intros code Bc.
    pose proof (lsb_bits 4 (sumZ code / 2)) as Bn. generalize dependent (lsb 4 (sumZ code / 2)). intros cnt Bn.
    rewrite !Forall_app. destruct summer; bits.
  - generalize dependent (withParities mi ho da). intros code Lc.
    pose proof (length_lsb 4 (sumZ code / 2)) as Ln. generalize dependent (lsb 4 (sumZ code / 2)). intros cnt Ln.
    rewrite !lookup_app_r by (rewrite ?length_app, ?Lc, ?Ln, ?Lf; cbn; lia).
    rewrite ?length_app, ?Lc, ?Ln, ?Lf. done.
Qed.

(** A bit nothing checks, the other way round, makes another minute sent. *)
Lemma flip_mid (pre post : list Z) x s : length pre = s -> flip s (pre ++ x :: post) = (pre ++ (1 - x) :: post)%list.
Proof.
  intros <-. unfold flip. rewrite app_nth2, Nat.sub_diag by lia. cbn [nth].
  rewrite <- (Nat.add_0_r (length pre)) at 1. by rewrite insert_app_r.
Qed.
Lemma flip_unchecked s w1 w2 free x19 : length free = 10%nat -> (s < 59)%nat -> checked s = false ->
  exists w1' w2' free' x19', length free' = 10%nat /\
    flip s (als162 t summer w1 w2 free x19) = als162 t summer w1' w2' free' x19'.
Proof.
  intros Lf Low C. unfold als162. destruct (announcedGroups (msOf t) summer) as [[mi ho] da].
  set (code := withParities mi ho da). set (cnt := lsb 4 _). assert (L4 : length cnt = 4%nat) by apply length_lsb.
  clearbody code cnt. set (z1 := if summer then 1 else 0). set (z2 := if summer then 0 else 1). clearbody z1 z2.
  assert (K : (s = 1 \/ s = 2 \/ s = 19 \/ 7 <= s <= 16)%nat)
    by (unfold checked in C; destruct (Nat.leb_spec 1 s), (Nat.leb_spec s 2), (Nat.leb_spec 7 s), (Nat.leb_spec s 16),
          (Nat.eqb_spec s 19); cbn in C; (discriminate || lia)).
  destruct K as [->|[->|[->|K]]].
  - exists (1 - w1), w2, free, x19. split; [done|]. by apply (flip_mid [0]).
  - exists w1, (1 - w2), free, x19. split; [done|]. by apply (flip_mid [0; w1]).
  - exists w1, w2, free, (1 - x19). split; [done|].
    rewrite (app_assoc [0; w1; w2]), (app_assoc ([0; w1; w2] ++ cnt)).
    change ([z1; z2; x19; 1] ++ code ++ [0])%list with ([z1; z2] ++ x19 :: [1] ++ code ++ [0])%list.
    rewrite (app_assoc _ [z1; z2]), flip_mid by (rewrite !length_app, L4, Lf; done). by rewrite <- !app_assoc.
  - destruct (lookup_lt_is_Some_2 free (s - 7)) as [x E]; [lia|].
    pose proof (take_drop_middle free (s - 7) x E) as Ef. pose proof (length_take_le free (s - 7) ltac:(lia)) as Lt.
    set (f1 := take (s - 7) free) in *. set (f2 := drop (S (s - 7)) free) in *. clearbody f1 f2. subst free.
    exists w1, w2, (f1 ++ (1 - x) :: f2)%list, x19. split; [rewrite length_app in *; exact Lf|].
    rewrite <- !app_assoc. set (post := ([z1; z2; x19; 1] ++ code ++ [0])%list). clearbody post.
    pose proof (flip_mid ([0; w1; w2] ++ cnt ++ f1) (f2 ++ post) x s) as M. rewrite <- !app_assoc in M.
    apply M. rewrite !length_app, L4, Lt. cbn [length]. lia.
Qed.

Lemma decode_one fr d conf : decode fr = Some (d, conf) ->
  exists a, readBits fr = Some a /\ omap decodeBits (fillings (b_bits a) (b_unread a)) = [d].
Proof.
  unfold decode. destruct (readBits fr) as [a|]; [|done]. cbn [mbind option_bind]. rewrite onlyOne_spec. cbn [option_list app].
  destruct (omap decodeBits _) as [|x [|y l]] eqn:E; try done. cbn [mbind option_bind]. intros [= <- _]. by exists a.
Qed.
Lemma decode_passes fr a : readBits fr = Some a ->
  is_Some (decode fr) <-> exists d, omap decodeBits (fillings (b_bits a) (b_unread a)) = [d].
Proof.
  unfold decode. intros ->. cbn [mbind option_bind]. rewrite onlyOne_spec. cbn [option_list app].
  destruct (omap decodeBits _) as [|x [|y l]]; cbn [mbind option_bind].
  - split; [by intros []|by intros []].
  - split; intros _; by eexists.
  - split; [by intros []|by intros []].
Qed.

(** The minute, what was heard of it, and what it decodes to when whole. *)
Context (w1 w2 x19 : Z) (free : list Z) (fr : list SecRec).
Hypotheses (Lf : length free = 10%nat) (Bits : Forall isBit (w1 :: w2 :: x19 :: free)).
#[local] Abbreviation sent := (als162 t summer w1 w2 free x19).
Hypothesis Heard : heard fr sent.

Lemma erased_sound d conf : decode fr = Some (d, conf) -> decodeBits sent = Some d.
Proof.
  intros D. apply decode_one in D as (a & R & P).
  destruct (als162_shape w1 w2 free x19 Lf Bits) as (L & F & E).
  pose proof (heard_read fr _ Heard L E) as K. rewrite R in K. destruct K as (U & M & A).
  destruct (als162_decodes t summer Valid Year w1 w2 free x19 Lf) as (d0 & D0 & _). rewrite U in P.
  assert (I : In sent (fillings (b_bits a) (unreadOf fr))).
  { apply fillings_hold; try done. intros u Hu. apply unreadOf_in in Hu as [Hu _]. rewrite L. lia. }
  assert (I2 : d0 ∈ omap decodeBits (fillings (b_bits a) (unreadOf fr))).
  { apply list_elem_of_omap. exists sent. split; [by apply list_elem_of_In|done]. }
  rewrite P in I2. apply list_elem_of_singleton in I2 as <-. exact D0.
Qed.

Lemma erased_whole : unreadOf fr = [] -> is_Some (decode fr).
Proof.
  intros N. destruct (als162_shape w1 w2 free x19 Lf Bits) as (L & F & E).
  pose proof (heard_read fr _ Heard L E) as K. destruct (readBits fr) as [a|] eqn:R; [|rewrite N in K; cbn in K; lia].
  destruct K as (U & M & A). rewrite N in *. apply agree_nil in A.
  apply (decode_passes _ _ R). rewrite U, A, fillings_none.
  destruct (als162_decodes t summer Valid Year w1 w2 free x19 Lf) as (d0 & D0 & _). exists d0.
  cbn [omap list_omap]. by rewrite D0.
Qed.

Lemma erased_one s : unreadOf fr = [s] -> is_Some (decode fr) <-> checked s = true.
Proof.
  intros N. assert (Low : In s (unreadOf fr)) by (rewrite N; by left). apply unreadOf_in in Low as [Low _].
  destruct (als162_shape w1 w2 free x19 Lf Bits) as (L & F & E).
  pose proof (heard_read fr _ Heard L E) as K. destruct (readBits fr) as [a|] eqn:R; [|rewrite N in K; cbn in K; unfold kMaxErasures in K; lia].
  destruct K as (U & M & A). rewrite (decode_passes _ _ R), U. rewrite N in *. clear R U.
  destruct (als162_decodes t summer Valid Year w1 w2 free x19 Lf) as (d0 & D0 & _).
  destruct (checked s) eqn:C.
  - pose proof (flip_checked _ s F L Low _ D0 C) as X. split; [done|]. intros _. exists d0.
    destruct (fillings_one s _ _ A ltac:(lia) F) as [-> | ->]; cbn [omap list_omap]; by rewrite D0, X.
  - destruct (flip_unchecked s w1 w2 free x19 Lf Low C) as (w1' & w2' & free' & x19' & Lf' & X).
    destruct (als162_decodes t summer Valid Year w1' w2' free' x19' Lf') as (d1 & D1 & _). rewrite <- X in D1.
    split; [|done]. intros [d P].
    destruct (fillings_one s _ _ A ltac:(lia) F) as [Y|Y]; rewrite Y in P; cbn [omap list_omap] in P; by rewrite D0, D1 in P.
Qed.

Lemma erased_many : (2 < length (unreadOf fr))%nat -> decode fr = None.
Proof.
  intros N. destruct (als162_shape w1 w2 free x19 Lf Bits) as (L & F & E).
  pose proof (heard_read fr _ Heard L E) as K. unfold decode. destruct (readBits fr); [|done].
  destruct K as (_ & M & _). unfold kMaxErasures in M. lia.
Qed.
End Erasures.

(** ** Lemmas: the decoder's state *)

Definition notTime (c : Call) : Prop := match c with OnTime _ => False | _ => True end.
Definition grows : Impl -> Impl -> Prop := grew calls notTime.
Lemma als_grows_lock s l : grows s (setLockState s l).
Proof. unfold setLockState. case_bool_decide; [by apply grew_refl|by eapply grew_call]. Qed.
Lemma als_lock_fields s l :
  let s' := setLockState s l in
  hist s' = hist s /\ count s' = count s /\ voted s' = voted s /\ carry s' = carry s /\ voter s' = voter s /\ lockState s' = l.
Proof. cbv zeta. unfold setLockState. case_bool_decide as D; [by subst|done]. Qed.
Lemma als_demote_fields s :
  count (demote s) = count s /\ voter (demote s) = voter s /\ haveVoted (voted (demote s)) = false /\
  lockState (demote s) <> LockLocked /\ grows s (demote s).
Proof.
  unfold demote. set (s1 := withVoted s _). assert (V : haveVoted (voted s1) = false) by done.
  assert (G : grows s s1) by by apply grew_refl. assert (E : count s1 = count s /\ voter s1 = voter s) by done.
  clearbody s1. destruct E as [<- <-]. case_bool_decide as D; [|done].
  destruct (als_lock_fields s1 LockAcquiring) as (_ & -> & -> & _ & -> & ->).
  repeat (split; [done|]). eapply grew_trans; [exact G|apply als_grows_lock].
Qed.

(** A second's name is one there is; the frame's index stays in its slots. *)
Definition named (r : SecRec) : Prop := -1 <= key r <= 58.
Definition countOk (c : Count) : Prop := 0 <= sofNext c <= 59 /\ length (frame c) = 60%nat.
Lemma noCount_ok : countOk noCount.
Proof. by repeat split. Qed.

Section Labels.
Context `{Pow} (cfg : Config) (sr : Z).

(** A standing label is the locked voter's, and there is no lock without one. *)
Definition labelOk (s : Impl) : Prop :=
  if haveVoted (voted s) then
    lockState s = LockLocked /\ l_locked (lockVerdict cfg (voter s)) = true /\
    votedTime (voted s) = votedTimestamp cfg (voter s)
  else lockState s <> LockLocked.
Definition Inv (s : Impl) : Prop := countOk (count s) /\ labelOk s.
(** One step's work so far. *)
Definition keeps (s s' : Impl) : Prop := Inv s' /\ grows s s'.

Lemma keeps_refl s : Inv s -> keeps s s.
Proof. split; [done|by apply grew_refl]. Qed.
Lemma keeps_trans s1 s2 s3 : keeps s1 s2 -> (Inv s2 -> keeps s2 s3) -> keeps s1 s3.
Proof. intros [I G] K. destruct (K I) as [I' G']. split; [done|by eapply grew_trans]. Qed.
Lemma keeps_count s c : Inv s -> countOk c -> keeps s (withCount s c).
Proof. intros [_ L] C. split; [by split|by apply grew_refl]. Qed.
Lemma als_demote_keeps s : Inv s -> keeps s (demote s).
Proof.
  intros [C _]. destruct (als_demote_fields s) as (E1 & E2 & E3 & E4 & G). split; [|done].
  split; [by rewrite E1|]. unfold labelOk. by rewrite E3.
Qed.
Lemma anchor_keeps s sof r : Inv s -> 0 <= sof <= 58 -> keeps s (anchorAt s sof r).
Proof. intros I S. apply keeps_count; [done|]. split; [cbn; lia|done]. Qed.
Lemma forget_keeps s : Inv s -> keeps s (forgetFrame s).
Proof. intros I. split; [exact I|by apply grew_refl]. Qed.
Lemma findAnchor_keeps s r : Inv s -> named r -> keeps s (findAnchor s r).
Proof.
  intros I N. unfold findAnchor. destruct (_ || _); [by apply keeps_refl|].
  cbv zeta. destruct (_ && (key r =? _)) eqn:E.
  { apply andb_true_iff in E as [E _]. apply andb_true_iff in E as [E _]. zbool. apply anchor_keeps; [done|unfold named in N; lia]. }
  clear E. destruct (_ && _ && _); [by apply anchor_keeps; [|lia]|by apply keeps_refl].
Qed.
Lemma checkName_keeps s r sof : Inv s -> named r -> 0 <= sof <= 59 ->
  let '(s', sof') := checkName s r sof in keeps s s' /\ 0 <= sof' <= 59 /\ (anchored (count s) = true -> anchored (count s') = true).
Proof.
  intros I N S. pose proof I as [[C1 C2] _]. unfold checkName. cbv zeta. unfold named in N.
  destruct (sof <? 59).
  - destruct ((0 <=? key r) && _) eqn:K; [|split; [by apply keeps_count|by split]].
    destruct (2 <=? _); [|split; [by apply keeps_count|by split]].
    apply andb_true_iff in K as [K _]. zbool. split; [|split; [lia|done]].
    match goal with |- keeps _ (anchorAt (forgetFrame (demote ?x)) _ _) => apply (keeps_trans _ x) end; [by apply keeps_count|].
    intros I1. eapply keeps_trans; [by apply als_demote_keeps|]. intros I2.
    eapply keeps_trans; [by apply forget_keeps|]. intros I3. apply anchor_keeps; [done|lia].
  - destruct (_ && _); (split; [|by split]); [by apply keeps_count|by apply keeps_refl].
Qed.
Lemma als_countSecond_keeps s r : Inv s -> named r -> let '(s', sof) := countSecond s r in
  keeps s s' /\ -1 <= sof <= 59.
Proof.
  intros I N. unfold countSecond. pose proof (findAnchor_keeps s r I N) as K1. set (s1 := findAnchor s r) in *. clearbody s1.
  destruct (anchored (count s1)) eqn:A; [|split; [done|lia]]. pose proof K1 as [[[C1 C2] L1] _].
  set (s2 := if sofNext (count s1) =? 0 then _ else _).
  assert (K2 : keeps s s2) by (unfold s2; destruct (sofNext (count s1) =? 0);
    [eapply keeps_trans; [exact K1|]; intros; by apply keeps_count|exact K1]). clearbody s2.
  pose proof (checkName_keeps s2 r (sofNext (count s1)) (proj1 K2) N C1) as K3.
  destruct (checkName s2 r _) as [s3 sof]. destruct K3 as (K3 & S & _). split; [|lia].
  eapply keeps_trans; [exact K2|]. intros _. eapply keeps_trans; [exact K3|]. intros I3.
  pose proof I3 as [[D1 D2] _]. unfold fileSecond. destruct (_ && _); apply keeps_count; try done.
  all: split; [|cbn; by rewrite ?length_insert]; cbn; unfold cmod; rewrite Z.rem_mod_nonneg by lia; dlia.
Qed.

Lemma als_vote_fields (s : Impl) (f : Frame) (keep : bool) :
  let fs := addFrame cfg (if keep then voter s else reset (voter s)) f in
  let s' := vote cfg s f keep in
  count s' = count s /\ voter s' = fs /\ calls s' = calls s /\
  (l_locked (lockVerdict cfg fs) = true -> votedTime (voted s') = votedTimestamp cfg fs).
Proof.
  cbv zeta. unfold vote. destruct (l_locked _) eqn:E; cbn; rewrite ?E; repeat split; try done.
  intros _. apply votedFields_timestamp.
Qed.

Lemma als_finalize_keeps s period : countOk (count s) -> keeps s (finalizeFrame cfg sr s period).
Proof.
  intros C. assert (R : forall s' m mm run, Inv s' -> grows s s' -> keeps s (recount s' m mm run)).
  { intros s' m mm run [C' L'] G. split; [by split|]. eapply grew_trans; [exact G|by apply grew_refl]. }
  assert (D : forall s', countOk (count s') -> grows s s' -> Inv (demote s') /\ grows s (demote s')).
  { intros s' C' G. destruct (als_demote_fields s') as (E1 & E2 & E3 & E4 & E5). split; [|by eapply grew_trans].
    split; [by rewrite E1|]. unfold labelOk. by rewrite E3. }
  unfold finalizeFrame. cbv zeta. set (contradicted := 1 <? _). set (confirmed := _ && negb contradicted). clearbody confirmed.
  destruct (contradicted || _).
  { destruct (D s C) as [I G]; [by apply grew_refl|]. by apply R. }
  set (dec := if confirmed then _ else _). set (s1 := withCarry _ _).
  assert (G1 : grows s s1) by by eapply grew_call. assert (C1 : count s1 = count s) by done. clearbody s1.
  set (keep := consecutive _ _ _). set (f := utcFrame _). set (leapNext := match dec with Some _ => _ | None => _ end).
  destruct (als_vote_fields s1 f keep) as (V1 & V2 & V3 & V4). set (s2 := vote cfg s1 f keep) in *.
  assert (G2 : grows s s2) by (eapply grew_trans; [exact G1|by apply grew_refl]). rewrite <- V2 in V4.
  clearbody s2 leapNext. assert (C2 : countOk (count s2)) by by rewrite V1, C1.
  destruct (D s2 C2 G2) as [D1 D2]. apply R; destruct (_ && confirmed && _) eqn:Lk; try done.
  - apply andb_true_iff in Lk as [Lk _]. apply andb_true_iff in Lk as [Lk _].
    destruct (als_lock_fields (withVoted s2 (MkVoted true (votedTime (voted s2)) (votedQuality (voted s2)))) LockLocked)
      as (_ & E1 & E2 & _ & E3 & E4).
    split; [by rewrite E1|]. unfold labelOk. rewrite E2, E3, E4. cbn. auto.
  - eapply grew_trans; [exact G2|]. eapply grew_trans; [|apply als_grows_lock]. by apply grew_refl.
Qed.

(** A label is the locked voter's, for a second of the minute. *)
Definition backed (s : Impl) (c : Call) : Prop :=
  match c with
  | OnTime t => 0 <= ti_second t < 60 /\ l_locked (lockVerdict cfg (voter s)) = true /\
                ti_fields t = votedTimestamp cfg (voter s)
  | _ => True
  end.

Lemma als_handle_inv s r measured trace period : Inv s -> named r ->
  let s' := handleSecond cfg sr s r measured trace period in
  Inv s' /\ exists new, calls s' = (calls s ++ new)%list /\ Forall (backed s') new.
Proof.
  intros I N. cbv zeta. unfold handleSecond. pose proof (als_countSecond_keeps s r I N) as K.
  destruct (countSecond s r) as [s1 sof]. destruct K as [[I1 G1] S].
  set (s2 := call s1 _). assert (K2 : keeps s s2) by (split; [exact I1|eapply grew_trans; [exact G1|by eapply grew_call]]).
  set (s3 := if _ && (sof =? 59) then _ else _).
  assert (K3 : keeps s s3).
  { unfold s3. destruct (_ && _); [|exact K2]. eapply keeps_trans; [exact K2|]. intros [C _]. by apply als_finalize_keeps. }
  clearbody s3. destruct K3 as [I3 G3]. pose proof I3 as [_ L3].
  destruct (_ && _ && _) eqn:Lab.
  - split; [exact I3|]. destruct G3 as (n & E & F). exists (n ++ [OnTime (MkTimeInfo (votedTime (voted s3))
      (votedQuality (voted s3)) (edge r) (edgeExact r) sof)])%list. split; [cbn; by rewrite E, app_assoc|].
    apply Forall_app. split; [eapply Forall_impl; [exact F|by intros []]|].
    apply andb_true_iff in Lab as [Lab Hs]. apply andb_true_iff in Lab as [_ Hv]. zbool.
    unfold labelOk in L3. rewrite Hv in L3. destruct L3 as (_ & L31 & L32).
    repeat constructor; cbn; try done; lia.
  - split; [exact I3|]. eapply grew_weaken; [|exact G3]. by intros [].
Qed.

Lemma als_restart_keeps s : keeps s (restart s).
Proof.
  unfold restart. set (s1 := if bool_decide _ then _ else _).
  assert (K : lockState s1 <> LockLocked /\ grows s s1).
  { unfold s1. case_bool_decide as D; [|split; [done|by apply grew_refl]].
    destruct (als_lock_fields s LockAcquiring) as (_ & _ & _ & _ & _ & ->). split; [done|apply als_grows_lock]. }
  clearbody s1. destruct K as [L G]. split; [|eapply grew_trans; [exact G|by apply grew_refl]].
  split; [apply noCount_ok|exact L].
Qed.

Definition inputOk (i : Input) : Prop := match i with Second r _ _ _ => named r | Lost => True end.
Lemma als_input_inv s i : Inv s -> inputOk i ->
  let s' := input cfg sr s i in
  Inv s' /\ exists new, calls s' = (calls s ++ new)%list /\ Forall (backed s') new.
Proof.
  intros I N. destruct i as [r measured trace period|]; cbn [input].
  - by apply (als_handle_inv (noteSecond s r)).
  - destruct (als_restart_keeps s) as [I' G]. split; [exact I'|]. eapply grew_weaken; [|exact G]. by intros [].
Qed.
Lemma als_run_inv ins : forall s, Inv s -> Forall inputOk ins -> Inv (run cfg sr s ins).
Proof.
  induction ins as [|i ins IH]; intros s I F; [done|]. apply Forall_cons in F as [F1 F]. cbn. apply IH; [|done].
  by apply als_input_inv.
Qed.
Lemma als_running_inv : Inv running.
Proof. split; [apply noCount_ok|done]. Qed.
End Labels.

(** ** Properties *)

(** C25: the decoder tells the minute that was sent, or nothing. When every second of
    a frame was heard and each bit either read as ALS162 sends it or not read, what
    decodes is the minute sent, its summer time and its warning of a leap second,
    whatever the bits the time code leaves free. With every bit read it does decode;
    with one unread it decodes exactly when a check covers that bit, that is unless
    it is 1, 2, 7 to 16 or 19; with more than two unread it never does. *)
Theorem allouis_minute_or_nothing (fr : list SecRec) (t : TimeFields) (summer : bool) (w1 w2 x19 : Z) (free : list Z) :
  rangeValid t = true -> 2000 <= fst (fst (announcedDate (msOf t) summer)) <= 2099 ->
  length free = 10%nat -> Forall isBit (w1 :: w2 :: x19 :: free) ->
  heard fr (als162 t summer w1 w2 free x19) ->
  (forall d conf, decode fr = Some (d, conf) ->
     d_utc d = t /\ d_utcMs d = msOf t /\ d_cest d = summer /\ d_leapWarn d = ((w1 =? 1) || (w2 =? 1))) /\
  match unreadOf fr with
  | [] => is_Some (decode fr)
  | [s] => is_Some (decode fr) <-> checked s = true
  | [_; _] => True
  | _ => decode fr = None
  end.
Proof.
  intros V Y Lf B Hh. split.
  - intros d conf D. pose proof (erased_sound t summer V Y w1 w2 x19 free fr Lf B Hh d conf D) as E.
    destruct (als162_decodes t summer V Y w1 w2 free x19 Lf) as (d0 & D0 & R). by simplify_eq.
  - destruct (unreadOf fr) as [|s [|s2 [|s3 us]]] eqn:U; [|by apply (erased_one t summer V Y w1 w2 x19 free)|done|].
    + by apply (erased_whole t summer V Y w1 w2 x19 free).
    + apply (erased_many t summer V Y w1 w2 x19 free); try done. rewrite U. cbn. lia.
Qed.

(** no label without a locked vote. Whatever seconds and losses have reached the
    running decoder, in any order, at any strength and naming themselves anything,
    the count of seconds stays in the frame's slots, and every label the next one
    gives is for a second of the minute and carries the time the voter, locked,
    votes for. *)
Lemma allouis_labels_backed `{Pow} (cfg : Config) (sr : Z) (past : list Input) (i : Input) :
  Forall inputOk past -> inputOk i ->
  let s := run cfg sr running past in
  let s' := input cfg sr s i in
  countOk (count s') /\
  exists new, calls s' = (calls s ++ new)%list /\
    forall ti, In (OnTime ti) new ->
      0 <= ti_second ti < 60 /\ l_locked (lockVerdict cfg (voter s')) = true /\
      ti_fields ti = votedTimestamp cfg (voter s').
Proof.
  intros F N. cbv zeta. pose proof (als_run_inv cfg sr past running (als_running_inv cfg) F) as I.
  destruct (als_input_inv cfg sr _ i I N) as [[C _] (new & E & B)]. split; [exact C|].
  exists new. split; [exact E|]. intros ti Hi. rewrite Forall_forall in B.
  exact (B (OnTime ti) (proj2 (list_elem_of_In _ _) Hi)).
Qed.

(** ** Witnesses *)

(** 22:58 UTC of 30 June 2024, 00:58 of 1 July in France, with a leap second
    announced; second 21's bit unread. *)
Definition demoMinute : TimeFields := TF 58 22 182 24.
Definition demoFree : list Z := [0; 1; 0; 0; 1; 1; 0; 1; 0; 0].
Definition sent (t : TimeFields) : list Z := als162 t true 0 0 demoFree 0.
Definition sendSecond (start : Z) (weak : nat -> bool) (bits : list Z) (s : nat) : SecRec :=
  let e := start + 12000 * Z.of_nat s in
  MkSec e (d_of_Z e) true (s =? 59)%nat 1 (nth s bits 0) (if weak s then 0%D else 0.75%D)
        (if (s =? 59)%nat then -1 else Z.of_nat s) 20 20 20.
Definition demoFrame (weak : nat -> bool) : list SecRec := map (sendSecond 0 weak (sent demoMinute)) (seq 0 60).

Lemma sent_bits : Forall isBit (0 :: 0 :: 0 :: demoFree).
Proof. apply List.Forall_forall. unfold demoFree. cbn [In]. intros x Hx. unfold isBit. lia. Qed.
Definition heardb (fr : list SecRec) (bits : list Z) : bool :=
  forallb (fun s => read (secAt fr s) &&
    match bitOf (secAt fr s) with None => true | x => bool_decide (x = bits !! s) end) (seq 0 59).
Lemma heardb_ok fr bits : heardb fr bits = true -> heard fr bits.
Proof.
  unfold heardb. rewrite forallb_forall. intros F s S. specialize (F s ltac:(apply in_seq; lia)).
  apply andb_true_iff in F as [R B]. split; [exact R|]. destruct (bitOf _); [right|by left].
  by apply bool_decide_eq_true in B.
Qed.

Lemma allouis_minute_or_nothing_witness :
  exists d conf, decode (demoFrame (Nat.eqb 21)) = Some (d, conf) /\ d_utc d = demoMinute.
Proof.
  destruct (allouis_minute_or_nothing (demoFrame (Nat.eqb 21)) demoMinute true 0 0 0 demoFree) as [Right Known].
  - vm_compute. reflexivity.
  - vm_compute. split; discriminate.
  - reflexivity.
  - exact sent_bits.
  - apply heardb_ok. vm_compute. reflexivity.
  - assert (U : unreadOf (demoFrame (Nat.eqb 21)) = [21%nat]) by (vm_compute; reflexivity).
    rewrite U in Known. destruct (proj2 Known eq_refl) as [[d conf] E]. exists d, conf. split; [exact E|].
    by destruct (Right d conf E).
Defined.

(** The demonstration's minutes, two seconds of each unread. *)
Definition demoInput (i : Z) (s : nat) : Input :=
  let t := hostNowFields (msOf demoMinute + 60000 * i) in
  Second (sendSecond (720000 * i) (fun s => (s =? 40)%nat || (s =? 22)%nat) (sent t) s) true
         (fun _ => MkTrace [] []) 12000%D.
Definition demoInputs (n : nat) : list Input :=
  concat (map (fun i => map (demoInput (Z.of_nat i)) (seq 0 60)) (seq 0 n)).

(** Three minutes lock the decoder, and the fourth is labelled. *)
Example allouis_locks :
  let s := @run demoPow buildVoterConfig 12000 running (demoInputs 4) in
  lockState s = LockLocked /\
  exists q, last (calls s) = Some (OnTime (MkTimeInfo (TF 1 23 182 24) q 2868000 2868000 59)).
Proof. vm_compute. split; [done|]. by eexists. Qed.

Lemma allouis_labels_backed_witness :
  let s := @run demoPow buildVoterConfig 12000 running (demoInputs 1) in
  countOk (count (@input demoPow buildVoterConfig 12000 s (demoInput 1 0))).
Proof.
  assert (K : forall i s, (s < 60)%nat -> inputOk (demoInput i s)).
  { intros i s S. unfold inputOk, demoInput, named, sendSecond. cbn [key]. destruct (Nat.eqb_spec s 59); lia. }
  apply (@allouis_labels_backed demoPow buildVoterConfig 12000 (demoInputs 1) (demoInput 1 0)).
  - apply Forall_forall. intros x Hx. apply list_elem_of_In, in_concat in Hx as (l & Hl & Hx).
    apply in_map_iff in Hl as (i & <- & _). apply in_map_iff in Hx as (s & <- & S). apply K. apply in_seq in S. lia.
  - apply K. lia.
Defined.
