(* ===== verification/AllouisSignal.v ===== *)
(** * The ALS162 signal chain (src/clock/AllouisDecoder.cpp)
    Samples to seconds: the carrier, its phase, the fold that finds the second, and
    once per second the phase against its quiet stretches, the data excursions, the
    position code and the timing; the seconds go to Allouis. A sample and a second
    are separate steps, as in [feedSteady]'s last line: seconds are processed while
    one is due. Every read of a ring or of a second's phase is checked: one that is
    not there is [None], which the theorems show never happens. *)

From Stdlib Require Import ZArith Lia List Bool Floats.
From stdpp Require Import base list sorting.
From S2P Require Import Prelude Doubles Rounding ClockTypes TimeFrameVoter Signals Allouis.

#[local] Open Scope Z_scope.

(** ** Constants *)

Definition kSubSec : double := 0.025%D.
Definition kCodeSubs : Z := 32.
Definition kCodeStart : double := 0.2%D.
Definition kQuietFrom : double := 0.905%D.
Definition kQuietTo : double := 0.995%D.
Definition kSecondAfterStartSec : double := 0.05048%D.
Definition kRefHz : double := 1%D.
Definition kFreqGain : double := 0.2%D.
Definition kCarrierGone : double := (1 / 3)%D.
Definition kFoldRateHz : Z := 1000.
Definition kAcqSeconds : Z := 6.
Definition kAcqRatio : double := 1.25%D.
Definition kAcqAgree : Z := 2.
Definition kMaxUnnamedSeconds : Z := 30.
Definition kSearchSec : double := 0.004%D.
Definition kSearchWarmSec : double := 0.0015%D.
Definition kTimeMinSig : double := 5%D.
Definition kTrkOutlierSec : double := 0.002%D.
Definition kTrkAcqOutlierSec : double := 0.010%D.
Definition kMaxBlindSeconds : Z := 60.
Definition kKeyMinSig : double := 6%D.
Definition kKeyMarginSig : double := 4%D.
Definition kAmpGain : double := 0.05%D.

(** The phase's change over each 25 ms of 200-1000 ms, by second. *)
Definition kCodes : list (list Z) :=
  [[0; 1; (-1); 0; 0; 0; 1; (-1); 0; 0; 0; 0; 0; 0; 0; (-1); 0; 2; 0; (-2); 0; 2; 0; (-2); 0; 1; 0; 0; 0; 0; 0; 0];
   [1; 0; (-2); 0; 2; (-1); (-1); 1; 1; (-1); (-1); 1; 0; 1; 0; (-2); 1; 0; 0; 1; (-2); 0; 1; 0; 1; (-1); (-1); 1; 0; 0; 0; 0];
   [1; (-1); 0; 0; (-1); 2; 0; (-1); (-1); 0; 2; (-1); (-1); 2; 0; (-1); (-1); 0; 2; (-1); (-1); 2; 0; (-1); (-1); 0; 1; 0; 0; 0; 0; 0];
   [1; (-1); (-1); 1; 1; 0; (-1); (-1); 1; 0; (-1); 1; 0; 0; 0; 1; 0; (-2); 1; 1; (-1); (-1); 0; 1; 1; (-1); (-1); 1; 0; 0; 0; 0];
   [1; (-1); 0; 1; (-2); 0; 1; 0; 1; 0; (-1); (-1); 0; 2; 0; (-1); (-1); 0; 1; 1; (-1); (-1); 2; (-1); (-1); 1; 0; 0; 0; 0; 0; 0];
   [1; (-1); (-1); 1; 1; 0; (-1); (-1); 0; 1; 0; 1; 0; (-2); 0; 2; 0; (-2); 1; 1; (-1); (-1); 0; 2; (-1); (-1); 1; 0; 0; 0; 0; 0];
   [0; 0; 0; 0; 1; 0; (-1); 0; (-1); 0; 1; 1; 0; (-1); (-1); 1; 0; 0; 0; (-1); 1; 1; 0; (-1); (-1); 0; 1; 0; 0; 0; 0; 0];
   [0; 0; 1; 0; (-1); 0; 0; 0; 0; (-1); 0; 1; 0; 0; 0; 0; 0; 0; 0; 0; 0; 1; (-1); (-1); 2; (-1); (-1); 1; 0; 0; 0; 0];
   [1; (-1); 0; 1; (-2); 1; 0; (-1); 1; 1; (-1); (-1); 1; 1; 0; (-1); (-1); 0; 1; 1; 0; (-1); (-1); 0; 1; 0; 0; 0; 0; 0; 0; 0];
   [0; 1; 0; (-1); (-1); 0; 1; 1; 0; (-1); (-1); 0; 2; (-1); (-1); 1; 1; 0; (-1); (-1); 1; 1; (-2); 0; 1; 0; 0; 0; 0; 0; 0; 0];
   [0; 1; 0; (-1); (-1); 1; 1; (-2); 1; 0; (-1); 1; 0; 1; (-1); 0; 1; (-1); 0; (-1); 0; 2; (-1); 0; 0; (-1); 1; 0; 0; 0; 0; 0];
   [0; 1; 0; (-1); 0; 0; (-1); 0; 2; (-1); (-1); 1; 1; 0; (-1); 0; (-1); 0; 1; 0; 0; 0; 0; 0; 1; (-1); (-1); 1; 0; 0; 0; 0];
   [1; (-1); (-1); 2; 0; (-1); (-1); 0; 1; 1; (-1); 0; 1; (-2); 0; 1; 1; (-1); (-1); 1; 0; 0; 1; 0; (-1); (-1); 0; 1; 0; 0; 0; 0];
   [1; 0; (-2); 1; 1; (-2); 1; 0; (-1); 2; 0; (-2); 0; 1; 1; (-1); 0; 0; (-1); 1; 1; (-1); (-1); 2; 0; (-2); 0; 1; 0; 0; 0; 0];
   [0; 1; (-1); (-1); 1; 1; 0; (-1); 0; (-1); 0; 2; 0; (-1); 0; (-1); 0; 2; (-1); 0; 1; (-2); 0; 2; (-1); (-1); 1; 0; 0; 0; 0; 0];
   [0; 0; 1; 0; (-2); 1; 1; (-1); 0; 0; (-1); 1; 0; (-1); 1; 0; 0; 0; 0; 1; 0; (-2); 1; 1; (-1); (-1); 0; 1; 0; 0; 0; 0];
   [1; 0; (-2); 0; 2; (-1); 0; 1; (-1); 0; 0; (-1); 1; 1; (-1); 0; 0; (-1); 1; 1; (-2); 1; 1; (-2); 0; 1; 0; 0; 0; 0; 0; 0];
   [1; (-1); 0; 1; (-2); 0; 2; (-1); 0; 1; (-1); 0; 0; (-1); 0; 2; 0; (-1); 0; (-1); 1; 0; (-1); 1; 0; 0; 0; 0; 0; 0; 0; 0];
   [1; 0; (-1); 0; (-1); 0; 1; 1; (-1); 0; 1; (-2); 0; 2; (-1); (-1); 1; 0; 0; 1; (-1); (-1); 1; 0; 0; 0; 0; 0; 0; 0; 0; 0];
   [1; (-1); (-1); 1; 0; 1; 0; (-2); 0; 1; 0; 1; (-1); 0; 1; (-2); 0; 2; (-1); 0; 1; (-2); 0; 2; (-1); (-1); 1; 0; 0; 0; 0; 0];
   [0; 0; 1; (-1); (-1); 2; (-1); 0; 1; (-1); 0; (-1); 0; 1; 1; (-1); 0; 1; (-2); 1; 1; (-1); 0; (-1); 0; 1; 0; 0; 0; 0; 0; 0];
   [1; (-1); (-1); 2; (-1); 0; 0; (-1); 1; 0; 1; 0; (-1); (-1); 0; 2; 0; (-2); 0; 2; 0; (-1); 0; (-1); 1; 0; (-1); 1; 0; 0; 0; 0];
   [0; 0; 0; 0; 1; 0; (-1); 0; 0; 0; 0; 0; (-1); 1; 1; (-2); 1; 0; 0; 1; (-1); (-1); 0; 2; 0; (-2); 0; 1; 0; 0; 0; 0];
   [0; 0; 0; 0; 1; (-1); 0; 0; 0; 1; (-2); 1; 0; (-1); 2; 0; (-1); (-1); 1; 1; (-2); 1; 1; (-1); 0; (-1); 0; 1; 0; 0; 0; 0];
   [1; 0; (-2); 0; 1; 0; 0; 0; 1; 0; (-2); 0; 2; 0; (-1); 0; 0; (-1); 1; 0; 0; 1; (-2); 1; 1; (-2); 0; 1; 0; 0; 0; 0];
   [1; (-1); 0; 1; (-2); 0; 2; (-1); 0; 0; 0; 1; (-2); 0; 2; (-1); (-1); 1; 0; 1; (-1); 0; 1; (-1); (-1); 0; 1; 0; 0; 0; 0; 0];
   [1; 0; (-2); 0; 1; 1; (-1); (-1); 1; 0; 1; 0; (-2); 0; 2; 0; (-1); (-1); 1; 0; (-1); 1; 1; 0; (-2); 0; 1; 0; 0; 0; 0; 0];
   [1; 0; (-1); (-1); 1; 1; (-2); 1; 0; 0; 1; (-2); 0; 1; 0; 1; (-1); (-1); 2; 0; (-1); 0; (-1); 1; 1; (-2); 0; 1; 0; 0; 0; 0];
   [0; 1; (-1); (-1); 2; 0; (-2); 0; 2; 0; (-1); 0; 0; 0; 0; (-1); 0; 2; (-1); (-1); 1; 0; 1; (-1); (-1); 1; 0; 0; 0; 0; 0; 0];
   [1; 0; (-2); 0; 2; (-1); (-1); 1; 0; 1; 0; (-2); 0; 2; 0; (-2); 1; 0; 0; 1; (-2); 0; 1; 1; 0; (-2); 0; 1; 0; 0; 0; 0];
   [0; 1; (-1); 0; 1; (-2); 0; 1; 1; 0; (-2); 1; 1; (-1); 0; (-1); 0; 2; 0; (-1); (-1); 0; 2; (-1); (-1); 1; 0; 0; 0; 0; 0; 0];
   [0; 0; 1; 0; (-2); 1; 1; (-1); (-1); 0; 1; 1; 0; (-2); 0; 1; 0; 0; 0; 1; 0; (-2); 1; 0; 0; 0; (-1); 1; 0; 0; 0; 0];
   [1; 0; (-1); 0; (-1); 1; 0; (-1); 1; 0; 0; 1; (-1); 0; 1; (-1); 0; 0; 0; (-1); 0; 1; 1; 0; (-2); 0; 1; 0; 0; 0; 0; 0];
   [0; 0; 0; 0; 1; 0; (-2); 0; 2; (-1); (-1); 2; 0; (-1); 0; 0; 0; (-1); 1; 1; (-1); 0; 0; 0; (-1); 0; 1; 0; 0; 0; 0; 0];
   [0; 0; 0; 1; 0; (-1); 0; 0; (-1); 0; 1; 0; 1; 0; (-2); 1; 0; 0; 1; (-1); 0; (-1); 0; 1; 1; (-1); (-1); 1; 0; 0; 0; 0];
   [1; (-1); 0; 1; (-1); 0; 0; 0; (-1); 0; 2; (-1); 0; 0; 0; 0; (-1); 1; 0; 0; 0; 1; (-1); 0; 0; (-1); 1; 0; 0; 0; 0; 0];
   [1; (-1); (-1); 1; 0; 1; (-1); (-1); 1; 1; (-1); (-1); 1; 0; 1; 0; (-2); 1; 0; 0; 1; (-1); (-1); 0; 1; 0; 0; 0; 0; 0; 0; 0];
   [0; 1; 0; (-2); 1; 1; (-1); 0; 0; 0; (-1); 0; 2; (-1); (-1); 1; 1; 0; (-2); 0; 1; 1; (-1); (-1); 1; 0; 0; 0; 0; 0; 0; 0];
   [0; 1; 0; (-1); (-1); 1; 1; (-2); 0; 2; (-1); (-1); 1; 1; (-1); 0; 1; (-1); 0; (-1); 0; 2; (-1); (-1); 1; 0; 0; 0; 0; 0; 0; 0];
   [0; 1; 0; (-1); 0; 0; (-1); 0; 2; (-1); (-1); 1; 1; (-1); (-1); 1; 1; 0; (-1); 0; 0; 0; 0; 0; (-1); 0; 1; 0; 0; 0; 0; 0];
   [0; 1; 0; (-1); (-1); 1; 1; (-2); 1; 1; (-1); 0; (-1); 0; 2; (-1); (-1); 1; 0; 1; 0; (-2); 1; 0; (-1); 1; 0; 0; 0; 0; 0; 0];
   [1; 0; (-1); (-1); 1; 0; (-1); 2; 0; (-1); (-1); 1; 1; (-2); 0; 2; (-1); (-1); 2; 0; (-2); 0; 2; 0; (-1); (-1); 0; 1; 0; 0; 0; 0];
   [1; 0; (-1); 0; (-1); 0; 2; 0; (-2); 0; 2; (-1); 0; 1; (-1); 0; 0; 0; 0; (-1); 1; 0; (-1); 1; 1; (-1); (-1); 1; 0; 0; 0; 0];
   [0; 1; (-1); (-1); 2; 0; (-2); 0; 2; (-1); 0; 0; 0; 0; 0; 1; (-2); 1; 0; (-1); 1; 0; 0; 0; 1; (-1); (-1); 1; 0; 0; 0; 0];
   [0; 1; 0; (-1); 0; 0; (-1); 1; 1; (-2); 1; 0; (-1); 2; 0; (-2); 0; 1; 0; 0; 0; 0; 0; 1; (-1); (-1); 1; 0; 0; 0; 0; 0];
   [1; (-1); (-1); 1; 1; (-1); (-1); 2; 0; (-2); 0; 2; (-1); (-1); 1; 1; 0; (-2); 1; 1; (-2); 0; 2; 0; (-2); 0; 1; 0; 0; 0; 0; 0];
   [0; 0; 1; 0; (-2); 0; 1; 0; 1; 0; (-2); 1; 0; (-1); 2; (-1); 0; 1; (-1); (-1); 1; 1; (-2); 1; 1; (-2); 0; 1; 0; 0; 0; 0];
   [1; 0; (-1); (-1); 1; 0; 0; 1; (-2); 1; 0; (-1); 2; 0; (-2); 1; 0; (-1); 2; 0; (-2); 1; 0; 0; 1; (-2); 0; 1; 0; 0; 0; 0];
   [1; (-1); (-1); 2; (-1); (-1); 2; 0; (-2); 0; 2; 0; (-1); 0; 0; 0; (-1); 1; 1; (-2); 1; 0; (-1); 1; 1; (-1); (-1); 1; 0; 0; 0; 0];
   [0; 0; 1; 0; (-2); 0; 1; 0; 1; (-1); 0; 0; 0; 0; 0; 1; (-1); 0; 0; (-1); 1; 1; (-1); 0; (-1); 0; 1; 0; 0; 0; 0; 0];
   [1; (-1); (-1); 1; 0; 0; 0; 1; (-1); 0; 1; (-1); (-1); 0; 2; 0; (-2); 1; 0; 0; 0; (-1); 1; 0; 0; 0; 0; 0; 0; 0; 0; 0];
   [1; 0; (-1); (-1); 1; 1; (-1); 0; 0; 0; 0; (-1); 1; 0; (-1); 2; (-1); (-1); 2; 0; (-1); (-1); 1; 1; (-1); (-1); 0; 1; 0; 0; 0; 0];
   [0; 1; 0; (-1); (-1); 0; 2; 0; (-2); 0; 1; 1; (-1); (-1); 1; 1; 0; (-1); 0; (-1); 1; 0; (-1); 1; 1; (-1); (-1); 1; 0; 0; 0; 0];
   [1; 0; (-1); (-1); 0; 1; 1; 0; (-2); 1; 0; 0; 0; 0; 0; 0; 0; (-1); 2; (-1); 0; 0; 0; 0; (-1); 1; 0; 0; 0; 0; 0; 0];
   [0; 0; 1; (-1); 0; 1; (-2); 0; 2; (-1); (-1); 2; (-1); 0; 0; 0; 0; (-1); 2; 0; (-1); 0; (-1); 1; 0; (-1); 1; 0; 0; 0; 0; 0];
   [0; 0; 0; 0; 0; 0; 0; 1; (-1); (-1); 2; 0; (-2); 0; 1; 0; 0; 1; (-1); 0; 0; (-1); 2; (-1); 0; 0; (-1); 1; 0; 0; 0; 0];
   [0; 0; 1; 0; (-2); 1; 0; 0; 1; (-1); (-1); 1; 0; 0; 1; (-2); 1; 1; (-1); (-1); 0; 1; 0; 1; 0; (-2); 0; 1; 0; 0; 0; 0];
   [1; 0; (-1); 0; (-1); 1; 0; (-1); 2; (-1); (-1); 2; (-1); (-1); 2; (-1); 0; 1; (-1); (-1); 0; 1; 0; 0; 1; (-1); (-1); 1; 0; 0; 0; 0];
   [1; 0; (-2); 0; 2; 0; (-2); 0; 2; 0; (-2); 0; 2; 0; (-2); 0; 2; 0; (-2); 0; 1; 0; 0; 0; 0; 0; 0; 0; 0; 0; 0; 0];
   [0; 0; 0; 0; 0; 0; 0; 0; 0; 0; 0; 0; 0; 0; 0; 0; 0; 0; 0; 0; 0; 0; 0; 0; 0; 0; 0; 0; 0; 0; 0; 0]].

(** ** Data *)

(** The carrier's phase reference and what follows the carrier by it. *)
Record Carrier := MkCarrier {
  refRe : double; refIm : double; freqCount : Z; freqPrevRe : double; freqPrevIm : double;
  carrierLevel : double; carrierPresent : bool
}.
Record Rings := MkRings { yRing : list double; zRe : list double; zIm : list double; yStart : Z }.
(** The acquisition fold. *)
Record Fold := MkFold {
  foldSlots : list (list double); foldCur : list double; foldSlotsN : Z; foldSlotNext : Z; foldPos : Z;
  foldCount : Z; foldAcc : double; foldBlockStart : Z; acqAgree : Z; acqLast : Z; acqSign : Z; foldFresh : Z
}.
Record Timing := MkTiming {
  segValid : bool; segEdge : double; trk : EdgeTracker; blindSeconds : Z; unnamedRun : Z;
  timing : bool; lastTimeSig : double; amp : double; ampHave : bool; polarity : Z
}.
(** [tail] is what Allouis keeps. *)
Record Sig := MkSig {
  searching : bool; samplesConsumed : Z; search : Search; live : Live; osc : Osc; carrier : Carrier;
  rings : Rings; fold : Fold; tim : Timing; tail : Impl
}.
Definition withSearch (s : Sig) (g : Search) : Sig :=
  MkSig (searching s) (samplesConsumed s) g (live s) (osc s) (carrier s) (rings s) (fold s) (tim s) (tail s).
Definition withFold (s : Sig) (f : Fold) : Sig :=
  MkSig (searching s) (samplesConsumed s) (search s) (live s) (osc s) (carrier s) (rings s) f (tim s) (tail s).
Definition withTim (s : Sig) (t : Timing) : Sig :=
  MkSig (searching s) (samplesConsumed s) (search s) (live s) (osc s) (carrier s) (rings s) (fold s) t (tail s).
Definition withRings (s : Sig) (r : Rings) : Sig :=
  MkSig (searching s) (samplesConsumed s) (search s) (live s) (osc s) (carrier s) r (fold s) (tim s) (tail s).
Definition withTail (s : Sig) (w : Impl) : Sig :=
  MkSig (searching s) (samplesConsumed s) (search s) (live s) (osc s) (carrier s) (rings s) (fold s) (tim s) w.
Definition withSegEdge (s : Sig) (e : double) : Sig :=
  let t := tim s in
  withTim s (MkTiming (segValid t) e (trk t) (blindSeconds t) (unnamedRun t) (timing t) (lastTimeSig t)
               (amp t) (ampHave t) (polarity t)).

(** ** The broadcast's phase *)

(** The data excursion's phase [t] seconds into it. *)
Definition excursion (t : double) : double :=
  if (t <? 0)%D || (4 * kSubSec <=? t)%D then 0%D
  else
    let u := (t / kSubSec)%D in
    if (u <? 1)%D then u else if (u <? 3)%D then (2 - u)%D else (u - 4)%D.
(** Second [s]'s position code's phase [t] seconds into the second. *)
Definition codePhase (s : nat) (t : double) : double :=
  if (t <? kCodeStart)%D || (kCodeStart + d_of_Z kCodeSubs * kSubSec <=? t)%D then 0%D
  else
    let u := ((t - kCodeStart) / kSubSec)%D in
    let k := d2ll u in
    let c := nth s kCodes [] in
    let ph := fold_left (fun ph i => (ph + d_of_Z (nth i c 0%Z))%D) (seq 0 (Z.to_nat k)) 0%D in
    (ph + d_of_Z (nth (Z.to_nat k) c 0%Z) * (u - d_of_Z k))%D.

Section Chain.
(** [fNominal] is the carrier's offset the decoder is made with. *)
Context `{Libm} `{Pow} (cfg : Config) (sr : Z) (fNominal : double).

(** ** Templates, at the input rate and at the fold's *)

Definition nData : Z := spanOf sr (4 * kSubSec)%D.
Definition tri : list double :=
  map (fun n => fround (lm_sin (excursion (d_of_Z (Z.of_nat n) / d_of_Z sr)%D))) (seq 0 (Z.to_nat nData)).
Definition energy (l : list double) : double := fold_left (fun e v => e + v * v)%D l 0%D.
Definition triE : double := energy tri.
Definition codeOff : Z := spanOf sr kCodeStart.
Definition nCode : Z := spanOf sr (d_of_Z kCodeSubs * kSubSec)%D.
Definition codeV (s : nat) : list double :=
  map (fun n => lm_sin (codePhase s (kCodeStart + d_of_Z (Z.of_nat n) / d_of_Z sr)%D)) (seq 0 (Z.to_nat nCode)).
Definition codeT (s : nat) : list double := map fround (codeV s).
Definition codeE (s : nat) : double := energy (codeV s).
Definition foldDecim : Z := Z.max 1 (dllround (d_of_Z sr / d_of_Z kFoldRateHz)%D).
Definition foldLen : Z := dllround (d_of_Z sr / d_of_Z foldDecim)%D.
Definition triD : list double :=
  map (fun i => lm_sin (excursion ((d_of_Z (Z.of_nat i) + 0.5) * d_of_Z foldDecim / d_of_Z sr)%D))
      (seq 0 (Z.to_nat (dllround (4 * kSubSec * d_of_Z sr / d_of_Z foldDecim)%D))).

(** ** Reset *)

Definition newFold : Fold :=
  MkFold (replicate (Z.to_nat kAcqSeconds) (replicate (Z.to_nat foldLen) 0%D)) (replicate (Z.to_nat foldLen) 0%D)
         0 0 0 0 0 (-1) 0 (-1) 1 0.
Definition restartAcquisition (s : Sig) : Sig :=
  let t := tim s in
  withFold (withTim s (MkTiming false 0 (trkReset (trk t)) 0 0 (timing t) (lastTimeSig t) (amp t) (ampHave t) (polarity t)))
           newFold.
Definition ringCap : nat := Z.to_nat (capOf (4 * sr)).
Definition construct : Sig :=
  MkSig true 0 (newSearch sr fNominal) (newLive sr) (newOsc fNominal) (MkCarrier 0 0 0 0 0 0 true)
    (MkRings (replicate ringCap 0%D) (replicate ringCap 0%D) (replicate ringCap 0%D) 0) newFold
    (MkTiming false 0 noTracker 0 0 false 0 1 false 1) (fresh LockNoSignal).
(** [reset]: the rings of the mixed baseband and whether the carrier was there
    are left as they are, and so are the voter's frames. *)
Definition resetTail (w : Impl) : Impl :=
  let w := dropAnchor (withHist w []) in
  setLockState (withCarry w (MkCarry None (lastLeapWarn (carry w)) 0)) LockNoSignal.
Definition reset (s : Sig) : Sig :=
  let g := search s in
  let o := osc s in
  let r := rings s in
  let s := restartAcquisition s in
  let t := tim s in
  MkSig true 0 (MkSearch (map binReset (bins g)) 0 0) (MkLive (map binReset (liveBins (live s))) 0)
    (MkOsc fNominal 1 0 (stepRe o) (stepIm o) 0)
    (MkCarrier 0 0 0 0 0 0 (carrierPresent (carrier s)))
    (MkRings (replicate ringCap 0%D) (zRe r) (zIm r) 0) (fold s)
    (MkTiming false 0 (trk t) 0 0 (timing t) 0 1 false 1) (resetTail (tail s)).

(** ** Sample by sample *)

Definition aRef : double := (1 - lm_exp (- (2) * kPi * kRefHz / d_of_Z sr))%D.
Definition newest (s : Sig) : Z := samplesConsumed s - 1.
Definition oldest (s : Sig) : Z :=
  Z.max (yStart (rings s)) (samplesConsumed s - Z.of_nat (length (yRing (rings s))) + 1).

Definition startRunning (s : Sig) (f : double) : Sig :=
  let r := rings s in
  MkSig false (samplesConsumed s) (search s) (live s) (tuned sr fNominal (osc s) f) (carrier s)
    (MkRings (yRing r) (zRe r) (zIm r) (samplesConsumed s)) (fold s) (tim s) (setLockState (tail s) LockAcquiring).
Definition feedAcquisition (s : Sig) (xr xi : double) : Sig :=
  let '(g, found) := searchStep sr fNominal (search s) xr xi in
  let s := withSearch s g in
  match found with Some f => startRunning s f | None => s end.

(** Once a second: the carrier's level, and the mixer after the reference. *)
Definition followCarrier (c : Carrier) (o : Osc) : Carrier * Osc :=
  if sr <=? freqCount c + 1 then
    let level := lm_hypot (refRe c) (refIm c) in
    let present := negb (0 <? carrierLevel c)%D || (kCarrierGone * carrierLevel c <=? level)%D in
    let level' :=
      if present then (if (0 <? carrierLevel c)%D then carrierLevel c + 0.1 * (level - carrierLevel c) else level)%D
      else carrierLevel c in
    let o :=
      if present && (negb (freqPrevRe c =? 0)%D || negb (freqPrevIm c =? 0)%D) then
        let cr := (refRe c * freqPrevRe c + refIm c * freqPrevIm c)%D in
        let ci := (refIm c * freqPrevRe c - refRe c * freqPrevIm c)%D in
        tuned sr fNominal o (f0 o + kFreqGain * lm_atan2 ci cr / (2 * kPi))%D
      else o in
    (MkCarrier (refRe c) (refIm c) 0 (refRe c) (refIm c) level' present, o)
  else
    (MkCarrier (refRe c) (refIm c) (freqCount c + 1) (freqPrevRe c) (freqPrevIm c) (carrierLevel c) (carrierPresent c), o).

(** ** The fold *)

(** The fold's correlation with the excursion at each lag. *)
Definition foldSum (slots : list (list double)) : list double :=
  fold_left (fun sum sl => map (fun '(a, b) => (a + b)%D) (combine sum sl)) slots (replicate (Z.to_nat foldLen) 0%D).
Definition foldCorr (slots : list (list double)) : list double :=
  let sum := foldSum slots in
  map (fun l => fold_left (fun v '(i, t) => (v + nth (Nat.modulo (l + i) (Z.to_nat foldLen)) sum 0 * t)%D) (imap pair triD) 0%D)
      (seq 0 (Z.to_nat foldLen)).
Definition lagApart (a b : Z) : Z := let d := Z.abs (a - b) in Z.min d (foldLen - d).
Definition bestLag (c : list double) : nat :=
  fold_left (fun best l => if (dabs (nth l c 0) >? dabs (nth best c 0))%D then l else best) (seq 1 (length c - 1)) 0%nat.
Definition restOf (c : list double) (best : nat) : double :=
  fold_left (fun rest l => if kFoldRateHz * 6 / 100 <? lagApart (Z.of_nat l) (Z.of_nat best) then dmax rest (dabs (nth l c 0%D)) else rest)
    (seq 0 (length c)) 0%D.

(** The samples of the ring put the other way round. *)
Fixpoint flipFrom (l : list double) (n : Z) (k : nat) : list double :=
  match k with
  | O => l
  | S k => flipFrom (ringPut l n (- nth (ringSlot l n) l 0)%D) (n + 1) k
  end.
(** The two loops that put the edge at the oldest whole second still in the ring:
    the ring is less than eight seconds long, and the fold's last second ended at
    the newest sample, so that neither turns more than eight times. *)
Fixpoint edgeBack (fuel : nat) (e old : double) : double :=
  match fuel with
  | O => e
  | S fuel => if (e - 0.1 * d_of_Z sr - d_of_Z sr >? old)%D then edgeBack fuel (e - d_of_Z sr)%D old else e
  end.
Fixpoint edgeOn (fuel : nat) (e old : double) : double :=
  match fuel with
  | O => e
  | S fuel => if (e - 0.1 * d_of_Z sr <? old)%D then edgeOn fuel (e + d_of_Z sr)%D old else e
  end.
Definition foundSecond (s : Sig) (blockStart : Z) (best : nat) (negative : bool) : Sig :=
  let t := tim s in
  let r := rings s in
  let '(pol, y) :=
    if negative then (- polarity t, flipFrom (yRing r) (oldest s) (Z.to_nat (samplesConsumed s - oldest s)))
    else (polarity t, yRing r) in
  let old := d_of_Z (oldest s) in
  let e := (d_of_Z blockStart + d_of_Z (Z.of_nat best) * d_of_Z foldDecim - 0.5)%D in
  withTim (withRings s (MkRings y (zRe r) (zIm r) (yStart r)))
    (MkTiming true (edgeOn 64 (edgeBack 64 e old) old) (trkReset (trk t)) 0 (unnamedRun t) (timing t)
       (lastTimeSig t) (amp t) (ampHave t) pol).

(** The fold is looked at once it is [kAcqSeconds] seconds no fold before it
    used. *)
Definition judgeFold (s : Sig) (blockStart : Z) : Sig :=
  let f := fold s in
  let agree n last sign :=
    MkFold (foldSlots f) (foldCur f) (foldSlotsN f) (foldSlotNext f) (foldPos f) (foldCount f) (foldAcc f)
           (foldBlockStart f) n last sign (foldFresh f) in
  if negb (carrierPresent (carrier s)) then withFold s (agree 0 (acqLast f) (acqSign f))
  else
    let c := foldCorr (foldSlots f) in
    let best := bestLag c in
    let rest := restOf c best in
    let peak := nth best c 0%D in
    let ratio := if (0 <? rest)%D then (dabs peak / rest)%D else 0%D in
    let sign := if (0 <=? peak)%D then 1 else -1 in
    let t := tim s in
    let s := withTim s (MkTiming (segValid t) (segEdge t) (trk t) (blindSeconds t) (unnamedRun t) (timing t) ratio
                          (amp t) (ampHave t) (polarity t)) in
    if (ratio <? kAcqRatio)%D then withFold s (agree 0 (acqLast f) (acqSign f))
    else
      let b := Z.of_nat best in
      let n := if (0 <? acqAgree f) && (lagApart b (acqLast f) <=? 2 * kFoldRateHz / 1000) && (sign =? acqSign f)
               then acqAgree f + 1 else 1 in
      if n <? kAcqAgree then withFold s (agree n b sign)
      else foundSecond (withFold s (agree 0 b sign)) blockStart best (peak <? 0)%D.

Definition foldStep (s : Sig) (y : double) : Sig :=
  let f := fold s in
  let '(start, pos, acc, cnt) :=
    if foldBlockStart f <? 0 then (newest s, 0, 0%D, 0) else (foldBlockStart f, foldPos f, foldAcc f, foldCount f) in
  let put cur pos acc cnt slots n next start fresh :=
    withFold s (MkFold slots cur n next pos cnt acc start (acqAgree f) (acqLast f) (acqSign f) fresh) in
  let acc := (acc + y)%D in
  let cnt := cnt + 1 in
  if cnt <? foldDecim then put (foldCur f) pos acc cnt (foldSlots f) (foldSlotsN f) (foldSlotNext f) start (foldFresh f)
  else
    let cur := <[Z.to_nat pos := (acc / d_of_Z cnt)%D]> (foldCur f) in
    if pos + 1 <? foldLen then put cur (pos + 1) 0%D 0 (foldSlots f) (foldSlotsN f) (foldSlotNext f) start (foldFresh f)
    else
      let slots := <[Z.to_nat (foldSlotNext f) := cur]> (foldSlots f) in
      let n := Z.min (foldSlotsN f + 1) kAcqSeconds in
      let next := cmod (foldSlotNext f + 1) kAcqSeconds in
      let fresh := foldFresh f + 1 in
      let due := negb ((fresh <? kAcqSeconds) || (n <? kAcqSeconds)) in
      let s := put cur 0 0%D 0 slots n next (newest s + 1) (if due then 0 else fresh) in
      if due then judgeFold s start else s.

Definition feedSteady (s : Sig) (xr xi : double) : Sig :=
  let '(o, (zr, zi)) := mixDown (osc s) xr xi in
  let '(lv, db) := liveToneStep sr (live s) (snr (search s)) zr zi in
  let c := carrier s in
  let rr := (refRe c + aRef * (zr - refRe c))%D in
  let ri := (refIm c + aRef * (zi - refIm c))%D in
  let rp := (rr * rr + ri * ri)%D in
  let y := if (rp >? 1e-30)%D then (d_of_Z (polarity (tim s)) * (zi * rr - zr * ri) / rp)%D else 0%D in
  let k := newest s in
  let r := rings s in
  let r := MkRings (ringPut (yRing r) k (fround y)) (ringPut (zRe r) k (fround zr)) (ringPut (zIm r) k (fround zi)) (yStart r) in
  let '(c, o) := followCarrier (MkCarrier rr ri (freqCount c) (freqPrevRe c) (freqPrevIm c) (carrierLevel c) (carrierPresent c)) o in
  let g := search s in
  let s := MkSig false (samplesConsumed s) (MkSearch (bins g) (acqCount g) db) lv o c r (fold s) (tim s) (tail s) in
  if segValid (tim s) then s else foldStep s y.

Definition feed (s : Sig) (xr xi : double) : Sig :=
  let s := MkSig (searching s) (samplesConsumed s + 1) (search s) (live s) (osc s) (carrier s) (rings s) (fold s) (tim s) (tail s) in
  if searching s then feedAcquisition s xr xi else feedSteady s xr xi.

(** ** Once per second *)

(** One second's phase: its samples from [ph_base] on, and its noise. *)
Record Phase := MkPhase { ph_base : Z; ph_y : list double; ph_sigma : double }.

(** The second's phase at [c], with [L] samples more either side; inside,
    [None] when the stretch is not in the ring, or there is no carrier. *)
Definition buildSecondPhase (s : Sig) (c L : Z) : option (option Phase) :=
  let a0 := c - spanOf sr (1 - kQuietFrom)%D in
  let a1 := c - spanOf sr (1 - kQuietTo)%D in
  let b0 := c + spanOf sr kQuietFrom in
  let b1 := c + spanOf sr kQuietTo in
  let lo := Z.min a0 (c - L) in
  let hi := Z.max b1 (c + codeOff + nCode + L + 1) in
  if (lo <? oldest s) || (samplesConsumed s - 1 <? hi) then Some None
  else
    let r := rings s in
    let get l a b := ringFrom (oldest s) (newest s) l a b in
    aRe ← get (zRe r) a0 a1;
    aIm ← get (zIm r) a0 a1;
    bRe ← get (zRe r) b0 b1;
    bIm ← get (zIm r) b0 b1;
    zr ← get (zRe r) lo hi;
    zi ← get (zIm r) lo hi;
    let na := d_of_Z (a1 - a0 + 1) in
    let nb := d_of_Z (b1 - b0 + 1) in
    let A := (0.5 * (lm_hypot (total aRe) (total aIm) / na + lm_hypot (total bRe) (total bIm) / nb))%D in
    if negb (0 <? A)%D then Some None
    else
      let tA := lm_atan2 (total aIm) (total aRe) in
      let d := dremainder (lm_atan2 (total bIm) (total bRe) - tA)%D (2 * kPi)%D in
      let ca := (0.5 * d_of_Z (a0 + a1))%D in
      let cb := (0.5 * d_of_Z (b0 + b1))%D in
      let slope := (d / (cb - ca))%D in
      let y := imap (fun i '(re, im) =>
                 let th := (tA + slope * (d_of_Z (lo + Z.of_nat i) - ca))%D in
                 fround (d_of_Z (polarity (tim s)) * ((im * lm_cos th - re * lm_sin th) / A))%D) (combine zr zi) in
      let quiet a b := take (Z.to_nat (b - a + 1)) (drop (Z.to_nat (a - lo)) y) in
      let m2 := energy (quiet a0 a1 ++ quiet b0 b1)%list in
      Some (Some (MkPhase lo y (PrimFloat.sqrt (dmax 1e-30 (m2 / (na + nb)))%D))).

(** The phase from sample [at_] on against a template: [None] outside it. *)
Definition dotAt (p : Phase) (at_ : Z) (tmpl : list double) : option double :=
  if (ph_base p <=? at_) && (at_ + Z.of_nat (length tmpl) <=? ph_base p + Z.of_nat (length (ph_y p)))
  then Some (dot (drop (Z.to_nat (at_ - ph_base p)) (ph_y p)) tmpl) else None.

(** The correlation with a second's symbol and code at one lag. *)
Definition lagCorr (p : Phase) (sof : Z) (bit : Z) (c : Z) : option double :=
  v ← (if negb (sof =? 59) then
         v ← dotAt p c tri;
         if bit =? 1 then w ← dotAt p (c + nData) tri; Some (0 + v + w)%D else Some (0 + v)%D
       else Some 0%D);
  if (0 <=? sof) && negb (sof =? 59) then w ← dotAt p (c + codeOff) (codeT (Z.to_nat sof)); Some (v + w)%D else Some v.
Fixpoint lagsFrom (p : Phase) (sof bit c : Z) (n : nat) : option (list double) :=
  match n with
  | O => Some []
  | S n => v ← lagCorr p sof bit c; vs ← lagsFrom p sof bit (c + 1) n; Some (v :: vs)
  end.
(** The second at [pred] timed: the correlation's signal to noise and the edge,
    which stays [pred] when there is no peak inside the lags. *)
Definition timeSecond (p : Phase) (pred : double) (sof bit : Z) (searchSec : double) : option (double * double) :=
  let c := dllround pred in
  let L := Z.max 2 (spanOf sr searchSec) in
  let hasTri := negb (sof =? 59) in
  let hasCode := (0 <=? sof) && negb (sof =? 59) in
  let e := if hasTri then (0 + triE * (if (bit =? 1)%Z then 2 else 1))%D else 0%D in
  let e := if hasCode then (e + codeE (Z.to_nat sof))%D else e in
  if negb (0 <? e)%D || negb (0 <? ph_sigma p)%D then Some (0, pred)%D
  else
    ys ← lagsFrom p sof bit (c - L) (Z.to_nat (2 * L + 1));
    let bi := argmax ys in
    let y i := nth i ys 0%D in
    if (0 <? bi)%nat && (bi + 1 <? length ys)%nat then
      Some (y bi / (ph_sigma p * PrimFloat.sqrt e), d_of_Z (c - L + Z.of_nat bi) + peakFrac ys bi)%D
    else Some (0, pred)%D.

(** The scores of the 59 position codes, and the second they name: the best must
    be clear of the noise and of the next best. *)
Fixpoint scoresFrom (p : Phase) (c : Z) (seconds : list nat) : option (list double) :=
  match seconds with
  | [] => Some []
  | s :: seconds =>
      d ← dotAt p (c + codeOff) (codeT s);
      ds ← scoresFrom p c seconds;
      Some ((d / (ph_sigma p * PrimFloat.sqrt (codeE s)))%D :: ds)
  end.
Definition bestTwo (score : list double) : option nat * option nat :=
  let at_ i := nth i score 0%D in
  fold_left (fun '(best, second) s =>
    match best with
    | None => (Some s, best)
    | Some b =>
        if (at_ s >? at_ b)%D then (Some s, best)
        else match second with
             | None => (best, Some s)
             | Some s2 => (best, if (at_ s >? at_ s2)%D then Some s else second)
             end
    end) (seq 0 59) (None, None).
Definition nameOf (score : list double) : Z * double :=
  match bestTwo score with
  | (Some b, Some s2) =>
      let sb := nth b score 0%D in
      if (kKeyMinSig <=? sb)%D && (kKeyMarginSig <=? sb - nth s2 score 0)%D then (Z.of_nat b, sb) else (-1, 0%D)
  | _ => (-1, 0%D)
  end.

(** The display: the second's phase at 100 Hz, and what it should be. *)
Fixpoint tracePoints (s : Sig) (at_ per : Z) (n : nat) : option (list double) :=
  match n with
  | O => Some []
  | S n =>
      let k := Z.max 0 (Z.min per (samplesConsumed s - at_)) in
      ys ← ringSpan (oldest s) (newest s) (yRing (rings s)) at_ (Z.to_nat k);
      vs ← tracePoints s (at_ + per) per n;
      Some ((if k =? 0 then 0%D else fround (total (map (fun y => y - 0)%D ys) / d_of_Z k)%D) :: vs)
  end.
Definition expectedTrace (marker : bool) (bit sof : Z) : list double :=
  map (fun k =>
    let t := ((d_of_Z (Z.of_nat k) + 0.5) / 100)%D in
    let ph := if marker then 0%D
              else (0 + (excursion t + (if (bit =? 0)%Z then 0 else excursion (t - 4 * kSubSec))))%D in
    let ph := if (0 <=? sof) && (sof <? 59) then (ph + codePhase (Z.to_nat sof) t)%D else ph in
    fround (lm_sin ph)) (seq 0 100).

(** What the second's phase says of it, but for the expected second's score and
    its timing. *)
Record Reading := MkReading {
  rd_a1 : double; rd_read : bool; rd_marker : bool; rd_markConf : double; rd_bit : Z; rd_bitConf : double;
  rd_key : Z; rd_keySig : double; rd_score : list double
}.
Definition readSecond (p : Phase) (t : Timing) (c : Z) : option Reading :=
  d1 ← dotAt p c tri;
  d2 ← dotAt p (c + nData) tri;
  score ← scoresFrom p c (seq 0 59);
  let a1 := (d1 / triE)%D in
  let a2 := (d2 / triE)%D in
  let sA := (ph_sigma p * PrimFloat.sqrt triE / triE)%D in
  let A := if ampHave t then amp t else dmax a1 0%D in
  let marker := (a1 <? 0.5 * A)%D in
  let '(key, keySig) := nameOf score in
  Some (MkReading a1 (0 <? A)%D marker (confOf (dabs (a1 - 0.5 * A) / sA)%D)
          (if (a2 >? 0.5 * A)%D then 1 else 0)
          (if marker then 0%D else confOf (dabs (a2 - 0.5 * A) / sA)%D) key keySig score).

(** The second taken to be at [segEdge]. *)
Definition processSecond (s : Sig) : option Sig :=
  let t := tim s in
  let pred := segEdge t in
  let c := dllround pred in
  phase ← buildSecondPhase s c (spanOf sr kSearchSec + 1);
  match phase with
  | None => Some (withSegEdge s (pred + d_of_Z sr)%D)
  | Some p =>
      rd ← readSecond p t c;
      let n := Allouis.count (tail s) in
      let expect := if anchored n then sofNext n else -1 in
      let expSig := if (0 <=? expect) && (expect <? 59) then nth (Z.to_nat expect) (rd_score rd) 0%D else 0%D in
      let learn := ((0 <=? expect) && (expect <? 59)) || (0 <=? rd_key rd) in
      let amp' := if learn then (if ampHave t then amp t + kAmpGain * (rd_a1 rd - amp t) else rd_a1 rd)%D else amp t in
      let sofT := if 0 <=? expect then expect else if 0 <=? rd_key rd then rd_key rd
                  else if rd_marker rd && (kStructConf <=? rd_markConf rd)%D then 59 else -1 in
      let warm := valid (trk t) && (kTrkWarm <? Signals.count (trk t)) in
      timed ← (if negb (sofT =? 59) && (negb (rd_marker rd) || (rd_markConf rd <? kStructConf)%D)
               then timeSecond p pred sofT (if (kStructConf <=? rd_bitConf rd)%D then rd_bit rd else 0)
                      (if warm then kSearchWarmSec else kSearchSec)
               else Some (0, pred)%D);
      let '(tsig, edgeMeas) := timed in
      let meas := (kTimeMinSig <=? tsig)%D in
      let trk' := update sr (trk t) meas edgeMeas (if valid (trk t) then period (trk t) else d_of_Z sr)
                    ((if warm then kTrkOutlierSec else kTrkAcqOutlierSec) * d_of_Z sr)%D in
      let edge := if valid trk' then Signals.edge trk' else pred in
      let blind := if meas then 0 else blindSeconds t + 1 in
      let exact := (edge + kSecondAfterStartSec * d_of_Z sr)%D in
      let r := MkSec (dllround exact) exact (rd_read rd) (rd_marker rd) (rd_markConf rd) (rd_bit rd) (rd_bitConf rd)
                 (rd_key rd) (rd_keySig rd) expSig tsig in
      envl ← tracePoints s c (Z.max 1 (cdiv sr 100)) 100;
      let w := handleSecond cfg sr (noteSecond (tail s) r) r meas
                 (fun sof => MkTrace envl (expectedTrace (rd_marker rd) (rd_bit rd) sof))
                 (if valid trk' then period trk' else d_of_Z sr) in
      let n' := Allouis.count w in
      let unnamed := if (0 <=? rd_key rd) || negb (carrierPresent (carrier s)) || (anchored n' && (sofNext n' =? 0))
                     then 0 else unnamedRun t + 1 in
      let s := withTail (withTim s (MkTiming (segValid t) (if valid trk' then Signals.edge trk' + period trk' else pred + d_of_Z sr)%D
                 trk' blind unnamed (valid trk' && meas) (if meas then tsig else lastTimeSig t) amp' (ampHave t || learn)
                 (polarity t))) w in
      Some (if (kMaxBlindSeconds <=? blind) || (kMaxUnnamedSeconds <=? unnamed)
            then restartAcquisition (withTail s (restart (tail s))) else s)
  end.

(** A second is due: all of it is in, and its quiet end. *)
Definition canProcessSecond (s : Sig) : bool :=
  (segEdge (tim s) + d_of_Z (codeOff + nCode) + kSearchSec * d_of_Z sr + 3 <=? d_of_Z (samplesConsumed s))%D.
Definition secondDue (s : Sig) : bool := negb (searching s) && segValid (tim s) && canProcessSecond s.

(** ** What the decoder does with its samples: one at a time, each followed by the
    seconds it makes due. *)
Inductive reach : Sig -> list (double * double) -> Prop :=
  | reach_start : reach construct []
  | reach_sample s xs xr xi : reach s xs -> secondDue s = false -> reach (feed s xr xi) (xs ++ [(xr, xi)])
  | reach_second s s' xs : reach s xs -> secondDue s = true -> processSecond s = Some s' -> reach s' xs.

End Chain.

(** ** Lemmas: what is read is there *)

Section Reads.
Context `{Libm} `{Pow} (cfg : Config) (sr : Z).

(** The spans a sample rate rounds to nest as they should. *)
Definition geometryOk : bool :=
  (1 <=? sr) && (0 <=? spanOf sr (1 - kQuietFrom)%D) && (0 <=? spanOf sr (1 - kQuietTo)%D) &&
  (spanOf sr (1 - kQuietTo)%D <=? spanOf sr (1 - kQuietFrom)%D) &&
  (0 <=? spanOf sr kQuietFrom) && (spanOf sr kQuietFrom <=? spanOf sr kQuietTo) &&
  (0 <=? nData sr) && (0 <=? codeOff sr) && (0 <=? nCode sr) && (2 * nData sr <=? codeOff sr + nCode sr) &&
  (1 <=? spanOf sr kSearchSec) && (spanOf sr kSearchWarmSec <=? spanOf sr kSearchSec) &&
  (1 <=? foldLen sr).
Hypothesis Geo : geometryOk = true.

Lemma geometry :
  1 <= sr /\ 0 <= spanOf sr (1 - kQuietTo)%D <= spanOf sr (1 - kQuietFrom)%D /\
  0 <= spanOf sr kQuietFrom <= spanOf sr kQuietTo /\
  0 <= nData sr /\ 0 <= codeOff sr /\ 0 <= nCode sr /\ 2 * nData sr <= codeOff sr + nCode sr /\
  1 <= spanOf sr kSearchSec /\ spanOf sr kSearchWarmSec <= spanOf sr kSearchSec /\ 1 <= foldLen sr.
Proof. unfold geometryOk in Geo. rewrite !andb_true_iff, !Z.leb_le in Geo. tauto. Qed.

Definition ringsOk (r : Rings) : Prop :=
  (0 < length (yRing r))%nat /\ length (zRe r) = length (yRing r) /\ length (zIm r) = length (yRing r).

(** A phase built covers the templates at every lag looked at. *)
Definition covers (p : Phase) (c : Z) : Prop :=
  let L := spanOf sr kSearchSec + 1 in
  ph_base p <= c - L /\ c + codeOff sr + nCode sr + L + 2 <= ph_base p + Z.of_nat (length (ph_y p)).

Lemma phase_some s c : ringsOk (rings s) ->
  exists r, buildSecondPhase sr s c (spanOf sr kSearchSec + 1) = Some r /\
    forall p, r = Some p -> covers p c /\ oldest s <= c.
Proof.
  intros (R1 & R2 & R3). destruct geometry as (G0 & G1 & G2 & G3 & G4 & G5 & G6 & G7 & G8 & G9).
  unfold buildSecondPhase. cbv zeta.
  set (a0 := c - spanOf sr (1 - kQuietFrom)%D). set (a1 := c - spanOf sr (1 - kQuietTo)%D).
  set (b0 := c + spanOf sr kQuietFrom). set (b1 := c + spanOf sr kQuietTo). set (L := spanOf sr kSearchSec + 1).
  set (lo := Z.min a0 (c - L)). set (hi := Z.max b1 (c + codeOff sr + nCode sr + L + 1)).
  destruct (Z.ltb_spec lo (oldest s)) as [O|O]; [by eexists|]. destruct (Z.ltb_spec (samplesConsumed s - 1) hi) as [N|N]; [by eexists|].
  cbn [orb]. unfold newest.
  assert (Get : forall l a b, length l = length (yRing (rings s)) -> lo <= a -> b <= hi -> a <= b + 1 ->
    exists xs, ringFrom (oldest s) (samplesConsumed s - 1) l a b = Some xs /\ Z.of_nat (length xs) = b - a + 1).
  { intros l a b El La Lb Lab. apply ringFrom_some; lia. }
  destruct (Get (zRe (rings s)) a0 a1) as (? & -> & _); [done|lia..|].
  destruct (Get (zIm (rings s)) a0 a1) as (? & -> & _); [done|lia..|].
  destruct (Get (zRe (rings s)) b0 b1) as (? & -> & _); [done|lia..|].
  destruct (Get (zIm (rings s)) b0 b1) as (? & -> & _); [done|lia..|].
  destruct (Get (zRe (rings s)) lo hi) as (zr & -> & Lr); [done|lia..|].
  destruct (Get (zIm (rings s)) lo hi) as (zi & -> & Li); [done|lia..|]. cbn [mbind option_bind].
  destruct (negb _); [by eexists|]. eexists. split; [reflexivity|]. intros p [= <-]. unfold covers. cbn [ph_base ph_y].
  rewrite length_imap, length_combine. split; lia.
Qed.

Lemma dotAt_some p at_ t : ph_base p <= at_ -> at_ + Z.of_nat (length t) <= ph_base p + Z.of_nat (length (ph_y p)) ->
  exists d, dotAt p at_ t = Some d.
Proof.
  intros A B. unfold dotAt. destruct (Z.leb_spec (ph_base p) at_); [|lia]. destruct (Z.leb_spec (at_ + Z.of_nat (length t)) (ph_base p + Z.of_nat (length (ph_y p)))); [|lia].
  by eexists.
Qed.
Lemma length_tri : 0 <= nData sr -> Z.of_nat (length (tri sr)) = nData sr.
Proof. intros N. unfold tri. rewrite length_map, length_seq. lia. Qed.
Lemma length_code s : 0 <= nCode sr -> Z.of_nat (length (codeT sr s)) = nCode sr.
Proof. intros N. unfold codeT, codeV. rewrite !length_map, length_seq. lia. Qed.

(** Within the lags searched every dot is there. *)
Lemma dots_some p c c' : covers p c -> Z.abs (c' - c) <= spanOf sr kSearchSec + 1 ->
  (exists d, dotAt p c' (tri sr) = Some d) /\ (exists d, dotAt p (c' + nData sr) (tri sr) = Some d) /\
  forall s, exists d, dotAt p (c' + codeOff sr) (codeT sr s) = Some d.
Proof.
  intros [C1 C2] A. destruct geometry as (_ & _ & _ & G3 & G4 & G5 & G6 & G7 & G8 & _). pose proof (length_tri G3) as Lt.
  split; [apply dotAt_some; lia|]. split; [apply dotAt_some; lia|]. intros s. pose proof (length_code s G5). apply dotAt_some; lia.
Qed.

Lemma lagCorr_some p c c' sof bit : covers p c -> Z.abs (c' - c) <= spanOf sr kSearchSec + 1 ->
  exists v, lagCorr sr p sof bit c' = Some v.
Proof.
  intros C A. destruct (dots_some p c c' C A) as ((d1 & E1) & (d2 & E2) & E3). unfold lagCorr.
  destruct (negb (sof =? 59)); rewrite ?E1; cbn [mbind option_bind]; [destruct (bit =? 1); rewrite ?E2; cbn [mbind option_bind]|];
    (destruct (_ && _); [destruct (E3 (Z.to_nat sof)) as [d ->]|]; by eexists).
Qed.
Lemma lags_some p c sof bit n : forall c', covers p c ->
  c - (spanOf sr kSearchSec + 1) <= c' -> c' + Z.of_nat n <= c + spanOf sr kSearchSec + 2 ->
  exists vs, lagsFrom sr p sof bit c' n = Some vs.
Proof.
  induction n as [|n IH]; intros c' C L U; [by eexists|]. cbn [lagsFrom].
  destruct (lagCorr_some p c c' sof bit C ltac:(lia)) as [v ->]. cbn [mbind option_bind].
  destruct (IH (c' + 1) C ltac:(lia) ltac:(lia)) as [vs ->]. by eexists.
Qed.
Lemma timeSecond_some p pred sof bit sec : covers p (dllround pred) -> spanOf sr sec <= spanOf sr kSearchSec ->
  exists r, timeSecond sr p pred sof bit sec = Some r.
Proof.
  intros C S. destruct geometry as (_ & _ & _ & _ & _ & _ & _ & G7 & _). unfold timeSecond. cbv zeta.
  destruct (_ || _); [by eexists|]. set (L := Z.max 2 _).
  destruct (lags_some p (dllround pred) sof bit (Z.to_nat (2 * L + 1)) (dllround pred - L) C) as [vs ->]; [lia..|].
  cbn [mbind option_bind]. destruct (_ && _); by eexists.
Qed.
Lemma scores_some p c l : covers p c -> exists ds, scoresFrom sr p c l = Some ds.
Proof.
  intros C. destruct geometry as (_ & _ & _ & _ & _ & _ & _ & G7 & _).
  destruct (dots_some p c c C ltac:(lia)) as (_ & _ & E). induction l as [|s l [ds IH]]; [by eexists|]. cbn [scoresFrom].
  destruct (E s) as [d ->]. cbn [mbind option_bind]. rewrite IH. by eexists.
Qed.

(** A name is a second from 0 to 58, or none. *)
Lemma bestTwo_range score : (forall b, fst (bestTwo score) = Some b -> (b < 59)%nat).
Proof.
  unfold bestTwo. assert (K : forall l acc, (forall b, fst acc = Some b -> (b < 59)%nat) -> Forall (fun s => (s < 59)%nat) l ->
    forall b, fst (fold_left (fun '(best, second) s =>
      match best with
      | None => (Some s, best)
      | Some b => if (nth s score 0 >? nth b score 0)%D then (Some s, best)
                  else match second with None => (best, Some s)
                       | Some s2 => (best, if (nth s score 0 >? nth s2 score 0)%D then Some s else second) end
      end) l acc) = Some b -> (b < 59)%nat).
  { induction l as [|s l IH]; intros [best second] A F; [exact A|]. apply Forall_cons in F as [F1 F]. cbn [fold_left].
    apply IH; [|done]. destruct best as [b|]; [|by intros ? [= <-]].
    destruct (_ >? _)%D; [by intros ? [= <-]|]. by destruct second. }
  apply K; [done|]. apply Forall_forall. intros x Hx. apply list_elem_of_In, in_seq in Hx. lia.
Qed.
Lemma nameOf_range score : -1 <= fst (nameOf score) <= 58.
Proof.
  unfold nameOf. pose proof (bestTwo_range score) as B. destruct (bestTwo score) as [[b|] [s2|]]; cbn [fst]; try lia.
  specialize (B b eq_refl). destruct (_ && _); cbn [fst]; lia.
Qed.

Lemma readSecond_some p t c : covers p c ->
  exists rd, readSecond sr p t c = Some rd /\ -1 <= rd_key rd <= 58.
Proof.
  intros C. destruct geometry as (_ & _ & _ & _ & _ & _ & _ & G7 & _).
  destruct (dots_some p c c C ltac:(lia)) as ((d1 & E1) & (d2 & E2) & _). destruct (scores_some p c (seq 0 59) C) as [ds E3].
  unfold readSecond. rewrite E1, E2, E3. cbn [mbind option_bind]. pose proof (nameOf_range ds) as N.
  destruct (nameOf ds) as [key sig]. eexists. by split.
Qed.

Lemma tracePoints_some s per n : forall at_, ringsOk (rings s) -> oldest s <= at_ -> 1 <= per ->
  exists vs, tracePoints s at_ per n = Some vs.
Proof.
  induction n as [|n IH]; intros at_ R O P; [by eexists|]. cbn [tracePoints]. cbv zeta.
  destruct (Z.le_gt_cases at_ (samplesConsumed s)) as [A|A].
  - destruct (ringSpan_some (oldest s) (newest s) (yRing (rings s))
      (Z.to_nat (Z.max 0 (Z.min per (samplesConsumed s - at_)))) at_) as (ys & -> & _); [apply R|done|unfold newest; lia|].
    cbn [mbind option_bind]. destruct (IH (at_ + per) R ltac:(lia) P) as [vs ->]. by eexists.
  - replace (Z.max 0 (Z.min per (samplesConsumed s - at_))) with 0 by lia. cbn [Z.to_nat ringSpan mbind option_bind].
    destruct (IH (at_ + per) R ltac:(lia) P) as [vs ->]. by eexists.
Qed.
End Reads.

(** ** Lemmas: what holds between steps *)

Section Steps.
Context `{Libm} `{Pow} (cfg : Config) (sr : Z) (fNominal : double).
Hypothesis Geo : geometryOk sr = true.

(** The fold's writes are inside its slots. *)
Definition foldOk (f : Fold) : Prop :=
  0 <= foldPos f < foldLen sr /\ Z.of_nat (length (foldCur f)) = foldLen sr /\
  length (foldSlots f) = Z.to_nat kAcqSeconds /\ 0 <= foldSlotNext f < kAcqSeconds.
(** The decoder of seconds has run on some, each with a name there is. *)
Definition tailOk (s : Sig) : Prop :=
  if searching s then tail s = fresh LockNoSignal
  else exists ins, Forall inputOk ins /\ tail s = run cfg sr running ins.
Definition good (s : Sig) (n : nat) : Prop :=
  samplesConsumed s = Z.of_nat n /\ ringsOk (rings s) /\ foldOk (fold s) /\ tailOk s.

Lemma newFold_ok : foldOk (newFold sr).
Proof.
  destruct (geometry sr Geo) as (_ & _ & _ & _ & _ & _ & _ & _ & _ & G). unfold foldOk. cbn [newFold foldPos foldCur foldSlots foldSlotNext].
  rewrite !length_replicate. unfold kAcqSeconds. repeat split; lia.
Qed.
Lemma als_construct_good : good (construct sr fNominal) 0.
Proof.
  split; [done|]. split; [|split; [apply newFold_ok|done]]. unfold ringsOk. cbn. rewrite !length_replicate.
  unfold ringCap. pose proof (capOf_pos (4 * sr)). lia.
Qed.

Lemma length_flipFrom k : forall l n, length (flipFrom l n k) = length l.
Proof. induction k as [|k IH]; intros l n; [done|]. cbn. by rewrite IH, length_ringPut. Qed.

(** The same rings but for their values, and nothing else an invariant is of. *)
Definition sameBase (s s' : Sig) : Prop :=
  searching s' = searching s /\ samplesConsumed s' = samplesConsumed s /\ tail s' = tail s /\
  (ringsOk (rings s) -> ringsOk (rings s')).

Lemma judgeFold_same s b : sameBase s (judgeFold sr s b) /\ (foldOk (fold s) -> foldOk (fold (judgeFold sr s b))).
Proof.
  unfold judgeFold. cbv zeta. destruct (negb _); [done|]. destruct (_ <? _)%D; [done|].
  match goal with |- context [if ?n <? kAcqAgree then _ else _] => set (n0 := n) end. destruct (n0 <? kAcqAgree); [done|].
  unfold foundSecond. cbv zeta. destruct (_ <? _)%D; [|done].
  split; [|done]. split; [done|]. split; [done|]. split; [done|]. unfold ringsOk. cbn. by rewrite length_flipFrom.
Qed.

Lemma foldStep_same s y : foldOk (fold s) -> sameBase s (foldStep sr s y) /\ foldOk (fold (foldStep sr s y)).
Proof.
  intros (P & C & S & N). destruct (geometry sr Geo) as (_ & _ & _ & _ & _ & _ & _ & _ & _ & G). unfold foldStep.
  set (w := if foldBlockStart (fold s) <? 0 then _ else _).
  assert (W : 0 <= snd (fst (fst w)) < foldLen sr) by (unfold w; destruct (_ <? 0); cbn; lia).
  destruct w as [[[start pos] acc] cnt]. cbn [fst snd] in W. cbv zeta.
  destruct (_ <? foldDecim sr); [split; [done|]; unfold foldOk; cbn; tauto|]. destruct (Z.ltb_spec (pos + 1) (foldLen sr)) as [L|L].
  { split; [done|]. unfold foldOk. cbn. rewrite length_insert. split; [lia|tauto]. }
  set (due := negb _). set (s1 := withFold s _).
  assert (K : sameBase s s1 /\ foldOk (fold s1)).
  { split; [done|]. unfold foldOk. cbn. rewrite !length_insert. repeat split; try done; try lia.
    all: unfold cmod, kAcqSeconds in *; rewrite Z.rem_mod_nonneg by lia; pose proof (Z.mod_pos_bound (foldSlotNext (fold s) + 1) 6); lia. }
  clearbody s1. destruct K as [K1 K2]. destruct due; [|done]. destruct (judgeFold_same s1 start) as [(J1 & J2 & J3 & J4) J5].
  split; [|by apply J5]. destruct K1 as (K11 & K12 & K13 & K14). unfold sameBase. rewrite J1, J2, J3. repeat split; try done. all: apply J4, K14; done.
Qed.

Lemma feed_good s n xr xi : good s n -> good (feed sr fNominal s xr xi) (S n).
Proof.
  intros (C & R & F & T). unfold feed. cbv zeta. cbn [searching]. unfold tailOk in T. destruct (searching s) eqn:Se.
  - unfold feedAcquisition. cbn [search]. destruct (searchStep _ _ _ _ _) as [g [f|]].
    + split; [cbn; lia|]. split; [exact R|]. split; [exact F|]. exists []. split; [by constructor|]. cbn. by rewrite T.
    + split; [cbn; lia|]. split; [exact R|]. split; [exact F|]. exact T.
  - unfold feedSteady. cbn [osc live search carrier rings fold tim tail samplesConsumed].
    destruct (mixDown _ _ _) as [o [zr zi]]. destruct (liveToneStep _ _ _ _ _) as [lv db]. cbv zeta.
    destruct (followCarrier _ _ _ _) as [c o']. set (s1 := MkSig false _ _ _ _ _ _ _ _ _).
    assert (G1 : good s1 (S n)).
    { split; [cbn; lia|]. split; [|split; [exact F|exact T]]. destruct R as (R1 & R2 & R3). unfold ringsOk. cbn. by rewrite !length_ringPut. }
    clearbody s1. destruct (segValid _); [exact G1|]. destruct G1 as (C1 & R1 & F1 & T1).
    match goal with |- good (foldStep _ _ ?y) _ => destruct (foldStep_same s1 y F1) as [(E1 & E2 & E3 & E4) F'] end.
    split; [by rewrite E2|]. split; [by apply E4|]. split; [exact F'|]. unfold tailOk. by rewrite E1, E3.
Qed.

Lemma run_more s ins more : run cfg sr (run cfg sr s ins) more = run cfg sr s (ins ++ more).
Proof. unfold run. by rewrite fold_left_app. Qed.

Lemma second_good s n : good s n -> secondDue sr s = true ->
  exists s', processSecond cfg sr s = Some s' /\ good s' n.
Proof.
  intros (C & R & F & T) D. unfold secondDue in D. apply andb_true_iff in D as [D _]. apply andb_true_iff in D as [Se _].
  apply negb_true_iff in Se. unfold tailOk in T. rewrite Se in T. destruct T as (ins & Fi & T).
  destruct (geometry sr Geo) as (_ & _ & _ & _ & _ & _ & _ & G7 & G8 & _).
  unfold processSecond. cbv zeta. set (c := dllround _).
  destruct (phase_some sr Geo s c R) as (ph & -> & Ph). cbn [mbind option_bind]. destruct ph as [p|].
  2: { eexists. split; [reflexivity|]. split; [exact C|]. split; [exact R|]. split; [exact F|]. unfold tailOk. cbn. rewrite Se. by exists ins. }
  destruct (Ph p eq_refl) as [Cov Old].
  destruct (readSecond_some sr Geo p (tim s) c Cov) as (rd & -> & Nm). cbn [mbind option_bind].
  set (timed := if _ && _ then timeSecond _ _ _ _ _ _ else _).
  assert (Td : exists r, timed = Some r).
  { unfold timed. destruct (_ && _); [|by eexists]. apply timeSecond_some; [done|exact Cov|].
    match goal with |- context [if ?b then kSearchWarmSec else _] => destruct b end; [exact G8|reflexivity]. }
  destruct Td as [[tsig em] ->]. cbn [mbind option_bind].
  destruct (tracePoints_some s (Z.max 1 (cdiv sr 100)) 100 c R Old ltac:(lia)) as [env ->]. cbn [mbind option_bind].
  eexists. split; [reflexivity|]. set (r := MkSec _ _ _ _ _ _ _ _ _ _ _). set (w := handleSecond _ _ _ _ _ _ _).
  assert (Kw : exists ins', Forall inputOk ins' /\ w = run cfg sr running ins').
  { unfold w. rewrite T. match goal with |- context [handleSecond _ _ _ r ?meas ?tr ?per] =>
      exists (ins ++ [Second r meas tr per])%list end.
    split; [apply Forall_app_2; [done|]; constructor; [exact Nm|done]|]. rewrite <- run_more. reflexivity. }
  clearbody w r. clear Ph Cov. destruct Kw as (ins' & Fi' & Ew). destruct (_ || _).
  - split; [exact C|]. split; [exact R|]. split; [apply newFold_ok|]. unfold tailOk. cbn. rewrite Se.
    exists (ins' ++ [Lost])%list. split; [apply Forall_app_2; [done|]; by constructor|]. rewrite <- run_more, <- Ew. reflexivity.
  - split; [exact C|]. split; [exact R|]. split; [exact F|]. unfold tailOk. cbn. rewrite Se. by exists ins'.
Qed.

Lemma reach_good s xs : reach cfg sr fNominal s xs -> good s (length xs).
Proof.
  induction 1 as [|s xs xr xi _ IH D|s s' xs _ IH D E].
  - apply als_construct_good.
  - rewrite length_app, Nat.add_1_r. by apply feed_good.
  - destruct (second_good s (length xs) IH D) as (s2 & E2 & G). congruence.
Qed.
End Steps.

(** ** Properties *)

(** C26: the signal chain never reads what is not there, and never stops short.
    Whatever samples the decoder is given and whatever the C++ library's
    transcendental functions answer, at a sample rate whose rounded spans nest (the
    hypothesis, evaluated for the rates in use), in every state reached a second
    that is due can be processed: every sample of the rings it reads is still held,
    every template lies inside the second's phase at every lag, and the fold writes
    inside its slots. All the samples are counted, and once the carrier is found the
    decoder of seconds has run on a list of seconds, each naming itself 0 to 58 or
    nothing, and of losses, and on nothing else. *)
Theorem allouis_reads_held `{Libm} `{Pow} (cfg : Config) (sr : Z) (fNominal : double) (s : Sig) (xs : list (double * double)) :
  geometryOk sr = true -> reach cfg sr fNominal s xs ->
  samplesConsumed s = Z.of_nat (length xs) /\ foldOk sr (fold s) /\
  (secondDue sr s = true -> exists s', processSecond cfg sr s = Some s') /\
  (searching s = false -> exists ins, Forall inputOk ins /\ tail s = run cfg sr running ins).
Proof.
  intros Geo R. pose proof (reach_good cfg sr fNominal Geo s xs R) as G. pose proof G as (C & _ & F & T).
  split; [exact C|]. split; [exact F|]. split.
  - intros D. destruct (second_good cfg sr Geo s _ G D) as (s' & E & _). by exists s'.
  - intros Se. unfold tailOk in T. by rewrite Se in T.
Qed.

(** *** Witnesses *)

(** A second of bit nought heard at 200 samples a second, its edge at sample 10,
    with [s]'s position code. *)
Definition heardSecond (s : nat) : Phase :=
  MkPhase 0 (map (fun n =>
    let t := ((d_of_Z (Z.of_nat n) - 10) / 200)%D in
    @lm_sin demoLibm (excursion t + codePhase s t)%D) (seq 0 240)) 0.01%D.
(** Looked for from two samples early, the edge is found. *)
Example allouis_times :
  option_map (fun '(sig, e) => ((300 <? sig)%D, dllround (e * 10)%D)) (@timeSecond demoLibm 200 (heardSecond 32) 8 32 0 0.02) =
  Some (true, 100).
Proof. vm_compute. reflexivity. Qed.

Lemma allouis_reads_held_witness :
  let s := @feed demoLibm 12000 0 (@construct demoLibm 12000 0) 1 0 in
  geometryOk 12000 = true /\ samplesConsumed s = 1 /\
  (secondDue 12000 s = true -> exists s', @processSecond demoLibm demoPow buildVoterConfig 12000 s = Some s').
Proof.
  split; [vm_compute; reflexivity|].
  destruct (@allouis_reads_held demoLibm demoPow buildVoterConfig 12000 0%D
              (@feed demoLibm 12000 0 (@construct demoLibm 12000 0) 1 0) [(1, 0)%D]) as (E & _ & P & _).
  - vm_compute. reflexivity.
  - apply (@reach_sample demoLibm demoPow buildVoterConfig 12000 0%D _ []); [apply reach_start|reflexivity].
  - by split.
Defined.
