(* ===== verification/SampleClock.v ===== *)
(** * The sample clock of a receiver timed by arrival (src/SampleClock.cpp, SampleClock)
    Packet arrivals are kept one per bucket, the fastest; a line through those
    points maps a sample index to the daemon clock, at the nominal rate when the
    fitted one is implausible. [sqrt] is the kernel's, correctly rounded as the
    C++ one. *)

From Stdlib Require Import ZArith Lia List Bool Floats.
From stdpp Require Import base list.
From S2P Require Import Prelude Doubles.

#[local] Open Scope Z_scope.

(** ** State *)

Definition kMaxPlausiblePpm : double := 200%D.

Record Point := MkPoint { p_sample : Z; p_hostSec : double; p_residual : double }.

Record ClockFit := MkFit {
  f_valid : bool; f_anchorSec : double; f_secPerSample : double; f_residualRms : double;
  f_spanSec : double; f_points : Z; f_slopeUncertaintySec : double; f_slopeHeld : bool
}.
Definition noFit : ClockFit := MkFit false 0 0 0 0 0 0 false.

(** [m_haveBucket] false is [None]; otherwise the best point and the start. *)
Record SampleClock := MkClock {
  m_rate : Z; m_bucketSec : double; m_windowSec : double;
  m_bucket : option (Point * double); m_envelope : list Point;
  m_fit : ClockFit; m_lastExcess : double
}.

Definition newClock (sampleRate : Z) (bucketSec windowSec : double) : SampleClock :=
  MkClock (if 0 <? sampleRate then sampleRate else 12000) bucketSec windowSec None [] noFit 0.

Definition setSampleRate (c : SampleClock) (rate : Z) : SampleClock :=
  if (rate <=? 0) || (rate =? m_rate c) then c
  else MkClock rate (m_bucketSec c) (m_windowSec c) None [] noFit (m_lastExcess c).

Definition reset (c : SampleClock) : SampleClock :=
  MkClock (m_rate c) (m_bucketSec c) (m_windowSec c) None [] noFit 0.

(** ** The fit *)

Definition sumOf (f : Point -> double) (env : list Point) : double :=
  fold_left (fun a p => a + f p)%D env 0%D.

Definition plausible (rate : Z) (fitted : double) : bool :=
  let nominal := (1 / d_of_Z rate)%D in
  (nominal * (1 - kMaxPlausiblePpm * 1e-6) <? fitted)%D &&
  (fitted <? nominal * (1 + kMaxPlausiblePpm * 1e-6))%D.

Definition lastOf (env : list Point) : Point := List.last env (MkPoint 0 0 0).
Definition firstOf (env : list Point) : Point := hd (MkPoint 0 0 0) env.

Definition refit (rate : Z) (env : list Point) : ClockFit :=
  if (length env <? 2)%nat then noFit
  else
    let n := d_of_Z (Z.of_nat (length env)) in
    let x p := d_of_Z (p_sample p) in
    let mx := (sumOf x env / n)%D in
    let my := (sumOf p_hostSec env / n)%D in
    let sxx := sumOf (fun p => let dx := (x p - mx)%D in (dx * dx)%D) env in
    let sxy := sumOf (fun p => ((x p - mx) * (p_hostSec p - my))%D) env in
    let nominal := (1 / d_of_Z rate)%D in
    let fitted := if (sxx <=? 0)%D then nominal else (sxy / sxx)%D in
    let held := negb (plausible rate fitted) in
    let slope := if held then nominal else fitted in
    let anchor := (my - slope * mx)%D in
    let ss := sumOf (fun p => let r := (p_hostSec p - (anchor + slope * x p))%D in (r * r)%D) env in
    let rms := PrimFloat.sqrt (ss / n)%D in
    let dWork := dabs (x (lastOf env) - mx)%D in
    let unc :=
      if (2 <? length env)%nat && (0 <? sxx)%D
      then (PrimFloat.sqrt ((ss / d_of_Z (Z.of_nat (length env) - 2)) / sxx) * dWork)%D
      else rms in
    let unc := if held then dmax unc (dabs (fitted - nominal) * dWork)%D else unc in
    MkFit true anchor slope rms (p_hostSec (lastOf env) - p_hostSec (firstOf env))%D
          (Z.of_nat (length env)) unc held.

(** ** Observations *)

Fixpoint ageOff (windowSec back : double) (env : list Point) : list Point :=
  match env with
  | [] => []
  | p :: rest =>
      if (2 <? length env)%nat && (windowSec <? back - p_hostSec p)%D then ageOff windowSec back rest else env
  end.

Definition pointOf (rate endSample : Z) (hostSec : double) : Point :=
  MkPoint endSample hostSec (hostSec - d_of_Z endSample / d_of_Z rate)%D.

Definition observe (c : SampleClock) (endSample : Z) (hostSec : double) : SampleClock :=
  let p := pointOf (m_rate c) endSample hostSec in
  let excess :=
    if f_valid (m_fit c)
    then (hostSec - (f_anchorSec (m_fit c) + f_secPerSample (m_fit c) * d_of_Z endSample))%D
    else m_lastExcess c in
  match m_bucket c with
  | None => MkClock (m_rate c) (m_bucketSec c) (m_windowSec c) (Some (p, hostSec)) (m_envelope c) (m_fit c) excess
  | Some (best, start) =>
      let best := if (p_residual p <? p_residual best)%D then p else best in
      if (hostSec - start <? m_bucketSec c)%D
      then MkClock (m_rate c) (m_bucketSec c) (m_windowSec c) (Some (best, start)) (m_envelope c) (m_fit c) excess
      else
        let env := ageOff (m_windowSec c) (p_hostSec best) (m_envelope c ++ [best])%list in
        MkClock (m_rate c) (m_bucketSec c) (m_windowSec c) None env (refit (m_rate c) env) excess
  end.

Definition hostTimeAt (c : SampleClock) (sample : double) : option double :=
  if f_valid (m_fit c) then Some (f_anchorSec (m_fit c) + f_secPerSample (m_fit c) * sample)%D else None.
Definition fit (c : SampleClock) : ClockFit := m_fit c.
Definition lastExcessDelay (c : SampleClock) : double := m_lastExcess c.

(** ** The arrivals, bucket by bucket *)

(** An observation: the sample index a packet ends at, and when it arrived. *)
Definition Arrival : Type := Z * double.
Definition run (c : SampleClock) (obs : list Arrival) : SampleClock :=
  fold_left (fun c '(n, t) => observe c n t) obs c.

Definition arrivedAt (b : list Arrival) : double := snd (hd (0, 0%D) b).
(** A bucket is closed by the first arrival not within [bucketSec] of its first. *)
Definition closed (bucketSec : double) (b : list Arrival) : Prop :=
  exists o b1 l, b = (o :: b1 ++ [l])%list /\
    Forall (fun a => (snd a - snd o <? bucketSec)%D = true) b1 /\ (snd l - snd o <? bucketSec)%D = false.
(** [p] is a fastest packet of the bucket. *)
Definition fastest (rate : Z) (b : list Arrival) (p : Point) : Prop :=
  (exists a, In a b /\ p = pointOf rate (fst a) (snd a)) /\
  Forall (fun a => (p_residual (pointOf rate (fst a) (snd a)) <? p_residual p)%D = false) b.

(** ** Lemmas *)

(** What ages off is at the front, and beyond the window from the newest; two points
    stay, and more only within the window. *)
Lemma ageOff_spec w back env : exists j, (j <= length env)%nat /\ ageOff w back env = drop j env /\
  (forall i p, (i < j)%nat -> env !! i = Some p -> (w <? back - p_hostSec p)%D = true) /\
  (Nat.min 2 (length env) <= length (ageOff w back env))%nat /\
  ((2 < length (ageOff w back env))%nat -> (w <? back - p_hostSec (firstOf (ageOff w back env)))%D = false).
Proof.
  induction env as [|p env (j & Lj & E & B & M & W)]; [exists 0%nat; split; [done|]; repeat split; cbn; lia|]. cbn [ageOff].
  destruct (Nat.ltb_spec 2 (length (p :: env))) as [L|L]; cbn [andb].
  - destruct (w <? back - p_hostSec p)%D eqn:Wp.
    + exists (S j). split; [cbn; lia|]. split; [exact E|]. split; [|split; [|exact W]].
      * intros [|i] q Li Ei; [by injection Ei as ->|]. apply (B i); [lia|exact Ei].
      * cbn [length] in L |- *. lia.
    + exists 0%nat. split; [lia|]. split; [done|]. split; [lia|]. split; [cbn [length]; lia|]. intros _. exact Wp.
  - exists 0%nat. split; [lia|]. split; [done|]. split; [lia|]. split; [lia|]. lia.
Qed.

Lemma fastest_one rate a : (p_residual (pointOf rate (fst a) (snd a)) <? p_residual (pointOf rate (fst a) (snd a)))%D = false ->
  fastest rate [a] (pointOf rate (fst a) (snd a)).
Proof. intros E. split; [exists a; split; [by left|done]|by repeat constructor]. Qed.

Lemma fastest_snoc rate b p a :
  fastest rate b p ->
  let q := pointOf rate (fst a) (snd a) in
  fastest rate (b ++ [a])%list (if (p_residual q <? p_residual p)%D then q else p).
Proof.
  intros [(a0 & Hin & ->) F]. cbn zeta. set (q := pointOf rate (fst a) (snd a)).
  destruct (p_residual q <? _)%D eqn:E.
  - split; [exists a; split; [apply in_or_app; right; by left|done]|]. apply Forall_app. split.
    + eapply Forall_impl; [exact F|]. intros x Hx. cbn beta in *.
      destruct (p_residual (pointOf rate (fst x) (snd x)) <? p_residual q)%D eqn:Ex; [|done].
      rewrite (dltb_trans _ _ _ Ex E) in Hx. discriminate.
    + repeat constructor. apply dltb_irrefl.
  - split; [exists a0; split; [apply in_or_app; by left|done]|]. apply Forall_app. split; [done|].
    by repeat constructor.
Qed.

(** The envelope kept of the points [ps]: the newest but the first [k], each of which
    is beyond the window from some point after it; two at least, if there are two,
    and more only if the first is within the window of the last. *)
Record aged (windowSec : double) (ps : list Point) (k : nat) (env : list Point) : Prop := {
  ag_drop : env = drop k ps;
  ag_old : forall i p, (i < k)%nat -> ps !! i = Some p ->
    exists j q, (i < j)%nat /\ ps !! j = Some q /\ (windowSec <? p_hostSec q - p_hostSec p)%D = true;
  ag_two : (Nat.min 2 (length ps) <= length env)%nat;
  ag_within : (2 < length env)%nat -> (windowSec <? p_hostSec (lastOf env) - p_hostSec (firstOf env))%D = false
}.
Lemma aged_snoc w ps k env p : (k <= length ps)%nat -> aged w ps k env ->
  exists k', (k' <= length (ps ++ [p]))%nat /\ aged w (ps ++ [p]) k' (ageOff w (p_hostSec p) (env ++ [p])).
Proof.
  intros Lk [-> O T W]. destruct (ageOff_spec w (p_hostSec p) (drop k ps ++ [p])) as (j & Lj & E & B & M & Wj).
  assert (D : drop k ps ++ [p] = drop k (ps ++ [p])) by (symmetry; by apply drop_app_le).
  rewrite length_app, length_drop in Lj, M. cbn [length] in Lj, M.
  assert (Ln : (1 <= length (ageOff w (p_hostSec p) (drop k ps ++ [p])))%nat) by lia.
  rewrite E, length_drop, length_app, length_drop in Ln. cbn [length] in Ln.
  exists (k + j)%nat. split; [rewrite length_app; cbn; lia|]. split.
  - by rewrite E, D, drop_drop.
  - intros i q Li Ei. destruct (decide (i < k)%nat) as [H|H].
    + rewrite lookup_app_l in Ei by lia. destruct (O i q H Ei) as (i' & q' & Lt & E' & R). exists i', q'. split; [done|]. split; [|done].
      rewrite lookup_app_l; [done|]. by apply lookup_lt_Some in E'.
    + exists (length ps), p. split; [lia|]. split; [by apply list_lookup_middle|]. apply (B (i - k)%nat); [lia|].
      rewrite D, lookup_drop. by replace (k + (i - k))%nat with i by lia.
  - rewrite length_app. cbn [length]. rewrite length_drop in T. lia.
  - intros L2. specialize (Wj L2). rewrite E in Wj |- *.
    assert (La : lastOf (drop j (drop k ps ++ [p])) = p); [|by rewrite La].
    rewrite drop_app_le by (rewrite length_drop; lia). unfold lastOf. apply last_last.
Qed.

(** What a run has made of its arrivals: closed buckets and an open one. *)
Record Buckets (c : SampleClock) (obs : list Arrival) : Prop := {
  bk : exists (cs : list (list Arrival)) (open : list Arrival) (ps : list Point) (k : nat),
    obs = (concat cs ++ open)%list /\
    Forall (closed (m_bucketSec c)) cs /\ Forall2 (fastest (m_rate c)) cs ps /\
    (k <= length ps)%nat /\ aged (m_windowSec c) ps k (m_envelope c) /\
    m_fit c = refit (m_rate c) (m_envelope c) /\
    match open with
    | [] => m_bucket c = None
    | o :: b1 =>
        Forall (fun a => (snd a - snd o <? m_bucketSec c)%D = true) b1 /\
        exists best, m_bucket c = Some (best, snd o) /\ fastest (m_rate c) open best
    end
}.

Lemma observe_buckets c obs a : Buckets c obs -> Buckets (observe c (fst a) (snd a)) (obs ++ [a])%list.
Proof.
  intros [(cs & open & ps & k & E & Cl & F & Lk & Ag & Fi & B)]. unfold observe. destruct open as [|o b1].
  - rewrite B. constructor. exists cs, [a], ps, k. cbn. rewrite app_nil_r in E. rewrite E.
    split; [done|]. split; [done|]. split; [done|]. split; [done|]. split; [done|]. split; [done|]. split; [constructor|].
    eexists. split; [done|]. apply fastest_one, dltb_irrefl.
  - destruct B as (W & best & -> & Fb). set (q := pointOf _ _ _). set (best' := if (_ <? p_residual best)%D then _ else _).
    assert (Fb' : fastest (m_rate c) ((o :: b1) ++ [a])%list best') by apply (fastest_snoc _ _ _ a Fb).
    destruct (snd a - snd o <? m_bucketSec c)%D eqn:Wn.
    + constructor. exists cs, ((o :: b1) ++ [a])%list, ps, k. cbn [m_envelope m_bucketSec m_rate m_fit m_bucket m_windowSec]. rewrite E, app_assoc.
      split; [done|]. split; [done|]. split; [done|]. split; [done|]. split; [done|]. split; [done|]. cbn [app].
      split; [apply Forall_app; split; [done|]; by repeat constructor|]. by exists best'.
    + constructor. destruct (aged_snoc (m_windowSec c) ps k (m_envelope c) best' Lk Ag) as (k' & Lk' & Ag').
      exists (cs ++ [(o :: b1) ++ [a]])%list, [], (ps ++ [best'])%list, k'. cbn [m_envelope m_bucketSec m_rate m_fit m_bucket m_windowSec].
      split; [rewrite concat_app; cbn [concat]; by rewrite E, !app_nil_r, app_assoc|].
      split; [apply Forall_app; split; [done|]; constructor; [|constructor]; by exists o, b1, a|].
      split; [apply Forall2_app; [done|]; constructor; [exact Fb'|constructor]|]. split; [exact Lk'|]. by split.
Qed.

Lemma observe_fixed c n t :
  m_rate (observe c n t) = m_rate c /\ m_bucketSec (observe c n t) = m_bucketSec c /\ m_windowSec (observe c n t) = m_windowSec c.
Proof. unfold observe. destruct (m_bucket c) as [[? ?]|]; [destruct (_ <? m_bucketSec c)%D|]; done. Qed.

Lemma arrivals_buckets obs : forall c past, Buckets c past -> Buckets (run c obs) (past ++ obs)%list.
Proof.
  induction obs as [|a obs IH]; intros c past B; [by rewrite app_nil_r|].
  rewrite (cons_middle a past obs). pose proof (observe_buckets c past a B) as B'. destruct a as [n t].
  rewrite app_assoc. exact (IH _ _ B').
Qed.

Lemma arrivals_fixed obs : forall c,
  m_rate (run c obs) = m_rate c /\ m_bucketSec (run c obs) = m_bucketSec c /\ m_windowSec (run c obs) = m_windowSec c.
Proof.
  induction obs as [|[n t] obs IH]; intros c; [done|]. destruct (IH (observe c n t)) as (E1 & E2 & E3).
  destruct (observe_fixed c n t) as (<- & <- & <-). by split.
Qed.

Lemma refit_slope rate env : f_valid (refit rate env) = true ->
  (2 <= length env)%nat /\
  (if f_slopeHeld (refit rate env) then f_secPerSample (refit rate env) = (1 / d_of_Z rate)%D
   else plausible rate (f_secPerSample (refit rate env)) = true).
Proof.
  unfold refit. destruct (Nat.ltb_spec (length env) 2) as [|L]; [done|]. cbn zeta. cbn [f_valid f_slopeHeld f_secPerSample].
  intros _. split; [lia|]. set (fitted := if (_ <=? 0)%D then _ else _).
  destruct (plausible rate fitted) eqn:P; by cbn.
Qed.

(** ** Properties *)

(** C29: the sample clock fits the lower envelope of the arrivals. Whatever
    packets arrive, they fall into consecutive buckets, each closed by its first
    arrival a bucket's length after its first, and an open one that nothing has
    closed yet, whose fastest packet is held; there is one point for each closed
    bucket, its fastest packet; the points fitted are the newest of them, the
    others each being beyond the window from a later one, two at least if there are
    two and more only within the window; and there is a fit exactly when there are
    two, the line through them, its rate strictly within 200 ppm of nominal or else
    exactly nominal and said to be held. *)
Theorem sample_clock_lower_envelope (rate : Z) (bucketSec windowSec : double) (obs : list Arrival) :
  let c := run (newClock rate bucketSec windowSec) obs in
  exists (cs : list (list Arrival)) (open : list Arrival) (ps : list Point) (k : nat),
    obs = (concat cs ++ open)%list /\ Forall (closed bucketSec) cs /\
    match open with
    | [] => m_bucket c = None
    | o :: b1 =>
        Forall (fun a => (snd a - snd o <? bucketSec)%D = true) b1 /\
        exists best, m_bucket c = Some (best, snd o) /\ fastest (m_rate c) open best
    end /\
    Forall2 (fastest (m_rate c)) cs ps /\ aged windowSec ps k (m_envelope c) /\
    f_valid (m_fit c) = (2 <=? length ps)%nat /\ m_fit c = refit (m_rate c) (m_envelope c) /\
    (f_valid (m_fit c) = true ->
       if f_slopeHeld (m_fit c) then f_secPerSample (m_fit c) = (1 / d_of_Z (m_rate c))%D
       else plausible (m_rate c) (f_secPerSample (m_fit c)) = true).
Proof.
  cbn zeta. set (c0 := newClock rate bucketSec windowSec).
  assert (B0 : Buckets c0 []).
  { constructor. exists [], [], [], 0%nat. repeat (split; [done|]). split; [|done]. split; [done|lia|done|]. cbn. lia. }
  destruct (arrivals_buckets obs c0 [] B0) as [(cs & open & ps & k & E & Cl & F & Lk & Ag & Fi & B)].
  destruct (arrivals_fixed obs c0) as (_ & Eb & Ew). rewrite Eb in Cl, B. rewrite Ew in Ag.
  exists cs, open, ps, k. split; [exact E|]. split; [exact Cl|]. split; [exact B|]. split; [exact F|]. split; [exact Ag|].
  split; [|split; [exact Fi|]].
  - rewrite Fi. destruct Ag as [Ed _ T _]. rewrite Ed in T |- *. rewrite length_drop in T. unfold refit. rewrite length_drop.
    destruct (Nat.ltb_spec (length ps - k) 2), (Nat.leb_spec 2 (length ps)); cbn [f_valid]; try done; exfalso; lia.
  - intros V. rewrite Fi in V |- *. by apply refit_slope.
Qed.
