(* ===== verification/CaptureClock.v ===== *)
(** * The capture clock (src/SampleClock.cpp, CaptureClock and HostSlewGuard)
    For a receiver on this host: each packet's own capture time maps the samples
    nearest it, and is trusted while the host clock runs at its usual rate. *)

From Stdlib Require Import ZArith Lia List Bool Floats.
From stdpp Require Import base list sorting.
From S2P Require Import Prelude Doubles Text.

#[local] Open Scope Z_scope.

(** ** Marks *)

Definition kMarkHistorySec : double := 900%D.
Definition kMaxExtrapolateSec : double := 2%D.

Record Mark := MkMark { mk_sample : Z; mk_sec : double }.
Record CaptureClock := MkCapture { cc_rate : Z; m_marks : list Mark }.

Definition newCapture (sampleRate : Z) : CaptureClock := MkCapture sampleRate [].
Definition setSampleRate (c : CaptureClock) (rate : Z) : CaptureClock :=
  MkCapture rate (if rate =? cc_rate c then m_marks c else []).
Definition reset (c : CaptureClock) : CaptureClock := MkCapture (cc_rate c) [].

(** Marks too far behind the newest sample are dropped, but never the last. *)
Fixpoint dropOld (keep firstSample : Z) (ms : list Mark) : list Mark :=
  match ms with
  | m :: ((_ :: _) as rest) => if keep <? firstSample - mk_sample m then dropOld keep firstSample rest else ms
  | _ => ms
  end.

Definition observe (c : CaptureClock) (firstSample : Z) (captureSec : double) : CaptureClock :=
  let ms := match last (m_marks c) with
            | Some b => if firstSample <=? mk_sample b then [] else m_marks c
            | None => m_marks c end in
  let ms := (ms ++ [MkMark firstSample captureSec])%list in
  if cc_rate c <=? 0 then MkCapture (cc_rate c) ms
  else MkCapture (cc_rate c) (dropOld (d2ll (kMarkHistorySec * d_of_Z (cc_rate c))%D) firstSample ms).

(** [std::lower_bound] and the mark before it: the marks below the sample, and
    the first that is not. *)
Fixpoint around (prev : option Mark) (ms : list Mark) (sample : double) : option Mark * option Mark :=
  match ms with
  | [] => (prev, None)
  | m :: rest => if (d_of_Z (mk_sample m) <? sample)%D then around (Some m) rest sample else (prev, Some m)
  end.

Definition nearest (ms : list Mark) (sample : double) : option Mark :=
  match around None ms sample with
  | (None, best) => best
  | (Some prev, None) => Some prev
  | (Some prev, Some best) =>
      if (sample - d_of_Z (mk_sample prev) <=? d_of_Z (mk_sample best) - sample)%D then Some prev else Some best
  end.

Definition hostTimeAt (c : CaptureClock) (sample : double) : option double :=
  if cc_rate c <=? 0 then None
  else
    best ← nearest (m_marks c) sample;
    let dist := ((sample - d_of_Z (mk_sample best)) / d_of_Z (cc_rate c))%D in
    if (kMaxExtrapolateSec <? dabs dist)%D then None else Some (mk_sec best + dist)%D.

Definition marks (c : CaptureClock) : nat := length (m_marks c).
Definition spanSec (c : CaptureClock) : double :=
  match m_marks c, last (m_marks c) with
  | front :: _ :: _, Some back =>
      if cc_rate c <=? 0 then 0%D else (d_of_Z (mk_sample back - mk_sample front) / d_of_Z (cc_rate c))%D
  | _, _ => 0%D
  end.

(** ** The host clock's steadiness *)

Definition kShortSec : double := 16%D.
Definition kHistorySec : double := 900%D.
Definition kMaxDeviationPpm : double := 20%D.
Definition kExposureSec : double := 13%D.
Definition kCrystalAllowancePpm : double := 50%D.

Record Reading := MkReading { rd_daemonSec : double; rd_dmr : double }.
Record HostSlewGuard := MkGuard {
  m_hist : list Reading; m_deviationPpm : double; m_calmSince : double
}.
Definition newGuard : HostSlewGuard := MkGuard [] nan (-1)%D.
Definition resetGuard (g : HostSlewGuard) : HostSlewGuard := newGuard.

Fixpoint forgetOld (now : double) (h : list Reading) : list Reading :=
  match h with
  | [] => []
  | r :: rest => if (2 <? length h)%nat && (kHistorySec <? now - rd_daemonSec r)%D then forgetOld now rest else h
  end.

Definition slopeBetween (a b : Reading) : double :=
  ((rd_dmr b - rd_dmr a) / (rd_daemonSec b - rd_daemonSec a))%D.

(** The first reading at least [kShortSec] after [from], and what follows it. *)
Fixpoint nextSpan (from : Reading) (h : list Reading) : option (list Reading) :=
  match h with
  | [] => None
  | r :: rest => if (rd_daemonSec r - rd_daemonSec from <? kShortSec)%D then nextSpan from rest else Some h
  end.
(** The consecutive [kShortSec] slopes; each starts at least one reading after
    the last, so the history's length is fuel enough. *)
Fixpoint slopesOf (fuel : nat) (h : list Reading) : list double :=
  match fuel, h with
  | S fuel, r :: rest =>
      match nextSpan r rest with
      | Some ((b :: _) as h') => slopeBetween r b :: slopesOf fuel h'
      | _ => []
      end
  | _, _ => []
  end.

(** [std::nth_element] at the middle. *)
Definition middleSlope (slopes : list double) : double := nthSmallest (length slopes / 2) slopes.

Definition deviationOf (shortRate : double) (slopes : list double) : double :=
  if (5 <=? length slopes)%nat then (dabs (shortRate - middleSlope slopes) * 1e6)%D
  else dmax 0 (dabs shortRate * 1e6 - kCrystalAllowancePpm)%D.

Definition sample (g : HostSlewGuard) (daemonSec dmr : double) : HostSlewGuard :=
  let early := match last (m_hist g) with
               | Some b => (daemonSec - rd_daemonSec b <? 1)%D
               | None => false end in
  if early then g
  else
    let now := MkReading daemonSec dmr in
    let h := forgetOld daemonSec (m_hist g ++ [now])%list in
    match List.find (fun r => (daemonSec - rd_daemonSec r <=? kShortSec)%D) h with
    | Some from =>
        if (rd_daemonSec now - rd_daemonSec from <? 0.5 * kShortSec)%D then MkGuard h nan (-1)%D
        else
          let deviation := deviationOf (slopeBetween from now) (slopesOf (length h) h) in
          MkGuard h deviation
            (if (kMaxDeviationPpm <? deviation)%D then (-1)%D
             else if (m_calmSince g <? 0)%D then daemonSec else m_calmSince g)
    | None => MkGuard h nan (-1)%D
    end.

(** Why capture times are not trusted; the text of the slew names the rate. *)
Inductive NotSteady := MeasuringRate | BeingSlewed (ppm : double) | OnlyJustSteady.
Definition unsteady (g : HostSlewGuard) (daemonSec : double) : option NotSteady :=
  if negb (m_deviationPpm g =? m_deviationPpm g)%D then Some MeasuringRate
  else if (m_calmSince g <? 0)%D then Some (BeingSlewed (m_deviationPpm g))
  else if (daemonSec - m_calmSince g <? kExposureSec)%D then Some OnlyJustSteady
  else None.
Definition steady (g : HostSlewGuard) (daemonSec : double) : bool :=
  match unsteady g daemonSec with None => true | Some _ => false end.
Definition deviationPpm (g : HostSlewGuard) : double := m_deviationPpm g.

(** ** Lemmas *)

Lemma dropOld_suffix keep s ms : exists k, dropOld keep s ms = drop k ms.
Proof.
  induction ms as [|m ms [k IH]]; [by exists 0%nat|]. cbn [dropOld]. destruct ms as [|m' ms]; [by exists 0%nat|].
  destruct (_ <? _); [|by exists 0%nat]. by exists (S k).
Qed.

(** The guard's readings, newest last, with the guard each left. *)
Definition runGuard (rs : list Reading) : HostSlewGuard :=
  fold_left (fun g r => sample g (rd_daemonSec r) (rd_dmr r)) rs newGuard.

(** A reading left the guard calm: its deviation not beyond the limit. *)
Definition calm (g : HostSlewGuard) : Prop := (kMaxDeviationPpm <? m_deviationPpm g)%D = false.

(** The stretch of readings that [m_calmSince] dates: the first was at that
    time, and every one of them left the guard calm. *)
Definition calmStretch (rs : list Reading) : Prop :=
  (m_calmSince (runGuard rs) <? 0)%D = true \/
  exists before r after, rs = (before ++ r :: after)%list /\
    rd_daemonSec r = m_calmSince (runGuard rs) /\
    forall k, (k <= length after)%nat -> calm (runGuard (before ++ r :: take k after)).

Lemma runGuard_snoc rs r : runGuard (rs ++ [r]) = sample (runGuard rs) (rd_daemonSec r) (rd_dmr r).
Proof. unfold runGuard. by rewrite fold_left_app. Qed.

Lemma sample_cases g t d :
  sample g t d = g \/
  (m_calmSince (sample g t d) = (-1)%D) \/
  ((kMaxDeviationPpm <? m_deviationPpm (sample g t d))%D = false /\
   m_calmSince (sample g t d) = if (m_calmSince g <? 0)%D then t else m_calmSince g).
Proof.
  unfold sample. set (early := match last (m_hist g) with Some _ => _ | None => _ end).
  destruct early; [by left|]. right. destruct (List.find _ _) as [from|]; [|by left].
  destruct (_ <? 0.5 * kShortSec)%D; [by left|]. cbn [m_calmSince m_deviationPpm].
  destruct (kMaxDeviationPpm <? _)%D; [by left|right]. by destruct (m_calmSince g <? 0)%D.
Qed.

Lemma calmStretch_runs rs : calmStretch rs.
Proof.
  induction rs as [|r rs IH] using rev_ind; [by left|]. unfold calmStretch. rewrite runGuard_snoc.
  set (g := runGuard rs) in *.
  assert (Ext : forall before r0 after, rs = (before ++ r0 :: after)%list ->
    (forall k, (k <= length after)%nat -> calm (runGuard (before ++ r0 :: take k after))) ->
    calm (sample g (rd_daemonSec r) (rd_dmr r)) ->
    (rs ++ [r] = before ++ r0 :: (after ++ [r]))%list /\
    forall k, (k <= length (after ++ [r]))%nat -> calm (runGuard (before ++ r0 :: take k (after ++ [r])))).
  { intros before r0 after E F C. split; [by rewrite E, <- app_assoc|]. intros k Hk.
    rewrite length_app in Hk. cbn in Hk. destruct (decide (k <= length after)%nat) as [L|L].
    - rewrite take_app_le by done. by apply F.
    - rewrite take_ge by (rewrite length_app; cbn; lia).
      assert (Eq : (before ++ r0 :: after ++ [r] = rs ++ [r])%list) by (by rewrite E, <- app_assoc).
      by rewrite Eq, runGuard_snoc. }
  destruct (sample_cases g (rd_daemonSec r) (rd_dmr r)) as [Es|[Es|[C Es]]].
  - rewrite Es in *. destruct IH as [L|(before & r0 & after & E & D & F)]; [by left|right].
    destruct (Ext before r0 after E F) as [E' F']; [|by exists before, r0, (after ++ [r])%list].
    pose proof (F (length after) ltac:(lia)) as Fl. rewrite firstn_all, <- E in Fl. exact Fl.
  - left. by rewrite Es.
  - destruct (m_calmSince g <? 0)%D eqn:N.
    + right. exists rs, r, []. split; [done|]. split; [by rewrite Es|]. intros [|k] Hk; [|cbn in Hk; lia].
      cbn [take]. rewrite runGuard_snoc. exact C.
    + right. destruct IH as [L|(before & r0 & after & E & D & F)]; [unfold g in N; by rewrite L in N|].
      destruct (Ext before r0 after E F C) as [E' F']. exists before, r0, (after ++ [r])%list.
      split; [done|]. split; [by rewrite Es|done].
Qed.

(** *** Marks in order *)

Definition marksOk (ms : list Mark) : Prop := Sorted (fun a b => mk_sample a < mk_sample b) ms.
Definition runMarks (rate : Z) (obs : list (Z * double)) : CaptureClock :=
  fold_left (fun c '(n, t) => observe c n t) obs (newCapture rate).

Lemma marksOk_snoc ms m : marksOk ms ->
  match last ms with Some b => mk_sample b < mk_sample m | None => True end -> marksOk (ms ++ [m]).
Proof.
  unfold marksOk. induction ms as [|a ms IH]; intros S L; [by repeat constructor|].
  inversion S as [|? ? S' H]; subst. cbn. constructor.
  - apply IH; [done|]. destruct ms; [done|]. exact L.
  - destruct ms as [|a' ms]; [cbn; by constructor|]. inversion H; subst. by constructor.
Qed.
Lemma marksOk_drop k ms : marksOk ms -> marksOk (drop k ms).
Proof.
  revert k. induction ms as [|a ms IH]; intros [|k] S; try done. cbn. apply IH. by inversion S.
Qed.
Lemma observe_marksOk c n t : marksOk (m_marks c) -> marksOk (m_marks (observe c n t)).
Proof.
  intros S. unfold observe. set (ms := match last (m_marks c) with Some _ => _ | None => _ end).
  assert (S' : marksOk (ms ++ [MkMark n t])).
  { unfold ms. destruct (last (m_marks c)) as [b|] eqn:E.
    - destruct (Z.leb_spec n (mk_sample b)); [by repeat constructor|]. apply marksOk_snoc; [done|].
      by rewrite E.
    - apply marksOk_snoc; [done|]. by rewrite E. }
  destruct (cc_rate c <=? 0); cbn [m_marks]; [done|].
  match goal with |- context [dropOld ?k ?s ?l] => destruct (dropOld_suffix k s l) as [j ->] end.
  by apply marksOk_drop.
Qed.

(** ** Properties *)

(** Capture times are trusted only after the host clock has held its rate.
    Whatever readings the guard has taken, when it says steady there was a
    reading at least the exposure time ago from which on every reading, up to
    the last, left a deviation not beyond 20 ppm. *)
Lemma steady_has_held (rs : list Reading) (t : double) :
  steady (runGuard rs) t = true ->
  exists before r after, rs = (before ++ r :: after)%list /\
    (t - rd_daemonSec r <? kExposureSec)%D = false /\
    forall k, (k <= length after)%nat -> calm (runGuard (before ++ r :: take k after)).
Proof.
  unfold steady, unsteady. destruct (negb _); [done|].
  destruct (m_calmSince (runGuard rs) <? 0)%D eqn:N; [done|].
  destruct (t - m_calmSince (runGuard rs) <? kExposureSec)%D eqn:X; [done|]. intros _.
  destruct (calmStretch_runs rs) as [L|(before & r & after & E & D & F)]; [congruence|].
  exists before, r, after. split; [done|]. split; [by rewrite D|done].
Qed.

Definition demoReadings : list Reading :=
  map (fun i => MkReading (d_of_Z (1000 + 4 * i)) (d_of_Z (1000 + 4 * i) * 1e-6)%D) (map Z.of_nat (seq 0 12)).

Lemma steady_has_held_witness :
  exists before r after, demoReadings = (before ++ r :: after)%list /\
    (1044 - rd_daemonSec r <? kExposureSec)%D = false /\
    forall k, (k <= length after)%nat -> calm (runGuard (before ++ r :: take k after)).
Proof. apply steady_has_held. vm_compute. reflexivity. Defined.

(** The marks are always in order, so the nearest is the one found. *)
Lemma marks_in_order rate obs : marksOk (m_marks (runMarks rate obs)).
Proof.
  unfold runMarks. assert (S : marksOk (m_marks (newCapture rate))) by constructor.
  revert S. generalize (newCapture rate). induction obs as [|[n t] obs IH]; intros c S; [done|].
  cbn. apply IH. by apply observe_marksOk.
Qed.
