(* ===== verification/Propagation.v ===== *)
(** * Paths from the transmitters, and what their delay is worth
    (src/Propagation.cpp, src/Uncertainty.cpp)
    Great circles, hops, flight times, and the uncertainty a source may claim.
    The trigonometric functions of the C++ library are the class [Trig]. *)

From Stdlib Require Import ZArith Lia List Bool Ascii String Floats.
From stdpp Require Import base list strings.
From S2P Require Import Prelude Doubles Rounding SourceTypes.

#[local] Open Scope string_scope.
#[local] Open Scope Z_scope.

Class Trig := {
  std_sin : double -> double; std_cos : double -> double;
  std_asin : double -> double; std_acos : double -> double
}.

(** ** Sites *)

Record GeoPoint := MkGeo { g_lat : double; g_lon : double; g_valid : bool }.
Definition nowhere : GeoPoint := MkGeo 0 0 false.

Definition kEarthRadiusM : double := 6371000%D.
Definition kC : double := 299792458%D.
Definition kPi : double := 3.14159265358979323846%D.
Definition rad (deg : double) : double := (deg * kPi / 180)%D.

Definition wwvSite : GeoPoint := MkGeo 40.67806 (-105.04667) true.
Definition wwvbSite : GeoPoint := MkGeo 40.67806 (-105.04667) true.
Definition wwvhSite : GeoPoint := MkGeo 21.98750 (-159.76306) true.
Definition dcf77Site : GeoPoint := MkGeo 50.015528 9.008515 true.
Definition msfSite : GeoPoint := MkGeo 54.916667 (-3.250000) true.
Definition allouisSite : GeoPoint := MkGeo 47.168056 2.200556 true.

Definition kGroundwaveLimitM : double := 300000%D.
Definition kVirtualHeightM : double := 350000%D.
Definition kVirtualHeightLowM : double := 250000%D.
Definition kVirtualHeightHighM : double := 450000%D.
Definition kMinElevationRad : double := (3 * 3.14159265358979323846 / 180)%D.
Definition kLfGroundIndex : double := 1.0003%D.

Section Paths.
Context `{Trig}.

Definition greatCircleMeters (a b : GeoPoint) : double :=
  if negb (g_valid a) || negb (g_valid b) then 0%D
  else
    let p1 := rad (g_lat a) in
    let p2 := rad (g_lat b) in
    let dp := rad (g_lat b - g_lat a)%D in
    let dl := rad (g_lon b - g_lon a)%D in
    let h := (std_sin (dp / 2) * std_sin (dp / 2)
              + std_cos p1 * std_cos p2 * std_sin (dl / 2) * std_sin (dl / 2))%D in
    (2 * kEarthRadiusM * std_asin (dmin 1 (PrimFloat.sqrt h)))%D.

(** ** Skywave *)

Definition maxHopMeters (virtualHeightM minElevationRad : double) : double :=
  let Rh := (kEarthRadiusM + dmax 1 virtualHeightM)%D in
  let eps := dmax 0 minElevationRad in
  let c := dmin 1 (kEarthRadiusM * std_cos eps / Rh)%D in
  let theta := (std_acos c - eps)%D in
  if (0 <? theta)%D then (2 * kEarthRadiusM * theta)%D else 0%D.

Definition hopCount (distanceMeters virtualHeightM : double) : Z :=
  let maxHop := maxHopMeters virtualHeightM kMinElevationRad in
  if (maxHop <=? 0)%D then 1
  else Z.max 1 (d2ll (dceil (distanceMeters / maxHop)%D)).

(** One hop's slant range, up to the reflection point. *)
Definition slantOf (distanceMeters virtualHeightM : double) (hops : Z) : double :=
  let halfArc := (distanceMeters / d_of_Z hops / 2 / kEarthRadiusM)%D in
  let R := kEarthRadiusM in
  let Rh := (kEarthRadiusM + virtualHeightM)%D in
  PrimFloat.sqrt (R * R + Rh * Rh - 2 * R * Rh * std_cos halfArc)%D.

Definition skywaveDelaySeconds (distanceMeters virtualHeightM : double) : double :=
  if (distanceMeters <=? 0)%D then 0%D
  else if (distanceMeters <? kGroundwaveLimitM)%D then (distanceMeters / kC)%D
  else
    let hops := hopCount distanceMeters virtualHeightM in
    (2 * d_of_Z hops * slantOf distanceMeters virtualHeightM hops / kC)%D.

(** How far the delay of other plausible modes is from the model's, at most. *)
Definition skywaveModeSpreadSeconds (distanceMeters : double) : double :=
  if (distanceMeters <=? 0)%D then 0%D
  else
    let model := skywaveDelaySeconds distanceMeters kVirtualHeightM in
    fold_left (fun worst h =>
      let least := hopCount distanceMeters h in
      fold_left (fun worst hops =>
        dmax worst (dabs (2 * d_of_Z hops * slantOf distanceMeters h hops / kC - model)%D))
        [least; least + 1] worst)
      [kVirtualHeightLowM; kVirtualHeightM; kVirtualHeightHighM] 0%D.

Definition lfDelaySeconds (distanceMeters : double) : double :=
  if (distanceMeters <=? 0)%D then 0%D else (distanceMeters * kLfGroundIndex / kC)%D.

(** ** Uncertainty *)

Definition kDelayUncertaintyFloorSec : double := 0.010%D.
Definition kDelayUncertaintyFraction : double := 0.15%D.
Definition kDelayUncertaintyFloorLfSec : double := 0.001%D.
Definition kLfGroundwaveServiceM : double := 2000e3%D.
Definition kWwvDecoderAllowanceSec : double := 0.001%D.
Definition kWeightDispersionFloorSec : double := 0.0001%D.

Record UncertaintyInputs := MkUncertainty {
  u_broadcast : Broadcast; u_station : string; u_autoDelay : bool; u_captureTimed : bool;
  u_timedByPhase : bool; u_receiver : GeoPoint; u_delaySec : double
}.

Definition lfSite (u : UncertaintyInputs) : option GeoPoint :=
  match u_broadcast u with
  | BDcf77 => Some dcf77Site
  | BAllouis => Some allouisSite
  | BLf60 => if String.eqb (u_station u) "msf" then Some msfSite else None
  | _ => None
  end.

Definition sharpEdge (u : UncertaintyInputs) : bool :=
  match u_broadcast u with BLf60 => true | _ => u_timedByPhase u end.
Definition captured (u : UncertaintyInputs) : bool :=
  u_autoDelay u && u_captureTimed u && g_valid (u_receiver u).

(** The tight floor is earned: an LF station in its groundwave service area. *)
Definition lfEarned (u : UncertaintyInputs) : bool :=
  captured u &&
  match lfSite u with
  | Some site => sharpEdge u && (greatCircleMeters (u_receiver u) site <=? kLfGroundwaveServiceM)%D
  | None => false
  end.
Definition wwvNamed (u : UncertaintyInputs) : bool :=
  captured u && match u_broadcast u with BWwv => true | _ => false end &&
  (String.eqb (u_station u) "wwv" || String.eqb (u_station u) "wwvh").

Definition delayUncertaintySec (u : UncertaintyInputs) : double :=
  if lfEarned u then dmax kDelayUncertaintyFloorLfSec (u_delaySec u * kDelayUncertaintyFraction)%D
  else if wwvNamed u then
    let tx := if String.eqb (u_station u) "wwvh" then wwvhSite else wwvSite in
    (skywaveModeSpreadSeconds (greatCircleMeters (u_receiver u) tx) + kWwvDecoderAllowanceSec)%D
  else dmax kDelayUncertaintyFloorSec (u_delaySec u * kDelayUncertaintyFraction)%D.

Definition weightDispersionSec (ownSec : double) : double := dmax kWeightDispersionFloorSec ownSec.

(** ** Lemmas *)

Lemma dmax_floor a b : dnan a = false -> (dmax a b <? a)%D = false.
Proof.
  intros N. unfold dmax. destruct (a <? b)%D eqn:E; [|apply dltb_irrefl].
  rewrite dltb_key in E |- *. unfold dnan in N. destruct (dkey a), (dkey b); try done.
  apply Z.ltb_lt in E. apply Z.ltb_ge. lia.
Qed.

Lemma spread_nonneg d : (0 <=? skywaveModeSpreadSeconds d)%D = true.
Proof.
  unfold skywaveModeSpreadSeconds. destruct (d <=? 0)%D; [reflexivity|].
  assert (M : forall w x, (0 <=? w)%D = true -> (0 <=? dmax w x)%D = true).
  { intros w x W. unfold dmax. destruct (w <? x)%D eqn:E; [|done].
    rewrite dltb_key in E. rewrite dleb_key in *. destruct (dkey 0), (dkey w), (dkey x); try done.
    apply Z.ltb_lt in E. apply Z.leb_le in W. apply Z.leb_le. lia. }
  cbn [fold_left]. do 6 apply M. reflexivity.
Qed.

End Paths.

(** ** Properties *)

(** C30: a source never claims to know its delay better than a millisecond, and
    claims better than ten only when it has earned it: its delay is modelled
    and its samples capture-timed at a receiver that publishes where it is, and
    it is either an LF station with a sharp second edge inside its groundwave
    service area, or WWV or WWVH named by the decoder. Every NaN included. *)
Theorem delay_uncertainty_earned `{Trig} (u : UncertaintyInputs) :
  (delayUncertaintySec u <? 0.001)%D = false /\
  ((delayUncertaintySec u <? 0.010)%D = true ->
     u_autoDelay u = true /\ u_captureTimed u = true /\ g_valid (u_receiver u) = true /\
     ((exists site, lfSite u = Some site /\ sharpEdge u = true /\
         (greatCircleMeters (u_receiver u) site <=? kLfGroundwaveServiceM)%D = true) \/
      (u_broadcast u = BWwv /\ (u_station u = "wwv" \/ u_station u = "wwvh")))).
Proof.
  assert (Cap : captured u = true -> u_autoDelay u = true /\ u_captureTimed u = true /\ g_valid (u_receiver u) = true).
  { unfold captured. rewrite !andb_true_iff. tauto. }
  unfold delayUncertaintySec. destruct (lfEarned u) eqn:E.
  - split; [by apply (dmax_floor kDelayUncertaintyFloorLfSec)|]. intros _. unfold lfEarned in E.
    apply andb_true_iff in E as [C E]. destruct (Cap C) as (-> & -> & ->). repeat split. left.
    destruct (lfSite u) as [site|]; [|done]. apply andb_true_iff in E. by exists site.
  - destruct (wwvNamed u) eqn:W.
    + split.
      * assert (S : (0.001 <=? skywaveModeSpreadSeconds (greatCircleMeters (u_receiver u)
                       (if String.eqb (u_station u) "wwvh" then wwvhSite else wwvSite)) + kWwvDecoderAllowanceSec)%D = true).
        { apply dadd_ge_r; [apply spread_nonneg|reflexivity]. }
        rewrite dleb_key in S. rewrite dltb_key. destruct (dkey 0.001), (dkey (_ + _)); try done.
        apply Z.leb_le in S. by apply Z.ltb_ge.
      * intros _. unfold wwvNamed in W. rewrite !andb_true_iff, orb_true_iff, !String.eqb_eq in W.
        destruct W as [[C B] N]. destruct (Cap C) as (-> & -> & ->). repeat split. right.
        by destruct (u_broadcast u).
    + split.
      * pose proof (dmax_floor kDelayUncertaintyFloorSec (u_delaySec u * kDelayUncertaintyFraction)%D eq_refl) as F.
        destruct (_ <? 0.001)%D eqn:L; [|done].
        rewrite (dltb_trans _ 0.001 kDelayUncertaintyFloorSec L eq_refl) in F. discriminate.
      * intros L. rewrite (dmax_floor kDelayUncertaintyFloorSec) in L by reflexivity. discriminate.
Qed.
