(* ===== verification/Source.v ===== *)
(** * A receiver's source: its state and the timing of its samples (src/Source.cpp)
    From the decoder's callbacks to the offsets handed on: how samples are timed,
    how a decoded time anchors the source, how the anchor is extended second by
    second, what the source claims its offset is worth, and when it is ready.
    This file holds the state, the delay model, capture timing, the timeline of
    server stamps and the choice of decoder; SourceSteps.v the rest.
    The clocks ([daemonNow], [monotonicNow]) are arguments of what reads them. *)

From Stdlib Require Import ZArith Lia List Bool Ascii String Floats.
From stdpp Require Import base list strings.
From S2P Require Import Prelude SampleClock CaptureClock Doubles Text ClockTypes CivilTime SourceTypes TimeContinuity.
From S2P Require Import OffsetEstimator Propagation.

#[local] Open Scope string_scope.
#[local] Open Scope Z_scope.

(** ** Constants *)

Definition kOffsetStaleSec : double := 180%D.
Definition kAnchorMaxAgeSec : double := 300%D.
Definition kWwvResidualSec : double := 0%D.
Definition kMsfDecoderEdgeBiasSec : double := 0.000190%D.
Definition kUberSdrChainDelaySec : double := 0.0094%D.
Definition kMaxCaptureLagSec : double := 1%D.
Definition kTimingPendingSec : double := 5%D.
Definition kCaptureFrameToleranceSec : double := 50e-6%D.
Definition kMaxPongSec : double := 10%D.
Definition kLeapConfirmFrames : Z := 3.
Definition kLf60DescriptionWaitSec : double := 60%D.
Definition kStationMemorySec : double := 900%D.
(** The estimator of a radio source holds through jitter spikes. *)
Definition radioTuning : OffsetTuning := MkTuning 120 5 1800 600 120 60 5 5 true.

(** ** What the decoder says *)

Record FrameInfo := MkFrameInfo { fi_start : Z; fi_dut1Tenths : Z; fi_leapPending : bool }.
Record TimeInfo := MkTimeInfo {
  ti_fields : TimeFields; ti_quality : double; ti_edge : Z; ti_edgeExact : double
}.
Record SecondInfo := MkSecondInfo {
  si_edge : Z; si_edgeExact : double; si_measured : bool; si_servable : bool
}.

(** ** State *)

Inductive TimingMode := Pending | Capture | Arrival.
#[export] Instance TimingMode_eq_dec : EqDecision TimingMode.
Proof. solve_decision. Defined.

Record SourceConfig := MkSourceConfig {
  c_name : string; c_carrierHz : Z; c_dialHz : Z; c_enabled : bool; c_autoDelay : bool;
  c_delayMs : double; c_extraDelayMs : double; c_captureTiming : bool; c_weight : double
}.
Definition c_broadcast (cfg : SourceConfig) : Broadcast := broadcastFor (c_carrierHz cfg) (c_dialHz cfg).
Definition c_channels (cfg : SourceConfig) : Z := if isIqBroadcast (c_broadcast cfg) then 2 else 1.

(** The timeline of server stamps; [tl_block] is the block's start and minimum. *)
Record Timeline := MkTimeline {
  tl_originNanos : Z; tl_originSample : Z; tl_baseline : double; tl_block : option (Z * double)
}.

(** How samples are timed. [timeline] is [None] where [m_tsHave] is false. *)
Record Timing := MkTiming {
  mode : TimingMode; pendingSince : double; captureTrusted : bool;
  clock : SampleClock.SampleClock; capture : CaptureClock.CaptureClock;
  slew : CaptureClock.HostSlewGuard;
  decoderRate : Z; samplesWritten : Z; lastFrameSamples : Z;
  timeline : option Timeline; gapFills : Z
}.

(** Which decoder runs; WWVB may be taken from IQ. *)
Inductive Decoder := DecWwv | DecWwvb (fromIq : bool) | DecDcf77 | DecMsf | DecAllouis.
#[export] Instance Decoder_eq_dec : EqDecision Decoder.
Proof. solve_decision. Defined.

(** [blocksFed] counts the blocks handed to decoders since the start: it names a
    decoder's answer (see [feedSamples]) and nothing reads it otherwise. *)
Record Running := MkRunning {
  decoder : option Decoder; lf60 : ClockStation; lf60WaitSince : double; rateRefused : bool;
  iqToAudioDelaySec : double; iqToAudioDelayModelSec : double;
  stationMemory : ClockStation; stationMemoryAt : double; blocksFed : Z
}.

Record Anchor := MkAnchor { an_edge : Z; an_utcMs : Z; an_setAt : double }.

(** What the last frame said; [frameStart] is [None] where [m_haveFrame] is
    false. *)
Record Frames := MkFrames {
  frameStart : option Z; leapFrames : Z; leapPending : bool; leapWarnAt : double; dut1Tenths : Z
}.

(** What the continuity check last said: [m_snap.timeCheck], empty for [CheckOk]. *)
Inductive TimeCheck :=
  | CheckOk
  | CheckConfirming (readings decodedMs : Z)
  | CheckRefused (decodedMs : Z) (jump span : double).

Record Checked := MkChecked {
  continuity : Continuity; timeCheck : TimeCheck; rejectedJumps : list double; rejections : Z;
  adoptions : Z; lastRejectedJump : double; lastRejectedMs : Z
}.

(** The delay model's terms. *)
Record DelayModel := MkDelay {
  propagationSec : double; networkSec : double; decoderSec : double; chainSec : double;
  extraSec : double; delaySec : double; rttFromWs : bool
}.
Definition noDelay : DelayModel := MkDelay 0 0 0 0 0 0 false.

(** What the decoder's diagnostics last said, of what the source goes by. *)
Record Heard := MkHeard {
  station : string; toneDetected : bool; phaseLocked : bool; anchoredFrames : bool; refusal : string;
  framesInWindow : Z; windowSize : Z; pmLocked : bool; timingFromPm : bool; tickTiming : bool
}.

(** The sample clock's fit as the snapshot carries it. *)
Record ShownFit := MkShownFit {
  clockFitValid : bool; clockResidualSec : double; clockSpanSec : double; clockPpm : double;
  clockSlopeUncSec : double; clockSlopeHeld : bool; lastExcessDelaySec : double
}.
Definition noShownFit : ShownFit := MkShownFit false 0 0 0 0 false 0.

(** The offset as the snapshot carries it: the estimate last taken over, and
    what is said of it now. *)
Record Offered := MkOffered {
  haveOffset : bool; offered_est : OffsetEstimate; offsetAgeSec : double; offsetSamples : Z;
  dispersionSec : double; weightDispersion : double
}.
Definition noOffer : Offered := MkOffered false noEstimate 0 0 0 0.

Record Rtt := MkRtt {
  rttProbes : list double; wsRttProbes : list double; httpRttMs : double; wsRttMs : double;
  pingSentAt : double
}.

Record Shown := MkShown {
  lastTimeAt : double; lastQuality : Z; lastDecodedMs : option Z;
  lastAudioAt : double; packets : Z; audioBytes : Z; decodeErrors : Z; serverTooOld : bool
}.

(** [clockState] [None] is "stopped". *)
Record Source := MkSource {
  timing : Timing; running : Running; anchor : option Anchor; frames : Frames;
  offsets : Estimator; checked : Checked; clockState : option ClockLockState;
  heard : Heard; shownFit : ShownFit; delay : DelayModel; offered : Offered; rtt : Rtt;
  capturePaused : bool; receiver : GeoPoint; active : bool; activeReason : string; shown : Shown
}.

Definition withTiming (s : Source) (x : Timing) : Source :=
  MkSource x (running s) (anchor s) (frames s) (offsets s) (checked s) (clockState s) (heard s)
    (shownFit s) (delay s) (offered s) (rtt s) (capturePaused s) (receiver s) (active s) (activeReason s) (shown s).
Definition withRunning (s : Source) (x : Running) : Source :=
  MkSource (timing s) x (anchor s) (frames s) (offsets s) (checked s) (clockState s) (heard s)
    (shownFit s) (delay s) (offered s) (rtt s) (capturePaused s) (receiver s) (active s) (activeReason s) (shown s).
Definition withAnchor (s : Source) (x : option Anchor) : Source :=
  MkSource (timing s) (running s) x (frames s) (offsets s) (checked s) (clockState s) (heard s)
    (shownFit s) (delay s) (offered s) (rtt s) (capturePaused s) (receiver s) (active s) (activeReason s) (shown s).
Definition withFrames (s : Source) (x : Frames) : Source :=
  MkSource (timing s) (running s) (anchor s) x (offsets s) (checked s) (clockState s) (heard s)
    (shownFit s) (delay s) (offered s) (rtt s) (capturePaused s) (receiver s) (active s) (activeReason s) (shown s).
Definition withOffsets (s : Source) (x : Estimator) : Source :=
  MkSource (timing s) (running s) (anchor s) (frames s) x (checked s) (clockState s) (heard s)
    (shownFit s) (delay s) (offered s) (rtt s) (capturePaused s) (receiver s) (active s) (activeReason s) (shown s).
Definition withChecked (s : Source) (x : Checked) : Source :=
  MkSource (timing s) (running s) (anchor s) (frames s) (offsets s) x (clockState s) (heard s)
    (shownFit s) (delay s) (offered s) (rtt s) (capturePaused s) (receiver s) (active s) (activeReason s) (shown s).
Definition withState (s : Source) (x : option ClockLockState) : Source :=
  MkSource (timing s) (running s) (anchor s) (frames s) (offsets s) (checked s) x (heard s)
    (shownFit s) (delay s) (offered s) (rtt s) (capturePaused s) (receiver s) (active s) (activeReason s) (shown s).
Definition withHeard (s : Source) (x : Heard) : Source :=
  MkSource (timing s) (running s) (anchor s) (frames s) (offsets s) (checked s) (clockState s) x
    (shownFit s) (delay s) (offered s) (rtt s) (capturePaused s) (receiver s) (active s) (activeReason s) (shown s).
Definition withFit (s : Source) (x : ShownFit) : Source :=
  MkSource (timing s) (running s) (anchor s) (frames s) (offsets s) (checked s) (clockState s) (heard s)
    x (delay s) (offered s) (rtt s) (capturePaused s) (receiver s) (active s) (activeReason s) (shown s).
Definition withDelay (s : Source) (x : DelayModel) : Source :=
  MkSource (timing s) (running s) (anchor s) (frames s) (offsets s) (checked s) (clockState s) (heard s)
    (shownFit s) x (offered s) (rtt s) (capturePaused s) (receiver s) (active s) (activeReason s) (shown s).
Definition withOffer (s : Source) (x : Offered) : Source :=
  MkSource (timing s) (running s) (anchor s) (frames s) (offsets s) (checked s) (clockState s) (heard s)
    (shownFit s) (delay s) x (rtt s) (capturePaused s) (receiver s) (active s) (activeReason s) (shown s).
Definition withRtt (s : Source) (x : Rtt) : Source :=
  MkSource (timing s) (running s) (anchor s) (frames s) (offsets s) (checked s) (clockState s) (heard s)
    (shownFit s) (delay s) (offered s) x (capturePaused s) (receiver s) (active s) (activeReason s) (shown s).
Definition withPaused (s : Source) (x : bool) : Source :=
  MkSource (timing s) (running s) (anchor s) (frames s) (offsets s) (checked s) (clockState s) (heard s)
    (shownFit s) (delay s) (offered s) (rtt s) x (receiver s) (active s) (activeReason s) (shown s).
Definition withReceiver (s : Source) (x : GeoPoint) : Source :=
  MkSource (timing s) (running s) (anchor s) (frames s) (offsets s) (checked s) (clockState s) (heard s)
    (shownFit s) (delay s) (offered s) (rtt s) (capturePaused s) x (active s) (activeReason s) (shown s).
Definition withShown (s : Source) (x : Shown) : Source :=
  MkSource (timing s) (running s) (anchor s) (frames s) (offsets s) (checked s) (clockState s) (heard s)
    (shownFit s) (delay s) (offered s) (rtt s) (capturePaused s) (receiver s) (active s) (activeReason s) x.
Definition withActive (s : Source) (on : bool) (why : string) : Source :=
  MkSource (timing s) (running s) (anchor s) (frames s) (offsets s) (checked s) (clockState s) (heard s)
    (shownFit s) (delay s) (offered s) (rtt s) (capturePaused s) (receiver s) on why (shown s).

Definition setTimingRec (t : Timing) (m : TimingMode) (since : double) (trusted : bool)
    (ck : SampleClock.SampleClock) (cp : CaptureClock.CaptureClock) (sl : CaptureClock.HostSlewGuard) : Timing :=
  MkTiming m since trusted ck cp sl (decoderRate t) (samplesWritten t) (lastFrameSamples t) (timeline t) (gapFills t).
Definition setTimeline (t : Timing) (last : Z) (tl : option Timeline) (fills : Z) : Timing :=
  MkTiming (mode t) (pendingSince t) (captureTrusted t) (clock t) (capture t) (slew t)
    (decoderRate t) (samplesWritten t) last tl fills.
Definition setSamples (t : Timing) (n : Z) (ck : SampleClock.SampleClock) : Timing :=
  MkTiming (mode t) (pendingSince t) (captureTrusted t) ck (capture t) (slew t)
    (decoderRate t) n (lastFrameSamples t) (timeline t) (gapFills t).

Definition stateLocked (s : Source) : bool := bool_decide (clockState s = Some LockLocked).

(** ** The delay model *)

Section Operations.
Context `{Trig} (cfg : SourceConfig).

(** Which transmitter, and whether its path is LF; [None] while 60 kHz is
    undecided. *)
Definition transmitterOf (s : Source) : option (GeoPoint * bool) :=
  let tag := station (heard s) in
  match c_broadcast cfg with
  | BDcf77 => Some (dcf77Site, true)
  | BAllouis => Some (allouisSite, true)
  | b =>
      if String.eqb tag "msf" then Some (msfSite, true)
      else if match b with BLf60 => true | _ => false end && negb (String.eqb tag "wwvb") then None
      else if String.eqb tag "wwvh" then Some (wwvhSite, false)
      else if String.eqb tag "wwvb" || match b with BWwvb => true | _ => false end then Some (wwvbSite, true)
      else Some (wwvSite, false)
  end.

Definition updateDelayModel (s : Source) : Source :=
  if negb (c_autoDelay cfg) then
    let d := (c_delayMs cfg / 1000)%D in
    withDelay s (MkDelay 0 0 0 0 d d (rttFromWs (delay s)))
  else
    let prop :=
      match transmitterOf s with
      | Some (tx, lf) =>
          if g_valid (receiver s) then
            let d := greatCircleMeters (receiver s) tx in
            if lf then lfDelaySeconds d else skywaveDelaySeconds d kVirtualHeightM
          else 0%D
      | None => 0%D
      end in
    let fromWs := (0 <? wsRttMs (rtt s))%D in
    let rttMs := if fromWs then wsRttMs (rtt s) else httpRttMs (rtt s) in
    let captured := bool_decide (mode (timing s) = Capture) in
    let net := if captured then 0%D else if (0 <? rttMs)%D then (rttMs / 1000 * 0.5)%D else 0%D in
    let decoder :=
      match c_broadcast cfg with
      | BWwv => kWwvResidualSec
      | _ => if String.eqb (station (heard s)) "msf" then kMsfDecoderEdgeBiasSec else iqToAudioDelayModelSec (running s)
      end in
    let chain := if captured then 0%D else kUberSdrChainDelaySec in
    let extra := (c_extraDelayMs cfg / 1000)%D in
    withDelay s (MkDelay prop net decoder chain extra (prop + net + decoder + chain + extra)%D fromWs).

Definition bestOf (probes : list double) : double :=
  match probes with [] => 0%D | p :: rest => fold_left dmin rest p end.
Definition keepProbes (probes : list double) (rtt : double) : list double := keep_last 12 (probes ++ [rtt]).

Definition recordWsRtt (s : Source) (rttSec : double) : Source :=
  if negb (0 <? rttSec)%D then s
  else let r := rtt s in let ps := keepProbes (wsRttProbes r) rttSec in
       withRtt s (MkRtt (rttProbes r) ps (httpRttMs r) (bestOf ps * 1000)%D (pingSentAt r)).
Definition recordRtt (s : Source) (rttSec : double) : Source :=
  if negb (0 <? rttSec)%D then s
  else let r := rtt s in let ps := keepProbes (rttProbes r) rttSec in
       withRtt s (MkRtt ps (wsRttProbes r) (bestOf ps * 1000)%D (wsRttMs r) (pingSentAt r)).
Definition onJsonPong (s : Source) (now : double) : Source :=
  let r := rtt s in
  let sentAt := pingSentAt r in
  let s := withRtt s (MkRtt (rttProbes r) (wsRttProbes r) (httpRttMs r) (wsRttMs r) 0) in
  if negb (0 <? sentAt)%D then s
  else
    let took := (now - sentAt)%D in
    if negb (0 <? took)%D || (kMaxPongSec <? took)%D then s else recordWsRtt s took.

(** ** Timing the samples *)

Definition hostTimeAt (s : Source) (sample : double) : option double :=
  match mode (timing s) with
  | Capture => CaptureClock.hostTimeAt (capture (timing s)) sample
  | _ => SampleClock.hostTimeAt (clock (timing s)) sample
  end.

Definition noOffset (o : Offered) : Offered :=
  MkOffered false (offered_est o) (offsetAgeSec o) 0 (dispersionSec o) (weightDispersion o).
Definition noFitShown (f : ShownFit) : ShownFit :=
  MkShownFit false (clockResidualSec f) (clockSpanSec f) (clockPpm f) (clockSlopeUncSec f)
    (clockSlopeHeld f) (lastExcessDelaySec f).
Definition dropOffsets (s : Source) : Source :=
  withOffer (withOffsets s (OffsetEstimator.clear (offsets s))) (noOffset (offered s)).

Definition discardTiming (s : Source) : Source :=
  let t := timing s in
  let s := withTiming s (setTimingRec t (mode t) (pendingSince t) (captureTrusted t)
                           (SampleClock.reset (clock t)) (CaptureClock.reset (capture t)) (slew t)) in
  withFit (dropOffsets (withAnchor s None)) (noFitShown (shownFit s)).

Definition setTiming (s : Source) (m : TimingMode) : Source :=
  let old := mode (timing s) in
  let changed := negb (bool_decide (m = old)) in
  let t := timing s in
  let s := withTiming s (setTimingRec t m (pendingSince t) (captureTrusted t) (clock t) (capture t) (slew t)) in
  let s := if changed && negb (bool_decide (old = Pending)) then discardTiming s else s in
  let t := timing s in
  let s := if changed then
             withTiming s (setTimingRec t m (pendingSince t) true (clock t) (CaptureClock.reset (capture t)) (slew t))
           else s in
  let s := match m with Capture => s | _ => withPaused s false end in
  updateDelayModel s.

(** [hostId] is the name of this host's clock, empty when the kernel gives none. *)
Definition onServerClockId (s : Source) (clockId hostId : string) : Source :=
  if negb (c_captureTiming cfg) then setTiming s Arrival
  else if String.eqb clockId "" then setTiming s Arrival
  else if String.eqb hostId "" then setTiming s Arrival
  else if negb (String.eqb clockId hostId) then setTiming s Arrival
  else setTiming s Capture.

(** The capture instant of a stamp on the daemon clock, when it can be one of a
    packet that arrived at [arrivalSec]. *)
Definition captureOf (stampNanos : Z) (arrivalSec dmrSec : double) : option double :=
  let at_ := (d_of_Z (stampNanos / 1000000000) + d_of_Z (stampNanos mod 1000000000) * 1e-9 + dmrSec)%D in
  let lag := (arrivalSec - at_)%D in
  if (0 <? lag)%D && (lag <? kMaxCaptureLagSec)%D then Some at_ else None.

(** The first component says whether the arrival fit observes this packet. *)
Definition timeBlock (s : Source) (stampNanos rate : Z) (arrivalSec dmrSec now : double) : bool * Source :=
  let t := timing s in
  match mode t with
  | Arrival => (true, s)
  | Pending =>
      if (pendingSince t <=? 0)%D then
        (false, withTiming s (setTimingRec t (mode t) now (captureTrusted t) (clock t) (capture t) (slew t)))
      else if (kTimingPendingSec <? now - pendingSince t)%D then (false, setTiming s Arrival)
      else (false, s)
  | Capture =>
      let sl := CaptureClock.sample (slew t) arrivalSec dmrSec in
      let trusted := CaptureClock.steady sl arrivalSec in
      let cp :=
        if trusted && negb (stampNanos =? 0) && (0 <? rate) then
          match captureOf stampNanos arrivalSec dmrSec with
          | Some at_ => CaptureClock.observe (capture t) (samplesWritten t) at_
          | None => capture t
          end
        else capture t in
      (false, withPaused (withTiming s (setTimingRec t (mode t) (pendingSince t) trusted (clock t) cp sl))
                         (negb trusted))
  end.

(** ** The timeline of server stamps *)

Definition kBlockNanos : Z := 1000000000.
Definition kMaxFillSec : double := 1.5%D.
Definition kMaxBackStepSec : double := 0.1%D.
Definition i64 (z : Z) : Z := (z + 9223372036854775808) mod 18446744073709551616 - 9223372036854775808.

Definition driftOf (tl : Timeline) (samples rate stamp : Z) : double :=
  (d_of_Z (i64 (stamp - tl_originNanos tl)) * 1e-9
   - d_of_Z (samples - tl_originSample tl) / d_of_Z rate)%D.


(** ** Which decoder *)

(** MSF or WWVB, by the nearer transmitter; [StUnknown] while that waits. *)
Definition resolveLf60 (s : Source) (now : double) (answered tried : bool) : ClockStation * Source :=
  let r := running s in
  let loc := receiver s in
  if g_valid loc then
    (if (greatCircleMeters loc msfSite <=? greatCircleMeters loc wwvbSite)%D then StMsf else StWwvb, s)
  else if negb (bool_decide (lf60 r = StUnknown)) then (lf60 r, s)
  else if answered then (StWwvb, s)
  else if tried then
    let since := if (lf60WaitSince r <=? 0)%D then now else lf60WaitSince r in
    let s := withRunning s (MkRunning (decoder r) (lf60 r) since (rateRefused r) (iqToAudioDelaySec r)
               (iqToAudioDelayModelSec r) (stationMemory r) (stationMemoryAt r) (blocksFed r)) in
    (if (kLf60DescriptionWaitSec <=? now - since)%D then StWwvb else StUnknown, s)
  else (StUnknown, s).

Definition setLf60 (s : Source) (want : ClockStation) : Source :=
  let r := running s in
  let h := heard s in
  let t := timing s in
  let s := withHeard s (MkHeard (if bool_decide (want = StMsf) then "msf" else "wwvb") (toneDetected h)
             (phaseLocked h) (anchoredFrames h) (refusal h) (framesInWindow h) (windowSize h)
             (pmLocked h) (timingFromPm h) (tickTiming h)) in
  let s := withRunning s (MkRunning (decoder r) want (lf60WaitSince r) (rateRefused r) (iqToAudioDelaySec r)
             (iqToAudioDelayModelSec r) (stationMemory r) (stationMemoryAt r) (blocksFed r)) in
  withTiming s (MkTiming (mode t) (pendingSince t) (captureTrusted t) (clock t) (capture t) (slew t)
                  0 (samplesWritten t) (lastFrameSamples t) (timeline t) (gapFills t)).

(** One section of the low-pass WWVB is taken through: its group delay at DC. *)
Definition sectionDelay (w0 q : double) : double :=
  let sn := std_sin w0 in
  let c := std_cos w0 in
  let alpha := (sn / (2 * q))%D in
  let a0 := (1 + alpha)%D in
  let a1 := (- 2 * c / a0)%D in
  let a2 := ((1 - alpha) / a0)%D in
  (1 - (a1 + 2 * a2) / (1 + a1 + a2))%D.
Definition iqDelay (rate : Z) : double :=
  let w0 := (2 * 3.14159265358979323846 * 900 / d_of_Z rate)%D in
  ((0 + sectionDelay w0 0.54119610014619698 + sectionDelay w0 1.3065629648763766) / d_of_Z rate)%D.

Definition chosenDecoder (lf : ClockStation) : Decoder :=
  match c_broadcast cfg with
  | BAllouis => DecAllouis
  | BLf60 => if bool_decide (lf = StMsf) then DecMsf else DecWwvb true
  | BDcf77 => DecDcf77
  | BWwvb => DecWwvb false
  | BWwv => DecWwv
  end.

(** What a new decoder is told of the station before any audio: pinned, the
    memory carried over, or nothing. *)
Definition stationPreset (r : Running) (d : Decoder) (now : double) : option ClockStation :=
  match d with
  | DecWwv =>
      if wwvOnlyCarrier (c_carrierHz cfg) then Some StWwv
      else if negb (bool_decide (stationMemory r = StUnknown)) && (now - stationMemoryAt r <? kStationMemorySec)%D
      then Some (stationMemory r) else None
  | _ => None
  end.

(** The sample count starts again, and every figure that counts from it goes. *)
Definition restartCount (s : Source) (rate last : Z) (ck : SampleClock.SampleClock)
    (cp : CaptureClock.CaptureClock) (st : option ClockLockState) : Source :=
  let t := timing s in
  let f := frames s in
  let s := withTiming s (MkTiming (mode t) (pendingSince t) (captureTrusted t) ck cp (slew t)
             rate 0 last None (gapFills t)) in
  let s := withFrames s (MkFrames None 0 false (leapWarnAt f) (dut1Tenths f)) in
  withState (withOffsets (withAnchor s None) (OffsetEstimator.clear (offsets s))) st.

Definition refuseRate (s : Source) (rate : Z) : Source :=
  let t := timing s in
  let s := restartCount s rate (lastFrameSamples t) (SampleClock.reset (clock t)) (CaptureClock.reset (capture t)) None in
  let r := running s in
  let s := withRunning s (MkRunning None (lf60 r) (lf60WaitSince r) true (iqToAudioDelaySec r) 0
             (stationMemory r) (stationMemoryAt r) (blocksFed r)) in
  withFit (withOffer s (noOffset (offered s))) (noFitShown (shownFit s)).

Definition startDecoder (s : Source) (rate : Z) : Source :=
  let t := timing s in
  let s := restartCount s rate (cdiv rate 50)
             (SampleClock.reset (SampleClock.setSampleRate (clock t) rate))
             (CaptureClock.reset (CaptureClock.setSampleRate (capture t) rate)) (Some LockNoSignal) in
  let r := running s in
  let d := chosenDecoder (lf60 r) in
  let fromIq := bool_decide (d = DecWwvb true) in
  let iq := if fromIq then iqDelay rate else iqToAudioDelaySec r in
  updateDelayModel
    (withRunning s (MkRunning (Some d) (lf60 r) (lf60WaitSince r) false iq (if fromIq then iq else 0%D)
       (stationMemory r) (stationMemoryAt r) (blocksFed r))).

(** False when there is no decoder to feed. *)
Definition ensureDecoder (s : Source) (rate : Z) (now : double) (answered tried : bool) : bool * Source :=
  let '(decided, s) :=
    match c_broadcast cfg with
    | BLf60 =>
        let '(want, s) := resolveLf60 s now answered tried in
        if bool_decide (want = StUnknown) then (false, s)
        else (true, if bool_decide (want = lf60 (running s)) then s else setLf60 s want)
    | _ => (true, s)
    end in
  if negb decided then (false, s)
  else
    let same := decoderRate (timing s) =? rate in
    if same && bool_decide (is_Some (decoder (running s))) then (true, s)
    else if same && rateRefused (running s) then (false, s)
    else if (rate <=? 0) || negb (cmod rate 200 =? 0) then (false, refuseRate s rate)
    else (true, startDecoder s rate).

Definition resetStream (s : Source) : Source :=
  let t := timing s in
  let r := running s in
  let f := frames s in
  let s := withTiming s (MkTiming Pending 0 true (SampleClock.reset (clock t)) (CaptureClock.reset (capture t)) (slew t)
             0 0 0 None (gapFills t)) in
  let s := withRunning s (MkRunning None (lf60 r) (lf60WaitSince r) false (iqToAudioDelaySec r) 0
             (stationMemory r) (stationMemoryAt r) (blocksFed r)) in
  let s := withFrames (withAnchor (withPaused s false) None) (MkFrames None 0 false (leapWarnAt f) (dut1Tenths f)) in
  withState (withFit (dropOffsets s) (noFitShown (shownFit s))) None.

(** ** The beginning *)

Definition newSource : Source :=
  MkSource
    (MkTiming Pending 0 true (SampleClock.newClock 12000 4 300) (CaptureClock.newCapture 12000)
       CaptureClock.newGuard 0 0 0 None 0)
    (MkRunning None StUnknown 0 false 0 0 StUnknown 0 0)
    None (MkFrames None 0 false (-1e18) 0) newEstimator
    (MkChecked newContinuity CheckOk [] 0 0 0 0) None
    (MkHeard (match c_broadcast cfg with
              | BDcf77 => "dcf77" | BAllouis => "allouis" | BWwvb => "wwvb"
              | _ => if wwvOnlyCarrier (c_carrierHz cfg) then "wwv" else "unknown" end)
       false false false "none" 0 0 false false false)
    noShownFit noDelay noOffer (MkRtt [] [] 0 0 0) false nowhere true "" (MkShown 0 0 None 0 0 0 0 false).

End Operations.
