(* ===== verification/SourceSteps.v ===== *)
(** * A receiver's source: its steps (src/Source.cpp)
    The decoder's callbacks, the diagnostics, the audio handler that drives them,
    the offset filtered from them and the snapshot the selector reads. A decoder
    is what it answers to each block of samples ([Output]); the clocks read on
    the way are part of the answer. *)

From Stdlib Require Import ZArith Lia List Bool Ascii String Floats.
From stdpp Require Import base list strings.
From S2P Require Import Prelude SampleClock CaptureClock Doubles Text ClockTypes CivilTime SourceTypes TimeContinuity.
From S2P Require Import OffsetEstimator Propagation Source.

#[local] Open Scope string_scope.
#[local] Open Scope Z_scope.

(** The two clocks of the daemon as one call reads them. *)
Record Now := MkNow { daemonNow : double; monotonicNow : double }.

Inductive Callback :=
  | CbState (l : ClockLockState) | CbFrame (f : FrameInfo) | CbTime (t : TimeInfo) | CbSecond (i : SecondInfo).

Record Diagnostics := MkDiagnostics {
  d_toneDetected : bool; d_phaseLocked : bool; d_anchored : bool; d_framesInWindow : Z; d_windowSize : Z;
  d_tickTiming : bool; d_pmLocked : bool; d_timingFromPm : bool; d_refusalReason : ClockLockRefusal
}.

(** What a decoder does with one block: its callbacks, and its diagnostics after. *)
Record Output := MkOutput {
  calls : list (Now * Callback); diagnostics : Diagnostics; out_station : ClockStation; at_end : Now
}.

(** ** The offset *)

Section Steps.
Context `{Trig} (cfg : SourceConfig).

Definition addOffsetSample (s : Source) (offsetSec atDaemon : double) : Source :=
  withOffsets s (add radioTuning (offsets s) atDaemon offsetSec).

Definition uncertaintyInputs (s : Source) : UncertaintyInputs :=
  MkUncertainty (c_broadcast cfg) (station (heard s)) (c_autoDelay cfg)
    (bool_decide (mode (timing s) = Capture) && negb (capturePaused s))
    (pmLocked (heard s) && timingFromPm (heard s)) (receiver s) (delaySec (delay s)).

(** No hold is shown, nor a gap, once there is nothing to hold. *)
Definition unheld (e : OffsetEstimate) : OffsetEstimate :=
  MkEstimate (e_valid e) (e_samples e) (e_atSec e) (e_offsetSec e) (e_jitterSec e)
    (e_rateMeasured e) (e_rateFromPrior e) (e_rate e) (e_rateUncertainty e) (e_rateSpanSec e)
    (e_rateSamples e) (e_rateTermSec e) (e_levelShifts e) (e_liveOffsetSec e) false (e_heldForSec e) 0
    (e_jitterBaselineSec e) (e_spikeThresholdSec e) (e_holds e) (e_holdsTimedOut e).

Definition recomputeOffset (s : Source) (now : double) : Source :=
  let o := offered s in
  match samples (offsets s) with
  | [] => withOffer s (MkOffered false (unheld (offered_est o)) (offsetAgeSec o) 0 (dispersionSec o) (weightDispersion o))
  | _ =>
      let '(e, est') := estimate radioTuning (offsets s) in
      let s := withOffsets s est' in
      let age := (now - e_atSec e)%D in
      if (kOffsetStaleSec <? age)%D then
        withOffer s (MkOffered false (offered_est o) age (e_samples e) (dispersionSec o) (weightDispersion o))
      else
        let own := (e_jitterSec e + clockResidualSec (shownFit s) + clockSlopeUncSec (shownFit s) + e_rateTermSec e)%D in
        let s := withOffer s (MkOffered (e_valid e && stateLocked s) e age (e_samples e)
                   (own + delayUncertaintySec (uncertaintyInputs s))%D (weightDispersionSec own)) in
        let c := checked s in
        if e_valid e then
          withChecked s (MkChecked
            (noteFiltered (continuity c) (e_offsetSec e) (if e_rateMeasured e then e_rate e else 0%D) (e_atSec e))
            (timeCheck c) (rejectedJumps c) (rejections c) (adoptions c) (lastRejectedJump c) (lastRejectedMs c))
        else s
  end.

(** ** The decoder's callbacks *)

Definition onClockState (s : Source) (l : ClockLockState) : Source :=
  let s := withState s (Some l) in
  match l with LockLocked => s | _ => withAnchor s None end.

Definition onClockFrame (s : Source) (f : FrameInfo) (now : double) : Source :=
  let fr := frames s in
  let n := if fi_leapPending f then Z.min (leapFrames fr + 1) kLeapConfirmFrames else 0 in
  let pending := kLeapConfirmFrames <=? n in
  withFrames s (MkFrames (Some (fi_start f)) n pending (if pending then now else leapWarnAt fr) (fi_dut1Tenths f)).

(** The next UTC midnight, when [ms] is on the last day of a month. *)
Definition leapBoundaryAfter (ms : Z) : Z :=
  if negb (isLastDayOfMonth ms) then -1
  else (floorDiv (floorDiv ms 1000) 86400 + 1) * 86400 * 1000.

Definition leapWindow (s : Source) (atDaemon : double) (decodedMs : Z) : bool :=
  isLastDayOfMonth (decodedMs - 2 * 3600 * 1000) && negb (isLastDayOfMonth decodedMs) &&
  (atDaemon - leapWarnAt (frames s) <? 86400)%D.

(** What the verdict makes of the check's figures. *)
Definition recordVerdict (c : Checked) (v : Verdict) (k : Continuity) (decodedMs : Z) : Checked :=
  let jumped := match outcome v with Refused | Adopted => true | _ => false end in
  let adopted := match outcome v with Adopted => 1 | _ => 0 end in
  let say := match outcome v with
             | Confirming => CheckConfirming (readings v) decodedMs
             | Refused => CheckRefused decodedMs (jumpSec v) (spanSec v)
             | _ => CheckOk end in
  MkChecked k say
    (if jumped && (length (rejectedJumps c) <? 256)%nat then (rejectedJumps c ++ [jumpSec v])%list else rejectedJumps c)
    (if jumped then rejections c + 1 else rejections c) (adoptions c + adopted)
    (if jumped then jumpSec v else lastRejectedJump c) (if jumped then decodedMs else lastRejectedMs c).

Definition admitDecodedTime (s : Source) (impliedOffsetSec atDaemon : double) (decodedMs : Z) : bool * Source :=
  let c := checked s in
  let '(v, k) := judge (continuity c) impliedOffsetSec atDaemon (leapWindow s atDaemon decodedMs) in
  let s := withChecked s (recordVerdict c v k decodedMs) in
  let s := if discardFiltered v then withOffsets s (OffsetEstimator.clear (offsets s)) else s in
  (admitted v, s).

Definition takeRejectedJumps (s : Source) : list double * Source :=
  let c := checked s in
  (rejectedJumps c,
   withChecked s (MkChecked (continuity c) (timeCheck c) [] (rejections c) (adoptions c)
                    (lastRejectedJump c) (lastRejectedMs c))).

(** An edge's sample index, at the decoder's resolution when it gives one. *)
Definition edgeAt (exact : double) (edge : Z) : double := if disfinite exact then exact else d_of_Z edge.

Definition onClockTime (s : Source) (t : TimeInfo) (now : double) : Source :=
  let f := ti_fields t in
  if (tf_year2 f <? 0) || (tf_doy f <? 1) || (tf_hour f <? 0) || (tf_minute f <? 0) then s
  else
    match hostTimeAt s (edgeAt (ti_edgeExact t) (ti_edge t)) with
    | None => s
    | Some edgeHostSec =>
        let baseMs := utcMsFromFields (tf_year2 f) (tf_doy f) (tf_hour f) (tf_minute f) in
        let rate := decoderRate (timing s) in
        match frameStart (frames s) with
        | None => s
        | Some start =>
            if rate <=? 0 then s
            else
              let elapsedSec := dllround (d_of_Z (ti_edge t - start) / d_of_Z rate)%D in
              let decodedMs := baseMs + elapsedSec * 1000 in
              let boundary := leapBoundaryAfter baseMs in
              if (0 <? boundary) && (boundary <=? decodedMs) then withAnchor s None
              else
                let implied := (d_of_Z decodedMs / 1000 - edgeHostSec + delaySec (delay s))%D in
                let '(ok, s) := admitDecodedTime s implied edgeHostSec decodedMs in
                if negb ok then s
                else
                  let h := shown s in
                  withShown (withAnchor s (Some (MkAnchor (ti_edge t) decodedMs now)))
                    (MkShown now (zclamp (i32 (dllround (ti_quality t * 100)%D)) 0 100) (Some decodedMs)
                       (lastAudioAt h) (packets h) (audioBytes h) (decodeErrors h) (serverTooOld h))
        end
    end.

Definition onClockSecond (s : Source) (i : SecondInfo) (now : Now) : Source :=
  if negb (si_measured i) then s
  else if negb (si_servable i) then s
  else
    match hostTimeAt s (edgeAt (si_edgeExact i) (si_edge i)) with
    | None => s
    | Some hostSec =>
        match anchor s with
        | None => s
        | Some a =>
            let rate := decoderRate (timing s) in
            if si_edge i <? an_edge a then s
            else if (kAnchorMaxAgeSec <? monotonicNow now - an_setAt a)%D then withAnchor s None
            else if rate <=? 0 then s
            else
              let elapsed := (d_of_Z (si_edge i - an_edge a) / d_of_Z rate)%D in
              let wholeSeconds := dllround elapsed in
              if (0.25 <? dabs (elapsed - d_of_Z wholeSeconds))%D then s
              else
                let edgeMs := an_utcMs a + wholeSeconds * 1000 in
                let boundary := leapBoundaryAfter (an_utcMs a) in
                if (0 <? boundary) && (boundary <=? edgeMs) then withAnchor s None
                else
                  let utcSec := (d_of_Z (an_utcMs a) / 1000 + d_of_Z wholeSeconds)%D in
                  let raw := (utcSec - hostSec)%D in
                  recomputeOffset (addOffsetSample s (raw + delaySec (delay s))%D hostSec) (daemonNow now)
        end
    end.

Definition call (s : Source) (c : Now * Callback) : Source :=
  match c with
  | (_, CbState l) => onClockState s l
  | (now, CbFrame f) => onClockFrame s f (daemonNow now)
  | (now, CbTime t) => onClockTime s t (monotonicNow now)
  | (now, CbSecond i) => onClockSecond s i now
  end.

(** ** After a block: the diagnostics *)

Definition refusalName (r : ClockLockRefusal) : string :=
  match r with
  | RefQualityFloor => "quality_floor" | RefPlausibility => "plausibility"
  | RefStaleness => "staleness" | RefContested => "contested" | RefNone => "none"
  end.
Definition stationName (d : option Decoder) (st : ClockStation) : string :=
  match st with
  | StWwv => "wwv" | StWwvh => "wwvh" | StWwvb => "wwvb" | StDcf77 => "dcf77" | StMsf => "msf"
  | StAllouis => "allouis"
  | StUnknown =>
      match d with
      | Some DecDcf77 => "dcf77" | Some DecAllouis => "allouis" | Some DecMsf => "msf"
      | Some (DecWwvb true) => "wwvb" | _ => "unknown" end
  end.

Definition rememberStation (s : Source) (phaseLocked_ : bool) (st : ClockStation) (now : double) : Source :=
  let r := running s in
  let keep m at_ := withRunning s (MkRunning (decoder r) (lf60 r) (lf60WaitSince r) (rateRefused r)
                      (iqToAudioDelaySec r) (iqToAudioDelayModelSec r) m at_ (blocksFed r)) in
  if bool_decide (decoder r = Some DecWwv) then
    if bool_decide (st = StUnknown) then keep st (stationMemoryAt r)
    else if phaseLocked_ then keep st now else s
  else s.

Definition showFit (s : Source) : ShownFit :=
  let t := timing s in
  match mode t with
  | Capture => MkShownFit (0 <? CaptureClock.marks (capture t))%nat 0 (CaptureClock.spanSec (capture t)) 0 0 false 0
  | _ =>
      let f := SampleClock.fit (clock t) in
      MkShownFit (SampleClock.f_valid f) (SampleClock.f_residualRms f) (SampleClock.f_spanSec f)
        (if SampleClock.f_valid f && (0 <? decoderRate t)
         then ((SampleClock.f_secPerSample f * d_of_Z (decoderRate t) - 1) * 1e6)%D else 0%D)
        (SampleClock.f_slopeUncertaintySec f) (SampleClock.f_slopeHeld f)
        (SampleClock.lastExcessDelay (clock t))
  end.

Definition onDiagnostics (s : Source) (d : Diagnostics) (st : ClockStation) (now : Now) : Source :=
  let s := rememberStation s (d_phaseLocked d) st (monotonicNow now) in
  let dec := decoder (running s) in
  let h := heard s in
  let phase := match dec with Some (DecAllouis | DecMsf | DecDcf77) => true | _ => false end in
  let s := withHeard s (MkHeard (stationName dec st)
             (d_toneDetected d) (d_phaseLocked d) (d_anchored d) (refusalName (d_refusalReason d))
             (d_framesInWindow d) (d_windowSize d)
             (if phase then d_pmLocked d else pmLocked h) (if phase then d_timingFromPm d else timingFromPm h)
             (if bool_decide (dec = Some DecWwv) then d_tickTiming d else tickTiming h)) in
  let s := withFit s (showFit s) in
  recomputeOffset (updateDelayModel cfg s) (daemonNow now).

(** ** Audio *)

(** The decoder's answers, by the count of the blocks it was given; and whether
    the receiver's description was asked for and came. *)
Context (answer : Z -> Output) (answered tried : bool).

Definition feedSamples (s : Source) (count rate : Z) (arrivalSec : double) (observeArrival : bool) (now : double) : Source :=
  if count <=? 0 then s
  else
    match ensureDecoder cfg s rate now answered tried with
    | (false, s) => s
    | (true, s) =>
        let t := timing s in
        let n := samplesWritten t + count in
        let s := withTiming s (setSamples t n (if observeArrival then SampleClock.observe (clock t) n arrivalSec else clock t)) in
        let r := running s in
        let out := answer (blocksFed r) in
        let s := withRunning s (MkRunning (decoder r) (lf60 r) (lf60WaitSince r) (rateRefused r) (iqToAudioDelaySec r)
                   (iqToAudioDelayModelSec r) (stationMemory r) (stationMemoryAt r) (blocksFed r + 1)) in
        onDiagnostics (fold_left call (calls out) s) (diagnostics out) (out_station out) (at_end out)
    end.

(** In pieces of at most a second; [fuel] counts the pieces. *)
Fixpoint feedSilenceLoop (fuel : nat) (s : Source) (count rate : Z) (now : double) : Source :=
  match fuel with
  | O => s
  | S fuel =>
      if 0 <? count then
        let n := Z.min count (Z.max 1 rate) in
        feedSilenceLoop fuel (feedSamples s n rate 0 false now) (count - n) rate now
      else s
  end.
Definition feedSilence (s : Source) (count rate : Z) (now : double) : Source :=
  feedSilenceLoop (Z.to_nat count) s count rate now.

(** *** The timeline of server stamps *)

(** What a block's step means: re-anchored at the receiver, samples lost and so
    many to fill, a discontinuity, or wander. *)
Inductive StepKind := Reanchored | Lost (fill : Z) | Discontinuity | Wander.
Definition stepKind (m : TimingMode) (step frameSec : double) (frameSamples : Z) : StepKind :=
  let lost := (0.5 * frameSec <? step)%D in
  let reanchor := bool_decide (m = Capture) && lost &&
    (kCaptureFrameToleranceSec <? dabs (step - d_of_Z (dllround (step / frameSec)) * frameSec))%D in
  if reanchor && (step <=? kMaxFillSec)%D then Reanchored
  else if lost && (step <=? kMaxFillSec)%D then Lost (i32 (dllround (step / frameSec)%D * frameSamples))
  else if (kMaxFillSec <? step)%D || (step <? - kMaxBackStepSec)%D then Discontinuity
  else Wander.

(** A block ends: its step from the baseline is acted on and the baseline moves. *)
Definition endBlock (s : Source) (tl : Timeline) (rate : Z) (blockMin now : double) : Source * double :=
  let t := timing s in
  let step := (blockMin - tl_baseline tl)%D in
  let frameSec := (d_of_Z (lastFrameSamples t) / d_of_Z rate)%D in
  match stepKind (mode t) step frameSec (lastFrameSamples t) with
  | Lost fill =>
      let s := if 0 <? fill then
                 feedSilence (withTiming s (setTimeline t (lastFrameSamples t) (timeline t) (gapFills t + 1))) fill rate now
               else s in
      (s, (blockMin - d_of_Z fill / d_of_Z rate)%D)
  | Discontinuity => (discardTiming s, blockMin)
  | Reanchored | Wander => (s, blockMin)
  end.

Definition trackTimeline (s : Source) (stamp rate frameSamples : Z) (now : double) : Source :=
  let t := timing s in
  if (rate <=? 0) || negb (rate =? decoderRate t) then
    withTiming s (setTimeline t (lastFrameSamples t) None (gapFills t))
  else if stamp =? 0 then s
  else
    let last := if 0 <? frameSamples then frameSamples else lastFrameSamples t in
    let last := if last <=? 0 then cdiv rate 50 else last in
    let tl := match timeline t with
              | Some tl => tl
              | None => MkTimeline stamp (samplesWritten t) 0 None end in
    let s := withTiming s (setTimeline t last (Some tl) (gapFills t)) in
    let '(s, tl) :=
      match tl_block tl with
      | Some (start, blockMin) =>
          if kBlockNanos <=? i64 (stamp - start) then
            let '(s, base) := endBlock s tl rate blockMin now in
            (s, MkTimeline (tl_originNanos tl) (tl_originSample tl) base None)
          else (s, tl)
      | None => (s, tl)
      end in
    let t := timing s in
    match timeline t with
    | None => s   (* filling restarted the count *)
    | Some _ =>
        let d := driftOf tl (samplesWritten t) rate stamp in
        let block := match tl_block tl with
                     | None => (stamp, d)
                     | Some (start, blockMin) => (start, dmin blockMin d) end in
        withTiming s (setTimeline t (lastFrameSamples t)
          (Some (MkTimeline (tl_originNanos tl) (tl_originSample tl) (tl_baseline tl) (Some block))) (gapFills t))
    end.

(** *** Packets *)

(** A PCM v4 header, and what a packet turned out to be: a frame, a frame whose
    body did not decode, one of an older protocol, or something else. *)
Record Header := MkHeader { h_stampNanos : Z; h_sampleRate : Z; h_sampleCount : Z; h_channels : Z }.
Inductive Packet := PkFrame (h : Header) | PkBad (h : Header) | PkOld | PkForeign.

Definition concealLost (s : Source) (frameSamples : Z) (now : double) : Source :=
  let t := timing s in
  if (decoderRate t <=? 0) || (samplesWritten t <=? 0) then s
  else
    let n := if 0 <? frameSamples then frameSamples else lastFrameSamples t in
    if n <=? 0 then s else feedSilence s n (decoderRate t) now.

Definition noTimeline (s : Source) : Source :=
  let t := timing s in withTiming s (setTimeline t (lastFrameSamples t) None (gapFills t)).
Definition countPacket (s : Source) (bytes : Z) (now : double) : Source :=
  let h := shown s in
  withShown s (MkShown (lastTimeAt h) (lastQuality h) (lastDecodedMs h) now (packets h + 1) (audioBytes h + bytes)
                 (decodeErrors h) (serverTooOld h)).
Definition countError (s : Source) (tooOld : bool) : Source :=
  let h := shown s in
  withShown s (MkShown (lastTimeAt h) (lastQuality h) (lastDecodedMs h) (lastAudioAt h) (packets h) (audioBytes h)
                 (decodeErrors h + 1) (serverTooOld h || tooOld)).

Definition handleAudio (s : Source) (p : Packet) (bytes : Z) (arrivalSec dmrSec now : double) : Source :=
  let s := countPacket s bytes now in
  match p with
  | PkBad h =>
      let s := countError s false in
      if (0 <? h_sampleCount h) && (h_channels h =? c_channels cfg) && (h_sampleRate h =? decoderRate (timing s)) then
        let n := cdiv (h_sampleCount h) (h_channels h) in
        concealLost (trackTimeline s (h_stampNanos h) (h_sampleRate h) n now) n now
      else concealLost (noTimeline s) 0 now
  | PkFrame h =>
      if negb (h_channels h =? c_channels cfg) then countError s false
      else
        let n := cdiv (h_sampleCount h) (h_channels h) in
        match ensureDecoder cfg s (h_sampleRate h) now answered tried with
        | (false, s) => s
        | (true, s) =>
            let s := trackTimeline s (h_stampNanos h) (h_sampleRate h) n now in
            let '(observeArrival, s) := timeBlock cfg s (h_stampNanos h) (h_sampleRate h) arrivalSec dmrSec now in
            feedSamples s n (h_sampleRate h) arrivalSec observeArrival now
        end
  | PkOld => countError s true
  | PkForeign => concealLost (noTimeline (countError s false)) 0 now
  end.

(** ** The snapshot *)

Inductive LinkState := LinkIdle | LinkConnecting | LinkStreaming | LinkBackoff | LinkStopped.
#[export] Instance LinkState_eq_dec : EqDecision LinkState.
Proof. solve_decision. Defined.
Definition linkStateName (l : LinkState) : string :=
  match l with
  | LinkIdle => "idle" | LinkConnecting => "connecting" | LinkStreaming => "streaming"
  | LinkBackoff => "backoff" | LinkStopped => "stopped" end.

(** [fmod] of finite doubles, which is exact. *)
Definition dfmod (x y : double) : double :=
  match Prim2SF x, Prim2SF y with
  | S754_finite sx mx ex, S754_finite _ my ey =>
      let e := Z.min ex ey in
      let r := (Zpos mx * 2 ^ (ex - e)) mod (Zpos my * 2 ^ (ey - e)) in
      SF2Prim (binary_normalize prec emax (if sx then - r else r) e sx)
  | S754_zero _, S754_finite _ _ _ | S754_zero _, S754_infinity _ | S754_finite _ _ _, S754_infinity _ => x
  | _, _ => nan
  end.

Definition jumpText (sec : double) : string :=
  let sign := if (sec <? 0)%D then "-" else "+" in
  let a := dabs sec in
  sign +:+
  (if (a <? 90)%D then fixed 2 a +:+ " s"
   else if (a <? 5400)%D then fixed 0 (a / 60)%D +:+ " min"
   else if (a <? 172800)%D then
     fixed 0 (dfloor (a / 3600)%D) +:+ " h " +:+ fixed 0 (dfloor (dfmod a 3600 / 60)%D) +:+ " min"
   else fixed 1 (a / 86400)%D +:+ " days").

Definition timeCheckText (k : TimeCheck) : string :=
  match k with
  | CheckOk => ""
  | CheckConfirming n ms =>
      "confirming the first decoded time: " +:+ dec n +:+ " reading(s) of " +:+ iso8601 ms +:+
      " agree, " +:+ dec kFirstReadings +:+ " over 2 min needed"
  | CheckRefused ms jump span =>
      let minutesLeft := i32 (d2ll (dceil (dmax 0 (kAdoptSpanSec - span) / 60)%D)) in
      "refused decoded " +:+ iso8601 ms +:+ ": " +:+ jumpText jump +:+
      " from its own history, and time does not jump; taken only if it holds" +:+
      (if 0 <? minutesLeft then " for " +:+ dec minutesLeft +:+ " more min" else " one more reading")
  end.

(** The funnel of an unlocked decoder: the stage that is missing. *)
Definition unlockedReason (h : Heard) (link : LinkState) (linkDetail : string) : string :=
  if negb (bool_decide (link = LinkStreaming)) then
    "no audio: the link is " +:+ linkStateName link +:+
    (if String.eqb linkDetail "" then "" else " (" +:+ linkDetail +:+ ")")
  else if negb (toneDetected h) then
    match c_broadcast cfg with
    | BWwv => "no tick: nothing at 1000 Hz to time a second from"
    | b => "no carrier: the transmitter is not heard at " +:+
           match b with BDcf77 => "77.5" | BAllouis => "162" | _ => "60" end +:+ " kHz"
    end
  else if negb (phaseLocked h) then "no edge: the tick is heard but not yet tracked"
  else if negb (anchoredFrames h) then "no frame: edges are tracked but no minute has decoded"
  else if String.eqb (refusal h) "staleness" then
    "no decode: minutes are framed but none has read its time code lately"
  else if negb (String.eqb (refusal h) "none") then "frames refused: " +:+ refusal h
  else if framesInWindow h <? 2 then
    "voting: " +:+ dec (framesInWindow h) +:+ " of " +:+ dec (windowSize h) +:+ " frames agree so far"
  else "decoder not locked yet".

Definition heldOut (s : Source) : bool :=
  match timeCheck (checked s), anchor s with
  | CheckOk, _ | _, Some _ => false
  | _, None => true end.
Definition amOnly (s : Source) : bool :=
  bool_decide (decoder (running s) = Some DecDcf77) && stateLocked s && negb (timingFromPm (heard s)).
Definition bcdOnly (s : Source) : bool :=
  bool_decide (decoder (running s) = Some DecWwv) && stateLocked s && negb (tickTiming (heard s)).

Definition ready (s : Source) : bool :=
  c_enabled cfg && active s && stateLocked s && negb (heldOut s) && negb (amOnly s) && negb (bcdOnly s).
Definition notReadyReason (s : Source) (link : LinkState) (linkDetail : string) : string :=
  if negb (c_enabled cfg) then "disabled in the configuration"
  else if negb (active s) then
    (if String.eqb (activeReason s) "" then "held in cold standby" else activeReason s)
  else if negb (stateLocked s) then unlockedReason (heard s) link linkDetail
  else if heldOut s then timeCheckText (timeCheck (checked s))
  else if amOnly s then
    "AM only: the time code decodes, but phase modulation is not locked, " +:+
    "and AM's second edge is too coarse to serve time from"
  else if bcdOnly s then
    "time code only: the minute decodes, but the seconds tick is not timed yet, " +:+
    "and the time code's own edge is not served"
  else "".

(** [primaryClass] is what the selector wrote; a radio source sets no age limit of
    its own. *)
Definition snapshot (s : Source) (nowDaemon : double) (link : LinkState) (linkDetail : string)
    (primaryClass : bool) : SourceSnapshot :=
  let o := offered s in
  let e := offered_est o in
  let age := match samples (offsets s) with [] => offsetAgeSec o | _ => (nowDaemon - newestAt (offsets s))%D end in
  MkSnapshot (c_name cfg) Radio primaryClass (ready s) (notReadyReason s link linkDetail)
    (station (heard s)) (leapPending (frames s))
    (haveOffset o && negb (kOffsetStaleSec <? age)%D)
    (e_offsetSec e) (e_atSec e) (e_rate e) (e_rateUncertainty e) (e_rateMeasured e)
    (dispersionSec o) (weightDispersion o) age 0 (offsetSamples o) noPeer (c_weight cfg).

(** ** The other handlers *)

Definition setSystemRate (s : Source) (rateSec uncertaintySec : double) (known : bool) : Source :=
  withOffsets s (setRatePrior (offsets s) rateSec uncertaintySec known).
Definition setActive (s : Source) (on : bool) (why : string) : Source := withActive s on why.

(** The coordinates of [/api/description], when it gives any: near 0,0 is an
    unconfigured receiver. *)
Definition onDescription (s : Source) (rttSec : double) (gps : option (double * double)) : Source :=
  let s := recordRtt s rttSec in
  let s := match gps with
           | Some (lat, lon) =>
               if (0.01 <? dabs lat)%D || (0.01 <? dabs lon)%D then withReceiver s (MkGeo lat lon true) else s
           | None => s end in
  updateDelayModel cfg s.
Definition probeRtt (s : Source) (rttSec : double) : Source := updateDelayModel cfg (recordRtt s rttSec).

End Steps.

(** ** Runs *)

(** Everything that reaches a source from outside, in the order it takes the
    lock. [answered] and [tried] are what has become of [/api/description]. *)
Inductive Op :=
| OpReset
| OpServerClockId (clockId hostId : string)
| OpAudio (p : Packet) (bytes : Z) (arrivalSec dmrSec now : double) (answered tried : bool)
| OpPong (now : double)
| OpProbe (rttSec : double)
| OpDescription (rttSec : double) (gps : option (double * double))
| OpTakeRejected
| OpSystemRate (rateSec uncertaintySec : double) (known : bool)
| OpActive (on : bool) (why : string).

Section Runs.
Context `{Trig} (cfg : SourceConfig) (answer : Z -> Output).

Definition step (s : Source) (o : Op) : Source :=
  match o with
  | OpReset => resetStream s
  | OpServerClockId c h => onServerClockId cfg s c h
  | OpAudio p bytes arrival dmr now answered tried => handleAudio cfg answer answered tried s p bytes arrival dmr now
  | OpPong now => onJsonPong s now
  | OpProbe rttSec => probeRtt cfg s rttSec
  | OpDescription rttSec gps => onDescription cfg s rttSec gps
  | OpTakeRejected => snd (takeRejectedJumps s)
  | OpSystemRate r u k => setSystemRate s r u k
  | OpActive on why => setActive s on why
  end.
Definition run (os : list Op) : Source := fold_left step os (newSource cfg).
End Runs.

(** ** The well-formedness invariant *)

(** What holds between any two calls: an anchor or an offset rests on a history
    the continuity check has confirmed; an anchor has the frame it counts from
    and a decoder; a decoder runs at a rate it can decimate; the leap count and
    its warning agree; capture marks and pauses exist only under capture timing. *)
Record wf (s : Source) : Prop := {
  wf_anchorHistory : anchor s <> None -> m_have (continuity (checked s)) = true;
  wf_anchorFrame : anchor s <> None -> frameStart (frames s) <> None;
  wf_offsetHistory : samples (offsets s) <> [] -> m_have (continuity (checked s)) = true;
  wf_frameDecoder : frameStart (frames s) <> None -> decoder (running s) <> None;
  wf_rate : decoder (running s) <> None -> 0 < decoderRate (timing s) /\ decoderRate (timing s) mod 200 = 0;
  wf_stopped : clockState s = None <-> decoder (running s) = None;
  wf_leap : 0 <= leapFrames (frames s) <= kLeapConfirmFrames /\
            leapPending (frames s) = (kLeapConfirmFrames <=? leapFrames (frames s));
  wf_marks : mode (timing s) <> Capture -> CaptureClock.m_marks (capture (timing s)) = [];
  wf_paused : capturePaused s = true -> mode (timing s) = Capture;
  wf_quality : 0 <= lastQuality (shown s) <= 100
}.

Ltac wf_fields :=
  match goal with W : wf ?s |- _ => destruct W as [?AH ?AF ?OH ?FD ?RT ?ST ?LP ?MK ?PS ?QL] end;
  constructor; cbn in *; intros; try (exfalso; congruence); auto.

Lemma judge_have c off at1 w :
  (m_have c = true -> m_have (snd (judge c off at1 w)) = true) /\
  (admitted (fst (judge c off at1 w)) = true -> m_have (snd (judge c off at1 w)) = true).
Proof.
  unfold judge. destruct (m_have c) eqn:E; cbn [negb].
  - repeat match goal with |- context [if ?b then _ else _] => destruct b end; cbn; rewrite ?E; auto.
  - destruct (_ && _); cbn; rewrite ?E; split; intros; try congruence; discriminate.
Qed.

Section WfSteps.
Context `{Trig} (cfg : SourceConfig).
Implicit Types s : Source.

Lemma wf_new : wf (newSource cfg).
Proof. constructor; cbn; try done; try tauto; try lia. Qed.

Lemma wf_updateDelay s : wf s -> wf (updateDelayModel cfg s).
Proof. intros W. unfold updateDelayModel. destruct (negb _); wf_fields. Qed.

Lemma wf_recompute s now : wf s -> wf (recomputeOffset cfg s now).
Proof.
  intros W. unfold recomputeOffset. destruct (samples (offsets s)) eqn:E; [wf_fields|].
  assert (Hm : m_have (continuity (checked s)) = true) by (apply (wf_offsetHistory s W); congruence).
  destruct (estimate _ _) as [e est']. destruct (_ <? _)%D; [wf_fields|].
  destruct (e_valid e); wf_fields.
Qed.

Lemma wf_frameCb s f now : decoder (running s) <> None -> wf s -> wf (onClockFrame s f now).
Proof.
  intros D W. unfold onClockFrame. wf_fields; try congruence; try done.
  unfold kLeapConfirmFrames in *. destruct (fi_leapPending f); split; lia.
Qed.

Lemma wf_stateCb s l : decoder (running s) <> None -> wf s -> wf (onClockState s l).
Proof. intros D W. unfold onClockState. destruct l; wf_fields; split; intros; congruence. Qed.

Lemma wf_dropAnchor s : wf s -> wf (withAnchor s None).
Proof. intros W. wf_fields. Qed.

Lemma admit_decode s implied at_ ms :
  let '(ok, s') := admitDecodedTime s implied at_ ms in
  (wf s -> wf s') /\ (ok = true -> m_have (continuity (checked s')) = true) /\
  running s' = running s /\ frames s' = frames s /\ timing s' = timing s /\ shown s' = shown s.
Proof.
  unfold admitDecodedTime.
  destruct (judge_have (continuity (checked s)) implied at_ (leapWindow s at_ ms)) as [J1 J2].
  destruct (judge _ _ _ _) as [v k]. cbn in J1, J2.
  split_and!; [|by destruct (discardFiltered v)..].
  intros W. destruct (discardFiltered v); wf_fields.
Qed.

Lemma wf_timeCb s t now : wf s -> wf (onClockTime s t now).
Proof.
  intros W. unfold onClockTime. destruct (_ || _); [done|]. destruct (hostTimeAt _ _) as [h|]; [|done].
  destruct (frameStart (frames s)) as [st|] eqn:F; [|done]. destruct (_ <=? 0); [done|].
  destruct (_ && _); [by apply wf_dropAnchor|].
  match goal with |- context [admitDecodedTime s ?i h ?m] => pose proof (admit_decode s i h m) as A end.
  destruct (admitDecodedTime _ _ _ _) as [ok s']. destruct A as (A & O & R & Fr & T & Sh).
  specialize (A W). destruct ok; cbn [negb]; [|done]. clear W. wf_fields; [congruence|].
  unfold zclamp. destruct (_ <? 0) eqn:E1; [lia|]. destruct (100 <? _) eqn:E2; lia.
Qed.

Lemma wf_secondCb s i now : wf s -> wf (onClockSecond cfg s i now).
Proof.
  intros W. unfold onClockSecond. destruct (negb _); [done|]. destruct (negb _); [done|].
  destruct (hostTimeAt _ _); [|done]. destruct (anchor s) as [a|] eqn:A; [|done].
  destruct (_ <? _); [done|]. destruct (_ <? _)%D; [by apply wf_dropAnchor|]. destruct (_ <=? 0); [done|].
  destruct (_ <? _)%D; [done|]. destruct (_ && _); [by apply wf_dropAnchor|].
  apply wf_recompute. assert (m_have (continuity (checked s)) = true) by (apply (wf_anchorHistory s W); congruence).
  unfold addOffsetSample. wf_fields.
Qed.

Lemma running_recompute s now : running (recomputeOffset cfg s now) = running s.
Proof.
  unfold recomputeOffset. destruct (samples (offsets s)); [done|]. destruct (estimate _ _).
  destruct (_ <? _)%D; [done|]. by destruct (e_valid _).
Qed.

Lemma running_call s c : running (call cfg s c) = running s.
Proof.
  destruct c as [now [l|f|t|i]]; cbn [call].
  - by destruct l.
  - done.
  - unfold onClockTime. destruct (_ || _); [done|]. destruct (hostTimeAt _ _) as [h|]; [|done].
    destruct (frameStart (frames s)); [|done]. destruct (_ <=? 0); [done|]. destruct (_ && _); [done|].
    match goal with |- context [admitDecodedTime s ?i h ?m] => pose proof (admit_decode s i h m) as A end.
    destruct (admitDecodedTime _ _ _ _) as [ok s']. destruct A as (_ & _ & R & _). by destruct ok.
  - unfold onClockSecond. repeat (destruct (negb _); [done|]). destruct (hostTimeAt _ _); [|done].
    destruct (anchor s); [|done]. destruct (_ <? _); [done|]. destruct (_ <? _)%D; [done|].
    destruct (_ <=? 0); [done|]. destruct (_ <? _)%D; [done|]. destruct (_ && _); [done|].
    by rewrite running_recompute.
Qed.

Lemma wf_calls cs s : decoder (running s) <> None -> wf s ->
  wf (fold_left (call cfg) cs s) /\ running (fold_left (call cfg) cs s) = running s.
Proof.
  revert s. induction cs as [|c cs IH]; intros s D W; [done|]. cbn [fold_left].
  pose proof (running_call s c) as R. destruct (IH (call cfg s c)) as [W' R']; [congruence| |by rewrite R', R].
  destruct c as [now [l|f|t|i]]; cbn [call];
    [by apply wf_stateCb|by apply wf_frameCb|by apply wf_timeCb|by apply wf_secondCb].
Qed.

(** *** Diagnostics and decoders *)

Lemma wf_diagnostics s d st now : decoder (running s) <> None -> wf s -> wf (onDiagnostics cfg s d st now).
Proof.
  intros D W. unfold onDiagnostics. apply wf_recompute, wf_updateDelay.
  assert (W' : wf (rememberStation s (d_phaseLocked d) st (monotonicNow now))).
  { unfold rememberStation. destruct (bool_decide (decoder (running s) = Some DecWwv)); [|done].
    destruct (bool_decide _); [wf_fields|]. destruct (d_phaseLocked d); [wf_fields|done]. }
  clear W. wf_fields.
Qed.

(** The invariant, but for the rate of a decoder about to be replaced. *)
Definition wfOld (s : Source) : Prop :=
  wf s \/ (exists s0 w, wf s0 /\ s = setLf60 s0 w).

Lemma wf_refuse s rate : wfOld s -> wf (refuseRate s rate).
Proof.
  intros [W|(s0 & w & W & ->)]; unfold refuseRate, restartCount; wf_fields; try lia; try done.
Qed.


Lemma wf_startDecoder s rate : 0 < rate -> cmod rate 200 = 0 -> wfOld s -> wf (startDecoder cfg s rate).
Proof.
  intros R C W. unfold startDecoder. apply wf_updateDelay.
  assert (M : rate mod 200 = 0) by (rewrite <- Z.rem_mod_nonneg by lia; exact C).
  destruct W as [W|(s0 & w & W & ->)]; unfold restartCount; wf_fields;
    try (split; congruence); try (unfold kLeapConfirmFrames; split; lia || done); done.
Qed.

Lemma startDecoder_runs s rate :
  decoder (running (startDecoder cfg s rate)) <> None /\ decoderRate (timing (startDecoder cfg s rate)) = rate.
Proof. unfold startDecoder, updateDelayModel. by destruct (negb _). Qed.

Lemma wf_resolve s now a t : wf s -> wf (snd (resolveLf60 s now a t)).
Proof.
  intros W. unfold resolveLf60. destruct (g_valid _); [done|]. destruct (negb _); [done|].
  destruct a; [done|]. destruct t; [|done]. cbn [snd]. wf_fields.
Qed.

Lemma wf_ensure s rate now a t : 0 < rate -> wf s ->
  let '(ok, s') := ensureDecoder cfg s rate now a t in
  wf s' /\ (ok = true -> decoder (running s') <> None /\ decoderRate (timing s') = rate).
Proof.
  intros R W. unfold ensureDecoder.
  set (choice := match c_broadcast cfg with BLf60 => _ | _ => _ end).
  assert (C : let '(ok, s') := choice in
    (ok = false -> wf s') /\ (wf s' \/ (exists s0 w, wf s0 /\ s' = setLf60 s0 w))).
  { unfold choice. destruct (c_broadcast cfg); try (split; [done|by left]).
    pose proof (wf_resolve s now a t W) as W'. destruct (resolveLf60 _ _ _ _) as [want s']; cbn [snd] in W'.
    destruct (bool_decide _); [split; [done|by left]|]. split; [done|].
    destruct (bool_decide _); [by left|right; eauto]. }
  destruct choice as [ok s']. destruct C as [C1 C2]. destruct ok; cbn [negb]; [|split; [auto|done]].
  clear C1. destruct (decoderRate (timing s') =? rate) eqn:E; cbn [andb].
  - apply Z.eqb_eq in E.
    assert (W' : wf s') by (destruct C2 as [W'|(s0 & w & W' & ->)]; [done|cbn in E; lia]).
    destruct (bool_decide (is_Some _)) eqn:D.
    + apply bool_decide_eq_true in D as [d D]. split; [done|]. intros _. split; congruence.
    + destruct (rateRefused _); [split; done|].
      destruct ((rate <=? 0) || _) eqn:G; [split; [by apply wf_refuse|done]|].
      apply orb_false_iff in G as [_ G]. apply negb_false_iff, Z.eqb_eq in G.
      split; [by apply wf_startDecoder|]. intros _. apply startDecoder_runs.
  - destruct ((rate <=? 0) || _) eqn:G; [split; [by apply wf_refuse|done]|].
    apply orb_false_iff in G as [_ G]. apply negb_false_iff, Z.eqb_eq in G.
    split; [by apply wf_startDecoder|]. intros _. apply startDecoder_runs.
Qed.

(** *** Samples, timelines and packets *)

Lemma wf_discardTiming s : wf s -> wf (discardTiming s).
Proof. intros W. unfold discardTiming, dropOffsets. wf_fields. Qed.

Lemma discard_mode s : mode (timing (discardTiming s)) = mode (timing s).
Proof. done. Qed.

Lemma wf_setTiming s m : wf s -> wf (setTiming cfg s m).
Proof.
  intros W. unfold setTiming. apply wf_updateDelay.
  assert (W' : forall s', wf s' -> m = mode (timing s') ->
            wf (match m with Capture => s' | _ => withPaused s' false end)).
  { intros s' W' ->. destruct (mode (timing s')) eqn:E; [wf_fields..]. }
  destruct (decide (m = mode (timing s))) as [->|N].
  - rewrite bool_decide_true by done. cbn [negb andb]. apply W'; [|done]. wf_fields.
  - rewrite bool_decide_false by done. cbn [negb andb].
    assert (P : forall s', wf (withPaused s' false) -> m <> Capture -> True) by done. clear P W'.
    destruct (negb (bool_decide (mode (timing s) = Pending))); destruct m; unfold discardTiming, dropOffsets;
      wf_fields; specialize (PS eq_refl); congruence.
Qed.

Lemma wf_timeBlock s stamp rate arrival dmr now : wf s -> wf (snd (timeBlock cfg s stamp rate arrival dmr now)).
Proof.
  intros W. unfold timeBlock. destruct (mode (timing s)) eqn:M; [|cbn [snd]; wf_fields; congruence|done].
  destruct (pendingSince _ <=? _)%D; cbn [snd]; [wf_fields; [apply MK|rewrite <- PS by done]; congruence|].
  destruct (_ <? _)%D; cbn [snd]; [by apply wf_setTiming|done].
Qed.

Context (answer : Z -> Output) (answered tried : bool).

Lemma wf_feed s count rate arrival observe now :
  0 < rate -> wf s -> wf (feedSamples cfg answer answered tried s count rate arrival observe now).
Proof.
  intros R W. unfold feedSamples. destruct (count <=? 0); [done|].
  pose proof (wf_ensure s rate now answered tried R W) as E.
  destruct (ensureDecoder _ _ _ _ _ _) as [ok s']. destruct E as [W' E].
  destruct ok; [|done]. destruct (E eq_refl) as [D _]. clear E W.
  match goal with |- wf (onDiagnostics _ (fold_left _ ?cs ?s1) _ _ _) =>
    assert (W1 : wf s1) by wf_fields; assert (D1 : decoder (running s1) <> None) by done;
    destruct (wf_calls cs s1 D1 W1) as [W2 R2] end.
  apply wf_diagnostics; [by rewrite R2|done].
Qed.

Lemma wf_silence s count rate now :
  0 < rate -> wf s -> wf (feedSilence cfg answer answered tried s count rate now).
Proof.
  intros R. unfold feedSilence. generalize (Z.to_nat count). intros fuel. revert s count.
  induction fuel as [|fuel IH]; intros s count W; [done|]. cbn [feedSilenceLoop].
  destruct (0 <? count); [|done]. by apply IH, wf_feed.
Qed.

Lemma wf_setTimeline s last tl fills : wf s -> wf (withTiming s (setTimeline (timing s) last tl fills)).
Proof. intros W. wf_fields. Qed.

Lemma wf_endBlock s tl rate m now :
  0 < rate -> wf s -> wf (fst (endBlock cfg answer answered tried s tl rate m now)).
Proof.
  intros R W. unfold endBlock. cbv zeta. destruct (stepKind _ _ _ _); cbn [fst]; [done| |by apply wf_discardTiming|done].
  destruct (_ <? _); [|done]. apply wf_silence; [done|]. by apply wf_setTimeline.
Qed.

Lemma wf_track s stamp rate n now :
  wf s -> wf (trackTimeline cfg answer answered tried s stamp rate n now).
Proof.
  intros W. unfold trackTimeline. destruct ((rate <=? 0) || _) eqn:G; [by apply wf_setTimeline|].
  apply orb_false_iff in G as [G _]. destruct (stamp =? 0); [done|]. cbv zeta.
  match goal with |- context [match tl_block ?t with _ => _ end] => set (tl := t) end.
  match goal with |- context [setTimeline (timing s) ?l (Some tl) _] => set (last := l) end.
  pose proof (wf_setTimeline s last (Some tl) (gapFills (timing s)) W) as W1.
  set (s1 := withTiming s _) in *. clearbody s1.
  match goal with |- wf (let '(_, _) := ?p in _) =>
    assert (W2 : wf (fst p)); [|destruct p as [s2 tl2]; cbn [fst] in W2] end.
  { destruct (tl_block tl) as [[start bm]|]; [|exact W1]. destruct (kBlockNanos <=? _); [|exact W1].
    assert (R : 0 < rate) by lia. pose proof (wf_endBlock s1 tl rate bm now R W1) as E.
    by destruct (endBlock _ _ _ _ _ _ _ _ _). }
  destruct (timeline (timing s2)); [|done]. by apply wf_setTimeline.
Qed.

Lemma wf_conceal s n now : wf s -> wf (concealLost cfg answer answered tried s n now).
Proof.
  intros W. unfold concealLost. cbv zeta. destruct (decoderRate (timing s) <=? 0) eqn:G; [done|].
  destruct (samplesWritten _ <=? 0); [done|]. cbn [orb].
  destruct ((if 0 <? n then n else _) <=? 0); [done|]. apply wf_silence; [lia|done].
Qed.

Lemma wf_noTimeline s : wf s -> wf (noTimeline s).
Proof. apply wf_setTimeline. Qed.
Lemma wf_countPacket s b now : wf s -> wf (countPacket s b now).
Proof. intros W. unfold countPacket. wf_fields. Qed.
Lemma wf_countError s o : wf s -> wf (countError s o).
Proof. intros W. unfold countError. wf_fields. Qed.
Lemma wf_rtt s r : wf s -> wf (withRtt s r).
Proof. intros W. wf_fields. Qed.
End WfSteps.

#[export] Hint Resolve wf_conceal wf_track wf_noTimeline wf_countPacket wf_countError wf_rtt wf_updateDelay
  wf_setTiming : ubersdr.

(** A PCM v4 header names a sample rate: pcm_v4.hpp refuses one that is not
    positive. *)
Definition packetOk (p : Packet) : Prop :=
  match p with PkFrame h => 0 < h_sampleRate h | _ => True end.
Definition opOk (o : Op) : Prop := match o with OpAudio p _ _ _ _ _ _ => packetOk p | _ => True end.

Lemma wf_audio `{Trig} cfg answer answered tried s p b arrival dmr now :
  packetOk p -> wf s -> wf (handleAudio cfg answer answered tried s p b arrival dmr now).
Proof.
  intros P W. unfold handleAudio. apply wf_countPacket with (b := b) (now := now) in W.
  set (s1 := countPacket s b now) in *. clearbody s1. destruct p as [h|h| |]; cbn [packetOk] in P.
  - destruct (negb _); [auto with ubersdr|].
    pose proof (wf_ensure cfg s1 (h_sampleRate h) now answered tried P W) as E.
    destruct (ensureDecoder _ _ _ _ _ _) as [ok s2]. destruct E as [W2 _]. destruct ok; [|done].
    match goal with |- context [timeBlock _ ?t ?a ?c ?d ?e ?f] =>
      pose proof (wf_timeBlock cfg t a c d e f) as T; destruct (timeBlock cfg t a c d e f) as [ob s3] end.
    apply wf_feed; [done|]. apply T. auto with ubersdr.
  - cbv zeta. destruct (_ && _); auto with ubersdr.
  - auto with ubersdr.
  - auto with ubersdr.
Qed.

Lemma wf_step `{Trig} cfg answer s o : opOk o -> wf s -> wf (step cfg answer s o).
Proof.
  intros O W. destruct o; cbn [step].
  - unfold resetStream, dropOffsets. wf_fields; try (split; done); unfold kLeapConfirmFrames; split; lia || done.
  - unfold onServerClockId. repeat case_match; auto with ubersdr.
  - by apply wf_audio.
  - unfold onJsonPong, recordWsRtt. cbv zeta. repeat case_match; auto with ubersdr.
  - unfold probeRtt, recordRtt. apply wf_updateDelay. cbv zeta. case_match; auto with ubersdr.
  - unfold onDescription. apply wf_updateDelay.
    assert (R : wf (recordRtt s rttSec)) by (unfold recordRtt; cbv zeta; case_match; auto with ubersdr).
    destruct gps as [[lat lon]|]; [|done]. destruct (_ || _); [|done]. clear W. wf_fields.
  - wf_fields.
  - wf_fields.
  - wf_fields.
Qed.

(** ** Lemmas of the properties *)

Lemma timing_recompute `{Trig} cfg s now : timing (recomputeOffset cfg s now) = timing s.
Proof.
  unfold recomputeOffset. destruct (samples (offsets s)); [done|]. destruct (estimate _ _).
  destruct (_ <? _)%D; [done|]. by destruct (e_valid _).
Qed.
Lemma frames_recompute `{Trig} cfg s now : frames (recomputeOffset cfg s now) = frames s.
Proof.
  unfold recomputeOffset. destruct (samples (offsets s)); [done|]. destruct (estimate _ _).
  destruct (_ <? _)%D; [done|]. by destruct (e_valid _).
Qed.

(** What the two long callbacks leave alone. *)
Lemma timeCb_frame s t now :
  timing (onClockTime s t now) = timing s /\ frames (onClockTime s t now) = frames s.
Proof.
  unfold onClockTime. destruct (_ || _); [done|]. destruct (hostTimeAt _ _) as [h|]; [|done].
  destruct (frameStart (frames s)); [|done]. destruct (_ <=? 0); [done|]. destruct (_ && _); [done|].
  match goal with |- context [admitDecodedTime s ?i h ?m] => pose proof (admit_decode s i h m) as A end.
  destruct (admitDecodedTime _ _ _ _) as [ok s']. destruct A as (_ & _ & _ & F & T & _). by destruct ok.
Qed.

Lemma secondCb_frame `{Trig} cfg s i now :
  timing (onClockSecond cfg s i now) = timing s /\ frames (onClockSecond cfg s i now) = frames s.
Proof.
  unfold onClockSecond. repeat (destruct (negb _); [done|]). destruct (hostTimeAt _ _); [|done].
  destruct (anchor s); [|done]. destruct (_ <? _); [done|]. destruct (_ <? _)%D; [done|].
  destruct (_ <=? 0); [done|]. destruct (_ <? _)%D; [done|]. destruct (_ && _); [done|].
  by rewrite timing_recompute, frames_recompute.
Qed.

Lemma timing_calls `{Trig} cfg cs s : timing (fold_left (call cfg) cs s) = timing s.
Proof.
  revert s. induction cs as [|c cs IH]; intros s; [done|]. cbn [fold_left]. rewrite IH.
  destruct c as [now [l|f|t|i]]; cbn [call]; [by destruct l|done|apply timeCb_frame|apply secondCb_frame].
Qed.

Lemma running_calls `{Trig} cfg cs s : running (fold_left (call cfg) cs s) = running s.
Proof. revert s. induction cs as [|c cs IH]; intros s; [done|]. cbn [fold_left]. by rewrite IH, running_call. Qed.

Lemma timing_updateDelay `{Trig} cfg s : timing (updateDelayModel cfg s) = timing s.
Proof. unfold updateDelayModel. by destruct (negb _). Qed.
Lemma running_updateDelay `{Trig} cfg s : running (updateDelayModel cfg s) = running s.
Proof. unfold updateDelayModel. by destruct (negb _). Qed.

(** *** Leap warnings *)

(** The warnings of the frames among some callbacks, in order. *)
Definition frameWarnings (cs : list (Now * Callback)) : list bool :=
  flat_map (fun c => match snd c with CbFrame f => [fi_leapPending f] | _ => [] end) cs.
(** How many of the last frames carry the warning with none after them without. *)
Definition lastingWarnings (bs : list bool) : Z :=
  fold_left (fun n (b : bool) => if b then n + 1 else 0) bs 0.

Lemma lasting_snoc bs b : lastingWarnings (bs ++ [b])%list = if b then lastingWarnings bs + 1 else 0.
Proof. unfold lastingWarnings. by rewrite fold_left_app. Qed.
Lemma lasting_nonneg bs : 0 <= lastingWarnings bs.
Proof. induction bs as [|b bs IH] using rev_ind; [done|]. rewrite lasting_snoc. destruct b; lia. Qed.

Lemma lasting_ge bs n :
  Z.of_nat n <= lastingWarnings bs <-> exists pre, bs = (pre ++ repeat true n)%list.
Proof.
  revert n. induction bs as [|b bs IH] using rev_ind; intros n.
  - split.
    + cbn. intros L. exists []. destruct n; [done|lia].
    + intros [pre E]. destruct n; [done|]. cbn in E. by destruct pre.
  - rewrite lasting_snoc. destruct n as [|n].
    { split; [intros _; exists (bs ++ [b])%list; by rewrite app_nil_r|].
      intros _. pose proof (lasting_nonneg bs). destruct b; lia. }
    replace (S n) with (n + 1)%nat by lia. rewrite repeat_app. cbn [repeat].
    split.
    + destruct b; [|lia]. intros L. destruct (proj1 (IH n)) as [pre ->]; [lia|]. exists pre. by rewrite app_assoc.
    + intros [pre E]. rewrite app_assoc in E. apply app_inj_tail in E as [E ->].
      assert (Z.of_nat n <= lastingWarnings bs) by (apply IH; eauto). lia.
Qed.

Lemma leap_calls `{Trig} cfg cs s :
  leapFrames (frames s) = 0 -> leapPending (frames s) = false ->
  let s' := fold_left (call cfg) cs s in
  leapFrames (frames s') = Z.min (lastingWarnings (frameWarnings cs)) kLeapConfirmFrames /\
  leapPending (frames s') = (kLeapConfirmFrames <=? lastingWarnings (frameWarnings cs)).
Proof.
  intros L P. induction cs as [|c cs IH] using rev_ind; [by cbn; rewrite L, P|].
  cbv zeta in *. rewrite fold_left_app. cbn [fold_left]. set (s1 := fold_left _ cs s) in *. clearbody s1.
  unfold frameWarnings in *. rewrite flat_map_app. cbn [flat_map].
  destruct c as [now [l|f|t|i]]; cbn [call snd]; rewrite ?app_nil_r.
  - by destruct l.
  - cbn [app]. rewrite lasting_snoc. unfold onClockFrame. cbn. destruct IH as [-> _].
    pose proof (lasting_nonneg (frameWarnings cs)) as N. unfold frameWarnings in N. unfold kLeapConfirmFrames.
    destruct (fi_leapPending f); split; lia.
  - by rewrite (proj2 (timeCb_frame s1 t (monotonicNow now))).
  - by rewrite (proj2 (secondCb_frame cfg s1 i now)).
Qed.

(** *** Filling a gap *)

(** A decoder is in place at this rate, and nothing will replace it. *)
Definition settled (cfg : SourceConfig) (s : Source) (rate : Z) : Prop :=
  c_broadcast cfg <> BLf60 /\ decoder (running s) <> None /\ decoderRate (timing s) = rate.

Lemma ensure_settled `{Trig} cfg s rate now a t : settled cfg s rate -> ensureDecoder cfg s rate now a t = (true, s).
Proof.
  intros (B & D & E). unfold ensureDecoder.
  destruct (c_broadcast cfg); try done; cbn [negb]; rewrite E, Z.eqb_refl; cbn [andb];
    (rewrite bool_decide_true; [done|]; destruct (decoder (running s)); [eauto|done]).
Qed.

Lemma feed_settled `{Trig} cfg answer a t s n rate arrival observe now :
  settled cfg s rate -> 0 < n ->
  let s' := feedSamples cfg answer a t s n rate arrival observe now in
  settled cfg s' rate /\ samplesWritten (timing s') = samplesWritten (timing s) + n /\
  blocksFed (running s') = blocksFed (running s) + 1.
Proof.
  intros S N. cbv zeta. unfold feedSamples. destruct (Z.leb_spec n 0); [lia|]. rewrite (ensure_settled cfg s) by done.
  match goal with |- context [fold_left _ ?cs ?s1] =>
    pose proof (timing_calls cfg cs s1) as T;
    pose proof (running_calls cfg cs s1) as R; set (s2 := fold_left _ cs s1) in * end.
  clearbody s2. unfold onDiagnostics.
  match goal with |- context [rememberStation s2 ?p ?st ?w] =>
    assert (M : timing (rememberStation s2 p st w) = timing s2 /\
                decoder (running (rememberStation s2 p st w)) = decoder (running s2) /\
                blocksFed (running (rememberStation s2 p st w)) = blocksFed (running s2))
      by (unfold rememberStation; repeat case_match; done);
    set (s3 := rememberStation s2 p st w) in * end.
  clearbody s3. destruct M as (M1 & M2 & M3).
  unfold settled. rewrite !timing_recompute, !timing_updateDelay, !running_recompute, !running_updateDelay.
  cbn [withFit withHeard timing running]. rewrite M1, M2, M3, T, R. cbn. destruct S as (B & D & E). repeat split; done.
Qed.

Lemma silence_loop `{Trig} cfg answer a t rate now fuel s count :
  settled cfg s rate -> 0 < rate -> count <= Z.of_nat fuel ->
  let s' := feedSilenceLoop cfg answer a t fuel s count rate now in
  samplesWritten (timing s') = samplesWritten (timing s) + Z.max 0 count /\
  blocksFed (running s') = blocksFed (running s) + (Z.max 0 count + rate - 1) / rate.
Proof.
  intros S R. revert s count S. induction fuel as [|fuel IH]; intros s count S F; cbn [feedSilenceLoop] in *.
  - rewrite Z.max_l by lia. split; [lia|]. rewrite (Z.div_small (0 + rate - 1)) by lia. lia.
  - destruct (Z.ltb_spec 0 count).
    + destruct (feed_settled cfg answer a t s (Z.min count (Z.max 1 rate)) rate 0 false now S ltac:(lia)) as (S' & C & B).
      set (s1 := feedSamples _ _ _ _ _ _ _ _ _ _) in *. clearbody s1.
      destruct (IH s1 (count - Z.min count (Z.max 1 rate)) S' ltac:(lia)) as [C' B']. rewrite C', B', C, B.
      split; [lia|]. rewrite (Z.max_r 1 rate), (Z.max_r 0 count) by lia.
      destruct (Z.le_gt_cases count rate).
      * rewrite (Z.min_l count), Z.sub_diag by lia. rewrite (Z.div_small (Z.max 0 0 + rate - 1)) by lia.
        replace (count + rate - 1) with (count - 1 + 1 * rate) by lia.
        rewrite Z.div_add, Z.div_small by lia. lia.
      * rewrite (Z.min_r count), Z.max_r by lia.
        replace (count + rate - 1) with (count - rate + rate - 1 + 1 * rate) by lia. rewrite Z.div_add by lia. lia.
    + rewrite Z.max_l by lia. split; [lia|]. rewrite (Z.div_small (0 + rate - 1)) by lia. lia.
Qed.

(** *** The month of an edge *)

(** The calendar month an instant is in. *)
Definition monthOf (ms : Z) : Z * Z := let '(y, m, _) := civilFromDays (ms / 86400000) in (y, m).

Lemma month_continues z :
  -600000000000 <= z <= 600000000000 ->
  (let '(_, m1, _) := civilFromDays z in let '(_, m2, _) := civilFromDays (z + 1) in m1 = m2) ->
  (let '(y, m, _) := civilFromDays z in (y, m)) = (let '(y, m, _) := civilFromDays (z + 1) in (y, m)).
Proof.
  intros Z H. rewrite (proj2 (civil_counts_days z Z)) in *. unfold nextDate in *.
  destruct (civilFromDays z) as [[y m] d]. destruct (d <? daysInMonth y m); [done|].
  destruct (m <? 12) eqn:E; [lia|]. subst m. done.
Qed.

Lemma same_month a ms :
  0 <= a <= 51000000000000000000 -> a <= ms <= a + 86400000 ->
  (0 <? leapBoundaryAfter a) && (leapBoundaryAfter a <=? ms) = false ->
  monthOf ms = monthOf a.
Proof.
  intros A M B. unfold leapBoundaryAfter in B. rewrite day_of_ms in B. unfold isLastDayOfMonth in B.
  rewrite day_of_ms in B. unfold monthOf.
  assert (Zr : -600000000000 <= a / 86400000 <= 600000000000) by dlia.
  assert (D : ms / 86400000 = a / 86400000 \/ ms / 86400000 = a / 86400000 + 1) by dlia.
  destruct D as [->|D]; [done|]. rewrite D. symmetry. apply month_continues; [done|].
  destruct (civilFromDays (a / 86400000)) as [[y m] d].
  destruct (civilFromDays (a / 86400000 + 1)) as [[y' m'] d'].
  destruct (Z.eqb_spec m m'); [done|]. cbn [negb] in B. exfalso.
  apply andb_false_iff in B as [B|B]; [apply Z.ltb_ge in B|apply Z.leb_gt in B]; dlia.
Qed.

(** A second's offset that may be used. [k] is the whole seconds since the anchor. *)
Record soundSample (s : Source) (i : SecondInfo) (now : Now) (offset at_ : double) (k : Z) : Prop := {
  sp_measured : si_measured i = true /\ si_servable i = true;
  sp_observed : hostTimeAt s (edgeAt (si_edgeExact i) (si_edge i)) = Some at_;
  sp_anchor : exists a, anchor s = Some a /\ an_edge a <= si_edge i /\
    (kAnchorMaxAgeSec <? monotonicNow now - an_setAt a)%D = false /\
    (0.25 <? dabs (d_of_Z (si_edge i - an_edge a) / d_of_Z (decoderRate (timing s)) - d_of_Z k))%D = false /\
    offset = (d_of_Z (an_utcMs a) / 1000 + d_of_Z k - at_ + delaySec (delay s))%D /\
    (0 <= an_utcMs a <= 51000000000000000000 -> 0 <= k <= 86400 ->
     monthOf (an_utcMs a + k * 1000) = monthOf (an_utcMs a))
}.

(** ** Properties *)

(** C27: a second edge becomes an offset only when it may. Whatever edge a decoder
    reports, the source forms at most one offset sample from it, and one only
    when the edge was measured and is fit to serve from, when the anchor it is
    counted from is no more than five minutes old, when it is within a quarter
    of a second of a whole number of seconds from it, and never across the end
    of a month, where a leap second could be; the offset is then the instant the
    edge was sent less the instant it was observed, plus the modelled delay.
    Otherwise the offsets are left as they were. *)
Theorem second_offset_sound `{Trig} cfg (s : Source) (i : SecondInfo) (now : Now) :
  let s' := onClockSecond cfg s i now in
  (offsets s' = offsets s /\ (anchor s' = anchor s \/ anchor s' = None)) \/
  exists offset at_ k,
    soundSample s i now offset at_ k /\
    s' = recomputeOffset cfg (addOffsetSample s offset at_) (daemonNow now).
Proof.
  cbv zeta. unfold onClockSecond. destruct (si_measured i) eqn:M; cbn [negb]; [|auto].
  destruct (si_servable i) eqn:Sv; cbn [negb]; [|auto].
  destruct (hostTimeAt s _) as [h|] eqn:Ht; [|auto]. destruct (anchor s) as [a|] eqn:A; [|auto].
  destruct (Z.ltb_spec (si_edge i) (an_edge a)); [auto|].
  destruct (kAnchorMaxAgeSec <? _)%D eqn:Age; [auto|]. destruct (_ <=? 0); [auto|].
  destruct (0.25 <? _)%D eqn:Q; [auto|]. destruct (_ && _) eqn:B; [auto|]. right.
  do 3 eexists. split; [|done]. split; [auto|exact Ht|]. exists a. split_and!; try done.
  intros Hu Hk. apply same_month; [done|lia|exact B].
Qed.

(** a leap second is announced only on lasting evidence. From the start of a
    decoder's life, whatever it reports, the warning is believed exactly when the
    last three frames, at least, each carried it. *)
Lemma leap_warning_confirmed `{Trig} cfg (cs : list (Now * Callback)) (s : Source) :
  leapFrames (frames s) = 0 -> leapPending (frames s) = false ->
  leapPending (frames (fold_left (call cfg) cs s)) = true <->
  exists pre, frameWarnings cs = (pre ++ [true; true; true])%list.
Proof.
  intros L P. destruct (leap_calls cfg cs s L P) as [_ ->]. rewrite Z.leb_le. apply (lasting_ge _ 3).
Qed.

(** A source is ready exactly when it has no reason not to be: every way of
    being unready has a sentence of its own, and a ready source has none. *)
Lemma ready_iff_no_reason cfg (s : Source) (link : LinkState) (linkDetail : string) :
  ready cfg s = true <-> notReadyReason cfg s link linkDetail = "".
Proof.
  unfold ready, notReadyReason. destruct (c_enabled cfg); cbn [negb andb]; [|split; intros E; discriminate E].
  destruct (active s); cbn [negb andb].
  2:{ split; [discriminate|]. destruct (String.eqb_spec (activeReason s) ""); [discriminate|congruence]. }
  destruct (stateLocked s); cbn [negb andb].
  2:{ split; [discriminate|]. unfold unlockedReason.
      repeat case_match; cbn [append]; intros E; discriminate E. }
  destruct (heldOut s) eqn:Ho; cbn [negb andb].
  { split; [discriminate|]. unfold heldOut in Ho.
    destruct (timeCheck (checked s)); [discriminate|intros E; discriminate E..]. }
  destruct (amOnly s); cbn [negb andb]; [split; intros E; discriminate E|].
  destruct (bcdOnly s); cbn [negb andb]; [split; intros E; discriminate E|]. done.
Qed.

(** Filling a gap ends, and fills exactly it. With a decoder in place at the
    stream's rate, any count of lost samples is fed to it as silence, no more and
    no less, in pieces of at most a second: as many as the gap has seconds begun. *)
Lemma silence_fills_gap `{Trig} cfg answer (answered tried : bool) (s : Source) (count rate : Z) (now : double) :
  settled cfg s rate -> 0 < rate ->
  let s' := feedSilence cfg answer answered tried s count rate now in
  samplesWritten (timing s') = samplesWritten (timing s) + Z.max 0 count /\
  blocksFed (running s') = blocksFed (running s) + (Z.max 0 count + rate - 1) / rate.
Proof. intros S R. unfold feedSilence. apply silence_loop; [done|done|lia]. Qed.

(** C28: a source's state stays well formed. Whatever the decoders answer, and
    whatever calls and packets reach the source in whatever order, there is an
    anchor or an offset only on a history the continuity check has confirmed, an
    anchor only with the frame it counts from, a decoder only at a rate it can
    decimate; the leap warning agrees with its count, and capture marks and
    pauses exist only while samples are timed by capture. *)
Theorem source_wf `{Trig} cfg answer (os : list Op) :
  Forall opOk os -> wf (run cfg answer os).
Proof.
  intros O. unfold run. pose proof (wf_new cfg) as W. revert W. generalize (newSource cfg).
  induction O as [|o os Ho _ IH]; intros s W; [done|]. cbn [fold_left]. by apply IH, wf_step.
Qed.

(** ** Witnesses *)

#[local] Instance flatTrig : Trig := {| std_sin x := x; std_cos _ := 1%D; std_asin x := x; std_acos _ := 0%D |}.
Definition demoConfig : SourceConfig := MkSourceConfig "dcf" 77500 77500 true true 0 0 false 1.
Definition demoNow : Now := MkNow 100 100.
Definition demoFrame (w : bool) : Now * Callback := (demoNow, CbFrame (MkFrameInfo 0 0 w)).
Definition demoAnswer (n : Z) : Output :=
  MkOutput [(demoNow, CbState LockLocked); demoFrame true; (demoNow, CbTime (MkTimeInfo (TF 10 12 100 24) 1 12000 nan))]
    (MkDiagnostics true true true 3 5 false true true RefNone) StDcf77 demoNow.
Definition demoOps : list Op :=
  [OpServerClockId "" "";
   OpAudio (PkFrame (MkHeader 1000000000 12000 480 2)) 100 1 0 1 true true;
   OpAudio (PkFrame (MkHeader 1020000000 12000 480 2)) 100 1.02 0 1.02 true true; OpReset].

Lemma leap_warning_confirmed_witness :
  leapPending (frames (fold_left (call demoConfig) [demoFrame false; demoFrame true; demoFrame true; demoFrame true]
                         (newSource demoConfig))) = true.
Proof.
  apply (leap_warning_confirmed demoConfig [demoFrame false; demoFrame true; demoFrame true; demoFrame true]
           (newSource demoConfig)); [reflexivity|reflexivity|]. exists [false]. reflexivity.
Defined.

Lemma source_wf_witness : wf (run demoConfig demoAnswer demoOps).
Proof. apply (source_wf demoConfig demoAnswer demoOps). repeat constructor. Defined.

Definition demoSettled : Source := startDecoder demoConfig (newSource demoConfig) 12000.
Lemma silence_fills_gap_witness :
  samplesWritten (timing (feedSilence demoConfig demoAnswer true true demoSettled 30000 12000 0)) =
    samplesWritten (timing demoSettled) + 30000 /\
  blocksFed (running (feedSilence demoConfig demoAnswer true true demoSettled 30000 12000 0)) =
    blocksFed (running demoSettled) + 3.
Proof.
  apply (silence_fills_gap demoConfig demoAnswer true true demoSettled 30000 12000 0); [|lia].
  split; [discriminate|split; [discriminate|reflexivity]].
Defined.

(** The demonstration locks, anchors its frames and serves until it is reset. *)
Example demo_runs :
  clockState (run demoConfig demoAnswer (firstn 3 demoOps)) = Some LockLocked /\
  samplesWritten (timing (run demoConfig demoAnswer (firstn 3 demoOps))) = 480 /\
  blocksFed (running (run demoConfig demoAnswer (firstn 3 demoOps))) = 2 /\
  clockState (run demoConfig demoAnswer demoOps) = None.
Proof. vm_compute. repeat split. Qed.
