(* ===== verification/Nmea.v ===== *)
(** * The seconds named (src/Pps.h, src/Pps.cpp)
    What is written outside for a second of the served time: the NMEA sentences, the
    names given to the seconds, 23:59:60 among them, which second is next and when,
    and how late it was told. [Pps] and [NmeaTcp] send them. *)

From Stdlib Require Import ZArith Lia List Bool Ascii String Floats.
From stdpp Require Import base list strings.
From S2P Require Import Prelude Doubles Text CivilTime SourceTypes Selector.

#[local] Open Scope string_scope.
#[local] Open Scope Z_scope.

(** ** Constants *)

Definition kLeapCatchUpSec : Z := 3600.
Definition kLeapArmedSec : Z := 7200.

(** ** NMEA 0183 *)

Definition charByte (c : ascii) : Z := Z.of_N (N_of_ascii c).
Fixpoint xorOf (s : string) (x : Z) : Z :=
  match s with EmptyString => x | String c r => xorOf r (Z.lxor x (charByte c)) end.
Definition nmeaChecksum (body : string) : string := hex2 (xorOf body 0).
Definition crlf : string := String "013" (String "010" "").
Definition nmeaSentence (body : string) : string := "$" +:+ body +:+ "*" +:+ nmeaChecksum body +:+ crlf.

(** A second to be named: the POSIX second, or the inserted one before it. *)
Record PpsLabel := MkLabel { l_posix : Z; l_leap : bool }.
#[export] Instance PpsLabel_eq_dec : EqDecision PpsLabel.
Proof. solve_decision. Defined.
(** Where the station is, when that is known. *)
Record PpsPosition := MkPosition { lat : double; lon : double }.

Definition two (v : Z) : string := dec0 2 v.

Record Civil := MkCivil { cv_y : Z; cv_mo : Z; cv_d : Z; cv_hh : Z; cv_mi : Z; cv_ss : Z }.
Definition civilOf (t : PpsLabel) : Civil :=
  let s := if l_leap t then l_posix t - 1 else l_posix t in
  let '(y, mo, d) := civilFromDays (floorDiv s 86400) in
  let rem := floorMod s 86400 in
  MkCivil y mo d (cdiv rem 3600) (cmod (cdiv rem 60) 60) (if l_leap t then 60 else cmod rem 60).

Definition hhmmss (c : Civil) : string := two (cv_hh c) +:+ two (cv_mi c) +:+ two (cv_ss c) +:+ ".00".

Definition nmeaAngle (deg : double) (degDigits : nat) : string :=
  let u := dllround (dabs deg * 60 * 10000)%D in
  let d := cdiv u 600000 in
  let m := cmod u 600000 in
  dec0 degDigits d +:+ dec0 2 (cdiv m 10000) +:+ "." +:+ dec0 4 (cmod m 10000).

Definition zdaBody (t : PpsLabel) : string :=
  let c := civilOf t in
  "GPZDA," +:+ hhmmss c +:+ "," +:+ two (cv_d c) +:+ "," +:+ two (cv_mo c) +:+ "," +:+ dec0 4 (cv_y c) +:+ ",00,00".
Definition nmeaZda (t : PpsLabel) : string := nmeaSentence (zdaBody t).

Definition rmcBody (t : option PpsLabel) (valid : bool) (pos : option PpsPosition) : string :=
  let time := match t with Some t => hhmmss (civilOf t) | None => "" end in
  let date := match t with
              | Some t => let c := civilOf t in two (cv_d c) +:+ two (cv_mo c) +:+ two (cmod (cv_y c) 100)
              | None => "" end in
  let '(la, ns, lo, ew) :=
    match pos with
    | Some p => (nmeaAngle (lat p) 2, if (lat p <? 0)%D then "S" else "N",
                 nmeaAngle (lon p) 3, if (lon p <? 0)%D then "W" else "E")
    | None => ("", "", "", "")
    end in
  "GPRMC," +:+ time +:+ "," +:+ (if valid then "A" else "V") +:+ "," +:+ la +:+ "," +:+ ns +:+ "," +:+
  lo +:+ "," +:+ ew +:+ "," +:+ (if valid then "0.0" else "") +:+ ",," +:+ date +:+ ",,," +:+ (if valid then "M" else "N").
Definition nmeaRmc (t : option PpsLabel) (valid : bool) (pos : option PpsPosition) : string :=
  nmeaSentence (rmcBody t valid pos).

(** The sentences of one second, in the order configured. *)
Definition sentences (names : list string) (t : option PpsLabel) (sync : bool) (pos : option PpsPosition) : list string :=
  concat (map (fun n =>
    if String.eqb n "rmc" then [nmeaRmc t sync pos]
    else if String.eqb n "zda" && sync then match t with Some t => [nmeaZda t] | None => [] end
    else []) names).

Definition joined (out : list string) : string := String.concat "" out.
Fixpoint dollars (s : string) : Z :=
  match s with EmptyString => 0 | String c r => Z.b2z (Ascii.eqb c "$") + dollars r end.

(** ** Naming the seconds *)

(** [lb_last] is [None] while there is none to count on from; the times are -1
    until there is one. *)
Record Labeler := MkLabeler { lb_last : option PpsLabel; leapAnnouncedAt : Z; leapLabelAt : Z; resyncs : Z }.
Definition noLabels : Labeler := MkLabeler None (-1) (-1) 0.
Definition resetLabels (b : Labeler) : Labeler := MkLabeler None (leapAnnouncedAt b) (leapLabelAt b) (resyncs b).
Definition next (b : Labeler) (served : Z) (leapPending consecutive : bool) : Labeler * PpsLabel :=
  let ann := if leapPending then served else leapAnnouncedAt b in
  let give l leapAt n := (MkLabeler (Some l) ann leapAt n, l) in
  match lb_last b with
  | Some last =>
      if negb consecutive then give (MkLabel served false) (leapLabelAt b) (resyncs b)
      else
        let expected := if l_leap last then l_posix last else l_posix last + 1 in
        let armed := (0 <=? ann) && (expected - ann <=? kLeapArmedSec) && (floorMod expected 86400 =? 0) &&
                     isLastDayOfMonth ((expected - 1) * 1000) in
        if negb (l_leap last) && armed && ((served =? expected) || (served =? expected - 1))
        then give (MkLabel expected true) expected (resyncs b)
        else if (served =? expected) ||
                ((0 <=? leapLabelAt b) && (expected - leapLabelAt b <? kLeapCatchUpSec) && (served =? expected + 1))
        then give (MkLabel expected false) (leapLabelAt b) (resyncs b)
        else give (MkLabel served false) (leapLabelAt b) (resyncs b + 1)
  | None => give (MkLabel served false) (leapLabelAt b) (resyncs b)
  end.

(** When the served clock reads [utc], on the daemon's own. *)
Definition daemonAtUtc (c : Combined) (utc : double) : double :=
  ((utc - c_offsetSec c + c_rate c * c_atSec c) / (1 + c_rate c))%D.
(** The second that is next, and when: of the served clock, or of the host's when
    there is none. *)
Definition secondAfter (c : Combined) (now lastSlot daemonMinusRealtime : double) : Z * double :=
  if c_valid c then
    let second := d2ll (dfloor (utcAt c (dmax now (lastSlot + 0.5)%D))) + 1 in
    (second, daemonAtUtc c (d_of_Z second))
  else
    let host := (now - daemonMinusRealtime)%D in
    (0, (now + (dfloor host + 1 - host))%D).
(** The clock may have moved while the second was waited for: its instant again. *)
Definition settle (second : Z) (ca : Combined * double) (c2 : Combined) : Combined * double :=
  if c_valid (fst ca) && c_valid c2 then (c2, daemonAtUtc c2 (d_of_Z second)) else ca.
Definition inSync (c : Combined) : bool := c_valid c && c_synchronised c.
(** The label of a second of the served clock; without one the count is let go. *)
Definition labelSecond (b : Labeler) (c : Combined) (second : Z) (at_ lastSlot : double) : Labeler * option PpsLabel :=
  if c_valid c then
    let '(b, l) := next b second (c_leapPending c) (dabs (at_ - lastSlot - 1) <? 0.1)%D in (b, Some l)
  else (resetLabels b, None).

(** ** How late *)

(** The last minute of latenesses, and what is shown of them, in microseconds. *)
Record Late := MkLate { lt_ring : list double; lt_n : nat; lt_next : nat; lt_last : double; lt_mean : double; lt_max : double }.
Definition noLate : Late := MkLate (replicate 60 0%D) 0 0 0 0 0.
Definition noteLate (t : Late) (sec : double) : Late :=
  let us := (sec * 1e6)%D in
  let ring := <[lt_next t := us]> (lt_ring t) in
  let n := Nat.min (lt_n t + 1) (List.length ring) in
  let '(sum, mx) := fold_left (fun '(sum, mx) v => (sum + v, dmax mx v)%D) (take n ring) (0, 0)%D in
  MkLate ring n (Nat.modulo (lt_next t + 1) (List.length ring)) us (sum / d_of_Z (Z.of_nat n))%D mx.

(** ** Lemmas: naming the seconds *)

(** The labels of consecutive seconds, each with what the served clock reads then
    and whether a leap second is announced. *)
Fixpoint runLabels (b : Labeler) (consecutive : bool) (ts : list (Z * bool)) : list PpsLabel :=
  match ts with
  | [] => []
  | (served, pending) :: ts => let '(b, l) := next b served pending consecutive in l :: runLabels b true ts
  end.
(** UTC through a leap second before the midnight [M], by a count of seconds that
    reads [M] in the inserted one. *)
Definition utcLabel (M k : Z) : PpsLabel :=
  if k <? M then MkLabel k false else if k =? M then MkLabel M true else MkLabel (k - 1) false.
(** What the served clock may read: the second; in the inserted one, the midnight or
    still 23:59:59; and after it a second ahead for up to an hour. *)
Definition servedOk (M k served : Z) : Prop :=
  if k <? M then served = k
  else if k =? M then served = M \/ served = M - 1
  else served = k - 1 \/ (served = k /\ k - 1 - M < kLeapCatchUpSec).

Section Leap.
Context (M s0 : Z).
Hypotheses (Midnight : M mod 86400 = 0) (Last : isLastDayOfMonth ((M - 1) * 1000) = true).
Hypotheses (Start : M - 86400 <= s0 < M) (Pos : 0 <= s0).

Definition warnedFrom (k : Z) (ts : list (Z * bool)) : Prop :=
  exists i s, ts !! i = Some (s, true) /\ M - kLeapArmedSec <= k + Z.of_nat i < M.
(** The labeler after the second [k]. *)
Definition labelled (b : Labeler) (k : Z) : Prop :=
  lb_last b = Some (utcLabel M k) /\ leapLabelAt b = (if k <? M then -1 else M) /\
  (k < M -> leapAnnouncedAt b <= k).

Lemma not_midnight k : M - 86400 < k < M \/ M < k < M + 86400 -> (floorMod k 86400 =? 0) = false.
Proof. intros K. rewrite floorMod_mod by lia. apply Z.eqb_neq. dlia. Qed.

Lemma next_labelled b k served p ts :
  s0 <= k < M + 86399 -> labelled b k -> servedOk M (k + 1) served ->
  (k < M -> M - kLeapArmedSec <= leapAnnouncedAt b \/ warnedFrom (k + 1) ((served, p) :: ts)) ->
  exists b', next b served p true = (b', utcLabel M (k + 1)) /\ labelled b' (k + 1) /\
    (k + 1 < M -> M - kLeapArmedSec <= leapAnnouncedAt b' \/ warnedFrom (k + 1 + 1) ts).
Proof.
  intros K (L1 & L2 & L3) S W. unfold next. rewrite L1. cbv zeta.
  unfold servedOk, kLeapCatchUpSec in S. unfold utcLabel in *.
  assert (Wn : k < M -> M - kLeapArmedSec <= (if p then served else leapAnnouncedAt b) \/ warnedFrom (k + 1 + 1) ts).
  { intros Km. destruct (Z.ltb_spec (k + 1) M) as [A|A].
    - destruct (W Km) as [G|(i & s & E & R)].
      + left. destruct p; [|exact G]. subst served. specialize (L3 Km). lia.
      + destruct i as [|i].
        * cbn in E. injection E as <- ->. left. lia.
        * right. exists i, s. split; [exact E|]. lia.
    - left. assert (k + 1 = M) by lia. destruct (W Km) as [G|(i & s & E & R)]; [|lia].
      destruct p; [|exact G]. rewrite (proj2 (Z.eqb_eq (k + 1) M)) in S by done. unfold kLeapArmedSec in *. lia. }
  destruct (Z.ltb_spec k M) as [Km|Km].
  - cbn [l_leap l_posix negb andb]. destruct (Z.ltb_spec (k + 1) M) as [A|A].
    + rewrite not_midnight by lia. rewrite andb_false_r, andb_false_l. cbn [andb]. subst served. rewrite Z.eqb_refl. cbn [orb].
      eexists. split; [reflexivity|]. split; [|intros _; cbn; by apply Wn].
      unfold labelled. cbn. rewrite L2. unfold utcLabel. destruct (Z.ltb_spec (k + 1) M); [|lia]. split; [done|]. split; [done|].
      intros _. destruct p; [lia|]. specialize (L3 Km). lia.
    + assert (E : k + 1 = M) by lia. rewrite E, Z.eqb_refl in *. specialize (Wn Km).
      assert (Ann : M - kLeapArmedSec <= (if p then served else leapAnnouncedAt b)).
      { destruct Wn as [|(i & s & _ & R)]; [done|lia]. }
      assert (B : 86400 <= M) by dlia. unfold kLeapArmedSec in *.
      destruct (Z.leb_spec 0 (if p then served else leapAnnouncedAt b)); [|lia].
      destruct (Z.leb_spec (M - (if p then served else leapAnnouncedAt b)) 7200); [|lia].
      rewrite floorMod_mod, Midnight, Last by lia. cbn [andb Z.eqb].
      assert (Sv : ((served =? M) || (served =? M - 1)) = true) by (apply orb_true_iff; rewrite !Z.eqb_eq; tauto).
      rewrite Sv. eexists. split; [reflexivity|]. split; [|intros; lia].
      unfold labelled. cbn. unfold utcLabel. rewrite Z.ltb_irrefl, Z.eqb_refl. split; [done|]. split; [done|lia].
  - destruct (Z.ltb_spec (k + 1) M); [lia|]. destruct (Z.eqb_spec (k + 1) M) as [|N]; [lia|].
    replace (k + 1 - 1) with k in * by lia. rewrite L2.
    assert (G : forall l, l = MkLabel k false -> labelled (MkLabeler (Some l) (if p then served else leapAnnouncedAt b) M (resyncs b)) (k + 1)).
    { intros l ->. unfold labelled, utcLabel. cbn. destruct (Z.ltb_spec (k + 1) M); [lia|].
      destruct (Z.eqb_spec (k + 1) M); [lia|]. replace (k + 1 - 1) with k by lia. split; [done|]. split; [done|lia]. }
    assert (Sv : ((served =? k) || ((0 <=? M) && (k - M <? kLeapCatchUpSec) && (served =? k + 1))) = true).
    { unfold kLeapCatchUpSec. apply orb_true_iff. rewrite !andb_true_iff, !Z.eqb_eq, Z.leb_le, Z.ltb_lt. dlia. }
    destruct (Z.eqb_spec k M) as [->|Ne]; cbn [l_leap l_posix negb andb].
    + rewrite Sv. eexists. split; [reflexivity|]. split; [by apply G|lia].
    + replace (k - 1 + 1) with k by lia. rewrite not_midnight by lia. rewrite andb_false_r, andb_false_l. cbn [andb]. rewrite Sv.
      eexists. split; [reflexivity|]. split; [by apply G|lia].
Qed.

Lemma runLabels_leap ts : forall b k,
  s0 <= k -> k + Z.of_nat (List.length ts) < M + 86400 -> labelled b k ->
  (forall i s p, ts !! i = Some (s, p) -> servedOk M (k + 1 + Z.of_nat i) s) ->
  (k < M -> M - kLeapArmedSec <= leapAnnouncedAt b \/ warnedFrom (k + 1) ts) ->
  runLabels b true ts = map (fun i => utcLabel M (k + 1 + Z.of_nat i)) (seq 0 (List.length ts)).
Proof.
  induction ts as [|[served p] ts IH]; intros b k K Le L S W; [done|]. cbn [runLabels List.length seq map] in *.
  destruct (next_labelled b k served p ts) as (b' & E & L' & W'); [lia|exact L| |exact W|].
  { specialize (S 0%nat served p eq_refl). by rewrite Z.add_0_r in S. }
  rewrite E. f_equal; [by rewrite Z.add_0_r|]. rewrite (IH b' (k + 1)); [|lia|lia|exact L'| |exact W'].
  - rewrite <- seq_shift, map_map. apply map_ext. intros i. f_equal. lia.
  - intros i s q Ei. specialize (S (Datatypes.S i) s q Ei). replace (k + 1 + 1 + Z.of_nat i) with (k + 1 + Z.of_nat (Datatypes.S i)) by lia. exact S.
Qed.
End Leap.

(** With no leap second announced the labels are what the served clock reads. *)
Definition unwarned (b : Labeler) : Prop := leapAnnouncedAt b = -1 /\ leapLabelAt b = -1.
Lemma next_unwarned b served consecutive : unwarned b ->
  exists b', next b served false consecutive = (b', MkLabel served false) /\ unwarned b'.
Proof.
  intros [A L]. unfold next. rewrite A, L. destruct (lb_last b) as [last|]; [|by eexists].
  destruct (negb consecutive); [by eexists|]. cbv zeta. change (0 <=? -1) with false. rewrite andb_false_r. cbn [andb orb].
  rewrite orb_false_r. destruct (Z.eqb_spec served (if l_leap last then l_posix last else l_posix last + 1)) as [<-|]; by eexists.
Qed.
Lemma runLabels_unwarned ts : forall b consecutive, unwarned b -> Forall (fun t => snd t = false) ts ->
  runLabels b consecutive ts = map (fun t => MkLabel (fst t) false) ts.
Proof.
  induction ts as [|[served p] ts IH]; intros b consecutive U F; [done|]. inversion F as [|? ? P F']. cbn in P. subst p.
  cbn [runLabels map fst]. destruct (next_unwarned b served consecutive U) as (b' & -> & U'). f_equal. by apply IH.
Qed.

(** Whatever the served clock does, an inserted second is named only before a
    midnight that ends a month, within two hours of a warning. *)
Lemma next_leap_armed b served p consecutive b' l : next b served p consecutive = (b', l) -> l_leap l = true ->
  l_posix l mod 86400 = 0 /\ isLastDayOfMonth ((l_posix l - 1) * 1000) = true /\
  0 <= leapAnnouncedAt b' /\ l_posix l - leapAnnouncedAt b' <= kLeapArmedSec.
Proof.
  unfold next. intros E Le. destruct (lb_last b) as [last|].
  2: { injection E as <- <-. done. }
  destruct (negb consecutive); [injection E as <- <-; done|]. cbv zeta in E.
  match type of E with context [if ?c then _ else _] => destruct c eqn:C in E end.
  - injection E as <- <-. cbn. rewrite !andb_true_iff, !Z.leb_le, Z.eqb_eq, floorMod_mod in C by lia. tauto.
  - destruct (_ || _) in E; injection E as <- <-; done.
Qed.

(** ** Lemmas: sentences *)

(** What a reader makes of a sentence: its body, if the checksum is the body's. *)
Fixpoint untilStar (s : string) : option (string * string) :=
  match s with
  | EmptyString => None
  | String c r =>
      if Ascii.eqb c "*" then Some ("", r)
      else match untilStar r with Some (a, b) => Some (String c a, b) | None => None end
  end.
Definition nmeaRead (s : string) : option string :=
  match s with
  | String "$" r =>
      match untilStar r with
      | Some (body, rest) => if String.eqb rest (nmeaChecksum body +:+ crlf) then Some body else None
      | None => None
      end
  | _ => None
  end.
Fixpoint lacks (c : ascii) (s : string) : bool :=
  match s with EmptyString => true | String x r => negb (Ascii.eqb x c) && lacks c r end.

Lemma lacks_app c a b : lacks c (a +:+ b) = lacks c a && lacks c b.
Proof. induction a as [|x a IH]; [done|]. rewrite app_str_cons. cbn [lacks]. rewrite IH. by rewrite andb_assoc. Qed.
Lemma untilStar_app body rest : lacks "*" body = true -> untilStar (body +:+ String "*" rest) = Some (body, rest).
Proof.
  induction body as [|x body IH]; [done|]. cbn [lacks]. rewrite app_str_cons, andb_true_iff, negb_true_iff. cbn [untilStar].
  intros [-> L]. by rewrite IH.
Qed.
Lemma nmeaRead_sentence body : lacks "*" body = true -> nmeaRead (nmeaSentence body) = Some body.
Proof.
  intros L. unfold nmeaSentence, nmeaRead. rewrite app_str_cons, app_str_nil. rewrite !app_str_cons, !app_str_nil.
  rewrite untilStar_app by done. by rewrite String.eqb_refl.
Qed.

(** The checksum of a body with one character changed is another. *)
Lemma xorOf_app a b x : xorOf (a +:+ b) x = xorOf b (xorOf a x).
Proof. revert x. induction a as [|c a IH]; intros x; [done|]. rewrite app_str_cons. cbn. apply IH. Qed.
Lemma xorOf_shift s x y : xorOf s (Z.lxor x y) = Z.lxor x (xorOf s y).
Proof.
  revert x y. induction s as [|c s IH]; intros x y; [done|]. cbn [xorOf]. rewrite Z.lxor_assoc. apply IH.
Qed.
Lemma charByte_range c : 0 <= charByte c < 256.
Proof. unfold charByte. destruct c as [[] [] [] [] [] [] [] []]; vm_compute; split; congruence. Qed.
Lemma xorOf_range s x : 0 <= x < 256 -> 0 <= xorOf s x < 256.
Proof.
  revert x. induction s as [|c s IH]; intros x X; [done|]. cbn [xorOf]. apply IH. pose proof (charByte_range c) as B.
  split; [apply Z.lxor_nonneg; lia|]. change 256 with (2 ^ 8) in *.
  destruct (Z.eq_dec (Z.lxor x (charByte c)) 0) as [->|]; [lia|]. apply Z.log2_lt_pow2; [|].
  - pose proof (proj2 (Z.lxor_nonneg x (charByte c))). lia.
  - eapply Z.le_lt_trans; [apply Z.log2_lxor; lia|]. apply Z.max_lub_lt.
    + destruct (Z.eq_dec x 0) as [->|]; [done|]. apply Z.log2_lt_pow2; lia.
    + destruct (Z.eq_dec (charByte c) 0) as [->|]; [done|]. apply Z.log2_lt_pow2; lia.
Qed.
Lemma hexdigit_inj x y : 0 <= x < 16 -> 0 <= y < 16 -> hexdigit x = hexdigit y -> x = y.
Proof.
  intros X Y E. assert (A : forallb (fun a => forallb (fun b => negb (Ascii.eqb (hexdigit (Z.of_nat a)) (hexdigit (Z.of_nat b))) || (a =? b)%nat)
    (seq 0 16)) (seq 0 16) = true) by (vm_compute; reflexivity).
  rewrite forallb_forall in A. specialize (A (Z.to_nat x) ltac:(apply in_seq; lia)). rewrite forallb_forall in A.
  specialize (A (Z.to_nat y) ltac:(apply in_seq; lia)). rewrite !Z2Nat.id, E, Ascii.eqb_refl in A by lia. cbn in A.
  apply Nat.eqb_eq in A. lia.
Qed.
Lemma hex2_inj x y : 0 <= x < 256 -> 0 <= y < 256 -> hex2 x = hex2 y -> x = y.
Proof.
  unfold hex2. intros X Y [= E1 E2]. apply hexdigit_inj in E1; [|dlia..]. apply hexdigit_inj in E2; [|dlia..]. dlia.
Qed.
Lemma charByte_inj c d : charByte c = charByte d -> c = d.
Proof. unfold charByte. intros E. apply N2Z.inj in E. rewrite <- (ascii_N_embedding c), <- (ascii_N_embedding d). by rewrite E. Qed.
Lemma nmea_one_changed a b c d : c <> d -> nmeaChecksum (a +:+ String c b) <> nmeaChecksum (a +:+ String d b).
Proof.
  intros N E. unfold nmeaChecksum in E. apply hex2_inj in E; [|by apply xorOf_range..].
  rewrite !xorOf_app in E. cbn [xorOf] in E. rewrite !(Z.lxor_comm (xorOf a 0)), !xorOf_shift in E.
  apply N, charByte_inj. apply (f_equal (fun z => Z.lxor z (xorOf b (xorOf a 0)))) in E.
  by rewrite !Z.lxor_assoc, Z.lxor_nilpotent, !Z.lxor_0_r in E.
Qed.

(** *** Reading a ZDA *)

Fixpoint fields (s : string) : list string :=
  match s with
  | EmptyString => [""]
  | String c r =>
      if Ascii.eqb c "," then "" :: fields r
      else match fields r with f :: fs => String c f :: fs | [] => [String c ""] end
  end.
Lemma fields_last a : lacks "," a = true -> fields a = [a].
Proof.
  induction a as [|c a IH]; [done|]. cbn [lacks fields]. rewrite andb_true_iff, negb_true_iff. intros [-> L]. by rewrite IH.
Qed.
Lemma fields_app a b : lacks "," a = true -> fields (a +:+ String "," b) = a :: fields b.
Proof.
  induction a as [|c a IH]; [done|]. rewrite app_str_cons. cbn [lacks fields]. rewrite andb_true_iff, negb_true_iff.
  intros [-> L]. by rewrite IH.
Qed.

(** The second a ZDA names. *)
Definition readZda (body : string) : option PpsLabel :=
  match fields body with
  | [talker; t; d; mo; y; "00"; "00"] =>
      let n i := read_dec (String.substring i 2 t) 0 in
      if String.eqb talker "GPZDA" && String.eqb (String.substring 6 4 t) ".00" then
        Some (MkLabel (daysFromCivil (read_dec y 0) (read_dec mo 0) (read_dec d 0) * 86400 + n 0%nat * 3600 + n 2%nat * 60 + n 4%nat)
                (n 4%nat =? 60))
      else None
  | _ => None
  end.

Lemma two_digits v : 0 <= v < 100 -> two v = String (digit (v / 10)) (String (digit (v mod 10)) "").
Proof.
  intros V. assert (A : forallb (fun k => String.eqb (two (Z.of_nat k)) (String (digit (Z.of_nat k / 10)) (String (digit (Z.of_nat k mod 10)) "")))
    (seq 0 100) = true) by (vm_compute; reflexivity).
  rewrite forallb_forall in A. specialize (A (Z.to_nat v) ltac:(apply in_seq; lia)). rewrite Z2Nat.id in A by lia. by apply String.eqb_eq.
Qed.
Lemma read_two v : 0 <= v < 100 -> read_dec (two v) 0 = v.
Proof. intros V. rewrite two_digits by done. cbn [read_dec]. rewrite !digit_val_digit by dlia. dlia. Qed.

Lemma lacks_digit c d : 0 <= d < 10 -> isdigit c = false -> negb (Ascii.eqb (digit d) c) = true.
Proof.
  intros D N. apply negb_true_iff. destruct (Ascii.eqb_spec (digit d) c) as [<-|]; [|done]. by rewrite isdigit_digit in N.
Qed.
Lemma lacks_dec_aux c fuel : forall z acc, isdigit c = false -> 0 <= z -> lacks c acc = true -> lacks c (dec_aux fuel z acc) = true.
Proof.
  induction fuel as [|fuel IH]; intros z acc N Z0 L; cbn [dec_aux].
  - cbn [lacks]. by rewrite lacks_digit, L by (done || dlia).
  - assert (L' : lacks c (String (digit (z mod 10)) acc) = true) by (cbn [lacks]; by rewrite lacks_digit, L by (done || dlia)).
    destruct (z <? 10); [exact L'|]. apply IH; [done|dlia|exact L'].
Qed.
Lemma lacks_zeros c n : isdigit c = false -> lacks c (zeros n) = true.
Proof. intros N. induction n as [|n IH]; [done|]. cbn [zeros lacks]. rewrite IH, andb_true_r. apply (lacks_digit c 0); [lia|done]. Qed.
Lemma lacks_dec0 c w z : isdigit c = false -> c <> "-"%char -> lacks c (dec0 w z) = true.
Proof.
  intros N M. unfold dec0. cbv zeta. rewrite !lacks_app, lacks_zeros by done. unfold udec.
  rewrite lacks_dec_aux by (done || lia). destruct (z <? 0); [|done]. cbn [lacks]. rewrite andb_true_r.
  apply andb_true_iff. split; [|done]. apply negb_true_iff. by apply Ascii.eqb_neq.
Qed.
Lemma read_zeros n s : read_dec (zeros n +:+ s) 0 = read_dec s 0.
Proof. induction n as [|n IH]; [by rewrite app_str_nil|]. cbn [zeros]. rewrite app_str_cons. cbn [read_dec]. exact IH. Qed.
Lemma read_dec0 w z : 0 <= z -> read_dec (dec0 w z) 0 = z.
Proof.
  intros Z0. unfold dec0. cbv zeta. destruct (Z.ltb_spec z 0); [lia|]. rewrite app_str_nil, read_zeros, Z.abs_eq by lia. by apply read_dec_udec.
Qed.

(** A label of a POSIX second since 1970, an inserted one ending a minute. *)
Definition labelOk (t : PpsLabel) : Prop :=
  0 < l_posix t <= 10000000000000 /\ (l_leap t = true -> l_posix t mod 60 = 0).
Lemma civilOf_spec t : labelOk t ->
  let c := civilOf t in
  0 <= cv_hh c < 100 /\ 0 <= cv_mi c < 60 /\ 0 <= cv_ss c <= 60 /\ 1 <= cv_mo c <= 12 /\ 1 <= cv_d c <= 31 /\ 0 <= cv_y c /\
  daysFromCivil (cv_y c) (cv_mo c) (cv_d c) * 86400 + cv_hh c * 3600 + cv_mi c * 60 + cv_ss c = l_posix t /\
  (cv_ss c =? 60) = l_leap t.
Proof.
  intros [R L]. unfold civilOf. set (s := if l_leap t then l_posix t - 1 else l_posix t).
  assert (S : 0 <= s <= 10000000000000) by (unfold s; destruct (l_leap t); lia).
  rewrite floorDiv_div, floorMod_mod by lia. pose proof (days_of_civil (s / 86400)) as D. unfold dayRange in D. specialize (D ltac:(dlia)).
  destruct (civilFromDays (s / 86400)) as [[y mo] d]. destruct D as [V E]. cbn [cv_hh cv_mi cv_ss cv_mo cv_d cv_y].
  pose proof (validDate_day _ _ _ V) as [Hm Hd]. pose proof (dayOfEra_bounds _ _ _ V) as DE.
  assert (Y : 0 <= y).
  { pose proof E as E'. rewrite daysFromCivil_plain in E' by lia. cbn zeta in E'. destruct (mo <=? 2); cbn [Z.b2z] in *; dlia. }
  unfold cdiv, cmod. rewrite !Z.quot_div_nonneg, !Z.rem_mod_nonneg by dlia. rewrite E.
  assert (T : l_leap t = true -> s mod 86400 mod 60 = 59) by (intros Le; specialize (L Le); unfold s; rewrite Le; dlia).
  assert (Eq : l_posix t = s + Z.b2z (l_leap t)) by (unfold s; destruct (l_leap t); cbn [Z.b2z]; lia).
  clearbody s. destruct (l_leap t); cbn [Z.b2z] in Eq.
  - specialize (T eq_refl). repeat split; try done; try dlia.
  - assert (N : (s mod 86400 mod 60 =? 60) = false) by (apply Z.eqb_neq; dlia). repeat split; try done; dlia.
Qed.
(** A ZDA names its second, the inserted one too. *)
Lemma lacks_two c v : isdigit c = false -> c <> "-"%char -> lacks c (two v) = true.
Proof. apply lacks_dec0. Qed.
Lemma lacks_hhmmss c t : isdigit c = false -> c <> "-"%char -> c <> "."%char -> lacks c (hhmmss t) = true.
Proof.
  intros N M P. unfold hhmmss. rewrite !lacks_app, !lacks_two by done. cbn [lacks andb]. rewrite !(lacks_digit c 0 : _ -> _ -> negb (Ascii.eqb "0" c) = true) by (done || lia).
  rewrite !andb_true_r. apply negb_true_iff, Ascii.eqb_neq. congruence.
Qed.
Lemma readZda_zda t : labelOk t -> readZda (zdaBody t) = Some t.
Proof.
  intros L. pose proof (civilOf_spec t L) as S. cbv zeta in S. unfold zdaBody. cbv zeta. set (c := civilOf t) in *.
  destruct S as (Hh & Mi & Ss & Mo & Dd & Yy & Sum & Leap).
  change ("GPZDA," +:+ hhmmss c +:+ "," +:+ two (cv_d c) +:+ "," +:+ two (cv_mo c) +:+ "," +:+ dec0 4 (cv_y c) +:+ ",00,00")
    with ("GPZDA" +:+ String "," (hhmmss c +:+ String "," (two (cv_d c) +:+ String "," (two (cv_mo c) +:+ String "," (dec0 4 (cv_y c) +:+ String "," ("00" +:+ String "," "00")))))).
  unfold readZda. rewrite !fields_app, fields_last by (first [done | by apply lacks_hhmmss | by apply lacks_dec0]).
  rewrite !read_two, read_dec0 by lia.
  assert (E : hhmmss c = String (digit (cv_hh c / 10)) (String (digit (cv_hh c mod 10)) (String (digit (cv_mi c / 10)) (String (digit (cv_mi c mod 10))
    (String (digit (cv_ss c / 10)) (String (digit (cv_ss c mod 10)) ".00")))))).
  { unfold hhmmss. rewrite !two_digits by lia. reflexivity. }
  rewrite E. cbn [String.substring]. rewrite (eq_refl : (String.eqb "GPZDA" "GPZDA" && String.eqb ".00" ".00")%bool = true).
  pose proof (read_two (cv_hh c) ltac:(lia)) as R1. pose proof (read_two (cv_mi c) ltac:(lia)) as R2. pose proof (read_two (cv_ss c) ltac:(lia)) as R3.
  rewrite two_digits in R1, R2, R3 by lia. rewrite R1, R2, R3, Sum, Leap. by destruct t.
Qed.
Lemma zdaBody_lacks t : lacks "*" (zdaBody t) = true.
Proof.
  unfold zdaBody. cbv zeta. rewrite !lacks_app, lacks_hhmmss, !lacks_two, lacks_dec0 by done. reflexivity.
Qed.

(** *** Reading an RMC *)

Lemma lacks_one c x : c <> x -> lacks c (String x "") = true.
Proof. intros N. unfold lacks. rewrite andb_true_r. apply negb_true_iff, Ascii.eqb_neq. congruence. Qed.
Lemma lacks_nmeaAngle c deg n : isdigit c = false -> c <> "-"%char -> c <> "."%char -> lacks c (nmeaAngle deg n) = true.
Proof.
  intros N M P. unfold nmeaAngle. cbv zeta. rewrite !lacks_app, !lacks_dec0 by done. cbn [lacks andb].
  rewrite !andb_true_r. apply negb_true_iff, Ascii.eqb_neq. congruence.
Qed.
(** The fields of an RMC: its time, status, place, speed, date and mode. *)
Lemma rmc_fields t valid pos : exists time la ns lo ew date,
  fields (rmcBody t valid pos) =
    ["GPRMC"; time; if valid then "A" else "V"; la; ns; lo; ew; if valid then "0.0" else ""; ""; date; ""; "";
     if valid then "M" else "N"] /\
  lacks "*" (rmcBody t valid pos) = true /\ (t = None -> time = "" /\ date = "") /\
  (forall l, t = Some l -> time = hhmmss (civilOf l)).
Proof.
  unfold rmcBody.
  set (time := match t with Some t => hhmmss (civilOf t) | None => "" end).
  set (date := match t with Some t => _ | None => "" end).
  set (place := match pos with Some p => _ | None => _ end).
  destruct place as [[[la ns] lo] ew] eqn:Pl. exists time, la, ns, lo, ew, date.
  assert (T : forall c, isdigit c = false -> c <> "-"%char -> c <> "."%char -> lacks c time = true).
  { intros c N M P. unfold time. destruct t; [by apply lacks_hhmmss|done]. }
  assert (D : forall c, isdigit c = false -> c <> "-"%char -> lacks c date = true).
  { intros c N M. unfold date. destruct t; [|done]. cbv zeta. by rewrite !lacks_app, !lacks_two. }
  assert (P : forall c, isdigit c = false -> c <> "-"%char -> c <> "."%char -> c <> "N"%char -> c <> "S"%char -> c <> "E"%char -> c <> "W"%char ->
    lacks c la = true /\ lacks c ns = true /\ lacks c lo = true /\ lacks c ew = true).
  { intros c N M Dt Nn Ns Ne Nw. unfold place in Pl. destruct pos as [p|]; injection Pl as <- <- <- <-; [|done].
    rewrite !lacks_nmeaAngle by done. repeat split; match goal with |- context [if ?b then _ else _] => destruct b end; by apply lacks_one. }
  destruct (P ","%char) as (P1 & P2 & P3 & P4); [done..|].
  destruct (P "*"%char) as (Q1 & Q2 & Q3 & Q4); [done..|]. split; [|split; [|split]].
  - match goal with |- fields ?b = _ => change b with ("GPRMC" +:+ String "," (time +:+ String "," ((if valid then "A" else "V") +:+ String "," (la +:+ String ","
      (ns +:+ String "," (lo +:+ String "," (ew +:+ String "," ((if valid then "0.0" else "") +:+ String "," ("" +:+ String "," (date +:+ String ","
      ("" +:+ String "," ("" +:+ String "," (if valid then "M" else "N"))))))))))))) end.
    rewrite !fields_app, fields_last by (first [done | by apply T | by apply D | by destruct valid]). reflexivity.
  - rewrite !lacks_app, T, D, Q1, Q2, Q3, Q4 by done. by destruct valid.
  - intros ->. split; reflexivity.
  - intros l ->. reflexivity.
Qed.

(** *** Corruption *)

Lemma lacks_change a c b d : lacks "*" (a +:+ String c b) = true -> d <> "*"%char -> lacks "*" (a +:+ String d b) = true.
Proof.
  rewrite !lacks_app. cbn [lacks]. rewrite !andb_true_iff. intros (A & _ & B) N. split; [done|]. split; [|done].
  apply negb_true_iff. by apply Ascii.eqb_neq.
Qed.
(** A sentence whose body had one character changed is not read. *)
Lemma changed_unread a c b d : c <> d -> lacks "*" (a +:+ String c b) = true ->
  nmeaRead (String "$" ((a +:+ String d b) +:+ String "*" (nmeaChecksum (a +:+ String c b) +:+ crlf))) = None.
Proof.
  intros N L. unfold nmeaRead. destruct (Ascii.eqb_spec d "*") as [->|Nd].
  - rewrite app_str_assoc, app_str_cons. rewrite untilStar_app.
    2: { rewrite lacks_app in L. by apply andb_true_iff in L as [? _]. }
    match goal with |- context [String.eqb ?x ?y] => destruct (String.eqb_spec x y) as [E|]; [|done] end.
    apply (f_equal String.length) in E. rewrite app_str_length in E. cbn [String.length] in E. rewrite !app_str_length in E. unfold nmeaChecksum, hex2, crlf in E. cbn [String.length] in E. lia.
  - rewrite untilStar_app by (by eapply lacks_change).
    match goal with |- context [String.eqb ?x ?y] => destruct (String.eqb_spec x y) as [E|]; [|done] end.
    exfalso. unfold nmeaChecksum, hex2, crlf in E. rewrite !app_str_cons in E.
    apply (nmea_one_changed a b c d N). unfold nmeaChecksum, hex2. injection E as E1 E2. by rewrite E1, E2.
Qed.

(** Every sentence reads, and says what there is to say. *)
Lemma sentence_reads names t sync pos s : In s (sentences names t sync pos) ->
  (s = nmeaRmc t sync pos /\ exists body, nmeaRead s = Some body /\ nth 2 (fields body) "" = (if sync then "A" else "V")) \/
  (sync = true /\ exists l, t = Some l /\ s = nmeaZda l /\ nmeaRead s = Some (zdaBody l)).
Proof.
  unfold sentences. rewrite in_concat. intros (x & X & S). apply in_map_iff in X as (n & <- & _).
  destruct (String.eqb n "rmc"); [|destruct (String.eqb n "zda"); [|done]].
  - destruct S as [<-|[]]. left. split; [done|]. exists (rmcBody t sync pos).
    destruct (rmc_fields t sync pos) as (time & la & ns & lo & ew & date & F & L & _). rewrite F. split; [by apply nmeaRead_sentence|done].
  - cbn [andb] in S. destruct sync; [|done]. destruct t as [l|]; [|done]. destruct S as [<-|[]]. right. split; [done|].
    exists l. split; [done|]. split; [done|]. by apply nmeaRead_sentence, zdaBody_lacks.
Qed.

(** ** Theorems *)

(** C36: from before a midnight that ends a month to the end of the day after, with
    a leap second announced at some second of the two hours before it, the labels
    are UTC's, 23:59:60 once among them, whether the served clock reads the
    midnight or 23:59:59 through the inserted second, and if it goes on reading a
    second ahead for up to an hour. *)
Theorem labels_through_leap (M s0 : Z) (p0 c0 : bool) (ts : list (Z * bool)) :
  M mod 86400 = 0 -> isLastDayOfMonth ((M - 1) * 1000) = true -> M - 86400 <= s0 < M -> 0 <= s0 ->
  s0 + Z.of_nat (List.length ts) < M + 86400 ->
  (forall i s p, ts !! i = Some (s, p) -> servedOk M (s0 + 1 + Z.of_nat i) s) ->
  warnedFrom M s0 ((s0, p0) :: ts) ->
  runLabels noLabels c0 ((s0, p0) :: ts) = map (fun i => utcLabel M (s0 + Z.of_nat i)) (seq 0 (S (List.length ts))).
Proof.
  intros Mid Last Start Pos Le S (i & s & Ei & Ri). cbn [runLabels]. unfold next at 1. cbn [lb_last noLabels seq map].
  assert (U : utcLabel M s0 = MkLabel s0 false) by (unfold utcLabel; destruct (Z.ltb_spec s0 M); [done|lia]).
  f_equal; [by rewrite Z.add_0_r|]. rewrite (runLabels_leap M s0 Mid Last Start Pos ts _ s0); [|lia|lia| |exact S|].
  - rewrite <- seq_shift, map_map. apply map_ext. intros j. f_equal. lia.
  - unfold labelled. cbn [lb_last leapLabelAt leapAnnouncedAt]. destruct (Z.ltb_spec s0 M); [|lia]. rewrite U.
    split; [done|]. split; [done|]. intros _. destruct p0; cbn; lia.
  - intros _. destruct i as [|i].
    + injection Ei as <- ->. left. cbn. lia.
    + right. exists i, s. split; [exact Ei|lia].
Qed.
Example labels_through_leap_witness :
  runLabels noLabels false [(1483228797, true); (1483228798, true); (1483228799, true); (1483228799, false); (1483228801, false); (1483228801, false)] =
  [MkLabel 1483228797 false; MkLabel 1483228798 false; MkLabel 1483228799 false; MkLabel 1483228800 true; MkLabel 1483228800 false; MkLabel 1483228801 false].
Proof.
  apply (labels_through_leap 1483228800 1483228797 true false
    [(1483228798, true); (1483228799, true); (1483228799, false); (1483228801, false); (1483228801, false)]); try reflexivity; try (cbn; lia).
  - intros [|[|[|[|[|i]]]]] s p E; [injection E as <- <-..|destruct i; discriminate E]; vm_compute; first [reflexivity | left; reflexivity | right; reflexivity | right; split; reflexivity].
  - exists 0%nat, 1483228797. split; [reflexivity|]. unfold kLeapArmedSec. lia.
Defined.

(** C37: a ZDA written for a second since 1970, an inserted one too, is read as
    naming that second, and with one character of its body changed is not read. *)
Theorem zda_read_back (t : PpsLabel) : labelOk t ->
  (nmeaRead (nmeaZda t) = Some (zdaBody t) /\ readZda (zdaBody t) = Some t) /\
  forall a c b d, zdaBody t = a +:+ String c b -> c <> d ->
    nmeaRead (String "$" ((a +:+ String d b) +:+ String "*" (nmeaChecksum (zdaBody t) +:+ crlf))) = None.
Proof.
  intros L. split; [split; [by apply nmeaRead_sentence, zdaBody_lacks|by apply readZda_zda]|].
  intros a c b d E N. rewrite E. apply changed_unread; [done|]. rewrite <- E. apply zdaBody_lacks.
Qed.
Example zda_read_back_witness :
  (nmeaRead (nmeaZda (MkLabel 1483228800 true)) = Some "GPZDA,235960.00,31,12,2016,00,00" /\
   readZda (zdaBody (MkLabel 1483228800 true)) = Some (MkLabel 1483228800 true)).
Proof. apply (zda_read_back (MkLabel 1483228800 true)). split; [cbn; lia|reflexivity]. Defined.
