(* ===== verification/Pps.v ===== *)
(** * The pulse per second (src/Pps.h, src/Pps.cpp)
    The 1PPS output on a serial port: the port's opening, and the thread that pulses
    and writes, a second at a time. Readings of the clocks and what the port answers
    are inputs, and what is done to the port is a list of actions. *)

From Stdlib Require Import ZArith Lia List Bool Ascii String Floats.
From stdpp Require Import base list strings.
From S2P Require Import Prelude Doubles Text SourceTypes Selector Nmea.

#[local] Open Scope string_scope.
#[local] Open Scope Z_scope.

Definition kMaxLateSec : double := 0.050%D.
Definition kReopenSec : double := 5%D.

(** ** The output *)

Inductive PpsOn := PpsOff | Pulsing | Waiting | NoDevice | PpsError.
#[export] Instance PpsOn_eq_dec : EqDecision PpsOn.
Proof. solve_decision. Defined.
(** Why it does not pulse: the selector's note, or what the port said. *)
Inductive Why := NoWhy | NotSynchronised (n : Note) | PortSaid (s : string).

Record PpsConfig := MkPpsConfig {
  device : string; line : string; widthMs : Z; invert : bool; baud : Z; nmea : list string
}.

(** *** The serial port *)

(** The speed of the line whose constant is chosen. *)
Definition baudConst (b : Z) : Z :=
  if existsb (Z.eqb b) [9600; 19200; 38400; 57600; 115200] then b else 4800.
(** The modem line is set, not cleared, when this holds. *)
Definition setsBit (cfg : PpsConfig) (on : bool) : bool := negb (Bool.eqb on (invert cfg)).

(** What each system call of an opening answers: [None], or [errno]. *)
Record Calls := MkCalls {
  sc_open : option Z; sc_isatty : option Z; sc_excl : option Z; sc_get : option Z; sc_set : option Z; sc_bit : option Z
}.
Definition ENOENT : Z := 2.
Definition EIO : Z := 5.
Definition ENXIO : Z := 6.
Definition EPERM : Z := 1.
Definition EACCES : Z := 13.
Definition EBUSY : Z := 16.
Definition ENODEV : Z := 19.

Section Serial.
Context (strerror : Z -> string).

Definition setLine (answer : option Z) : option string :=
  option_map (fun e => "cannot set the line: " +:+ strerror e) answer.
(** How much of what was given the kernel took, or [errno]. *)
Definition writePort (data : string) (answer : Z + Z) : option string :=
  match answer with
  | inl n => if n =? Z.of_nat (String.length data) then None
             else Some "NMEA output backed up: the port is not sending"
  | inr e => Some ("cannot write NMEA: " +:+ strerror e)
  end.
(** The error of an opening, [None] when there is a port, its line at rest. *)
Definition openSerialPps (cfg : PpsConfig) (k : Calls) : option string :=
  match sc_open k with
  | Some e =>
      Some (if (e =? ENOENT) || (e =? ENODEV) || (e =? ENXIO) then
              device cfg +:+ " is not present" +:+
              " (in Docker, run ./restart.sh after plugging it in: the device is mapped when the" +:+
              " container is created)"
            else if (e =? EACCES) || (e =? EPERM) then
              device cfg +:+ ": permission denied (the daemon's user needs the device's group, " +:+ "usually dialout)"
            else if e =? EBUSY then device cfg +:+ " is in use by another program"
            else device cfg +:+ ": " +:+ strerror e)
  | None =>
  match sc_isatty k with
  | Some e =>
      Some (if e =? EIO then
              device cfg +:+ " has no serial hardware behind it (Input/output error): " +:+
              "the kernel lists the port but nothing answers"
            else device cfg +:+ " is not a serial port")
  | None =>
  match sc_excl k with
  | Some e => Some (device cfg +:+ ": cannot take it exclusively: " +:+ strerror e)
  | None =>
  match sc_get k with
  | Some e => Some (device cfg +:+ ": " +:+ strerror e)
  | None =>
  match sc_set k with
  | Some e => Some (device cfg +:+ ": cannot set " +:+ dec (baud cfg) +:+ " 8N1: " +:+ strerror e)
  | None =>
  match setLine (sc_bit k) with
  | Some err =>
      Some (device cfg +:+ ": " +:+ err +:+ " (is it a real serial port? a pseudo-terminal has no " +:+ line cfg +:+ " line)")
  | None => None
  end end end end end end.
End Serial.

(** *** The thread *)

(** What is done to the port, and the events recorded. *)
Inductive Act := Opened | SetLine (on : bool) | Wrote (s : string) | Closed.
Record Stats := MkStats {
  st_on : PpsOn; st_why : Why; pulses : Z; sent : Z; skipped : Z; labelResyncs : Z;
  lastPulse : option PpsLabel; latency : Late; positionFrom : string
}.
(** [events] are those of starting to pulse, and of ceasing to. *)
Record Output := MkOutput {
  port : bool; nextOpenAt : double; lastSlot : double; labels : Labeler; stats : Stats; events : list (bool * Why); acts : list Act
}.
Definition newOutput : Output :=
  MkOutput false 0 (-1e9) noLabels (MkStats PpsOff NoWhy 0 0 0 0 None noLate "") [] [].

Definition setState (o : Output) (on : PpsOn) (why : Why) : Output :=
  let t := stats o in
  let was := st_on t in
  let ev :=
    if bool_decide (was = on) then []
    else if bool_decide (on = Pulsing) then [(true, NoWhy)]
    else if bool_decide (was = Pulsing) then [(false, why)] else [] in
  MkOutput (port o) (nextOpenAt o) (lastSlot o) (labels o)
    (MkStats on why (pulses t) (sent t) (skipped t) (labelResyncs t) (lastPulse t) (latency t) (positionFrom t))
    (events o ++ ev)%list (acts o).
Definition act (o : Output) (a : Act) : Output :=
  MkOutput (port o) (nextOpenAt o) (lastSlot o) (labels o) (stats o) (events o) (acts o ++ [a])%list.
Definition withPort (o : Output) (p : bool) (reopenAt : double) : Output :=
  MkOutput p reopenAt (lastSlot o) (labels o) (stats o) (events o) (acts o).
Definition withStats (o : Output) (t : Stats) : Output :=
  MkOutput (port o) (nextOpenAt o) (lastSlot o) (labels o) t (events o) (acts o).
Definition withLabels (o : Output) (b : Labeler) (slot : double) : Output :=
  MkOutput (port o) (nextOpenAt o) slot b (stats o) (events o) (acts o).
(** A port that fails is closed, which puts its line at rest, and tried again. *)
Definition failed (cfg : PpsConfig) (o : Output) (at_ : double) (err : string) : Output :=
  setState (withPort (act o Closed) false (at_ + kReopenSec)%D) PpsError (PortSaid (device cfg +:+ ": " +:+ err)).

(** What the world says in one second: the daemon clock at each place it is read,
    the served clock before and after the wait, the position and whose it is, and
    what the port answers, an error being [Some]. *)
Record Tick := MkTick {
  k_now : double; k_clock : Combined; k_open : option string; k_hostOffset : double;
  k_clock2 : Combined; k_before : double; k_line : option string; k_after : double; k_lineFailed : double;
  k_pos : option (PpsPosition * string); k_write : option string; k_writeFailed : double;
  k_rest : option string; k_restFailed : double
}.
(** When the thread is told to stop: not, before the second, or within the pulse. *)
Inductive Stop := GoOn | StopBefore | StopWithin.
#[export] Instance Stop_eq_dec : EqDecision Stop.
Proof. solve_decision. Defined.
(** The thread's end, and the end of what pulse there is. *)
Definition finish (o : Output) : Output := if port o then act (withPort o false (nextOpenAt o)) Closed else o.

Section Output.
Context (cfg : PpsConfig).

Definition reopen (o : Output) (k : Tick) : Output :=
  if negb (port o) && (nextOpenAt o <=? k_now k)%D then
    match k_open k with
    | None => act (withPort o true (nextOpenAt o)) Opened
    | Some err =>
        setState (withPort o false (k_now k + kReopenSec)%D)
          (match String.index 0 "not present" err with Some _ => NoDevice | None => PpsError end) (PortSaid err)
    end
  else o.

(** The pulse's start, with how late the line was when it went. *)
Definition pulse (o : Output) (k : Tick) (sync : bool) (at_ : double) : Output * option double :=
  if port o && sync then
    if (k_before k - at_ >? kMaxLateSec)%D then
      let t := stats o in
      (withStats o (MkStats (st_on t) (st_why t) (pulses t) (sent t) (skipped t + 1) (labelResyncs t) (lastPulse t)
                      (latency t) (positionFrom t)), None)
    else
      match k_line k with
      | None => (act o (SetLine true), Some (k_after k - at_)%D)
      | Some err => (failed cfg (act o (SetLine true)) (k_lineFailed k) err, None)
      end
  else (o, None).

Definition writeNmea (o : Output) (k : Tick) (sync : bool) (label : option PpsLabel) : Output :=
  if port o && negb (match nmea cfg with [] => true | _ => false end) then
    let pos := if existsb (String.eqb "rmc") (nmea cfg) then k_pos k else None in
    let out := sentences (nmea cfg) label sync (option_map fst pos) in
    match out with
    | [] => o
    | _ =>
        let o := act o (Wrote (joined out)) in
        match k_write k with
        | Some err => failed cfg o (k_writeFailed k) err
        | None =>
            let t := stats o in
            withStats o (MkStats (st_on t) (st_why t) (pulses t) (sent t + dollars (joined out)) (skipped t) (labelResyncs t)
                           (lastPulse t) (latency t) (match pos with Some (_, from) => from | None => "" end))
        end
    end
  else o.

Definition notePulse (o : Output) (label : option PpsLabel) (late : option double) : Output :=
  let t := stats o in
  let n := resyncs (labels o) in
  withStats o
    match late with
    | None => MkStats (st_on t) (st_why t) (pulses t) (sent t) (skipped t) n (lastPulse t) (latency t) (positionFrom t)
    | Some sec =>
        MkStats (st_on t) (st_why t) (pulses t + 1) (sent t) (skipped t) n
          (match label with Some l => Some l | None => lastPulse t end) (noteLate (latency t) sec) (positionFrom t)
    end.

(** The end of the pulse, within which the thread may be told to stop. *)
Definition endPulse (o : Output) (k : Tick) (stop : Stop) : Output * bool :=
  if bool_decide (stop = StopWithin) then (finish o, false)
  else
    (if port o then
       let o := act o (SetLine false) in
       match k_rest k with Some err => failed cfg o (k_restFailed k) err | None => o end
     else o, true).
(** The second [sec], once its instant has come. *)
Definition atSecond (o : Output) (k : Tick) (stop : Stop) (c : Combined) (sec : Z) (at_ : double) : Output * bool :=
  let sync := inSync c in
  let '(o, late) := pulse o k sync at_ in
  let '(b, label) := labelSecond (labels o) c sec at_ (lastSlot o) in
  let o := withLabels o b at_ in
  let o := writeNmea o k sync label in
  let o := notePulse o label late in
  match late with
  | Some _ => endPulse (setState o Pulsing NoWhy) k stop
  | None => (if port o && negb sync then setState o Waiting (NotSynchronised (c_note c)) else o, true)
  end.
(** One turn of the thread's loop; [false] when it was the last. *)
Definition second (o : Output) (k : Tick) (stop : Stop) : Output * bool :=
  let o := reopen o k in
  let '(sec, at_) := secondAfter (k_clock k) (k_now k) (lastSlot o) (k_hostOffset k) in
  if bool_decide (stop = StopBefore) then (o, false)
  else
    let '(c, at_) := settle sec (k_clock k, at_) (k_clock2 k) in
    atSecond o k stop c sec at_.

(** The thread until it is told to stop, and its end. *)
Fixpoint runOutput (o : Output) (ks : list (Tick * Stop)) : Output :=
  match ks with
  | [] => finish o
  | (k, stop) :: ks => let '(o, on) := second o k stop in if on then runOutput o ks else finish o
  end.
End Output.

(** ** Lemmas: the output *)

(** Whether the port is open, and its line up, after what was done. *)
Definition portAfter (st : bool * bool) (a : Act) : bool * bool :=
  match a with
  | Opened => (true, false)
  | SetLine on => (fst st, on)
  | Wrote _ => st
  | Closed => (false, false)
  end.
Definition portState (l : list Act) : bool * bool := fold_left portAfter l (false, false).
Lemma portState_snoc l a : portState (l ++ [a])%list = portAfter (portState l) a.
Proof. unfold portState. by rewrite fold_left_app. Qed.

Definition pulsed (late : option double) : bool := match late with Some _ => true | None => false end.
(** The second [o] goes on to, with the clock it is told by and its instant. *)
Definition slot (o : Output) (k : Tick) : Z * (Combined * double) :=
  let '(sec, at_) := secondAfter (k_clock k) (k_now k) (lastSlot o) (k_hostOffset k) in
  (sec, settle sec (k_clock k, at_) (k_clock2 k)).

(** What may be done in a second of the clock [c]: the line goes up only by a
    clock that is in sync and not [late]; what is written is of that second. *)
Definition rightAct (cfg : PpsConfig) (c : Combined) (late : bool) (label : option PpsLabel) (a : Act) : Prop :=
  match a with
  | SetLine true => inSync c = true /\ late = false
  | Wrote s => exists pos, s = joined (sentences (nmea cfg) label (inSync c) pos)
  | _ => True
  end.

(** [o'] is [o] after right acts, and its line as [up] says while there is a port. *)
Definition after (good : Act -> Prop) (o o' : Output) (up up' : bool) : Prop :=
  portState (acts o) = (port o, up && port o) ->
  portState (acts o') = (port o', up' && port o') /\ lastSlot o' = lastSlot o /\ labels o' = labels o /\
  exists l, acts o' = (acts o ++ l)%list /\ Forall good l.

#[local] Ltac did l := split; [done|]; split; [done|]; split; [done|]; exists l; split; [by rewrite ?app_nil_r|by repeat constructor].

Section Acts.
Context (cfg : PpsConfig) (good : Act -> Prop).
Hypotheses (GoodOpened : good Opened) (GoodClosed : good Closed) (GoodRest : good (SetLine false)).

Lemma after_refl o up : after good o o up up.
Proof. intros W. did (@nil Act). Qed.
Lemma after_trans o1 o2 o3 u1 u2 u3 : after good o1 o2 u1 u2 -> after good o2 o3 u2 u3 -> after good o1 o3 u1 u3.
Proof.
  intros A B W. destruct (A W) as (W2 & S2 & L2 & l2 & E2 & F2). destruct (B W2) as (W3 & S3 & L3 & l3 & E3 & F3).
  split; [done|]. split; [congruence|]. split; [congruence|]. exists (l2 ++ l3)%list.
  split; [by rewrite E3, E2, (assoc_L (++)%list)|by apply Forall_app].
Qed.
Lemma after_same o o' up : port o' = port o -> acts o' = acts o -> lastSlot o' = lastSlot o -> labels o' = labels o -> after good o o' up up.
Proof. intros P A S L W. rewrite A, P. did (@nil Act). Qed.
Lemma after_act o a up : good a -> port o = true -> fst (portAfter (true, up) a) = true ->
  after good o (act o a) up (snd (portAfter (true, up) a)).
Proof.
  intros G P F W. rewrite P, andb_true_r in W. unfold act. cbn [acts port lastSlot labels]. rewrite portState_snoc, W, P, andb_true_r.
  split; [by destruct a|]. split; [done|]. split; [done|]. exists [a]. split; [done|by repeat constructor].
Qed.
Lemma after_failed o at_ err up up' : after good o (failed cfg o at_ err) up up'.
Proof.
  intros W. unfold failed, setState. cbn [acts port lastSlot labels withPort act]. rewrite portState_snoc, andb_false_r.
  did [Closed].
Qed.
Lemma after_finish o up : after good o (finish o) up false.
Proof.
  intros W. unfold finish. destruct (port o) eqn:P.
  - cbn [acts port lastSlot labels withPort act]. rewrite portState_snoc. did [Closed].
  - rewrite P, W, !andb_false_r. did (@nil Act).
Qed.
Lemma after_reopen o k : after good o (reopen o k) false false.
Proof.
  unfold reopen. destruct (negb (port o)) eqn:P; [|by apply after_refl]. cbn [andb]. apply negb_true_iff in P.
  destruct (_ <=? _)%D; [|by apply after_refl]. destruct (k_open k).
  - by apply after_same.
  - intros W. cbn [acts port lastSlot labels withPort act]. rewrite portState_snoc. did [Opened].
Qed.
Lemma after_pulse o k sync at_ : (sync = true -> (k_before k - at_ >? kMaxLateSec)%D = false -> good (SetLine true)) ->
  let '(o', late) := pulse cfg o k sync at_ in
  after good o o' false (pulsed late) /\ (is_Some late -> port o' = true).
Proof.
  intros G. unfold pulse. destruct (port o) eqn:P; [|split; [apply after_refl|by intros []]].
  destruct sync; [|split; [apply after_refl|by intros []]]. cbn [andb].
  destruct (_ >? _)%D eqn:L; [split; [by apply after_same|by intros []]|]. specialize (G eq_refl eq_refl).
  destruct (k_line k).
  - split; [|by intros []]. eapply after_trans; [by apply after_act|]. apply after_failed.
  - split; [|done]. by apply (after_act o (SetLine true) false).
Qed.
Lemma after_write o k sync label up : (forall pos, good (Wrote (joined (sentences (nmea cfg) label sync pos)))) ->
  after good o (writeNmea cfg o k sync label) up up.
Proof.
  intros G. unfold writeNmea. destruct (port o) eqn:P; [|apply after_refl]. destruct (nmea cfg) as [|n ns] eqn:N; [apply after_refl|].
  cbn [andb negb]. rewrite <- N. set (pos := if existsb _ _ then _ else _). specialize (G (option_map fst pos)). rewrite <- N in G.
  destruct (sentences (nmea cfg) label sync (option_map fst pos)) as [|x xs]; [apply after_refl|].
  pose proof (after_act o _ up G P eq_refl) as A. cbn [portAfter snd] in A.
  destruct (k_write k); (eapply after_trans; [exact A|]); [apply after_failed|by apply after_same].
Qed.
End Acts.

Section Second.
Context (cfg : PpsConfig) (o : Output) (k : Tick).
Definition slotSec : Z := fst (slot o k).
Definition slotClock : Combined := fst (snd (slot o k)).
Definition slotAt : double := snd (snd (slot o k)).
Definition slotLate : bool := (k_before k - slotAt >? kMaxLateSec)%D.
Definition slotLabel : option PpsLabel := snd (labelSecond (labels o) slotClock slotSec slotAt (lastSlot o)).

Lemma after_endPulse (good : Act -> Prop) o1 stop : good Closed -> good (SetLine false) ->
  after good o1 (fst (endPulse cfg o1 k stop)) true false.
Proof.
  intros GC GR. unfold endPulse. case_bool_decide; cbn [fst]; [by apply after_finish|].
  destruct (port o1) eqn:P.
  - eapply after_trans; [by apply (after_act good o1 (SetLine false) true)|].
    destruct (k_rest k); [by apply after_failed|apply after_refl].
  - intros W. rewrite P, andb_false_r in *. by destruct (after_refl good o1 false ltac:(by rewrite P)).
Qed.
Lemma atSecond_right o1 stop c sec at_ :
  let label := snd (labelSecond (labels o1) c sec at_ (lastSlot o1)) in
  let good := rightAct cfg c (k_before k - at_ >? kMaxLateSec)%D label in
  let o' := fst (atSecond cfg o1 k stop c sec at_) in
  portState (acts o1) = (port o1, false) ->
  portState (acts o') = (port o', false) /\ exists l, acts o' = (acts o1 ++ l)%list /\ Forall good l.
Proof.
  intros label good o' W. unfold o', atSecond. pose proof (after_pulse cfg good I o1 k (inSync c) at_ ltac:(done)) as P.
  destruct (pulse cfg o1 k (inSync c) at_) as [o2 late]. destruct P as [A _].
  destruct (A W) as (W2 & S2 & L2 & l2 & E2 & F2). assert (Lb : snd (labelSecond (labels o2) c sec at_ (lastSlot o2)) = label) by (unfold label; by rewrite S2, L2).
  destruct (labelSecond (labels o2) c sec at_ (lastSlot o2)) as [b lb]. cbn [snd] in Lb. subst lb. set (o3 := withLabels o2 b at_).
  assert (G : forall o4, after good o3 o4 (pulsed late) false ->
    portState (acts o4) = (port o4, false) /\ exists l, acts o4 = (acts o1 ++ l)%list /\ Forall good l).
  { intros o4 B. destruct (B W2) as (W4 & _ & _ & l4 & E4 & F4). split; [done|]. exists (l2 ++ l4)%list. split; [|by apply Forall_app].
    rewrite E4. cbn [o3 withLabels acts]. by rewrite E2, (assoc_L (++)%list). }
  assert (B : after good o3 (writeNmea cfg o3 k (inSync c) label) (pulsed late) (pulsed late)).
  { apply after_write; [done|]. intros pos. by exists pos. }
  set (o4 := writeNmea cfg o3 k (inSync c) label) in *. clearbody o4. destruct late as [x|].
  - apply G. eapply after_trans; [exact B|]. eapply after_trans; [|by apply after_endPulse]. by apply after_same.
  - apply G. eapply after_trans; [exact B|]. cbn [fst]. match goal with |- context [if ?b then _ else _] => destruct b end; by apply after_same.
Qed.
Lemma second_right stop :
  let o' := fst (second cfg o k stop) in
  portState (acts o) = (port o, false) ->
  portState (acts o') = (port o', false) /\
  exists l, acts o' = (acts o ++ l)%list /\ Forall (rightAct cfg slotClock slotLate slotLabel) l.
Proof.
  intros o' W. set (good := rightAct cfg slotClock slotLate slotLabel).
  destruct (after_reopen good I o k W) as (W1 & S1 & L1 & l1 & E1 & F1).
  assert (R : forall o2, (exists l, acts o2 = (acts (reopen o k) ++ l)%list /\ Forall good l) ->
    exists l, acts o2 = (acts o ++ l)%list /\ Forall good l).
  { intros o2 (l & E & F). exists (l1 ++ l)%list. split; [by rewrite E, E1, (assoc_L (++)%list)|by apply Forall_app]. }
  unfold o', second. unfold good, slotLabel, slotLate, slotClock, slotAt, slotSec, slot in *. rewrite S1.
  destruct (secondAfter (k_clock k) (k_now k) (lastSlot o) (k_hostOffset k)) as [sec at0].
  case_bool_decide; [split; [done|]; apply R; exists []; by rewrite app_nil_r|].
  destruct (settle sec (k_clock k, at0) (k_clock2 k)) as [c at_]. cbn [fst snd] in *.
  destruct (atSecond_right (reopen o k) stop c sec at_ W1) as [Wa La]. split; [exact Wa|]. apply R. by rewrite <- S1, <- L1.
Qed.
End Second.

(** The states the thread passes through. *)
Inductive outputs (cfg : PpsConfig) : Output -> Prop :=
| outputs_new : outputs cfg newOutput
| outputs_second o k stop : outputs cfg o -> outputs cfg (fst (second cfg o k stop)).
Lemma outputs_rest cfg o : outputs cfg o -> portState (acts o) = (port o, false).
Proof. induction 1 as [|o k stop _ IH]; [done|]. by apply second_right. Qed.

(** ** Theorems *)

(** C38: whatever the clock and the port do, each second leaves the line at rest;
    in it the line goes up only by a synchronised clock and no later than
    [kMaxLateSec] after the instant; what is written is the sentences of that
    second; and each of them reads, RMC's status [A] if and only if the clock is
    synchronised, a ZDA there only then. *)
Theorem pulses_are_true (cfg : PpsConfig) (o : Output) (k : Tick) (stop : Stop) : outputs cfg o ->
  let o' := fst (second cfg o k stop) in
  portState (acts o') = (port o', false) /\ portState (acts (finish o')) = (false, false) /\
  (exists l, acts o' = (acts o ++ l)%list /\ Forall (rightAct cfg (slotClock o k) (slotLate o k) (slotLabel o k)) l) /\
  forall pos s, In s (sentences (nmea cfg) (slotLabel o k) (inSync (slotClock o k)) pos) ->
    (exists body, nmeaRead s = Some body /\ nth 2 (fields body) "" = (if inSync (slotClock o k) then "A" else "V")) \/
    (inSync (slotClock o k) = true /\ exists l, slotLabel o k = Some l /\ nmeaRead s = Some (zdaBody l)).
Proof.
  intros R o'. destruct (second_right cfg o k stop (outputs_rest cfg o R)) as [W L]. split; [exact W|]. split; [|split; [exact L|]].
  - unfold finish. fold o' in W. destruct (port o') eqn:P; [|by rewrite W]. cbn [act withPort acts]. by rewrite portState_snoc.
  - intros pos s S. destruct (sentence_reads _ _ _ _ _ S) as [[_ A]|(Y & l & T & _ & Z0)]; [by left|right]. split; [done|]. by exists l.
Qed.
(** A second of a synchronised clock on a port that opens. *)
Definition aClock : Combined :=
  MkCombined true true 1483228790.5 0 0 0 false 0 0 0 0 1 1 1 0 "MSF" false 0 ServePrimary false [] NoNote NoNote.
Definition aTick : Tick :=
  MkTick 10 aClock None 0 aClock 10.500001 None 10.500002 0 None None 0 None 0.
Definition aConfig : PpsConfig := MkPpsConfig "/dev/ttyS0" "dtr" 100 false 4800 ["rmc"; "zda"].
Example a_second : acts (fst (second aConfig newOutput aTick GoOn)) =
  [Opened; SetLine true;
   Wrote (joined [nmeaRmc (Some (MkLabel 1483228801 false)) true None; nmeaZda (MkLabel 1483228801 false)]); SetLine false].
Proof. vm_compute. reflexivity. Qed.
Example pulses_are_true_witness : portState (acts (fst (second aConfig newOutput aTick GoOn))) = (true, false).
Proof. exact (proj1 (pulses_are_true aConfig newOutput aTick GoOn (outputs_new aConfig))). Defined.
