(* ===== verification/NmeaTcp.v ===== *)
(** * The seconds over TCP (src/NmeaServer.h, src/NmeaServer.cpp)
    The server that sends each second's sentences to all that connect: binding,
    accepting up to a cap, reading and ignoring what a client says, the send from
    the last client to the first, a client that does not take all of it closed.
    What the sockets answer is an input; what is accepted, sent and closed is
    recorded in order. *)

From Stdlib Require Import ZArith Lia List Bool Ascii String Floats Permutation.
From stdpp Require Import base list strings.
From S2P Require Import Prelude Doubles Text SourceTypes Selector Nmea.

#[local] Open Scope string_scope.
#[local] Open Scope Z_scope.

Record NmeaTcpConfig := MkNmeaTcpConfig { enabled : bool; tcpListen : list string; tcpPort : Z; tcpSentences : list string; maxClients : Z }.

(** ** Starting *)

(** What binding an address came to: no socket, not an address, not bound, or
    bound, with the port the kernel says when asked. *)
Inductive Binding := NoSocket (errno : Z) | NotAddress | NotBound (errno : Z) | BoundAt (got : option Z).
(** The last error, the port, and the addresses bound. *)
Record Bound := MkBound { lastErr : string; boundPort : Z; bound : list string }.

Section Start.
Context (strerror : Z -> string).

Definition listenOn (b : Bound) (ab : string * Binding) : Bound :=
  let '(addr, answer) := ab in
  match answer with
  | NoSocket e => MkBound ("socket: " +:+ strerror e) (boundPort b) (bound b)
  | NotAddress => MkBound ("nmea_tcp.listen: not a valid address: " +:+ addr) (boundPort b) (bound b)
  | NotBound e =>
      MkBound ("NMEA bind " +:+ addr +:+ ":" +:+ dec (boundPort b) +:+ ": " +:+ strerror e) (boundPort b) (bound b)
  | BoundAt got =>
      MkBound (lastErr b)
        (if boundPort b =? 0 then match got with Some p => p | None => boundPort b end else boundPort b)
        (bound b ++ [addr])%list
  end.
(** The port and the addresses bound, or why there is none. *)
Definition start (cfg : NmeaTcpConfig) (answers : list Binding) : string + (Z * list string) :=
  let b := fold_left listenOn (List.combine (tcpListen cfg) answers) (MkBound "" (tcpPort cfg) []) in
  match bound b with
  | [] => inl (if String.eqb (lastErr b) "" then "nmea_tcp.listen is empty" else lastErr b)
  | _ => inr (boundPort b, bound b)
  end.
End Start.

(** ** Clients *)

Record Client := MkClient { c_fd : Z; address : string; since : double }.
(** What is done to the sockets. *)
Inductive Did := Accepted (fd : Z) | Sent (fd : Z) (data : string) | Closed (fd : Z).
(** Serving, or waiting and for what. *)
Inductive Doing := Serving | WaitingFor (why : option Note).

(** [infos] are the clients the statistics list, beside the thread's own. *)
Record TcpServer := MkTcpServer {
  clients : list Client; infos : list (string * double); did : list Did;
  connections : Z; refused : Z; droppedN : Z; sentN : Z; doing : Doing; lateness : Late; from : string
}.
Definition newTcpServer : TcpServer := MkTcpServer [] [] [] 0 0 0 0 (WaitingFor None) noLate "".

Definition closeClient (s : TcpServer) (i : nat) : TcpServer :=
  match clients s !! i with
  | None => s
  | Some c =>
      MkTcpServer (delete i (clients s)) (delete i (infos s)) (did s ++ [Closed (c_fd c)])%list
        (connections s) (refused s) (droppedN s) (sentN s) (doing s) (lateness s) (from s)
  end.
(** One connection taken from a listener: a client, or turned away at the cap. *)
Definition acceptOne (cfg : NmeaTcpConfig) (s : TcpServer) (c : Client) : TcpServer :=
  if Z.of_nat (List.length (clients s)) >=? maxClients cfg then
    MkTcpServer (clients s) (infos s) (did s ++ [Accepted (c_fd c); Closed (c_fd c)])%list
      (connections s) (refused s + 1) (droppedN s) (sentN s) (doing s) (lateness s) (from s)
  else
    MkTcpServer (clients s ++ [c])%list (infos s ++ [(address c, since c)])%list (did s ++ [Accepted (c_fd c)])%list
      (connections s + 1) (refused s) (droppedN s) (sentN s) (doing s) (lateness s) (from s).
Definition acceptFrom (cfg : NmeaTcpConfig) (s : TcpServer) (cs : list Client) : TcpServer := fold_left (acceptOne cfg) cs s.

(** What reading from a client comes to: something, nothing yet, an interruption,
    or its end. *)
Inductive Recv := RecvData | RecvNothing | RecvAgain | RecvEnd.
Fixpoint drained (rs : list Recv) : bool :=
  match rs with
  | [] => false
  | RecvData :: rs | RecvAgain :: rs => drained rs
  | RecvNothing :: _ => false
  | RecvEnd :: _ => true
  end.
(** What is polled of a client: nothing, or whether it hung up and what is read. *)
Definition Polled : Type := option (bool * list Recv).
Definition gone (p : Polled) : bool :=
  match p with None => false | Some (hangup, rs) => hangup || drained rs end.
(** The first [n] clients, from the last of them. *)
Fixpoint serveClients (s : TcpServer) (ps : list Polled) (n : nat) : TcpServer :=
  match n with
  | O => s
  | S i => serveClients (if gone (nth i ps None) then closeClient s i else s) ps i
  end.
(** A round of polling: the clock before it, the clients, and each listener's
    connections. *)
Record Round := MkRound { r_clock : Combined; r_clients : list Polled; r_accepts : list (list Client) }.
Definition serveRound (cfg : NmeaTcpConfig) (s : TcpServer) (r : Round) : TcpServer :=
  fold_left (acceptFrom cfg) (r_accepts r) (serveClients s (r_clients r) (List.length (clients s))).

(** ** The send *)

(** How much the kernel took, or an error, of which a full buffer is one. *)
Inductive SendAnswer := Took (n : Z) | SendFailed (again : bool).
Definition tookAll (out : string) (a : SendAnswer) : bool :=
  match a with Took n => n =? Z.of_nat (String.length out) | SendFailed _ => false end.
Definition notReading (a : SendAnswer) : bool := match a with Took _ => true | SendFailed again => again end.

(** The send to the first [n], from the last of them; [as_] has each one's answer
    and the daemon's clock before it. The lateness is the first's. *)
Fixpoint sendTo (out : string) (at_ : double) (as_ : list (SendAnswer * double)) (s : TcpServer) (late : double) (delivered dropped : Z)
    (n : nat) : TcpServer * double * Z * Z :=
  match n with
  | O => (s, late, delivered, dropped)
  | S i =>
      let '(a, now) := nth i as_ (SendFailed false, 0%D) in
      let late := if (late <? 0)%D then (now - at_)%D else late in
      if tookAll out a then
        let fd := match clients s !! i with Some c => c_fd c | None => -1 end in
        sendTo out at_ as_
          (MkTcpServer (clients s) (infos s) (did s ++ [Sent fd out])%list (connections s) (refused s) (droppedN s) (sentN s)
             (doing s) (lateness s) (from s))
          late (delivered + dollars out) dropped i
      else sendTo out at_ as_ (closeClient s i) late delivered (dropped + Z.b2z (notReading a)) i
  end.

(** ** The thread *)

(** One second: the clocks, the rounds of polling before it and the clock after
    them, the position and whose it is, and what the sends come to. *)
Record Turn := MkTurn {
  n_clock : Combined; n_now : double; n_hostOffset : double; n_rounds : list Round; n_last : Combined;
  n_pos : option (PpsPosition * string); n_sends : list (SendAnswer * double)
}.
(** The thread's own: the server, the labels and the last second's instant. *)
Definition Running : Type := TcpServer * Labeler * double.
Definition newRunning : Running := (newTcpServer, noLabels, (-1e9)%D).

(** The second's instant as the rounds before it leave it, and the server. *)
Definition waited (cfg : NmeaTcpConfig) (s : TcpServer) (k : Turn) (sec : Z) (at_ : double) : Combined * double * TcpServer :=
  let '(ca, s) := fold_left (fun '(ca, s) r => (settle sec ca (r_clock r), serveRound cfg s r)) (n_rounds k) ((n_clock k, at_), s) in
  (settle sec ca (n_last k), s).

Definition turn (cfg : NmeaTcpConfig) (rs : Running) (k : Turn) : Running :=
  let '(s, labels, lastSlot) := rs in
  let '(sec, at_) := secondAfter (n_clock k) (n_now k) lastSlot (n_hostOffset k) in
  let '(c, at_, s) := waited cfg s k sec at_ in
  let sync := inSync c in
  let '(labels, label) := labelSecond labels c sec at_ lastSlot in
  let pos := if existsb (String.eqb "rmc") (tcpSentences cfg) then n_pos k else None in
  let out := joined (sentences (tcpSentences cfg) label sync (option_map fst pos)) in
  let '(s, late, delivered, dropped) :=
    if String.eqb out "" then (s, (-1)%D, 0, 0) else sendTo out at_ (n_sends k) s (-1)%D 0 0 (List.length (clients s)) in
  let s :=
    MkTcpServer (clients s) (infos s) (did s) (connections s) (refused s) (droppedN s + dropped) (sentN s + delivered)
      (if sync then Serving else WaitingFor (Some (c_note c)))
      (if (0 <=? late)%D then noteLate (lateness s) late else lateness s)
      (match pos with Some (_, w) => w | None => "" end) in
  (s, labels, at_).

(** Told to stop, the thread leaves the second; what is connected is then closed. *)
Definition stopServer (s : TcpServer) : TcpServer :=
  MkTcpServer [] (infos s) (did s ++ map (fun c => Closed (c_fd c)) (clients s))%list (connections s) (refused s) (droppedN s) (sentN s)
    (doing s) (lateness s) (from s).
Definition runServer (cfg : NmeaTcpConfig) (ks : list Turn) : Running := fold_left (turn cfg) ks newRunning.

(** ** Lemmas *)

Definition taken (d : Did) : list Z := match d with Accepted fd => [fd] | _ => [] end.
Definition shut (d : Did) : list Z := match d with Closed fd => [fd] | _ => [] end.
(** The sockets accepted, and those closed, each as often as it was. *)
Definition accepted (s : TcpServer) : list Z := concat (map taken (did s)).
Definition closed (s : TcpServer) : list Z := concat (map shut (did s)).
Definition fds (s : TcpServer) : list Z := map c_fd (clients s).
Definition info (c : Client) : string * double := (address c, since c).

(** Every socket accepted is a client's or has been closed, and once; the
    statistics list the clients; there are no more than the cap; and who was
    turned away was not counted a connection. *)
Record serverOk (cfg : NmeaTcpConfig) (s : TcpServer) : Prop := {
  sv_fds : Permutation (accepted s) (fds s ++ closed s)%list;
  sv_infos : infos s = map info (clients s);
  sv_cap : Z.of_nat (List.length (clients s)) <= Z.max 0 (maxClients cfg);
  sv_count : connections s + refused s = Z.of_nat (List.length (accepted s))
}.

Lemma accepted_app s l : concat (map taken (did s ++ l)%list) = (accepted s ++ concat (map taken l))%list.
Proof. by rewrite map_app, concat_app. Qed.
Lemma closed_app s l : concat (map shut (did s ++ l)%list) = (closed s ++ concat (map shut l))%list.
Proof. by rewrite map_app, concat_app. Qed.

Lemma newTcpServer_ok cfg : serverOk cfg newTcpServer.
Proof. split; cbn; [done|done|lia|done]. Qed.
Lemma closeClient_ok cfg s i : serverOk cfg s -> serverOk cfg (closeClient s i).
Proof.
  intros [F I C N]. unfold closeClient. destruct (clients s !! i) as [c|] eqn:E; [|done].
  split; unfold accepted, closed, fds in *; cbn [clients infos did connections refused].
  - rewrite accepted_app, closed_app. cbn. rewrite app_nil_r. unfold accepted. rewrite F. unfold closed.
    rewrite (delete_Permutation _ _ _ E) at 1. cbn. rewrite (assoc_L (++)%list). by rewrite <- Permutation_cons_append.
  - rewrite I. symmetry. apply list_fmap_delete.
  - rewrite length_delete by done. lia.
  - rewrite accepted_app. cbn. by rewrite app_nil_r.
Qed.
Lemma acceptOne_ok cfg s c : serverOk cfg s -> serverOk cfg (acceptOne cfg s c).
Proof.
  intros [F I C N]. unfold acceptOne. destruct (Z.geb_spec (Z.of_nat (List.length (clients s))) (maxClients cfg)) as [G|G];
    split; unfold accepted, closed, fds in *; cbn [clients infos did connections refused]; rewrite ?accepted_app, ?closed_app; cbn; unfold accepted, closed.
  - rewrite F. by rewrite (assoc_L (++)%list).
  - done.
  - done.
  - rewrite length_app. cbn. lia.
  - rewrite F, app_nil_r, map_app. cbn. rewrite <- !(assoc_L (++)%list). by rewrite (comm (++)%list [c_fd c]).
  - by rewrite I, map_app.
  - rewrite length_app. cbn. lia.
  - rewrite length_app. cbn. lia.
Qed.
Lemma acceptFrom_ok cfg cs : forall s, serverOk cfg s -> serverOk cfg (acceptFrom cfg s cs).
Proof. induction cs as [|c cs IH]; intros s S; [done|]. by apply IH, acceptOne_ok. Qed.
Lemma serveClients_ok cfg ps n : forall s, serverOk cfg s -> serverOk cfg (serveClients s ps n).
Proof. induction n as [|i IH]; intros s S; [done|]. cbn [serveClients]. apply IH. destruct (gone _); [by apply closeClient_ok|done]. Qed.
Lemma serveRound_ok cfg s r : serverOk cfg s -> serverOk cfg (serveRound cfg s r).
Proof.
  intros S. unfold serveRound. apply (serveClients_ok cfg (r_clients r) (List.length (clients s))) in S.
  revert S. generalize (serveClients s (r_clients r) (List.length (clients s))). induction (r_accepts r) as [|cs rs IH]; intros s' S; [done|].
  by apply IH, acceptFrom_ok.
Qed.
Lemma waited_ok cfg s k sec at_ : serverOk cfg s -> serverOk cfg (snd (waited cfg s k sec at_)).
Proof.
  unfold waited. generalize (n_clock k, at_). revert s. induction (n_rounds k) as [|r rs IH]; intros s ca S; [done|].
  cbn [fold_left]. by apply IH, serveRound_ok.
Qed.

(** *** The send *)

Fixpoint kept (out : string) (cs : list Client) (as_ : list (SendAnswer * double)) : list Client :=
  match cs with
  | [] => []
  | c :: cs => ((if tookAll out (fst (hd (SendFailed false, 0%D) as_)) then [c] else []) ++ kept out cs (tl as_))%list
  end.
(** What is done to each client, the last first. *)
Fixpoint sends (out : string) (cs : list Client) (as_ : list (SendAnswer * double)) : list Did :=
  match cs with
  | [] => []
  | c :: cs =>
      (sends out cs (tl as_) ++
       [if tookAll out (fst (hd (SendFailed false, 0%D) as_)) then Sent (c_fd c) out else Closed (c_fd c)])%list
  end.
Lemma kept_snoc out cs : forall as_ c, kept out (cs ++ [c])%list as_ =
  (kept out cs as_ ++ if tookAll out (fst (nth (List.length cs) as_ (SendFailed false, 0%D))) then [c] else [])%list.
Proof.
  induction cs as [|x cs IH]; intros as_ c; [cbn; rewrite app_nil_r; by destruct as_|]. cbn [app kept]. rewrite IH, (assoc_L (++)%list).
  destruct as_; [|done]. cbn. by destruct (List.length cs).
Qed.
Lemma sends_snoc out cs : forall as_ c, sends out (cs ++ [c])%list as_ =
  (if tookAll out (fst (nth (List.length cs) as_ (SendFailed false, 0%D))) then Sent (c_fd c) out else Closed (c_fd c)) :: sends out cs as_.
Proof.
  induction cs as [|x cs IH]; intros as_ c; [by destruct as_|]. cbn [app sends]. rewrite IH.
  destruct as_; [|done]. cbn. by destruct (List.length cs).
Qed.
(** The loop from the back keeps those that took all, and closes the others. *)
Lemma sendTo_spec cfg out at_ as_ n : forall s late del drop pre post,
  clients s = (pre ++ post)%list -> List.length pre = n ->
  let '(s', late', del', drop') := sendTo out at_ as_ s late del drop n in
  clients s' = (kept out pre as_ ++ post)%list /\ did s' = (did s ++ sends out pre as_)%list /\
  del' = del + dollars out * Z.of_nat (List.length (kept out pre as_)) /\ sentN s' = sentN s /\ (serverOk cfg s -> serverOk cfg s').
Proof.
  induction n as [|i IH]; intros s late del drop pre post C L.
  - apply nil_length_inv in L. subst pre. cbn [sendTo kept sends List.length]. by rewrite app_nil_r, Z.mul_0_r, Z.add_0_r.
  - destruct (exists_last (l := pre) ltac:(by intros ->)) as (pre' & c & ->). rewrite length_app in L. cbn in L.
    assert (Li : List.length pre' = i) by lia. rewrite kept_snoc, sends_snoc, Li. cbn [sendTo].
    assert (Ci : clients s !! i = Some c).
    { rewrite C, <- (assoc_L (++)%list), <- Li. by apply list_lookup_middle. }
    destruct (nth i as_ (SendFailed false, 0%D)) as [a now]. cbn [fst]. set (late1 := if (late <? 0)%D then _ else late).
    destruct (tookAll out a).
    + set (s1 := MkTcpServer _ _ _ _ _ _ _ _ _ _). specialize (IH s1 late1 (del + dollars out) drop pre' ([c] ++ post)%list).
      destruct (sendTo out at_ as_ s1 late1 (del + dollars out) drop i) as [[[s' late'] del'] drop'].
      destruct IH as (H1 & H2 & H3 & H4 & H5); [unfold s1; cbn; by rewrite C, <- (assoc_L (++)%list)|done|].
      rewrite H1, H2. unfold s1. cbn [did]. rewrite Ci, <- !(assoc_L (++)%list), length_app. cbn [List.length]. split_and!; [done|done|lia|done|].
      intros S. apply H5. destruct S as [F I Cp N].
      split; unfold s1, accepted, closed, fds in *; cbn [clients infos did connections refused];
        rewrite ?accepted_app, ?closed_app; cbn; by rewrite ?app_nil_r.
    + set (s1 := closeClient s i). specialize (IH s1 late1 del (drop + Z.b2z (notReading a)) pre' post).
      destruct (sendTo out at_ as_ s1 late1 del (drop + Z.b2z (notReading a)) i) as [[[s' late'] del'] drop'].
      assert (E1 : clients s1 = (pre' ++ post)%list /\ did s1 = (did s ++ [Closed (c_fd c)])%list /\ sentN s1 = sentN s).
      { unfold s1, closeClient. rewrite Ci. cbn [clients did sentN]. split; [|done]. rewrite C, <- (assoc_L (++)%list), <- Li.
        by apply delete_middle. }
      destruct E1 as (E1 & E2 & E3). destruct (IH E1 Li) as (H1 & H2 & H3 & H4 & H5). rewrite H1, H2, E2, app_nil_r.
      rewrite <- (assoc_L (++)%list). split_and!; [done|done|done|congruence|]. intros S. by apply H5, closeClient_ok.
Qed.
Lemma closeClient_sentN s i : sentN (closeClient s i) = sentN s.
Proof. unfold closeClient. by destruct (clients s !! i). Qed.
Lemma serveClients_sentN ps n : forall s, sentN (serveClients s ps n) = sentN s.
Proof. induction n as [|i IH]; intros s; [done|]. cbn [serveClients]. rewrite IH. destruct (gone _); [apply closeClient_sentN|done]. Qed.
Lemma acceptFrom_sentN cfg cs : forall s, sentN (acceptFrom cfg s cs) = sentN s.
Proof. induction cs as [|c cs IH]; intros s; [done|]. cbn. unfold acceptFrom in IH. rewrite IH. unfold acceptOne. by destruct (_ >=? _). Qed.
Lemma serveRound_sentN cfg s r : sentN (serveRound cfg s r) = sentN s.
Proof.
  unfold serveRound. rewrite <- (serveClients_sentN (r_clients r) (List.length (clients s)) s). generalize (serveClients s (r_clients r) (List.length (clients s))).
  induction (r_accepts r) as [|cs rs IH]; intros s'; [done|]. cbn [fold_left]. by rewrite IH, acceptFrom_sentN.
Qed.
Lemma waited_sentN cfg s k sec at_ : sentN (snd (waited cfg s k sec at_)) = sentN s.
Proof.
  unfold waited. generalize (n_clock k, at_). revert s. induction (n_rounds k) as [|r rs IH]; intros s ca; [done|].
  cbn [fold_left]. by rewrite IH, serveRound_sentN.
Qed.

(** A second, whatever its sockets do. *)
Lemma turn_spec cfg s labels lastSlot k :
  let '(sec, at0) := secondAfter (n_clock k) (n_now k) lastSlot (n_hostOffset k) in
  let '(c, at_, s1) := waited cfg s k sec at0 in
  let label := snd (labelSecond labels c sec at_ lastSlot) in
  let s' := fst (fst (turn cfg (s, labels, lastSlot) k)) in
  exists pos, let out := joined (sentences (tcpSentences cfg) label (inSync c) pos) in
  (serverOk cfg s1 -> serverOk cfg s') /\
  if String.eqb out "" then clients s' = clients s1 /\ did s' = did s1 /\ sentN s' = sentN s1
  else
    clients s' = kept out (clients s1) (n_sends k) /\ did s' = (did s1 ++ sends out (clients s1) (n_sends k))%list /\
    sentN s' = sentN s1 + dollars out * Z.of_nat (List.length (clients s')).
Proof.
  cbn [turn]. destruct (secondAfter (n_clock k) (n_now k) lastSlot (n_hostOffset k)) as [sec at0].
  destruct (waited cfg s k sec at0) as [[c at_] s1]. destruct (labelSecond labels c sec at_ lastSlot) as [b label]. cbn [snd].
  set (pos := if existsb _ _ then _ else _). exists (option_map fst pos). cbv zeta. set (out := joined _). destruct (String.eqb out "").
  - cbn [fst clients did sentN]. split; [|split; [done|split; [done|lia]]]. intros [F I C N]. by split.
  - pose proof (sendTo_spec cfg out at_ (n_sends k) (List.length (clients s1)) s1 (-1)%D 0 0 (clients s1) []) as P.
    destruct (sendTo out at_ (n_sends k) s1 (-1)%D 0 0 (List.length (clients s1))) as [[[s' late] del] drop].
    destruct P as (H1 & H2 & H3 & H4 & H5); [by rewrite app_nil_r|done|]. rewrite app_nil_r in H1.
    cbn [fst clients did sentN]. rewrite H1. split; [|split; [done|split; [done|lia]]].
    intros S. rewrite <- H1. destruct (H5 S) as [F I C N]. by split.
Qed.
Lemma turn_ok cfg rs k : serverOk cfg (fst (fst rs)) -> serverOk cfg (fst (fst (turn cfg rs k))).
Proof.
  destruct rs as [[s labels] lastSlot]. intros S. pose proof (turn_spec cfg s labels lastSlot k) as T.
  destruct (secondAfter (n_clock k) (n_now k) lastSlot (n_hostOffset k)) as [sec at0]. pose proof (waited_ok cfg s k sec at0 S) as W.
  destruct (waited cfg s k sec at0) as [[c at_] s1]. destruct T as (pos & T & _). by apply T.
Qed.

Lemma runServer_ok cfg ks : serverOk cfg (fst (fst (runServer cfg ks))).
Proof.
  unfold runServer. pose proof (newTcpServer_ok cfg) as N. change newTcpServer with (fst (fst newRunning)) in N. revert N.
  generalize newRunning. induction ks as [|k ks IH]; intros rs N; [done|]. cbn [fold_left]. by apply IH, turn_ok.
Qed.
Lemma stopServer_closed cfg s : serverOk cfg s -> Permutation (accepted (stopServer s)) (closed (stopServer s)).
Proof.
  intros [F _ _ _]. unfold accepted, closed, stopServer. cbn [did]. rewrite accepted_app, closed_app, F.
  rewrite !map_map. cbn. unfold fds. assert (E1 : forall l : list Client, concat (map (fun c => []) l) = ([] : list Z)) by (induction l; done).
  assert (E2 : forall l, concat (map (fun c => [c_fd c]) l) = map c_fd l) by (induction l as [|c l IH]; [done|cbn; by rewrite IH]).
  rewrite E1, E2, app_nil_r. apply Permutation_app_comm.
Qed.

(** ** Theorems *)

(** C39: in any run, whatever connects, is read, hangs up or does not take what is
    sent: a second's send, after the rounds of polling before it, goes from the last
    client to the first, and to each is sent all of the second's sentences, each of
    which reads with the status the clock has, and it stays; or it is closed. The
    sentences counted as sent are those of the clients that stay. Every socket
    accepted is a client's or has been closed once, the clients are no more than the
    cap, and when the server stops all have been closed. *)
Theorem whole_seconds_sent (cfg : NmeaTcpConfig) (ks : list Turn) (k : Turn) :
  let '(s, labels, lastSlot) := runServer cfg ks in
  let '(sec, at0) := secondAfter (n_clock k) (n_now k) lastSlot (n_hostOffset k) in
  let '(c, at_, s1) := waited cfg s k sec at0 in
  let label := snd (labelSecond labels c sec at_ lastSlot) in
  let s' := fst (fst (turn cfg (s, labels, lastSlot) k)) in
  (exists pos, let ss := sentences (tcpSentences cfg) label (inSync c) pos in
    (if String.eqb (joined ss) "" then clients s' = clients s1 /\ did s' = did s1 /\ sentN s' = sentN s
     else
       clients s' = kept (joined ss) (clients s1) (n_sends k) /\ did s' = (did s1 ++ sends (joined ss) (clients s1) (n_sends k))%list /\
       sentN s' = sentN s + dollars (joined ss) * Z.of_nat (List.length (clients s'))) /\
    forall x, In x ss ->
      (exists body, nmeaRead x = Some body /\ nth 2 (fields body) "" = (if inSync c then "A" else "V")) \/
      (inSync c = true /\ exists l, label = Some l /\ nmeaRead x = Some (zdaBody l))) /\
  serverOk cfg s' /\ Permutation (accepted (stopServer s')) (closed (stopServer s')).
Proof.
  pose proof (runServer_ok cfg ks) as S. destruct (runServer cfg ks) as [[s labels] lastSlot]. cbn [fst] in S.
  pose proof (turn_ok cfg (s, labels, lastSlot) k S) as S'. pose proof (turn_spec cfg s labels lastSlot k) as T.
  destruct (secondAfter (n_clock k) (n_now k) lastSlot (n_hostOffset k)) as [sec at0].
  pose proof (waited_sentN cfg s k sec at0) as W. destruct (waited cfg s k sec at0) as [[c at_] s1]. cbn [snd] in W.
  split; [|split; [exact S'|by apply (stopServer_closed cfg)]].
  destruct T as (pos & _ & T). exists pos. cbv zeta. rewrite <- W. split; [exact T|].
  intros x X. destruct (sentence_reads _ _ _ _ _ X) as [[_ A]|(Y & l & E & _ & R)]; [by left|right]. split; [done|]. by exists l.
Qed.

(** Two clients, of which one does not read: it is closed and the other served. *)
Example a_slow_reader :
  let cfg := MkNmeaTcpConfig true ["::"] 10110 ["zda"] 2 in
  let clock := MkCombined true true 1483228790.5 0 0 0 false 0 0 0 0 1 1 1 0 "MSF" false 0 ServePrimary false [] NoNote NoNote in
  let round := MkRound clock [] [[MkClient 7 "[::1]:1" 1; MkClient 8 "[::1]:2" 1; MkClient 9 "[::1]:3" 1]] in
  let k := MkTurn clock 10 0 [round] clock None [(Took 38, 10.50001%D); (Took 11, 10.50001%D)] in
  let s := fst (fst (runServer cfg [k])) in
  did s = [Accepted 7; Accepted 8; Accepted 9; Closed 9; Closed 8; Sent 7 (nmeaZda (MkLabel 1483228801 false))] /\
  (connections s, refused s, droppedN s, sentN s) = (2, 1, 1, 1).
Proof. vm_compute. split; reflexivity. Qed.
Example start_on_one strerror :
  start strerror (MkNmeaTcpConfig true ["0.0.0.0"; "no"; "::"] 0 [] 16) [BoundAt (Some 4242); NotAddress; NotBound 98] = inr (4242, ["0.0.0.0"]) /\
  start strerror (MkNmeaTcpConfig true ["no"] 10110 [] 16) [NotAddress] = inl "nmea_tcp.listen: not a valid address: no".
Proof. vm_compute. split; reflexivity. Qed.
