(* ===== verification/Events.v ===== *)
(** * What has happened (src/Events.h, src/Events.cpp)
    The log of events, the last hundred of them numbered from 1, and the monitor
    that compares each pass of the main loop with the one before and records what
    changed. The words of the messages are left out. *)

From Stdlib Require Import ZArith Lia List Bool String Floats.
From stdpp Require Import base gmap list strings.
From S2P Require Import Prelude Doubles SourceTypes Selector SourceSteps.

#[local] Open Scope string_scope.
#[local] Open Scope Z_scope.

(** ** Kinds of event *)

Inductive EventSeverity := Info | Notice | Warning | ErrorSeverity.
Definition eventSeverityName (s : EventSeverity) : string :=
  match s with Info => "info" | Notice => "notice" | Warning => "warning" | ErrorSeverity => "error" end.

Inductive EventType :=
| DaemonStarted
| Synchronised | Unsynchronised_ | Coasting | StratumChanged | LeapPending | LeapCleared
| ClassHealthy | ClassUnhealthy | Failover | Failback | StandbyUp | StandbyDown
| SourceReady | SourceLost | SourceRefused | SourceAccepted | SourceReacquire
| LinkUp | LinkDown | StationChanged | TimeRefused | TimeAdopted | OffsetHeld | OffsetReleased
| UpstreamChanged | KissOfDeath | PpsPulsing | PpsStopped.
#[export] Instance EventType_eq_dec : EqDecision EventType.
Proof. solve_decision. Defined.

Record EventTypeInfo := MkTypeInfo { ti_type : EventType; ti_name : string; ti_label : string; ti_category : string; ti_severity : EventSeverity }.
Definition eventTypes : list EventTypeInfo :=
  [MkTypeInfo DaemonStarted "daemon_started" "Daemon started" "daemon" Info;
   MkTypeInfo Synchronised "synchronised" "Synchronised" "clock" Notice;
   MkTypeInfo Unsynchronised_ "unsynchronised" "Unsynchronised" "clock" ErrorSeverity;
   MkTypeInfo Coasting "coasting" "Coasting" "clock" Warning;
   MkTypeInfo StratumChanged "stratum_changed" "Stratum changed" "clock" Info;
   MkTypeInfo LeapPending "leap_pending" "Leap second announced" "clock" Notice;
   MkTypeInfo LeapCleared "leap_cleared" "Leap warning cleared" "clock" Info;
   MkTypeInfo ClassHealthy "class_healthy" "Class healthy" "class" Notice;
   MkTypeInfo ClassUnhealthy "class_unhealthy" "Class unhealthy" "class" Warning;
   MkTypeInfo Failover "failover" "Failed over" "class" Warning;
   MkTypeInfo Failback "failback" "Failed back" "class" Notice;
   MkTypeInfo StandbyUp "standby_up" "Cold standby brought up" "class" Info;
   MkTypeInfo StandbyDown "standby_down" "Cold standby stood down" "class" Info;
   MkTypeInfo SourceReady "source_ready" "Source ready" "source" Notice;
   MkTypeInfo SourceLost "source_lost" "Source lost" "source" Warning;
   MkTypeInfo SourceRefused "source_refused" "Source refused" "source" Warning;
   MkTypeInfo SourceAccepted "source_accepted" "Source accepted again" "source" Notice;
   MkTypeInfo SourceReacquire "source_reacquire" "Source sent to re-acquire" "source" Warning;
   MkTypeInfo LinkUp "link_up" "Receiver connected" "radio" Info;
   MkTypeInfo LinkDown "link_down" "Receiver disconnected" "radio" Warning;
   MkTypeInfo StationChanged "station_changed" "Station identified" "radio" Info;
   MkTypeInfo TimeRefused "time_refused" "Decoded time refused" "radio" Warning;
   MkTypeInfo TimeAdopted "time_adopted" "New decoded time taken" "radio" Warning;
   MkTypeInfo OffsetHeld "offset_held" "Offset held" "radio" Notice;
   MkTypeInfo OffsetReleased "offset_released" "Offset released" "radio" Info;
   MkTypeInfo UpstreamChanged "upstream_changed" "Upstream reference changed" "ntp" Info;
   MkTypeInfo KissOfDeath "kiss_of_death" "Kiss-o'-death" "ntp" ErrorSeverity;
   MkTypeInfo PpsPulsing "pps_pulsing" "1PPS output pulsing" "pps" Notice;
   MkTypeInfo PpsStopped "pps_stopped" "1PPS output stopped" "pps" Warning].
Definition eventTypeInfo (t : EventType) : EventTypeInfo :=
  match List.find (fun i => bool_decide (ti_type i = t)) eventTypes with
  | Some i => i
  | None => hd (MkTypeInfo DaemonStarted "daemon_started" "Daemon started" "daemon" Info) eventTypes
  end.

(** ** The log *)

Record Event := MkEvent { ev_id : Z; ev_unix : double; ev_uptime : double; ev_type : EventType; ev_source : string; ev_kind : option SourceKind }.
Definition kCapacity : nat := 100.
(** [counts] is zero of a type not seen. *)
Record EventLog := MkEventLog { kept : list Event; nextId : Z; counts : EventType -> Z }.
Definition newLog : EventLog := MkEventLog [] 1 (fun _ => 0).
Definition withId (e : Event) (id : Z) : Event := MkEvent id (ev_unix e) (ev_uptime e) (ev_type e) (ev_source e) (ev_kind e).
Definition add (l : EventLog) (e : Event) : EventLog :=
  let es := (kept l ++ [withId e (nextId l)])%list in
  MkEventLog (drop (List.length es - kCapacity) es) (nextId l + 1)
    (fun t => if bool_decide (t = ev_type e) then counts l t + 1 else counts l t).
Definition all (l : EventLog) : list Event := rev (kept l).
Definition latestId (l : EventLog) : Z := nextId l - 1.
Definition countsByType (l : EventLog) : list (string * Z) := map (fun i => (ti_name i, counts l (ti_type i))) eventTypes.
Definition addAll (l : EventLog) (es : list Event) : EventLog := fold_left add es l.

(** ** The monitor *)

(** What is seen of a source in a pass, beside its snapshot. *)
Record Seen := MkSeen {
  o_snap : SourceSnapshot; o_enabled : bool; o_active : bool; o_link : LinkState; o_timeCheck : string; o_timeAdoptions : Z;
  o_offsetHeld : bool; o_holdsTimedOut : Z; o_kissCode : string; o_refid : string
}.
Definition o_name (s : Seen) : string := s_name (o_snap s).
Definition o_kind (s : Seen) : SourceKind := s_kind (o_snap s).
Definition o_stratum (s : Seen) : Z := p_stratum (s_ntp (o_snap s)).

Record Pass := MkPass {
  p_sources : list Seen; p_combined : Combined; p_report : Report; p_secondaryActive : bool; p_unix : double; p_uptime : double
}.

Record SourceState := MkState {
  st_seen : bool; st_ready : bool; st_link : LinkState; st_linkFailReported : bool; st_station : string; st_refused : bool;
  st_rejectingTime : bool; st_timeAdoptions : Z; st_offsetHeld : bool; st_holdsTimedOut : Z; st_kiss : string; st_stratum : Z;
  st_refid : string
}.
Definition newState : SourceState := MkState false false LinkIdle false "" false false 0 false 0 "" 0 "".

(** First sight of a source takes its state as it stands. *)
Definition firstSight (st : SourceState) (s : Seen) : SourceState :=
  if st_seen st then st
  else MkState true (st_ready st) LinkIdle (st_linkFailReported st) (s_station (o_snap s)) (st_refused st) (st_rejectingTime st)
         (st_timeAdoptions st) (st_offsetHeld st) (st_holdsTimedOut st) (o_kissCode s) (o_stratum s) (o_refid s).

Definition when_ (b : bool) (t : EventType) : list EventType := if b then [t] else [].

Definition noteReady (st : SourceState) (s : Seen) : SourceState * list EventType :=
  let ready := s_ready (o_snap s) in
  (MkState (st_seen st) ready (st_link st) (st_linkFailReported st) (st_station st) (st_refused st) (st_rejectingTime st)
     (st_timeAdoptions st) (st_offsetHeld st) (st_holdsTimedOut st) (st_kiss st) (st_stratum st) (st_refid st),
   if Bool.eqb ready (st_ready st) then []
   else if ready then [SourceReady] else when_ (o_enabled s && o_active s) SourceLost).

Definition streaming (l : LinkState) : bool := bool_decide (l = LinkStreaming).
(** The link's event, and whether its failure has been told. *)
Definition noteLink (st : SourceState) (s : Seen) : bool * list EventType :=
  if streaming (o_link s) && negb (streaming (st_link st)) then (false, [LinkUp])
  else if streaming (st_link st) && negb (streaming (o_link s)) && negb (bool_decide (o_link s = LinkStopped)) then (true, [LinkDown])
  else if bool_decide (o_link s = LinkBackoff) && negb (st_linkFailReported st) && o_active s then (true, [LinkDown])
  else (st_linkFailReported st, []).

Definition known (station : string) : bool := negb (String.eqb station "unknown").
Definition noteRadio (st : SourceState) (s : Seen) : SourceState * list EventType :=
  let '(reported, linkEv) := noteLink st s in
  let station := s_station (o_snap s) in
  let rejecting := String.prefix "refused" (o_timeCheck s) in
  (MkState (st_seen st) (st_ready st) (o_link s) reported (if known station then station else st_station st) (st_refused st)
     rejecting (o_timeAdoptions s) (o_offsetHeld s) (o_holdsTimedOut s) (st_kiss st) (st_stratum st) (st_refid st),
   (linkEv ++ when_ (negb (String.eqb station (st_station st)) && known station) StationChanged ++
    when_ (rejecting && negb (st_rejectingTime st)) TimeRefused ++
    when_ (o_timeAdoptions s >? st_timeAdoptions st) TimeAdopted ++
    (if o_offsetHeld s && negb (st_offsetHeld st) then [OffsetHeld] else when_ (negb (o_offsetHeld s) && st_offsetHeld st) OffsetReleased))%list).

Definition properStratum (n : Z) : bool := (0 <? n) && (n <? 16).
Definition noteNtp (st : SourceState) (s : Seen) : SourceState * list EventType :=
  let proper := properStratum (o_stratum s) in
  (MkState (st_seen st) (st_ready st) (st_link st) (st_linkFailReported st) (st_station st) (st_refused st) (st_rejectingTime st)
     (st_timeAdoptions st) (st_offsetHeld st) (st_holdsTimedOut st) (o_kissCode s)
     (if proper then o_stratum s else st_stratum st) (if proper then o_refid s else st_refid st),
   (when_ (negb (String.eqb (o_kissCode s) "") && negb (String.eqb (o_kissCode s) (st_kiss st))) KissOfDeath ++
    when_ (proper && properStratum (st_stratum st) &&
           (negb (o_stratum s =? st_stratum st) || negb (String.eqb (o_refid s) (st_refid st)))) UpstreamChanged)%list).

Definition withRefused (st : SourceState) (refused : bool) : SourceState :=
  MkState (st_seen st) (st_ready st) (st_link st) (st_linkFailReported st) (st_station st) refused (st_rejectingTime st)
    (st_timeAdoptions st) (st_offsetHeld st) (st_holdsTimedOut st) (st_kiss st) (st_stratum st) (st_refid st).
(** No residual is no verdict, and the state holds. *)
Definition noteVerdict (st : SourceState) (r : option SourceResidual) : SourceState * list EventType :=
  match r with
  | None => (st, [])
  | Some r =>
      if sr_refused r && negb (st_refused st) then (withRefused st true, [SourceRefused])
      else if negb (sr_refused r) && sr_judged r && st_refused st then (withRefused st false, [SourceAccepted])
      else (st, [])
  end.

Definition observeSource (r : option SourceResidual) (st : SourceState) (s : Seen) : SourceState * list EventType :=
  let st := firstSight st s in
  let '(st, e1) := noteReady st s in
  let '(st, e2) := match o_kind s with Radio => noteRadio st s | Ntp => noteNtp st s end in
  let '(st, e3) := noteVerdict st r in
  (st, (e1 ++ e2 ++ e3)%list).

(** The monitor: each source's state, the classes' health and whether the
    secondary is up, the side that last served, and what was last served. *)
Record Monitor := MkMonitor {
  m_first : bool; m_sources : gmap string SourceState; m_synchronised : bool; m_everSynchronised : bool; m_serving : ServingClass;
  m_stratum : Z; m_leap : bool; m_side : ServingClass; m_primaryHealthy : bool; m_secondaryHealthy : bool; m_secondaryActive : bool
}.
Definition newMonitor : Monitor := MkMonitor true ∅ false false ServeNone 0 false ServeNone false false true.

Definition stateOf (m : gmap string SourceState) (n : string) : SourceState := default newState (m !! n).
Definition event (p : Pass) (t : EventType) (source : string) (kind : option SourceKind) : Event :=
  MkEvent 0 (p_unix p) (p_uptime p) t source kind.

(** The last residual of each name. *)
Definition residualsOf (rs : list SourceResidual) : gmap string SourceResidual :=
  fold_left (fun m r => <[sr_name r := r]> m) rs ∅.
Definition sourceStep (p : Pass) (rs : gmap string SourceResidual) (me : gmap string SourceState * list Event) (s : Seen) :=
  let '(m, es) := me in
  let '(st, ts) := observeSource (rs !! o_name s) (stateOf m (o_name s)) s in
  (<[o_name s := st]> m, (es ++ map (fun t => event p t (o_name s) (Some (o_kind s))) ts)%list).
Definition observeSources (p : Pass) (m : gmap string SourceState) : gmap string SourceState * list Event :=
  fold_left (sourceStep p (residualsOf (rp_residuals (p_report p)))) (p_sources p) (m, []).
(** A source sent to start over: so does its verdict. *)
Definition reacquireStep (p : Pass) (me : gmap string SourceState * list Event) (n : string) :=
  let '(m, es) := me in
  let kind := fold_left (fun k s => if String.eqb (o_name s) n then o_kind s else k) (p_sources p) Radio in
  (<[n := withRefused (stateOf m n) false]> m, (es ++ [event p SourceReacquire n (Some kind)])%list).
Definition observeReacquire (p : Pass) (m : gmap string SourceState) : gmap string SourceState * list Event :=
  fold_left (reacquireStep p) (rp_reacquire (p_report p)) (m, []).

Definition classHealth (p : Pass) (configured active : bool) (have need : Z) (kind : SourceKind) (was : bool) : bool * list Event :=
  if negb configured then (was, [])
  else if negb active then (false, [])
  else
    let now := (need <=? have) && (0 <? have) in
    if Bool.eqb now was then (was, [])
    else (now, [event p (if now then ClassHealthy else ClassUnhealthy) "" (Some kind)]).

(** The side that serves, and a failover's event or a failback's. *)
Definition observeSide (p : Pass) (pk sk : SourceKind) (side : ServingClass) : ServingClass * list Event :=
  match c_serving (p_combined p), side with
  | ServeSecondary, ServePrimary | ServeSecondary, ServeNone => (ServeSecondary, [event p Failover "" (Some sk)])
  | ServePrimary, ServeSecondary => (ServePrimary, [event p Failback "" (Some pk)])
  | ServePrimary, _ => (ServePrimary, [])
  | ServeSecondary, _ => (ServeSecondary, [])
  | ServeBoth, ServeNone => (ServePrimary, [])
  | _, _ => (side, [])
  end.

Definition coasting (c : ServingClass) : bool := bool_decide (c = ServeCoasting).
Definition isLive (synchronised : bool) (serving : ServingClass) : bool := synchronised && negb (coasting serving).
Definition observeServed (p : Pass) (m : Monitor) : list Event :=
  let c := p_combined p in
  let tell b t := if (b : bool) then [event p t "" None] else [] in
  let live := isLive (c_synchronised c) (c_serving c) in
  let wasLive := isLive (m_synchronised m) (m_serving m) in
  (tell (coasting (c_serving c) && negb (coasting (m_serving m)) && negb (bool_decide (m_serving m = ServeNone))) Coasting ++
   tell (negb (c_synchronised c) && m_synchronised m) Unsynchronised_ ++
   (if live && negb wasLive then [event p Synchronised "" None]
    else tell (live && (0 <? m_stratum m) && negb (c_stratum c =? m_stratum m)) StratumChanged) ++
   (if Bool.eqb (c_leapPending c) (m_leap m) then [] else [event p (if c_leapPending c then LeapPending else LeapCleared) "" None]))%list.

Definition otherKind (k : SourceKind) : SourceKind := match k with Radio => Ntp | Ntp => Radio end.

Definition observe (cfg : SelConfig) (m : Monitor) (p : Pass) : Monitor * list Event :=
  let c := p_combined p in
  let pk := primary (clock cfg) in
  let sk := otherKind pk in
  let '(srcs, e1) := observeSources p (m_sources m) in
  let '(srcs, e2) := observeReacquire p srcs in
  let configured primaryClass := existsb (fun s => o_enabled s && Bool.eqb (s_primaryClass (o_snap s)) primaryClass) (p_sources p) in
  let '(ph, e3) := classHealth p (configured true) true (rp_primaryCandidates (p_report p)) (minSources cfg) pk (m_primaryHealthy m) in
  let '(sh, e4) := classHealth p (configured false) (p_secondaryActive p) (rp_secondaryCandidates (p_report p))
                     (minSecondarySources (clock cfg)) sk (m_secondaryHealthy m) in
  let standby := bool_decide (secondary (clock cfg) = Cold) && configured false &&
                 negb (Bool.eqb (p_secondaryActive p) (m_secondaryActive m)) && negb (m_first m) in
  let e5 := if standby then [event p (if p_secondaryActive p then StandbyUp else StandbyDown) "" (Some sk)] else [] in
  let '(side, e6) := observeSide p pk sk (m_side m) in
  let e7 := observeServed p m in
  let live := isLive (c_synchronised c) (c_serving c) in
  (MkMonitor false srcs (c_synchronised c) (m_everSynchronised m || (live && negb (isLive (m_synchronised m) (m_serving m))))
     (c_serving c) (if live then c_stratum c else m_stratum m) (c_leapPending c) side ph sh (p_secondaryActive p),
   (e1 ++ e2 ++ e3 ++ e4 ++ e5 ++ e6 ++ e7)%list).

(** The daemon's start is an event, before the first pass. *)
Definition started (unix : double) : Event := MkEvent 0 unix 0 DaemonStarted "" None.
(** A run of passes, with all that was told. *)
Fixpoint runMonitor (cfg : SelConfig) (m : Monitor) (ps : list Pass) : Monitor * list Event :=
  match ps with
  | [] => (m, [])
  | p :: ps => let '(m, es) := observe cfg m p in let '(m, es') := runMonitor cfg m ps in (m, (es ++ es')%list)
  end.

(** ** Lemmas: the log *)

Definition numbered (es : list Event) : list Event := imap (fun i e => withId e (Z.of_nat i + 1)) es.
Lemma numbered_snoc es e : numbered (es ++ [e])%list = (numbered es ++ [withId e (Z.of_nat (List.length es) + 1)])%list.
Proof. unfold numbered. rewrite imap_app. cbn. by rewrite Nat.add_0_r. Qed.
Lemma length_numbered es : List.length (numbered es) = List.length es.
Proof. apply length_imap. Qed.
Definition countOf (t : EventType) (es : list Event) : Z := Z.of_nat (List.length (List.filter (fun e => bool_decide (t = ev_type e)) es)).
Lemma addAll_spec es :
  let l := addAll newLog es in
  kept l = drop (List.length es - kCapacity) (numbered es) /\ nextId l = Z.of_nat (List.length es) + 1 /\
  forall t, counts l t = countOf t es.
Proof.
  induction es as [|e es IH] using rev_ind; [done|]. cbv zeta in *. unfold addAll in *. rewrite fold_left_app. cbn [fold_left].
  set (l := fold_left add es newLog) in *. destruct IH as (K & N & C). clearbody l. unfold add. cbn [kept nextId counts]. rewrite K, N, !length_app, numbered_snoc, length_drop, length_numbered. cbn [List.length].
  split; [|split; [lia|]].
  - assert (D : forall (A : Type) (x y : list A) a b, drop a (drop b x ++ y)%list = drop (a + b) (x ++ y)%list \/ (List.length x < b)%nat).
    { intros A x y a b. destruct (decide (b <= List.length x)%nat) as [H|]; [left|lia].
      rewrite (Nat.add_comm a b), <- drop_drop, (drop_app_le x y b) by done. done. }
    destruct (D _ (numbered es) [withId e (Z.of_nat (List.length es) + 1)]
      (List.length es - (List.length es - kCapacity) + 1 - kCapacity)%nat (List.length es - kCapacity)%nat) as [->|H].
    + f_equal. unfold kCapacity. lia.
    + rewrite length_numbered in H. lia.
  - intros t. rewrite C. unfold countOf. rewrite List.filter_app, length_app. cbn. case_bool_decide; cbn; lia.
Qed.

(** ** Lemmas: what the history tells *)

(** What an event may be about; the last event of a topic tells how it stands. *)
Inductive Topic := TReady | TVerdict | THeld | TLink | TClock | TLeap | TSide.
#[export] Instance Topic_eq_dec : EqDecision Topic.
Proof. solve_decision. Defined.
Definition topicOf (t : EventType) : option Topic :=
  match t with
  | SourceReady | SourceLost => Some TReady
  | SourceRefused | SourceAccepted | SourceReacquire => Some TVerdict
  | OffsetHeld | OffsetReleased => Some THeld
  | LinkUp | LinkDown => Some TLink
  | Synchronised | Unsynchronised_ | Coasting => Some TClock
  | LeapPending | LeapCleared => Some TLeap
  | Failover | Failback => Some TSide
  | _ => None
  end.
Definition isAbout (k : Topic) (t : EventType) : bool := bool_decide (topicOf t = Some k).
Definition lastT (k : Topic) (ts : list EventType) : option EventType := last (List.filter (isAbout k) ts).
(** The last event of the topic told of [n]; [""] is the daemon as a whole. *)
Definition lastOf (k : Topic) (n : string) (es : list Event) : option EventType :=
  lastT k (map ev_type (List.filter (fun e => String.eqb (ev_source e) n) es)).
Definition orElse (a b : option EventType) : option EventType := match a with Some t => Some t | None => b end.

Lemma orElse_None a : orElse a None = a.
Proof. by destruct a. Qed.
Lemma last_app_orElse (a b : list EventType) : last (a ++ b)%list = orElse (last b) (last a).
Proof. rewrite last_app. by destruct (last b). Qed.
Lemma lastT_app k a b : lastT k (a ++ b)%list = orElse (lastT k b) (lastT k a).
Proof. unfold lastT. by rewrite List.filter_app, last_app_orElse. Qed.
Lemma lastOf_app k n a b : lastOf k n (a ++ b)%list = orElse (lastOf k n b) (lastOf k n a).
Proof. unfold lastOf. by rewrite List.filter_app, map_app, lastT_app. Qed.
Lemma lastOf_events k n p m kind ts :
  lastOf k n (map (fun t => event p t m kind) ts) = if String.eqb m n then lastT k ts else None.
Proof.
  unfold lastOf. induction ts as [|t ts IH]; [by destruct (String.eqb m n)|]. cbn [map List.filter ev_source event].
  destruct (String.eqb m n) eqn:E; [|exact IH]. cbn [map ev_type]. f_equal. f_equal. clear IH. induction ts as [|x xs IH]; [done|].
  cbn [map List.filter ev_source event]. rewrite E. cbn [map]. by f_equal.
Qed.
Lemma lastOf_event k n p t m kind : lastOf k n [event p t m kind] = if String.eqb m n then lastT k [t] else None.
Proof. apply (lastOf_events k n p m kind [t]). Qed.

(** How a source stands, and what was last told of it. *)
Definition standing (st : SourceState) (l : Topic -> option EventType) : Prop :=
  (st_ready st = true -> l TReady = Some SourceReady) /\
  (st_refused st = true <-> l TVerdict = Some SourceRefused) /\
  (st_offsetHeld st = true <-> l THeld = Some OffsetHeld) /\
  (streaming (st_link st) = true -> l TLink = Some LinkUp).

#[local] Ltac cases := repeat match goal with
  | |- context [when_ ?b _] => destruct b eqn:?; unfold when_
  | |- context [if ?b then _ else _] => destruct b eqn:?
  end.
Definition sourceTopic (k : Topic) : bool := match k with TReady | TVerdict | THeld | TLink => true | _ => false end.
Lemma quiet_ready st s k : k <> TReady -> lastT k (snd (noteReady st s)) = None.
Proof. intros K. unfold noteReady. cbn [snd]. cases; try done; by destruct k. Qed.
Lemma quiet_verdict st r k : k <> TVerdict -> lastT k (snd (noteVerdict st r)) = None.
Proof. intros K. unfold noteVerdict. destruct r; [|done]. cases; try done; by destruct k. Qed.
Lemma quiet_ntp st s k : lastT k (snd (noteNtp st s)) = None.
Proof. unfold noteNtp. cbn [snd]. rewrite lastT_app. cases; by destruct k. Qed.
Lemma radio_told st s k : lastT k (snd (noteRadio st s)) =
  match k with
  | TLink => lastT TLink (snd (noteLink st s))
  | THeld => if o_offsetHeld s && negb (st_offsetHeld st) then Some OffsetHeld
             else if negb (o_offsetHeld s) && st_offsetHeld st then Some OffsetReleased else None
  | _ => None
  end.
Proof.
  unfold noteRadio. destruct (noteLink st s) as [rep ev] eqn:L. cbn [snd]. rewrite !lastT_app.
  assert (Q : k <> TLink -> lastT k ev = None).
  { intros K. unfold noteLink in L. repeat case_match; injection L as _ <-; try done; by destruct k. }
  assert (A : lastT k (if o_offsetHeld s && negb (st_offsetHeld st) then [OffsetHeld]
    else when_ (negb (o_offsetHeld s) && st_offsetHeld st) OffsetReleased) =
    match k with THeld => if o_offsetHeld s && negb (st_offsetHeld st) then Some OffsetHeld
             else if negb (o_offsetHeld s) && st_offsetHeld st then Some OffsetReleased else None | _ => None end).
  { destruct (o_offsetHeld s), (st_offsetHeld st); by destruct k. }
  rewrite A. clear A.
  assert (B : forall b t, topicOf t = None -> lastT k (when_ b t) = None).
  { intros b t E. unfold when_, lastT, isAbout. destruct b; [|done]. cbn. by rewrite E. }
  rewrite !B by done. destruct k; cbn [orElse]; try (by apply Q); try done. rewrite Q by done. by repeat case_match.
Qed.

Definition told (l : Topic -> option EventType) (ts : list EventType) (k : Topic) : option EventType := orElse (lastT k ts) (l k).
Lemma told_eq l ts k : told l ts k = orElse (lastT k ts) (l k).
Proof. reflexivity. Qed.
Lemma standing_ext st l l' : (forall k, sourceTopic k = true -> l k = l' k) -> standing st l -> standing st l'.
Proof. unfold standing. intros E. by rewrite !E. Qed.

Lemma observeSource_standing r st s l : standing st l ->
  let '(st', ts) := observeSource r st s in
  standing st' (told l ts) /\ st_ready st' = s_ready (o_snap s) /\
  (o_kind s = Radio -> st_offsetHeld st' = o_offsetHeld s /\ st_link st' = o_link s) /\
  (forall v, r = Some v -> (sr_refused v = true -> st_refused st' = true) /\ (sr_refused v = false -> sr_judged v = true -> st_refused st' = false)) /\
  (forall k, sourceTopic k = false -> lastT k ts = None).
Proof.
  intros S. unfold observeSource. set (st0 := firstSight st s).
  assert (S0 : standing st0 l).
  { unfold st0, firstSight. destruct (st_seen st); [done|]. destruct S as (A & B & C & D). split_and!; try done. }
  clearbody st0. clear S st. pose proof (quiet_ready st0 s) as QR.
  destruct (noteReady st0 s) as [st1 e1] eqn:E1. cbn [snd] in QR.
  assert (S1 : standing st1 (told l e1) /\ st_ready st1 = s_ready (o_snap s)).
  { unfold noteReady in E1. injection E1 as <- <-. split; [|done]. destruct S0 as (A & B & C & D). unfold standing, told.
    rewrite (QR TVerdict), (QR THeld), (QR TLink) by done. cbn [orElse st_ready st_refused st_offsetHeld st_link]. split_and!; try done.
    intros Y. rewrite Y in *. destruct (st_ready st0); cbn [Bool.eqb]; [by apply A|done]. }
  clear E1. destruct S1 as [S1 R1].
  assert (S2 : forall st2 e2, (match o_kind s with Radio => noteRadio st1 s | Ntp => noteNtp st1 s end) = (st2, e2) ->
    standing st2 (told (told l e1) e2) /\ st_ready st2 = st_ready st1 /\
    (o_kind s = Radio -> st_offsetHeld st2 = o_offsetHeld s /\ st_link st2 = o_link s) /\ forall k, sourceTopic k = false -> lastT k e2 = None).
  { intros st2 e2 E2. destruct S1 as (A & B & C & D). destruct (o_kind s).
    - pose proof (radio_told st1 s) as T. rewrite E2 in T. cbn [snd] in T. unfold standing. rewrite !(told_eq _ e2), !T. unfold noteRadio in E2.
      destruct (noteLink st1 s) as [rep ev] eqn:L. injection E2 as <- _. cbn [st_ready st_refused st_offsetHeld st_link snd orElse].
      split_and!; try done.
      + destruct (o_offsetHeld s), (st_offsetHeld st1); cbn; try done.
      + intros Y. unfold noteLink in L. rewrite Y in L. cbn [negb andb] in L. destruct (streaming (st_link st1)) eqn:Z1; cbn [negb andb] in L.
        * assert (N : bool_decide (o_link s = LinkBackoff) = false) by (unfold streaming in Y; apply bool_decide_eq_true in Y; by rewrite Y).
          rewrite N in L. injection L as _ <-. cbn. by apply D.
        * by injection L as _ <-.
      + intros k K. rewrite T. by destruct k.
    - pose proof (quiet_ntp st1 s) as T. rewrite E2 in T. cbn [snd] in T. unfold standing. rewrite !(told_eq _ e2), !T. unfold noteNtp in E2. injection E2 as <- _.
      by split_and!. }
  destruct (match o_kind s with Radio => noteRadio st1 s | Ntp => noteNtp st1 s end) as [st2 e2].
  destruct (S2 st2 e2 eq_refl) as (S2' & R2 & H2 & Q2). clear S2. rename S2' into S2.
  pose proof (quiet_verdict st2 r) as QV. destruct (noteVerdict st2 r) as [st3 e3] eqn:E3. cbn [snd] in QV.
  assert (S3 : standing st3 (told (told (told l e1) e2) e3) /\ st_ready st3 = st_ready st2 /\ st_offsetHeld st3 = st_offsetHeld st2 /\
    st_link st3 = st_link st2 /\
    forall v, r = Some v -> (sr_refused v = true -> st_refused st3 = true) /\ (sr_refused v = false -> sr_judged v = true -> st_refused st3 = false)).
  { destruct S2 as (A & B & C & D). unfold standing. rewrite !(told_eq _ e3), (QV TReady), (QV THeld), (QV TLink) by done. unfold noteVerdict in E3.
    destruct r as [v|]; [|injection E3 as <- <-; by split_and!].
    destruct (sr_refused v) eqn:V1; cbn [negb andb] in E3.
    - destruct (st_refused st2) eqn:V2; cbn [negb] in E3; injection E3 as <- <-; cbn [orElse]; rewrite ?V2; split_and!; try done; intros ? [= <-]; by rewrite V1, ?V2.
    - destruct (sr_judged v) eqn:V3, (st_refused st2) eqn:V2; cbn [andb] in E3; injection E3 as <- <-; cbn [orElse withRefused]; rewrite ?V2; split_and!; try done;
        intros ? [= <-]; by rewrite V1, ?V3, ?V2. }
  destruct S3 as (S3 & R3 & H3 & L3 & V3). split_and!.
  - eapply standing_ext; [|exact S3]. intros k _. unfold told. rewrite !lastT_app. by destruct (lastT k e3), (lastT k e2).
  - congruence.
  - intros K. destruct (H2 K). split; congruence.
  - done.
  - intros k K. rewrite !lastT_app, QV, Q2, QR by (done || by destruct k). done.
Qed.

Definition tellsOf (m : gmap string SourceState) (es : list Event) : Prop := forall n, standing (stateOf m n) (fun k => lastOf k n es).
Definition quiet (es : list Event) : Prop := forall k n, sourceTopic k = false -> lastOf k n es = None.
Lemma stateOf_insert m n st n' : stateOf (<[n := st]> m) n' = if String.eqb n n' then st else stateOf m n'.
Proof.
  unfold stateOf. destruct (String.eqb_spec n n') as [->|N]; [by rewrite lookup_insert_eq|by rewrite lookup_insert_ne].
Qed.
Lemma quiet_app a b : quiet a -> quiet b -> quiet (a ++ b)%list.
Proof. intros A B k n K. by rewrite lastOf_app, A, B. Qed.

(** What a source's state is after the pass that saw it. *)
Definition caughtUp (rs : gmap string SourceResidual) (s : Seen) (st : SourceState) : Prop :=
  st_ready st = s_ready (o_snap s) /\ (o_kind s = Radio -> st_offsetHeld st = o_offsetHeld s /\ st_link st = o_link s) /\
  forall v, rs !! o_name s = Some v -> (sr_refused v = true -> st_refused st = true) /\ (sr_refused v = false -> sr_judged v = true -> st_refused st = false).

Lemma sourceSteps_told p rs es0 ss : forall m es, tellsOf m (es0 ++ es)%list -> quiet es ->
  let '(m', es') := fold_left (sourceStep p rs) ss (m, es) in
  tellsOf m' (es0 ++ es')%list /\ quiet es' /\ (forall n, ~ In n (map o_name ss) -> stateOf m' n = stateOf m n) /\
  (NoDup (map o_name ss) -> forall s, In s ss -> caughtUp rs s (stateOf m' (o_name s))).
Proof.
  induction ss as [|s ss IH]; intros m es T Q; [by split_and!|]. cbn [fold_left]. unfold sourceStep at 2.
  pose proof (observeSource_standing (rs !! o_name s) (stateOf m (o_name s)) s _ (T (o_name s))) as O.
  destruct (observeSource (rs !! o_name s) (stateOf m (o_name s)) s) as [st ts]. destruct O as (S & R & H & V & K).
  specialize (IH (<[o_name s := st]> m) (es ++ map (fun t => event p t (o_name s) (Some (o_kind s))) ts)%list).
  destruct (fold_left (sourceStep p rs) ss _) as [m' es']. destruct IH as (T' & Q' & F' & C').
  - intros n. rewrite stateOf_insert. destruct (String.eqb_spec (o_name s) n) as [<-|N].
    + eapply standing_ext; [|exact S]. intros k _. cbv beta. by rewrite (assoc_L (++)%list), lastOf_app, lastOf_events, String.eqb_refl.
    + eapply standing_ext; [|exact (T n)]. intros k _. cbv beta. rewrite (assoc_L (++)%list), (lastOf_app _ _ _ (map _ ts)), lastOf_events.
      by destruct (String.eqb_spec (o_name s) n).
  - apply quiet_app; [done|]. intros k n N. rewrite lastOf_events. destruct (String.eqb _ _); [by apply K|done].
  - split_and!; try done.
    + intros n N. rewrite F' by (intros I; apply N; by right). rewrite stateOf_insert. destruct (String.eqb_spec (o_name s) n) as [<-|]; [|done].
      destruct N. by left.
    + intros D x [<-|I].
      * inversion D as [|? ? N D']. rewrite F' by (rewrite <- list_elem_of_In; done). rewrite stateOf_insert, String.eqb_refl. by split_and!.
      * inversion D. by apply C'.
Qed.

Lemma reacquireSteps_told p es0 ns : forall m es, tellsOf m (es0 ++ es)%list -> quiet es ->
  let '(m', es') := fold_left (reacquireStep p) ns (m, es) in
  tellsOf m' (es0 ++ es')%list /\ quiet es' /\ forall n, stateOf m' n = stateOf m n \/ (In n ns /\ stateOf m' n = withRefused (stateOf m n) false).
Proof.
  induction ns as [|x ns IH]; intros m es T Q; [split_and!; try done; by left|]. cbn [fold_left]. unfold reacquireStep at 2.
  set (kind := fold_left _ _ Radio).
  specialize (IH (<[x := withRefused (stateOf m x) false]> m) (es ++ [event p SourceReacquire x (Some kind)])%list).
  destruct (fold_left (reacquireStep p) ns _) as [m' es']. destruct IH as (T' & Q' & F').
  - intros n. rewrite stateOf_insert. destruct (T n) as (A & B & C & D). unfold standing. rewrite (assoc_L (++)%list), !(lastOf_app _ _ (es0 ++ es)%list).
    rewrite !lastOf_event. destruct (String.eqb_spec x n) as [<-|N]; [|by split_and!].
    by split_and!.
  - apply quiet_app; [done|]. intros k n N. rewrite lastOf_event. destruct (String.eqb _ _); [by destruct k|done].
  - split_and!; try done. intros n. destruct (F' n) as [->|[I ->]]; rewrite stateOf_insert; (destruct (String.eqb_spec x n) as [<-|]; [right; split|]).
    + by left.
    + done.
    + by left.
    + by left.
    + done.
    + right. split; [by right|done].
Qed.

(** *** The daemon as a whole *)

Record tells (m : Monitor) (es : list Event) : Prop := {
  tl_sources : tellsOf (m_sources m) es;
  tl_clock : isLive (m_synchronised m) (m_serving m) = true <-> lastOf TClock "" es = Some Synchronised;
  tl_leap : m_leap m = true <-> lastOf TLeap "" es = Some LeapPending;
  tl_side : m_side m = ServeSecondary <-> lastOf TSide "" es = Some Failover;
  tl_sideIs : m_side m = ServeNone \/ m_side m = ServePrimary \/ m_side m = ServeSecondary;
  tl_served : m_synchronised m = true -> m_serving m <> ServeNone
}.
Lemma tells_new : tells newMonitor [].
Proof. split; try done; by left. Qed.

Lemma classHealth_silent p configured active have_ need kind was k n : lastOf k n (snd (classHealth p configured active have_ need kind was)) = None.
Proof.
  unfold classHealth. destruct configured, active; try done. cbn [negb]. destruct (Bool.eqb _ was); [done|]. cbn [snd]. rewrite lastOf_event.
  destruct (String.eqb _ _); [|done]. destruct ((need <=? have_) && (0 <? have_)); by destruct k.
Qed.
Lemma standby_silent p (b c : bool) kind k n : lastOf k n (if b then [event p (if c then StandbyUp else StandbyDown) "" kind] else []) = None.
Proof. destruct b; [|done]. rewrite lastOf_event. destruct (String.eqb _ _); [|done]. destruct c; by destruct k. Qed.
Lemma side_told p pk sk m es : tells m es ->
  let '(side, e) := observeSide p pk sk (m_side m) in
  (side = ServeSecondary <-> orElse (lastOf TSide "" e) (lastOf TSide "" es) = Some Failover) /\
  (side = ServeNone \/ side = ServePrimary \/ side = ServeSecondary) /\ (forall k n, k <> TSide -> lastOf k n e = None) /\
  (c_serving (p_combined p) = ServeSecondary -> side = ServeSecondary) /\ (c_serving (p_combined p) = ServePrimary -> side = ServePrimary).
Proof.
  intros [_ _ _ Sd SdI _]. unfold observeSide. destruct SdI as [E|[E|E]]; rewrite E in *; destruct (c_serving (p_combined p)) eqn:C; cbn [orElse]; split_and!; try done; try tauto;
    try (intros k n K; rewrite lastOf_event; destruct (String.eqb _ _); [by destruct k|done]);
    cbn [lastOf lastT map List.filter last orElse]; rewrite <- Sd; by split.
Qed.

Lemma lastT_one k t : lastT k [t] = if isAbout k t then Some t else None.
Proof. unfold lastT. cbn. by destruct (isAbout k t). Qed.
Lemma lastOf_tell k n p (b : bool) t : lastOf k n (if b then [event p t "" None] else []) = if b && String.eqb "" n && isAbout k t then Some t else None.
Proof. destruct b; [|done]. rewrite lastOf_event, lastT_one. by destruct (String.eqb "" n). Qed.
Lemma lastOf_tell2 k n p (b : bool) t u (b' : bool) :
  lastOf k n (if b then [event p t "" None] else if b' then [event p u "" None] else []) =
  if b && String.eqb "" n && isAbout k t then Some t else if negb b && b' && String.eqb "" n && isAbout k u then Some u else None.
Proof. destruct b; cbn [negb andb]; [|apply lastOf_tell]. rewrite lastOf_event, lastT_one. by destruct (String.eqb "" n), (isAbout k t). Qed.
Lemma lastOf_leap k n p (b c : bool) : k <> TLeap -> lastOf k n (if b then [] else [event p (if c then LeapPending else LeapCleared) "" None]) = None.
Proof. intros K. destruct b; [done|]. rewrite lastOf_event. destruct (String.eqb _ _); [|done]. destruct c; by destruct k. Qed.
Lemma served_told p m es : tells m es -> (c_synchronised (p_combined p) = true -> c_serving (p_combined p) <> ServeNone) ->
  let c := p_combined p in
  let e := observeServed p m in
  (isLive (c_synchronised c) (c_serving c) = true <-> orElse (lastOf TClock "" e) (lastOf TClock "" es) = Some Synchronised) /\
  (c_leapPending c = true <-> orElse (lastOf TLeap "" e) (lastOf TLeap "" es) = Some LeapPending) /\
  (forall k n, k <> TClock -> k <> TLeap -> lastOf k n e = None).
Proof.
  intros [_ Cl Le _ _ Sv] Ne. cbv zeta. unfold observeServed. set (c := p_combined p) in *.
  rewrite !lastOf_app, !lastOf_tell2, !lastOf_tell. unfold isLive in *. clear Ne.
  assert (N : m_synchronised m = true -> bool_decide (m_serving m = ServeNone) = false) by (intros Y; by apply bool_decide_eq_false, Sv).
  split_and!.
  - rewrite !lastOf_leap by done.
    change (isAbout TClock Coasting) with true. change (isAbout TClock Unsynchronised_) with true.
    change (isAbout TClock Synchronised) with true. change (isAbout TClock StratumChanged) with false.
    destruct (bool_decide (m_serving m = ServeNone)), (c_synchronised c), (coasting (c_serving c)), (m_synchronised m), (coasting (m_serving m));
      try (specialize (N eq_refl)); try discriminate; cbn; rewrite ?andb_false_r; cbn; try tauto; split; discriminate.
  - change (isAbout TLeap Coasting) with false. change (isAbout TLeap Unsynchronised_) with false.
    change (isAbout TLeap Synchronised) with false. change (isAbout TLeap StratumChanged) with false. rewrite !andb_false_r.
    destruct (c_leapPending c), (m_leap m); cbn [Bool.eqb orElse]; rewrite ?lastOf_event; cbn; try tauto; split; discriminate.
  - intros k n K1 K2. rewrite !lastOf_app, lastOf_tell2, !lastOf_tell, lastOf_leap by done.
    assert (A : forall t, topicOf t = Some TClock \/ topicOf t = None -> isAbout k t = false).
    { intros t [E|E]; unfold isAbout; rewrite E; by destruct k. }
    rewrite !A by auto. by rewrite !andb_false_r.
Qed.

(** What a pass shows of the sources, if no two have one name. *)
Definition sourcesShown (m : Monitor) (p : Pass) : Prop :=
  NoDup (map o_name (p_sources p)) -> forall s, In s (p_sources p) ->
  let st := stateOf (m_sources m) (o_name s) in
  st_ready st = s_ready (o_snap s) /\ (o_kind s = Radio -> st_offsetHeld st = o_offsetHeld s /\ st_link st = o_link s) /\
  forall v, residualsOf (rp_residuals (p_report p)) !! o_name s = Some v -> ~ In (o_name s) (rp_reacquire (p_report p)) ->
    (sr_refused v = true -> st_refused st = true) /\ (sr_refused v = false -> sr_judged v = true -> st_refused st = false).

Lemma observe_tells cfg m es p : tells m es -> (c_synchronised (p_combined p) = true -> c_serving (p_combined p) <> ServeNone) ->
  let '(m', e) := observe cfg m p in
  tells m' (es ++ e)%list /\ sourcesShown m' p /\
  m_synchronised m' = c_synchronised (p_combined p) /\ m_serving m' = c_serving (p_combined p) /\ m_leap m' = c_leapPending (p_combined p) /\
  (c_serving (p_combined p) = ServeSecondary -> m_side m' = ServeSecondary) /\ (c_serving (p_combined p) = ServePrimary -> m_side m' = ServePrimary).
Proof.
  intros T Ne. pose proof T as [Ts Tc Tl Td Ti Tv]. unfold observe.
  pose proof (sourceSteps_told p (residualsOf (rp_residuals (p_report p))) es (p_sources p) (m_sources m) []) as S.
  unfold observeSources. destruct (fold_left (sourceStep p _) (p_sources p) (m_sources m, [])) as [m1 e1].
  destruct S as (T1 & Q1 & _ & C1); [by rewrite app_nil_r|done|].
  pose proof (reacquireSteps_told p (es ++ e1)%list (rp_reacquire (p_report p)) m1 []) as S.
  unfold observeReacquire. destruct (fold_left (reacquireStep p) (rp_reacquire (p_report p)) (m1, [])) as [m2 e2].
  destruct S as (T2 & Q2 & C2); [by rewrite app_nil_r|done|].
  set (cp := existsb _ (p_sources p)). set (cs := existsb _ (p_sources p)).
  pose proof (fun k n => classHealth_silent p cp true (rp_primaryCandidates (p_report p)) (minSources cfg) (primary (clock cfg)) (m_primaryHealthy m) k n) as Q3.
  destruct (classHealth p cp true _ _ _ _) as [ph e3]. cbn [snd] in Q3.
  pose proof (fun k n => classHealth_silent p cs (p_secondaryActive p) (rp_secondaryCandidates (p_report p)) (minSecondarySources (clock cfg))
    (otherKind (primary (clock cfg))) (m_secondaryHealthy m) k n) as Q4.
  destruct (classHealth p cs (p_secondaryActive p) _ _ _ _) as [sh e4]. cbn [snd] in Q4.
  set (sb := bool_decide (secondary (clock cfg) = Cold) && cs && _ && _).
  pose proof (fun k n => standby_silent p sb (p_secondaryActive p) (Some (otherKind (primary (clock cfg)))) k n) as Q5. set (e5 := if sb then _ else _) in *.
  pose proof (side_told p (primary (clock cfg)) (otherKind (primary (clock cfg))) m es T) as S.
  destruct (observeSide p _ _ (m_side m)) as [side e6]. destruct S as (D1 & D2 & Q6 & D3 & D4).
  pose proof (served_told p m es T Ne) as S. set (e7 := observeServed p m) in *. destruct S as (F1 & F2 & Q7).
  clearbody e5 e7.
  split_and!; try done.
  - split; cbn [m_sources m_synchronised m_serving m_leap m_side]; [| | | |done|exact Ne].
    + intros n. eapply standing_ext; [|exact (T2 n)]. intros k K. cbv beta. rewrite !lastOf_app, Q3, Q4, Q5, Q6, Q7 by (by destruct k). cbn [orElse]. by destruct (lastOf k n e2).
    + rewrite !lastOf_app, Q5, Q3, Q4, (Q6 TClock), Q1, Q2 by done. cbn [orElse]. by rewrite !orElse_None.
    + rewrite !lastOf_app, Q5, Q3, Q4, (Q6 TLeap), Q1, Q2 by done. cbn [orElse]. by rewrite !orElse_None.
    + rewrite !lastOf_app, Q5, Q3, Q4, (Q7 TSide), Q1, Q2 by done. cbn [orElse]. by rewrite !orElse_None.
  - intros D s I st. cbn [m_sources] in st. destruct (C1 D s I) as (R & H & V). unfold st. destruct (C2 (o_name s)) as [->|[I2 ->]].
    + split_and!; try done. intros v E _. by apply V.
    + by split_and!.
Qed.

Lemma combine_serves `{Libm} cfg st snaps now dmr c rp st' : combine cfg st snaps now dmr = (c, rp, st') ->
  c_synchronised c = true -> c_serving c <> ServeNone.
Proof.
  intros E. apply combine_cases in E as [(k0 & rest & _ & _ & -> & _)|(_ & -> & _)].
  - intros _. cbn [combineSurvivors c_serving]. unfold servingOf. by repeat case_match.
  - unfold coast. by destruct (haveLast _).
Qed.
Lemma runMonitor_app cfg ps p : forall m, runMonitor cfg m (ps ++ [p])%list =
  let '(m1, e1) := runMonitor cfg m ps in let '(m2, e2) := observe cfg m1 p in (m2, (e1 ++ e2)%list).
Proof.
  induction ps as [|q ps IH]; intros m; cbn [app runMonitor].
  - destruct (observe cfg m p) as [m' e]. by rewrite app_nil_r.
  - destruct (observe cfg m q) as [m' e]. rewrite IH. destruct (runMonitor cfg m' ps) as [m1 e1]. destruct (observe cfg m1 p) as [m2 e2].
    by rewrite (assoc_L (++)%list).
Qed.
Lemma runMonitor_tells cfg ps : Forall (fun p => c_synchronised (p_combined p) = true -> c_serving (p_combined p) <> ServeNone) ps ->
  let '(m, es) := runMonitor cfg newMonitor ps in tells m es.
Proof.
  induction ps as [|p ps IH] using rev_ind; intros F; [apply tells_new|]. apply Forall_app in F as [F Fp]. inversion Fp. specialize (IH F).
  rewrite runMonitor_app. destruct (runMonitor cfg newMonitor ps) as [m es]. pose proof (observe_tells cfg m es p IH) as O.
  destruct (observe cfg m p) as [m' e]. by apply O.
Qed.

(** ** Theorems *)

(** The log is the history's end. Whatever is recorded, what it holds, the
    newest first, are the last hundred of all recorded, each numbered by its place
    from 1; the latest number is how many there were; and each type is counted
    from the start, whether its events are still held or not. *)
Lemma log_is_history (es : list Event) :
  let l := addAll newLog es in
  all l = rev (drop (List.length es - kCapacity) (numbered es)) /\ (List.length (all l) <= kCapacity)%nat /\
  latestId l = Z.of_nat (List.length es) /\
  countsByType l = map (fun i => (ti_name i, countOf (ti_type i) es)) eventTypes.
Proof.
  destruct (addAll_spec es) as (K & N & C). intros l. split_and!.
  - unfold all, l. by rewrite K.
  - unfold all, l. rewrite length_rev, K, length_drop, length_numbered. lia.
  - unfold latestId, l. rewrite N. lia.
  - unfold countsByType. apply map_ext. intros i. unfold l. by rewrite C.
Qed.

(** C40: the history tells how things stand. After any run of passes the last event
    about the clock is that it synchronised exactly when live time is served, the
    last about a leap second that one is announced exactly when it is, and the last
    about the classes a failover when the secondary serves and not when the primary
    does. If no two sources of the last pass have one name, the last event of a
    source that is ready says so, of a receiver that streams that it does, of one
    whose offset is held or not the same, and of one refused, or judged and not
    refused, its verdict, unless it is just then sent to start over. *)
Theorem history_tells (cfg : SelConfig) (ps : list Pass) (p : Pass) :
  Forall (fun p => c_synchronised (p_combined p) = true -> c_serving (p_combined p) <> ServeNone) (ps ++ [p]) ->
  NoDup (map o_name (p_sources p)) ->
  let es := snd (runMonitor cfg newMonitor (ps ++ [p])) in
  let c := p_combined p in
  (c_synchronised c = true /\ c_serving c <> ServeCoasting <-> lastOf TClock "" es = Some Synchronised) /\
  (c_leapPending c = true <-> lastOf TLeap "" es = Some LeapPending) /\
  (c_serving c = ServeSecondary -> lastOf TSide "" es = Some Failover) /\
  (c_serving c = ServePrimary -> lastOf TSide "" es <> Some Failover) /\
  forall s, In s (p_sources p) ->
    (s_ready (o_snap s) = true -> lastOf TReady (o_name s) es = Some SourceReady) /\
    (o_kind s = Radio -> (o_offsetHeld s = true <-> lastOf THeld (o_name s) es = Some OffsetHeld) /\
                         (o_link s = LinkStreaming -> lastOf TLink (o_name s) es = Some LinkUp)) /\
    forall v, residualsOf (rp_residuals (p_report p)) !! o_name s = Some v -> ~ In (o_name s) (rp_reacquire (p_report p)) ->
      (sr_refused v = true -> lastOf TVerdict (o_name s) es = Some SourceRefused) /\
      (sr_refused v = false -> sr_judged v = true -> lastOf TVerdict (o_name s) es <> Some SourceRefused).
Proof.
  intros F D. apply Forall_app in F as [F Fp]. inversion Fp as [|? ? Np _]. cbv zeta. rewrite runMonitor_app.
  pose proof (runMonitor_tells cfg ps F) as T. destruct (runMonitor cfg newMonitor ps) as [m0 e0].
  pose proof (observe_tells cfg m0 e0 p T Np) as O. destruct (observe cfg m0 p) as [m e]. destruct O as ([Ts Tc Tl Td _ _] & Sh & E1 & E2 & E3 & E4 & E5).
  cbn [snd]. rewrite E1, E2 in Tc. rewrite E3 in Tl. split_and!.
  - rewrite <- Tc. unfold isLive, coasting. rewrite andb_true_iff, negb_true_iff, bool_decide_eq_false. done.
  - exact Tl.
  - intros Y. apply Td. by apply E4.
  - intros Y X. apply Td in X. rewrite E5 in X by done. discriminate.
  - intros s I. destruct (Sh D s I) as (R & Hr & V). destruct (Ts (o_name s)) as (A & B & Cc & L). split_and!.
    + intros Y. apply A. by rewrite R.
    + intros K. destruct (Hr K) as [H1 H2]. rewrite <- H1. split; [done|]. intros Y. apply L. rewrite H2, Y. by apply bool_decide_eq_true.
    + intros v Ev Nr. destruct (V v Ev Nr) as [V1 V2]. split; [intros Y; by apply B, V1|]. intros Y1 Y2 X. apply B in X. rewrite V2 in X; done.
Qed.
(** A receiver that locks, is refused and let in again while the time comes and goes. *)
Definition aSeen (ready held : bool) (link : LinkState) : Seen :=
  MkSeen (MkSnapshot "rx" Radio true ready "" "msf" false true 0 0 0 0 false 0.001 0.001 0 0 0 noPeer 1) true true link "" 0 held 0 "" "".
Definition aPass (ready held : bool) (link : LinkState) (refused : bool) (serving : ServingClass) : Pass :=
  MkPass [aSeen ready held link]
    (MkCombined true (negb (bool_decide (serving = ServeNone))) 0 0 0 0 false 0 0 0 0 1 1 1 0 "MSF" false 0 serving false [] NoNote NoNote)
    (MkReport [] ∅ [] [MkResidual "rx" Radio 0 0 true 3 refused true 200] noDelta 1 0 0 0) true 0 0.
Definition aRun : list Pass := [aPass false false LinkConnecting false ServeNone; aPass true true LinkStreaming true ServePrimary].
Definition aDay : SelConfig := MkSelConfig 3600 1 1 defaultClock.
Example a_history :
  map ev_type (snd (runMonitor aDay newMonitor
    (aRun ++ [aPass true false LinkStreaming false ServeCoasting; aPass false false LinkStreaming false ServeSecondary]))) =
  [ClassHealthy; SourceReady; LinkUp; OffsetHeld; SourceRefused; Synchronised; OffsetReleased; SourceAccepted; Coasting; SourceLost; Failover;
   Synchronised].
Proof. vm_compute. reflexivity. Qed.
Example history_tells_witness : lastOf TClock "" (snd (runMonitor aDay newMonitor (aRun ++ [aPass true false LinkStreaming false ServePrimary]))) = Some Synchronised.
Proof.
  refine (proj1 (proj1 (history_tells aDay aRun (aPass true false LinkStreaming false ServePrimary) _ _)) _).
  - repeat constructor; cbn; intros; discriminate.
  - apply NoDup_singleton.
  - split; [reflexivity|discriminate].
Defined.
